(* ===== verification/_CoqProject ===== *)
-Q . S2P
Prelude.v
GoErrors.v
GoMonad.v
GoStrings.v
GoBase64.v
EngineErrors.v
Uuid.v
DbTypes.v
StatusAdapter.v
ProfileModels.v
SelectorScan.v
Actions.v
Reevaluation.v
SafeTemplate.v
SecurityAdvisory.v
RestRemediate.v
IssueRemediate.v
EntityEvent.v
Properties.v
ApiTypes.v
Validators.v
Database.v
EntityMessage.v
EntityModels.v
ExecLock.v
Eea.v
Reminder.v
HistoryFilter.v
HistoryDb.v
HistoryStore.v
EntityDb.v
ProfileDb.v
ProfileRules.v
ProfileTyping.v
ProfileMerge.v
PropertyService.v
EntityService.v
Repositories.v
ProfileService.v
ProfileSync.v
ProfileLimits.v
EntityHandlers.v
HistoryPurge.v
HistoryList.v
HistoryPages.v
RuleEval.v
Executor.v
ProfileStore.v
Crypto.v
TokenRotation.v
Authz.v
Accounts.v
Email.v
Invites.v
Roles.v
Membership.v
InviteResolution.v
MembershipExamples.v
Identities.v
Access.v
SchemaUpdate.v
DataSourceDb.v
DataSources.v
DataSourceService.v
RuleTypeService.v
RuleTypeSync.v
CatalogExamples.v
GoText.v
DiffIngest.v
PullRequestComment.v
GhBranchProtect.v
ProjectDb.v
Projects.v
ProjectLifecycle.v
ProjectDeletion.v
UserDeletion.v
ProjectService.v
UserService.v
ProjectRequests.v
ProjectExamples.v
