(* ===== verification/Prelude.v ===== *)
(** * Minder: a verification development of the policy evaluation core

    Minder keeps repositories, pull requests, artifacts and other entities in
    line with the profiles of a project: an event about an entity is
    aggregated, the rules of every profile are evaluated against the entity,
    the actions of the rules (a remediation and an alert) are run, and all of
    it is recorded in a history that is listed and purged.  This development
    models that path, from the message of an event to the pages of the history,
    the services that keep the entities and the profiles it works on, who may
    call them and with which role, and the keeping of the tokens it uses.

    ** How the parts interact

    Evaluation.  An event is a message (EntityEvent).  The aggregator (Eea) lets
    it through with the lock of its entity (ExecLock) or remembers it in the
    flush cache; the executor (Executor) decodes it, evaluates each rule with
    its engine (RuleEval), runs the actions engine (Actions) with the engines of
    the rule type (SecurityAdvisory, PullRequestComment, RestRemediate,
    IssueRemediate, GhBranchProtect), records the
    result in one transaction (Database, HistoryStore, HistoryDb), renews the
    lease of the lock after each rule and releases it at the end; then it
    publishes the event to the flush handler of Eea.  The next evaluation starts
    from the row that was recorded.  The history is listed by HistoryList with
    the cursors and filters of HistoryFilter, and purged by HistoryPurge.

    Profiles.  The handlers (ProfileService) validate a profile (Validators,
    ProfileRules) against the rule types of the project's hierarchy, store it in
    one transaction (ProfileDb), rule instances for the executor and JSON for
    the readers, and publish a reconciliation of the project.  What is read back
    is merged from rows (ProfileMerge, SelectorScan).

    Rule types and data sources.  The handlers of rule types (RuleTypeService)
    validate a definition, compare its schemas with those of the version it
    replaces (SchemaUpdate), store it with references to the data sources it
    names, and keep it while a profile uses it.  Data sources are rows of their
    own (DataSourceDb, DataSourceService); before a rule is evaluated, a registry
    of the functions of its data sources is built (DataSources).

    Entities.  Reconciliations, reminders (Reminder) and webhooks publish
    messages (EntityMessage) to the handlers of EntityHandlers, which refresh
    the properties of an entity (PropertyService, Properties, EntityModels),
    create or delete it (EntityService, Repositories, EntityDb) and publish the
    event of the entity.

    Access.  A call passes the interceptors of Access: its token becomes an
    identity (Identities), its project is found, and the relation its handler
    names is asked of the authorization store (Authz).  The roles kept there
    are granted, changed and taken away by the handlers of Roles, by way of
    invitations that are rows of the database (Accounts) and are sent as mails
    (Invites, Email).

    Projects and users.  A user signs up with a token and gets a project
    (UserService, Projects); a project is made below another, listed, changed and
    deleted by ProjectService.  What goes with a project goes by the cascades of
    the tables (ProjectDb) and by calls of the authorization store
    (Projects), which also deletes what a leaving user was the last to
    administer.

    ** The files and the code they model

    - [GoErrors], [EngineErrors]: error values and their chains ([errors.Is],
      [%w]), pkg/engine/errors/errors.go.  An error is a [gerr]; [error] is an
      option of it, nil being [None].
    - [GoMonad]: the control flow of Go.  A call that may fail is a [res]; a
      panic is a third outcome; a call with effects is a [prog W A].  [preserves]
      is the invariance of a program and has a hint database.
    - [GoStrings], [GoBase64], [Uuid]: the parts of strings, strconv,
      encoding/base64 and time the code uses, and the interface of the UUID
      library, with an instance.
    - [DbTypes], [StatusAdapter]: internal/db/models.go,
      internal/adapters/db/errors.go, the entity types and their conversions.
    - [ProfileModels]: pkg/profiles/models/models.go and [EvalStatusParams].
    - [Actions], [Reevaluation]: internal/engine/actions/actions.go, and the
      iteration of evaluations over the row each leaves to the next.
    - [SafeTemplate]: internal/util/safe_template.go and rest.go.
    - [SecurityAdvisory], [RestRemediate], [IssueRemediate], [GhBranchProtect],
      [PullRequestComment]: the engines under internal/engine/actions/, each
      over a record of the provider's calls; the last file also follows the
      review over a series of evaluations.
    - [GoText]: the regular expressions the parsers of differences use, as a
      matcher over an expression type, runes, lines and path/filepath.
    - [DiffIngest]: internal/engine/ingester/diff/ and the theorems
      about the numbers of added lines and the differences of inventories.
    - [EntityEvent]: internal/engine/entities/entity_event.go.
    - [Database]: the tables, the world of the server, the transactions of
      internal/db/store.go, and the programs that only read ([reads]).
    - [ExecLock]: internal/db/entity_execution_lock.sql.go.
    - [Eea]: internal/eea/eea.go.
    - [HistoryDb], [HistoryStore]: the queries of internal/db/eval_history.sql.go,
      eval_outputs.sql.go and profile_status.sql.go, and the recording of
      internal/history/service.go, with [history_wf], the invariant of the five
      tables.
    - [HistoryFilter], [HistoryList], [HistoryPages]: internal/history/models.go
      and service.go and the history handlers of
      internal/controlplane/handlers_evalstatus.go; [HistoryPages] holds the
      specification (the rows a filter asks for, a page, a walk) and the
      theorems.
    - [HistoryPurge]: cmd/server/app/history_purge.go.
    - [RuleEval]: pkg/engine/v1/rtengine/engine.go and internal/engine/ingestcache/.
    - [Executor]: internal/engine/executor.go, eval_status.go, handler.go and
      internal/engine/rtengine/cache.go.
    - [Properties], [EntityModels], [PropertyService]:
      pkg/entities/properties/properties.go, internal/entities/models/models.go
      and internal/entities/properties/service/.
    - [EntityDb], [EntityService], [Repositories]: internal/db/entities.sql.go,
      internal/entities/service/, internal/repositories/service.go and the
      handlers of single repositories, and internal/reconcilers/run_profile.go.
    - [EntityMessage], [EntityHandlers]: internal/entities/handlers/.
    - [Reminder]: internal/reminder/, internal/reminderprocessor/ and
      internal/reconcilers/repository.go, with the ring it refines.
    - [SelectorScan]: internal/db/profile_selector_scan.go, with the output
      format of a composite value and encoding/csv as far as it is used.
    - [ApiTypes], [Validators]: the messages of profiles, rule types and data
      sources, and pkg/api/protobuf/go/minder/v1/validators.go.
    - [ProfileDb], [ProfileRules], [ProfileMerge], [ProfileService]: the queries
      of profiles, rule instances, selectors, rule types and projects;
      pkg/profiles/ (validator, rule names, util, service), pkg/ruletypes/util.go,
      internal/labels/, internal/marketplaces/namespaces/ and
      internal/controlplane/handlers_profile.go.
    - [ProfileTyping], [ProfileSync], [ProfileLimits]: the theorems about them:
      the typing of a profile, the invariant that ties rule instances to the
      rules stored, and the profiles that cannot be stored.
    - [SchemaUpdate]: internal/util/schemaupdate/schemaupdate.go.
    - [DataSourceDb], [DataSources], [DataSourceService]: the queries of data
      sources and rule types, internal/datasources/ (the drivers, the factory,
      the service), pkg/datasources/v1/registry.go and
      internal/controlplane/handlers_datasource.go.
    - [RuleTypeService]: pkg/ruletypes/service.go and
      internal/controlplane/handlers_ruletype.go.
    - [RuleTypeSync]: the theorems about them, the invariant that ties
      references to definitions and the registry of a stored rule type;
      [CatalogExamples] evaluates them, and the behaviours that are at odds with
      what the code means, on small tables.
    - [Crypto], [TokenRotation]: internal/crypto/ and
      cmd/server/app/encryption_rotate.go.
    - [Authz]: internal/authz/ (the roles, the tuples and the client), over the
      calls of OpenFGA it makes and the laws it relies on.
    - [Identities], [Access]: internal/auth/ (the identity client, Keycloak,
      GitHub Actions, JWT validation), internal/controlplane/identity_lookup
      and the interceptors of internal/controlplane/ and internal/util/.
    - [Accounts]: the tables of users, projects, invitations and installations
      and their queries (internal/db/users.sql.go, invitations.sql.go, ...).
    - [Email], [Invites], [Roles]: internal/email/, internal/invites/,
      internal/roles/ and the handlers of roles and invitations.
    - [Membership], [InviteResolution]: the theorems about them: a project keeps
      an admin, an invitee has one invitation to a project, what accepting an
      invitation does; [MembershipExamples] evaluates them on a small
      project.
    - [ProjectDb]: internal/db/projects.sql.go with the rows that go with a
      project, the lemmas about them and the invariant of the tables.
    - [Projects]: internal/projects/ (creator, deleter, names, metadata) and the
      handler's part of creating a project.
    - [ProjectService], [UserService]: internal/controlplane/handlers_projects.go,
      handlers_user.go and identity_events.go.
    - [ProjectLifecycle], [ProjectDeletion], [UserDeletion], [ProjectRequests]:
      the theorems: creating a project, deleting a tree of them, deleting a user,
      and any sequence of requests; [ProjectExamples] evaluates them on a small server.

    ** What the theorems show

    - the actions engine returns whatever an action does, its two decision
      tables are the ones of [shouldRemediate_spec] and [shouldAlert_spec], and
      a skipped evaluation runs nothing; over a series of evaluations an
      advisory and an issue are opened once and closed once
      ([advisory_lifecycle], [issue_lifecycle]);
    - one execution at a time holds the lock of an entity, a lock that was
      taken over is lost for good to its old holder, the aggregator loses no
      event about an entity that exists, and the lock is given back at the end
      of an evaluation;
    - a transaction is all or nothing; an evaluation is recorded entirely or
      not at all, the tables stay well formed through a whole evaluation, and
      the next evaluation reads what was recorded;
    - the ingest cache changes no outcome of any series of evaluations, when
      ingesters answer as a function of what the key is made of, and fetches the
      same data once;
    - a page of the history is exact, following the cursors visits everything
      once, filters and cursors are read back as meant, and one project does
      not see the entries of another;
    - the purge ends and deletes only what is old and the latest of nothing;
    - a validated profile is well typed, in the rules the traversal visits, and a
      well-typed one is accepted; every request keeps the rule instances in step
      with the stored rules, whatever statement fails: one instance for the last
      rule of each name; the validation of rule types is a declarative
      well-formedness and two restrictions of its own ([remediate_settable]),
      after which the engines of their actions can be built;
    - an accepted change of a schema accepts what was accepted before; a data
      source a rule type names is never deleted or renamed under it, and its
      functions are found in the registry of the rule type;
    - refreshing, creating and deleting entities is all or nothing, keeps the
      references between the tables, and is confined to a project; a request to
      refresh ends in exactly one event; the reminder is a round of the ring of
      repositories;
    - a handler runs only for a caller that holds the relation it names on the
      project it is for; a project keeps an admin whoever is removed or
      demoted; at most one invitation is pending for an address and a project;
      accepting one gives exactly its role, or changes nothing; the identity
      that is stored is the one that is resolved, as long as Keycloak knows the
      user;
    - creating a project or an account is all or nothing; deleting a project
      deletes exactly its tree and what refers to it, and a user who leaves
      takes along the projects nobody else administers; after any sequence of
      requests the projects are a forest with distinct names;
    - an added line of a pull request has the number it has in the new file, and
      the difference of two inventories counts what was added; a review is
      written and dismissed once for each turn of the rule;
    - secrets and tokens survive encryption, changes of keys and rotations;
    - events, statuses, entity types, properties and cursors survive their
      round trips, and rendered texts stay within their limits;
    - the last group of theorems pins behaviours at odds with what the code
      means to do: a skip that forgets an open advisory, a dry run that masks an
      alert, a remediation that is repeated, an event lost by a failed
      publication, an entry that blocks the flush, a lock kept by a provider
      that fails, rows a page boundary hides, a purge that does not end, an id
      that panics, an exclusion that is cut, a repository deleted by another
      project, a deletion that is dropped, tokens a rotation skips, profiles
      that cannot be stored.

    ** Conventions and bounds

    A query is one atomic step on the tables; before it works it may fail on the
    connection, as the list [w_faults] of the world says, so that theorems range
    over the failure of any statement.  A statement that fails inside a
    transaction does not by itself fail the later ones, as it would in
    PostgreSQL: the theorems cover more runs than there are.  A transaction restores the tables unless
    it commits; the authorization store is outside of the transactions, as it is
    in the code.  A request on roles or invitations is a sequence of its own
    steps: two requests that interleave are not modelled.  Rows without an order are listed in the order of [map_to_list],
    and rows of equal key in the order of a merge sort; a literal Go map is
    visited in the order it is written: no theorem depends on
    either.  [NOW()] is the clock [w_now], constant in a request.  Times are
    integers of nanoseconds, whole microseconds in the database; lock intervals
    are seconds.  Cursors carry an int64 count of microseconds, with its wrap
    around.  Enumerations are strings with named constants, so that a value
    outside of them reaches the default branch, as in Go.  Texts of errors that
    come from other libraries are abbreviated; no theorem compares them.  Log
    lines, metrics and contexts are left out.

    Fuel: the purge loop takes one unit for each batch, and [purge_complete]
    shows that as many as there are stale records are enough; the walk along the
    cursors takes one for each page, and [history_pages_complete] shows that one
    more than there are rows is enough; the derivation of a profile name tries
    one name more than there are profiles, which [derived_name_fresh] shows to
    be enough; the ancestors of a project are at most the projects, and so are
    the descendants a role is listed over: [DeleteUser] and [ProjectsForUser]
    take that depth as an argument, and the tree of a project takes the number of
    parents there are.  The files of a pull request are read one page for each
    unit of fuel, and [each_file_all] shows that as many as there are pages are
    enough; a new account tries [maxRetries] names, as the code does.

    Code that is not part of the repository is a parameter: protojson, UUID
    parsing, JSON of opaque values, JSON schemas, jq, CEL, the template engines,
    the ciphers, the random bytes, URL joining, OpenFGA, mergo and go-cmp,
    the parser of policies, the markdown libraries, the retries of requests,
    the decoders of files, the parser of tokens,
    the client of Keycloak, the inventories scalibr takes of clones, the merge
    of JSON patches, the marketplace, the feature flags and the deletion of a
    provider with its clean-up.  So are, behind the interfaces the code itself
    uses, the providers, the profile store of the executor, the selectors and
    the engines of the rule types; each theorem that relies on their laws has a
    witness with concrete instances.

    ** Not modelled

    The remediation by pull requests works on a git repository in a file system;
    the scanners of homoglyphs and vulnerabilities, the other ingesters and the
    providers are clients of remote services; the listing of evaluation results
    and the status of profiles are queries that only read.  The command line,
    generated code, configuration, logging and metrics are I/O or glue. *)

From stdpp Require Export base list gmap strings sorting.
From Stdlib Require Export ZArith Lia.

Set Default Proof Using "Type".

(** ** Tactics of the development *)

(** [case_goal] destructs the first [match] scrutinee of the goal, keeping the
    equation; [case_hyp H] does it in [H]. *)
Ltac case_goal :=
  match goal with
  | |- context [match ?x with _ => _ end] =>
      lazymatch x with context [match _ with _ => _ end] => fail | _ => idtac end;
      destruct x eqn:?
  end.

Ltac case_hyp H :=
  match type of H with
  | context [match ?x with _ => _ end] =>
      lazymatch x with context [match _ with _ => _ end] => fail | _ => idtac end;
      destruct x eqn:?
  end.

(** Case analysis on the integer comparisons of the goal. *)
Ltac zbool :=
  repeat (first
    [ match goal with |- context [Z.leb ?a ?b] => destruct (Z.leb_spec a b) end
    | match goal with |- context [Z.ltb ?a ?b] => destruct (Z.ltb_spec a b) end
    | match goal with |- context [Z.eqb ?a ?b] => destruct (Z.eqb_spec a b) end ];
    simpl; try lia).

(** Case analysis on a membership in a literal list. *)
Ltac list_cases H :=
  match type of H with
  | _ ∈ [] => exfalso; exact (not_elem_of_nil _ H)
  | _ ∈ _ :: _ =>
      let H1 := fresh "Hcase" in
      pose proof (proj1 (elem_of_cons _ _ _) H) as H1; clear H;
      destruct H1 as [H1|H1]; [subst|list_cases H1]
  | ?x ∈ ?l => let l' := eval hnf in l in progress change (x ∈ l') in H; list_cases H
  end.

(** Decide the decisions of the goal that are closed. *)
Ltac bool_consts :=
  repeat match goal with
  | |- context [bool_decide ?P] =>
      let v := eval vm_compute in (bool_decide P) in
      lazymatch v with
      | true => change (bool_decide P) with true
      | false => change (bool_decide P) with false
      end
  end.

(** ** Growing a set until nothing is added *)

Section grow.
Context `{Countable A} (f : gset A → gset A).

Fixpoint grow (fuel : nat) (s : gset A) : gset A :=
  match fuel with O => s | S fuel => grow fuel (f s) end.

Lemma grow_ind (P : A → Prop) :
  (∀ s, set_Forall P s → set_Forall P (f s)) →
  ∀ fuel s, set_Forall P s → set_Forall P (grow fuel s).
Proof. intros Hf fuel. induction fuel as [|fuel IH]; intros s Hs; [done|]. by apply IH, Hf. Qed.

Lemma grow_fix fuel s : f s = s → grow fuel s = s.
Proof. intros Hs. induction fuel as [|fuel IH]; [done|]. simpl. by rewrite Hs. Qed.

Context (f_incl : ∀ s, s ⊆ f s).

Lemma grow_incl fuel s : s ⊆ grow fuel s.
Proof using f_incl.
  revert s. induction fuel as [|fuel IH]; intros s; [done|]. simpl. etrans; [apply f_incl|apply IH].
Qed.

(** As many steps as there are elements to add are enough. *)
Lemma grow_closed (U : gset A) fuel s :
  (∀ s, f s ⊆ s ∪ U) → size (U ∖ s) ≤ fuel → f (grow fuel s) = grow fuel s.
Proof using f_incl.
  intros HU. revert s. induction fuel as [|fuel IH]; intros s Hs; simpl.
  - assert (Hemp : U ∖ s ≡ ∅) by (apply size_empty_inv; lia).
    pose proof (f_incl s) as Hi. pose proof (HU s) as Hu.
    apply set_eq. intros j. split; [|apply Hi]. intros [Hj|Hj]%Hu%elem_of_union; [done|].
    destruct (decide (j ∈ s)) as [|Hn]; [done|]. exfalso.
    by apply (not_elem_of_empty (C := gset A) j), Hemp, elem_of_difference.
  - destruct (decide (f s = s)) as [Heq|Hne]; [by rewrite Heq, !grow_fix|].
    apply IH. pose proof (f_incl s) as Hi. pose proof (HU s) as Hu.
    assert (Hlt : U ∖ f s ⊂ U ∖ s).
    { split; [set_solver|]. intros Hback. apply Hne, set_eq. intros j. split; [|set_solver].
      intros Hj. destruct (decide (j ∈ s)) as [|Hnj]; [done|]. set_solver. }
    apply subset_size in Hlt. lia.
Qed.
End grow.

(** ** Lists *)

Lemma list_filter_all {A} (P : A → Prop) `{∀ x, Decision (P x)} (l : list A) :
  (∀ x, x ∈ l → P x) → filter P l = l.
Proof.
  induction l as [|x l IH]; intros HP; [done|]. rewrite filter_cons_True by (apply HP; by left).
  rewrite IH; [done|]. intros y Hy. apply HP. by right.
Qed.

Lemma list_filter_none {A} (P : A → Prop) `{∀ x, Decision (P x)} (l : list A) :
  (∀ x, x ∈ l → ¬ P x) → filter P l = [].
Proof.
  induction l as [|x l IH]; intros HP; [done|]. rewrite filter_cons_False by (apply HP; by left).
  apply IH. intros y Hy. apply HP. by right.
Qed.

Lemma list_filter_ext_in {A} (P Q : A → Prop) `{∀ x, Decision (P x)} `{∀ x, Decision (Q x)}
    (l : list A) :
  (∀ x, x ∈ l → P x ↔ Q x) → filter P l = filter Q l.
Proof.
  induction l as [|x l IH]; intros HPQ; [done|]. rewrite !filter_cons.
  rewrite IH by (intros y Hy; apply HPQ; by right).
  specialize (HPQ x (list_elem_of_here _ _)).
  destruct (decide (P x)), (decide (Q x)); tauto || done.
Qed.
