(* ===== verification/GoErrors.v ===== *)
(** * Go error values

    The part of the Go [errors] and [fmt] packages the modelled code uses: an
    [error] is [option gerr] ([None] is [nil]); [errors.New] makes a value whose
    identity is the variable it is bound to; [fmt.Errorf] wraps through [%w].
    The engine's own [*EvaluationError] (pkg/engine/errors/errors.go) is a
    constructor of its own, since [errors.As] looks for its type. *)

From S2P Require Import Prelude.

(** An opaque Go value ([any]), identified by a rendering of it. *)
Record any := Any { any_repr : string }.

#[export] Instance any_eq_dec : EqDecision any.
Proof. solve_decision. Defined.

(** [ENew id text]: the value [errors.New text] bound to the package variable
    [id].  [EText text]: an anonymous [errors.New]/[fmt.Errorf] without [%w];
    its pointer is equal to no sentinel.  [EWrap pre e post]:
    [fmt.Errorf (pre ++ "%w" ++ post)].  [EWrap2]: two [%w] verbs.
    [EEvaluation base msg tmpl args]: an [*EvaluationError].
    [ERuleValidation text ruleType]: a [*RuleValidationError] of pkg/profiles. *)
Inductive gerr :=
| ENew (id text : string)
| EText (text : string)
| EWrap (pre : string) (e : gerr) (post : string)
| EWrap2 (pre : string) (e1 : gerr) (mid : string) (e2 : gerr) (post : string)
| EEvaluation (base : gerr) (msg tmpl : string) (args : any)
| ERuleValidation (text ruleType : string).

#[export] Instance gerr_eq_dec : EqDecision gerr.
Proof. solve_decision. Defined.

(** The interface type [error]. *)
Abbreviation error := (option gerr).

Definition dquote : Ascii.ascii := Ascii.ascii_of_nat 34.

(** The [Error()] method; names that are quoted hold nothing to escape. *)
Fixpoint Error (e : gerr) : string :=
  match e with
  | ENew _ text | EText text => text
  | EWrap pre e post => pre +:+ Error e +:+ post
  | EWrap2 pre e1 mid e2 post => pre +:+ Error e1 +:+ mid +:+ Error e2 +:+ post
  | EEvaluation base msg _ _ => Error base +:+ ": " +:+ msg
  | ERuleValidation text ruleType =>
      "error in rule " +:+ String dquote ruleType +:+ String dquote ": " +:+ text
  end.

(** The identity of a sentinel; [errors.Is] compares pointers, so the text is
    not looked at. *)
Definition err_id (e : gerr) : option string :=
  match e with ENew id _ => Some id | _ => None end.

(** [errors.Is], on a non-nil error: walk the tree of wrapped errors. *)
Fixpoint is_in (e target : gerr) : bool :=
  match e with
  | ENew id _ => bool_decide (Some id = err_id target)
  | EText _ | ERuleValidation _ _ => false
  | EWrap _ e _ => is_in e target
  | EWrap2 _ e1 _ e2 _ => is_in e1 target || is_in e2 target
  | EEvaluation base _ _ _ => is_in base target
  end.

Definition errors_Is (err : error) (target : gerr) : bool :=
  match err with None => false | Some e => is_in e target end.

(** [errors.As] at type [*EvaluationError]: the first one in the tree, in
    depth-first order, as its (base, message, template, arguments). *)
Fixpoint as_evaluation (e : gerr) : option (gerr * string * string * any) :=
  match e with
  | ENew _ _ | EText _ | ERuleValidation _ _ => None
  | EWrap _ e _ => as_evaluation e
  | EWrap2 _ e1 _ e2 _ =>
      match as_evaluation e1 with Some x => Some x | None => as_evaluation e2 end
  | EEvaluation base msg tmpl args => Some (base, msg, tmpl, args)
  end.

(** [errors.As] at type [*RuleValidationError], as its (text, rule type). *)
Fixpoint as_rule_validation (e : gerr) : option (string * string) :=
  match e with
  | ENew _ _ | EText _ => None
  | EWrap _ e _ => as_rule_validation e
  | EWrap2 _ e1 _ e2 _ =>
      match as_rule_validation e1 with Some x => Some x | None => as_rule_validation e2 end
  | EEvaluation base _ _ _ => as_rule_validation base
  | ERuleValidation text ruleType => Some (text, ruleType)
  end.

(** [errors.Join(a, b)] *)
Definition errors_Join (a b : gerr) : gerr :=
  EWrap2 EmptyString a (String (Ascii.ascii_of_nat 10) EmptyString) b EmptyString.

(** [sql.ErrNoRows] of the standard library. *)
Definition ErrNoRows : gerr := ENew "sql.ErrNoRows" "sql: no rows in result set".

(** [util.UserVisibleError] and [status.Error]: a status of a code, with its
    text. *)
Definition status_error (code msg : string) : gerr :=
  EWrap (code +:+ ": ") (EText msg) EmptyString.

(** [util.UserVisibleError] and [status.Errorf] around an error. *)
Definition failing (code text : string) (e : gerr) : gerr := status_error code (text +:+ Error e).

(** ** Lemmas *)

Lemma is_in_wrap pre e post t : is_in (EWrap pre e post) t = is_in e t.
Proof. reflexivity. Qed.

Lemma is_in_self id text : is_in (ENew id text) (ENew id text) = true.
Proof. simpl. by apply bool_decide_eq_true_2. Qed.

Lemma is_in_ENew_ne id text id' text' :
  id ≠ id' → is_in (ENew id text) (ENew id' text') = false.
Proof. intros. simpl. apply bool_decide_eq_false_2. congruence. Qed.

Lemma errors_Is_None t : errors_Is None t = false.
Proof. reflexivity. Qed.

Lemma errors_Is_Some_inv err t :
  errors_Is err t = true → ∃ e, err = Some e ∧ is_in e t = true.
Proof. destruct err; simpl; eauto; discriminate. Qed.

Create Rewrite HintDb goerr.
#[export] Hint Rewrite is_in_wrap is_in_self errors_Is_None : goerr.
