(* ===== verification/GoMonad.v ===== *)
(** * Go control flow: results, panics and stateful calls

    A Go function returning [(T, error)] is modelled with [res T]; a panic is a
    third outcome, which unwinds like an error but is neither wrapped nor
    tested by [err != nil].  A function that reads or changes state [W] is a
    [prog W T].  The combinators are the patterns the code uses:
    - [x ← m; k]            [x, err := m; if err != nil { return err }; k]
    - [wrapf pre m]         [... return fmt.Errorf(pre + "%w", err)]
    - [or_throw f m]       [... return f(err)]
    - [try m]               [x, err := m], the error inspected by what follows
    - [defer d m]           [defer d()] around the rest [m] of the function. *)

From S2P Require Import Prelude GoErrors.

Inductive res (A : Type) :=
| Ok (a : A)
| Err (e : gerr)
| Panic (msg : string).
Arguments Ok {A} _.
Arguments Err {A} _.
Arguments Panic {A} _.

#[export] Instance res_ret : MRet res := @Ok.
#[export] Instance res_bind : MBind res := λ A B f r,
  match r with Ok a => f a | Err e => Err e | Panic s => Panic s end.
#[export] Instance res_fmap : FMap res := λ A B f r,
  match r with Ok a => Ok (f a) | Err e => Err e | Panic s => Panic s end.

(** [fmt.Errorf(pre + "%w", err)] on the error of a pure call. *)
Definition wrapf_res {A} (pre : string) (r : res A) : res A :=
  match r with Err e => Err (EWrap pre e "") | r => r end.

(** A function whose only result is an [error]. *)
Definition of_error (err : error) : res unit :=
  match err with None => Ok tt | Some e => Err e end.

Definition to_error (r : res unit) : error :=
  match r with Err e => Some e | _ => None end.

Definition is_ok {A} (r : res A) : bool :=
  match r with Ok _ => true | _ => false end.

(** ** Stateful programs *)

Definition prog (W A : Type) : Type := W → W * res A.

Section prog.
Context {W : Type}.

#[export] Instance prog_ret : MRet (prog W) := λ A a w, (w, Ok a).
#[export] Instance prog_bind : MBind (prog W) := λ A B f m w,
  match m w with
  | (w', Ok a) => f a w'
  | (w', Err e) => (w', Err e)
  | (w', Panic s) => (w', Panic s)
  end.
#[export] Instance prog_fmap : FMap (prog W) := λ A B f m w,
  let '(w', r) := m w in (w', f <$> r).

Definition lift {A} (r : res A) : prog W A := λ w, (w, r).
Definition throw {A} (e : gerr) : prog W A := lift (Err e).
Definition gets {A} (f : W → A) : prog W A := λ w, (w, Ok (f w)).
Definition modify (f : W → W) : prog W unit := λ w, (f w, Ok tt).

Definition wrapf {A} (pre : string) (m : prog W A) : prog W A := λ w,
  let '(w', r) := m w in (w', wrapf_res pre r).

(** [x, err := m]: the call's outcome as a value.  A panic still unwinds. *)
Definition try {A} (m : prog W A) : prog W (A + gerr) := λ w,
  match m w with
  | (w', Ok a) => (w', Ok (inl a))
  | (w', Err e) => (w', Ok (inr e))
  | (w', Panic s) => (w', Panic s)
  end.

(** [x, err := m; if err != nil { return nil, f(err) }] *)
Definition or_throw {A} (f : gerr → gerr) (m : prog W A) : prog W A :=
  r ← try m;
  match r with
  | inl a => mret a
  | inr err => throw (f err)
  end.

(** [defer d()]: [d] runs when the rest returns, fails or panics; what [d]
    returns is dropped, and a panic of [d] replaces the outcome. *)
Definition defer {A} (d : prog W unit) (m : prog W A) : prog W A := λ w,
  let '(w1, r) := m w in
  match d w1 with
  | (w2, Panic s) => (w2, Panic s)
  | (w2, _) => (w2, r)
  end.

(** [for _, x := range l { if err := f(x); err != nil { return err } }] *)
Fixpoint foreach {A} (f : A → prog W unit) (l : list A) : prog W unit :=
  match l with
  | [] => mret tt
  | x :: l => f x ;; foreach f l
  end.

(** Two programs are the same when they do the same from every state. *)
Definition prog_eq {A} (m1 m2 : prog W A) : Prop := ∀ w, m1 w = m2 w.

#[export] Instance prog_equiv {A} : Equiv (prog W A) := prog_eq.

#[export] Instance prog_equivalence {A} : Equivalence (≡@{prog W A}).
Proof.
  split.
  - by intros m w.
  - intros m1 m2 H w. symmetry. apply H.
  - intros m1 m2 m3 H1 H2 w. by rewrite (H1 w).
Qed.

#[export] Instance prog_bind_proper {A B} (f : A → prog W B) :
  Proper ((≡) ==> (≡)) (prog_bind A B f).
Proof. intros m1 m2 H w. unfold prog_bind. by rewrite (H w). Qed.

#[export] Instance wrapf_proper {A} pre : Proper ((≡) ==> (≡)) (@wrapf A pre).
Proof. intros m1 m2 H w. unfold wrapf. by rewrite (H w). Qed.

#[export] Instance try_proper {A} : Proper ((≡) ==> (≡)) (@try A).
Proof. intros m1 m2 H w. unfold try. by rewrite (H w). Qed.

Lemma prog_bind_ret_l {A B} (a : A) (f : A → prog W B) : (mret a ≫= f) ≡ f a.
Proof. done. Qed.

Lemma prog_bind_assoc {A B C} (m : prog W A) (f : A → prog W B) (g : B → prog W C) :
  ((m ≫= f) ≫= g) ≡ (m ≫= λ a, f a ≫= g).
Proof.
  intros w. unfold mbind, prog_bind. by destruct (m w) as [w' [a|e|s]].
Qed.
End prog.

(** ** Inversion of successful runs *)

Lemma prog_bind_Ok {W A B} (m : prog W A) (f : A → prog W B) w w' b :
  (m ≫= f) w = (w', Ok b) ↔ ∃ w1 a, m w = (w1, Ok a) ∧ f a w1 = (w', Ok b).
Proof.
  unfold mbind, prog_bind. destruct (m w) as [w1 [a|e|s]]; split.
  - intros H. by exists w1, a.
  - intros (w2 & a' & [= -> ->] & H). done.
  - discriminate.
  - intros (w2 & a' & H & _). discriminate.
  - discriminate.
  - intros (w2 & a' & H & _). discriminate.
Qed.

Lemma prog_bind_run {W A B} (m : prog W A) (f : A → prog W B) w w1 a :
  m w = (w1, Ok a) → (m ≫= f) w = f a w1.
Proof. intros H. unfold mbind, prog_bind. by rewrite H. Qed.

Lemma prog_bind_run_Err {W A B} (m : prog W A) (f : A → prog W B) w w1 e :
  m w = (w1, Err e) → (m ≫= f) w = (w1, Err e).
Proof. intros H. unfold mbind, prog_bind. by rewrite H. Qed.

(** A run goes through the first part, or ends in it. *)
Lemma prog_bind_inv {W A B} (m : prog W A) (f : A → prog W B) w w' r :
  (m ≫= f) w = (w', r) →
  (∃ w1 a, m w = (w1, Ok a) ∧ f a w1 = (w', r)) ∨
  (is_ok r = false ∧ ∃ r1, m w = (w', r1) ∧ is_ok r1 = false).
Proof.
  unfold mbind, prog_bind. destruct (m w) as [w1 [a|e|s]]; [by eauto|..];
    intros [= <- <-]; right; eauto.
Qed.

Lemma wrapf_Ok {W A} pre (m : prog W A) w w' a :
  wrapf pre m w = (w', Ok a) ↔ m w = (w', Ok a).
Proof.
  unfold wrapf. destruct (m w) as [w1 [x|e|s]]; simpl; naive_solver.
Qed.

Lemma wrapf_Err {W A} pre (m : prog W A) w w' e :
  m w = (w', Err e) → wrapf pre m w = (w', Err (EWrap pre e "")).
Proof. unfold wrapf. by intros ->. Qed.

Lemma or_throw_Ok {W A} f (m : prog W A) w w' a : or_throw f m w = (w', Ok a) ↔ m w = (w', Ok a).
Proof.
  unfold or_throw, mbind, prog_bind, try. destruct (m w) as [w1 [x|e|msg]]; [done|by split; intros [=]..].
Qed.

Lemma or_throw_state {W A} f (m : prog W A) w : (or_throw f m w).1 = (m w).1.
Proof. unfold or_throw, mbind, prog_bind, try. by destruct (m w) as [w1 []]. Qed.

(** A loop that runs to its end keeps what its steps keep. *)
Lemma foreach_Ok {W A} (I : W → Prop) (f : A → prog W unit) l w w' :
  (∀ x w w', x ∈ l → I w → f x w = (w', Ok tt) → I w') →
  I w → foreach f l w = (w', Ok tt) → I w'.
Proof.
  revert w. induction l as [|x l IH]; intros w Hf Hw; cbn.
  - by intros [= <-].
  - rewrite prog_bind_Ok. intros (w1 & [] & Hx & Hl). apply (IH w1); [| |done].
    + intros y wy wy' Hy. apply Hf. by right.
    + apply (Hf x w); [left|done..].
Qed.

(** ** Invariants of programs

    [preserves I m]: whatever the outcome, [m] keeps [I].  The combinators are
    closed under it, so a component's invariant is proved once per query. *)
Definition preserves {W A} (I : W → Prop) (m : prog W A) : Prop :=
  ∀ w, I w → I (m w).1.

Section preserves.
Context {W : Type} (I : W → Prop).

Lemma preserves_ret {A} (a : A) : preserves I (mret a : prog W A).
Proof. by intros w. Qed.
Lemma preserves_lift {A} (r : res A) : preserves I (lift r : prog W A).
Proof. by intros w. Qed.
Lemma preserves_throw {A} e : preserves I (throw e : prog W A).
Proof. by intros w. Qed.
Lemma preserves_gets {A} (f : W → A) : preserves I (gets f).
Proof. by intros w. Qed.
Lemma preserves_modify f : (∀ w, I w → I (f w)) → preserves I (modify f).
Proof. intros Hf w Hw. by apply Hf. Qed.
Lemma preserves_bind {A B} (m : prog W A) (f : A → prog W B) :
  preserves I m → (∀ a, preserves I (f a)) → preserves I (m ≫= f).
Proof.
  intros Hm Hf w Hw. specialize (Hm w Hw). unfold mbind, prog_bind.
  destruct (m w) as [w1 [a|e|s]]; simpl in *; [by apply Hf|done|done].
Qed.
(** What holds in between may be stronger. *)
Lemma preserves_then {A B} (J : W → Prop) (m : prog W A) (f : A → prog W B) w :
  preserves J m → (∀ w, J w → I w) → (∀ a w, J w → I (f a w).1) → J w → I ((m ≫= f) w).1.
Proof.
  intros Hm HJ Hf Hw. specialize (Hm w Hw). unfold mbind, prog_bind.
  destruct (m w) as [w1 [a|e|s]]; cbn in *; auto.
Qed.
Lemma preserves_after {A B} (m : prog W A) (f : A → prog W B) w :
  I (m w).1 → (∀ a, preserves I (f a)) → I ((m ≫= f) w).1.
Proof.
  intros Hm Hf. unfold mbind, prog_bind. destruct (m w) as [w1 [a|e|s]]; cbn in *; [|done..].
  by apply Hf.
Qed.
Lemma preserves_wrapf {A} pre (m : prog W A) :
  preserves I m → preserves I (wrapf pre m).
Proof.
  intros Hm w Hw. specialize (Hm w Hw). unfold wrapf. by destruct (m w).
Qed.
Lemma preserves_try {A} (m : prog W A) : preserves I m → preserves I (try m).
Proof.
  intros Hm w Hw. specialize (Hm w Hw). unfold try.
  by destruct (m w) as [w1 []].
Qed.
Lemma preserves_or_throw {A} f (m : prog W A) : preserves I m → preserves I (or_throw f m).
Proof.
  intros Hm w Hw. specialize (Hm w Hw). unfold or_throw, mbind, prog_bind, try.
  by destruct (m w) as [w1 []].
Qed.
Lemma preserves_defer {A} d (m : prog W A) :
  preserves I d → preserves I m → preserves I (defer d m).
Proof.
  intros Hd Hm w Hw. specialize (Hm w Hw). unfold defer.
  destruct (m w) as [w1 r]; simpl in Hm. specialize (Hd w1 Hm).
  by destruct (d w1) as [w2 []].
Qed.
Lemma preserves_foreach {A} (f : A → prog W unit) l :
  (∀ x, preserves I (f x)) → preserves I (foreach f l).
Proof.
  intros Hf. induction l as [|x l IH]; simpl.
  - apply preserves_ret.
  - apply preserves_bind; [done|]. by intros _.
Qed.
End preserves.

Create HintDb preserves.
#[export] Hint Resolve preserves_ret preserves_lift preserves_throw preserves_gets
  preserves_bind preserves_wrapf preserves_try preserves_defer preserves_or_throw
  preserves_foreach
  : preserves.
