(* ===== verification/GoStrings.v ===== *)
(** * The Go string, number and encoding functions the code uses

    [strings.HasPrefix], [Split], [TrimPrefix], [ToLower]; [strconv.ParseInt]
    and [%d] formatting; [base64.StdEncoding].  A Go string is a byte string,
    so it is a Rocq [string]. *)

From S2P Require Import Prelude.
From Stdlib Require Import DecimalString DecimalZ DecimalFacts.
From Stdlib Require Import Ascii.
Local Open Scope string_scope.

(** ** Concatenation *)

Lemma append_cons c (s1 s2 : string) : String c s1 +:+ s2 = String c (s1 +:+ s2).
Proof. reflexivity. Qed.

Lemma append_nil_r (s : string) : s +:+ "" = s.
Proof. induction s as [|c s IH]; [done|]. by rewrite append_cons, IH. Qed.

Lemma append_assoc (s1 s2 s3 : string) : (s1 +:+ s2) +:+ s3 = s1 +:+ (s2 +:+ s3).
Proof. induction s1 as [|c s1 IH]; [done|]. by rewrite !append_cons, IH. Qed.

Lemma chars_append s t : String.list_ascii_of_string (s +:+ t)
  = (String.list_ascii_of_string s ++ String.list_ascii_of_string t)%list.
Proof. induction s as [|c s IH]; [done|]. rewrite append_cons. simpl. by rewrite IH. Qed.

Lemma length_append (s t : string) :
  String.length (s +:+ t) = (String.length s + String.length t)%nat.
Proof. induction s as [|c s IH]; [done|]. rewrite append_cons. simpl. by rewrite IH. Qed.

Lemma substring_length n (s : string) :
  (n ≤ String.length s)%nat → String.length (String.substring 0 n s) = n.
Proof.
  revert s. induction n as [|n IH]; intros [|c s]; cbn; [done..|lia|].
  intros Hn. by rewrite IH by lia.
Qed.

(** ** package strings *)
Module Strings.
Definition HasPrefix (s pre : string) : bool := String.prefix pre s.

Fixpoint drop (n : nat) (s : string) : string :=
  match n, s with
  | O, _ => s
  | S _, EmptyString => EmptyString
  | S n, String _ s => drop n s
  end.

Definition TrimPrefix (s pre : string) : string :=
  if HasPrefix s pre then drop (String.length pre) s else s.

(** [strings.ReplaceAll] of a text that is not empty; so many bytes of [s] are
    those of the last occurrence. *)
Fixpoint replace_from (skip : nat) (s old new : string) : string :=
  match s with
  | EmptyString => EmptyString
  | String c s' =>
      match skip with
      | S skip => replace_from skip s' old new
      | O => if HasPrefix s old then new +:+ replace_from (String.length old - 1) s' old new
             else String c (replace_from 0 s' old new)
      end
  end.

Definition ReplaceAll (s old new : string) : string := replace_from 0 s old new.

(** The one occurrence at the end; for the empty suffix, nothing. *)
Fixpoint TrimSuffix (s suf : string) : string :=
  if String.eqb s suf then EmptyString
  else match s with
       | EmptyString => EmptyString
       | String c s => String c (TrimSuffix s suf)
       end.

(** [strings.Split(s, sep)] for a one-byte separator: one piece more than
    there are separators, so never empty. *)
Fixpoint Split (s : string) (sep : Ascii.ascii) : list string :=
  match s with
  | EmptyString => [EmptyString]
  | String c s' =>
      if bool_decide (c = sep) then EmptyString :: Split s' sep
      else match Split s' sep with
           | piece :: rest => String c piece :: rest
           | [] => [String c EmptyString]
           end
  end.

Fixpoint Contains (s : string) (c : Ascii.ascii) : bool :=
  match s with
  | EmptyString => false
  | String c' s => bool_decide (c' = c) || Contains s c
  end.

(** [strings.ToLower], as far as a comparison with an ASCII string sees it:
    the ASCII capitals, and the two other capitals whose lower case is ASCII
    (U+0130, bytes C4 B0, gives [i]; the Kelvin sign U+212A, bytes E2 84 AA,
    gives [k]).  Every other non-ASCII letter stays non-ASCII in Go; here its
    bytes are kept. *)
Definition lower_byte (c : Ascii.ascii) : Ascii.ascii :=
  let n := Ascii.nat_of_ascii c in
  if (65 <=? n)%nat && (n <=? 90)%nat then Ascii.ascii_of_nat (n + 32) else c.

Fixpoint ToLower (s : string) : string :=
  match s with
  | EmptyString => EmptyString
  | String c1 s1 =>
      match s1 with
      | EmptyString => String (lower_byte c1) (ToLower s1)
      | String c2 s2 =>
          if bool_decide (c1 = "196"%char ∧ c2 = "176"%char)
          then String "i" (ToLower s2)
          else match s2 with
               | EmptyString => String (lower_byte c1) (ToLower s1)
               | String c3 s3 =>
                   if bool_decide (c1 = "226"%char ∧ c2 = "132"%char ∧ c3 = "170"%char)
                   then String "k" (ToLower s3)
                   else String (lower_byte c1) (ToLower s1)
               end
      end
  end.

(** [strings.ToUpper], in the same sense: the ASCII letters, and the two other
    letters whose upper case is ASCII (U+0131, bytes C4 B1, gives [I]; U+017F,
    bytes C5 BF, gives [S]). *)
Definition upper_byte (c : Ascii.ascii) : Ascii.ascii :=
  let n := Ascii.nat_of_ascii c in
  if (97 <=? n)%nat && (n <=? 122)%nat then Ascii.ascii_of_nat (n - 32) else c.

Fixpoint ToUpper (s : string) : string :=
  match s with
  | EmptyString => EmptyString
  | String c1 s1 =>
      match s1 with
      | EmptyString => String (upper_byte c1) (ToUpper s1)
      | String c2 s2 =>
          if bool_decide (c1 = "196"%char ∧ c2 = "177"%char)
          then String "I" (ToUpper s2)
          else if bool_decide (c1 = "197"%char ∧ c2 = "191"%char)
          then String "S" (ToUpper s2)
          else String (upper_byte c1) (ToUpper s1)
      end
  end.

(** The white space of Unicode, in UTF-8. *)
Definition white_space : list string :=
  let bytes l := String.string_of_list_ascii (ascii_of_nat <$> l) in
  bytes <$> [[9]; [10]; [11]; [12]; [13]; [32]; [194; 133]; [194; 160]; [225; 154; 128];
    [226; 128; 128]; [226; 128; 129]; [226; 128; 130]; [226; 128; 131]; [226; 128; 132];
    [226; 128; 133]; [226; 128; 134]; [226; 128; 135]; [226; 128; 136]; [226; 128; 137];
    [226; 128; 138]; [226; 128; 168]; [226; 128; 169]; [226; 128; 175]; [226; 129; 159];
    [227; 128; 128]].

Fixpoint trim_left (fuel : nat) (s : string) : string :=
  match fuel with
  | O => s
  | S fuel =>
      match filter (λ w, HasPrefix s w = true) white_space with
      | w :: _ => trim_left fuel (TrimPrefix s w)
      | [] => s
      end
  end.

(** The longest rest that is all white space is cut. *)
Fixpoint trim_right (s : string) : string :=
  if String.eqb (trim_left (String.length s) s) "" then ""
  else match s with
       | EmptyString => ""
       | String c s => String c (trim_right s)
       end.

Definition TrimSpace (s : string) : string := trim_right (trim_left (String.length s) s).

Lemma HasPrefix_cons c s : HasPrefix (String c s) (String c "") = true.
Proof.
  unfold HasPrefix. simpl. destruct (ascii_dec c c); [by destruct s|congruence].
Qed.

Lemma Split_not_nil s sep : Split s sep ≠ [].
Proof.
  destruct s as [|c s]; simpl; [done|].
  case_bool_decide; [done|]. by destruct (Split s sep).
Qed.

Lemma Split_no_sep s sep : Contains s sep = false → Split s sep = [s].
Proof.
  induction s as [|c s IH]; simpl; [done|].
  intros [Hc Hs]%orb_false_iff. rewrite Hc. by rewrite (IH Hs).
Qed.

Lemma Split_app s t sep : Contains s sep = false →
  Split (s +:+ String sep t) sep = s :: Split t sep.
Proof.
  induction s as [|c s IH]; intros Hs.
  - change ("" +:+ String sep t) with (String sep t). cbn. by rewrite bool_decide_eq_true_2.
  - cbn in Hs. apply orb_false_iff in Hs as [Hc Hs]. rewrite append_cons. cbn [Split].
    by rewrite Hc, IH.
Qed.

(** The piece after a leading separator is what stands before the next one. *)
Fixpoint until (s : string) (sep : Ascii.ascii) : string :=
  match s with
  | EmptyString => EmptyString
  | String c s => if bool_decide (c = sep) then EmptyString else String c (until s sep)
  end.

Lemma Split_head s sep : ∃ rest, Split s sep = until s sep :: rest.
Proof.
  induction s as [|c s [rest IH]]; simpl; [by exists []|].
  case_bool_decide; [by eexists|]. rewrite IH. by eexists.
Qed.

Lemma Split_lead sep s :
  nth_error (Split (String sep s) sep) 1 = Some (until s sep).
Proof.
  simpl. rewrite bool_decide_eq_true_2 by done. simpl.
  destruct (Split_head s sep) as [rest ->]. done.
Qed.

Lemma until_no_sep s sep : Contains s sep = false → until s sep = s.
Proof.
  induction s as [|c s IH]; simpl; [done|].
  intros [-> Hs]%orb_false_iff. by rewrite (IH Hs).
Qed.

Lemma until_Contains s sep : Contains (until s sep) sep = false.
Proof.
  induction s as [|c s IH]; simpl; [done|].
  destruct (bool_decide (c = sep)) eqn:E; simpl; [done|]. by rewrite E.
Qed.
End Strings.

(** ** package strconv *)
Module Strconv.
Definition int64_min : Z := - 2 ^ 63.
Definition int64_max : Z := 2 ^ 63 - 1.
Definition is_int64 (z : Z) : Prop := (int64_min ≤ z ≤ int64_max)%Z.

(** [fmt.Sprintf("%d", z)] *)
Definition FormatInt (z : Z) : string := NilZero.string_of_int (Z.to_int z).

(** The magnitude: one or more decimal digits. *)
Definition parse_digits (s : string) : option Z :=
  Z.of_uint <$> NilZero.uint_of_string s.

Definition in_range (z : Z) : option Z :=
  if (int64_min <=? z)%Z && (z <=? int64_max)%Z then Some z else None.

(** [strconv.ParseInt(s, 10, 64)]: an optional sign, then digits; [None] is
    its [ErrSyntax] or [ErrRange]. *)
Definition ParseInt (s : string) : option Z :=
  match s with
  | String "+" s' => parse_digits s' ≫= in_range
  | String "-" s' => parse_digits s' ≫= λ z, in_range (- z)
  | _ => parse_digits s ≫= in_range
  end.

Definition is_uint64 (z : Z) : Prop := (0 ≤ z < 2 ^ 64)%Z.

(** [strconv.ParseUint(s, 10, 64)]: digits without a sign. *)
Definition ParseUint (s : string) : option Z :=
  parse_digits s ≫= λ z, if (z <? 2 ^ 64)%Z then Some z else None.

Lemma in_range_Some z : is_int64 z → in_range z = Some z.
Proof.
  unfold in_range. intros [H1 H2].
  by rewrite (proj2 (Z.leb_le _ _) H1), (proj2 (Z.leb_le _ _) H2).
Qed.

Lemma in_range_inv z z' : in_range z = Some z' → z' = z ∧ is_int64 z.
Proof.
  unfold in_range. destruct (_ && _) eqn:E; [|done]. intros [= <-].
  apply andb_true_iff in E as [?%Z.leb_le ?%Z.leb_le]. by split.
Qed.

Lemma ParseInt_range s z : ParseInt s = Some z → is_int64 z.
Proof.
  assert (Hd : ∀ s', parse_digits s' ≫= in_range = Some z → is_int64 z).
  { intros s' (u & _ & [-> ?]%in_range_inv)%bind_Some. done. }
  assert (Hn : ∀ s', (parse_digits s' ≫= λ u, in_range (- u)) = Some z → is_int64 z).
  { intros s' (u & _ & [-> ?]%in_range_inv)%bind_Some. done. }
  unfold ParseInt. intros H. repeat case_hyp H; eauto.
Qed.

Lemma to_int_not_nil z : Z.to_int z ≠ Decimal.Pos Decimal.Nil ∧ Z.to_int z ≠ Decimal.Neg Decimal.Nil.
Proof.
  split; intros H; pose proof (f_equal Z.of_int H) as H';
    rewrite DecimalZ.of_to in H'; simpl in H'; subst z; discriminate.
Qed.

Lemma string_of_uint_digit u :
  ∃ c s, NilZero.string_of_uint u = String c s ∧ c ≠ "+"%char ∧ c ≠ "-"%char.
Proof. destruct u; simpl; eauto 10. Qed.

Lemma parse_digits_format u :
  u ≠ Decimal.Nil → parse_digits (NilZero.string_of_uint u) = Some (Z.of_uint u).
Proof. intros Hu. unfold parse_digits. by rewrite NilZero.usu. Qed.

Lemma ParseInt_unsigned u :
  u ≠ Decimal.Nil →
  ParseInt (NilZero.string_of_uint u) = in_range (Z.of_uint u).
Proof.
  intros Hu. pose proof (parse_digits_format u Hu) as Hp.
  destruct (string_of_uint_digit u) as (c & s & Hs & H1 & H2).
  unfold ParseInt. rewrite Hs in *.
  destruct c as [[] [] [] [] [] [] [] []]; try congruence; by rewrite Hp.
Qed.

Lemma ParseInt_FormatInt z : is_int64 z → ParseInt (FormatInt z) = Some z.
Proof.
  intros Hz. unfold FormatInt. destruct (to_int_not_nil z) as [Hp Hn].
  pose proof (DecimalZ.of_to z) as Hof.
  destruct (Z.to_int z) as [u|u] eqn:E; simpl in *.
  - rewrite ParseInt_unsigned by congruence. rewrite Hof. by apply in_range_Some.
  - unfold ParseInt. rewrite parse_digits_format by congruence. simpl.
    rewrite Hof. by apply in_range_Some.
Qed.

Lemma ParseUint_FormatInt z : is_uint64 z → ParseUint (FormatInt z) = Some z.
Proof.
  intros Hz. unfold FormatInt, ParseUint. destruct (to_int_not_nil z) as [Hp _].
  pose proof (DecimalZ.of_to z) as Hof.
  assert (Hneg : ∀ u, Z.to_int z = Decimal.Neg u → False).
  { intros u E. unfold is_uint64 in Hz. destruct z; simpl in E; [discriminate..|lia]. }
  destruct (Z.to_int z) as [u|u] eqn:E; [|by destruct (Hneg u)].
  simpl in *. rewrite parse_digits_format by congruence. rewrite Hof. simpl.
  destruct Hz as [_ Hz]. by rewrite (proj2 (Z.ltb_lt _ _) Hz).
Qed.

Lemma FormatInt_nonneg_head z :
  (0 ≤ z)%Z → ∃ c s, FormatInt z = String c s ∧ c ≠ "+"%char ∧ c ≠ "-"%char.
Proof.
  intros Hz. unfold FormatInt. pose proof (DecimalZ.of_to z) as Hof.
  destruct (Z.to_int z) as [u|u] eqn:E; simpl in *; [apply string_of_uint_digit|].
  exfalso. destruct z as [|p|p]; try done; lia.
Qed.
End Strconv.
