(* ===== verification/GoBase64.v ===== *)
(** * [base64.StdEncoding] and [time.Time]

    Encoding and decoding as the Go standard library does them: padded, the
    decoder skipping line breaks and not checking the unused bits of the last
    group.  A [time.Time] is its number of nanoseconds since the Unix epoch. *)

From S2P Require Import Prelude GoStrings.
From Stdlib Require Import Ascii.
Local Open Scope string_scope.

Module Base64.
Definition alphabet : string :=
  "ABCDEFGHIJKLMNOPQRSTUVWXYZabcdefghijklmnopqrstuvwxyz0123456789+/".

Definition byte (n : Z) : ascii := ascii_of_N (Z.to_N n).
Definition code (c : ascii) : Z := Z.of_N (N_of_ascii c).

Definition enc (n : Z) : ascii :=
  match String.get (Z.to_nat n) alphabet with Some c => c | None => "="%char end.

Fixpoint index_of (c : ascii) (s : string) (i : Z) : option Z :=
  match s with
  | EmptyString => None
  | String c' s => if bool_decide (c = c') then Some i else index_of c s (i + 1)
  end.

Definition dec (c : ascii) : option Z := index_of c alphabet 0.

Definition pad : ascii := "="%char.

(** [EncodeToString] *)
Fixpoint encode (l : list ascii) : list ascii :=
  match l with
  | [] => []
  | [a] => [enc (code a / 4); enc (code a mod 4 * 16); pad; pad]
  | [a; b] => [enc (code a / 4); enc (code a mod 4 * 16 + code b / 16);
               enc (code b mod 16 * 4); pad]
  | a :: b :: c :: l =>
      enc (code a / 4) :: enc (code a mod 4 * 16 + code b / 16) ::
      enc (code b mod 16 * 4 + code c / 64) :: enc (code c mod 64) :: encode l
  end.

(** [DecodeString], after the line breaks are dropped; [None] is a
    [CorruptInputError]. *)
Fixpoint decode_quanta (l : list ascii) : option (list ascii) :=
  match l with
  | [] => Some []
  | c1 :: c2 :: c3 :: c4 :: l =>
      match dec c1, dec c2 with
      | Some x1, Some x2 =>
          if bool_decide (c3 = pad) then
            if bool_decide (c4 = pad ∧ l = [])
            then Some [byte (x1 * 4 + x2 / 16)] else None
          else match dec c3 with
          | Some x3 =>
              if bool_decide (c4 = pad) then
                if bool_decide (l = [])
                then Some [byte (x1 * 4 + x2 / 16); byte (x2 mod 16 * 16 + x3 / 4)]
                else None
              else match dec c4 with
              | Some x4 =>
                  app [byte (x1 * 4 + x2 / 16); byte (x2 mod 16 * 16 + x3 / 4);
                       byte (x3 mod 4 * 64 + x4)] <$> decode_quanta l
              | None => None
              end
          | None => None
          end
      | _, _ => None
      end
  | _ => None
  end.

Definition not_newline (c : ascii) : Prop := c ≠ "013"%char ∧ c ≠ "010"%char.

Definition EncodeToString (s : string) : string :=
  String.string_of_list_ascii (encode (String.list_ascii_of_string s)).

Definition DecodeString (s : string) : option string :=
  String.string_of_list_ascii <$>
    decode_quanta (filter not_newline (String.list_ascii_of_string s)).

(** ** The round trip *)

Lemma code_bounds c : (0 ≤ code c < 256)%Z.
Proof. unfold code. pose proof (N_ascii_bounded c). lia. Qed.

Lemma byte_code c : byte (code c) = c.
Proof. unfold byte, code. by rewrite N2Z.id, ascii_N_embedding. Qed.

Definition all64 (P : Z → bool) : bool :=
  forallb (λ n, P (Z.of_nat n)) (seq 0 64).

Lemma all64_spec P n : all64 P = true → (0 ≤ n < 64)%Z → P n = true.
Proof.
  unfold all64. rewrite forallb_forall. intros H Hn.
  rewrite <-(Z2Nat.id n) by lia. apply H, in_seq. lia.
Qed.

Lemma dec_enc n : (0 ≤ n < 64)%Z → dec (enc n) = Some n.
Proof.
  intros Hn.
  assert (H : bool_decide (dec (enc n) = Some n) = true).
  { refine (all64_spec (λ m, bool_decide (dec (enc m) = Some m)) n _ Hn).
    by vm_compute. }
  by apply bool_decide_eq_true in H.
Qed.

Lemma enc_plain n :
  (0 ≤ n < 64)%Z → enc n ≠ pad ∧ not_newline (enc n).
Proof.
  intros Hn.
  assert (H : bool_decide (enc n ≠ pad ∧ not_newline (enc n)) = true).
  { refine (all64_spec (λ m, bool_decide (enc m ≠ pad ∧ not_newline (enc m))) n _ Hn).
    by vm_compute. }
  by apply bool_decide_eq_true in H.
Qed.

Lemma enc_not_pad n : (0 ≤ n < 64)%Z → bool_decide (enc n = pad) = false.
Proof. intros Hn. apply bool_decide_eq_false_2. by apply enc_plain. Qed.

Ltac sextet := Z.to_euclidean_division_equations; lia.

(** One full group is decoded to the three bytes it encodes. *)
Lemma bytes_1 a b :
  byte (code a / 4 * 4 + (code a mod 4 * 16 + code b / 16) / 16) = a.
Proof.
  rewrite <-(byte_code a) at 3. f_equal.
  pose proof (code_bounds a); pose proof (code_bounds b). sextet.
Qed.
Lemma bytes_1' a : byte (code a / 4 * 4 + (code a mod 4 * 16) / 16) = a.
Proof.
  rewrite <-(byte_code a) at 3. f_equal. pose proof (code_bounds a). sextet.
Qed.
Lemma bytes_2 a b c :
  byte ((code a mod 4 * 16 + code b / 16) mod 16 * 16
        + (code b mod 16 * 4 + code c / 64) / 4) = b.
Proof.
  rewrite <-(byte_code b) at 3. f_equal.
  pose proof (code_bounds a); pose proof (code_bounds b); pose proof (code_bounds c).
  sextet.
Qed.
Lemma bytes_2' a b :
  byte ((code a mod 4 * 16 + code b / 16) mod 16 * 16 + (code b mod 16 * 4) / 4) = b.
Proof.
  rewrite <-(byte_code b) at 3. f_equal.
  pose proof (code_bounds a); pose proof (code_bounds b). sextet.
Qed.
Lemma bytes_3 b c :
  byte ((code b mod 16 * 4 + code c / 64) mod 4 * 64 + code c mod 64) = c.
Proof.
  rewrite <-(byte_code c) at 3. f_equal.
  pose proof (code_bounds b); pose proof (code_bounds c). sextet.
Qed.

Ltac bounds_then tac :=
  repeat match goal with
         | |- context [code ?x] =>
             lazymatch goal with
             | _ : (0 ≤ code x < 256)%Z |- _ => fail
             | _ => pose proof (code_bounds x)
             end
         end; tac.

Lemma decode_encode l : decode_quanta (encode l) = Some l.
Proof.
  remember (length l) as n eqn:Hn.
  assert (Hle : (length l ≤ n)%nat) by lia. clear Hn.
  revert l Hle. induction n as [|n IH]; intros [|a [|b [|c k]]] Hle;
    simpl in Hle; try lia; try done.
  all: cbn [encode decode_quanta].
  all: rewrite ?dec_enc by (bounds_then sextet).
  all: rewrite ?(bool_decide_eq_true_2 (pad = pad)) by done.
  all: rewrite ?enc_not_pad by (bounds_then sextet).
  all: rewrite ?(bool_decide_eq_true_2 (pad = pad)) by done.
  all: rewrite ?bool_decide_eq_true_2 by done.
  all: rewrite ?dec_enc by (bounds_then sextet).
  - by rewrite bytes_1'.
  - by rewrite bytes_1, bytes_2'.
  - rewrite IH by lia. simpl. by rewrite bytes_1, bytes_2, bytes_3.
Qed.

(** The encoding holds characters of the alphabet and padding only. *)
Lemma encode_Forall (P : ascii → Prop) l :
  P pad → (∀ n, (0 ≤ n < 64)%Z → P (enc n)) → Forall P (encode l).
Proof.
  intros Hpad Henc. remember (length l) as n eqn:Hn.
  assert (Hle : (length l ≤ n)%nat) by lia. clear Hn.
  revert l Hle. induction n as [|n IH]; intros [|a [|b [|c k]]] Hle;
    simpl in Hle; try lia; cbn [encode]; repeat constructor; try done;
    try (apply Henc; bounds_then sextet).
  apply IH. lia.
Qed.

Lemma encode_no_newline l : filter not_newline (encode l) = encode l.
Proof.
  apply list_filter_all. rewrite <-Forall_forall. apply encode_Forall; [done|].
  intros n Hn. by apply enc_plain.
Qed.

Lemma DecodeString_EncodeToString s : DecodeString (EncodeToString s) = Some s.
Proof.
  unfold DecodeString, EncodeToString.
  rewrite String.list_ascii_of_string_of_list_ascii, encode_no_newline, decode_encode.
  simpl. by rewrite String.string_of_list_ascii_of_string.
Qed.
End Base64.

(** ** package time *)
Module Time.
Local Open Scope Z_scope.
(** Nanoseconds since the Unix epoch. *)
Definition t := Z.

Definition UnixMicro_of (usec : Z) : t := usec * 1000.

(** [t.UnixMicro()]: an [int64], wrapping outside its range. *)
Definition wrap_int64 (z : Z) : Z := (z + 2 ^ 63) mod 2 ^ 64 - 2 ^ 63.
Definition UnixMicro (t : t) : Z := wrap_int64 (t / 1000).

Definition After (t u : t) : bool := (u <? t)%Z.

Lemma wrap_int64_id z : Strconv.is_int64 z → wrap_int64 z = z.
Proof.
  unfold Strconv.is_int64, Strconv.int64_min, Strconv.int64_max, wrap_int64.
  intros Hz. rewrite Z.mod_small by lia. lia.
Qed.

Lemma UnixMicro_of_UnixMicro t :
  (1000 | t)%Z → Strconv.is_int64 (t / 1000) → UnixMicro_of (UnixMicro t) = t.
Proof.
  intros [k ->] Hr. unfold UnixMicro_of, UnixMicro.
  rewrite wrap_int64_id by done. by rewrite Z.div_mul.
Qed.
End Time.
