(* ===== verification/EngineErrors.v ===== *)
(** * The engine's errors: pkg/engine/errors/errors.go

    The sentinels an evaluation and an action end with, the constructors that
    wrap them, the classification of action errors, the [LimitedWriter] and the
    [Details] of an evaluation error.  The two evaluation sentinels live in
    pkg/engine/v1/interfaces/interfaces.go. *)

From S2P Require Import Prelude GoErrors GoMonad GoStrings.
Local Open Scope string_scope.
Local Open Scope Z_scope.

(** ** Sentinels *)

Definition ErrEvaluationFailed : gerr :=
  ENew "interfaces.ErrEvaluationFailed" "evaluation failure".
Definition ErrEvaluationSkipped : gerr :=
  ENew "interfaces.ErrEvaluationSkipped" "evaluation skipped".
Definition ErrInternal : gerr := ENew "errors.ErrInternal" "internal minder error".
Definition ErrEvaluationSkipSilently : gerr :=
  ENew "errors.ErrEvaluationSkipSilently" "evaluation skipped silently".
Definition ErrActionSkipped : gerr := ENew "errors.ErrActionSkipped" "action skipped".
Definition ErrActionPending : gerr := ENew "errors.ErrActionPending" "action pending".
Definition ErrActionFailed : gerr := ENew "errors.ErrActionFailed" "action failed".
Definition ErrActionNotAvailable : gerr :=
  ENew "errors.ErrActionNotAvailable" "action not available".
Definition ErrActionTurnedOff : gerr :=
  ENew "errors.ErrActionTurnedOff" "action turned off".
Definition ErrUnauthorized : gerr := ENew "errors.ErrUnauthorized" "unauthorized".
Definition ErrForbidden : gerr := ENew "errors.ErrForbidden" "forbidden".
Definition ErrNotFound : gerr := ENew "errors.ErrNotFound" "not found".
Definition ErrValidateOrSpammed : gerr :=
  ENew "errors.ErrValidateOrSpammed" "validation or spammed error".
Definition ErrClientError : gerr := ENew "errors.ErrClientError" "client error".
Definition ErrServerError : gerr := ENew "errors.ErrServerError" "server error".
Definition ErrOther : gerr := ENew "errors.ErrOther" "other error".

(** ** Constructors

    The argument [msg] is the text [fmt.Sprintf(sfmt, args...)] builds. *)

Definition NewDetailedErrEvaluationFailed (tmpl : string) (tmplArgs : any) (msg : string) : gerr :=
  EEvaluation ErrEvaluationFailed msg tmpl tmplArgs.

Definition NewErrEvaluationFailed (msg : string) : gerr :=
  EEvaluation ErrEvaluationFailed msg "" (Any "<nil>").

Definition NewErrEvaluationSkipped (msg : string) : gerr :=
  EWrap "" ErrEvaluationSkipped (": " +:+ msg).

Definition NewErrEvaluationSkipSilently (msg : string) : gerr :=
  EWrap "" ErrEvaluationSkipSilently (": " +:+ msg).

Definition NewErrActionFailed (msg : string) : gerr :=
  EWrap "" ErrActionFailed (": " +:+ msg).

(** ** Classification of action errors *)

Definition IsActionInformativeError (err : error) : bool :=
  errors_Is err ErrActionSkipped ||
  errors_Is err ErrActionNotAvailable ||
  errors_Is err ErrActionTurnedOff ||
  errors_Is err ErrActionPending.

Definition IsActionFatalError (err : error) : bool :=
  bool_decide (err ≠ None) && negb (IsActionInformativeError err).

(** ** The error wrapper for actions

    A [json.RawMessage] is a byte string, [None] being the nil slice. *)
Record ActionsError := {
  RemediateErr : error;
  RemediateMeta : option string;
  AlertErr : error;
  AlertMeta : option string;
}.

(** ** HTTP status codes *)

Definition HTTPErrorCodeToErr (httpCode : Z) : error :=
  if (200 <=? httpCode) && (httpCode <? 300) then None
  else if httpCode =? 401 then Some ErrUnauthorized
  else if httpCode =? 403 then Some ErrForbidden
  else if httpCode =? 404 then Some ErrNotFound
  else if httpCode =? 422 then Some ErrValidateOrSpammed
  else if (400 <=? httpCode) && (httpCode <? 500) then Some ErrClientError
  else if 500 <=? httpCode then Some ErrServerError
  else Some ErrOther.

(** ** LimitedWriter *)

Definition io_ErrShortBuffer : gerr := ENew "io.ErrShortBuffer" "short buffer".

(** An [io.Writer]: the new state of the writer, the bytes it took, an error. *)
Record Writer (W : Type) := { writer_write : W → string → W * Z * error }.
Arguments writer_write {W} _ _ _.

Definition len (p : string) : Z := Z.of_nat (String.length p).

Section limited.
Context {W : Type} (io : Writer W).

Record limitedWriter := { lw_w : W; lw_n : Z }.

Definition limitedWriter_Write (l : limitedWriter) (p : string)
    : limitedWriter * Z * error :=
  if lw_n l <? 0 then (l, 0, Some io_ErrShortBuffer)
  else if lw_n l <? len p then (l, 0, Some io_ErrShortBuffer)
  else
    let '(w', n, err) := writer_write io (lw_w l) p in
    ({| lw_w := w'; lw_n := lw_n l - n |}, n, err).

Definition LimitedWriter (w : W) (n : Z) : limitedWriter :=
  {| lw_w := w; lw_n := n |}.

(** A run of writes that stops at the first error, as a template execution
    does. *)
Fixpoint write_all (l : limitedWriter) (ps : list string) : limitedWriter * error :=
  match ps with
  | [] => (l, None)
  | p :: ps =>
      match limitedWriter_Write l p with
      | (l', _, None) => write_all l' ps
      | (l', _, Some e) => (l', Some e)
      end
  end.
End limited.
Arguments lw_w {W} _.
Arguments lw_n {W} _.

(** [strings.Builder]: takes every byte. *)
Definition Builder : Writer string :=
  {| writer_write := λ b p, (b +:+ p, len p, None) |}.

(** ** Details

    [text/template] is a parameter: parsing either fails or gives a template,
    whose execution on arguments is the pieces it writes, in order, and the
    error it stops with after them, if any. *)
Class TemplateEngine := {
  template : Type;
  template_Parse : string → option template;
  template_Execute : template → any → list string * error;
}.

Definition maxDetailsMessageSize : Z := 1024.

Section details.
Context {TE : TemplateEngine}.

(** [tmpl.Execute(w, args)] on a limited writer over a builder. *)
Definition execute_limited (t : template) (args : any) (n : Z) : string * error :=
  let '(pieces, err) := template_Execute t args in
  match write_all Builder (LimitedWriter "" n) pieces with
  | (l, Some e) => (lw_w l, Some e)
  | (l, None) => (lw_w l, err)
  end.

Definition Details (base : gerr) (msg tmpl : string) (args : any) : string :=
  if String.eqb tmpl "" then msg
  else match template_Parse tmpl with
       | None => Error (EEvaluation base msg tmpl args)
       | Some t =>
           match execute_limited t args maxDetailsMessageSize with
           | (_, Some _) => Error (EEvaluation base msg tmpl args)
           | (out, None) => out
           end
       end.
End details.

(** ** Lemmas *)

Lemma len_app s1 s2 : len (s1 +:+ s2) = len s1 + len s2.
Proof.
  unfold len. rewrite <-Nat2Z.inj_add. f_equal.
  induction s1 as [|c s1 IH]; simpl; [done|]. by rewrite IH.
Qed.

Lemma len_nonneg s : 0 ≤ len s.
Proof. unfold len. lia. Qed.

(** What is left plus what was written stays the initial allowance. *)
Lemma write_all_budget ps l l' err :
  0 ≤ lw_n l →
  write_all Builder l ps = (l', err) →
  0 ≤ lw_n l' ∧ len (lw_w l') + lw_n l' = len (lw_w l) + lw_n l.
Proof.
  revert l. induction ps as [|p ps IH]; intros l Hn; simpl.
  - intros [= <- <-]. lia.
  - unfold limitedWriter_Write.
    destruct (Z.ltb_spec (lw_n l) 0); [lia|].
    destruct (Z.ltb_spec (lw_n l) (len p)); simpl.
    + intros [= <- <-]. lia.
    + intros Hw. apply IH in Hw; simpl in *; rewrite ?len_app in *; lia.
Qed.

(** The error cases of the classification are exclusive and exhaustive. *)
Lemma fatal_not_informative err :
  IsActionFatalError err = true ↔ err ≠ None ∧ IsActionInformativeError err = false.
Proof.
  unfold IsActionFatalError. rewrite andb_true_iff, bool_decide_eq_true, negb_true_iff. done.
Qed.


Lemma concat_cons p ps : String.concat "" (p :: ps) = p +:+ String.concat "" ps.
Proof. destruct ps as [|q ps]; simpl; [by rewrite append_nil_r|done]. Qed.

(** Within the allowance everything is written, beyond it the run fails. *)
Lemma write_all_fits ps l :
  0 ≤ lw_n l → len (String.concat "" ps) ≤ lw_n l →
  ∃ l', write_all Builder l ps = (l', None) ∧
        lw_w l' = lw_w l +:+ String.concat "" ps.
Proof.
  revert l. induction ps as [|p ps IH]; intros l Hn Hlen.
  - exists l. split; [done|]. simpl. by rewrite append_nil_r.
  - rewrite concat_cons, len_app in Hlen. pose proof (len_nonneg p).
    pose proof (len_nonneg (String.concat "" ps)).
    cbn [write_all]. unfold limitedWriter_Write.
    destruct (Z.ltb_spec (lw_n l) 0); [lia|].
    destruct (Z.ltb_spec (lw_n l) (len p)); [lia|].
    cbn [writer_write Builder].
    destruct (IH {| lw_w := lw_w l +:+ p; lw_n := lw_n l - len p |}) as (l' & Hw & Hc);
      [simpl; lia|simpl; lia|].
    exists l'. split; [done|]. rewrite Hc, concat_cons. apply append_assoc.
Qed.

Lemma write_all_overflow ps l :
  0 ≤ lw_n l → lw_n l < len (String.concat "" ps) →
  ∃ l', write_all Builder l ps = (l', Some io_ErrShortBuffer).
Proof.
  revert l. induction ps as [|p ps IH]; intros l Hn Hlen.
  - unfold len in Hlen. simpl in Hlen. lia.
  - rewrite concat_cons, len_app in Hlen.
    cbn [write_all]. unfold limitedWriter_Write.
    destruct (Z.ltb_spec (lw_n l) 0); [by eexists|].
    destruct (Z.ltb_spec (lw_n l) (len p)); [by eexists|]. simpl.
    apply IH; simpl; lia.
Qed.

(** [Details] of an evaluation error with a template is the template's whole
    output when that is produced without error and has at most 1024 bytes; in
    every other case (the template does not parse, its execution fails, or it
    writes more than 1024 bytes) it is the plain message of the error.  So the
    limited writer never lets a truncated rendering through. *)
Theorem details_bounded `{TemplateEngine} base msg tmpl args :
  tmpl ≠ "" →
  let plain := Error (EEvaluation base msg tmpl args) in
  match template_Parse tmpl with
  | None => Details base msg tmpl args = plain
  | Some t =>
      let '(pieces, err) := template_Execute t args in
      let out := String.concat "" pieces in
      Details base msg tmpl args =
        (if bool_decide (len out ≤ maxDetailsMessageSize ∧ err = None) then out else plain)
  end.
Proof.
  intros Htmpl plain. unfold Details. apply String.eqb_neq in Htmpl as ->.
  destruct (template_Parse tmpl) as [t|]; [|done]. unfold execute_limited.
  destruct (template_Execute t args) as [pieces err]. cbv zeta.
  case_bool_decide as Hb.
  - destruct Hb as [Hlen ->].
    destruct (write_all_fits pieces (LimitedWriter "" maxDetailsMessageSize))
      as (l' & -> & Hl'); [done|done|]. by rewrite Hl'.
  - destruct (Z.le_gt_cases (len (String.concat "" pieces)) maxDetailsMessageSize)
      as [Hle|Hgt].
    + destruct err as [e|]; [|naive_solver].
      by destruct (write_all_fits pieces (LimitedWriter "" maxDetailsMessageSize))
        as (l' & -> & _).
    + by destruct (write_all_overflow pieces (LimitedWriter "" maxDetailsMessageSize))
        as (l' & ->).
Qed.

(** An engine whose templates print themselves in two pieces. *)
Definition echo_engine : TemplateEngine :=
  {| template := string; template_Parse := Some;
     template_Execute := λ t args, ([t; any_repr args], None) |}.

Example details_bounded_witness :
  "tmpl:" ≠ "" ∧
  @Details echo_engine ErrEvaluationFailed "m" "tmpl:" (Any "args") = "tmpl:args".
Proof.
  split; [done|].
  exact (@details_bounded echo_engine ErrEvaluationFailed "m" "tmpl:" (Any "args")
           ltac:(done)).
Defined.

(** An HTTP status code is an engine error exactly when it is outside 2xx,
    and each client or server code maps to the error its class and the code
    itself call for. *)
Theorem http_error_classes (c : Z) :
  (HTTPErrorCodeToErr c = None ↔ 200 ≤ c < 300) ∧
  (400 ≤ c < 500 → c ∉ [401; 403; 404; 422] → HTTPErrorCodeToErr c = Some ErrClientError) ∧
  (500 ≤ c → HTTPErrorCodeToErr c = Some ErrServerError) ∧
  (c < 200 ∨ 300 ≤ c < 400 → HTTPErrorCodeToErr c = Some ErrOther) ∧
  errors_Is (HTTPErrorCodeToErr 404) ErrNotFound = true.
Proof.
  assert (Hr : ∀ c', c' ∉ [401; 403; 404; 422] →
    c' ≠ 401 ∧ c' ≠ 403 ∧ c' ≠ 404 ∧ c' ≠ 422) by set_solver.
  unfold HTTPErrorCodeToErr. split_and!.
  - zbool; split; intros; done || lia.
  - intros Hc Hn%Hr. zbool; done.
  - intros Hc. zbool; done.
  - intros Hc. zbool; done.
  - reflexivity.
Qed.
