(* ===== verification/Uuid.v ===== *)
(** * UUIDs

    A [uuid.UUID] is a 16-byte array; here it is the number those bytes spell,
    with [uuid.Nil] the zero.  Printing and parsing belong to
    github.com/google/uuid, which is not in the repository: they are operations
    of a class whose laws state the package's documentation.  The random UUIDs
    the database draws are a supply without repetition. *)

From S2P Require Import Prelude GoErrors GoMonad GoStrings.
Local Open Scope string_scope.

Abbreviation UUID := N.
Definition uuid_Nil : UUID := 0%N.

Class UuidLib := {
  uuid_String : UUID → string;
  uuid_Parse : string → res UUID;
  (** [Parse] decodes what [String] encodes, *)
  uuid_Parse_String : ∀ u, uuid_Parse (uuid_String u) = Ok u;
  (** which is never empty; *)
  uuid_String_nonempty : ∀ u, uuid_String u ≠ "";
  (** and [Parse] returns an error, it does not panic. *)
  uuid_Parse_no_panic : ∀ s msg, uuid_Parse s ≠ Panic msg;
}.

(** [uuid.MustParse]: as [Parse], but panics if the string cannot be parsed. *)
Definition uuid_MustParse `{UuidLib} (s : string) : res UUID :=
  match uuid_Parse s with
  | Err _ => Panic ("uuid: Parse(" +:+ s +:+ ")")
  | r => r
  end.

(** [gen_random_uuid()] *)
Class RandomUuid := {
  gen_random_uuid : nat → UUID;
  gen_random_uuid_inj :: Inj (=) (=) gen_random_uuid;
  gen_random_uuid_not_nil : ∀ n, gen_random_uuid n ≠ uuid_Nil;
}.

(** ** Concrete instances, on which the witnesses compute *)

Definition decimal_parse (s : string) : res UUID :=
  match Strconv.parse_digits s with
  | Some z => Ok (Z.to_N z)
  | None => Err (EText "invalid UUID")
  end.

Definition decimal_string (u : UUID) : string := Strconv.FormatInt (Z.of_N u).

Lemma decimal_parse_string u : decimal_parse (decimal_string u) = Ok u.
Proof.
  unfold decimal_parse, decimal_string, Strconv.FormatInt.
  destruct (Strconv.to_int_not_nil (Z.of_N u)) as [Hp _].
  pose proof (DecimalZ.of_to (Z.of_N u)) as Hof.
  destruct (Z.to_int (Z.of_N u)) as [d|d] eqn:E; simpl in *.
  - rewrite Strconv.parse_digits_format by congruence. rewrite Hof. by rewrite N2Z.id.
  - destruct u; discriminate.
Qed.

Lemma decimal_string_nonempty u : decimal_string u ≠ "".
Proof.
  destruct (Strconv.FormatInt_nonneg_head (Z.of_N u)) as (c & s & H & _); [lia|].
  unfold decimal_string. by rewrite H.
Qed.

Lemma decimal_parse_no_panic s msg : decimal_parse s ≠ Panic msg.
Proof. unfold decimal_parse. by case_goal. Qed.

Definition decimal_uuid : UuidLib :=
  {| uuid_Parse_String := decimal_parse_string;
     uuid_String_nonempty := decimal_string_nonempty;
     uuid_Parse_no_panic := decimal_parse_no_panic |}.

Definition counter_gen (n : nat) : UUID := N.of_nat (S n).

Lemma counter_gen_inj : Inj (=) (=) counter_gen.
Proof. intros n m H. unfold counter_gen in H. lia. Qed.

Lemma counter_gen_not_nil n : counter_gen n ≠ uuid_Nil.
Proof. unfold counter_gen, uuid_Nil. lia. Qed.

Definition counter_uuid : RandomUuid :=
  {| gen_random_uuid_inj := counter_gen_inj;
     gen_random_uuid_not_nil := counter_gen_not_nil |}.
