(* ===== verification/DbTypes.v ===== *)
(** * Enumerations of the database and of the API, and their conversions

    internal/db/models.go (status and entity enums), internal/engine/actions/types.go
    (the domain's own copies), pkg/api/protobuf/go/minder/v1/entities.go and
    internal/engine/entities/ (API entities, database entities, strings).  A Go
    string enum is a string with named constants, so that values outside the
    enum reach the default branches as they do in the code. *)

From S2P Require Import Prelude GoErrors GoMonad GoStrings.
Local Open Scope string_scope.

(** ** internal/db/models.go *)

Abbreviation EvalStatusTypes := string.
Definition EvalStatusTypesSuccess : EvalStatusTypes := "success".
Definition EvalStatusTypesFailure : EvalStatusTypes := "failure".
Definition EvalStatusTypesError : EvalStatusTypes := "error".
Definition EvalStatusTypesSkipped : EvalStatusTypes := "skipped".
Definition EvalStatusTypesPending : EvalStatusTypes := "pending".

Abbreviation RemediationStatusTypes := string.
Definition RemediationStatusTypesSuccess : RemediationStatusTypes := "success".
Definition RemediationStatusTypesFailure : RemediationStatusTypes := "failure".
Definition RemediationStatusTypesError : RemediationStatusTypes := "error".
Definition RemediationStatusTypesSkipped : RemediationStatusTypes := "skipped".
Definition RemediationStatusTypesNotAvailable : RemediationStatusTypes := "not_available".
Definition RemediationStatusTypesPending : RemediationStatusTypes := "pending".

Abbreviation AlertStatusTypes := string.
Definition AlertStatusTypesOn : AlertStatusTypes := "on".
Definition AlertStatusTypesOff : AlertStatusTypes := "off".
Definition AlertStatusTypesError : AlertStatusTypes := "error".
Definition AlertStatusTypesSkipped : AlertStatusTypes := "skipped".
Definition AlertStatusTypesNotAvailable : AlertStatusTypes := "not_available".

Abbreviation Entities := string.
Definition EntitiesRepository : Entities := "repository".
Definition EntitiesBuildEnvironment : Entities := "build_environment".
Definition EntitiesArtifact : Entities := "artifact".
Definition EntitiesPullRequest : Entities := "pull_request".
Definition EntitiesRelease : Entities := "release".
Definition EntitiesPipelineRun : Entities := "pipeline_run".
Definition EntitiesTaskRun : Entities := "task_run".
Definition EntitiesBuild : Entities := "build".

(** [ActionType], and [NullActionType] as an option. *)
Abbreviation ActionTypeDB := string.
Definition ActionTypeOn : ActionTypeDB := "on".
Definition ActionTypeOff : ActionTypeDB := "off".
Definition ActionTypeDryRun : ActionTypeDB := "dry_run".

(** The Postgres enums: what a column of the type can hold. *)
Definition remediation_status_types : list RemediationStatusTypes :=
  [RemediationStatusTypesSuccess; RemediationStatusTypesFailure;
   RemediationStatusTypesError; RemediationStatusTypesSkipped;
   RemediationStatusTypesNotAvailable; RemediationStatusTypesPending].
Definition alert_status_types : list AlertStatusTypes :=
  [AlertStatusTypesOn; AlertStatusTypesOff; AlertStatusTypesError;
   AlertStatusTypesSkipped; AlertStatusTypesNotAvailable].
Definition eval_status_types : list EvalStatusTypes :=
  [EvalStatusTypesSuccess; EvalStatusTypesFailure; EvalStatusTypesError;
   EvalStatusTypesSkipped; EvalStatusTypesPending].
Definition entities_types : list Entities :=
  [EntitiesRepository; EntitiesBuildEnvironment; EntitiesArtifact;
   EntitiesPullRequest; EntitiesRelease; EntitiesPipelineRun; EntitiesTaskRun;
   EntitiesBuild].

(** ** internal/engine/actions/types.go *)

Abbreviation RemediationStatus := string.
Definition RemediationStatusSuccess : RemediationStatus := "success".
Definition RemediationStatusFailure : RemediationStatus := "failure".
Definition RemediationStatusError : RemediationStatus := "error".
Definition RemediationStatusSkipped : RemediationStatus := "skipped".
Definition RemediationStatusNotAvailable : RemediationStatus := "not_available".
Definition RemediationStatusPending : RemediationStatus := "pending".

Abbreviation AlertStatus := string.
Definition AlertStatusOn : AlertStatus := "on".
Definition AlertStatusOff : AlertStatus := "off".
Definition AlertStatusError : AlertStatus := "error".
Definition AlertStatusSkipped : AlertStatus := "skipped".
Definition AlertStatusNotAvailable : AlertStatus := "not_available".

Abbreviation EvalStatus := string.
Definition EvalStatusSuccess : EvalStatus := "success".
Definition EvalStatusFailure : EvalStatus := "failure".
Definition EvalStatusError : EvalStatus := "error".
Definition EvalStatusSkipped : EvalStatus := "skipped".
Definition EvalStatusPending : EvalStatus := "pending".

(** ** The API's [Entity] enum: an open 32-bit enumeration *)

Abbreviation Entity := Z.
Definition Entity_ENTITY_UNSPECIFIED : Entity := 0%Z.
Definition Entity_ENTITY_REPOSITORIES : Entity := 1%Z.
Definition Entity_ENTITY_BUILD_ENVIRONMENTS : Entity := 2%Z.
Definition Entity_ENTITY_ARTIFACTS : Entity := 3%Z.
Definition Entity_ENTITY_PULL_REQUESTS : Entity := 4%Z.
Definition Entity_ENTITY_RELEASE : Entity := 5%Z.
Definition Entity_ENTITY_PIPELINE_RUN : Entity := 6%Z.
Definition Entity_ENTITY_TASK_RUN : Entity := 7%Z.
Definition Entity_ENTITY_BUILD : Entity := 8%Z.

(** The map [pbToEntityType], with [UnknownEntity] for a key it lacks. *)
Definition pbToEntityType : list (Entity * string) :=
  [(Entity_ENTITY_REPOSITORIES, "repository");
   (Entity_ENTITY_BUILD_ENVIRONMENTS, "build_environment");
   (Entity_ENTITY_ARTIFACTS, "artifact");
   (Entity_ENTITY_PULL_REQUESTS, "pull_request");
   (Entity_ENTITY_RELEASE, "release");
   (Entity_ENTITY_PIPELINE_RUN, "pipeline_run");
   (Entity_ENTITY_TASK_RUN, "task_run");
   (Entity_ENTITY_BUILD, "build");
   (Entity_ENTITY_UNSPECIFIED, "unknown")].

Definition entityTypeToPb : list (string * Entity) :=
  [("repository", Entity_ENTITY_REPOSITORIES);
   ("build_environment", Entity_ENTITY_BUILD_ENVIRONMENTS);
   ("artifact", Entity_ENTITY_ARTIFACTS);
   ("pull_request", Entity_ENTITY_PULL_REQUESTS);
   ("release", Entity_ENTITY_RELEASE);
   ("pipeline_run", Entity_ENTITY_PIPELINE_RUN);
   ("task_run", Entity_ENTITY_TASK_RUN);
   ("build", Entity_ENTITY_BUILD);
   ("unknown", Entity_ENTITY_UNSPECIFIED)].

(** Lookup in a Go map literal, whose keys are distinct. *)
Fixpoint map_get {K V} `{EqDecision K} (m : list (K * V)) (k : K) : option V :=
  match m with
  | [] => None
  | (k', v) :: m => if bool_decide (k' = k) then Some v else map_get m k
  end.

Definition IsValid (entity : Entity) : bool :=
  bool_decide (entity ∈ [Entity_ENTITY_REPOSITORIES; Entity_ENTITY_BUILD_ENVIRONMENTS;
    Entity_ENTITY_ARTIFACTS; Entity_ENTITY_PULL_REQUESTS; Entity_ENTITY_RELEASE;
    Entity_ENTITY_PIPELINE_RUN; Entity_ENTITY_TASK_RUN; Entity_ENTITY_BUILD]).

Definition ToString (entity : Entity) : string :=
  match map_get pbToEntityType entity with Some t => t | None => "unknown" end.

(** A key that the Go map lacks gives the zero value, [ENTITY_UNSPECIFIED]. *)
Definition EntityFromString (entity : string) : Entity :=
  match map_get entityTypeToPb (Strings.ToLower entity) with
  | Some e => e
  | None => Entity_ENTITY_UNSPECIFIED
  end.

(** ** internal/engine/entities *)

Definition EntityTypeFromDB (entity : Entities) : Entity :=
  if bool_decide (entity = EntitiesRepository) then Entity_ENTITY_REPOSITORIES
  else if bool_decide (entity = EntitiesBuildEnvironment) then Entity_ENTITY_BUILD_ENVIRONMENTS
  else if bool_decide (entity = EntitiesArtifact) then Entity_ENTITY_ARTIFACTS
  else if bool_decide (entity = EntitiesPullRequest) then Entity_ENTITY_PULL_REQUESTS
  else if bool_decide (entity = EntitiesRelease) then Entity_ENTITY_RELEASE
  else if bool_decide (entity = EntitiesPipelineRun) then Entity_ENTITY_PIPELINE_RUN
  else if bool_decide (entity = EntitiesTaskRun) then Entity_ENTITY_TASK_RUN
  else if bool_decide (entity = EntitiesBuild) then Entity_ENTITY_BUILD
  else Entity_ENTITY_UNSPECIFIED.

(** An entity no case names leaves the zero value of the string type. *)
Definition EntityTypeToDB (entity : Entity) : Entities :=
  if bool_decide (entity = Entity_ENTITY_REPOSITORIES) then EntitiesRepository
  else if bool_decide (entity = Entity_ENTITY_BUILD_ENVIRONMENTS) then EntitiesBuildEnvironment
  else if bool_decide (entity = Entity_ENTITY_ARTIFACTS) then EntitiesArtifact
  else if bool_decide (entity = Entity_ENTITY_PULL_REQUESTS) then EntitiesPullRequest
  else if bool_decide (entity = Entity_ENTITY_RELEASE) then EntitiesRelease
  else if bool_decide (entity = Entity_ENTITY_PIPELINE_RUN) then EntitiesPipelineRun
  else if bool_decide (entity = Entity_ENTITY_TASK_RUN) then EntitiesTaskRun
  else if bool_decide (entity = Entity_ENTITY_BUILD) then EntitiesBuild
  else "".

(** [entityType.String()] is generated code: a parameter, used in a message. *)
Definition EntityTypeToDBType (entity_String : Entity → string) (entityType : Entity)
    : res Entities :=
  if bool_decide (entityType = Entity_ENTITY_REPOSITORIES) then Ok EntitiesRepository
  else if bool_decide (entityType = Entity_ENTITY_BUILD_ENVIRONMENTS) then Ok EntitiesBuildEnvironment
  else if bool_decide (entityType = Entity_ENTITY_ARTIFACTS) then Ok EntitiesArtifact
  else if bool_decide (entityType = Entity_ENTITY_PULL_REQUESTS) then Ok EntitiesPullRequest
  else if bool_decide (entityType = Entity_ENTITY_RELEASE) then Ok EntitiesRelease
  else if bool_decide (entityType = Entity_ENTITY_PIPELINE_RUN) then Ok EntitiesPipelineRun
  else if bool_decide (entityType = Entity_ENTITY_TASK_RUN) then Ok EntitiesTaskRun
  else if bool_decide (entityType = Entity_ENTITY_BUILD) then Ok EntitiesBuild
  else if bool_decide (entityType = Entity_ENTITY_UNSPECIFIED) then
    Err (EText "invalid entity type: ENTITY_UNSPECIFIED is not a valid entity type")
  else
    Err (EText ("invalid entity type: " +:+ entity_String entityType +:+
                " is not a recognized entity type")).

(** ** Lemmas *)

(** A valid entity is one of the eight named ones. *)
Ltac entity_cases H :=
  apply bool_decide_eq_true in H; list_cases H.

(** The three representations of an entity type agree on the valid ones:
    a valid API entity written as a string, as a database enum or through the
    checked conversion is the same name, one of the eight of the enum, and
    reading either back gives the entity; and every database entity type comes
    from a valid API entity and goes back to itself. *)
Theorem entity_type_roundtrip (str : Entity → string) :
  (∀ e, IsValid e = true →
     EntityFromString (ToString e) = e ∧
     EntityTypeFromDB (EntityTypeToDB e) = e ∧
     EntityTypeToDB e = ToString e ∧
     EntityTypeToDBType str e = Ok (ToString e) ∧
     EntityTypeToDB e ∈ entities_types) ∧
  (∀ t, t ∈ entities_types →
     IsValid (EntityTypeFromDB t) = true ∧ EntityTypeToDB (EntityTypeFromDB t) = t).
Proof.
  split.
  - intros e H. entity_cases H.
    all: repeat split; vm_compute; try reflexivity; by repeat constructor.
  - intros t H. list_cases H; by vm_compute.
Qed.
