(* ===== verification/StatusAdapter.v ===== *)
(** * Errors as database statuses: internal/adapters/db/errors.go

    What an evaluation or an action ended with is stored as a status and, on
    the next evaluation, read back as an error. *)

From S2P Require Import Prelude GoErrors GoMonad EngineErrors DbTypes.
Local Open Scope string_scope.

(** The columns of [db.ListRuleEvaluationsByProfileIdRow] the adapters and the
    action engine read. *)
Record ListRuleEvaluationsByProfileIdRow := {
  row_RemStatus : RemediationStatusTypes;
  row_RemMetadata : option string;
  row_AlertStatus : AlertStatusTypes;
  row_AlertMetadata : option string;
}.

Definition ErrorAsEvalStatus (err : error) : EvalStatusTypes :=
  if errors_Is err ErrEvaluationFailed then EvalStatusTypesFailure
  else if errors_Is err ErrEvaluationSkipped then EvalStatusTypesSkipped
  else if bool_decide (err ≠ None) then EvalStatusTypesError
  else EvalStatusTypesSuccess.

Definition errors_As_evaluation (err : error) : option (gerr * string * string * any) :=
  err ≫= as_evaluation.

Definition ErrorAsEvalDetails `{TemplateEngine} (err : error) : string :=
  match errors_As_evaluation err with
  | Some (base, msg, tmpl, args) =>
      if negb (String.eqb tmpl "") then Details base msg tmpl args else msg
  | None =>
      match err with
      | Some e => Error e
      | None => ""
      end
  end.

Definition ErrorAsRemediationStatus (err : error) : RemediationStatusTypes :=
  match err with
  | None => RemediationStatusTypesSuccess
  | Some _ =>
      if errors_Is err ErrActionFailed then RemediationStatusTypesFailure
      else if errors_Is err ErrActionSkipped then RemediationStatusTypesSkipped
      else if errors_Is err ErrActionNotAvailable then RemediationStatusTypesNotAvailable
      else if errors_Is err ErrActionPending then RemediationStatusTypesPending
      else RemediationStatusTypesError
  end.

Definition RemediationStatusAsError (prevStatus : option ListRuleEvaluationsByProfileIdRow)
    : error :=
  match prevStatus with
  | None => Some ErrActionSkipped
  | Some row =>
      let s := row_RemStatus row in
      if bool_decide (s = RemediationStatusTypesSuccess) then None
      else if bool_decide (s = RemediationStatusTypesFailure) then Some ErrActionFailed
      else if bool_decide (s = RemediationStatusTypesSkipped) then Some ErrActionSkipped
      else if bool_decide (s = RemediationStatusTypesNotAvailable)
      then Some ErrActionNotAvailable
      else if bool_decide (s = RemediationStatusTypesPending) then Some ErrActionPending
      else if bool_decide (s = RemediationStatusTypesError)
      then Some (EText ("generic remediation error status: " +:+ s))
      else Some (EText ("generic remediation error status: " +:+ s))
  end.

Definition ErrorAsAlertStatus (err : error) : AlertStatusTypes :=
  match err with
  | None => AlertStatusTypesOn
  | Some _ =>
      if errors_Is err ErrActionTurnedOff then AlertStatusTypesOff
      else if errors_Is err ErrActionFailed then AlertStatusTypesError
      else if errors_Is err ErrActionSkipped then AlertStatusTypesSkipped
      else if errors_Is err ErrActionNotAvailable then AlertStatusTypesNotAvailable
      else AlertStatusTypesError
  end.

Definition AlertStatusAsError (prevStatus : option ListRuleEvaluationsByProfileIdRow)
    : error :=
  match prevStatus with
  | None => Some (EText "no previous alert state")
  | Some row =>
      let s := row_AlertStatus row in
      if bool_decide (s = AlertStatusTypesOn) then None
      else if bool_decide (s = AlertStatusTypesOff) then Some ErrActionTurnedOff
      else if bool_decide (s = AlertStatusTypesError) then Some ErrActionFailed
      else if bool_decide (s = AlertStatusTypesSkipped) then Some ErrActionSkipped
      else if bool_decide (s = AlertStatusTypesNotAvailable) then Some ErrActionNotAvailable
      else Some (EText ("unknown alert status: " +:+ s))
  end.

Definition EvalErrorAsString (err : error) : string := ErrorAsEvalStatus err.
Definition RemediationErrorAsString (err : error) : string := ErrorAsRemediationStatus err.
Definition AlertErrorAsString (err : error) : string := ErrorAsAlertStatus err.

(** [errorAsActionDetails] of internal/engine/eval_status.go. *)
Definition errorAsActionDetails (err : error) : string :=
  if IsActionFatalError err
  then match err with Some e => Error e | None => "" end
  else "".

(** ** Lemmas *)

Lemma ErrorAsEvalStatus_valid err : ErrorAsEvalStatus err ∈ eval_status_types.
Proof. unfold ErrorAsEvalStatus, eval_status_types. repeat case_goal; set_solver. Qed.

Lemma ErrorAsRemediationStatus_valid err :
  ErrorAsRemediationStatus err ∈ remediation_status_types.
Proof.
  unfold ErrorAsRemediationStatus, remediation_status_types. repeat case_goal; set_solver.
Qed.

Lemma ErrorAsAlertStatus_valid err : ErrorAsAlertStatus err ∈ alert_status_types.
Proof. unfold ErrorAsAlertStatus, alert_status_types. repeat case_goal; set_solver. Qed.

(** The remediation status of an informative error names the sentinel. *)
Lemma ErrorAsRemediationStatus_skipped_inv err :
  ErrorAsRemediationStatus err = RemediationStatusTypesSkipped →
  errors_Is err ErrActionSkipped = true.
Proof. unfold ErrorAsRemediationStatus. repeat case_goal; by intros [=]. Qed.

(** A stored action status survives being read back as an error and stored
    again: for every status of the two enums,
    [ErrorAs...Status (...StatusAsError row)] is the status of the row, and
    whatever an action returns is stored as a value of the enum.  This is what
    an action that is told to do nothing relies on. *)
Theorem action_status_roundtrip (row : ListRuleEvaluationsByProfileIdRow) :
  (row_RemStatus row ∈ remediation_status_types →
     ErrorAsRemediationStatus (RemediationStatusAsError (Some row)) = row_RemStatus row) ∧
  (row_AlertStatus row ∈ alert_status_types →
     ErrorAsAlertStatus (AlertStatusAsError (Some row)) = row_AlertStatus row) ∧
  (∀ err, ErrorAsRemediationStatus err ∈ remediation_status_types ∧
          ErrorAsAlertStatus err ∈ alert_status_types).
Proof.
  destruct row as [rs rm als am]; simpl. split_and!.
  - intros H. list_cases H; reflexivity.
  - intros H. list_cases H; reflexivity.
  - split; [apply ErrorAsRemediationStatus_valid|apply ErrorAsAlertStatus_valid].
Qed.

(** The details recorded for an action are exactly the text of its fatal
    error: informative outcomes (skipped, unavailable, turned off, pending) and
    success are recorded without details, any other error with its message; and
    an informative error never has the remediation status failure unless it
    also wraps [ErrActionFailed]. *)
Theorem action_details_spec (e : gerr) :
  errorAsActionDetails None = "" ∧
  (IsActionInformativeError (Some e) = true → errorAsActionDetails (Some e) = "") ∧
  (IsActionInformativeError (Some e) = false →
     errorAsActionDetails (Some e) = Error e ∧
     ErrorAsRemediationStatus (Some e) =
       (if is_in e ErrActionFailed then RemediationStatusTypesFailure
        else RemediationStatusTypesError)).
Proof.
  split_and!; [reflexivity| |].
  - intros H. unfold errorAsActionDetails, IsActionFatalError. by rewrite H.
  - intros H. split.
    + unfold errorAsActionDetails, IsActionFatalError. by rewrite H.
    + unfold IsActionInformativeError in H. simpl in H.
      apply orb_false_iff in H as [[[H1 H2]%orb_false_iff H3]%orb_false_iff H4].
      unfold ErrorAsRemediationStatus. simpl. by rewrite H1, H2, H4.
Qed.
