(* ===== verification/ProfileModels.v ===== *)
(** * Profiles and evaluation parameters as data

    pkg/profiles/models/models.go (profiles, rule instances, action options) and
    the record of internal/engine/interfaces/interface.go that one evaluation
    fills in.  Maps of arbitrary values ([map[string]any]) are opaque [any]s. *)

From S2P Require Import Prelude GoErrors GoMonad EngineErrors DbTypes StatusAdapter.
From S2P Require Import Uuid.
Local Open Scope string_scope.

(** ** ActionOpt *)

Abbreviation ActionOpt := Z.
Definition ActionOptOn : ActionOpt := 0%Z.
Definition ActionOptOff : ActionOpt := 1%Z.
Definition ActionOptDryRun : ActionOpt := 2%Z.
Definition ActionOptUnknown : ActionOpt := 3%Z.

(** Indexing an array of four out of range panics. *)
Definition ActionOpt_String (a : ActionOpt) : res string :=
  if (a <? 0)%Z then Panic "index out of range"
  else match nth_error ["on"; "off"; "dry_run"; "unknown"] (Z.to_nat a) with
       | Some s => Ok s
       | None => Panic "index out of range"
       end.

Definition ActionOptFromDB (dbState : option ActionTypeDB) : ActionOpt :=
  match dbState with
  | None => ActionOptUnknown
  | Some t =>
      if bool_decide (t = ActionTypeOn) then ActionOptOn
      else if bool_decide (t = ActionTypeOff) then ActionOptOff
      else if bool_decide (t = ActionTypeDryRun) then ActionOptDryRun
      else ActionOptUnknown
  end.

Definition ActionOptOrDefault (actionOpt defaultVal : ActionOpt) : ActionOpt :=
  if bool_decide (actionOpt = ActionOptUnknown) then defaultVal else actionOpt.

(** ** Profiles *)

Record ActionConfiguration := { ac_Remediate : ActionOpt; ac_Alert : ActionOpt }.

Record RuleInstance := {
  ri_ID : UUID;
  ri_Name : string;
  ri_Def : option any;
  ri_Params : option any;
  ri_RuleTypeID : UUID;
}.

Record ProfileSelector := { sel_Entity : Entity; sel_Selector : string }.

Record ProfileAggregate := {
  pa_ID : UUID;
  pa_Name : string;
  pa_ActionConfig : ActionConfiguration;
  pa_Rules : list RuleInstance;
  pa_Selectors : list ProfileSelector;
}.

(** A row of [db.ProfileSelector]; a [NullEntities] is an option. *)
Record dbProfileSelector := {
  dps_ID : UUID; dps_ProfileID : UUID; dps_Entity : option Entities; dps_Selector : string;
  dps_Comment : string;
}.

Definition profileSelectorFromDb (s : dbProfileSelector) : ProfileSelector :=
  let ent := match dps_Entity s with
             | Some e => EntityTypeFromDB e
             | None => Entity_ENTITY_UNSPECIFIED
             end in
  {| sel_Entity := ent; sel_Selector := dps_Selector s |}.

Definition SelectorSliceFromDB (l : list dbProfileSelector) : list ProfileSelector :=
  foldl (λ selectors s, (selectors ++ [profileSelectorFromDb s])%list) [] l.

(** The entities the engine builds, as the proto messages' fields that the
    actions read. *)
Inductive ProtoEntity :=
| PbRepository (Owner Name DefaultBranch : string)
| PbPullRequest (RepoOwner RepoName CommitSha : string) (Number : Z)
| PbArtifact (Owner Repository : string)
| PbOther (kind : string).

(** ** EvalStatusParams *)

(** [interfaces.Ingested], with the checkpoint as the only part the engine
    itself looks at. *)
Record Ingested := { ing_Object : any; ing_Checkpoint : option any }.

Definition GetCheckpoint (r : option Ingested) : option any := r ≫= ing_Checkpoint.

(** [interfaces.EvaluationResult]; [None] is a nil [Output]. *)
Record EvaluationResult := { er_Output : option any }.

Definition ActionsError_zero : ActionsError :=
  {| RemediateErr := None; RemediateMeta := None; AlertErr := None; AlertMeta := None |}.

Record EvalStatusParams := {
  esp_Result : option Ingested;
  esp_Profile : ProfileAggregate;
  esp_Rule : RuleInstance;
  esp_ProjectID : UUID;
  esp_EntityType : Entities;
  esp_EntityID : UUID;
  esp_EvalStatusFromDb : option ListRuleEvaluationsByProfileIdRow;
  esp_evalErr : error;
  esp_evalResult : option EvaluationResult;
  esp_actionsErr : ActionsError;
  esp_ExecutionID : UUID;
}.

Definition SetEvalErr (err : error) (e : EvalStatusParams) : EvalStatusParams :=
  {| esp_Result := esp_Result e; esp_Profile := esp_Profile e; esp_Rule := esp_Rule e;
     esp_ProjectID := esp_ProjectID e; esp_EntityType := esp_EntityType e;
     esp_EntityID := esp_EntityID e; esp_EvalStatusFromDb := esp_EvalStatusFromDb e;
     esp_evalErr := err; esp_evalResult := esp_evalResult e;
     esp_actionsErr := esp_actionsErr e; esp_ExecutionID := esp_ExecutionID e |}.

Definition SetEvalResult (r : option EvaluationResult) (e : EvalStatusParams)
    : EvalStatusParams :=
  {| esp_Result := esp_Result e; esp_Profile := esp_Profile e; esp_Rule := esp_Rule e;
     esp_ProjectID := esp_ProjectID e; esp_EntityType := esp_EntityType e;
     esp_EntityID := esp_EntityID e; esp_EvalStatusFromDb := esp_EvalStatusFromDb e;
     esp_evalErr := esp_evalErr e; esp_evalResult := r;
     esp_actionsErr := esp_actionsErr e; esp_ExecutionID := esp_ExecutionID e |}.

Definition SetIngestResult (r : option Ingested) (e : EvalStatusParams) : EvalStatusParams :=
  {| esp_Result := r; esp_Profile := esp_Profile e; esp_Rule := esp_Rule e;
     esp_ProjectID := esp_ProjectID e; esp_EntityType := esp_EntityType e;
     esp_EntityID := esp_EntityID e; esp_EvalStatusFromDb := esp_EvalStatusFromDb e;
     esp_evalErr := esp_evalErr e; esp_evalResult := esp_evalResult e;
     esp_actionsErr := esp_actionsErr e; esp_ExecutionID := esp_ExecutionID e |}.

(** The rule engine fills the defaults of the rule's definition and parameters
    in place: the maps are shared with the rule of the parameters. *)
Definition SetRuleMaps (def params : option any) (e : EvalStatusParams) : EvalStatusParams :=
  {| esp_Result := esp_Result e; esp_Profile := esp_Profile e;
     esp_Rule := {| ri_ID := ri_ID (esp_Rule e); ri_Name := ri_Name (esp_Rule e);
                    ri_Def := def; ri_Params := params;
                    ri_RuleTypeID := ri_RuleTypeID (esp_Rule e) |};
     esp_ProjectID := esp_ProjectID e; esp_EntityType := esp_EntityType e;
     esp_EntityID := esp_EntityID e; esp_EvalStatusFromDb := esp_EvalStatusFromDb e;
     esp_evalErr := esp_evalErr e; esp_evalResult := esp_evalResult e;
     esp_actionsErr := esp_actionsErr e; esp_ExecutionID := esp_ExecutionID e |}.

(** [json.Marshal(&map[string]any{})] *)
Definition empty_json : string := "{}".

(** A nil metadata becomes the empty JSON object. *)
Definition SetActionsErr (actionErr : ActionsError) (e : EvalStatusParams) : EvalStatusParams :=
  let am := match AlertMeta actionErr with None => Some empty_json | m => m end in
  let rm := match RemediateMeta actionErr with None => Some empty_json | m => m end in
  {| esp_Result := esp_Result e; esp_Profile := esp_Profile e; esp_Rule := esp_Rule e;
     esp_ProjectID := esp_ProjectID e; esp_EntityType := esp_EntityType e;
     esp_EntityID := esp_EntityID e; esp_EvalStatusFromDb := esp_EvalStatusFromDb e;
     esp_evalErr := esp_evalErr e; esp_evalResult := esp_evalResult e;
     esp_actionsErr := {| RemediateErr := RemediateErr actionErr; RemediateMeta := rm;
                          AlertErr := AlertErr actionErr; AlertMeta := am |};
     esp_ExecutionID := esp_ExecutionID e |}.

(** ** Lemmas *)

Lemma SelectorSliceFromDB_map l : SelectorSliceFromDB l = profileSelectorFromDb <$> l.
Proof.
  unfold SelectorSliceFromDB.
  assert (∀ acc, foldl (λ s x, (s ++ [profileSelectorFromDb x])%list) acc l
                 = (acc ++ (profileSelectorFromDb <$> l))%list) as H.
  { induction l as [|x l IH]; intros acc; simpl; [by rewrite app_nil_r|].
    by rewrite IH, <-app_assoc. }
  by rewrite H.
Qed.

(** Every action option the database can hold is read back as the option
    whose name it is; a null or unknown value is the sentinel, which the
    default replaces and nothing else does; and [String] panics exactly outside
    the four options. *)
Theorem action_opt_from_db (t : string) (d a : ActionOpt) :
  (t ∈ [ActionTypeOn; ActionTypeOff; ActionTypeDryRun] →
     ActionOpt_String (ActionOptFromDB (Some t)) = Ok t) ∧
  (t ∉ [ActionTypeOn; ActionTypeOff; ActionTypeDryRun] →
     ActionOptFromDB (Some t) = ActionOptUnknown) ∧
  ActionOptFromDB None = ActionOptUnknown ∧
  (ActionOptOrDefault a d = if bool_decide (a = ActionOptUnknown) then d else a) ∧
  (is_ok (ActionOpt_String a) = true ↔ (0 ≤ a ≤ 3)%Z).
Proof.
  split_and!.
  - intros H. list_cases H; reflexivity.
  - intros H. unfold ActionOptFromDB.
    rewrite !bool_decide_eq_false_2 by (intros ->; apply H; set_solver). done.
  - reflexivity.
  - reflexivity.
  - unfold ActionOpt_String. split.
    + destruct (Z.ltb_spec a 0); [done|].
      destruct (nth_error _ _) eqn:E; [|done].
      intros _. assert (nth_error ["on"; "off"; "dry_run"; "unknown"] (Z.to_nat a) ≠ None)
        as Hn by congruence. apply nth_error_Some in Hn. simpl in Hn. lia.
    + intros Ha. destruct (Z.ltb_spec a 0); [lia|].
      destruct (nth_error _ _) eqn:E; [done|].
      apply nth_error_None in E. simpl in E. lia.
Qed.
