(* ===== verification/SelectorScan.v ===== *)
(** * Reading the selectors of a profile

    internal/db/profile_selector_scan.go.  A query gives the selectors of a
    profile as rows in the text form of the database, which [Scan] takes apart
    with the CSV reader of the standard library.  What comes back is what was
    stored, except for texts in which the two notations differ. *)

From S2P Require Import Prelude GoErrors GoMonad GoStrings Uuid DbTypes ProfileModels.
From Stdlib Require Import Ascii.
Local Open Scope string_scope.
Local Open Scope list_scope.

Definition quote : ascii := "034"%char.
Definition comma : ascii := ","%char.
Definition newline : ascii := "010"%char.
Definition carriage : ascii := "013"%char.
Definition backslash : ascii := "\"%char.

(** ** encoding/csv

    [Reader.Read] with [LazyQuotes], on the first record of a text.  A line is
    read up to its newline; before that a carriage return is dropped, as is one
    at the end of the text. *)

Fixpoint csv_lines (l : list ascii) : list ascii :=
  match l with
  | [] => []
  | c :: l1 =>
      if Ascii.eqb c carriage
      then match l1 with
           | [] => []
           | c2 :: _ => if Ascii.eqb c2 newline then csv_lines l1 else c :: csv_lines l1
           end
      else c :: csv_lines l1
  end.

(** Empty lines are skipped. *)
Fixpoint csv_skip (l : list ascii) : list ascii :=
  match l with
  | c :: l' => if Ascii.eqb c newline then csv_skip l' else l
  | [] => []
  end.

Inductive csv_state := FieldStart | Bare | Quoted.

(** [acc] is what the field holds so far. *)
Fixpoint csv_fields (st : csv_state) (acc l : list ascii) : list (list ascii) :=
  match l with
  | [] => [acc]
  | c :: l1 =>
      match st with
      | Quoted =>
          if Ascii.eqb c quote
          then match l1 with
               | [] => [acc]
               | c2 :: l2 =>
                   if Ascii.eqb c2 quote then csv_fields Quoted (acc ++ [quote]) l2
                   else if Ascii.eqb c2 comma then acc :: csv_fields FieldStart [] l2
                   else if Ascii.eqb c2 newline then [acc]
                   else csv_fields Quoted (acc ++ [quote]) l1
               end
          else csv_fields Quoted (acc ++ [c]) l1
      | FieldStart =>
          if Ascii.eqb c quote then csv_fields Quoted acc l1
          else if Ascii.eqb c comma then acc :: csv_fields FieldStart [] l1
          else if Ascii.eqb c newline then [acc]
          else csv_fields Bare (acc ++ [c]) l1
      | Bare =>
          if Ascii.eqb c comma then acc :: csv_fields FieldStart [] l1
          else if Ascii.eqb c newline then [acc]
          else csv_fields Bare (acc ++ [c]) l1
      end
  end.

(** The end of the text is [io.EOF]. *)
Definition csv_Read (s : string) : list string + gerr :=
  match csv_skip (csv_lines (String.list_ascii_of_string s)) with
  | [] => inr (EText "EOF")
  | l => inl (String.string_of_list_ascii <$> csv_fields FieldStart [] l)
  end.

(** ** Scan *)

(** [strings.ReplaceAll(s, two quotes, one quote)] *)
Fixpoint merge_quotes (s : string) : string :=
  match s with
  | EmptyString => EmptyString
  | String c s1 =>
      match s1 with
      | String c2 s2 =>
          if Ascii.eqb c quote && Ascii.eqb c2 quote then String quote (merge_quotes s2)
          else String c (merge_quotes s1)
      | EmptyString => String c EmptyString
      end
  end.

Definition one_quote : string := String quote EmptyString.

Definition trim_quotes (s : string) : string :=
  Strings.TrimSuffix (Strings.TrimPrefix s one_quote) one_quote.

Section scan.
Context `{UuidLib}.

(** [uuid.UUID.Scan] of a string: the empty one leaves the id as it is. *)
Definition uuid_Scan (s : string) : res UUID :=
  if String.eqb s "" then Ok uuid_Nil else uuid_Parse s.

(** [fmt.Errorf(pre + "%v", err)]: the text of the error, not the error. *)
Definition cited {A} (pre : string) (r : res A) : res A :=
  match r with Err e => Err (EText (pre +:+ Error e)) | r => r end.

(** The receiver is a zero row, and a [NULL] leaves it so. *)
Definition ProfileSelector_Scan (value : option string) : res dbProfileSelector :=
  match value with
  | None => Ok {| dps_ID := uuid_Nil; dps_ProfileID := uuid_Nil; dps_Entity := None;
                  dps_Selector := ""; dps_Comment := "" |}
  | Some str =>
      match csv_Read (Strings.TrimSuffix (Strings.TrimPrefix str "(") ")") with
      | inr err => Err (EText ("failed to scan SelectorInfo: " +:+ Error err))
      | inl [p0; p1; p2; p3; p4] =>
          id ← cited "failed to scan id: " (uuid_Scan p0);
          profile ← cited "failed to scan profile_id: " (uuid_Scan p1);
          mret {| dps_ID := id; dps_ProfileID := profile;
                  dps_Entity := if String.eqb p2 "" then None else Some p2;
                  dps_Selector := merge_quotes (trim_quotes p3);
                  dps_Comment := trim_quotes p4 |}
      | inl _ => Err (EText "failed to scan SelectorInfo: unexpected number of fields")
      end
  end.
End scan.

(** ** What the database writes

    The text form of a composite value, as the documentation of PostgreSQL
    defines it: the fields between parentheses and commas, [NULL] as nothing, a
    text in quotes when it is empty or holds a quote, a backslash, a comma, a
    parenthesis or white space, with its quotes and backslashes doubled. *)

Definition pg_space (c : ascii) : bool :=
  let n := nat_of_ascii c in ((9 <=? n) && (n <=? 13) || (n =? 32))%nat.

Definition pg_special (c : ascii) : bool :=
  Ascii.eqb c quote || Ascii.eqb c backslash || Ascii.eqb c comma ||
  Ascii.eqb c "("%char || Ascii.eqb c ")"%char || pg_space c.

Definition needs_quotes (l : list ascii) : bool :=
  match l with [] => true | _ => existsb pg_special l end.

Definition pg_escape (c : ascii) : list ascii :=
  if Ascii.eqb c quote || Ascii.eqb c backslash then [c; c] else [c].

Definition field_chars (f : option string) : list ascii :=
  match f with
  | None => []
  | Some s =>
      let l := String.list_ascii_of_string s in
      if needs_quotes l then (quote :: l ≫= pg_escape) ++ [quote] else l
  end.

Fixpoint fields_chars (fs : list (option string)) : list ascii :=
  match fs with
  | [] => []
  | [f] => field_chars f
  | f :: fs => field_chars f ++ comma :: fields_chars fs
  end.

Class RecordOutput := {
  record_out : list (option string) → string;
  record_out_documented : ∀ fs,
    String.list_ascii_of_string (record_out fs) = ("("%char :: fields_chars fs ++ [")"%char])%list;
}.

Definition row_text `{UuidLib} `{RecordOutput} (row : dbProfileSelector) : string :=
  record_out [Some (uuid_String (dps_ID row)); Some (uuid_String (dps_ProfileID row));
              dps_Entity row; Some (dps_Selector row); Some (dps_Comment row)].

(** ** Lemmas *)

Definition plain (c : ascii) : Prop := c ≠ backslash ∧ c ≠ carriage.
Definition plain_text (s : string) : Prop := Forall plain (String.list_ascii_of_string s).
Definition word (s : string) : Prop :=
  s ≠ "" ∧ Forall (λ c, pg_special c = false) (String.list_ascii_of_string s).

Lemma special_false c :
  pg_special c = false →
  c ≠ quote ∧ c ≠ backslash ∧ c ≠ comma ∧ c ≠ newline ∧ c ≠ carriage.
Proof.
  intros Hc. split_and!; intros ->; discriminate.
Qed.

Lemma csv_lines_plain l : Forall (λ c, c ≠ carriage) l → csv_lines l = l.
Proof.
  induction 1 as [|c l Hc Hl IH]; [done|]. simpl.
  rewrite (proj2 (Ascii.eqb_neq _ _) Hc). by rewrite IH.
Qed.

(** What may follow a field. *)
Definition after_field (rest : list ascii) : Prop := rest = [] ∨ ∃ r, rest = comma :: r.

Definition next_fields (rest : list ascii) : list (list ascii) :=
  match rest with [] => [] | _ :: r => csv_fields FieldStart [] r end.

Lemma csv_quoted l acc rest :
  Forall plain l → after_field rest →
  csv_fields Quoted acc ((l ≫= pg_escape) ++ quote :: rest) = (acc ++ l) :: next_fields rest.
Proof.
  intros Hl Hr. revert acc. induction Hl as [|c l [Hb _] _ IH]; intros acc.
  - rewrite app_nil_r. by destruct Hr as [->|[r ->]].
  - rewrite bind_cons. unfold pg_escape at 1. rewrite (proj2 (Ascii.eqb_neq _ _) Hb), orb_false_r.
    destruct (Ascii.eqb_spec c quote) as [->|Hc]; simpl.
    + rewrite IH. by rewrite <-app_assoc.
    + rewrite (proj2 (Ascii.eqb_neq _ _) Hc), IH. by rewrite <-app_assoc.
Qed.

Lemma csv_bare l acc rest :
  Forall (λ c, pg_special c = false) l → after_field rest →
  csv_fields Bare acc (l ++ rest) = (acc ++ l) :: next_fields rest.
Proof.
  intros Hl Hr. revert acc. induction Hl as [|c l Hc _ IH]; intros acc.
  - rewrite app_nil_r. by destruct Hr as [->|[r ->]].
  - apply special_false in Hc as (_ & _ & Hc & Hn & _). simpl.
    rewrite (proj2 (Ascii.eqb_neq _ _) Hc), (proj2 (Ascii.eqb_neq _ _) Hn), IH.
    by rewrite <-app_assoc.
Qed.

Lemma needs_quotes_false l :
  needs_quotes l = false → l ≠ [] ∧ Forall (λ c, pg_special c = false) l.
Proof.
  destruct l as [|c l]; [done|]. intros Hq. split; [done|].
  apply Forall_forall. intros x Hx. destruct (pg_special x) eqn:Hs; [|done].
  rewrite <-Hq. symmetry. apply existsb_exists. exists x. split; [by apply list_elem_of_In|done].
Qed.

Definition field_plain (f : option string) : Prop :=
  match f with None => True | Some s => plain_text s end.

Lemma csv_field f rest :
  field_plain f → after_field rest → (f = None → rest ≠ []) →
  csv_fields FieldStart [] (field_chars f ++ rest)
    = String.list_ascii_of_string (default "" f) :: next_fields rest.
Proof.
  intros Hf Hr Hn. destruct f as [s|]; simpl in *.
  2:{ destruct Hr as [->|[r ->]]; [by destruct (Hn eq_refl)|done]. }
  destruct (needs_quotes _) eqn:Hq.
  - simpl. rewrite <-app_assoc. by apply csv_quoted.
  - apply needs_quotes_false in Hq as [Hne Hs].
    destruct (String.list_ascii_of_string s) as [|c l]; [done|].
    apply Forall_cons in Hs as [Hc Hs]. apply special_false in Hc as (Hc & _ & Hc2 & Hc3 & _).
    simpl. rewrite (proj2 (Ascii.eqb_neq _ _) Hc), (proj2 (Ascii.eqb_neq _ _) Hc2),
      (proj2 (Ascii.eqb_neq _ _) Hc3). by apply (csv_bare l [c]).
Qed.

Lemma csv_all_fields fs f :
  Forall field_plain fs → field_plain (Some f) →
  csv_fields FieldStart [] (fields_chars (fs ++ [Some f]))
    = String.list_ascii_of_string ∘ default "" <$> (fs ++ [Some f]).
Proof.
  intros Hfs Hf. induction Hfs as [|g fs Hg _ IH].
  - pose proof (csv_field (Some f) [] Hf (or_introl eq_refl)) as H. rewrite app_nil_r in H.
    by apply H.
  - simpl app. destruct (fs ++ [Some f]) as [|h hs] eqn:E; [by destruct fs|].
    change (fields_chars (g :: h :: hs)) with (field_chars g ++ comma :: fields_chars (h :: hs)).
    rewrite csv_field by (done || (right; by eexists)). cbn [next_fields]. rewrite IH. done.
Qed.

Lemma field_chars_carriage f :
  field_plain f → Forall (λ c, c ≠ carriage) (field_chars f).
Proof.
  destruct f as [s|]; simpl; [|done]. unfold plain_text.
  intros Hs. assert (Hl : Forall (λ c, c ≠ carriage) (String.list_ascii_of_string s)).
  { eapply Forall_impl; [exact Hs|]. by intros c [_ ?]. }
  destruct (needs_quotes _); [|done]. constructor; [done|].
  apply Forall_app. split; [|by repeat constructor].
  apply Forall_forall. intros x (c & Hc & Hin)%list_elem_of_bind.
  unfold pg_escape in Hc. rewrite Forall_forall in Hl. specialize (Hl c Hin).
  destruct (_ || _); set_solver.
Qed.

Lemma fields_chars_carriage fs :
  Forall field_plain fs → Forall (λ c, c ≠ carriage) (fields_chars fs).
Proof.
  induction 1 as [|f fs Hf _ IH]; [by constructor|].
  destruct fs as [|g fs]; [by apply field_chars_carriage|].
  change (fields_chars (f :: g :: fs)) with (field_chars f ++ comma :: fields_chars (g :: fs))%list.
  apply Forall_app. split; [by apply field_chars_carriage|]. by constructor.
Qed.

(** *** The trimming of quotes *)

Definition begins_with (c : ascii) (s : string) : Prop := ∃ t, s = String c t.
Definition ends_with (c : ascii) (s : string) : Prop := ∃ t, s = t +:+ String c "".
Definition has_pair (s : string) : Prop :=
  ∃ a b, s = a +:+ String quote (String quote b).

Lemma TrimPrefix_char c s :
  (∃ t, s = String c t ∧ Strings.TrimPrefix s (String c "") = t) ∨
  (¬ begins_with c s ∧ Strings.TrimPrefix s (String c "") = s).
Proof.
  unfold Strings.TrimPrefix, Strings.HasPrefix. destruct s as [|d s]; simpl.
  - right. split; [by intros [t ?]|done].
  - destruct (ascii_dec c d) as [->|Hc].
    + left. exists s. by destruct s.
    + right. split; [|done]. intros [t [= -> _]]. done.
Qed.

Lemma TrimSuffix_cons c d s :
  Strings.TrimSuffix (String d s) (String c "") =
    if Ascii.eqb d c && String.eqb s "" then ""
    else String d (Strings.TrimSuffix s (String c "")).
Proof. simpl. by destruct (Ascii.eqb d c), s. Qed.

Lemma TrimSuffix_char c s :
  (∃ t, s = t +:+ String c "" ∧ Strings.TrimSuffix s (String c "") = t) ∨
  (¬ ends_with c s ∧ Strings.TrimSuffix s (String c "") = s).
Proof.
  induction s as [|d s IH].
  - right. split; [by intros [[|? t] ?]|done].
  - rewrite TrimSuffix_cons. destruct (Ascii.eqb d c && String.eqb s "") eqn:E.
    + apply andb_true_iff in E as [->%Ascii.eqb_eq ->%String.eqb_eq]. left. by exists "".
    + destruct IH as [(t & Ht & ->)|[Hn ->]].
      * left. exists (String d t). by rewrite append_cons, <-Ht.
      * right. split; [|done]. intros [[|e t] [= -> Ht]].
        -- by rewrite Ht, Ascii.eqb_refl in E.
        -- apply Hn. by exists t.
Qed.

Lemma append_char_inj c t1 t2 : t1 +:+ String c "" = t2 +:+ String c "" → t1 = t2.
Proof.
  revert t2. induction t1 as [|d t1 IH]; intros [|e t2]; rewrite ?append_cons; intros H.
  - done.
  - injection H as _ H. by destruct t2.
  - injection H as _ H. by destruct t1.
  - injection H as -> H. by rewrite (IH _ H).
Qed.

Lemma TrimSuffix_append c t : Strings.TrimSuffix (t +:+ String c "") (String c "") = t.
Proof.
  destruct (TrimSuffix_char c (t +:+ String c "")) as [(t' & Ht & ->)|[Hn _]].
  - symmetry. by eapply append_char_inj.
  - destruct Hn. by exists t.
Qed.

Lemma trim_quotes_length s :
  (String.length (trim_quotes s) ≤ String.length s)%nat ∧
  (String.length (trim_quotes s) = String.length s →
     trim_quotes s = s ∧ ¬ begins_with quote s ∧ ¬ ends_with quote s).
Proof.
  unfold trim_quotes, one_quote.
  destruct (TrimPrefix_char quote s) as [(t & -> & ->)|[Hn1 ->]].
  - destruct (TrimSuffix_char quote t) as [(u & -> & ->)|[_ ->]]; simpl;
      rewrite ?length_append; simpl; split; lia.
  - destruct (TrimSuffix_char quote s) as [(u & -> & ->)|[Hn2 ->]].
    + rewrite length_append. simpl. split; [lia|]. intros. lia.
    + done.
Qed.

Lemma trim_quotes_id s :
  ¬ begins_with quote s → ¬ ends_with quote s → trim_quotes s = s.
Proof.
  intros Hb He. unfold trim_quotes, one_quote.
  destruct (TrimPrefix_char quote s) as [(t & -> & _)|[_ ->]]; [by destruct Hb; eexists|].
  destruct (TrimSuffix_char quote s) as [(u & -> & _)|[_ ->]]; [by destruct He; eexists|done].
Qed.

Lemma merge_quotes_length s :
  (String.length (merge_quotes s) ≤ String.length s)%nat ∧
  (String.length (merge_quotes s) = String.length s → merge_quotes s = s ∧ ¬ has_pair s).
Proof.
  induction s as [s IH] using (induction_ltof1 _ String.length). unfold ltof in IH.
  destruct s as [|c [|d s]].
  - split; [done|]. split; [done|]. intros ([|? a] & b & ?); discriminate.
  - split; [done|]. split; [done|].
    intros ([|? a] & b & [= -> Ha]). by destruct a.
  - destruct (IH (String d s)) as [Hl1 He1]; [simpl; lia|].
    destruct (IH s) as [Hl2 _]; [simpl; lia|].
    change (merge_quotes (String c (String d s))) with
      (if Ascii.eqb c quote && Ascii.eqb d quote then String quote (merge_quotes s)
       else String c (merge_quotes (String d s))).
    destruct (Ascii.eqb c quote && Ascii.eqb d quote) eqn:E.
    + simpl. split; [lia|]. intros. lia.
    + split; [cbn [String.length] in *; lia|].
      intros Hl. destruct He1 as [He Hn]; [cbn [String.length] in *; lia|].
      rewrite He. split; [done|]. intros ([|e a] & b & Hab).
      * injection Hab as -> -> _. discriminate.
      * rewrite append_cons in Hab. injection Hab as -> Hab. apply Hn. by exists a, b.
Qed.

Lemma merge_quotes_id s : ¬ has_pair s → merge_quotes s = s.
Proof.
  induction s as [|c s IH]; intros Hn; [done|].
  assert (Hs : ¬ has_pair s).
  { intros (a & b & ->). apply Hn. by exists (String c a), b. }
  destruct s as [|d s]; [done|].
  change (merge_quotes (String c (String d s))) with
    (if Ascii.eqb c quote && Ascii.eqb d quote then String quote (merge_quotes s)
     else String c (merge_quotes (String d s))).
  destruct (Ascii.eqb_spec c quote) as [->|]; [|by rewrite (IH Hs)].
  destruct (Ascii.eqb_spec d quote) as [->|]; [|by rewrite (IH Hs)].
  destruct Hn. by exists "", s.
Qed.

(** *** Scanning what the database wrote *)

Section scanning.
Context `{UuidLib} `{RecordOutput}.
Hypothesis uuid_words : ∀ u, word (uuid_String u).

(** What is read of the row that was stored. *)
Definition read_back (row : dbProfileSelector) : dbProfileSelector :=
  {| dps_ID := dps_ID row; dps_ProfileID := dps_ProfileID row; dps_Entity := dps_Entity row;
     dps_Selector := merge_quotes (trim_quotes (dps_Selector row));
     dps_Comment := trim_quotes (dps_Comment row) |}.

Lemma word_plain s : word s → plain_text s.
Proof.
  intros [_ Hs]. eapply Forall_impl; [exact Hs|].
  intros c (_ & ? & _ & _ & ?)%special_false. by split.
Qed.

Lemma word_head s : word s → ∃ c l, String.list_ascii_of_string s = c :: l ∧
  field_chars (Some s) = c :: l ∧ c ≠ newline.
Proof.
  intros [Hne Hs]. destruct s as [|c s]; [done|]. exists c, (String.list_ascii_of_string s).
  simpl in Hs. split; [done|]. pose proof Hs as [Hc _]%Forall_cons.
  split; [|by destruct (special_false c Hc) as (_ & _ & _ & ? & _)].
  unfold field_chars, needs_quotes. simpl.
  destruct (existsb pg_special _) eqn:E; [|by rewrite orb_false_r, Hc].
  apply existsb_exists in E as (x & Hx%list_elem_of_In & Hsp).
  apply Forall_cons in Hs as [_ Hs]. rewrite Forall_forall in Hs.
  specialize (Hs x Hx). simpl in Hs. congruence.
Qed.

Lemma list_string_inj s t :
  String.list_ascii_of_string s = String.list_ascii_of_string t → s = t.
Proof.
  intros H1. rewrite <-(String.string_of_list_ascii_of_string s), H1.
  apply String.string_of_list_ascii_of_string.
Qed.

(** Without its parentheses. *)
Lemma trim_record fs :
  Strings.TrimSuffix (Strings.TrimPrefix (record_out fs) "(") ")"
    = String.string_of_list_ascii (fields_chars fs).
Proof.
  assert (Hout : record_out fs
    = String "(" (String.string_of_list_ascii (fields_chars fs) +:+ String ")" "")).
  { apply list_string_inj. rewrite record_out_documented. simpl. rewrite chars_append.
    by rewrite String.list_ascii_of_string_of_list_ascii. }
  rewrite Hout. destruct (TrimPrefix_char "("%char
    (String "(" (String.string_of_list_ascii (fields_chars fs) +:+ String ")" "")))
    as [(t & [= <-] & ->)|[Hn _]]; [apply TrimSuffix_append|].
  destruct Hn. by eexists.
Qed.

Lemma csv_record fs s f :
  word s → Forall field_plain fs → field_plain (Some f) →
  csv_Read (String.string_of_list_ascii (fields_chars (Some s :: fs ++ [Some f])))
    = inl (default "" <$> (Some s :: fs ++ [Some f])).
Proof.
  intros Hs Hfs Hf. unfold csv_Read. rewrite String.list_ascii_of_string_of_list_ascii.
  pose proof (word_plain s Hs) as Hps.
  rewrite csv_lines_plain by (apply fields_chars_carriage, Forall_cons; split;
    [exact Hps|apply Forall_app; by repeat constructor]).
  assert (Hskip : csv_skip (fields_chars (Some s :: fs ++ [Some f]))
    = fields_chars (Some s :: fs ++ [Some f]) ∧ fields_chars (Some s :: fs ++ [Some f]) ≠ []).
  { destruct (word_head s Hs) as (c & l & _ & Hfc & Hc).
    assert (Hcons : ∃ r, fields_chars (Some s :: fs ++ [Some f]) = c :: r).
    { destruct (fs ++ [Some f]) as [|h hs] eqn:E; [by destruct fs|].
      change (fields_chars (Some s :: h :: hs))
        with (field_chars (Some s) ++ comma :: fields_chars (h :: hs)).
      rewrite Hfc. by eexists. }
    destruct Hcons as [r ->]. simpl. by rewrite (proj2 (Ascii.eqb_neq _ _) Hc). }
  destruct Hskip as [-> Hne]. destruct (fields_chars _) as [|c l] eqn:E; [done|]. rewrite <-E.
  change (Some s :: fs ++ [Some f]) with ((Some s :: fs) ++ [Some f]).
  rewrite (csv_all_fields (Some s :: fs) f) by (done || by constructor).
  rewrite <-list_fmap_compose. f_equal. apply list_fmap_ext. intros i x _. simpl.
  apply String.string_of_list_ascii_of_string.
Qed.

(** A selector is read back as it was stored, unless quotes stand where the
    reader drops them.  Of texts without backslashes and carriage returns, and
    an entity of one word, the scan of the stored row is the row itself exactly
    when neither the selector nor the comment begins or ends with a quote and
    the selector has no two quotes in a row; else a selector is read without
    the quotes at its ends and with one quote of each pair. *)
Theorem selector_scan row
    (Hsel : plain_text (dps_Selector row)) (Hcom : plain_text (dps_Comment row))
    (Hent : ∀ e, dps_Entity row = Some e → word e) :
  ProfileSelector_Scan (Some (row_text row)) = Ok (read_back row) ∧
  (read_back row = row ↔
     ¬ begins_with quote (dps_Selector row) ∧ ¬ ends_with quote (dps_Selector row) ∧
     ¬ has_pair (dps_Selector row) ∧
     ¬ begins_with quote (dps_Comment row) ∧ ¬ ends_with quote (dps_Comment row)).
Proof.
  split.
  - unfold ProfileSelector_Scan, row_text. rewrite trim_record.
    pose proof (csv_record [Some (uuid_String (dps_ProfileID row)); dps_Entity row;
      Some (dps_Selector row)] (uuid_String (dps_ID row)) (dps_Comment row) (uuid_words _)) as Hcsv.
    cbn [app] in Hcsv. rewrite Hcsv; [clear Hcsv| |exact Hcom].
    2:{ repeat apply Forall_cons_2; [by apply word_plain|..|exact Hsel|by constructor].
        destruct (dps_Entity row) as [e|]; [|done]. by apply word_plain, Hent. }
    simpl. unfold uuid_Scan. rewrite !(proj2 (String.eqb_neq _ _) (proj1 (uuid_words _))).
    rewrite !uuid_Parse_String. simpl. unfold read_back, mret, res_ret. do 2 f_equal.
    destruct (dps_Entity row) as [e|]; [|done]. simpl.
    by rewrite (proj2 (String.eqb_neq _ _) (proj1 (Hent _ eq_refl))).
  - destruct row as [id pid ent sel com]. unfold read_back. cbn [dps_Selector dps_Comment
      dps_ID dps_ProfileID dps_Entity]. split.
    + intros [= Hs Hc].
      destruct (trim_quotes_length sel) as [Hl1 He1], (merge_quotes_length (trim_quotes sel))
        as [Hl2 He2]. rewrite Hs in Hl2, He2.
      destruct He1 as (Ht & Hb & He); [lia|]. rewrite Ht in He2.
      destruct (He2 eq_refl) as [_ Hp].
      destruct (trim_quotes_length com) as [_ Hec]. rewrite Hc in Hec.
      by destruct (Hec eq_refl) as (_ & ? & ?).
    + intros (Hb & He & Hp & Hbc & Hec).
      by rewrite (trim_quotes_id sel), (merge_quotes_id sel), (trim_quotes_id com).
Qed.
End scanning.

(** ** Witness *)

Definition ex_record_out (fs : list (option string)) : string :=
  String "(" (String.string_of_list_ascii (fields_chars fs) +:+ String ")" "").

Lemma ex_record_documented fs :
  String.list_ascii_of_string (ex_record_out fs) = "("%char :: fields_chars fs ++ [")"%char].
Proof.
  unfold ex_record_out. simpl. rewrite chars_append.
  by rewrite String.list_ascii_of_string_of_list_ascii.
Qed.

Definition ex_record : RecordOutput :=
  {| record_out := ex_record_out; record_out_documented := ex_record_documented |}.

Lemma decimal_digit_words u :
  Forall (λ c, pg_special c = false)
    (String.list_ascii_of_string (DecimalString.NilEmpty.string_of_uint u)).
Proof. induction u; simpl; [constructor|..]; by constructor. Qed.

Lemma decimal_words u : word (decimal_string u).
Proof.
  split; [apply decimal_string_nonempty|]. unfold decimal_string, Strconv.FormatInt.
  destruct (Z.to_int (Z.of_N u)) as [d|d] eqn:E; [|by destruct u].
  destruct d; [by constructor|apply (decimal_digit_words (_ _))..].
Qed.

(** The selector [repository.name == "app"] loses its last quote. *)
Definition ex_selector : dbProfileSelector :=
  {| dps_ID := 1%N; dps_ProfileID := 40%N; dps_Entity := Some "repository";
     dps_Selector := "repository.name == " +:+ one_quote +:+ "app" +:+ one_quote;
     dps_Comment := "" |}.

Lemma selector_scan_witness :
  @ProfileSelector_Scan decimal_uuid (Some (@row_text decimal_uuid ex_record ex_selector))
    = Ok (read_back ex_selector) ∧
  dps_Selector (read_back ex_selector) = "repository.name == " +:+ one_quote +:+ "app".
Proof.
  split; [|reflexivity].
  apply (@selector_scan decimal_uuid ex_record decimal_words ex_selector).
  - by repeat constructor.
  - by repeat constructor.
  - intros e [= <-]. split; [done|]. by repeat constructor.
Defined.

(** A backslash, as a regular expression has one, is doubled in the text of the
    row, and the reader keeps both. *)
Definition ex_backslash : dbProfileSelector :=
  {| dps_ID := 1%N; dps_ProfileID := 40%N; dps_Entity := Some "repository";
     dps_Selector := "name.matches('\d')"; dps_Comment := "" |}.

Example backslash_doubled :
  @ProfileSelector_Scan decimal_uuid (Some (@row_text decimal_uuid ex_record ex_backslash)) =
  Ok {| dps_ID := 1%N; dps_ProfileID := 40%N; dps_Entity := Some "repository";
        dps_Selector := "name.matches('\\d')"; dps_Comment := "" |}.
Proof. by vm_compute. Qed.
