(* ===== verification/Actions.v ===== *)
(** * The action engine: internal/engine/actions

    [actions.go] and [types.go], the choice of the engines in
    [remediate/remediate.go] and [alert/alert.go], and the two no-op engines.
    An engine is a record of the methods of [interfaces.Action]; a call to one
    runs in the world [W] of the providers, may fail and may panic.  [E] is the
    type of entities ([protoreflect.ProtoMessage]). *)

From S2P Require Import Prelude GoErrors GoMonad EngineErrors DbTypes StatusAdapter.
From S2P Require Import Uuid ProfileModels.
Local Open Scope string_scope.

(** ** The interface of an action *)

Abbreviation ActionType := string.
Definition remediate_ActionType : ActionType := "remediate".
Definition alert_ActionType : ActionType := "alert".

Abbreviation ActionCmd := string.
Definition ActionCmdOff : ActionCmd := "turn_off".
Definition ActionCmdOn : ActionCmd := "turn_on".
Definition ActionCmdDoNothing : ActionCmd := "do_nothing".

(** [Do] returns a metadata and an error, both at once in some paths. *)
Record Action (W E : Type) := {
  act_Class : ActionType;
  act_Type : string;
  act_GetOnOffState : ActionOpt;
  act_Do : ActionCmd → E → EvalStatusParams → option (option string) →
           prog W (option string * error);
}.
Arguments act_Class {W E} _.
Arguments act_Type {W E} _.
Arguments act_GetOnOffState {W E} _.
Arguments act_Do {W E} _ _ _ _ _.

(** ** types.go, whose status constants are in DbTypes.v *)

Record previousEval := {
  pe_RemediationStatus : string;
  pe_AlertStatus : string;
  pe_RemediationMeta : option string;
  pe_AlertMeta : option string;
}.

(** ** What to do *)

Definition mapEvalStatus (err : error) : string :=
  if bool_decide (err = None) then EvalStatusSuccess
  else if errors_Is err ErrEvaluationSkipSilently || errors_Is err ErrEvaluationSkipped
  then EvalStatusSkipped
  else if errors_Is err ErrEvaluationFailed then EvalStatusFailure
  else EvalStatusError.

Definition shouldRemediate (prevEval : option previousEval) (evalStatus : string)
    : ActionCmd :=
  let prevRemediation :=
    match prevEval with
    | Some p => pe_RemediationStatus p
    | None => RemediationStatusSkipped
    end in
  if String.eqb evalStatus EvalStatusError || String.eqb evalStatus EvalStatusSuccess then
    if negb (String.eqb RemediationStatusSkipped prevRemediation)
    then ActionCmdOff else ActionCmdDoNothing
  else if String.eqb evalStatus EvalStatusFailure then
    if String.eqb RemediationStatusSkipped prevRemediation
    then ActionCmdOn else ActionCmdDoNothing
  else ActionCmdDoNothing.

(** [pull_request.RemediateType] *)
Definition pull_request_RemediateType : string := "pull_request".

Definition shouldAlert (prevEval : option previousEval) (evalStatus : string)
    (remErr : error) (remType : string) : ActionCmd :=
  let prevAlert :=
    match prevEval with
    | Some p => pe_AlertStatus p
    | None => AlertStatusSkipped
    end in
  if negb (String.eqb remType pull_request_RemediateType) && bool_decide (remErr = None)
  then if negb (String.eqb prevAlert AlertStatusOff)
       then ActionCmdOff else ActionCmdDoNothing
  else if String.eqb evalStatus EvalStatusError || String.eqb evalStatus EvalStatusFailure
  then if negb (String.eqb AlertStatusOn prevAlert)
       then ActionCmdOn else ActionCmdDoNothing
  else if String.eqb evalStatus EvalStatusSuccess
  then if negb (String.eqb AlertStatusOff prevAlert)
       then ActionCmdOff else ActionCmdDoNothing
  else ActionCmdDoNothing.

(** The address of a field of the previous evaluation: nil without one. *)
Definition getRemediationMeta (prevEval : option previousEval) : option (option string) :=
  pe_RemediationMeta <$> prevEval.

Definition getAlertMeta (prevEval : option previousEval) : option (option string) :=
  pe_AlertMeta <$> prevEval.

(** [json.Marshal(&map[string]any{})] does not fail. *)
Definition getDefaultResult : ActionsError :=
  {| RemediateErr := Some ErrActionSkipped;
     RemediateMeta := Some empty_json;
     AlertErr := Some ErrActionSkipped;
     AlertMeta := Some empty_json |}.

Definition prev_of_row (row : option ListRuleEvaluationsByProfileIdRow)
    : option previousEval :=
  match row with
  | Some row => Some {| pe_RemediationStatus := row_RemStatus row;
                        pe_AlertStatus := row_AlertStatus row;
                        pe_RemediationMeta := row_RemMetadata row;
                        pe_AlertMeta := row_AlertMetadata row |}
  | None => None
  end.

(** ** The engine *)

Section engine.
Context {W E : Type}.

Record RuleActionsEngine := { rae_actions : gmap ActionType (Action W E) }.

Definition isSkippable (rae : RuleActionsEngine) (actionType : ActionType)
    (evalErr : error) : bool :=
  match rae_actions rae !! actionType with
  | None => true
  | Some action =>
      let st := act_GetOnOffState action in
      if bool_decide (st = ActionOptOff) then true
      else if bool_decide (st = ActionOptUnknown) then true
      else if bool_decide (st = ActionOptDryRun) || bool_decide (st = ActionOptOn)
      then errors_Is evalErr ErrEvaluationSkipped ||
           errors_Is evalErr ErrEvaluationSkipSilently
      else false
  end.

(** The deferred function turns a panic into the named result [finalErr];
    [jmsg] keeps its zero value.  A missing action is a nil interface, whose
    method call panics inside. *)
Definition processAction (rae : RuleActionsEngine) (actionType : ActionType)
    (cmd : ActionCmd) (ent : E) (params : EvalStatusParams)
    (metadata : option (option string)) : prog W (option string * error) := λ w,
  match rae_actions rae !! actionType with
  | None => (w, Ok (None, Some ErrInternal))
  | Some action =>
      match act_Do action cmd ent params metadata w with
      | (w', Ok r) => (w', Ok r)
      | (w', Err e) => (w', Ok (None, Some e))
      | (w', Panic _) => (w', Ok (None, Some ErrInternal))
      end
  end.

(** [fmt.Errorf("%s:%w", actionType, ErrActionNotAvailable)] *)
Definition not_available (actionType : ActionType) : gerr :=
  EWrap (actionType +:+ ":") ErrActionNotAvailable "".

Definition set_remediate (result : ActionsError) (r : option string * error)
    : ActionsError :=
  {| RemediateErr := r.2; RemediateMeta := r.1;
     AlertErr := AlertErr result; AlertMeta := AlertMeta result |}.

Definition set_alert (result : ActionsError) (r : option string * error)
    : ActionsError :=
  {| RemediateErr := RemediateErr result; RemediateMeta := RemediateMeta result;
     AlertErr := r.2; AlertMeta := r.1 |}.

Definition set_RemediateErr (result : ActionsError) (err : error) : ActionsError :=
  set_remediate result (RemediateMeta result, err).

Definition set_AlertErr (result : ActionsError) (err : error) : ActionsError :=
  set_alert result (AlertMeta result, err).

Definition DoActions (rae : RuleActionsEngine) (ent : E) (params : EvalStatusParams)
    : prog W ActionsError :=
  let result := getDefaultResult in
  let remediateEngine := rae_actions rae !! remediate_ActionType in
  let '(result, skipRemediate) :=
    match remediateEngine with
    | None => (set_RemediateErr result (Some (not_available remediate_ActionType)), true)
    | Some _ => (result, isSkippable rae remediate_ActionType (esp_evalErr params))
    end in
  let '(result, skipAlert) :=
    match rae_actions rae !! alert_ActionType with
    | None => (set_AlertErr result (Some (not_available alert_ActionType)), true)
    | Some _ => (result, isSkippable rae alert_ActionType (esp_evalErr params))
    end in
  let prev := prev_of_row (esp_EvalStatusFromDb params) in
  let status := mapEvalStatus (esp_evalErr params) in
  result ←
    (if negb skipRemediate then
       let cmd := shouldRemediate prev status in
       set_remediate result <$>
         processAction rae remediate_ActionType cmd ent params (getRemediationMeta prev)
     else mret result : prog W ActionsError);
  if negb skipAlert then
    match remediateEngine with
    | None => lift (Panic "invalid memory address or nil pointer dereference")
    | Some remediateEngine =>
        let cmd := shouldAlert prev status (RemediateErr result)
                     (act_Type remediateEngine) in
        set_alert result <$>
          processAction rae alert_ActionType cmd ent params (getAlertMeta prev)
    end
  else mret result.

(** ** The no-op engines *)

Definition NewNoopRemediate (actionType : ActionType) : res (Action W E) :=
  Ok {| act_Class := actionType;
        act_Type := "noop";
        act_GetOnOffState := ActionOptOff;
        act_Do := λ _ _ _ _, mret (None, Some (not_available actionType)) |}.

Definition NewNoopAlert (actionType : ActionType) : res (Action W E) :=
  Ok {| act_Class := actionType;
        act_Type := "noop";
        act_GetOnOffState := ActionOptOff;
        act_Do := λ _ _ _ _, mret (None, Some (not_available actionType)) |}.
End engine.
Arguments RuleActionsEngine : clear implicits.

(** ** Choosing the engines of a rule type

    The parts of a [RuleType] definition that are read; each configuration is
    the argument of the constructor of its engine. *)

Record RemediateDef := {
  rem_Type : string;
  rem_Rest : option any;
  rem_GhBranchProtection : option any;
  rem_PullRequest : option any;
  rem_Issue : option any;
  rem_PullRequestComment : option any;
}.

Record AlertDef := {
  al_Type : string;
  al_SecurityAdvisory : option any;
  al_PullRequestComment : option any;
}.

Record RuleTypeDef := { rt_Remediate : option RemediateDef; rt_Alert : option AlertDef }.

(** The traits [provinfv1.As] finds in a provider, and the constructors of the
    engines, each given the client, the action type, its configuration and the
    setting of the profile. *)
Class ActionProviders (W E P : Type) := {
  As_REST : P → bool;
  As_GitHub : P → bool;
  As_IssuePublisher : P → bool;
  As_ReviewPublisher : P → bool;
  NewRestRemediate : P → ActionType → any → ActionOpt → res (Action W E);
  NewGhBranchProtectRemediator : P → ActionType → any → ActionOpt → res (Action W E);
  NewPullRequestRemediate : P → ActionType → any → ActionOpt → res (Action W E);
  NewIssueRemediate : P → ActionType → any → ActionOpt → res (Action W E);
  NewPullRequestCommentAlert : P → ActionType → any → ActionOpt → res (Action W E);
  NewSecurityAdvisoryAlert : P → ActionType → any → ActionOpt → res (Action W E);
}.

Section choose.
Context {W E P : Type} `{ActionProviders W E P}.

(** [As], then the nil check of the configuration, then the constructor. *)
Definition with_trait {A B} (has : bool) (errTrait : string) (cfg : option A)
    (errCfg : string) (k : A → res B) : res B :=
  if has then match cfg with
              | None => Err (EText errCfg)
              | Some c => k c
              end
  else Err (EText errTrait).

Definition NewRuleRemediator (rt : RuleTypeDef) (provider : P) (setting : ActionOpt)
    : res (Action W E) :=
  match rt_Remediate rt with
  | None => NewNoopRemediate remediate_ActionType
  | Some r =>
      if String.eqb (rem_Type r) "rest" then
        with_trait (As_REST provider) "provider does not implement rest trait"
          (rem_Rest r) "remediations engine missing rest configuration"
          (λ c, NewRestRemediate provider remediate_ActionType c setting)
      else if String.eqb (rem_Type r) "gh_branch_protection" then
        with_trait (As_GitHub provider) "provider does not implement git trait"
          (rem_GhBranchProtection r)
          "remediations engine missing gh_branch_protection configuration"
          (λ c, NewGhBranchProtectRemediator provider remediate_ActionType c setting)
      else if String.eqb (rem_Type r) pull_request_RemediateType then
        with_trait (As_GitHub provider) "provider does not implement git trait"
          (rem_PullRequest r) "remediations engine missing pull request configuration"
          (λ c, NewPullRequestRemediate provider remediate_ActionType c setting)
      else if String.eqb (rem_Type r) "issue" then
        with_trait (As_IssuePublisher provider) "provider does not implement issue trait"
          (rem_Issue r) "remediations engine missing issue configuration"
          (λ c, NewIssueRemediate provider remediate_ActionType c setting)
      else if String.eqb (rem_Type r) "pull_request_comment" then
        with_trait (As_ReviewPublisher provider)
          "provider does not implement pull_request_comment trait"
          (rem_PullRequestComment r)
          "remediations engine missing pull_request_comment configuration"
          (λ c, NewPullRequestCommentAlert provider remediate_ActionType c setting)
      else Err (EText ("unknown remediation type: " +:+ rem_Type r))
  end.

(** An alert whose provider lacks the trait is silently a no-op. *)
Definition NewRuleAlert (rt : RuleTypeDef) (provider : P) (setting : ActionOpt)
    : res (Action W E) :=
  match rt_Alert rt with
  | None => NewNoopAlert alert_ActionType
  | Some a =>
      if String.eqb (al_Type a) "security_advisory" then
        match al_SecurityAdvisory a with
        | None => Err (EText "alert engine missing security-advisory configuration")
        | Some c => if As_GitHub provider
                    then NewSecurityAdvisoryAlert provider alert_ActionType c setting
                    else NewNoopAlert alert_ActionType
        end
      else if String.eqb (al_Type a) "pull_request_comment" then
        match al_PullRequestComment a with
        | None => Err (EText "alert engine missing pull_request_review configuration")
        | Some c => if As_ReviewPublisher provider
                    then NewPullRequestCommentAlert provider alert_ActionType c setting
                    else NewNoopAlert alert_ActionType
        end
      else Err (EText ("unknown alert type: " +:+ al_Type a))
  end.

(** The map literal holds both engines under their classes. *)
Definition NewRuleActions (rt : RuleTypeDef) (provider : P)
    (actionConfig : ActionConfiguration) : res (RuleActionsEngine W E) :=
  remEngine ← wrapf_res "cannot create rule remediator: "
                (NewRuleRemediator rt provider (ac_Remediate actionConfig));
  alertEngine ← wrapf_res "cannot create rule alerter: "
                  (NewRuleAlert rt provider (ac_Alert actionConfig));
  Ok {| rae_actions := <[act_Class alertEngine := alertEngine]>
                        {[act_Class remEngine := remEngine]} |}.
End choose.

(** Every engine a constructor returns is of the class it was given, has the
    type of its package and the on/off state of the profile's setting. *)
Class ActionProvidersLaws (W E P : Type) `{ActionProviders W E P} := {
  constructor_class : ∀ p t c s a,
    (NewRestRemediate p t c s = Ok a ∨ NewGhBranchProtectRemediator p t c s = Ok a ∨
     NewPullRequestRemediate p t c s = Ok a ∨ NewIssueRemediate p t c s = Ok a ∨
     NewPullRequestCommentAlert p t c s = Ok a ∨ NewSecurityAdvisoryAlert p t c s = Ok a) →
    act_Class a = t ∧ act_GetOnOffState a = ActionOptOrDefault s ActionOptOff;
  constructor_no_panic : ∀ p t c s m,
    NewRestRemediate p t c s ≠ Panic m ∧ NewGhBranchProtectRemediator p t c s ≠ Panic m ∧
    NewPullRequestRemediate p t c s ≠ Panic m ∧ NewIssueRemediate p t c s ≠ Panic m ∧
    NewPullRequestCommentAlert p t c s ≠ Panic m ∧ NewSecurityAdvisoryAlert p t c s ≠ Panic m;
}.

(** ** Lemmas *)

Lemma prev_of_row_None_iff row : prev_of_row row = None ↔ row = None.
Proof. by destruct row. Qed.

Lemma mapEvalStatus_cases err :
  mapEvalStatus err ∈ [EvalStatusSuccess; EvalStatusSkipped; EvalStatusFailure; EvalStatusError].
Proof. unfold mapEvalStatus. repeat case_goal; set_solver. Qed.

Lemma mapEvalStatus_skipped err :
  mapEvalStatus err = EvalStatusSkipped ↔
  errors_Is err ErrEvaluationSkipSilently = true ∨ errors_Is err ErrEvaluationSkipped = true.
Proof.
  unfold mapEvalStatus. case_bool_decide as Hn.
  - subst. simpl. naive_solver.
  - rewrite <-orb_true_iff. destruct (_ || _); [done|]. repeat case_goal; naive_solver.
Qed.

(** The commands when no remediation succeeded on the spot. *)
Section alert_commands.
Context (prev : option previousEval) (e : gerr) (ty : string).
Let prevAlert := from_option pe_AlertStatus AlertStatusSkipped prev.

Lemma shouldAlert_off :
  prevAlert ≠ AlertStatusOff →
  shouldAlert prev EvalStatusSuccess (Some e) ty = ActionCmdOff.
Proof.
  intros Hn%not_eq_sym%String.eqb_neq. unfold shouldAlert.
  rewrite bool_decide_eq_false_2, andb_false_r by done.
  unfold prevAlert, from_option in Hn. cbv beta iota zeta delta [negb]. by rewrite Hn.
Qed.

Lemma shouldAlert_on :
  prevAlert ≠ AlertStatusOn →
  shouldAlert prev EvalStatusFailure (Some e) ty = ActionCmdOn.
Proof.
  intros Hn%not_eq_sym%String.eqb_neq. unfold shouldAlert.
  rewrite bool_decide_eq_false_2, andb_false_r by done.
  unfold prevAlert, from_option in Hn. cbv beta iota zeta delta [negb]. by rewrite Hn.
Qed.

Lemma shouldAlert_still_on :
  prevAlert = AlertStatusOn →
  shouldAlert prev EvalStatusFailure (Some e) ty = ActionCmdDoNothing.
Proof.
  intros Hn%eq_sym%String.eqb_eq. unfold shouldAlert.
  rewrite bool_decide_eq_false_2, andb_false_r by done.
  unfold prevAlert, from_option in Hn. cbv beta iota zeta delta [negb]. by rewrite Hn.
Qed.
End alert_commands.

Section engine_lemmas.
Context {W E : Type}.
Implicit Types rae : RuleActionsEngine W E.

(** What [isSkippable] decides for an engine whose state is an option. *)
Lemma isSkippable_spec rae t a err :
  rae_actions rae !! t = Some a →
  isSkippable rae t err = true ↔
  act_GetOnOffState a ∈ [ActionOptOff; ActionOptUnknown] ∨
  (act_GetOnOffState a ∈ [ActionOptOn; ActionOptDryRun] ∧
   mapEvalStatus err = EvalStatusSkipped).
Proof.
  intros Ha. unfold isSkippable. rewrite Ha, mapEvalStatus_skipped.
  rewrite !elem_of_cons, !elem_of_nil.
  destruct (decide (act_GetOnOffState a = ActionOptOff)) as [H1|H1];
    [rewrite bool_decide_eq_true_2 by done; tauto|].
  rewrite bool_decide_eq_false_2 by done.
  destruct (decide (act_GetOnOffState a = ActionOptUnknown)) as [H2|H2];
    [rewrite bool_decide_eq_true_2 by done; tauto|].
  rewrite bool_decide_eq_false_2 by done.
  repeat case_bool_decide; simpl; rewrite ?orb_true_iff; try tauto.
  split; [done|]. intros [?|[? ?]]; tauto.
Qed.

(** The call of an engine never unwinds. *)
Lemma processAction_ok rae t cmd ent params meta w :
  ∃ w' r, processAction rae t cmd ent params meta w = (w', Ok r).
Proof.
  unfold processAction. destruct (_ !! t) as [a|]; [|eauto].
  destruct (act_Do a cmd ent params meta w) as [w' [r|e|s]]; eauto.
Qed.
End engine_lemmas.

Section choose_lemmas.
Context {W E P : Type} `{ActionProvidersLaws W E P}.

Lemma with_trait_Ok {A B} has e1 (cfg : option A) e2 (k : A → res B) b :
  with_trait has e1 cfg e2 k = Ok b → ∃ c, cfg = Some c ∧ k c = Ok b.
Proof. unfold with_trait. destruct has, cfg; naive_solver. Qed.

Lemma NewRuleRemediator_class rt p s a :
  NewRuleRemediator rt p s = Ok a → act_Class a = remediate_ActionType.
Proof.
  unfold NewRuleRemediator. destruct (rt_Remediate rt) as [r|].
  - repeat case_goal; try discriminate; intros (c & _ & Hc)%with_trait_Ok;
      eapply constructor_class; naive_solver.
  - by intros [= <-].
Qed.

Lemma NewRuleAlert_class rt p s a :
  NewRuleAlert rt p s = Ok a → act_Class a = alert_ActionType.
Proof.
  unfold NewRuleAlert. destruct (rt_Alert rt) as [r|].
  - repeat case_goal; try discriminate; try (by intros [= <-]);
      intros Hc; eapply constructor_class; naive_solver.
  - by intros [= <-].
Qed.

Lemma NewRuleActions_lookup rt p cfg rae :
  NewRuleActions rt p cfg = Ok rae →
  ∃ rem al, NewRuleRemediator rt p (ac_Remediate cfg) = Ok rem ∧
    NewRuleAlert rt p (ac_Alert cfg) = Ok al ∧
    rae_actions rae !! remediate_ActionType = Some rem ∧
    rae_actions rae !! alert_ActionType = Some al.
Proof.
  unfold NewRuleActions.
  destruct (NewRuleRemediator rt p (ac_Remediate cfg)) as [rem|e|m] eqn:Hr; try done.
  destruct (NewRuleAlert rt p (ac_Alert cfg)) as [al|e|m] eqn:Ha; try done.
  simpl. intros [= <-]. exists rem, al. split_and!; [done|done| |]; simpl.
  - rewrite (NewRuleAlert_class _ _ _ _ Ha), (NewRuleRemediator_class _ _ _ _ Hr).
    rewrite lookup_insert_ne by done. apply lookup_singleton_eq.
  - rewrite (NewRuleAlert_class _ _ _ _ Ha). apply lookup_insert_eq.
Qed.
End choose_lemmas.

(** ** Properties *)

(** The named statuses and commands as the strings they are. *)
Ltac unfold_statuses :=
  unfold EvalStatusSuccess, EvalStatusFailure, EvalStatusError, EvalStatusSkipped,
    AlertStatusOn, AlertStatusOff, AlertStatusSkipped, RemediationStatusSkipped,
    ActionCmdOn, ActionCmdOff, ActionCmdDoNothing, pull_request_RemediateType in *.

(** C11: a rule is remediated exactly when the evaluation failed and nothing but
    a skipped remediation precedes it; a remediation is turned off exactly when
    the evaluation passed or erred and one was made before; in every other case
    (skipped and pending evaluations included) the engine is told to do
    nothing. *)
Theorem shouldRemediate_spec (prev : option previousEval) (st : string) :
  let prevRem := from_option pe_RemediationStatus RemediationStatusSkipped prev in
  (shouldRemediate prev st = ActionCmdOn ↔
     st = EvalStatusFailure ∧ prevRem = RemediationStatusSkipped) ∧
  (shouldRemediate prev st = ActionCmdOff ↔
     (st = EvalStatusSuccess ∨ st = EvalStatusError) ∧ prevRem ≠ RemediationStatusSkipped) ∧
  (shouldRemediate prev st ∈ [ActionCmdOn; ActionCmdOff; ActionCmdDoNothing]).
Proof.
  cbv zeta. unfold shouldRemediate, from_option.
  set (pr := match prev with Some _ => _ | None => _ end).
  destruct (String.eqb_spec st EvalStatusError) as [H1|H1];
    destruct (String.eqb_spec st EvalStatusSuccess) as [H2|H2];
    destruct (String.eqb_spec st EvalStatusFailure) as [H3|H3];
    destruct (String.eqb_spec RemediationStatusSkipped pr) as [H4|H4];
    simpl; unfold_statuses; split_and!; try split; try set_solver; intuition congruence.
Qed.

(** An alert is turned on exactly when the evaluation failed or erred, it is
    not on yet, and the failure was not remedied on the spot (a remediation that
    returned no error and is not a pull request); it is turned off exactly when
    it is not off yet and the evaluation passed or was remedied on the spot. *)
Theorem shouldAlert_spec (prev : option previousEval) (st : string)
    (remErr : error) (remType : string) :
  let prevAlert := from_option pe_AlertStatus AlertStatusSkipped prev in
  let instant := remType ≠ pull_request_RemediateType ∧ remErr = None in
  (shouldAlert prev st remErr remType = ActionCmdOn ↔
     ¬ instant ∧ (st = EvalStatusFailure ∨ st = EvalStatusError) ∧ prevAlert ≠ AlertStatusOn) ∧
  (shouldAlert prev st remErr remType = ActionCmdOff ↔
     (instant ∨ st = EvalStatusSuccess) ∧ prevAlert ≠ AlertStatusOff).
Proof.
  cbv zeta. unfold shouldAlert, from_option.
  set (pa := match prev with Some _ => _ | None => _ end).
  destruct (String.eqb_spec remType pull_request_RemediateType);
    case_bool_decide;
    destruct (String.eqb_spec st EvalStatusError) as [H1|H1];
    destruct (String.eqb_spec st EvalStatusFailure) as [H2|H2];
    destruct (String.eqb_spec st EvalStatusSuccess) as [H3|H3];
    rewrite ?(String.eqb_sym AlertStatusOff pa);
    destruct (String.eqb_spec pa AlertStatusOff) as [H4|H4];
    destruct (String.eqb_spec AlertStatusOn pa) as [H5|H5];
    simpl; unfold_statuses; split; split; intuition congruence.
Qed.

(** C1: an action that panics is contained.  For every engine [NewRuleActions]
    builds, [DoActions] returns: no action, whatever it does, makes it panic or
    fail, and a panicking action is recorded as [ErrInternal] without
    metadata. *)
Theorem DoActions_total `{ActionProvidersLaws W E P} rt (p : P) cfg rae ent params w :
  NewRuleActions rt p cfg = Ok rae →
  (∃ w' r, DoActions rae ent params w = (w', Ok r)) ∧
  (∀ t a cmd meta w' msg, rae_actions rae !! t = Some a →
     act_Do a cmd ent params meta w = (w', Panic msg) →
     processAction rae t cmd ent params meta w = (w', Ok (None, Some ErrInternal))).
Proof.
  intros Hrae. split.
  - destruct (NewRuleActions_lookup _ _ _ _ Hrae) as (rem & al & _ & _ & Hrem & Hal).
    unfold DoActions. rewrite Hrem, Hal.
    destruct (isSkippable rae remediate_ActionType _); simpl.
    + destruct (isSkippable rae alert_ActionType _); simpl; [eauto|].
      unfold mbind, prog_bind, fmap, prog_fmap; simpl.
      edestruct (processAction_ok (W := W) (E := E)) as (w1 & r1 & ->); simpl; eauto.
    + unfold mbind, prog_bind, fmap, prog_fmap; simpl.
      edestruct (processAction_ok (W := W) (E := E)) as (w1 & r1 & ->); simpl.
      destruct (isSkippable rae alert_ActionType _); simpl; [eauto|].
      edestruct (processAction_ok (W := W) (E := E)) as (w2 & r2 & ->); simpl; eauto.
  - intros t a cmd meta w' msg Ha Hdo. unfold processAction. by rewrite Ha, Hdo.
Qed.

(** A skipped evaluation, or actions that are switched off, touch nothing:
    the world stays as it is and both actions are recorded as skipped, with the
    empty metadata. *)
Theorem DoActions_skipped `{ActionProvidersLaws W E P} rt (p : P) cfg rae ent params w :
  NewRuleActions rt p cfg = Ok rae →
  (∀ t a, rae_actions rae !! t = Some a →
     act_GetOnOffState a ∈ [ActionOptOff; ActionOptUnknown] ∨
     (act_GetOnOffState a ∈ [ActionOptOn; ActionOptDryRun] ∧
      mapEvalStatus (esp_evalErr params) = EvalStatusSkipped)) →
  DoActions rae ent params w = (w, Ok getDefaultResult).
Proof.
  intros Hrae Hskip.
  destruct (NewRuleActions_lookup _ _ _ _ Hrae) as (rem & al & _ & _ & Hrem & Hal).
  unfold DoActions. rewrite Hrem, Hal.
  rewrite (proj2 (isSkippable_spec _ _ _ _ Hrem) (Hskip _ _ Hrem)).
  rewrite (proj2 (isSkippable_spec _ _ _ _ Hal) (Hskip _ _ Hal)). reflexivity.
Qed.

(** ** A concrete instance

    Engines that log the command they are given, and panic on [turn_off]. *)
Definition log_action (t : ActionType) (ty : string) (s : ActionOpt) : Action (list string) unit :=
  {| act_Class := t; act_Type := ty;
     act_GetOnOffState := ActionOptOrDefault s ActionOptOff;
     act_Do := λ cmd _ _ _ w,
       if String.eqb cmd ActionCmdOff then (w, Panic "off")
       else ((t +:+ ":" +:+ cmd) :: w, Ok (Some "{}", None)) |}.

Definition log_constructor (ty : string) (_ : unit) (t : ActionType) (_ : any)
    (s : ActionOpt) : res (Action (list string) unit) := Ok (log_action t ty s).

Definition log_providers : ActionProviders (list string) unit unit :=
  {| As_REST := λ _, true; As_GitHub := λ _, true; As_IssuePublisher := λ _, true;
     As_ReviewPublisher := λ _, true;
     NewRestRemediate := log_constructor "rest";
     NewGhBranchProtectRemediator := log_constructor "gh_branch_protection";
     NewPullRequestRemediate := log_constructor "pull_request";
     NewIssueRemediate := log_constructor "issue";
     NewPullRequestCommentAlert := log_constructor "pull_request_comment";
     NewSecurityAdvisoryAlert := log_constructor "security_advisory" |}.

Lemma log_providers_laws : @ActionProvidersLaws _ _ _ log_providers.
Proof.
  split.
  - intros p t c s a Ha. simpl in Ha. unfold log_constructor in Ha.
    repeat destruct Ha as [Ha|Ha]; by simplify_eq.
  - intros. simpl. unfold log_constructor. split_and!; discriminate.
Qed.

Definition ex_rule_type : RuleTypeDef :=
  {| rt_Remediate := Some {| rem_Type := "rest"; rem_Rest := Some (Any "cfg");
       rem_GhBranchProtection := None; rem_PullRequest := None; rem_Issue := None;
       rem_PullRequestComment := None |};
     rt_Alert := Some {| al_Type := "security_advisory";
       al_SecurityAdvisory := Some (Any "sa"); al_PullRequestComment := None |} |}.

Definition ex_params (cfg : ActionConfiguration) (err : error)
    (row : option ListRuleEvaluationsByProfileIdRow) : EvalStatusParams :=
  {| esp_Result := None;
     esp_Profile := {| pa_ID := 1%N; pa_Name := "p"; pa_ActionConfig := cfg;
                       pa_Rules := []; pa_Selectors := [] |};
     esp_Rule := {| ri_ID := 2%N; ri_Name := "r"; ri_Def := None; ri_Params := None;
                    ri_RuleTypeID := 3%N |};
     esp_ProjectID := 4%N; esp_EntityType := "repository"; esp_EntityID := 5%N;
     esp_EvalStatusFromDb := row; esp_evalErr := err; esp_evalResult := None;
     esp_actionsErr := ActionsError_zero; esp_ExecutionID := 6%N |}.

Definition ex_cfg : ActionConfiguration :=
  {| ac_Remediate := ActionOptOn; ac_Alert := ActionOptOn |}.

Definition ex_rae : RuleActionsEngine (list string) unit :=
  match @NewRuleActions _ _ _ log_providers ex_rule_type tt ex_cfg with
  | Ok r => r
  | _ => {| rae_actions := ∅ |}
  end.

(** A failing rule is remediated at once, and its alert engine is then told to
    turn off, which panics. *)
Example DoActions_total_witness :
  ∃ w' r,
    DoActions ex_rae tt (ex_params ex_cfg (Some (NewErrEvaluationFailed "f")) None) []
    = (w', Ok r).
Proof.
  refine (proj1 (@DoActions_total _ _ _ log_providers log_providers_laws
    ex_rule_type tt ex_cfg ex_rae tt
    (ex_params ex_cfg (Some (NewErrEvaluationFailed "f")) None) [] _)).
  vm_compute. reflexivity.
Defined.

Example DoActions_skipped_witness :
  DoActions ex_rae tt (ex_params ex_cfg (Some (NewErrEvaluationSkipped "s")) None) ["x"]
  = (["x"], Ok getDefaultResult).
Proof.
  apply (@DoActions_skipped _ _ _ log_providers log_providers_laws
    ex_rule_type tt ex_cfg ex_rae tt
    (ex_params ex_cfg (Some (NewErrEvaluationSkipped "s")) None) ["x"]).
  - vm_compute. reflexivity.
  - intros t a Ha. right. split; [|vm_compute; reflexivity].
    assert (Forall (λ p, act_GetOnOffState p.2 = ActionOptOn)
              (map_to_list (rae_actions ex_rae))) as Hall.
    { vm_compute. repeat constructor. }
    rewrite Forall_forall in Hall.
    apply elem_of_map_to_list in Ha. apply Hall in Ha. simpl in Ha. rewrite Ha.
    apply elem_of_cons. by left.
Defined.
