(* ===== verification/Reevaluation.v ===== *)
(** * A rule evaluated again and again

    The feedback loop of the action engine: what one evaluation stores decides
    the commands of the next. *)

From S2P Require Import Prelude GoErrors GoMonad EngineErrors DbTypes StatusAdapter.
From S2P Require Import Uuid ProfileModels Actions.
Local Open Scope string_scope.

(** What one evaluation leaves for the next: the statuses and the metadata of
    the events [createOrUpdateEvalStatus] inserts, which
    [ListRuleEvaluationsByProfileId] reads back. *)
Definition stored_row (a : ActionsError) : ListRuleEvaluationsByProfileIdRow :=
  {| row_RemStatus := ErrorAsRemediationStatus (RemediateErr a);
     row_RemMetadata := Some (default empty_json (RemediateMeta a));
     row_AlertStatus := ErrorAsAlertStatus (AlertErr a);
     row_AlertMetadata := Some (default empty_json (AlertMeta a)) |}.

(** The parameters of the next evaluation. *)
Definition with_row (row : option ListRuleEvaluationsByProfileIdRow) (err : error)
    (e : EvalStatusParams) : EvalStatusParams :=
  {| esp_Result := esp_Result e; esp_Profile := esp_Profile e; esp_Rule := esp_Rule e;
     esp_ProjectID := esp_ProjectID e; esp_EntityType := esp_EntityType e;
     esp_EntityID := esp_EntityID e; esp_EvalStatusFromDb := row;
     esp_evalErr := err; esp_evalResult := esp_evalResult e;
     esp_actionsErr := esp_actionsErr e; esp_ExecutionID := esp_ExecutionID e |}.

Definition evaluate {W E} (rae : RuleActionsEngine W E) (ent : E)
    (params : EvalStatusParams) (row : option ListRuleEvaluationsByProfileIdRow)
    (err : error) : prog W (option ListRuleEvaluationsByProfileIdRow) :=
  r ← DoActions rae ent (with_row row err params); mret (Some (stored_row r)).

(** A sequence of evaluations with the given outcomes. *)
Fixpoint evaluations {W E} (rae : RuleActionsEngine W E) (ent : E)
    (params : EvalStatusParams) (row : option ListRuleEvaluationsByProfileIdRow)
    (errs : list error) : prog W (option ListRuleEvaluationsByProfileIdRow) :=
  match errs with
  | [] => mret row
  | err :: errs =>
      row' ← evaluate rae ent params row err; evaluations rae ent params row' errs
  end.

(** ** Lemmas *)

Lemma evaluations_cons {W E} {rae : RuleActionsEngine W E} {ent params row err errs}
    (w w' : W) row' :
  evaluate rae ent params row err w = (w', Ok (Some row')) →
  evaluations rae ent params row (err :: errs) w =
    evaluations rae ent params (Some row') errs w'.
Proof. intros Hev. simpl. by rewrite (prog_bind_run _ _ _ _ _ Hev). Qed.

(** A failing evaluation was not skipped. *)
Lemma failure_not_skipped e :
  mapEvalStatus (Some e) = EvalStatusFailure →
  is_in e ErrEvaluationSkipSilently = false ∧ is_in e ErrEvaluationSkipped = false.
Proof.
  unfold mapEvalStatus. simpl.
  destruct (is_in e ErrEvaluationSkipSilently), (is_in e ErrEvaluationSkipped);
    by repeat split.
Qed.

(** ** A remediation evaluated alone, the alert being off *)

Section remediation_alone.
Context {W E : Type} (rae : RuleActionsEngine W E) (rem al : Action W E).
Hypothesis Hrem : rae_actions rae !! remediate_ActionType = Some rem.
Hypothesis Hon : act_GetOnOffState rem = ActionOptOn.
Hypothesis Hal : rae_actions rae !! alert_ActionType = Some al.
Hypothesis Halt : act_GetOnOffState al = ActionOptOff.

Lemma evaluate_remediation_status ent params row err w w' r :
  errors_Is err ErrEvaluationSkipped = false →
  errors_Is err ErrEvaluationSkipSilently = false →
  act_Do rem (shouldRemediate (prev_of_row row) (mapEvalStatus err)) ent
    (with_row row err params) (getRemediationMeta (prev_of_row row)) w = (w', Ok r) →
  evaluate rae ent params row err w =
    (w', Ok (Some (stored_row (set_remediate getDefaultResult r)))).
Proof.
  intros H1 H2 Hdo. unfold evaluate, DoActions.
  assert (isSkippable rae alert_ActionType err = true) as Hsa.
  { unfold isSkippable. by rewrite Hal, Halt. }
  assert (isSkippable rae remediate_ActionType err = false) as Hsr.
  { unfold isSkippable. rewrite Hrem, Hon. simpl. by rewrite H1, H2. }
  cbn [esp_evalErr with_row]. rewrite Hrem, Hal, Hsa, Hsr. simpl.
  unfold mbind, prog_bind, fmap, prog_fmap, processAction.
  rewrite Hrem. cbn [esp_EvalStatusFromDb with_row]. by rewrite Hdo.
Qed.

Lemma evaluate_remediation ent params row e w w' r :
  mapEvalStatus (Some e) = EvalStatusFailure →
  act_Do rem (shouldRemediate (prev_of_row row) EvalStatusFailure) ent
    (with_row row (Some e) params) (getRemediationMeta (prev_of_row row)) w = (w', Ok r) →
  evaluate rae ent params row (Some e) w =
    (w', Ok (Some (stored_row (set_remediate getDefaultResult r)))).
Proof.
  intros Hf Hdo. destruct (failure_not_skipped e Hf) as [H1 H2].
  apply evaluate_remediation_status; [done|done|]. by rewrite Hf.
Qed.
End remediation_alone.

(** ** An alert evaluated alone, the remediation being off *)

Section alert_alone.
Context {W E : Type} (rae : RuleActionsEngine W E) (rem al : Action W E).
Hypothesis Hrem : rae_actions rae !! remediate_ActionType = Some rem.
Hypothesis Hoff : act_GetOnOffState rem = ActionOptOff.
Hypothesis Hal : rae_actions rae !! alert_ActionType = Some al.
Hypothesis Hst : act_GetOnOffState al ∈ [ActionOptOn; ActionOptDryRun].

Lemma skippable_off err : isSkippable rae remediate_ActionType err = true.
Proof using Hrem Hoff. unfold isSkippable. by rewrite Hrem, Hoff. Qed.

Lemma skippable_alert err :
  isSkippable rae alert_ActionType err =
    errors_Is err ErrEvaluationSkipped || errors_Is err ErrEvaluationSkipSilently.
Proof using Hal Hst.
  unfold isSkippable. rewrite Hal.
  apply elem_of_cons in Hst as [->|[->|[]%elem_of_nil]%elem_of_cons]; reflexivity.
Qed.

(** A skipped evaluation: nothing is called, the row forgets the metadata. *)
Lemma evaluate_skipped ent params row e w :
  is_in e ErrEvaluationSkipped = true →
  evaluate rae ent params row (Some e) w =
    (w, Ok (Some (stored_row getDefaultResult))).
Proof using Hrem Hoff Hal Hst.
  intros He. unfold evaluate, DoActions. simpl.
  rewrite Hrem, Hal, skippable_off, skippable_alert. simpl. by rewrite He.
Qed.

(** Any other evaluation runs the alert with the command decided. *)
Lemma evaluate_alert ent params row err w :
  errors_Is err ErrEvaluationSkipped = false →
  errors_Is err ErrEvaluationSkipSilently = false →
  evaluate rae ent params row err w =
    (let '(w', r) :=
       processAction rae alert_ActionType
         (shouldAlert (prev_of_row row) (mapEvalStatus err) (Some ErrActionSkipped)
            (act_Type rem)) ent (with_row row err params)
         (getAlertMeta (prev_of_row row)) w in
     (w', (λ x, Some (stored_row (set_alert getDefaultResult x))) <$> r)).
Proof using Hrem Hoff Hal Hst.
  intros H1 H2. unfold evaluate, DoActions. simpl.
  rewrite Hrem, Hal, skippable_off, skippable_alert, H1, H2. simpl.
  unfold mbind, prog_bind, mret, prog_ret, fmap, prog_fmap; simpl.
  destruct (processAction _ _ _ _ _ _ _) as [w' [x|e|m]]; reflexivity.
Qed.
End alert_alone.

Lemma shouldRemediate_on prev :
  from_option pe_RemediationStatus RemediationStatusSkipped prev = RemediationStatusSkipped →
  shouldRemediate prev EvalStatusFailure = ActionCmdOn.
Proof. unfold shouldRemediate. destruct prev as [p|]; simpl; [|done]. by intros ->. Qed.

Lemma shouldRemediate_wait p :
  pe_RemediationStatus p ≠ RemediationStatusSkipped →
  shouldRemediate (Some p) EvalStatusFailure = ActionCmdDoNothing.
Proof.
  intros Hn%not_eq_sym%String.eqb_neq. unfold shouldRemediate.
  change (String.eqb EvalStatusFailure EvalStatusError) with false.
  change (String.eqb EvalStatusFailure EvalStatusSuccess) with false.
  change (String.eqb EvalStatusFailure EvalStatusFailure) with true.
  cbv beta iota zeta delta [orb]. by rewrite Hn.
Qed.

Lemma shouldRemediate_off p :
  pe_RemediationStatus p ≠ RemediationStatusSkipped →
  shouldRemediate (Some p) EvalStatusSuccess = ActionCmdOff.
Proof.
  intros Hn%not_eq_sym%String.eqb_neq. unfold shouldRemediate.
  change (String.eqb EvalStatusSuccess EvalStatusError) with false.
  change (String.eqb EvalStatusSuccess EvalStatusSuccess) with true.
  cbv beta iota zeta delta [orb negb]. by rewrite Hn.
Qed.

(** Evaluations of a list are those of its parts in sequence. *)
Lemma evaluations_app {W E} (rae : RuleActionsEngine W E) ent params errs1 errs2 row w w1 row1 :
  evaluations rae ent params row errs1 w = (w1, Ok row1) →
  evaluations rae ent params row (errs1 ++ errs2)%list w =
    evaluations rae ent params row1 errs2 w1.
Proof.
  revert row w. induction errs1 as [|e errs1 IH]; intros row w; simpl.
  - intros [= -> ->]. done.
  - intros (w2 & row2 & He & Hr)%prog_bind_Ok. rewrite (prog_bind_run _ _ _ _ _ He).
    by apply IH.
Qed.
