(* ===== verification/SafeTemplate.v ===== *)
(** * Bounded templates: internal/util/safe_template.go and internal/util/rest.go

    The [LimitedWriter] of package util (a second one, next to the engine's),
    [SafeTemplate] and the curl command of the dry runs.  Parsing and running a
    template is [text/template]: a parameter that gives the pieces a run
    writes, in order, and the error it stops with. *)

From S2P Require Import Prelude GoErrors GoMonad GoStrings EngineErrors.
Local Open Scope string_scope.
Local Open Scope Z_scope.

Definition ErrExceededSizeLimit : gerr :=
  ENew "util.ErrExceededSizeLimit" "exceeded size limit".

(** ** LimitedWriter *)

Module util.
Record LimitedWriter (W : Type) := { lw_w : W; lw_n : Z; lw_limit : Z }.
Arguments lw_w {W} _.
Arguments lw_n {W} _.
Arguments lw_limit {W} _.

Definition NewLimitedWriter {W} (w : W) (limit : Z) : LimitedWriter W :=
  {| lw_w := w; lw_n := 0; lw_limit := limit |}.

Definition LimitedWriter_Write {W} (io : Writer W) (lw : LimitedWriter W) (p : string)
    : LimitedWriter W * Z * error :=
  if lw_limit lw <? lw_n lw + len p then (lw, 0, Some ErrExceededSizeLimit)
  else
    let '(w', n, err) := writer_write io (lw_w lw) p in
    ({| lw_w := w'; lw_n := lw_n lw + n; lw_limit := lw_limit lw |}, n, err).

Fixpoint write_pieces {W} (io : Writer W) (l : LimitedWriter W) (ps : list string)
    : LimitedWriter W * error :=
  match ps with
  | [] => (l, None)
  | p :: ps =>
      match LimitedWriter_Write io l p with
      | (l', _, None) => write_pieces io l' ps
      | (l', _, Some e) => (l', Some e)
      end
  end.
End util.

(** ** SafeTemplate *)

(** [D] is the data the templates of a component are run on; the two packages
    have a parser each. *)
Class TextTemplates (D : Type) := {
  tmpl : Type;
  tmpl_Parse : string → res tmpl;
  html_tmpl_Parse : string → res tmpl;
  tmpl_Execute : tmpl → D → list string * error;
}.

Section safe_template.
Context {D : Type} `{TextTemplates D}.

Record SafeTemplate := { st_t : tmpl }.

Definition parseNewTextTemplate (t : option string) : res tmpl :=
  match t with
  | None => Err (EText "missing template")
  | Some s => if len s =? 0 then Err (EText "missing template")
              else wrapf_res "cannot parse template: " (tmpl_Parse s)
  end.

Definition parseNewHtmlTemplate (t : option string) : res tmpl :=
  match t with
  | None => Err (EText "missing template")
  | Some s => if len s =? 0 then Err (EText "missing template")
              else wrapf_res "cannot parse template: " (html_tmpl_Parse s)
  end.

Definition NewSafeTextTemplate (t : option string) : res SafeTemplate :=
  t ← parseNewTextTemplate t; Ok {| st_t := t |}.

Definition NewSafeHTMLTemplate (t : option string) : res SafeTemplate :=
  t ← parseNewHtmlTemplate t; Ok {| st_t := t |}.

(** [Execute] into the writer [w]: the writer afterwards and the error. *)
Definition SafeTemplate_Execute {W} (io : Writer W) (t : SafeTemplate) (w : W)
    (data : D) (limit : Z) : W * error :=
  if limit <=? 0 then (w, Some (EText "limit must be greater than 0"))
  else
    let '(pieces, err) := tmpl_Execute (st_t t) data in
    match util.write_pieces io (util.NewLimitedWriter w limit) pieces with
    | (lw, Some e) => (util.lw_w lw, Some e)
    | (lw, None) => (util.lw_w lw, err)
    end.

Definition Render (t : SafeTemplate) (data : D) (limit : Z) : res string :=
  match SafeTemplate_Execute Builder t "" data limit with
  | (_, Some e) => Err e
  | (buf, None) => Ok buf
  end.
End safe_template.
Arguments SafeTemplate D {_}.

(** ** The curl command of a dry run *)

Definition CurlCmdMaxSize : Z := 2048.

Definition squote : Ascii.ascii := Ascii.ascii_of_N 39.
Definition backslash : Ascii.ascii := Ascii.ascii_of_N 92.
Definition newline : Ascii.ascii := Ascii.ascii_of_N 10.

(** [strings.ReplaceAll(body, "'", `'"'"'`)] *)
Fixpoint quote_body (body : string) : string :=
  match body with
  | EmptyString => EmptyString
  | String c b =>
      if bool_decide (c = squote)
      then String squote (String dquote (String squote (String dquote
             (String squote (quote_body b)))))
      else String c (quote_body b)
  end.

Definition header (h : string) : string :=
  String backslash (String newline " -H ") +:+ String dquote h +:+ String dquote " ".

(** The text [text/template] renders from the command's template. *)
Definition curl_text (method url body : string) : string :=
  "curl -L -X " +:+ method +:+ " " +:+
  header "Accept: application/vnd.github+json" +:+
  header "Authorization: Bearer $TOKEN" +:+
  header "X-GitHub-Api-Version: 2022-11-28" +:+
  String backslash (String newline " ") +:+ url +:+ " " +:+
  String backslash (String newline " -d ") +:+
  String squote body +:+ String squote EmptyString.

Section curl.
(** [url.Parse], [JoinPath] and [String] of net/url. *)
Context (url_join : string → string → res string).

Definition GenerateCurlCommand (method apiBaseURL endpoint body : string) : res string :=
  if len method =? 0 then Err (EText "method cannot be empty")
  else if len apiBaseURL =? 0 then Err (EText "apiBaseURL cannot be empty")
  else
    u ← wrapf_res "failed to parse endpoint: " (url_join apiBaseURL endpoint);
    let out := curl_text method u (quote_body body) in
    if CurlCmdMaxSize <? len out then Err ErrExceededSizeLimit else Ok out.
End curl.

(** ** Lemmas *)

(** What was written is what was counted, and it is within the limit. *)
Lemma write_pieces_fits ps (l : util.LimitedWriter string) :
  util.lw_n l + len (String.concat "" ps) ≤ util.lw_limit l →
  ∃ l', util.write_pieces Builder l ps = (l', None) ∧
        util.lw_w l' = util.lw_w l +:+ String.concat "" ps.
Proof.
  revert l. induction ps as [|p ps IH]; intros l Hlen.
  - exists l. split; [done|]. simpl. by rewrite append_nil_r.
  - rewrite concat_cons, len_app in Hlen.
    pose proof (len_nonneg (String.concat "" ps)).
    cbn [util.write_pieces]. unfold util.LimitedWriter_Write.
    destruct (Z.ltb_spec (util.lw_limit l) (util.lw_n l + len p)); [lia|].
    cbn [writer_write Builder].
    destruct (IH {| util.lw_w := util.lw_w l +:+ p; util.lw_n := util.lw_n l + len p;
                    util.lw_limit := util.lw_limit l |}) as (l' & Hw & Hc); [simpl; lia|].
    exists l'. split; [done|]. rewrite Hc, concat_cons. apply append_assoc.
Qed.

Lemma write_pieces_overflow ps (l : util.LimitedWriter string) :
  util.lw_n l ≤ util.lw_limit l →
  util.lw_limit l < util.lw_n l + len (String.concat "" ps) →
  ∃ l', util.write_pieces Builder l ps = (l', Some ErrExceededSizeLimit).
Proof.
  revert l. induction ps as [|p ps IH]; intros l Hn Hlen.
  - unfold len in Hlen. simpl in Hlen. lia.
  - rewrite concat_cons, len_app in Hlen.
    cbn [util.write_pieces]. unfold util.LimitedWriter_Write.
    destruct (Z.ltb_spec (util.lw_limit l) (util.lw_n l + len p)); [by eexists|].
    simpl. apply IH; simpl; lia.
Qed.

Lemma quote_body_app a b : quote_body (a +:+ b) = quote_body a +:+ quote_body b.
Proof.
  induction a as [|c a IH]; [done|]. rewrite append_cons. simpl. rewrite IH.
  by case_bool_decide.
Qed.

(** A bounded rendering is all or nothing.  For a positive limit [Render]
    returns the template's whole output exactly when the execution succeeds and
    the output has at most [limit] bytes, and otherwise the execution's error
    or the size error; a limit that is not positive is always refused. *)
Theorem render_all_or_nothing `{TextTemplates D} (t : SafeTemplate D) (data : D) (limit : Z) :
  let '(pieces, err) := tmpl_Execute (st_t t) data in
  let out := String.concat "" pieces in
  Render t data limit =
    (if limit <=? 0 then Err (EText "limit must be greater than 0")
     else if limit <? len out then Err ErrExceededSizeLimit
     else match err with None => Ok out | Some e => Err e end).
Proof.
  unfold Render, SafeTemplate_Execute.
  destruct (tmpl_Execute (st_t t) data) as [pieces err]. cbv zeta.
  destruct (Z.leb_spec limit 0); [done|].
  destruct (Z.ltb_spec limit (len (String.concat "" pieces))).
  - destruct (write_pieces_overflow pieces (util.NewLimitedWriter "" limit))
      as (l' & ->); simpl; (lia || done).
  - destruct (write_pieces_fits pieces (util.NewLimitedWriter "" limit))
      as (l' & -> & Hl'); [simpl; lia|]. rewrite Hl'. by destruct err.
Qed.
