(* ===== verification/SecurityAdvisory.v ===== *)
(** * The security-advisory alert

    internal/engine/actions/alert/security_advisory/security_advisory.go.  The
    GitHub client is a record of operations on a world [W]; the html templates
    and the JSON form of the alert metadata are parameters. *)

From S2P Require Import Prelude GoErrors GoMonad GoStrings EngineErrors DbTypes.
From S2P Require Import StatusAdapter Uuid ProfileModels Actions Reevaluation.
From S2P Require Import SafeTemplate.
Local Open Scope string_scope.

Definition AlertType_security_advisory : string := "security_advisory".

(** The client operations the alert calls. *)
Record GitHubAdvisories (W : Type) := {
  CreateSecurityAdvisory :
    string → string → string → string → string → string * string → prog W string;
  CloseSecurityAdvisory : string → string → string → prog W unit;
  GetBaseURL : string;
}.
Arguments CreateSecurityAdvisory {W} _ _ _ _ _ _ _.
Arguments CloseSecurityAdvisory {W} _ _ _ _.
Arguments GetBaseURL {W} _.

(** [json.Marshal] and [json.Unmarshal] at the type [alertMetadata]: an empty id
    is omitted. *)
Class AlertMetadataJSON := {
  marshal_ghsa : string → string;
  unmarshal_ghsa : string → option string;
  unmarshal_marshal_ghsa : ∀ id, unmarshal_ghsa (marshal_ghsa id) = Some id;
  unmarshal_ghsa_empty : unmarshal_ghsa empty_json = Some "";
}.

Record templateParamsSA := {
  tp_Profile : string; tp_Rule : string; tp_Repository : string; tp_Severity : string;
  tp_Guidance : string; tp_RuleRemediation : string; tp_Name : string;
  tp_EvaluationError : string;
}.

Definition with_evalerr (t : templateParamsSA) (s : string) : templateParamsSA :=
  {| tp_Profile := tp_Profile t; tp_Rule := tp_Rule t; tp_Repository := tp_Repository t;
     tp_Severity := tp_Severity t; tp_Guidance := tp_Guidance t;
     tp_RuleRemediation := tp_RuleRemediation t; tp_Name := tp_Name t;
     tp_EvaluationError := s |}.

Record paramsSA := {
  sa_Template : templateParamsSA;
  sa_Owner : string;
  sa_Repo : string;
  sa_Summary : string;
  sa_Description : string;
  sa_Vulnerability : string * string;
  sa_Metadata : option string;
  sa_prevStatus : option ListRuleEvaluationsByProfileIdRow;
}.

(** The parts of the rule type that are read: [rts_Severity] is
    [Severity.GetValue().Enum().AsString()]. *)
Record RuleTypeSA := {
  rts_Name : string; rts_Guidance : string; rts_ShortFailureMessage : string;
  rts_Severity : string; rts_has_remediate : bool;
}.

Section advisory.
Context {W : Type} (url_join : string → string → res string).
Context `{TemplateEngine} `{TT : TextTemplates templateParamsSA} `{AlertMetadataJSON}.

Record Alert := {
  sa_actionType : ActionType;
  sa_cli : GitHubAdvisories W;
  sa_ruleType : RuleTypeSA;
  sa_cfg_Severity : string;
  sa_summaryTmpl : tmpl;
  sa_descriptionTmpl : tmpl;
  sa_descriptionNoRemTmpl : tmpl;
  sa_setting : ActionOpt;
}.

(** The three template texts are constants of the file. *)
Context (tmplSummary tmplDescription tmplDescriptionNoRem : string).

Definition NewSecurityAdvisory (actionType : ActionType) (ruleType : RuleTypeSA)
    (saCfg_Severity : string) (cli : GitHubAdvisories W) (setting : ActionOpt)
    : res Alert :=
  if String.eqb actionType "" then Err (EText "action type cannot be empty")
  else
    sumT ← wrapf_res "cannot parse summary template: "
             (tmpl_Parse (tmplSummary +:+ " - " +:+ rts_ShortFailureMessage ruleType));
    descNoRemT ← wrapf_res "cannot parse description template: "
                   (tmpl_Parse tmplDescriptionNoRem);
    descT ← wrapf_res "cannot parse description template: "
              (tmpl_Parse tmplDescription);
    Ok {| sa_actionType := actionType; sa_cli := cli; sa_ruleType := ruleType;
          sa_cfg_Severity := saCfg_Severity; sa_summaryTmpl := sumT;
          sa_descriptionTmpl := descT; sa_descriptionNoRemTmpl := descNoRemT;
          sa_setting := setting |}.

Definition getSeverityString (alert : Alert) : string :=
  if String.eqb (sa_cfg_Severity alert) "" then
    let ruleSev := rts_Severity (sa_ruleType alert) in
    if String.eqb ruleSev "info" || String.eqb ruleSev "unknown" then "low" else ruleSev
  else sa_cfg_Severity alert.

(** [tmpl.Execute(&builder, data)] *)
Definition execute_text (t : tmpl) (data : templateParamsSA) : res string :=
  match tmpl_Execute t data with
  | (pieces, None) => Ok (String.concat "" pieces)
  | (_, Some e) => Err e
  end.

(** A nil pointer is no metadata; a nil message does not parse. *)
Definition read_metadata (metadata : option (option string)) : option string :=
  match metadata with
  | Some (Some m) => unmarshal_ghsa m
  | _ => None
  end.

Definition owner_repo (entity : ProtoEntity) : res (string * string) :=
  match entity with
  | PbRepository owner name _ => Ok (owner, name)
  | PbPullRequest owner repo _ _ => Ok (owner, repo)
  | PbArtifact owner repository => Ok (owner, repository)
  | PbOther kind =>
      Err (EText ("expected repository, pull request or artifact, got " +:+ kind))
  end.

Definition getParamsForSecurityAdvisory (alert : Alert) (entity : ProtoEntity)
    (params : EvalStatusParams) (metadata : option (option string)) : res paramsSA :=
  '(owner, repo) ← owner_repo entity;
  let repository := owner +:+ "/" +:+ repo in
  let meta := read_metadata metadata in
  let template :=
    {| tp_Repository := repository;
       tp_Severity := getSeverityString alert;
       tp_Guidance := rts_Guidance (sa_ruleType alert);
       tp_Rule := rts_Name (sa_ruleType alert);
       tp_Profile := pa_Name (esp_Profile params);
       tp_Name := ri_Name (esp_Rule params);
       tp_RuleRemediation :=
         if rts_has_remediate (sa_ruleType alert)
         then "already available" else "not available yet";
       tp_EvaluationError := "" |} in
  summary ← wrapf_res "error executing summary template: "
              (execute_text (sa_summaryTmpl alert) template);
  let template := with_evalerr template (ErrorAsEvalDetails (esp_evalErr params)) in
  description ← wrapf_res "error executing description template: "
    (execute_text
       (if bool_decide (ac_Remediate (pa_ActionConfig (esp_Profile params)) = ActionOptOn)
        then sa_descriptionTmpl alert else sa_descriptionNoRemTmpl alert) template);
  Ok {| sa_Template := template; sa_Owner := owner; sa_Repo := repo;
        sa_Summary := summary; sa_Description := description;
        sa_Vulnerability := (repository, "other"); sa_Metadata := meta;
        sa_prevStatus := esp_EvalStatusFromDb params |}.

(** The previous status as an error, with the previous metadata. *)
Definition runDoNothing (params : paramsSA) : option string * error :=
  let err := AlertStatusAsError (sa_prevStatus params) in
  match sa_prevStatus params with
  | Some row => (row_AlertMetadata row, err)
  | None => (None, err)
  end.

(** The metadata is nil or its id is empty. *)
Definition no_id (m : option string) : bool :=
  match m with None => true | Some id => String.eqb id "" end.

Definition run (alert : Alert) (params : paramsSA) (cmd : ActionCmd)
    : prog W (option string * error) :=
  if String.eqb cmd ActionCmdOn then
    r ← try (CreateSecurityAdvisory (sa_cli alert) (sa_Owner params) (sa_Repo params)
               (tp_Severity (sa_Template params)) (sa_Summary params)
               (sa_Description params) (sa_Vulnerability params));
    match r with
    | inr err => mret (None, Some (EWrap2 "error creating security advisory: " err ", "
                                     ErrActionFailed ""))
    | inl id => mret (Some (marshal_ghsa id), None)
    end
  else if String.eqb cmd ActionCmdOff then
    if no_id (sa_Metadata params) then
      mret (None, Some (EWrap "no security advisory GHSA_ID provided: "
                          ErrActionTurnedOff ""))
    else
      r ← try (CloseSecurityAdvisory (sa_cli alert) (sa_Owner params) (sa_Repo params)
                 (default "" (sa_Metadata params)));
      match r with
      | inr err =>
          if is_in err ErrNotFound then
            mret (None, Some (EWrap2 "security advisory already closed: " err ", "
                                ErrActionTurnedOff ""))
          else mret (None, Some (EWrap2 "error closing security advisory: " err ", "
                                   ErrActionFailed ""))
      | inl _ => mret (None, Some (EWrap (sa_actionType alert +:+ " : ")
                                     ErrActionTurnedOff ""))
      end
  else if String.eqb cmd ActionCmdDoNothing then mret (runDoNothing params)
  else mret (None, Some ErrActionSkipped).

(** The dry run logs a command and calls nothing. *)
Definition runDry (alert : Alert) (params : paramsSA) (cmd : ActionCmd)
    : option string * error :=
  if String.eqb cmd ActionCmdOn then
    match GenerateCurlCommand url_join "POST" (GetBaseURL (sa_cli alert))
            ("repos/" +:+ sa_Owner params +:+ "/" +:+ sa_Repo params +:+
             "/security-advisories") "" with
    | Err e => (None, Some (EWrap "cannot generate curl command: " e ""))
    | _ => (None, None)
    end
  else if String.eqb cmd ActionCmdOff then
    if no_id (sa_Metadata params) then
      (None, Some (EWrap "no security advisory GHSA_ID provided: " ErrActionTurnedOff ""))
    else
      match GenerateCurlCommand url_join "PATCH" (GetBaseURL (sa_cli alert))
              ("repos/" +:+ sa_Owner params +:+ "/" +:+ sa_Repo params +:+
               "/security-advisories/" +:+ default "" (sa_Metadata params))
              ("{" +:+ String dquote "state" +:+ String dquote ": " +:+
               String dquote "closed" +:+ String dquote "}") with
      | Err e => (None, Some (EWrap
                   "cannot generate curl command to close a security-adivsory: " e ""))
      | _ => (None, Some ErrActionSkipped)
      end
  else if String.eqb cmd ActionCmdDoNothing then runDoNothing params
  else (None, Some ErrActionSkipped).

Definition Do (alert : Alert) (cmd : ActionCmd) (entity : ProtoEntity)
    (params : EvalStatusParams) (metadata : option (option string))
    : prog W (option string * error) :=
  match getParamsForSecurityAdvisory alert entity params metadata with
  | Err e => mret (None, Some (EWrap "error extracting details: " e ""))
  | Panic m => lift (Panic m)
  | Ok p =>
      let s := sa_setting alert in
      if bool_decide (s = ActionOptOn) then run alert p cmd
      else if bool_decide (s = ActionOptDryRun) then mret (runDry alert p cmd)
      else if bool_decide (s = ActionOptOff) || bool_decide (s = ActionOptUnknown)
      then mret (None, Some (EWrap "unexpected action setting: " ErrActionFailed ""))
      else mret (None, Some ErrActionSkipped)
  end.

Definition alert_action (alert : Alert) : Action W ProtoEntity :=
  {| act_Class := sa_actionType alert;
     act_Type := AlertType_security_advisory;
     act_GetOnOffState := ActionOptOrDefault (sa_setting alert) ActionOptOff;
     act_Do := Do alert |}.
End advisory.

(** ** Lemmas *)

Lemma raised {W : Type} url_join `{TemplateEngine} `{TT : TextTemplates templateParamsSA}
    `{AlertMetadataJSON} (alert : Alert (W := W)) :
  sa_setting alert ∈ [ActionOptOn; ActionOptDryRun] →
  act_GetOnOffState (alert_action url_join alert) ∈ [ActionOptOn; ActionOptDryRun].
Proof.
  simpl. unfold ActionOptOrDefault.
  intros [->|[->|[]%elem_of_nil]%elem_of_cons]%elem_of_cons; set_solver.
Qed.

Section advisory_lemmas.
Context {W : Type} (url_join : string → string → res string).
Context `{TemplateEngine} `{TT : TextTemplates templateParamsSA} `{AlertMetadataJSON}.
Context (rae : RuleActionsEngine W ProtoEntity) (rem : Action W ProtoEntity)
  (alert : Alert (W := W)) (ent : ProtoEntity) (owner repo : string)
  (params : EvalStatusParams).
Hypothesis Hrem : rae_actions rae !! remediate_ActionType = Some rem.
Hypothesis Hoff : act_GetOnOffState rem = ActionOptOff.
Hypothesis Hal : rae_actions rae !! alert_ActionType = Some (alert_action url_join alert).
Hypothesis Hent : owner_repo ent = Ok (owner, repo).
Hypothesis Htmpl : ∀ t d, ∃ s, execute_text t d = Ok s.

Lemma getParams_Ok row err meta :
  ∃ p, getParamsForSecurityAdvisory alert ent (with_row row err params) meta = Ok p ∧
    sa_Owner p = owner ∧ sa_Repo p = repo ∧ sa_prevStatus p = row ∧
    sa_Metadata p = read_metadata meta ∧
    tp_Severity (sa_Template p) = getSeverityString alert.
Proof.
  unfold getParamsForSecurityAdvisory. rewrite Hent. simpl.
  match goal with |- context [execute_text ?t ?d] =>
    destruct (Htmpl t d) as (s & ->) end. simpl.
  match goal with |- context [execute_text ?t ?d] =>
    destruct (Htmpl t d) as (s' & ->) end. simpl.
  eexists. split_and!; reflexivity.
Qed.

Lemma processAction_run row err cmd meta w :
  sa_setting alert = ActionOptOn →
  ∃ p, sa_Owner p = owner ∧ sa_Repo p = repo ∧ sa_prevStatus p = row ∧
    sa_Metadata p = read_metadata meta ∧
    tp_Severity (sa_Template p) = getSeverityString alert ∧
    processAction rae alert_ActionType cmd ent (with_row row err params) meta w =
      match run alert p cmd w with
      | (w', Ok r) => (w', Ok r)
      | (w', Err e) => (w', Ok (None, Some e))
      | (w', Panic _) => (w', Ok (None, Some ErrInternal))
      end.
Proof.
  intros Hs. destruct (getParams_Ok row err meta) as (p & Hp & ?).
  exists p. destruct_and!. split_and!; try done.
  unfold processAction. rewrite Hal. simpl. unfold Do. rewrite Hp. by rewrite Hs.
Qed.

(** What the close command does: nothing without an id. *)
Lemma evaluate_close row err w :
  sa_setting alert = ActionOptOn → err = None →
  from_option row_AlertStatus AlertStatusSkipped row ≠ AlertStatusOff →
  let id := from_option row_AlertMetadata None row ≫= unmarshal_ghsa in
  (no_id id = true → ∃ row', evaluate rae ent params row err w = (w, Ok (Some row')) ∧
     row_AlertStatus row' = AlertStatusOff) ∧
  (∀ i w', id = Some i → i ≠ "" →
     CloseSecurityAdvisory (sa_cli alert) owner repo i w = (w', Ok tt) →
     ∃ row', evaluate rae ent params row err w = (w', Ok (Some row')) ∧
     row_AlertStatus row' = AlertStatusOff).
Proof.
  intros Hs -> Hst id.
  rewrite (evaluate_alert rae rem (alert_action url_join alert))
    by (try apply raised; rewrite ?Hs; set_solver || done).
  change (mapEvalStatus None) with EvalStatusSuccess.
  rewrite shouldAlert_off by (by destruct row).
  destruct (processAction_run row None ActionCmdOff (getAlertMeta (prev_of_row row)) w Hs)
    as (p & Hp1 & Hp2 & _ & Hp4 & _ & ->).
  assert (sa_Metadata p = id) as Hm by (rewrite Hp4; by destruct row as [[? ? ? []]|]).
  unfold run. simpl. rewrite Hm, Hp1, Hp2. split.
  - intros ->. simpl. eexists. split; [reflexivity|]. reflexivity.
  - intros i w' -> Hi Hclose. apply String.eqb_neq in Hi. cbn [no_id]. rewrite Hi. simpl.
    unfold mbind, prog_bind, try. rewrite Hclose. simpl.
    eexists. split; reflexivity.
Qed.

(** Opening an advisory records its id. *)
Lemma evaluate_open row e w w' id :
  sa_setting alert = ActionOptOn →
  mapEvalStatus (Some e) = EvalStatusFailure →
  from_option row_AlertStatus AlertStatusSkipped row ≠ AlertStatusOn →
  (∀ sum desc vuln, CreateSecurityAdvisory (sa_cli alert) owner repo
     (getSeverityString alert) sum desc vuln w = (w', Ok id)) →
  ∃ row', evaluate rae ent params row (Some e) w = (w', Ok (Some row')) ∧
    row_AlertStatus row' = AlertStatusOn ∧
    row_AlertMetadata row' = Some (marshal_ghsa id).
Proof.
  intros Hs He Hst Hcreate. destruct (failure_not_skipped e He) as [Hsk1 Hsk2].
  rewrite (evaluate_alert rae rem (alert_action url_join alert))
    by (try apply raised; rewrite ?Hs; set_solver || done). rewrite He.
  rewrite shouldAlert_on by (by destruct row).
  destruct (processAction_run row (Some e) ActionCmdOn (getAlertMeta (prev_of_row row)) w Hs)
    as (p' & Hp1 & Hp2 & _ & _ & Hsev' & ->).
  unfold run. simpl. rewrite Hp1, Hp2, Hsev'.
  unfold mbind, prog_bind, try. rewrite Hcreate. simpl.
  eexists. split_and!; reflexivity.
Qed.

(** While the rule keeps failing and the alert is on, nothing happens. *)
Lemma evaluate_still_failing row e w :
  sa_setting alert = ActionOptOn →
  mapEvalStatus (Some e) = EvalStatusFailure →
  row_AlertStatus row = AlertStatusOn →
  ∃ row', evaluate rae ent params (Some row) (Some e) w = (w, Ok (Some row')) ∧
    row_AlertStatus row' = AlertStatusOn ∧
    row_AlertMetadata row' = Some (default empty_json (row_AlertMetadata row)).
Proof.
  intros Hs He Hst. destruct (failure_not_skipped e He) as [Hsk1 Hsk2].
  rewrite (evaluate_alert rae rem (alert_action url_join alert))
    by (try apply raised; rewrite ?Hs; set_solver || done). rewrite He.
  rewrite shouldAlert_still_on by done.
  destruct (processAction_run (Some row) (Some e) ActionCmdDoNothing
              (getAlertMeta (prev_of_row (Some row))) w Hs)
    as (p & _ & _ & Hprev & _ & _ & ->).
  unfold run. simpl. unfold runDoNothing. rewrite Hprev. unfold AlertStatusAsError.
  rewrite Hst. simpl. eexists. split_and!; reflexivity.
Qed.
End advisory_lemmas.

(** The situation of the properties: the remediation is off, the alert of the
    rule is a security advisory, the entity has an owner and a repository and
    the templates render. *)
Record advisory_rule {W} (url_join : string → string → res string)
    `{TemplateEngine} `{TextTemplates templateParamsSA} `{AlertMetadataJSON}
    (rae : RuleActionsEngine W ProtoEntity) (alert : Alert (W := W))
    (ent : ProtoEntity) (owner repo : string) : Prop := {
  ar_rem : ∃ rem, rae_actions rae !! remediate_ActionType = Some rem ∧
                  act_GetOnOffState rem = ActionOptOff;
  ar_alert : rae_actions rae !! alert_ActionType = Some (alert_action url_join alert);
  ar_entity : owner_repo ent = Ok (owner, repo);
  ar_templates : ∀ t d, ∃ s, execute_text t d = Ok s;
}.

Section advisory_properties.
Context {W : Type} (url_join : string → string → res string).
Context `{TemplateEngine} `{TT : TextTemplates templateParamsSA} `{AlertMetadataJSON}.

Lemma evaluations_still_failing rae alert ent owner repo params es errs row (w : W) :
  advisory_rule url_join rae alert ent owner repo →
  sa_setting alert = ActionOptOn →
  Forall (λ e, mapEvalStatus (Some e) = EvalStatusFailure) es →
  row_AlertStatus row = AlertStatusOn →
  ∃ row', row_AlertStatus row' = AlertStatusOn ∧
    default empty_json (row_AlertMetadata row') =
      default empty_json (row_AlertMetadata row) ∧
    (is_Some (row_AlertMetadata row) → is_Some (row_AlertMetadata row')) ∧
    evaluations rae ent params (Some row) ((Some <$> es) ++ errs)%list w =
      evaluations rae ent params (Some row') errs w.
Proof.
  intros [(rem & Hr1 & Hr2) Ha He Ht] Hs Hes. revert row.
  induction Hes as [|e es Hf _ IH]; intros row Hrow; [by exists row|].
  destruct (evaluate_still_failing url_join rae rem alert ent owner repo params
              Hr1 Hr2 Ha He Ht row e w Hs Hf Hrow) as (row1 & H1 & H2 & H3).
  destruct (IH row1 H2) as (row' & ? & Hm & Hsome & Heq). exists row'.
  split_and!; [done|by rewrite Hm, H3|rewrite H3 in Hsome; eauto|].
  cbn [fmap list_fmap app]. by rewrite (evaluations_cons _ _ _ H1).
Qed.
End advisory_properties.

(** C33: the advisory's life.  Let the remediation be off and the alert on and
    not yet sent, let the templates render, and let the provider open the advisory
    and close it when asked to.  Over any number of failing evaluations, none of
    them skipped, and one that passes after them, the first opens one advisory,
    the other failures call nothing, and the pass closes exactly that advisory
    and records the alert as off. *)
Theorem advisory_lifecycle {W} url_join `{TemplateEngine}
    `{TextTemplates templateParamsSA} `{AlertMetadataJSON}
    rae alert ent owner repo params row e es id (w w1 w2 : W) :
  advisory_rule url_join rae alert ent owner repo →
  sa_setting alert = ActionOptOn →
  Forall (λ e, mapEvalStatus (Some e) = EvalStatusFailure) (e :: es) →
  from_option row_AlertStatus AlertStatusSkipped row ≠ AlertStatusOn →
  (∀ sum desc vuln, CreateSecurityAdvisory (sa_cli alert) owner repo
     (getSeverityString alert) sum desc vuln w = (w1, Ok id)) →
  id ≠ "" →
  CloseSecurityAdvisory (sa_cli alert) owner repo id w1 = (w2, Ok tt) →
  ∃ row', evaluations rae ent params row ((Some <$> (e :: es)) ++ [None])%list w
            = (w2, Ok (Some row')) ∧
    row_AlertStatus row' = AlertStatusOff.
Proof.
  intros Hrule Hs [He Hes]%Forall_cons Hrow Hcreate Hid Hclose.
  pose proof Hrule as [(rem & Hr1 & Hr2) Ha Hent Ht].
  destruct (evaluate_open url_join rae rem alert ent owner repo params
              Hr1 Hr2 Ha Hent Ht row e w w1 id Hs He Hrow Hcreate) as (row1 & E1 & E2 & E3).
  cbn [fmap list_fmap app]. rewrite (evaluations_cons _ _ _ E1).
  destruct (evaluations_still_failing url_join rae alert ent owner repo params es [None]
              row1 w1 Hrule Hs Hes E2) as (row2 & E4 & E5 & E6 & ->).
  rewrite E3 in E5, E6. destruct (E6 ltac:(eauto)) as [m Hm].
  rewrite Hm in E5. simpl in E5. subst m.
  edestruct (evaluate_close url_join rae rem alert ent owner repo params
              Hr1 Hr2 Ha Hent Ht (Some row2) None w1) as [_ Hc]; [done|done|by simpl; rewrite E4|].
  destruct (Hc id w2) as (row' & Hev & Hoff); [|done|done|].
  { simpl. rewrite Hm. simpl. apply unmarshal_marshal_ghsa. }
  exists row'. by rewrite (evaluations_cons _ _ _ Hev).
Qed.

(** A skipped evaluation forgets the open advisory.  Whatever row the
    database holds, a skip stores the empty metadata with the status skipped,
    so a passing evaluation after it records the alert as off without calling
    the provider, and a failing one opens another advisory: an advisory that
    was open stays open, against the comment of [getDefaultResult] that there
    is no risk of overwriting existing metadata. *)
Theorem skip_forgets_advisory {W} url_join `{TemplateEngine}
    `{TextTemplates templateParamsSA} `{AlertMetadataJSON}
    rae alert ent owner repo params row skip fail id (w w1 : W) :
  advisory_rule url_join rae alert ent owner repo →
  sa_setting alert = ActionOptOn →
  is_in skip ErrEvaluationSkipped = true →
  mapEvalStatus (Some fail) = EvalStatusFailure →
  (∀ sum desc vuln, CreateSecurityAdvisory (sa_cli alert) owner repo
     (getSeverityString alert) sum desc vuln w = (w1, Ok id)) →
  (∃ row', evaluations rae ent params row [Some skip; None] w = (w, Ok (Some row')) ∧
     row_AlertStatus row' = AlertStatusOff) ∧
  (∃ row', evaluations rae ent params row [Some skip; Some fail] w = (w1, Ok (Some row')) ∧
     row_AlertMetadata row' = Some (marshal_ghsa id)).
Proof.
  intros [(rem & Hr1 & Hr2) Ha Hent Ht] Hs Hskip Hfail Hcreate.
  assert (evaluate rae ent params row (Some skip) w =
            (w, Ok (Some (stored_row getDefaultResult)))) as Hev.
  { eapply (evaluate_skipped rae rem); eauto. apply raised. rewrite Hs. set_solver. }
  rewrite !(evaluations_cons _ _ _ Hev). split.
  - edestruct (evaluate_close url_join rae rem alert ent owner repo params
      Hr1 Hr2 Ha Hent Ht (Some (stored_row getDefaultResult)) None w) as [Hc _]; [done..|].
    destruct Hc as (row' & Hc & Hoff).
    { simpl. by rewrite unmarshal_ghsa_empty. }
    exists row'. by rewrite (evaluations_cons _ _ _ Hc).
  - edestruct (evaluate_open url_join rae rem alert ent owner repo params
      Hr1 Hr2 Ha Hent Ht (Some (stored_row getDefaultResult)) fail w w1 id)
      as (row' & Ho & _ & Hm); [done..|].
    exists row'. by rewrite (evaluations_cons _ _ _ Ho).
Qed.

(** A dry run masks the alert.  With the alert in dry run the first failing
    evaluation records the alert as on although nothing was opened; once the
    profile switches the alert on, every further failing evaluation finds it on
    and calls nothing. *)
Theorem dry_run_masks_alert {W} url_join `{TemplateEngine}
    `{TextTemplates templateParamsSA} `{AlertMetadataJSON}
    rae rae' alert alert' ent owner repo params fail es (w : W) :
  advisory_rule url_join rae alert ent owner repo →
  advisory_rule url_join rae' alert' ent owner repo →
  sa_setting alert = ActionOptDryRun → sa_setting alert' = ActionOptOn →
  is_ok (GenerateCurlCommand url_join "POST" (GetBaseURL (sa_cli alert))
           ("repos/" +:+ owner +:+ "/" +:+ repo +:+ "/security-advisories") "") = true →
  Forall (λ e, mapEvalStatus (Some e) = EvalStatusFailure) (fail :: es) →
  ∃ row row',
    evaluate rae ent params None (Some fail) w = (w, Ok (Some row)) ∧
    row_AlertStatus row = AlertStatusOn ∧
    evaluations rae' ent params (Some row) (Some <$> es) w = (w, Ok (Some row')) ∧
    row_AlertStatus row' = AlertStatusOn.
Proof.
  intros [(rem & Hr1 & Hr2) Ha Hent Ht] Hrule' Hs Hs' Hcurl [He Hes]%Forall_cons.
  destruct (failure_not_skipped fail He) as [Hsk1 Hsk2].
  assert (∃ row, evaluate rae ent params None (Some fail) w = (w, Ok (Some row)) ∧
    row_AlertStatus row = AlertStatusOn) as (row & Hev & Hrow).
  { rewrite (evaluate_alert rae rem (alert_action url_join alert))
      by (try apply raised; rewrite ?Hs; set_solver || done). rewrite He.
    rewrite shouldAlert_on by done.
    destruct (getParams_Ok alert ent owner repo params Hent Ht None (Some fail) None)
      as (p & Hp & Hp1 & Hp2 & _).
    unfold processAction. rewrite Ha. simpl. unfold Do. rewrite Hp. rewrite Hs. simpl.
    unfold runDry. rewrite Hp1, Hp2. cbn [String.eqb Ascii.eqb Bool.eqb ActionCmdOn].
    destruct (GenerateCurlCommand _ _ _ _ _) as [out|?|?]; [|done|done].
    eexists. split; reflexivity. }
  exists row.
  destruct (evaluations_still_failing url_join rae' alert' ent owner repo params es []
              row w Hrule' Hs' Hes Hrow) as (row' & Hon & _ & _ & Hevs).
  exists row'. rewrite app_nil_r in Hevs. by rewrite Hevs.
Qed.

(** ** A concrete provider

    A GitHub that keeps the list of open advisories. *)
Definition fake_github : GitHubAdvisories (nat * list string) :=
  {| CreateSecurityAdvisory := λ _ _ _ _ _ _ w,
       let id := "GHSA-" +:+ Strconv.FormatInt (Z.of_nat w.1) in
       ((S w.1, id :: w.2), Ok id);
     CloseSecurityAdvisory := λ _ _ id w,
       if bool_decide (id ∈ w.2)
       then ((w.1, filter (λ x, x ≠ id) w.2), Ok tt) else (w, Err ErrNotFound);
     GetBaseURL := "https://api.github.com" |}.

Definition plain_templates {D} : TextTemplates D :=
  {| tmpl := string; tmpl_Parse := Ok; html_tmpl_Parse := Ok; tmpl_Execute := λ t _, ([t], None) |}.

Definition ghsa_json : AlertMetadataJSON.
Proof.
  refine {|
    marshal_ghsa := λ id, if String.eqb id "" then empty_json else "{ghsa_id:" +:+ id;
    unmarshal_ghsa := λ s, if String.eqb s empty_json then Some ""
                           else Some (Strings.drop 9 s) |}.
  - intros id. destruct (String.eqb_spec id "") as [->|Hid]; [reflexivity|].
    reflexivity.
  - reflexivity.
Defined.

Definition ex_alert (s : ActionOpt) : @Alert (nat * list string) plain_templates :=
  @Build_Alert _ plain_templates alert_ActionType fake_github
    {| rts_Name := "r"; rts_Guidance := "g"; rts_ShortFailureMessage := "m";
       rts_Severity := "info"; rts_has_remediate := false |}
    "" "summary" "description" "no remediation" s.

Definition ex_url_join (base path : string) : res string := Ok (base +:+ "/" +:+ path).

Definition ex_noop : Action (nat * list string) ProtoEntity :=
  {| act_Class := remediate_ActionType; act_Type := "noop"; act_GetOnOffState := ActionOptOff;
     act_Do := λ _ _ _ _, mret (None, Some (not_available remediate_ActionType)) |}.

Definition ex_advisories (s : ActionOpt) : RuleActionsEngine (nat * list string) ProtoEntity :=
  {| rae_actions :=
       <[alert_ActionType := @alert_action _ ex_url_join echo_engine plain_templates
                               ghsa_json (ex_alert s)]>
         {[remediate_ActionType := ex_noop]} |}.

Definition ex_repo : ProtoEntity := PbRepository "acme" "app" "main".

Lemma ex_advisory_rule s :
  @advisory_rule _ ex_url_join echo_engine plain_templates ghsa_json
    (ex_advisories s) (ex_alert s) ex_repo "acme" "app".
Proof.
  split.
  - exists ex_noop. split; [|reflexivity]. simpl.
    rewrite lookup_insert_ne by done. apply lookup_singleton_eq.
  - apply lookup_insert_eq.
  - reflexivity.
  - intros t d. eexists. reflexivity.
Qed.

Definition ex_fail : gerr := NewErrEvaluationFailed "f".

Example advisory_lifecycle_witness :
  ∃ row',
    evaluations (ex_advisories ActionOptOn) ex_repo (ex_params ex_cfg None None) None
      ((Some <$> [ex_fail; ex_fail; ex_fail]) ++ [None])%list (0, [])
    = ((1, []), Ok (Some row')) ∧ row_AlertStatus row' = AlertStatusOff.
Proof.
  apply (@advisory_lifecycle _ ex_url_join echo_engine plain_templates ghsa_json
    (ex_advisories ActionOptOn) (ex_alert ActionOptOn) ex_repo "acme" "app"
    (ex_params ex_cfg None None) None ex_fail [ex_fail; ex_fail] "GHSA-0"
    (0, []) (1, ["GHSA-0"]) (1, [])).
  - apply ex_advisory_rule.
  - reflexivity.
  - repeat constructor.
  - discriminate.
  - intros. vm_compute. reflexivity.
  - discriminate.
  - vm_compute. reflexivity.
Defined.

Example skip_forgets_advisory_witness :
  ∃ row',
    evaluations (ex_advisories ActionOptOn) ex_repo (ex_params ex_cfg None None)
      (Some {| row_RemStatus := "skipped"; row_RemMetadata := Some "{}";
               row_AlertStatus := "on"; row_AlertMetadata := Some "{ghsa_id:GHSA-0" |})
      [Some (NewErrEvaluationSkipped "s"); None] (1, ["GHSA-0"])
    = ((1, ["GHSA-0"]), Ok (Some row')) ∧ row_AlertStatus row' = AlertStatusOff.
Proof.
  refine (proj1 (@skip_forgets_advisory _ ex_url_join echo_engine plain_templates ghsa_json
    (ex_advisories ActionOptOn) (ex_alert ActionOptOn) ex_repo "acme" "app"
    (ex_params ex_cfg None None)
    (Some {| row_RemStatus := "skipped"; row_RemMetadata := Some "{}";
             row_AlertStatus := "on"; row_AlertMetadata := Some "{ghsa_id:GHSA-0" |})
    (NewErrEvaluationSkipped "s") ex_fail "GHSA-1"
    (1, ["GHSA-0"]) (2, ["GHSA-1"; "GHSA-0"]) _ _ _ _ _)).
  - apply ex_advisory_rule.
  - reflexivity.
  - vm_compute. reflexivity.
  - reflexivity.
  - intros. vm_compute. reflexivity.
Defined.

Example dry_run_masks_alert_witness :
  ∃ row row',
    evaluate (ex_advisories ActionOptDryRun) ex_repo (ex_params ex_cfg None None) None
      (Some ex_fail) (0, []) = ((0, []), Ok (Some row)) ∧
    row_AlertStatus row = AlertStatusOn ∧
    evaluations (ex_advisories ActionOptOn) ex_repo (ex_params ex_cfg None None)
      (Some row) (Some <$> [ex_fail]) (0, []) = ((0, []), Ok (Some row')) ∧
    row_AlertStatus row' = AlertStatusOn.
Proof.
  refine (@dry_run_masks_alert _ ex_url_join echo_engine plain_templates ghsa_json
    (ex_advisories ActionOptDryRun) (ex_advisories ActionOptOn)
    (ex_alert ActionOptDryRun) (ex_alert ActionOptOn) ex_repo "acme" "app"
    (ex_params ex_cfg None None) ex_fail [ex_fail] (0, []) _ _ _ _ _ _);
    [apply ex_advisory_rule|apply ex_advisory_rule|reflexivity|reflexivity| |
     repeat constructor].
  vm_compute. reflexivity.
Defined.
