(* ===== verification/RestRemediate.v ===== *)
(** * The REST remediation: internal/engine/actions/remediate/rest/rest.go

    A remediation that sends one request, whose method, endpoint and body are
    templates.  The HTTP client and the JSON of the body are parameters. *)

From S2P Require Import Prelude GoErrors GoMonad GoStrings EngineErrors DbTypes.
From S2P Require Import StatusAdapter Uuid ProfileModels Actions Reevaluation.
From S2P Require Import SafeTemplate.
Local Open Scope string_scope.
Local Open Scope Z_scope.

Definition RemediateType_rest : string := "rest".
Definition methodBytesLimit : Z := 10.
Definition endpointBytesLimit : Z := 1024.
Definition bodyBytesLimit : Z := 5120.

(** [http.MethodPatch] *)
Definition MethodPatch : string := "PATCH".

Record RestType := { rest_Endpoint : string; rest_Method : string; rest_Body : option string }.

Record EndpointTemplateParams := {
  etp_Entity : ProtoEntity;
  etp_Profile : option any;
  etp_Params : option any;
  etp_EvalResultOutput : option any;
}.

(** The REST client: [NewRequest] takes the body as the map it was parsed into;
    [Do] gives the status code of the response. *)
Record RESTClient (W : Type) := {
  rest_Request : Type;
  rest_NewRequest : string → string → any → res rest_Request;
  rest_Do : rest_Request → prog W Z;
  rest_GetBaseURL : string;
}.
Arguments rest_Request {W} _.
Arguments rest_NewRequest {W} _ _ _ _.
Arguments rest_Do {W} _ _.
Arguments rest_GetBaseURL {W} _.

Section rest.
Context {W : Type} (url_join : string → string → res string).
Context `{TT : TextTemplates EndpointTemplateParams}.
(** [json.Unmarshal(body, &bodyJson)] and the empty map it starts from. *)
Context (json_Unmarshal_map : string → res any) (empty_map : any).

Record Remediator := {
  rr_actionType : ActionType;
  rr_method : SafeTemplate EndpointTemplateParams;
  rr_cli : RESTClient W;
  rr_endpointTemplate : SafeTemplate EndpointTemplateParams;
  rr_bodyTemplate : option (SafeTemplate EndpointTemplateParams);
  rr_setting : ActionOpt;
}.

Definition NewRest (actionType : ActionType) (restCfg : RestType) (cli : RESTClient W)
    (setting : ActionOpt) : res Remediator :=
  if String.eqb actionType "" then Err (EText "action type cannot be empty")
  else
    endpointTmpl ← wrapf_res "invalid endpoint: "
                     (NewSafeTextTemplate (Some (rest_Endpoint restCfg)));
    bodyTmpl ← match rest_Body restCfg with
               | None => Ok None
               | Some b => Some <$> wrapf_res "invalid body: " (NewSafeTextTemplate (Some b))
               end;
    let methodStr := if String.eqb (rest_Method restCfg) "" then MethodPatch
                     else rest_Method restCfg in
    methodTemplate ← wrapf_res "invalid method: " (NewSafeTextTemplate (Some methodStr));
    Ok {| rr_actionType := actionType; rr_method := methodTemplate; rr_cli := cli;
          rr_endpointTemplate := endpointTmpl; rr_bodyTemplate := bodyTmpl;
          rr_setting := setting |}.

(** On a status outside 2xx the message formats the nil [err] of the
    request. *)
Definition rest_run (r : Remediator) (method endpoint body : string) : prog W unit :=
  bodyJson ← (if 0 <? len body
              then wrapf "cannot unmarshal body: " (lift (json_Unmarshal_map body))
              else mret empty_map);
  req ← wrapf "cannot create request: "
          (lift (rest_NewRequest (rr_cli r) (Strings.ToUpper method) endpoint bodyJson));
  status ← wrapf "cannot make request: " (rest_Do (rr_cli r) req);
  if bool_decide (HTTPErrorCodeToErr status ≠ None)
  then throw (NewErrActionFailed "remediation failed: %!s(<nil>)")
  else mret tt.

Definition rest_dryRun (r : Remediator) (method endpoint body : string) : res unit :=
  _ ← wrapf_res "cannot generate curl command: "
        (GenerateCurlCommand url_join method (rest_GetBaseURL (rr_cli r)) endpoint body);
  Ok tt.

Definition template_params (entity : ProtoEntity) (params : EvalStatusParams)
    : EndpointTemplateParams :=
  {| etp_Entity := entity; etp_Profile := ri_Def (esp_Rule params);
     etp_Params := ri_Params (esp_Rule params);
     etp_EvalResultOutput := esp_evalResult params ≫= er_Output |}.

Definition Rest_body (r : Remediator) (entity : ProtoEntity) (params : EvalStatusParams)
    : prog W unit :=
  let retp := template_params entity params in
  method ← wrapf "cannot execute method template: "
             (lift (Render (rr_method r) retp methodBytesLimit));
  endpoint ← wrapf "cannot execute endpoint template: "
               (lift (Render (rr_endpointTemplate r) retp endpointBytesLimit));
  body ← match rr_bodyTemplate r with
         | None => mret ""%string
         | Some t => wrapf "cannot execute endpoint template: "
                       (lift (Render t retp bodyBytesLimit))
         end;
  let s := rr_setting r in
  if bool_decide (s = ActionOptOn) then rest_run r method endpoint body
  else if bool_decide (s = ActionOptDryRun) then lift (rest_dryRun r method endpoint body)
  else if bool_decide (s = ActionOptOff) || bool_decide (s = ActionOptUnknown)
  then throw (EText "unexpected action")
  else mret tt.

(** Every path returns a nil metadata. *)
Definition Rest_Do (r : Remediator) (cmd : ActionCmd) (entity : ProtoEntity)
    (params : EvalStatusParams) (_ : option (option string))
    : prog W (option string * error) :=
  if negb (String.eqb cmd ActionCmdOn) then mret (None, Some ErrActionSkipped)
  else
    x ← try (Rest_body r entity params);
    mret (None, match x with inl _ => None | inr e => Some e end).

Definition rest_action (r : Remediator) : Action W ProtoEntity :=
  {| act_Class := rr_actionType r;
     act_Type := RemediateType_rest;
     act_GetOnOffState := ActionOptOrDefault (rr_setting r) ActionOptOff;
     act_Do := Rest_Do r |}.
End rest.

(** ** Lemmas *)

Lemma Rest_Do_on {W} url_join `{TextTemplates EndpointTemplateParams} js em
    (r : Remediator (W := W)) ent params row err meta w w' :
  Rest_body url_join js em r ent params w = (w', Ok tt) →
  act_Do (rest_action url_join js em r) ActionCmdOn ent (with_row row err params) meta w
    = (w', Ok (None, None)).
Proof.
  intros Hb. cbn [act_Do rest_action]. unfold Rest_Do. rewrite String.eqb_refl. cbn [negb].
  change (Rest_body url_join js em r ent (with_row row err params))
    with (Rest_body url_join js em r ent params).
  unfold mbind, prog_bind, try. by rewrite Hb.
Qed.

(** A REST remediation that does not cure the rule is repeated for ever.
    Told to do nothing it reports itself as skipped, so a rule that keeps
    failing has its request sent again at every second evaluation: after [2 n]
    failing evaluations it was sent [n] times, and the next one would send it
    again.  The comment of [shouldRemediate] says remediating only after a
    skipped remediation excludes endless remediation loops. *)
Theorem rest_remediation_repeats {W} url_join
    `{TextTemplates EndpointTemplateParams} js em
    (rae : RuleActionsEngine W ProtoEntity) (r : Remediator (W := W)) al ent params e
    (step : W → W) n w :
  rae_actions rae !! remediate_ActionType = Some (rest_action url_join js em r) →
  rae_actions rae !! alert_ActionType = Some al →
  act_GetOnOffState al = ActionOptOff →
  rr_setting r = ActionOptOn →
  (∀ w, Rest_body url_join js em r ent params w = (step w, Ok tt)) →
  mapEvalStatus (Some e) = EvalStatusFailure →
  ∃ row, evaluations rae ent params None (replicate (2 * n) (Some e)) w
           = (Nat.iter n step w, Ok row) ∧
    from_option row_RemStatus RemediationStatusSkipped row = RemediationStatusSkipped ∧
    shouldRemediate (prev_of_row row) EvalStatusFailure = ActionCmdOn.
Proof.
  intros Hrem Hal Halt Hs Hstep He.
  assert (Hon : act_GetOnOffState (rest_action url_join js em r) = ActionOptOn)
    by (simpl; by rewrite Hs).
  assert (Htwice : ∀ row w,
    from_option row_RemStatus RemediationStatusSkipped row = RemediationStatusSkipped →
    ∃ row', evaluations rae ent params row [Some e; Some e] w = (step w, Ok (Some row')) ∧
      row_RemStatus row' = RemediationStatusSkipped).
  { intros row w1 Hrow.
    pose proof (evaluate_remediation rae _ al Hrem Hon Hal Halt ent params row e w1
      (step w1) (None, None) He) as H1.
    rewrite shouldRemediate_on in H1 by (by destruct row).
    specialize (H1 (Rest_Do_on _ _ _ _ _ _ _ _ _ _ _ (Hstep w1))).
    rewrite (evaluations_cons _ _ _ H1).
    pose proof (evaluate_remediation rae _ al Hrem Hon Hal Halt ent params
      (Some (stored_row (set_remediate getDefaultResult (None, None)))) e (step w1)
      (step w1) (None, Some ErrActionSkipped) He) as H2.
    simpl prev_of_row in H2. rewrite shouldRemediate_wait in H2 by done.
    specialize (H2 eq_refl). rewrite (evaluations_cons _ _ _ H2).
    eexists. split; reflexivity. }
  induction n as [|n (row & Hev & Hrow & Hcmd)].
  { exists None. done. }
  destruct (Htwice row (Nat.iter n step w) Hrow) as (row' & Hev' & Hrow').
  exists (Some row'). split_and!; [|done|by apply shouldRemediate_on].
  replace (2 * S n)%nat with (2 * n + 2)%nat by lia. rewrite replicate_add.
  by rewrite (evaluations_app _ _ _ _ _ _ _ _ _ Hev).
Qed.

(** A client that counts the requests it is sent. *)
Definition counting_client : RESTClient nat :=
  {| rest_Request := string; rest_NewRequest := λ m e _, Ok (m +:+ " " +:+ e);
     rest_Do := λ _ w, (S w, Ok 200); rest_GetBaseURL := "https://api.github.com" |}.

Definition ex_rest_templates : TextTemplates EndpointTemplateParams :=
  {| tmpl := string; tmpl_Parse := Ok; html_tmpl_Parse := Ok; tmpl_Execute := λ t _, ([t], None) |}.

Definition ex_rest : @Remediator nat ex_rest_templates :=
  @Build_Remediator nat ex_rest_templates remediate_ActionType
    (@Build_SafeTemplate _ ex_rest_templates "put") counting_client
    (@Build_SafeTemplate _ ex_rest_templates "/repos/acme/app") None ActionOptOn.

Definition ex_rest_engine : RuleActionsEngine nat ProtoEntity :=
  {| rae_actions :=
       <[alert_ActionType := {| act_Class := alert_ActionType; act_Type := "noop";
            act_GetOnOffState := ActionOptOff;
            act_Do := λ _ _ _ _, mret (None, Some (not_available alert_ActionType)) |}]>
         {[remediate_ActionType :=
             @rest_action nat (λ b p, Ok (b +:+ p)) ex_rest_templates (λ s, Ok (Any s)) (Any "{}") ex_rest]} |}.

Example rest_remediation_repeats_witness :
  ∃ row,
    evaluations ex_rest_engine (PbRepository "acme" "app" "main") (ex_params ex_cfg None None)
      None (replicate (2 * 3) (Some (NewErrEvaluationFailed "f"))) 0%nat = (3%nat, Ok row) ∧
    from_option row_RemStatus RemediationStatusSkipped row = RemediationStatusSkipped ∧
    shouldRemediate (prev_of_row row) EvalStatusFailure = ActionCmdOn.
Proof.
  apply (@rest_remediation_repeats nat (λ b p, Ok (b +:+ p)) ex_rest_templates
    (λ s, Ok (Any s)) (Any "{}") ex_rest_engine ex_rest
    {| act_Class := alert_ActionType; act_Type := "noop";
       act_GetOnOffState := ActionOptOff;
       act_Do := λ _ _ _ _, mret (None, Some (not_available alert_ActionType)) |}
    (PbRepository "acme" "app" "main") (ex_params ex_cfg None None)
    (NewErrEvaluationFailed "f") S 3 0%nat).
  - simpl. rewrite lookup_insert_ne by done. apply lookup_singleton_eq.
  - apply lookup_insert_eq.
  - reflexivity.
  - reflexivity.
  - intros w. vm_compute. reflexivity.
  - reflexivity.
Defined.
