(* ===== verification/IssueRemediate.v ===== *)
(** * The issue remediation: internal/engine/actions/remediate/issue/issue.go

    A remediation that opens one issue while a rule fails and closes it when the
    rule passes.  The issue client and the JSON of the metadata are
    parameters. *)

From S2P Require Import Prelude GoErrors GoMonad GoStrings EngineErrors DbTypes.
From S2P Require Import StatusAdapter Uuid ProfileModels Actions Reevaluation.
From S2P Require Import SafeTemplate.
Local Open Scope string_scope.
Local Open Scope Z_scope.

Definition RemediateType_issue : string := "issue".
Definition TitleMaxLength : Z := 75.
Definition BodyMaxLength : Z := 65536.

(** The two calls of [IssuePublisher]; [CreateIssue] gives the number of the
    new issue. *)
Record IssuePublisher (W : Type) := {
  CreateIssue : string → string → string → string → list string → list string → prog W Z;
  CloseIssue : string → string → Z → string → prog W Z;
}.
Arguments CreateIssue {W} _ _ _ _ _ _ _.
Arguments CloseIssue {W} _ _ _ _ _.

(** The JSON of [issueMetadata]: an [int], whose zero is omitted. *)
Class IssueMetadataJSON := {
  marshal_issue : Z → string;
  unmarshal_issue : string → res Z;
  unmarshal_marshal_issue : ∀ n,
    Strconv.is_int64 n → unmarshal_issue (marshal_issue n) = Ok n;
  unmarshal_issue_empty : unmarshal_issue empty_json = Ok 0;
}.

Module issue.
Record TemplateParams := {
  tp_Entity : ProtoEntity;
  tp_Profile : option any;
  tp_Params : option any;
  tp_EvalResultOutput : option any;
}.

Record IssueCfg := {
  cfg_Title : string; cfg_Body : string;
  cfg_Labels : option (list string); cfg_Assignees : option (list string);
}.

Section issue.
Context {W : Type} `{TT : TextTemplates TemplateParams} `{IssueMetadataJSON}.
(** The generated [Validate] of the configuration. *)
Context (Validate : IssueCfg → error).

Record Remediator := {
  issueCli : IssuePublisher W;
  actionType : ActionType;
  setting : ActionOpt;
  issueCfg : IssueCfg;
  titleTemplate : SafeTemplate TemplateParams;
  bodyTemplate : SafeTemplate TemplateParams;
}.

Record paramsIssue := {
  pi_repo : string * string;
  pi_title : string;
  pi_body : string;
  pi_labels : list string;
  pi_assignees : list string;
  pi_metadata : Z;
  pi_prevStatus : option ListRuleEvaluationsByProfileIdRow;
}.

Definition NewIssue (actionType : ActionType) (issueCfg : IssueCfg)
    (issueCli : IssuePublisher W) (setting : ActionOpt) : res Remediator :=
  _ ← wrapf_res "issue remediation config is invalid: " (of_error (Validate issueCfg));
  titleTmpl ← wrapf_res "cannot parse title template: "
                (NewSafeHTMLTemplate (Some (cfg_Title issueCfg)));
  bodyTmpl ← wrapf_res "cannot parse body template: "
               (NewSafeHTMLTemplate (Some (cfg_Body issueCfg)));
  Ok {| issueCli := issueCli; actionType := actionType; setting := setting;
        issueCfg := issueCfg; titleTemplate := titleTmpl; bodyTemplate := bodyTmpl |}.

(** A metadata that is there has to parse; a nil message does not. *)
Definition read_metadata (metadata : option (option string)) : res Z :=
  match metadata with
  | None => Ok 0
  | Some None => Err (EText "unexpected end of JSON input")
  | Some (Some m) => unmarshal_issue m
  end.

(** What the title and the body are rendered with. *)
Definition issue_data (ent : ProtoEntity) (params : EvalStatusParams) : TemplateParams :=
  {| tp_Entity := ent; tp_Profile := ri_Def (esp_Rule params);
     tp_Params := ri_Params (esp_Rule params);
     tp_EvalResultOutput := esp_evalResult params ≫= er_Output |}.

Definition getParamsForIssueRemediation (r : Remediator) (ent : ProtoEntity)
    (params : EvalStatusParams) (metadata : option (option string)) : res paramsIssue :=
  repo ← match ent with
         | PbRepository owner name _ => Ok (owner, name)
         | _ => Err (EText "expected repository")
         end;
  let tmplParams := issue_data ent params in
  title ← wrapf_res "cannot render title template: "
            (Render (titleTemplate r) tmplParams TitleMaxLength);
  body ← wrapf_res "cannot render body template: "
           (Render (bodyTemplate r) tmplParams BodyMaxLength);
  meta ← wrapf_res "cannot unmarshal remediation metadata: " (read_metadata metadata);
  Ok {| pi_repo := repo; pi_title := title; pi_body := body;
        pi_labels := default [] (cfg_Labels (issueCfg r));
        pi_assignees := default [] (cfg_Assignees (issueCfg r));
        pi_metadata := meta;
        pi_prevStatus := esp_EvalStatusFromDb params |}.

Definition runDoNothing (p : paramsIssue) : option string * error :=
  let err := RemediationStatusAsError (pi_prevStatus p) in
  match pi_prevStatus p with
  | Some row => (row_RemMetadata row, err)
  | None => (None, err)
  end.

Definition runOn (r : Remediator) (p : paramsIssue) : prog W (option string * error) :=
  if negb (pi_metadata p =? 0)
  then mret (Some (marshal_issue (pi_metadata p)), Some ErrActionPending)
  else
    x ← try (CreateIssue (issueCli r) (pi_repo p).1 (pi_repo p).2
               (pi_title p) (pi_body p) (pi_labels p) (pi_assignees p));
    match x with
    | inr err => mret (None, Some (EWrap2 "cannot create issue: " err ", " ErrActionFailed ""))
    | inl number => mret (Some (marshal_issue number), Some ErrActionPending)
    end.

Definition runOff (r : Remediator) (p : paramsIssue) : prog W (option string * error) :=
  if pi_metadata p =? 0
  then mret (None, Some (EWrap "no issue number provided: " ErrActionSkipped ""))
  else
    x ← try (CloseIssue (issueCli r) (pi_repo p).1 (pi_repo p).2 (pi_metadata p) "");
    match x with
    | inr err => mret (None, Some (EWrap2 ("error closing issue " +:+
                     Strconv.FormatInt (pi_metadata p) +:+ ": ") err ", " ErrActionFailed ""))
    | inl _ => mret (None, Some ErrActionSkipped)
    end.

Definition run (r : Remediator) (cmd : ActionCmd) (p : paramsIssue)
    : prog W (option string * error) :=
  if String.eqb cmd ActionCmdOn then runOn r p
  else if String.eqb cmd ActionCmdOff then runOff r p
  else if String.eqb cmd ActionCmdDoNothing then mret (runDoNothing p)
  else mret (None, Some (EText ("unimplemented action command: " +:+ cmd))).

Definition dryRun (cmd : ActionCmd) (p : paramsIssue) : option string * error :=
  if String.eqb cmd ActionCmdOn then (None, None)
  else if String.eqb cmd ActionCmdOff then
    if pi_metadata p =? 0
    then (None, Some (EWrap "no issue number provided: " ErrActionSkipped ""))
    else (None, None)
  else if String.eqb cmd ActionCmdDoNothing then runDoNothing p
  else (None, None).

Definition Do (r : Remediator) (cmd : ActionCmd) (ent : ProtoEntity)
    (params : EvalStatusParams) (metadata : option (option string))
    : prog W (option string * error) :=
  match getParamsForIssueRemediation r ent params metadata with
  | Err e => mret (None, Some (EWrap "cannot get issue remediation params: " e ""))
  | Panic m => lift (Panic m)
  | Ok p =>
      let s := setting r in
      if bool_decide (s = ActionOptOn) then run r cmd p
      else if bool_decide (s = ActionOptDryRun) then mret (dryRun cmd p)
      else if bool_decide (s = ActionOptOff) || bool_decide (s = ActionOptUnknown)
      then mret (None, Some (EText "unexpected remediation action setting"))
      else mret (None, Some (EText ("unexpected remediation action setting: " +:+
                                    Strconv.FormatInt s)))
  end.

Definition action (r : Remediator) : Action W ProtoEntity :=
  {| act_Class := actionType r; act_Type := RemediateType_issue;
     act_GetOnOffState := ActionOptOrDefault (setting r) ActionOptOff;
     act_Do := Do r |}.
End issue.
End issue.

(** ** Lemmas *)

Section issue_lemmas.
Context {W : Type} `{TT : TextTemplates issue.TemplateParams} `{IssueMetadataJSON}.
Context (rae : RuleActionsEngine W ProtoEntity) (al : Action W ProtoEntity)
  (r : issue.Remediator (W := W)) (owner name branch : string) (params : EvalStatusParams)
  (title body : string).
Let ent := PbRepository owner name branch.
Hypothesis Hrem : rae_actions rae !! remediate_ActionType = Some (issue.action r).
Hypothesis Hal : rae_actions rae !! alert_ActionType = Some al.
Hypothesis Halt : act_GetOnOffState al = ActionOptOff.
Hypothesis Hs : issue.setting r = ActionOptOn.
Let data := issue.issue_data ent params.
Hypothesis Htitle : Render (issue.titleTemplate r) data TitleMaxLength = Ok title.
Hypothesis Hbody : Render (issue.bodyTemplate r) data BodyMaxLength = Ok body.

Lemma issue_on : act_GetOnOffState (issue.action r) = ActionOptOn.
Proof using Hs. simpl. by rewrite Hs. Qed.

Lemma Do_run row err cmd meta n w :
  issue.read_metadata meta = Ok n →
  act_Do (issue.action r) cmd ent (with_row row err params) meta w =
    issue.run r cmd
      {| issue.pi_repo := (owner, name); issue.pi_title := title; issue.pi_body := body;
         issue.pi_labels := default [] (issue.cfg_Labels (issue.issueCfg r));
         issue.pi_assignees := default [] (issue.cfg_Assignees (issue.issueCfg r));
         issue.pi_metadata := n; issue.pi_prevStatus := row |} w.
Proof using Hs Htitle Hbody.
  intros Hm. simpl. unfold issue.Do, issue.getParamsForIssueRemediation.
  change (issue.issue_data ent (with_row row err params)) with data.
  cbn [ent]. unfold mbind, res_bind. cbn [wrapf_res].
  rewrite Htitle, Hbody. cbn [wrapf_res]. rewrite Hm. cbn. by rewrite Hs.
Qed.

(** The row of an open issue. *)
Definition open_issue (n : Z) (row : ListRuleEvaluationsByProfileIdRow) : Prop :=
  row_RemStatus row = RemediationStatusTypesPending ∧
  row_RemMetadata row = Some (marshal_issue n).

Lemma evaluate_open_issue e w w1 n :
  mapEvalStatus (Some e) = EvalStatusFailure →
  CreateIssue (issue.issueCli r) owner name title body
    (default [] (issue.cfg_Labels (issue.issueCfg r)))
    (default [] (issue.cfg_Assignees (issue.issueCfg r))) w = (w1, Ok n) →
  ∃ row, evaluate rae ent params None (Some e) w = (w1, Ok (Some row)) ∧ open_issue n row.
Proof using Hrem Hal Halt Hs Htitle Hbody.
  intros He Hc. eexists. split.
  - eapply (evaluate_remediation rae _ al Hrem issue_on Hal Halt); [done|].
    rewrite shouldRemediate_on by done. erewrite Do_run by done.
    unfold issue.run. rewrite String.eqb_refl. unfold issue.runOn. simpl.
    unfold mbind, prog_bind, try. rewrite Hc. reflexivity.
  - split; reflexivity.
Qed.

Lemma evaluate_waiting_issue e w n row :
  Strconv.is_int64 n →
  mapEvalStatus (Some e) = EvalStatusFailure →
  open_issue n row →
  ∃ row', evaluate rae ent params (Some row) (Some e) w = (w, Ok (Some row')) ∧
    open_issue n row'.
Proof using Hrem Hal Halt Hs Htitle Hbody.
  intros H64 He [Hst Hmeta]. eexists. split.
  - eapply (evaluate_remediation rae _ al Hrem issue_on Hal Halt); [done|].
    simpl prev_of_row. rewrite shouldRemediate_wait by (simpl; by rewrite Hst).
    erewrite Do_run; [reflexivity|]. simpl. rewrite Hmeta. by apply unmarshal_marshal_issue.
  - unfold open_issue. simpl. unfold RemediationStatusAsError. rewrite Hst, Hmeta.
    split; reflexivity.
Qed.

Lemma evaluate_close_issue w w1 n m row :
  Strconv.is_int64 n → n ≠ 0 → open_issue n row →
  CloseIssue (issue.issueCli r) owner name n "" w = (w1, Ok m) →
  ∃ row', evaluate rae ent params (Some row) None w = (w1, Ok (Some row')) ∧
    row_RemStatus row' = RemediationStatusSkipped.
Proof using Hrem Hal Halt Hs Htitle Hbody.
  intros H64 Hn [Hst Hmeta] Hc. eexists. split.
  - eapply (evaluate_remediation_status rae _ al Hrem issue_on Hal Halt); [done|done|].
    simpl prev_of_row. rewrite shouldRemediate_off by (simpl; by rewrite Hst).
    erewrite Do_run; cycle 1.
    { simpl. rewrite Hmeta. by apply unmarshal_marshal_issue. }
    unfold issue.run.
    change (String.eqb ActionCmdOff ActionCmdOn) with false. rewrite String.eqb_refl.
    unfold issue.runOff. cbn [issue.pi_metadata]. apply Z.eqb_neq in Hn as ->.
    unfold mbind, prog_bind, try. cbn [issue.pi_repo issue.pi_metadata fst snd].
    rewrite Hc. reflexivity.
  - reflexivity.
Qed.
End issue_lemmas.

(** The issue's life.  On a repository, with the remediation on, the alert
    off and no earlier row, and with templates that render for the data of the
    rule, the first failing evaluation opens one issue; while
    the rule keeps failing the remediation stays pending with the issue's number
    and the client is not called again; the first passing evaluation closes
    exactly that issue and records the remediation as skipped, ready for the
    next failure.  So an issue remediation does not loop. *)
Theorem issue_lifecycle {W} `{TextTemplates issue.TemplateParams} `{IssueMetadataJSON}
    (rae : RuleActionsEngine W ProtoEntity) al (r : issue.Remediator (W := W))
    owner name branch params title body e es n m w w1 w2 :
  rae_actions rae !! remediate_ActionType = Some (issue.action r) →
  rae_actions rae !! alert_ActionType = Some al →
  act_GetOnOffState al = ActionOptOff →
  issue.setting r = ActionOptOn →
  let data := issue.issue_data (PbRepository owner name branch) params in
  Render (issue.titleTemplate r) data TitleMaxLength = Ok title →
  Render (issue.bodyTemplate r) data BodyMaxLength = Ok body →
  Forall (λ e, mapEvalStatus (Some e) = EvalStatusFailure) (e :: es) →
  CreateIssue (issue.issueCli r) owner name title body
    (default [] (issue.cfg_Labels (issue.issueCfg r)))
    (default [] (issue.cfg_Assignees (issue.issueCfg r))) w = (w1, Ok n) →
  Strconv.is_int64 n → n ≠ 0 →
  CloseIssue (issue.issueCli r) owner name n "" w1 = (w2, Ok m) →
  ∃ row row', let ent := PbRepository owner name branch in
    evaluations rae ent params None (Some <$> (e :: es)) w = (w1, Ok (Some row)) ∧
    open_issue n row ∧
    evaluate rae ent params (Some row) None w1 = (w2, Ok (Some row')) ∧
    row_RemStatus row' = RemediationStatusSkipped.
Proof.
  intros Hrem Hal Halt Hs data Ht Hb [He Hes]%Forall_cons Hc H64 Hn Hclose.
  set (ent := PbRepository owner name branch).
  assert (∀ row, open_issue n row → ∃ row',
    evaluations rae ent params (Some row) (Some <$> es) w1 = (w1, Ok (Some row')) ∧
    open_issue n row') as Hwait.
  { induction Hes as [|e' es He' _ IH]; intros row Hrow; [by exists row|].
    destruct (evaluate_waiting_issue rae al r owner name branch params title body
                Hrem Hal Halt Hs Ht Hb e' w1 n row H64 He' Hrow) as (row1 & Hev & Hrow1).
    destruct (IH row1 Hrow1) as (row' & Hevs & ?). exists row'. split; [|done].
    cbn [fmap list_fmap]. by rewrite (evaluations_cons _ _ _ Hev). }
  destruct (evaluate_open_issue rae al r owner name branch params title body
              Hrem Hal Halt Hs Ht Hb e w w1 n He Hc) as (row1 & Hev & Hrow1).
  destruct (Hwait row1 Hrow1) as (row & Hevs & Hrow).
  destruct (evaluate_close_issue rae al r owner name branch params title body
              Hrem Hal Halt Hs Ht Hb w1 w2 n m row H64 Hn Hrow Hclose) as (row' & Hev' & Hskip).
  exists row, row'. cbv zeta. split_and!; try done.
  cbn [fmap list_fmap]. by rewrite (evaluations_cons _ _ _ Hev).
Qed.

(** An issue tracker: the next number and the open issues. *)
Definition fake_issues : IssuePublisher (Z * list Z) :=
  {| CreateIssue := λ _ _ _ _ _ _ w, ((w.1 + 1, w.1 :: w.2), Ok w.1);
     CloseIssue := λ _ _ n _ w, ((w.1, filter (λ k, k ≠ n) w.2), Ok n) |}.

Definition issue_json : IssueMetadataJSON.
Proof.
  refine {|
    marshal_issue := λ n, if n =? 0 then empty_json else "#" +:+ Strconv.FormatInt n;
    unmarshal_issue := λ s, if String.eqb s empty_json then Ok 0 else
      match Strconv.ParseInt (Strings.drop 1 s) with
      | Some n => Ok n
      | None => Err (EText "bad number")
      end |}.
  - intros n Hn. destruct (Z.eqb_spec n 0) as [->|Hz]; [reflexivity|].
    change (String.eqb ("#" +:+ Strconv.FormatInt n) empty_json) with false.
    change (Strings.drop 1 ("#" +:+ Strconv.FormatInt n)) with (Strconv.FormatInt n).
    cbv iota. by rewrite Strconv.ParseInt_FormatInt.
  - reflexivity.
Defined.

Definition ex_issue_templates : TextTemplates issue.TemplateParams :=
  {| tmpl := string; tmpl_Parse := Ok; html_tmpl_Parse := Ok;
     tmpl_Execute := λ t d, (match issue.tp_Entity d with
                             | PbRepository _ name _ => [t; name]
                             | _ => [t]
                             end, None) |}.

Definition ex_issue : @issue.Remediator (Z * list Z) ex_issue_templates :=
  @issue.Build_Remediator _ ex_issue_templates fake_issues remediate_ActionType ActionOptOn
    {| issue.cfg_Title := "fix "; issue.cfg_Body := "b "; issue.cfg_Labels := None;
       issue.cfg_Assignees := None |}
    (@Build_SafeTemplate _ ex_issue_templates "fix ")
    (@Build_SafeTemplate _ ex_issue_templates "b ").

Definition ex_alert_off : Action (Z * list Z) ProtoEntity :=
  {| act_Class := alert_ActionType; act_Type := "noop"; act_GetOnOffState := ActionOptOff;
     act_Do := λ _ _ _ _, mret (None, Some (not_available alert_ActionType)) |}.

Definition ex_issue_engine : RuleActionsEngine (Z * list Z) ProtoEntity :=
  {| rae_actions :=
       <[alert_ActionType := ex_alert_off]>
         {[remediate_ActionType := @issue.action _ ex_issue_templates issue_json ex_issue]} |}.

Example issue_lifecycle_witness :
  ∃ row row', let ent := PbRepository "acme" "app" "main" in
    evaluations ex_issue_engine ent (ex_params ex_cfg None None) None
      (Some <$> [NewErrEvaluationFailed "f"; NewErrEvaluationFailed "f"]) (7, [])
      = ((8, [7]), Ok (Some row)) ∧
    @open_issue issue_json 7 row ∧
    evaluate ex_issue_engine ent (ex_params ex_cfg None None) (Some row) None (8, [7])
      = ((8, []), Ok (Some row')) ∧
    row_RemStatus row' = RemediationStatusSkipped.
Proof.
  apply (@issue_lifecycle _ ex_issue_templates issue_json ex_issue_engine ex_alert_off ex_issue
    "acme" "app" "main" (ex_params ex_cfg None None) "fix app" "b app"
    (NewErrEvaluationFailed "f") [NewErrEvaluationFailed "f"] 7 7 (7, []) (8, [7]) (8, [])).
  - simpl. rewrite lookup_insert_ne by done. apply lookup_singleton_eq.
  - apply lookup_insert_eq.
  - reflexivity.
  - reflexivity.
  - reflexivity.
  - reflexivity.
  - repeat constructor.
  - reflexivity.
  - vm_compute. split; discriminate.
  - discriminate.
  - vm_compute. reflexivity.
Defined.
