(* ===== verification/EntityEvent.v ===== *)
(** * Entity events: internal/engine/entities/entity_event.go

    The wrapper that carries an entity through the event bus and its encoding
    into the metadata and the payload of a watermill message.  The JSON of the
    protobuf messages (protojson) is a parameter. *)

From S2P Require Import Prelude GoErrors GoMonad GoStrings Uuid DbTypes.
Local Open Scope string_scope.

(** ** Messages *)

(** A [message.Message]; [Metadata.Get] gives the empty string for a key that
    is missing. *)
Record message := {
  msg_UUID : string;
  msg_Metadata : gmap string string;
  msg_Payload : string;
}.

Definition Metadata_Get (msg : message) (key : string) : string :=
  default "" (msg_Metadata msg !! key).

Definition Metadata_Set (msg : message) (key value : string) : message :=
  {| msg_UUID := msg_UUID msg; msg_Metadata := <[key := value]> (msg_Metadata msg);
     msg_Payload := msg_Payload msg |}.

(** The message types the wrapper carries, and a message of one. *)
Inductive pkind := KRepository | KArtifact | KPullRequest | KEntityInstance.

#[export] Instance pkind_eq_dec : EqDecision pkind.
Proof. solve_decision. Defined.

Record ProtoMessage := { pm_kind : pkind; pm_fields : any }.

(** [protojson.Marshal] and [protojson.Unmarshal] into a message of a kind. *)
Class ProtoJSON := {
  protojson_Marshal : ProtoMessage → string + gerr;
  protojson_Unmarshal : pkind → string → ProtoMessage + gerr;
  protojson_roundtrip : ∀ m s,
    protojson_Marshal m = inl s → protojson_Unmarshal (pm_kind m) s = inl m;
}.

Definition EntityTypeEventKey : string := "entity_type".
Definition EntityIDEventKey : string := "entity_id".
Definition ProviderIDEventKey : string := "provider_id".
Definition ProjectIDEventKey : string := "project_id".
Definition repositoryIDEventKey : string := "repository_id".
Definition artifactIDEventKey : string := "artifact_id".
Definition pullRequestIDEventKey : string := "pull_request_id".
Definition ExecutionIDKey : string := "execution_id".

Record EntityInfoWrapper := {
  eiw_ProviderID : UUID;
  eiw_ProjectID : UUID;
  eiw_EntityID : UUID;
  eiw_Entity : option ProtoMessage;
  eiw_Type : Entity;
  eiw_OwnershipData : gmap string string;
  eiw_ExecutionID : option UUID;
  eiw_ActionEvent : string;
}.

(** ** Builders *)

Definition NewEntityInfoWrapper : EntityInfoWrapper :=
  {| eiw_ProviderID := uuid_Nil; eiw_ProjectID := uuid_Nil; eiw_EntityID := uuid_Nil;
     eiw_Entity := None; eiw_Type := Entity_ENTITY_UNSPECIFIED; eiw_OwnershipData := ∅;
     eiw_ExecutionID := None; eiw_ActionEvent := "" |}.

Definition WithProviderID (id : UUID) (e : EntityInfoWrapper) : EntityInfoWrapper :=
  {| eiw_ProviderID := id; eiw_ProjectID := eiw_ProjectID e; eiw_EntityID := eiw_EntityID e;
     eiw_Entity := eiw_Entity e; eiw_Type := eiw_Type e;
     eiw_OwnershipData := eiw_OwnershipData e; eiw_ExecutionID := eiw_ExecutionID e;
     eiw_ActionEvent := eiw_ActionEvent e |}.

Definition WithProjectID (id : UUID) (e : EntityInfoWrapper) : EntityInfoWrapper :=
  {| eiw_ProviderID := eiw_ProviderID e; eiw_ProjectID := id; eiw_EntityID := eiw_EntityID e;
     eiw_Entity := eiw_Entity e; eiw_Type := eiw_Type e;
     eiw_OwnershipData := eiw_OwnershipData e; eiw_ExecutionID := eiw_ExecutionID e;
     eiw_ActionEvent := eiw_ActionEvent e |}.

Definition WithID (id : UUID) (e : EntityInfoWrapper) : EntityInfoWrapper :=
  {| eiw_ProviderID := eiw_ProviderID e; eiw_ProjectID := eiw_ProjectID e;
     eiw_EntityID := id; eiw_Entity := eiw_Entity e; eiw_Type := eiw_Type e;
     eiw_OwnershipData := eiw_OwnershipData e; eiw_ExecutionID := eiw_ExecutionID e;
     eiw_ActionEvent := eiw_ActionEvent e |}.

Definition WithExecutionID (id : UUID) (e : EntityInfoWrapper) : EntityInfoWrapper :=
  {| eiw_ProviderID := eiw_ProviderID e; eiw_ProjectID := eiw_ProjectID e;
     eiw_EntityID := eiw_EntityID e; eiw_Entity := eiw_Entity e; eiw_Type := eiw_Type e;
     eiw_OwnershipData := eiw_OwnershipData e; eiw_ExecutionID := Some id;
     eiw_ActionEvent := eiw_ActionEvent e |}.

Definition WithProtoMessage (t : Entity) (m : option ProtoMessage) (e : EntityInfoWrapper)
    : EntityInfoWrapper :=
  {| eiw_ProviderID := eiw_ProviderID e; eiw_ProjectID := eiw_ProjectID e;
     eiw_EntityID := eiw_EntityID e; eiw_Entity := m; eiw_Type := t;
     eiw_OwnershipData := eiw_OwnershipData e; eiw_ExecutionID := eiw_ExecutionID e;
     eiw_ActionEvent := eiw_ActionEvent e |}.

Definition WithArtifact (va : ProtoMessage) := WithProtoMessage Entity_ENTITY_ARTIFACTS (Some va).
Definition WithRepository (r : ProtoMessage) :=
  WithProtoMessage Entity_ENTITY_REPOSITORIES (Some r).
Definition WithPullRequest (p : ProtoMessage) :=
  WithProtoMessage Entity_ENTITY_PULL_REQUESTS (Some p).
Definition WithEntityInstance (etyp : Entity) (ei : ProtoMessage) :=
  WithProtoMessage etyp (Some ei).

(** [eiw.OwnershipData[key] = id] *)
Definition set_ownership (key id : string) (e : EntityInfoWrapper) : EntityInfoWrapper :=
  {| eiw_ProviderID := eiw_ProviderID e; eiw_ProjectID := eiw_ProjectID e;
     eiw_EntityID := eiw_EntityID e; eiw_Entity := eiw_Entity e; eiw_Type := eiw_Type e;
     eiw_OwnershipData := <[key := id]> (eiw_OwnershipData e);
     eiw_ExecutionID := eiw_ExecutionID e; eiw_ActionEvent := eiw_ActionEvent e |}.

(** An empty message of a kind, the target of the unmarshalling. *)
Definition empty_proto (k : pkind) : ProtoMessage := {| pm_kind := k; pm_fields := Any "" |}.

Definition AsRepository :=
  WithProtoMessage Entity_ENTITY_REPOSITORIES (Some (empty_proto KRepository)).
Definition AsArtifact := WithProtoMessage Entity_ENTITY_ARTIFACTS (Some (empty_proto KArtifact)).
Definition AsPullRequest :=
  WithProtoMessage Entity_ENTITY_PULL_REQUESTS (Some (empty_proto KPullRequest)).
Definition AsEntityInstance (t : Entity) :=
  WithProtoMessage t (Some (empty_proto KEntityInstance)).

Section events.
Context `{UuidLib} `{ProtoJSON}.

(** ** Encoding: the message is changed in place, also when an error is
    returned. *)

Definition ToMessage (eiw : EntityInfoWrapper) (msg : message) : message * error :=
  let typ := ToString (eiw_Type eiw) in
  if bool_decide (eiw_ProjectID eiw = uuid_Nil)
  then (msg, Some (EText "project ID is required"))
  else if bool_decide (eiw_ProviderID eiw = uuid_Nil)
  then (msg, Some (EText "provider ID is required"))
  else
    let msg := if bool_decide (eiw_EntityID eiw = uuid_Nil) then msg
               else Metadata_Set msg EntityIDEventKey (uuid_String (eiw_EntityID eiw)) in
    let msg := match eiw_ExecutionID eiw with
               | None => msg
               | Some id => Metadata_Set msg ExecutionIDKey (uuid_String id)
               end in
    if bool_decide (eiw_Type eiw = Entity_ENTITY_UNSPECIFIED)
    then (msg, Some (EText "entity type is required"))
    else match eiw_Entity eiw with
         | None => (msg, Some (EText "no entity set"))
         | Some entity =>
             let msg := Metadata_Set msg ProviderIDEventKey
                          (uuid_String (eiw_ProviderID eiw)) in
             let msg := Metadata_Set msg EntityTypeEventKey typ in
             let msg := Metadata_Set msg ProjectIDEventKey
                          (uuid_String (eiw_ProjectID eiw)) in
             let meta := eiw_OwnershipData eiw ∪ msg_Metadata msg in
             match protojson_Marshal entity with
             | inl s => ({| msg_UUID := msg_UUID msg; msg_Metadata := meta;
                           msg_Payload := s |}, None)
             | inr e => ({| msg_UUID := msg_UUID msg; msg_Metadata := meta;
                            msg_Payload := "" |},
                         Some (EWrap "error marshalling repository: " e ""))
             end
         end.

(** [newid] is the outcome of [uuid.NewUUID()]. *)
Definition BuildMessage (newid : res UUID) (eiw : EntityInfoWrapper) : res message :=
  id ← wrapf_res "error generating UUID: " newid;
  match ToMessage eiw {| msg_UUID := uuid_String id; msg_Metadata := ∅; msg_Payload := "" |} with
  | (msg, None) => Ok msg
  | (_, Some e) => Err e
  end.

(** ** Reading an id *)

Definition getEntityMetadataKey (t : Entity) : res string :=
  if bool_decide (t = Entity_ENTITY_REPOSITORIES) then Ok repositoryIDEventKey
  else if bool_decide (t = Entity_ENTITY_ARTIFACTS) then Ok artifactIDEventKey
  else if bool_decide (t = Entity_ENTITY_PULL_REQUESTS) then Ok pullRequestIDEventKey
  else if bool_decide (t = Entity_ENTITY_UNSPECIFIED)
  then Err (EText "entity type unspecified")
  else Err (EText "unknown or unsupported entity type").

(** [MustParse] panics on an id that is not a UUID. *)
Definition getIDForEntityType (eiw : EntityInfoWrapper) (t : Entity)
    : res (option UUID) :=
  match getEntityMetadataKey t with
  | Ok key =>
      match eiw_OwnershipData eiw !! key with
      | Some id => Some <$> uuid_MustParse id
      | None => Ok None
      end
  | _ => Ok None
  end.

Definition GetID (eiw : option EntityInfoWrapper) : res UUID :=
  match eiw with
  | None => Err (EText "no entity info wrapper")
  | Some eiw =>
      if bool_decide (eiw_EntityID eiw ≠ uuid_Nil) then Ok (eiw_EntityID eiw)
      else
        id ← getIDForEntityType eiw (eiw_Type eiw);
        match id with
        | Some id => Ok id
        | None => Err (EText "no entity ID found")
        end
  end.

(** ** Decoding *)

(** A UUID of the metadata that has to be there. *)
Definition get_uuid (msg : message) (key : string) (onErr : string → gerr → gerr)
    : res UUID :=
  let raw := Metadata_Get msg key in
  if String.eqb raw "" then Err (EText (key +:+ " not found in metadata"))
  else match uuid_Parse raw with
       | Ok id => Ok id
       | Err e => Err (onErr raw e)
       | Panic m => Panic m
       end.

Definition withProjectIDFromMessage (msg : message) (e : EntityInfoWrapper)
    : res EntityInfoWrapper :=
  id ← get_uuid msg ProjectIDEventKey (λ _ err, EWrap "error parsing project ID: " err "");
  Ok (WithProjectID id e).

Definition withProviderIDFromMessage (msg : message) (e : EntityInfoWrapper)
    : res EntityInfoWrapper :=
  id ← get_uuid msg ProviderIDEventKey (λ raw _, EText ("malformed provider id " +:+ raw));
  Ok (WithProviderID id e).

Definition withEntityInstanceIDFromMessage (msg : message) (e : EntityInfoWrapper)
    : res EntityInfoWrapper :=
  id ← get_uuid msg EntityIDEventKey (λ raw _, EText ("malformed entity id " +:+ raw));
  Ok (WithID id e).

Definition WithExecutionIDFromMessage (msg : message) (e : EntityInfoWrapper)
    : res EntityInfoWrapper :=
  id ← get_uuid msg ExecutionIDKey (λ _ err, EWrap "error parsing execution ID: " err "");
  Ok (WithExecutionID id e).

Definition getIDFromMessage (msg : message) (key : string) : res string :=
  let raw := Metadata_Get msg key in
  if String.eqb raw "" then Err (EText (key +:+ " not found in metadata")) else Ok raw.

Definition withIDFromMessage (msg : message) (key : string) (e : EntityInfoWrapper)
    : res EntityInfoWrapper :=
  id ← wrapf_res ("error parsing " +:+ key +:+ ": ") (getIDFromMessage msg key);
  Ok (set_ownership key id e).

(** A step whose error is logged or dropped: the wrapper stays. *)
Definition or_keep {A} (r : res A) (a : A) : A :=
  match r with Ok a' => a' | _ => a end.

Definition unmarshalEntity (msg : message) (e : EntityInfoWrapper) : res EntityInfoWrapper :=
  match eiw_Entity e with
  | None => Err (EText "nil message")
  | Some m =>
      match protojson_Unmarshal (pm_kind m) (msg_Payload msg) with
      | inl m' => Ok (WithProtoMessage (eiw_Type e) (Some m') e)
      | inr err => Err err
      end
  end.

(** The entity and its id, by type. *)
Definition parseEntityOfType (msg : message) (strtyp : Entity) (out : EntityInfoWrapper)
    : res EntityInfoWrapper :=
  let noid := bool_decide (eiw_EntityID out = uuid_Nil) in
  if bool_decide (strtyp = Entity_ENTITY_REPOSITORIES) then
    let out := AsRepository out in
    if noid then withIDFromMessage msg repositoryIDEventKey out else Ok out
  else if bool_decide (strtyp = Entity_ENTITY_ARTIFACTS) then
    let out := AsArtifact out in
    if noid then
      out ← withIDFromMessage msg artifactIDEventKey out;
      Ok (or_keep (withIDFromMessage msg repositoryIDEventKey out) out)
    else Ok out
  else if bool_decide (strtyp = Entity_ENTITY_PULL_REQUESTS) then
    let out := AsPullRequest out in
    if noid then
      out ← withIDFromMessage msg pullRequestIDEventKey out;
      withIDFromMessage msg repositoryIDEventKey out
    else Ok out
  else if bool_decide (strtyp = Entity_ENTITY_UNSPECIFIED)
  then Err (EText "entity type unspecified")
  else if noid then Err (EText "entity ID not found")
  else withEntityInstanceIDFromMessage msg (AsEntityInstance strtyp out).

Definition ParseEntityEvent (msg : message) : res EntityInfoWrapper :=
  out ← withProjectIDFromMessage msg NewEntityInfoWrapper;
  out ← withProviderIDFromMessage msg out;
  let out := or_keep (withEntityInstanceIDFromMessage msg out) out in
  let strtyp := EntityFromString (Metadata_Get msg EntityTypeEventKey) in
  out ← parseEntityOfType msg strtyp out;
  wrapf_res "error unmarshalling payload: " (unmarshalEntity msg out).
End events.

(** The kind of message the decoder expects for an entity type. *)
Definition kind_of_type (t : Entity) : pkind :=
  if bool_decide (t = Entity_ENTITY_REPOSITORIES) then KRepository
  else if bool_decide (t = Entity_ENTITY_ARTIFACTS) then KArtifact
  else if bool_decide (t = Entity_ENTITY_PULL_REQUESTS) then KPullRequest
  else KEntityInstance.

(** The keys the encoder itself sets. *)
Definition reserved_keys : list string :=
  [EntityTypeEventKey; EntityIDEventKey; ProviderIDEventKey; ProjectIDEventKey; ExecutionIDKey].

(** ** Lemmas *)

Lemma Metadata_Get_Set msg k v : Metadata_Get (Metadata_Set msg k v) k = v.
Proof. unfold Metadata_Get. simpl. by rewrite lookup_insert_eq. Qed.

Lemma Metadata_Get_Set_ne msg k k' v :
  k ≠ k' → Metadata_Get (Metadata_Set msg k v) k' = Metadata_Get msg k'.
Proof. intros. unfold Metadata_Get. simpl. by rewrite lookup_insert_ne. Qed.

Section event_lemmas.
Context `{UuidLib} `{ProtoJSON}.

Lemma get_uuid_String msg key f id :
  Metadata_Get msg key = uuid_String id → get_uuid msg key f = Ok id.
Proof.
  intros Hm. unfold get_uuid. rewrite Hm.
  rewrite (proj2 (String.eqb_neq _ _)) by apply uuid_String_nonempty.
  by rewrite uuid_Parse_String.
Qed.

(** What a successful encoding leaves in the message. *)
Lemma ToMessage_fields eiw msg msg' :
  (∀ k, k ∈ reserved_keys → eiw_OwnershipData eiw !! k = None) →
  ToMessage eiw msg = (msg', None) →
  Metadata_Get msg' ProjectIDEventKey = uuid_String (eiw_ProjectID eiw) ∧
  Metadata_Get msg' ProviderIDEventKey = uuid_String (eiw_ProviderID eiw) ∧
  Metadata_Get msg' EntityTypeEventKey = ToString (eiw_Type eiw) ∧
  (eiw_EntityID eiw ≠ uuid_Nil →
     Metadata_Get msg' EntityIDEventKey = uuid_String (eiw_EntityID eiw)) ∧
  (∀ id, eiw_ExecutionID eiw = Some id →
     Metadata_Get msg' ExecutionIDKey = uuid_String id) ∧
  eiw_ProjectID eiw ≠ uuid_Nil ∧ eiw_ProviderID eiw ≠ uuid_Nil ∧
  ∃ m, eiw_Entity eiw = Some m ∧ protojson_Marshal m = inl (msg_Payload msg').
Proof.
  intros Hown. unfold ToMessage.
  case_bool_decide as Hproj; [done|]. case_bool_decide as Hprov; [done|].
  case_bool_decide as Htype; [done|].
  destruct (eiw_Entity eiw) as [m|]; [|done].
  destruct (protojson_Marshal m) as [s|e] eqn:Hm; [|done]. intros [= <-].
  assert (∀ k, k ∈ reserved_keys → ∀ (g : gmap string string) u p,
    Metadata_Get {| msg_UUID := u; msg_Metadata := eiw_OwnershipData eiw ∪ g;
                    msg_Payload := p |} k = default "" (g !! k)) as Hget.
  { intros k Hk g u p. unfold Metadata_Get. cbn [msg_Metadata].
    rewrite lookup_union_r by auto. done. }
  rewrite !Hget by (unfold reserved_keys; set_solver). cbn [Metadata_Set msg_Metadata].
  split_and!; try done.
  - by rewrite lookup_insert_eq.
  - by rewrite !(lookup_insert_ne _ ProjectIDEventKey), lookup_insert_ne, lookup_insert_eq.
  - by rewrite lookup_insert_ne, lookup_insert_eq.
  - intros Hid. rewrite !lookup_insert_ne by done.
    rewrite bool_decide_eq_false_2 by done.
    destruct (eiw_ExecutionID eiw); cbn [Metadata_Set msg_Metadata];
      rewrite ?lookup_insert_ne by done; by rewrite lookup_insert_eq.
  - intros id Hid. rewrite !lookup_insert_ne by done. rewrite Hid.
    cbn [Metadata_Set msg_Metadata]. by rewrite lookup_insert_eq.
  - by exists m.
Qed.

Lemma valid_type_roundtrip t :
  IsValid t = true → EntityFromString (ToString t) = t ∧ t ≠ Entity_ENTITY_UNSPECIFIED.
Proof. intros Ht. entity_cases Ht; by vm_compute. Qed.

(** Decoding returns or fails; it does not panic. *)
Lemma get_uuid_no_panic msg key f m : get_uuid msg key f ≠ Panic m.
Proof.
  unfold get_uuid. case_goal; [done|]. destruct (uuid_Parse _) eqn:Hp; [done|done|].
  by apply uuid_Parse_no_panic in Hp.
Qed.

Lemma withIDFromMessage_no_panic msg key e m : withIDFromMessage msg key e ≠ Panic m.
Proof. unfold withIDFromMessage, getIDFromMessage. by case_goal. Qed.

Lemma res_bind_no_panic {A B} (r : res A) (f : A → res B) :
  (∀ m, r ≠ Panic m) → (∀ a m, f a ≠ Panic m) → ∀ m, (r ≫= f) ≠ Panic m.
Proof.
  intros Hr Hf m. destruct r as [a|e|m0]; simpl; [apply Hf|done|].
  intros _. by apply (Hr m0).
Qed.

Lemma parseEntityOfType_no_panic msg t out m : parseEntityOfType msg t out ≠ Panic m.
Proof.
  unfold parseEntityOfType. repeat case_goal; try done;
    try apply withIDFromMessage_no_panic.
  - apply res_bind_no_panic; [apply withIDFromMessage_no_panic|done].
  - apply res_bind_no_panic; [apply withIDFromMessage_no_panic|].
    intros. apply withIDFromMessage_no_panic.
  - apply res_bind_no_panic; [intros; apply get_uuid_no_panic|done].
Qed.

Lemma ParseEntityEvent_no_panic msg m : ParseEntityEvent msg ≠ Panic m.
Proof.
  unfold ParseEntityEvent. apply res_bind_no_panic.
  { apply res_bind_no_panic; [intros; apply get_uuid_no_panic|done]. }
  intros out. apply res_bind_no_panic.
  { apply res_bind_no_panic; [intros; apply get_uuid_no_panic|done]. }
  intros out'. apply res_bind_no_panic; [intros; apply parseEntityOfType_no_panic|].
  intros a m'. unfold unmarshalEntity. destruct (eiw_Entity a); [|done].
  by destruct (protojson_Unmarshal _ _).
Qed.

Lemma parse_valid_type msg t m (out : EntityInfoWrapper) :
  IsValid t = true → eiw_EntityID out ≠ uuid_Nil →
  pm_kind m = kind_of_type t → protojson_Marshal m = inl (msg_Payload msg) →
  Metadata_Get msg EntityIDEventKey = uuid_String (eiw_EntityID out) →
  (out ← parseEntityOfType msg t out;
   wrapf_res "error unmarshalling payload: " (unmarshalEntity msg out))
  = Ok (WithProtoMessage t (Some m) out).
Proof.
  intros Ht Hid Hk Hs Hget. apply protojson_roundtrip in Hs.
  unfold parseEntityOfType. rewrite (bool_decide_eq_false_2 (eiw_EntityID out = uuid_Nil)) by done.
  unfold withEntityInstanceIDFromMessage. rewrite (get_uuid_String _ _ _ _ Hget).
  entity_cases Ht; cbv -[pm_kind] in Hk; rewrite Hk in Hs; bool_consts;
    unfold mbind, res_bind, unmarshalEntity; cbn; by rewrite Hs.
Qed.
End event_lemmas.

Lemma ToMessage_roundtrip `{UuidLib} `{ProtoJSON} eiw msg m s :
  IsValid (eiw_Type eiw) = true →
  eiw_ProjectID eiw ≠ uuid_Nil → eiw_ProviderID eiw ≠ uuid_Nil →
  eiw_EntityID eiw ≠ uuid_Nil →
  eiw_Entity eiw = Some m → pm_kind m = kind_of_type (eiw_Type eiw) →
  protojson_Marshal m = inl s →
  (∀ k, k ∈ reserved_keys → eiw_OwnershipData eiw !! k = None) →
  ∃ msg', ToMessage eiw msg = (msg', None) ∧
    let out := {| eiw_ProviderID := eiw_ProviderID eiw; eiw_ProjectID := eiw_ProjectID eiw;
                  eiw_EntityID := eiw_EntityID eiw; eiw_Entity := Some m;
                  eiw_Type := eiw_Type eiw; eiw_OwnershipData := ∅;
                  eiw_ExecutionID := None; eiw_ActionEvent := "" |} in
    ParseEntityEvent msg' = Ok out ∧ GetID (Some out) = Ok (eiw_EntityID eiw) ∧
    (∀ x, eiw_ExecutionID eiw = Some x →
       WithExecutionIDFromMessage msg' out = Ok (WithExecutionID x out)).
Proof.
  intros Ht Hproj Hprov Hid Hm Hk Hs Hown.
  destruct (valid_type_roundtrip _ Ht) as [Hts Hunspec].
  destruct (ToMessage eiw msg) as [msg' err] eqn:Hto.
  assert (err = None) as ->.
  { unfold ToMessage in Hto. rewrite !bool_decide_eq_false_2 in Hto by done.
    rewrite Hm, Hs in Hto. by injection Hto as _ <-. }
  exists msg'. split; [done|]. cbv zeta.
  destruct (ToMessage_fields _ _ _ Hown Hto)
    as (H1 & H2 & H3 & H4 & H5 & _ & _ & m' & Hm' & Hs').
  rewrite Hm in Hm'. injection Hm' as <-. split_and!.
  - unfold ParseEntityEvent, withProjectIDFromMessage, withProviderIDFromMessage,
      withEntityInstanceIDFromMessage.
    rewrite (get_uuid_String _ _ _ _ H1), (get_uuid_String _ _ _ _ H2),
      (get_uuid_String _ _ _ _ (H4 Hid)). unfold mbind, res_bind. cbn [or_keep].
    rewrite H3, Hts.
    refine (parse_valid_type msg' (eiw_Type eiw) m
      (WithID (eiw_EntityID eiw) (WithProviderID (eiw_ProviderID eiw)
        (WithProjectID (eiw_ProjectID eiw) NewEntityInfoWrapper))) Ht Hid Hk Hs' (H4 Hid)).
  - unfold GetID. cbn [eiw_EntityID]. by rewrite bool_decide_eq_true_2.
  - intros x Hx. unfold WithExecutionIDFromMessage.
    by rewrite (get_uuid_String _ _ _ _ (H5 x Hx)).
Qed.

(** C34: an event survives the bus.  A wrapper with a valid entity type, an
    entity id and an entity of the kind the type calls for, whose ownership
    data do not shadow the encoder's own keys, is encoded without error as soon
    as its message marshals; decoding the message gives back its provider,
    project, entity id, type and entity, and the execution id is read back
    too. *)
Theorem event_roundtrip `{UuidLib} `{ProtoJSON} eiw msg m s :
  IsValid (eiw_Type eiw) = true →
  eiw_ProjectID eiw ≠ uuid_Nil → eiw_ProviderID eiw ≠ uuid_Nil →
  eiw_EntityID eiw ≠ uuid_Nil →
  eiw_Entity eiw = Some m → pm_kind m = kind_of_type (eiw_Type eiw) →
  protojson_Marshal m = inl s →
  (∀ k, k ∈ reserved_keys → eiw_OwnershipData eiw !! k = None) →
  ∃ msg', ToMessage eiw msg = (msg', None) ∧
    let out := {| eiw_ProviderID := eiw_ProviderID eiw; eiw_ProjectID := eiw_ProjectID eiw;
                  eiw_EntityID := eiw_EntityID eiw; eiw_Entity := Some m;
                  eiw_Type := eiw_Type eiw; eiw_OwnershipData := ∅;
                  eiw_ExecutionID := None; eiw_ActionEvent := "" |} in
    ParseEntityEvent msg' = Ok out ∧ GetID (Some out) = Ok (eiw_EntityID eiw) ∧
    (∀ x, eiw_ExecutionID eiw = Some x →
       WithExecutionIDFromMessage msg' out = Ok (WithExecutionID x out)).
Proof. apply ToMessage_roundtrip. Qed.

(** Encoding fails exactly on an incomplete wrapper: without a project, a
    provider, a type or an entity, or with an entity that does not marshal. *)
Theorem ToMessage_complete `{UuidLib} `{ProtoJSON} eiw msg :
  (ToMessage eiw msg).2 = None ↔
  eiw_ProjectID eiw ≠ uuid_Nil ∧ eiw_ProviderID eiw ≠ uuid_Nil ∧
  eiw_Type eiw ≠ Entity_ENTITY_UNSPECIFIED ∧
  ∃ m s, eiw_Entity eiw = Some m ∧ protojson_Marshal m = inl s.
Proof.
  unfold ToMessage. cbv zeta.
  case_bool_decide; [split; [discriminate|tauto]|].
  case_bool_decide; [split; [discriminate|tauto]|].
  case_bool_decide; [split; [discriminate|tauto]|].
  destruct (eiw_Entity eiw) as [m|]; [|split; [discriminate|by intros (?&?&?&?&?&?&?)]].
  destruct (protojson_Marshal m) as [s|e] eqn:Hm.
  - split; [|done]. intros _. split_and!; eauto.
  - split; [discriminate|]. intros (_ & _ & _ & m' & s & [= <-] & Hs). congruence.
Qed.

(** A legacy event with a malformed id is accepted by the decoder and then
    panics.  A repository message without an entity id whose [repository_id] is
    any non-empty text that is no UUID decodes without error, since only the
    presence of the id is checked, and reading the id of the decoded event
    panics in [MustParse]. *)
Theorem malformed_legacy_id_panics `{UuidLib} `{ProtoJSON} msg proj prov raw e m :
  Metadata_Get msg ProjectIDEventKey = uuid_String proj →
  Metadata_Get msg ProviderIDEventKey = uuid_String prov →
  Metadata_Get msg EntityIDEventKey = "" →
  Metadata_Get msg EntityTypeEventKey = "repository" →
  Metadata_Get msg repositoryIDEventKey = raw →
  raw ≠ "" → uuid_Parse raw = Err e →
  protojson_Unmarshal KRepository (msg_Payload msg) = inl m →
  ∃ out, ParseEntityEvent msg = Ok out ∧
    GetID (Some out) = Panic ("uuid: Parse(" +:+ raw +:+ ")").
Proof.
  intros H1 H2 H3 H4 H5 Hraw Hparse Hm. eexists. split.
  - unfold ParseEntityEvent, withProjectIDFromMessage, withProviderIDFromMessage,
      withEntityInstanceIDFromMessage.
    rewrite (get_uuid_String _ _ _ _ H1), (get_uuid_String _ _ _ _ H2).
    unfold get_uuid. rewrite H3, H4. unfold mbind, res_bind. cbn [or_keep String.eqb].
    change (EntityFromString "repository") with Entity_ENTITY_REPOSITORIES.
    unfold parseEntityOfType. bool_consts. cbn. bool_consts. cbv iota.
    unfold withIDFromMessage, getIDFromMessage.
    rewrite H5. apply String.eqb_neq in Hraw as ->. unfold mbind, res_bind. cbn.
    unfold unmarshalEntity. cbn. rewrite Hm. reflexivity.
  - cbn. bool_consts. cbv iota. unfold getIDForEntityType, getEntityMetadataKey.
    bool_consts. cbn [eiw_OwnershipData WithProtoMessage set_ownership].
    rewrite lookup_insert_eq. unfold uuid_MustParse. by rewrite Hparse.
Qed.

(** ** Witnesses *)

(** A codec that writes the fields. *)
Definition plain_protojson : ProtoJSON :=
  {| protojson_Marshal := λ m, inl (any_repr (pm_fields m));
     protojson_Unmarshal := λ k s, inl {| pm_kind := k; pm_fields := Any s |};
     protojson_roundtrip := ltac:(by intros [k [f]] s [= <-]) |}.

Definition ex_event : EntityInfoWrapper :=
  {| eiw_ProviderID := 1%N; eiw_ProjectID := 2%N; eiw_EntityID := 3%N;
     eiw_Entity := Some {| pm_kind := KArtifact; pm_fields := Any "art" |};
     eiw_Type := Entity_ENTITY_ARTIFACTS; eiw_OwnershipData := {["repository_id" := "9"]};
     eiw_ExecutionID := Some 4%N; eiw_ActionEvent := "created" |}.

Definition ex_message (meta : gmap string string) (payload : string) : message :=
  {| msg_UUID := "u"; msg_Metadata := meta; msg_Payload := payload |}.

Example event_roundtrip_witness :
  ∃ msg', @ToMessage decimal_uuid plain_protojson ex_event (ex_message ∅ "") = (msg', None) ∧
    let out := {| eiw_ProviderID := 1%N; eiw_ProjectID := 2%N; eiw_EntityID := 3%N;
                  eiw_Entity := Some {| pm_kind := KArtifact; pm_fields := Any "art" |};
                  eiw_Type := Entity_ENTITY_ARTIFACTS; eiw_OwnershipData := ∅;
                  eiw_ExecutionID := None; eiw_ActionEvent := "" |} in
    @ParseEntityEvent decimal_uuid plain_protojson msg' = Ok out ∧
    @GetID decimal_uuid (Some out) = Ok 3%N ∧
    (∀ x, Some 4%N = Some x →
       @WithExecutionIDFromMessage decimal_uuid msg' out = Ok (WithExecutionID x out)).
Proof.
  refine (@event_roundtrip decimal_uuid plain_protojson ex_event (ex_message ∅ "")
    {| pm_kind := KArtifact; pm_fields := Any "art" |} "art" _ _ _ _ _ _ _ _);
    try reflexivity; try discriminate.
  intros k Hk. list_cases Hk; reflexivity.
Defined.

Example malformed_legacy_id_panics_witness :
  let msg := ex_message {["project_id" := "2"; "provider_id" := "1";
               "entity_type" := "repository"; "repository_id" := "not-a-uuid"]} "repo" in
  ∃ out, @ParseEntityEvent decimal_uuid plain_protojson msg = Ok out ∧
    @GetID decimal_uuid (Some out) = Panic "uuid: Parse(not-a-uuid)".
Proof.
  exact (@malformed_legacy_id_panics decimal_uuid plain_protojson
    (ex_message {["project_id" := "2"; "provider_id" := "1";
               "entity_type" := "repository"; "repository_id" := "not-a-uuid"]} "repo")
    2%N 1%N "not-a-uuid" (EText "invalid UUID")
    {| pm_kind := KRepository; pm_fields := Any "repo" |}
    eq_refl eq_refl eq_refl eq_refl eq_refl ltac:(discriminate) eq_refl eq_refl).
Defined.
