(* ===== verification/Properties.v ===== *)
(** * Properties of entities

    pkg/entities/properties/properties.go: a property is a [structpb.Value] with
    typed getters; 64-bit integers, which the numbers of protobuf cannot hold,
    are wrapped as a structure of two strings.  The conversions of structpb are
    an interface. *)

From S2P Require Import Prelude GoErrors GoMonad GoStrings.
From Stdlib Require Import SpecFloat Ascii.
Local Open Scope string_scope.

(** ** Values *)

(** A Go value of dynamic type, as far as the conversions tell them apart. *)
#[warnings="-register-all"]
Inductive goval :=
| GNil
| GBool (b : bool)
| GInt (z : Z)
| GInt64 (z : Z)
| GUint64 (z : Z)
| GFloat64 (f : spec_float)
| GString (s : string)
| GMap (m : gmap string goval)
| GSlice (l : list goval)
| GOther (type : string).

(** A [structpb.Value] by the kind it holds; a [float64] is an IEEE number of
    53 bits. *)
#[warnings="-register-all"]
Inductive Value :=
| NullValue
| NumberValue (f : spec_float)
| StringValue (s : string)
| BoolValue (b : bool)
| StructValue (fields : gmap string Value)
| ListValue (values : list Value).

(** [float64(z)], rounded to the nearest even. *)
Definition float64_of_int (z : Z) : spec_float := binary_normalize 53 1024 z 0 false.

(** The integer part of a finite number. *)
Definition trunc (f : spec_float) : option Z :=
  match f with
  | S754_zero _ => Some 0%Z
  | S754_finite s m e =>
      let a := (if (0 <=? e)%Z then Z.shiftl (Zpos m) e else Z.shiftr (Zpos m) (- e))%Z in
      Some (if s then - a else a)%Z
  | S754_infinity _ | S754_nan => None
  end.

Definition ascii_string (s : string) : bool :=
  forallb (λ c, (nat_of_ascii c <? 128)%nat) (String.list_ascii_of_string s).

(** google.golang.org/protobuf: [structpb.NewValue], [Value.AsInterface],
    [proto.Equal]; and what the conversion of a float to an integer that cannot
    hold it gives, which the language leaves to the implementation. *)
Class Structpb := {
  utf8_ValidString : string → bool;
  structpb_NewValue : goval → Value + gerr;
  AsInterface : Value → goval;
  proto_Equal : Value → Value → bool;
  float_overflow : spec_float → Z;
  (** the conversions of the documentation's table *)
  NewValue_nil : structpb_NewValue GNil = inl NullValue;
  NewValue_bool : ∀ b, structpb_NewValue (GBool b) = inl (BoolValue b);
  NewValue_int : ∀ z, structpb_NewValue (GInt z) = inl (NumberValue (float64_of_int z));
  NewValue_float : ∀ f, structpb_NewValue (GFloat64 f) = inl (NumberValue f);
  NewValue_string : ∀ s, utf8_ValidString s = true →
    structpb_NewValue (GString s) = inl (StringValue s);
  NewValue_map : ∀ m : gmap string string,
    map_Forall (λ k s, utf8_ValidString k = true ∧ utf8_ValidString s = true) m →
    structpb_NewValue (GMap (GString <$> m)) = inl (StructValue (StringValue <$> m));
  AsInterface_null : AsInterface NullValue = GNil;
  AsInterface_bool : ∀ b, AsInterface (BoolValue b) = GBool b;
  AsInterface_string : ∀ s, AsInterface (StringValue s) = GString s;
  AsInterface_number : ∀ f, trunc f ≠ None → AsInterface (NumberValue f) = GFloat64 f;
  AsInterface_struct : ∀ m, AsInterface (StructValue m) = GMap (AsInterface <$> m);
  (** decimal digits, signs and the names below are ASCII *)
  ascii_valid : ∀ s, ascii_string s = true →
    utf8_ValidString s = true;
}.

(** [GetStringValue], [GetBoolValue]: the zero value for another kind. *)
Definition GetStringValue (v : Value) : string := match v with StringValue s => s | _ => "" end.
Definition GetBoolValue (v : Value) : bool := match v with BoolValue b => b | _ => false end.

(** ** Property *)

Definition typeInt64 : string := "int64".
Definition typeUint64 : string := "uint64".
Definition internalPrefix : string := "minder.internal.".
Definition typeKey : string := "minder.internal.type".
Definition valueKey : string := "minder.internal.value".

Definition wrapped (key value : string) : gmap string string :=
  {[typeKey := key; valueKey := value]}.
Definition wrapKeyValue (key value : string) : goval := GMap (GString <$> wrapped key value).
Definition wrapInt64 (value : Z) : goval := wrapKeyValue typeInt64 (Strconv.FormatInt value).
Definition wrapUint64 (value : Z) : goval := wrapKeyValue typeUint64 (Strconv.FormatInt value).

Definition unwrapTypedValue (value : Value) (typ : string) : res string :=
  match value with
  | StructValue mapValue =>
      match mapValue !! typeKey with
      | None => Err (EText "type field not found")
      | Some typeVal =>
          if negb (String.eqb (GetStringValue typeVal) typ)
          then Err (EText ("value is not of type " +:+ typ))
          else match mapValue !! valueKey with
               | None => Err (EText "value field not found")
               | Some valPayload => Ok (GetStringValue valPayload)
               end
      end
  | _ => Err (EText "value is not a map")
  end.

(** What [strconv] says of a string that is not a number. *)
Definition parsed {A} (fn : string) (s : string) (r : option A) : res A :=
  match r with
  | Some z => Ok z
  | None => Err (EText ("strconv." +:+ fn +:+ ": parsing " +:+ s))
  end.

(** A [*Properties]: nil, or a map. *)
Abbreviation Properties := (option (gmap string Value)).

Section property.
Context `{Structpb}.

(** A [*Property] is an option of its value; [None] is nil. *)
Definition NewProperty (value : goval) : Value + gerr :=
  structpb_NewValue match value with
                    | GInt64 v => wrapInt64 v
                    | GUint64 v => wrapUint64 v
                    | v => v
                    end.

Definition nil_property {A} : res A := Err (EText "property is nil").

Definition AsBool (p : option Value) : res bool :=
  match p with
  | None => nil_property
  | Some v => match AsInterface v with
              | GBool b => Ok b
              | _ => Err (EText "value is not of type bool")
              end
  end.

Definition GetBool (p : option Value) : bool :=
  match p with None => false | Some v => GetBoolValue v end.

Definition AsString (p : option Value) : res string :=
  match p with
  | None => nil_property
  | Some v => match AsInterface v with
              | GString s => Ok s
              | _ => Err (EText "value is not of type string")
              end
  end.

Definition GetString (p : option Value) : string :=
  match p with None => "" | Some v => GetStringValue v end.

(** [int64(f)], [uint64(f)] *)
Definition int64_of_float (f : spec_float) : Z :=
  match trunc f with
  | Some z => if (Strconv.int64_min <=? z)%Z && (z <=? Strconv.int64_max)%Z then z
              else float_overflow f
  | None => float_overflow f
  end.
Definition uint64_of_float (f : spec_float) : Z :=
  match trunc f with
  | Some z => if (0 <=? z)%Z && (z <? 2 ^ 64)%Z then z else float_overflow f
  | None => float_overflow f
  end.

Definition AsInt64 (p : option Value) : res Z :=
  match p with
  | None => nil_property
  | Some value =>
      match value with
      | NumberValue f => Ok (int64_of_float f)
      | StringValue s => parsed "ParseInt" s (Strconv.ParseInt s)
      | StructValue _ =>
          stringVal ← wrapf_res "failed to get int64 value: " (unwrapTypedValue value typeInt64);
          parsed "ParseInt" stringVal (Strconv.ParseInt stringVal)
      | _ => Err (EText "failed to get int64 value from another kind")
      end
  end.

(** [GetInt64] and [GetUint64]: zero for every error. *)
Definition zero_on_error (r : res Z) : Z := match r with Ok z => z | _ => 0%Z end.
Definition GetInt64 (p : option Value) : Z := zero_on_error (AsInt64 p).

Definition AsUint64 (p : option Value) : res Z :=
  match p with
  | None => nil_property
  | Some value =>
      match value with
      | NumberValue f => Ok (uint64_of_float f)
      | StringValue s => parsed "ParseUint" s (Strconv.ParseUint s)
      | StructValue _ =>
          stringVal ← wrapf_res "failed to get uint64 value: "
                        (unwrapTypedValue value typeUint64);
          parsed "ParseUint" stringVal (Strconv.ParseUint stringVal)
      | _ => Err (EText "failed to get uint64 value from another kind")
      end
  end.
Definition GetUint64 (p : option Value) : Z := zero_on_error (AsUint64 p).

Definition RawValue (p : option Value) : goval :=
  match p with None => GNil | Some v => AsInterface v end.

Definition Equal (p other : option Value) : bool :=
  match p, other with
  | None, None => true
  | Some v, Some v' => proto_Equal v v'
  | _, _ => false
  end.

(** ** Properties *)

(** Keys with the internal prefix, unless told to keep them, and values that
    are no property are left out. *)
Definition NewProperties (props : gmap string goval) (skipPrefixCheck : bool) : Properties :=
  Some (map_imap (λ key value,
    if negb skipPrefixCheck && Strings.HasPrefix key internalPrefix then None
    else match NewProperty value with inl p => Some p | inr _ => None end) props).

Definition GetProperty (p : Properties) (key : string) : option Value :=
  match p with None => None | Some props => props !! key end.

(** Stores through the receiver; a nil [prop] is dereferenced. *)
Definition SetProperty (p : Properties) (key : string) (prop : option Value) : res Properties :=
  match p with
  | None => Ok None
  | Some props => match prop with
                  | Some v => Ok (Some (<[key := v]> props))
                  | None => Panic "invalid memory address or nil pointer dereference"
                  end
  end.

Definition SetKeyValue (p : Properties) (key : string) (value : goval) : res Properties :=
  match p with
  | None => Ok None
  | Some props =>
      match NewProperty value with
      | inl v => Ok (Some (<[key := v]> props))
      | inr err => Err (EWrap ("failed to create property for key " +:+ key +:+ ": ") err "")
      end
  end.

Definition FilteredCopy (p : Properties) (keep : string → option Value → bool) : Properties :=
  match p with
  | None => None
  | Some props => Some (filter (λ kv, Is_true (keep kv.1 (Some kv.2))) props)
  end.

Definition Merge (p other : Properties) : Properties :=
  match p, other with
  | None, _ => other
  | _, None => p
  | Some props, Some props' => Some (props' ∪ props)
  end.

(** A [*structpb.Struct] is its fields; [AsMap] of a nil one is empty. *)
Definition ToProtoStruct (p : Properties) : option (gmap string Value) := p.

Definition AsMap (s : option (gmap string Value)) : gmap string goval :=
  AsInterface <$> default ∅ s.

Definition Len (p : Properties) : Z :=
  match p with None => 0 | Some props => Z.of_nat (size props) end.
End property.

(** ** Integers as floats *)

Lemma digits_shift p q : (Zpos (digits2_pos (Pos.iter xO p q)) = Zpos (digits2_pos p) + Zpos q)%Z.
Proof.
  induction q as [|q IH] using Pos.peano_ind; [simpl; lia|].
  rewrite Pos.iter_succ. simpl digits2_pos. lia.
Qed.

Lemma shift_value p q : (Zpos (Pos.iter xO p q) = Zpos p * 2 ^ Zpos q)%Z.
Proof.
  induction q as [|q IH] using Pos.peano_ind; [simpl; lia|].
  rewrite Pos.iter_succ, Pos2Z.inj_xO, IH, Pos2Z.inj_succ, Z.pow_succ_r by lia. lia.
Qed.

Lemma digits_lower p : (2 ^ (Zpos (digits2_pos p) - 1) ≤ Zpos p)%Z.
Proof.
  induction p as [p IH|p IH|]; simpl digits2_pos; [..|done];
    rewrite Pos2Z.inj_succ; replace (Z.succ (Zpos (digits2_pos p)) - 1)%Z
      with (Z.succ (Zpos (digits2_pos p) - 1)) by lia;
    rewrite Z.pow_succ_r by lia; lia.
Qed.

Lemma digits_bound p n : (0 ≤ n)%Z → (Zpos p < 2 ^ n)%Z → (Zpos (digits2_pos p) ≤ n)%Z.
Proof.
  intros Hn Hp. pose proof (digits_lower p) as Hl.
  assert (Zpos (digits2_pos p) - 1 < n)%Z; [|lia].
  apply (Z.pow_lt_mono_r_iff 2); lia.
Qed.

(** A number of at most 53 digits, brought to 53, is stored as it is. *)
Lemma round_53 s p e :
  Zpos (digits2_pos p) = 53%Z → (-1074 ≤ e ≤ 971)%Z →
  binary_round_aux 53 1024 s (Zpos p) e loc_Exact = S754_finite s p e.
Proof.
  intros Hp He.
  assert (Hshr : shr_fexp 53 1024 (Zpos p) e loc_Exact
    = ({| shr_m := Zpos p; shr_r := false; shr_s := false |}, e)).
  { unfold shr_fexp, fexp, emin. simpl Zdigits2. rewrite Hp.
    replace (Z.max (53 + e - 53) (3 - 1024 - 53) - e)%Z with 0%Z by lia. done. }
  unfold binary_round_aux. rewrite Hshr. simpl round_nearest_even. rewrite Hshr. simpl shr_m.
  rewrite (proj2 (Z.leb_le _ _)); [done|lia].
Qed.

Lemma trunc_round s p :
  (Zpos p < 2 ^ 53)%Z →
  trunc (binary_round 53 1024 s p 0) = Some (if s then - Zpos p else Zpos p)%Z.
Proof.
  intros Hp. apply digits_bound in Hp; [|lia].
  unfold binary_round, fexp, emin. rewrite Z.add_0_r.
  replace (Z.max (Zpos (digits2_pos p) - 53) (3 - 1024 - 53))%Z
    with (Zpos (digits2_pos p) - 53)%Z by lia.
  destruct (Zpos (digits2_pos p) - 53)%Z as [|q|q] eqn:Hq.
  - change (shl_align p 0 0) with (p, 0%Z). cbv iota beta. rewrite round_53 by lia. done.
  - lia.
  - change (shl_align p 0 (Zneg q)) with (Pos.iter xO p q, Zneg q). cbv iota beta.
    rewrite round_53; [|rewrite digits_shift; lia|lia]. unfold trunc. simpl Z.leb. cbv iota zeta.
    rewrite Z.shiftr_div_pow2 by lia. rewrite shift_value.
    rewrite Z.div_mul; [done|]. apply Z.pow_nonzero; lia.
Qed.

Lemma trunc_float64_of_int z : (Z.abs z < 2 ^ 53)%Z → trunc (float64_of_int z) = Some z.
Proof.
  intros Hz. unfold float64_of_int, binary_normalize. destruct z as [|p|p]; [done|..];
    by rewrite trunc_round by lia.
Qed.

(** ** Typed values *)

Lemma string_of_uint_ascii u : ascii_string (DecimalString.NilEmpty.string_of_uint u) = true.
Proof. unfold ascii_string. induction u; simpl; rewrite ?IHu; done. Qed.

Lemma FormatInt_ascii z : ascii_string (Strconv.FormatInt z) = true.
Proof.
  unfold Strconv.FormatInt, DecimalString.NilZero.string_of_int.
  assert (Hu : ∀ u, ascii_string (DecimalString.NilZero.string_of_uint u) = true).
  { intros u. destruct u; [done|exact (string_of_uint_ascii _)..]. }
  destruct (Z.to_int z) as [u|u]; [done|]. apply (Hu u).
Qed.

Section lemmas.
Context `{Structpb}.

Definition valid_text (m : gmap string string) : Prop :=
  map_Forall (λ k s, utf8_ValidString k = true ∧ utf8_ValidString s = true) m.

(** A value that goes through an [any] and back. *)
Definition storable (v : Value) : Prop :=
  match v with
  | NullValue | BoolValue _ => True
  | NumberValue f => trunc f ≠ None
  | StringValue s => utf8_ValidString s = true
  | StructValue m => ∃ m', m = StringValue <$> m' ∧ valid_text m'
  | ListValue _ => False
  end.

Lemma wrapped_valid typ n :
  ascii_string typ = true → valid_text (wrapped typ (Strconv.FormatInt n)).
Proof.
  intros Ht. unfold wrapped. apply map_Forall_insert_2; [split; apply ascii_valid; done|].
  apply map_Forall_singleton. split; apply ascii_valid; [done|]. apply FormatInt_ascii.
Qed.

Lemma wrapped_value typ n :
  ascii_string typ = true →
  structpb_NewValue (wrapKeyValue typ (Strconv.FormatInt n))
    = inl (StructValue (StringValue <$> wrapped typ (Strconv.FormatInt n))).
Proof. intros Ht. by apply NewValue_map, wrapped_valid. Qed.

Lemma unwrap_wrapped typ s typ' :
  unwrapTypedValue (StructValue (StringValue <$> wrapped typ s)) typ' =
  if String.eqb typ typ' then Ok s else Err (EText ("value is not of type " +:+ typ')).
Proof.
  unfold unwrapTypedValue, wrapped. rewrite !lookup_fmap.
  rewrite lookup_insert_eq, lookup_insert_ne, lookup_singleton_eq by done. simpl.
  by destruct (String.eqb typ typ').
Qed.

Lemma NewProperty_storable g v :
  NewProperty g = inl v →
  match g with
  | GNil | GBool _ | GInt64 _ | GUint64 _ => True
  | GInt z => (Z.abs z < 2 ^ 53)%Z
  | GFloat64 f => trunc f ≠ None
  | GString s => utf8_ValidString s = true
  | _ => False
  end → storable v.
Proof.
  unfold NewProperty, wrapInt64, wrapUint64. destruct g as [|b|z|z|z|f|s|m|l|t]; intros Hv Hg;
    try done.
  - rewrite NewValue_nil in Hv. by injection Hv as <-.
  - rewrite NewValue_bool in Hv. by injection Hv as <-.
  - rewrite NewValue_int in Hv. injection Hv as <-. simpl. by rewrite trunc_float64_of_int.
  - rewrite wrapped_value in Hv by done. injection Hv as <-. eexists. split; [done|].
    by apply wrapped_valid.
  - rewrite wrapped_value in Hv by done. injection Hv as <-. eexists. split; [done|].
    by apply wrapped_valid.
  - rewrite NewValue_float in Hv. by injection Hv as <-.
  - rewrite NewValue_string in Hv by done. by injection Hv as <-.
Qed.

Lemma NewProperty_AsInterface v : storable v → NewProperty (AsInterface v) = inl v.
Proof.
  unfold NewProperty. destruct v as [|f|s|b|m|l]; simpl; intros Hv.
  - by rewrite AsInterface_null, NewValue_nil.
  - by rewrite AsInterface_number, NewValue_float.
  - by rewrite AsInterface_string, NewValue_string.
  - by rewrite AsInterface_bool, NewValue_bool.
  - destruct Hv as (m' & -> & Hm). rewrite AsInterface_struct.
    replace (AsInterface <$> (StringValue <$> m')) with (GString <$> m').
    + by apply NewValue_map.
    + rewrite <-map_fmap_compose. apply map_fmap_ext. intros i x _. symmetry.
      apply AsInterface_string.
  - done.
Qed.

(** C40: integers keep their value and their type.  A 64-bit integer, signed or
    not, is read back exactly by the getter of its type, and is an error (a
    zero for the lenient getter) for the getter of the other type; an [int],
    which is stored as a float, is read back exactly up to 53 bits. *)
Theorem integer_property_roundtrip n :
  (Strconv.is_int64 n → ∃ p, NewProperty (GInt64 n) = inl p ∧ AsInt64 (Some p) = Ok n ∧
     is_ok (AsUint64 (Some p)) = false ∧ GetUint64 (Some p) = 0%Z) ∧
  (Strconv.is_uint64 n → ∃ p, NewProperty (GUint64 n) = inl p ∧ AsUint64 (Some p) = Ok n ∧
     is_ok (AsInt64 (Some p)) = false ∧ GetInt64 (Some p) = 0%Z) ∧
  ((Z.abs n < 2 ^ 53)%Z → ∃ p, NewProperty (GInt n) = inl p ∧ AsInt64 (Some p) = Ok n).
Proof.
  unfold NewProperty, wrapInt64, wrapUint64, GetUint64, GetInt64, AsInt64, AsUint64.
  split_and!; intros Hn.
  - eexists. split; [by apply wrapped_value|]. rewrite !unwrap_wrapped. simpl.
    rewrite Strconv.ParseInt_FormatInt by done. done.
  - eexists. split; [by apply wrapped_value|]. rewrite !unwrap_wrapped. simpl.
    rewrite Strconv.ParseUint_FormatInt by done. done.
  - eexists. split; [apply NewValue_int|]. unfold int64_of_float.
    rewrite trunc_float64_of_int by done.
    rewrite (proj2 (andb_true_iff _ _)); [done|].
    unfold Strconv.int64_min, Strconv.int64_max. rewrite !Z.leb_le. lia.
Qed.

(** Built from plain values, properties are the storable values they came from. *)
Lemma NewProperties_storable (props : gmap string Value) skip :
  map_Forall (λ _ v, storable v) props →
  NewProperties (AsInterface <$> props) skip
    = Some (filter (λ kv, negb skip && Strings.HasPrefix kv.1 internalPrefix = false) props).
Proof.
  intros Hp. unfold NewProperties. f_equal. apply map_eq. intros key.
  rewrite map_lookup_imap, lookup_fmap, map_lookup_filter.
  destruct (props !! key) as [v|] eqn:Hv; simpl; [|done].
  rewrite NewProperty_AsInterface by by eapply Hp.
  by destruct (negb skip && _) eqn:Hpre; case_guard.
Qed.

(** Properties survive the messages between the services, which carry them
    as a plain map: rebuilt from that map they are the same, less those with an
    internal name, which are kept when that is asked for. *)
Theorem properties_roundtrip (props : gmap string Value) (Hp : map_Forall (λ _ v, storable v) props) :
  NewProperties (AsMap (ToProtoStruct (Some props))) true = Some props ∧
  NewProperties (AsMap (ToProtoStruct (Some props))) false
    = Some (filter (λ kv, Strings.HasPrefix kv.1 internalPrefix = false) props).
Proof.
  unfold AsMap, ToProtoStruct. simpl default. rewrite !NewProperties_storable by done.
  split; [|done]. f_equal. apply map_filter_id. done.
Qed.
End lemmas.

(** ** A small instance, for the witnesses *)

Definition ex_NewValue (g : goval) : Value + gerr :=
  match g with
  | GNil => inl NullValue
  | GBool b => inl (BoolValue b)
  | GInt z | GInt64 z | GUint64 z => inl (NumberValue (float64_of_int z))
  | GFloat64 f => inl (NumberValue f)
  | GString s => if ascii_string s then inl (StringValue s)
                 else inr (EText "invalid UTF-8 in string")
  | GMap m => inl (StructValue (omap (λ v, match v with
                                           | GString s => Some (StringValue s)
                                           | _ => None
                                           end) m))
  | _ => inr (EText "invalid type")
  end.

Fixpoint ex_AsInterface (v : Value) : goval :=
  match v with
  | NullValue => GNil
  | NumberValue f => match trunc f with Some _ => GFloat64 f | None => GString "NaN" end
  | StringValue s => GString s
  | BoolValue b => GBool b
  | StructValue m => GMap (ex_AsInterface <$> m)
  | ListValue l => GSlice (ex_AsInterface <$> l)
  end.

Lemma ex_NewValue_map (m : gmap string string) :
  map_Forall (λ k s, ascii_string k = true ∧ ascii_string s = true) m →
  ex_NewValue (GMap (GString <$> m)) = inl (StructValue (StringValue <$> m)).
Proof.
  intros _. simpl. do 2 f_equal. apply map_eq. intros k. rewrite lookup_omap, !lookup_fmap.
  by destruct (m !! k).
Qed.

Lemma ex_NewValue_string s :
  ascii_string s = true → ex_NewValue (GString s) = inl (StringValue s).
Proof. intros Hs. simpl. by rewrite Hs. Qed.

Lemma ex_AsInterface_number f : trunc f ≠ None → ex_AsInterface (NumberValue f) = GFloat64 f.
Proof. simpl. by destruct (trunc f). Qed.

Definition ex_structpb : Structpb :=
  {| utf8_ValidString := ascii_string; structpb_NewValue := ex_NewValue;
     AsInterface := ex_AsInterface; proto_Equal := λ _ _, true; float_overflow := λ _, 0%Z;
     NewValue_nil := eq_refl; NewValue_bool := λ _, eq_refl; NewValue_int := λ _, eq_refl;
     NewValue_float := λ _, eq_refl; NewValue_string := ex_NewValue_string;
     NewValue_map := ex_NewValue_map; AsInterface_null := eq_refl;
     AsInterface_bool := λ _, eq_refl; AsInterface_string := λ _, eq_refl;
     AsInterface_number := ex_AsInterface_number; AsInterface_struct := λ _, eq_refl;
     ascii_valid := λ _ H, H |}.

(** The largest [int64] comes back from its property; as an [int] it would not. *)
Lemma integer_property_roundtrip_witness :
  (∃ p, @NewProperty ex_structpb (GInt64 Strconv.int64_max) = inl p ∧
     @AsInt64 ex_structpb (Some p) = Ok Strconv.int64_max) ∧
  @AsInt64 ex_structpb (Some (NumberValue (float64_of_int (2 ^ 53 + 1)))) = Ok (2 ^ 53)%Z.
Proof.
  split; [|by vm_compute].
  destruct (@integer_property_roundtrip ex_structpb Strconv.int64_max) as (H64 & _ & _).
  destruct H64 as (p & Hp & Hr & _); [by vm_compute|]. exists p. exact (conj Hp Hr).
Defined.

Definition ex_properties : gmap string Value :=
  {["github/repo_id" := StructValue (StringValue <$> wrapped typeInt64 "42");
    "is_private" := BoolValue true; "minder.internal.x" := StringValue "y"]}.

Lemma ex_properties_storable : map_Forall (λ _ v, @storable ex_structpb v) ex_properties.
Proof.
  unfold ex_properties. apply map_Forall_insert_2.
  { eexists. split; [done|]. by apply (@wrapped_valid ex_structpb typeInt64 42). }
  apply map_Forall_insert_2; [done|]. by apply map_Forall_singleton.
Qed.

Lemma properties_roundtrip_witness :
  ∃ props, @NewProperties ex_structpb (@AsMap ex_structpb (ToProtoStruct (Some ex_properties)))
    false = Some props ∧
  props !! "is_private" = Some (BoolValue true) ∧ props !! "minder.internal.x" = None.
Proof.
  eexists. split; [exact (proj2 (@properties_roundtrip ex_structpb ex_properties
    ex_properties_storable))|]. split.
  - by apply map_lookup_filter_Some.
  - apply map_lookup_filter_None. right. by intros v _ Hf.
Defined.
