(* ===== verification/ApiTypes.v ===== *)
(** * The messages of the API the policies are made of

    The fields of the generated Go structs of
    src/pkg/api/protobuf/go/minder/v1/minder.pb.go that the modelled code reads
    or writes: profiles, rule types and data sources.  A pointer is an option; a
    repeated field is a list, of which an empty one is nil, as it is decoded;
    its elements are not nil. *)

From S2P Require Import Prelude GoErrors GoMonad GoStrings Properties.
Local Open Scope string_scope.

(** [structpb.Struct] *)
Abbreviation Struct := (gmap string Value).

Record pbContext := { ctx_Provider : option string; ctx_Project : option string }.

(** ** Profiles *)

Record Profile_Rule := {
  rule_Type : string; rule_Params : option Struct; rule_Def : option Struct; rule_Name : string;
}.

Record Profile_Selector := {
  psel_Id : string; psel_Entity : string; psel_Selector : string; psel_Description : string;
}.

Record Profile := {
  prof_Context : option pbContext; prof_Id : option string; prof_Name : string;
  prof_Labels : list string;
  prof_Repository : list Profile_Rule; prof_BuildEnvironment : list Profile_Rule;
  prof_Artifact : list Profile_Rule; prof_PullRequest : list Profile_Rule;
  prof_Release : list Profile_Rule; prof_PipelineRun : list Profile_Rule;
  prof_TaskRun : list Profile_Rule; prof_Build : list Profile_Rule;
  prof_Selection : list Profile_Selector;
  prof_Remediate : option string; prof_Alert : option string;
  prof_Type : string; prof_Version : string; prof_DisplayName : string;
}.

Definition GetId (p : Profile) : string := default "" (prof_Id p).

(** ** Rule types *)

Record RestType := { rest_Endpoint : string; rest_Method : string }.

(** The kinds of ingestion; of the others only the presence is of interest. *)
Record Ingest := {
  ing_Type : string; ing_Rest : option RestType; ing_Diff : option string;
}.

Record JQComparison := {
  jq_Ingested : option string; jq_Profile : option string; jq_Constant : option Value;
}.

Record DataSourceReference := { dsr_Name : string; dsr_Alias : string }.

Record pbEval := {
  ev_Type : string; ev_Jq : list JQComparison; ev_Rego : option string;
  ev_DataSources : list DataSourceReference;
}.

(** Title and body of a pull request and of an issue. *)
Record TitleBody := { tb_Title : string; tb_Body : string }.

Record Remediate := {
  re_Type : string; re_Rest : option RestType; re_GhBranchProtection : option string;
  re_PullRequest : option TitleBody; re_PullRequestComment : option string;
  re_Issue : option TitleBody;
}.

Record Alert := {
  alert_Type : string; alert_SecurityAdvisory : option unit;
  alert_PullRequestComment : option string;
}.

Record RuleTypeDefinition := {
  def_InEntity : string; def_RuleSchema : option Struct; def_ParamSchema : option Struct;
  def_Ingest : option Ingest; def_Eval : option pbEval; def_Remediate : option Remediate;
  def_Alert : option Alert;
}.

Record RuleType := {
  rt_Id : option string; rt_Name : string; rt_DisplayName : string;
  rt_ShortFailureMessage : string; rt_Context : option pbContext; rt_Def : option RuleTypeDefinition;
  rt_Description : string; rt_Guidance : string; rt_Severity : string; rt_ReleasePhase : string;
}.

(** ** Data sources *)

Inductive RestBody :=
| Bodyobj (o : option Struct)
| Bodystr (s : string)
| BodyFromField (f : string).

Record RestDataSource_Def := {
  rds_Endpoint : string; rds_Method : string; rds_Headers : gmap string string;
  rds_Body : option RestBody; rds_Parse : string; rds_InputSchema : option Struct;
}.

(** The functions of a driver by their names; a map that is empty is nil. *)
Record RestDataSource := {
  rest_Def : gmap string (option RestDataSource_Def); rest_ProviderAuth : bool;
}.

Record StructDataSource_Path := { path_FileName : string; path_Alternatives : list string }.

Record StructDataSource_Def := { sds_Path : option StructDataSource_Path }.

Record StructDataSource := { struct_Def : gmap string (option StructDataSource_Def) }.

Inductive Driver :=
| DataSource_Rest (rest : option RestDataSource)
| DataSource_Structured (structured : option StructDataSource).

(** The context is of the second version, with a project only. *)
Record DataSource := {
  ds_Version : string; ds_Type : string; ds_Context : option string; ds_Name : string;
  ds_Id : string; ds_Driver : option Driver;
}.

(** ** Configuration of a provider *)

(** The entities of [AutoRegistration]. *)
Record ProviderConfig := { pc_AutoRegistration : list string }.
