(* ===== verification/Validators.v ===== *)
(** * The validation of the messages of the API

    src/pkg/api/protobuf/go/minder/v1/validators.go.  Each [Validate] is a
    function from the message to an [error].  The jq parser and the template
    parsers are parameters. *)

From S2P Require Import Prelude GoErrors GoMonad GoStrings DbTypes ProfileModels Actions.
From S2P Require Import Properties ApiTypes.
From Stdlib Require Import Ascii.
Local Open Scope string_scope.

Definition ErrValidationFailed : gerr := ENew "v1.ErrValidationFailed" "validation failed".
Definition ErrBadDNSStyleName : gerr :=
  ENew "v1.ErrBadDNSStyleName"
    "name may only contain letters, numbers, hyphens and underscores, and is limited to a maximum of 63 characters".
Definition ErrInvalidEntity : gerr := ENew "v1.ErrInvalidEntity" "invalid entity".
Definition ErrInvalidRuleType : gerr := ENew "v1.ErrInvalidRuleType" "invalid rule type".
Definition ErrInvalidRuleTypeDefinition : gerr :=
  ENew "v1.ErrInvalidRuleTypeDefinition" "invalid rule type definition".

(** [fmt.Errorf("%w: " + text, sentinel)] *)
Definition because (sentinel : gerr) (text : string) : error :=
  Some (EWrap "" sentinel (": " +:+ text)).

(** [if err := m; err != nil { return err }; k] *)
Definition or_else (m k : error) : error := match m with Some e => Some e | None => k end.
Notation "m ;? k" := (or_else m k) (at level 60, right associativity) : string_scope.

(** [if b { return err }; k] *)
Definition return_if (b : bool) (err k : error) : error := if b then err else k.
Notation "'guard' b 'else' err ; k" :=
  (return_if b err k) (at level 60, b at level 59, err at level 59, right associativity) : string_scope.

(** [err] wrapped, if there is one. *)
Definition wrapping (f : gerr → gerr) (err : error) : error := f <$> err.

(** ** Names *)

Definition is_lower (c : ascii) : bool := let n := nat_of_ascii c in ((97 <=? n) && (n <=? 122))%nat.
Definition is_upper (c : ascii) : bool := let n := nat_of_ascii c in ((65 <=? n) && (n <=? 90))%nat.
Definition is_digit (c : ascii) : bool := let n := nat_of_ascii c in ((48 <=? n) && (n <=? 57))%nat.
Definition is_alnum (c : ascii) : bool := is_lower c || is_upper c || is_digit c.
Definition is_name_char (c : ascii) : bool :=
  is_alnum c || Ascii.eqb c "-"%char || Ascii.eqb c "_"%char.

(** [^[a-zA-Z0-9](?:[-_a-zA-Z0-9]{0,61}[a-zA-Z0-9])?$] *)
Definition dnsStyleName (s : string) : bool :=
  match String.list_ascii_of_string s with
  | [] => false
  | c :: l =>
      is_alnum c &&
      match rev l with
      | [] => true
      | z :: m => is_alnum z && forallb is_name_char m && (length m <=? 61)%nat
      end
  end.

(** [^[a-z][-_[:word:]]*$] *)
Definition dataSourceAlias (s : string) : bool :=
  match String.list_ascii_of_string s with
  | [] => false
  | c :: l => is_lower c && forallb is_name_char l
  end.

Definition validateNamespacedName (name : string) : error :=
  let components := Strings.Split name "/"%char in
  if (2 <? length components)%nat then Some (EText "cannot have more than one slash in name")
  else if forallb dnsStyleName components then None else Some ErrBadDNSStyleName.

(** ** Entities and provider configurations *)

Definition Entity_Validate (entity_String : Entity → string) (entity : Entity) : error :=
  if IsValid entity then None
  else because ErrInvalidEntity ("invalid entity type: " +:+ entity_String entity).

(** The entities are the keys of a map: they are visited in some order. *)
Fixpoint AutoRegistration_Validate (entities : list string) : error :=
  match entities with
  | [] => None
  | entity :: entities =>
      if IsValid (EntityFromString entity) then AutoRegistration_Validate entities
      else Some (EText ("invalid entity type: " +:+ entity))
  end.

Definition ProviderConfig_Validate (p : ProviderConfig) : error :=
  wrapping (λ e, EWrap "auto_registration: " e "") (AutoRegistration_Validate (pc_AutoRegistration p)).

(** ** Rule types *)

Section rule_types.
(** [gojq.Parse] and [gojq.Compile] of what it parsed, and the parsers of
    text/template and html/template. *)
Context (jq_Parse jq_Compile text_Parse html_Parse : string → error).

Definition missing_template (parse : string → error) (t : string) : error :=
  if String.eqb t "" then Some (EText "missing template")
  else wrapping (λ e, EWrap "cannot parse template: " e "") (parse t).

Definition ErrDef : string → error := because ErrInvalidRuleTypeDefinition.

(** [fmt.Errorf("%w: " + text + ": %w", ErrInvalidRuleTypeDefinition, err)] *)
Definition def_wrap (text : string) : error → error :=
  wrapping (λ e, EWrap2 "" ErrInvalidRuleTypeDefinition (": " +:+ text +:+ ": ") e "").

Definition Rego_Validate (rego : option string) : error :=
  match rego with
  | None => ErrDef "rego is nil"
  | Some def => if String.eqb def "" then ErrDef "rego definition is empty" else None
  end.

Definition Operator_Validate (op : option string) : error :=
  match op with
  | None => ErrDef "operator is nil"
  | Some def =>
      if String.eqb def "" then ErrDef "definition is empty"
      else def_wrap "definition is not parsable" (jq_Parse def) ;?
           def_wrap "definition is invalid" (jq_Compile def)
  end.

Definition is_nil {A} (o : option A) : bool := match o with None => true | Some _ => false end.

Definition JQComparison_Validate (jq : JQComparison) : error :=
  def_wrap "jq ingested definition is invalid" (Operator_Validate (jq_Ingested jq)) ;?
  guard negb (is_nil (jq_Profile jq)) && negb (is_nil (jq_Constant jq))
    else ErrDef "jq profile and constant accessors are mutually exclusive" ;
  guard is_nil (jq_Profile jq) && is_nil (jq_Constant jq)
    else ErrDef "jq missing profile or constant accessor" ;
  if is_nil (jq_Profile jq) then None
  else def_wrap "jq profile accessor is invalid" (Operator_Validate (jq_Profile jq)).

Fixpoint jqs_Validate (i : Z) (l : list JQComparison) : error :=
  match l with
  | [] => None
  | jq :: l =>
      wrapping (λ e, EWrap ("jq rule " +:+ Strconv.FormatInt i +:+ " is invalid: ") e "")
        (JQComparison_Validate jq) ;?
      jqs_Validate (i + 1) l
  end.

Definition getAliasWithDefault (dsr : DataSourceReference) : string :=
  if String.eqb (dsr_Alias dsr) "" then dsr_Name dsr else dsr_Alias dsr.

Definition DataSourceReference_Validate (dsr : DataSourceReference) : error :=
  guard String.eqb (dsr_Name dsr) "" else ErrDef "data source reference name cannot be empty" ;
  if dataSourceAlias (getAliasWithDefault dsr) then None
  else ErrDef ("data source reference alias " +:+ getAliasWithDefault dsr +:+ " is invalid").

Fixpoint dataSources_Validate (i : Z) (aliases : list string) (l : list DataSourceReference)
    : error :=
  match l with
  | [] => None
  | ds :: l =>
      wrapping (λ e, EWrap "" ErrInvalidRuleTypeDefinition
          (": data source reference " +:+ Strconv.FormatInt i +:+ " is invalid: " +:+ Error e))
        (DataSourceReference_Validate ds) ;?
      guard bool_decide (getAliasWithDefault ds ∈ aliases)
        else Some (EText ("cannot have multiple data sources with the same alias: "
                          +:+ getAliasWithDefault ds)) ;
      dataSources_Validate (i + 1) (getAliasWithDefault ds :: aliases) l
  end.

(** An evaluator of another type is not looked into. *)
Definition Eval_Validate (ev : option pbEval) : error :=
  match ev with
  | None => ErrDef "eval is nil"
  | Some ev =>
      (if String.eqb (ev_Type ev) "rego" then Rego_Validate (ev_Rego ev)
       else if String.eqb (ev_Type ev) "jq" then
         if bool_decide (ev_Jq ev = []) then ErrDef "jq definition is empty"
         else jqs_Validate 0 (ev_Jq ev)
       else None) ;?
      dataSources_Validate 0 [] (ev_DataSources ev)
  end.

Definition DiffType_Validate (type : string) : error :=
  if bool_decide (type ∈ [""; "dep"; "new-dep"; "full"]) then None
  else ErrDef ("diffing type is invalid: " +:+ type).

Definition RestType_Validate (rest : option RestType) : error :=
  match rest with
  | None => ErrDef "rest remediation is nil"
  | Some rest =>
      guard String.eqb (rest_Endpoint rest) "" else ErrDef "rest endpoint cannot be empty" ;
      def_wrap "rest endpoint is not parsable" (missing_template text_Parse (rest_Endpoint rest)) ;?
      if String.eqb (rest_Method rest) "" then None
      else def_wrap "rest method is not parsable" (missing_template text_Parse (rest_Method rest))
  end.

Definition Ingest_Validate (ing : option Ingest) : error :=
  match ing with
  | None => ErrDef "data ingest is nil"
  | Some ing =>
      if String.eqb (ing_Type ing) "diff" then
        match ing_Diff ing with
        | None => ErrDef "diff ingest is nil"
        | Some type => DiffType_Validate type
        end
      else if String.eqb (ing_Type ing) "rest" then RestType_Validate (ing_Rest ing)
      else None
  end.

Definition SecurityAdvisory_Validate (sa : option unit) : error :=
  match sa with None => ErrDef "security advisory is nil" | Some _ => None end.

Definition PRComment_Validate (comment : option string) : error :=
  match comment with
  | None => ErrDef "pull request comment is nil"
  | Some message =>
      guard String.eqb message "" else ErrDef "pull request comment review message cannot be empty" ;
      def_wrap "pull request comment message is not parsable" (missing_template html_Parse message)
  end.

(** An alert or a remediation that is nil is not required. *)
Definition Alert_Validate (alert : option Alert) : error :=
  match alert with
  | None => None
  | Some alert =>
      if String.eqb (alert_Type alert) "security_advisory"
      then SecurityAdvisory_Validate (alert_SecurityAdvisory alert)
      else if String.eqb (alert_Type alert) "pull_request_comment"
      then PRComment_Validate (alert_PullRequestComment alert)
      else ErrDef "alert type cannot be empty"
  end.

Definition GhBranchProtection_Validate (ghp : option string) : error :=
  match ghp with
  | None => ErrDef "github branch protection remediation is nil"
  | Some patch => def_wrap "patch template is not parsable" (missing_template text_Parse patch)
  end.

(** A pull request or an issue, by its [kind]. *)
Definition TitleBody_Validate (kind nil : string) (t : option TitleBody) : error :=
  match t with
  | None => ErrDef nil
  | Some t =>
      guard String.eqb (tb_Title t) "" else ErrDef (kind +:+ " title cannot be empty") ;
      guard String.eqb (tb_Body t) "" else ErrDef (kind +:+ " body cannot be empty") ;
      def_wrap (kind +:+ " title is not parsable") (missing_template html_Parse (tb_Title t)) ;?
      def_wrap (kind +:+ " body is not parsable") (missing_template html_Parse (tb_Body t))
  end.

Definition PullRequest_Validate : option TitleBody → error :=
  TitleBody_Validate "pull request" "pull request remediation is nil".
Definition Issue_Validate : option TitleBody → error :=
  TitleBody_Validate "issue" "issue remediation is nil".

Definition fieldsSet (rem : Remediate) : nat :=
  length (filter (λ b : bool, b = true) [negb (is_nil (re_Rest rem));
    negb (is_nil (re_GhBranchProtection rem)); negb (is_nil (re_PullRequest rem))]).

Definition Remediate_Validate (rem : option Remediate) : error :=
  match rem with
  | None => None
  | Some rem =>
      (if String.eqb (re_Type rem) "rest" then RestType_Validate (re_Rest rem)
       else if String.eqb (re_Type rem) "pull_request" then PullRequest_Validate (re_PullRequest rem)
       else if String.eqb (re_Type rem) "gh_branch_protection"
       then GhBranchProtection_Validate (re_GhBranchProtection rem)
       else if String.eqb (re_Type rem) "issue" then Issue_Validate (re_Issue rem)
       else ErrDef "remediate type cannot be empty") ;?
      guard (1 <? fieldsSet rem)%nat else ErrDef "only one remediation type can be set" ;
      None
  end.

Definition Definition_Validate (def : option RuleTypeDefinition) : error :=
  match def with
  | None => ErrDef "rule type definition is nil"
  | Some def =>
      guard negb (IsValid (EntityFromString (def_InEntity def)))
        else ErrDef ("invalid entity type: " +:+ def_InEntity def) ;
      guard is_nil (def_RuleSchema def) else ErrDef "rule schema is nil" ;
      Ingest_Validate (def_Ingest def) ;?
      Alert_Validate (def_Alert def) ;?
      Remediate_Validate (def_Remediate def) ;?
      Eval_Validate (def_Eval def)
  end.

Definition RuleType_Validate (rt : option RuleType) : error :=
  match rt with
  | None => because ErrInvalidRuleType "rule type is nil"
  | Some rt =>
      guard String.eqb (rt_Name rt) "" else because ErrInvalidRuleType "rule type name is empty" ;
      wrapping (λ e, EWrap2 "" ErrInvalidRuleType ": " e "") (validateNamespacedName (rt_Name rt)) ;?
      wrapping (errors_Join ErrInvalidRuleType) (Definition_Validate (rt_Def rt))
  end.
End rule_types.

(** ** Profiles *)

Definition ProfileType : string := "profile".
Definition ProfileTypeVersion : string := "v1".

Definition getTypeWithDefault (p : Profile) : string :=
  if String.eqb (prof_Type p) "" then ProfileType else prof_Type p.

Definition getVersionWithDefault (p : Profile) : string :=
  if String.eqb (prof_Version p) "" then ProfileTypeVersion else prof_Version p.

Definition validateRule (r : Profile_Rule) : error :=
  if String.eqb (rule_Type r) "" then because ErrValidationFailed "rule type cannot be empty"
  else None.

Fixpoint validateRules (kind : string) (i : Z) (rules : list Profile_Rule) : error :=
  match rules with
  | [] => None
  | r :: rules =>
      wrapping (λ e, EWrap (kind +:+ " rule " +:+ Strconv.FormatInt i +:+ " is invalid: ") e "")
        (validateRule r) ;?
      validateRules kind (i + 1) rules
  end.

(** The rules of the other four entities are not looked at. *)
Definition Profile_Validate (p : Profile) : error :=
  guard negb (String.eqb (getTypeWithDefault p) ProfileType)
    else because ErrValidationFailed ("profile type is invalid: " +:+ prof_Type p +:+
           ". Did you parse the wrong file?") ;
  guard negb (String.eqb (getVersionWithDefault p) ProfileTypeVersion)
    else because ErrValidationFailed ("profile version is invalid: " +:+ prof_Version p) ;
  guard String.eqb (prof_Name p) ""
    else because ErrValidationFailed "profile name cannot be empty" ;
  wrapping (λ e, EWrap2 "" ErrValidationFailed ": " e "") (validateNamespacedName (prof_Name p)) ;?
  validateRules "repository" 0 (prof_Repository p) ;?
  validateRules "build environment" 0 (prof_BuildEnvironment p) ;?
  validateRules "artifact" 0 (prof_Artifact p) ;?
  validateRules "pull request" 0 (prof_PullRequest p).

(** ** Data sources *)

Section data_sources.
Context `{Structpb}.

(** A key of the top level that is required, or has a default. *)
Definition keyInProperties (key : string) (schema : gmap string goval) : error :=
  let in_properties :=
    match schema !! "properties" with
    | None => Some (EText "properties are missing")
    | Some (GMap properties) =>
        match properties !! key with
        | None => Some (EText ("key " +:+ key +:+ " is missing"))
        | Some (GMap p) =>
            match p !! "default", p !! "required" with
            | None, None => Some (EText ("key " +:+ key +:+ " is missing default or required"))
            | _, _ => None
            end
        | Some _ => Some (EText ("key " +:+ key +:+ " is invalid"))
        end
    | Some _ => Some (EText "properties are invalid")
    end in
  match schema !! "required" with
  | None => in_properties
  | Some (GSlice req) =>
      if existsb (λ r, match r with GString r => String.eqb r key | _ => false end) req
      then None else in_properties
  | Some _ => Some (EText "required is invalid")
  end.

Definition RestDataSource_Def_Validate (rest : option RestDataSource_Def) : error :=
  match rest with
  | None => because ErrValidationFailed "rest function is nil"
  | Some rest =>
      guard String.eqb (rds_Endpoint rest) ""
        else because ErrValidationFailed "rest function endpoint is empty" ;
      match rds_InputSchema rest with
      | None => because ErrValidationFailed "rest function input schema is nil"
      | Some schema =>
          match rds_Body rest with
          | None => None
          | Some (Bodyobj o) =>
              if is_nil o then because ErrValidationFailed "rest function body is nil" else None
          | Some (BodyFromField f) =>
              guard String.eqb f ""
                else because ErrValidationFailed "rest function body from field is empty" ;
              match keyInProperties f (AsInterface <$> schema) with
              | Some err => because ErrValidationFailed (Error err)
              | None => None
              end
          | Some (Bodystr s) =>
              if String.eqb s "" then because ErrValidationFailed "rest function body from input is empty"
              else None
          end
      end
  end.

(** What is wrong with a function of the driver. *)
Definition rest_function_errors (f : string * option RestDataSource_Def) : list gerr :=
  ((if String.eqb f.1 "" then [EText ("rest function name " +:+ f.1 +:+ " is empty")] else [])
   ++ match RestDataSource_Def_Validate f.2 with
      | Some err => [EWrap ("rest function " +:+ f.1 +:+ " is invalid: ") err ""]
      | None => []
      end)%list.

(** [errors.Join] of one or more errors. *)
Fixpoint errors_Join_all (e : gerr) (errs : list gerr) : gerr :=
  match errs with [] => e | e' :: errs => errors_Join e (errors_Join_all e' errs) end.

(** The functions are visited in some order. *)
Definition RestDataSource_Validate (def : gmap string (option RestDataSource_Def)) : error :=
  if bool_decide (def = ∅) then because ErrValidationFailed "rest definition is empty"
  else match map_to_list def ≫= rest_function_errors with
       | [] => None
       | e :: errs => Some (errors_Join_all e errs)
       end.

Definition DataSource_Validate (ds : option DataSource) : error :=
  match ds with
  | None => because ErrValidationFailed "data source is nil"
  | Some ds =>
      guard String.eqb (ds_Name ds) ""
        else because ErrValidationFailed "data source name cannot be empty" ;
      wrapping (λ e, EWrap2 "" ErrValidationFailed ": " e "") (validateNamespacedName (ds_Name ds)) ;?
      match ds_Driver ds with
      | None => because ErrValidationFailed "data source driver cannot be nil"
      | Some (DataSource_Rest None) => because ErrValidationFailed "rest driver is nil"
      | Some (DataSource_Rest (Some rest)) => RestDataSource_Validate (rest_Def rest)
      | Some (DataSource_Structured None) => because ErrValidationFailed "structured driver is nil"
      | Some (DataSource_Structured (Some _)) => None
      end
  end.
End data_sources.

(** ** Lemmas *)

Lemma or_else_None m k : or_else m k = None ↔ m = None ∧ k = None.
Proof. destruct m; simpl; naive_solver. Qed.

Lemma return_if_None b err k :
  return_if b err k = None ↔ (b = true ∧ err = None) ∨ (b = false ∧ k = None).
Proof. destruct b; simpl; naive_solver. Qed.

Lemma wrapping_None f m : wrapping f m = None ↔ m = None.
Proof. by destruct m. Qed.

Lemma because_None s t : because s t = None ↔ False.
Proof. done. Qed.

Create Rewrite HintDb validate.
#[export] Hint Rewrite or_else_None return_if_None wrapping_None because_None : validate.

(** *** Names *)

(** One to 63 letters, digits, hyphens and underscores, the first and the last
    a letter or a digit. *)
Definition dns_name (s : string) : Prop :=
  let l := String.list_ascii_of_string s in
  (length l ≤ 63)%nat ∧ Forall (λ c, is_name_char c = true) l ∧
  (∃ c, head l = Some c ∧ is_alnum c = true) ∧ (∃ c, last l = Some c ∧ is_alnum c = true).

(** At most one slash, with a name on either side. *)
Definition namespaced_name (s : string) : Prop :=
  dns_name s ∨ ∃ ns name, dns_name ns ∧ dns_name name ∧ s = ns +:+ "/" +:+ name.

Lemma alnum_name_char c : is_alnum c = true → is_name_char c = true.
Proof. unfold is_name_char. by intros ->. Qed.

Lemma forallb_Forall_true {A} (f : A → bool) l : forallb f l = true ↔ Forall (λ x, f x = true) l.
Proof.
  rewrite forallb_forall, Forall_forall. split; intros Hf x Hx; apply Hf; by apply list_elem_of_In.
Qed.

Lemma dnsStyleName_spec s : dnsStyleName s = true ↔ dns_name s.
Proof.
  unfold dnsStyleName, dns_name. destruct (String.list_ascii_of_string s) as [|c l].
  { split; [done|]. by intros (_ & _ & (c & ? & _) & _). }
  destruct (rev l) as [|z m] eqn:Hrev.
  - assert (l = []) as -> by (rewrite <-(rev_involutive l), Hrev; done).
    rewrite andb_true_r. split.
    + intros Hc. split_and!; [simpl; lia| |by exists c..].
      constructor; [by apply alnum_name_char|constructor].
    + by intros (_ & _ & (d & [= ->] & Hd) & _).
  - assert (l = rev m ++ [z])%list as -> by (rewrite <-(rev_involutive l), Hrev; done).
    assert (Hlast : last (c :: rev m ++ [z]) = Some z).
    { change (c :: rev m ++ [z])%list with ((c :: rev m) ++ [z])%list. by rewrite last_snoc. }
    rewrite Hlast, !andb_true_iff, forallb_Forall_true, Nat.leb_le.
    assert (Hlen : length (c :: rev m ++ [z])%list = S (S (length m))).
    { simpl. rewrite length_app, length_rev. simpl. lia. }
    assert (Hm : Forall (λ c, is_name_char c = true) (rev m) ↔
                 Forall (λ c, is_name_char c = true) m).
    { split; intros Hm; [rewrite <-(rev_involutive m)|]; by apply Forall_rev. }
    rewrite Hlen, Forall_cons, Forall_app, Forall_singleton, Hm. clear Hm. split.
    + intros (Hc & (Hz & Hm) & Hl). split_and!; [lia|by apply alnum_name_char|done|by apply alnum_name_char|
        by exists c|by exists z].
    + intros (Hl & (_ & Hm & _) & (d & [= ->] & Hd) & (y & [= ->] & Hy)).
      split_and!; [done..|lia].
Qed.

Lemma dns_no_slash s : dns_name s → Strings.Contains s "/"%char = false.
Proof.
  intros (_ & Hall & _). induction s as [|c s IH]; [done|]. simpl in *.
  apply Forall_cons in Hall as [Hc Hs]. rewrite (IH Hs), orb_false_r.
  apply bool_decide_eq_false_2. by intros ->.
Qed.

Lemma Split_one s c a : Strings.Split s c = [a] → s = a.
Proof.
  revert a. induction s as [|d s IH]; intros a; simpl; [by intros [= <-]|].
  case_bool_decide; [intros [= _ E]; by apply Strings.Split_not_nil in E|].
  destruct (Strings.Split s c) as [|x xs] eqn:E; [by apply Strings.Split_not_nil in E|].
  intros [= <- ->]. by rewrite (IH x eq_refl).
Qed.

Lemma Split_two s c a b : Strings.Split s c = [a; b] → s = a +:+ String c b.
Proof.
  revert a. induction s as [|d s IH]; intros a; simpl; [done|].
  case_bool_decide as Hd.
  - intros [= <- Hs]. apply Split_one in Hs as ->. by subst d.
  - destruct (Strings.Split s c) as [|x xs] eqn:E; [by intros [=]|].
    intros [= <- ->]. by rewrite (IH x eq_refl).
Qed.

Lemma validateNamespacedName_spec s : validateNamespacedName s = None ↔ namespaced_name s.
Proof.
  unfold validateNamespacedName, namespaced_name. split.
  - destruct (Strings.Split s "/"%char) as [|a [|b [|? ?]]] eqn:E;
      [by apply Strings.Split_not_nil in E|..]; simpl; [| |done].
    + rewrite andb_true_r. apply Split_one in E as ->.
      destruct (dnsStyleName a) eqn:Ha; [|done]. intros _. left. by apply dnsStyleName_spec.
    + rewrite andb_true_r. apply Split_two in E as ->.
      destruct (dnsStyleName a) eqn:Ha, (dnsStyleName b) eqn:Hb; try done. intros _. right.
      exists a, b. split_and!; [by apply dnsStyleName_spec..|done].
  - intros [Hs|(ns & name & Hns & Hname & ->)].
    + rewrite Strings.Split_no_sep by by apply dns_no_slash. simpl.
      by rewrite (proj2 (dnsStyleName_spec s) Hs).
    + change (ns +:+ "/" +:+ name) with (ns +:+ String "/" name).
      rewrite Strings.Split_app by by apply dns_no_slash.
      rewrite Strings.Split_no_sep by by apply dns_no_slash. simpl.
      by rewrite (proj2 (dnsStyleName_spec ns) Hns), (proj2 (dnsStyleName_spec name) Hname).
Qed.

(** ** Well-formed rule types *)

Section wf.
Context (jq_Parse jq_Compile text_Parse html_Parse : string → error).

Definition template_ok (parse : string → error) (t : string) : Prop := t ≠ "" ∧ parse t = None.

Definition rest_ok (rest : RestType) : Prop :=
  template_ok text_Parse (rest_Endpoint rest) ∧
  (rest_Method rest ≠ "" → text_Parse (rest_Method rest) = None).

Definition title_body_ok (t : TitleBody) : Prop :=
  template_ok html_Parse (tb_Title t) ∧ template_ok html_Parse (tb_Body t).

Definition jq_ok (q : string) : Prop := q ≠ "" ∧ jq_Parse q = None ∧ jq_Compile q = None.

(** An ingested expression, and either one of the profile or a constant. *)
Definition comparison_ok (jq : JQComparison) : Prop :=
  (∃ q, jq_Ingested jq = Some q ∧ jq_ok q) ∧
  ((jq_Profile jq = None ∧ is_Some (jq_Constant jq)) ∨
   (jq_Constant jq = None ∧ ∃ q, jq_Profile jq = Some q ∧ jq_ok q)).

Definition ingest_ok (ing : Ingest) : Prop :=
  (ing_Type ing = "diff" → ∃ type, ing_Diff ing = Some type ∧ type ∈ [""; "dep"; "new-dep"; "full"]) ∧
  (ing_Type ing = "rest" → ∃ rest, ing_Rest ing = Some rest ∧ rest_ok rest).

Definition alert_ok (alert : Alert) : Prop :=
  (alert_Type alert = "security_advisory" ∧ is_Some (alert_SecurityAdvisory alert)) ∨
  (alert_Type alert = "pull_request_comment" ∧
     ∃ message, alert_PullRequestComment alert = Some message ∧ template_ok html_Parse message).

(** A remediation as the API describes it: one of five types, with the
    configuration of its type. *)
Definition remediate_ok (rem : Remediate) : Prop :=
  ((re_Type rem = "rest" ∧ ∃ rest, re_Rest rem = Some rest ∧ rest_ok rest) ∨
   (re_Type rem = "pull_request" ∧ ∃ pr, re_PullRequest rem = Some pr ∧ title_body_ok pr) ∨
   (re_Type rem = "gh_branch_protection" ∧
      ∃ patch, re_GhBranchProtection rem = Some patch ∧ template_ok text_Parse patch) ∨
   (re_Type rem = "issue" ∧ ∃ issue, re_Issue rem = Some issue ∧ title_body_ok issue) ∨
   (re_Type rem = "pull_request_comment" ∧
      ∃ message, re_PullRequestComment rem = Some message ∧ template_ok html_Parse message)).

(** What the validation asks beyond the API: that the remediation is no comment
    on a pull request, which the API and the engine know, and that at most one of
    the three configurations it counts is there. *)
Definition remediate_settable (rem : Remediate) : Prop :=
  re_Type rem ≠ "pull_request_comment" ∧ (fieldsSet rem ≤ 1)%nat.

Definition rule_type_settable (rt : RuleType) : Prop :=
  ∀ def rem, rt_Def rt = Some def → def_Remediate def = Some rem → remediate_settable rem.

Definition eval_ok (ev : pbEval) : Prop :=
  (ev_Type ev = "rego" → ∃ def, ev_Rego ev = Some def ∧ def ≠ "") ∧
  (ev_Type ev = "jq" → ev_Jq ev ≠ [] ∧ Forall comparison_ok (ev_Jq ev)) ∧
  Forall (λ ds, dsr_Name ds ≠ "" ∧ dataSourceAlias (getAliasWithDefault ds) = true)
    (ev_DataSources ev) ∧
  NoDup (getAliasWithDefault <$> ev_DataSources ev).

Record definition_ok (def : RuleTypeDefinition) : Prop := {
  do_entity : IsValid (EntityFromString (def_InEntity def)) = true;
  do_schema : is_Some (def_RuleSchema def);
  do_ingest : ∃ ing, def_Ingest def = Some ing ∧ ingest_ok ing;
  do_alert : ∀ alert, def_Alert def = Some alert → alert_ok alert;
  do_remediate : ∀ rem, def_Remediate def = Some rem → remediate_ok rem;
  do_eval : ∃ ev, def_Eval def = Some ev ∧ eval_ok ev;
}.

Record rule_type_ok (rt : RuleType) : Prop := {
  rto_name : namespaced_name (rt_Name rt);
  rto_def : ∃ def, rt_Def rt = Some def ∧ definition_ok def;
}.

#[local] Arguments missing_template : simpl never.
#[local] Arguments because : simpl never.
#[local] Arguments or_else : simpl never.
#[local] Arguments return_if : simpl never.
#[local] Arguments wrapping : simpl never.

Ltac valid := unfold ErrDef, def_wrap; autorewrite with validate.

Lemma missing_template_None parse t : missing_template parse t = None ↔ template_ok parse t.
Proof.
  unfold missing_template, template_ok. destruct (String.eqb_spec t "") as [->|]; valid; naive_solver.
Qed.

Lemma RestType_ok rest :
  RestType_Validate text_Parse rest = None ↔ ∃ r, rest = Some r ∧ rest_ok r.
Proof.
  unfold rest_ok, template_ok. destruct rest as [r|]; simpl; valid; [|naive_solver].
  rewrite missing_template_None. unfold template_ok. rewrite String.eqb_eq, String.eqb_neq.
  destruct (String.eqb_spec (rest_Method r) "") as [Hm|Hm]; valid;
    rewrite ?missing_template_None; unfold template_ok; naive_solver.
Qed.
Lemma PRComment_ok c :
  PRComment_Validate html_Parse c = None ↔ ∃ m, c = Some m ∧ template_ok html_Parse m.
Proof.
  destruct c as [m|]; simpl; valid; [|naive_solver].
  rewrite missing_template_None, String.eqb_eq, String.eqb_neq. unfold template_ok. naive_solver.
Qed.

Lemma TitleBody_ok kind nil t :
  TitleBody_Validate html_Parse kind nil t = None ↔ ∃ x, t = Some x ∧ title_body_ok x.
Proof.
  destruct t as [x|]; simpl; valid; [|naive_solver].
  rewrite !missing_template_None, !String.eqb_eq, !String.eqb_neq.
  unfold title_body_ok, template_ok. naive_solver.
Qed.

Lemma GhBranchProtection_ok g :
  GhBranchProtection_Validate text_Parse g = None ↔ ∃ p, g = Some p ∧ template_ok text_Parse p.
Proof.
  destruct g as [p|]; simpl; valid; [|naive_solver]. rewrite missing_template_None. naive_solver.
Qed.

(** The branch of a [switch] that is taken. *)
Lemma case_eqb {A : Type} (s t : string) (x y : A) (P : A → Prop) :
  P (if String.eqb s t then x else y) ↔ (s = t ∧ P x) ∨ (s ≠ t ∧ P y).
Proof. destruct (String.eqb_spec s t); naive_solver. Qed.

Lemma Alert_ok a :
  Alert_Validate html_Parse a = None ↔ ∀ x, a = Some x → alert_ok x.
Proof.
  destruct a as [x|]; simpl; [|naive_solver].
  transitivity (alert_ok x); [|naive_solver]. unfold alert_ok.
  rewrite !(case_eqb _ _ _ _ (λ e, e = None)), PRComment_ok. unfold ErrDef. rewrite because_None.
  assert (SecurityAdvisory_Validate (alert_SecurityAdvisory x) = None
    ↔ is_Some (alert_SecurityAdvisory x)) as ->.
  { by destruct (alert_SecurityAdvisory x); simpl; naive_solver. }
  split; [naive_solver|]. intros [?|[Ht ?]]; [by left|right].
  rewrite Ht. split; [done|]. by left.
Qed.

Lemma Remediate_ok r :
  Remediate_Validate text_Parse html_Parse r = None ↔
  ∀ x, r = Some x → remediate_ok x ∧ remediate_settable x.
Proof.
  destruct r as [x|]; cbn [Remediate_Validate]; [|naive_solver].
  transitivity (remediate_ok x ∧ remediate_settable x); [|naive_solver].
  unfold remediate_ok, remediate_settable.
  rewrite or_else_None, return_if_None. unfold ErrDef. rewrite because_None.
  rewrite !(case_eqb _ _ _ _ (λ e, e = None)), because_None.
  unfold PullRequest_Validate, Issue_Validate.
  rewrite RestType_ok, !TitleBody_ok, GhBranchProtection_ok, Nat.ltb_ge.
  split; [intros [Hc Hf]|intros [Hc [Hne Hf]]].
  - assert (1 ≥ fieldsSet x)%nat by naive_solver.
    destruct Hc as [?|[_ [?|[_ [?|[_ [?|[_ []]]]]]]]]; (split; [tauto|split; [|done]]);
      intros Ht; naive_solver congruence.
  - split; [|naive_solver].
    destruct Hc as [?|[[Ht ?]|[[Ht ?]|[[Ht ?]|[Ht ?]]]]]; [by left|..|done]; rewrite Ht.
    + right. split; [done|]. by left.
    + do 2 (right; split; [done|]). by left.
    + do 3 (right; split; [done|]). by left.
Qed.

Lemma DiffType_ok type : DiffType_Validate type = None ↔ type ∈ [""; "dep"; "new-dep"; "full"].
Proof. unfold DiffType_Validate. case_bool_decide; [done|]. unfold ErrDef. by rewrite because_None. Qed.

Lemma Ingest_ok i :
  Ingest_Validate text_Parse i = None ↔ ∃ x, i = Some x ∧ ingest_ok x.
Proof.
  destruct i as [x|]; simpl; [|unfold ErrDef; rewrite because_None; naive_solver].
  transitivity (ingest_ok x); [|naive_solver]. unfold ingest_ok.
  rewrite !(case_eqb _ _ _ _ (λ e, e = None)), RestType_ok.
  assert (match ing_Diff x with Some type => DiffType_Validate type
          | None => ErrDef "diff ingest is nil" end = None
    ↔ ∃ type, ing_Diff x = Some type ∧ type ∈ [""; "dep"; "new-dep"; "full"]) as ->.
  { destruct (ing_Diff x); [rewrite DiffType_ok|]; naive_solver. }
  destruct (decide (ing_Type x = "diff")) as [->|]; [naive_solver|].
  destruct (decide (ing_Type x = "rest")) as [->|]; naive_solver.
Qed.

Lemma Operator_ok op :
  Operator_Validate jq_Parse jq_Compile op = None ↔ ∃ q, op = Some q ∧ jq_ok q.
Proof.
  unfold jq_ok. destruct op as [q|]; simpl; [|unfold ErrDef; rewrite because_None; naive_solver].
  rewrite (case_eqb _ _ _ _ (λ e, e = None)). valid. naive_solver.
Qed.

Lemma JQComparison_ok jq :
  JQComparison_Validate jq_Parse jq_Compile jq = None ↔ comparison_ok jq.
Proof.
  unfold JQComparison_Validate, comparison_ok. valid. rewrite Operator_ok.
  destruct (jq_Profile jq) as [p|], (jq_Constant jq) as [c|]; cbn [is_nil negb andb]; valid;
    rewrite ?Operator_ok; naive_solver.
Qed.

Lemma jqs_ok i l : jqs_Validate jq_Parse jq_Compile i l = None ↔ Forall comparison_ok l.
Proof.
  revert i. induction l as [|jq l IH]; intros i; simpl; [by split|].
  valid. by rewrite JQComparison_ok, IH, Forall_cons.
Qed.

Lemma dataSources_ok i aliases l :
  dataSources_Validate i aliases l = None ↔
  Forall (λ ds, dsr_Name ds ≠ "" ∧ dataSourceAlias (getAliasWithDefault ds) = true) l ∧
  NoDup (getAliasWithDefault <$> l) ∧ ∀ ds, ds ∈ l → getAliasWithDefault ds ∉ aliases.
Proof.
  revert i aliases. induction l as [|ds l IH]; intros i aliases; simpl.
  { split; [|done]. intros _. split_and!; [done|constructor|]. by intros ? ?%not_elem_of_nil. }
  valid. rewrite IH, Forall_cons, NoDup_cons, bool_decide_eq_true, bool_decide_eq_false.
  unfold DataSourceReference_Validate. valid.
  rewrite (case_eqb _ _ _ _ (λ e, e = None)) || idtac.
  rewrite String.eqb_eq, String.eqb_neq, list_elem_of_fmap.
  destruct (dataSourceAlias (getAliasWithDefault ds)); valid; [|naive_solver].
  split.
  - intros ([[_ []]|[Hn _]] & [[_ ?]|(Ha & Hall & Hnd & Hnew)]); [done|].
    split_and!; [done..| |done|].
    + intros (d & Hd & Hin). apply (Hnew d Hin). rewrite <-Hd. by left.
    + intros d [->|Hin]%elem_of_cons; [done|]. intros Hd. apply (Hnew d Hin). by right.
  - intros ([[Hn _] Hall] & [Hfresh Hnd] & Hnew).
    split; [by right|]. right. split_and!; [apply Hnew; by left|done..|].
    intros d Hin [Hd|Hd]%elem_of_cons; [apply Hfresh; by exists d|]. apply (Hnew d); [by right|done].
Qed.

Lemma Eval_ok e :
  Eval_Validate jq_Parse jq_Compile e = None ↔ ∃ x, e = Some x ∧ eval_ok x.
Proof.
  destruct e as [x|]; simpl; [|unfold ErrDef; rewrite because_None; naive_solver].
  transitivity (eval_ok x); [|naive_solver]. unfold eval_ok.
  rewrite or_else_None, dataSources_ok, !(case_eqb _ _ _ _ (λ e, e = None)).
  assert (Rego_Validate (ev_Rego x) = None ↔ ∃ def, ev_Rego x = Some def ∧ def ≠ "") as ->.
  { destruct (ev_Rego x) as [def|]; simpl; [|naive_solver].
    rewrite (case_eqb _ _ _ _ (λ e, e = None)). naive_solver. }
  assert ((if bool_decide (ev_Jq x = []) then ErrDef "jq definition is empty"
           else jqs_Validate jq_Parse jq_Compile 0 (ev_Jq x)) = None
    ↔ ev_Jq x ≠ [] ∧ Forall comparison_ok (ev_Jq x)) as ->.
  { case_bool_decide; [naive_solver|]. rewrite jqs_ok. naive_solver. }
  assert (Hnone : (∀ ds, ds ∈ ev_DataSources x → getAliasWithDefault ds ∉ @nil string) ↔ True).
  { split; [done|]. intros _ ? _ ?%not_elem_of_nil. done. }
  rewrite Hnone.
  destruct (decide (ev_Type x = "rego")) as [->|]; [naive_solver|].
  destruct (decide (ev_Type x = "jq")) as [->|]; naive_solver.
Qed.

Lemma rule_type_validity rt :
  RuleType_Validate jq_Parse jq_Compile text_Parse html_Parse (Some rt) = None ↔
  rule_type_ok rt ∧ rule_type_settable rt.
Proof.
  cbn [RuleType_Validate]. rewrite return_if_None, because_None, or_else_None, !wrapping_None,
    validateNamespacedName_spec, String.eqb_eq, String.eqb_neq.
  assert (Hdef : Definition_Validate jq_Parse jq_Compile text_Parse html_Parse (rt_Def rt) = None
    ↔ (∃ def, rt_Def rt = Some def ∧ definition_ok def) ∧ rule_type_settable rt).
  { unfold rule_type_settable.
    destruct (rt_Def rt) as [def|]; cbn [Definition_Validate];
      [|unfold ErrDef; rewrite because_None; naive_solver].
    valid. rewrite Ingest_ok, Alert_ok, Remediate_ok, Eval_ok, negb_true_iff, negb_false_iff.
    destruct (def_RuleSchema def) as [m|] eqn:Hm; cbn [is_nil]; split.
    - intros [[_ []]|(He & [[? []]|(_ & Hi & Ha & Hr & Hev)])]; try done.
      split; [|intros ? rem [= <-] Hrem; by apply Hr].
      exists def. split; [done|]. split; try done. intros rem Hrem. by apply Hr.
    - intros [(d & [= <-] & [He Hs Hi Ha Hr Hev]) Hset]. right. split; [done|]. right.
      split_and!; try done. intros rem Hrem. split; [by apply Hr|by apply (Hset def)].
    - intros [[_ []]|(He & [[? []]|(? & _)])]; done.
    - intros [(d & [= <-] & [He [? Hs] Hi Ha Hr Hev]) _]. congruence. }
  rewrite Hdef. split.
  - intros [[_ []]|(Hn & Hname & Hd & Hset)]. by split.
  - intros [[Hname Hd] Hset]. right. split_and!; [|done..]. intros Hn. rewrite Hn in Hname.
    destruct Hname as [(_ & _ & (c & ? & _) & _)|([|? ?] & name & _ & _ & ?)]; done.
Qed.

(** A rule type is accepted exactly when it is well formed: a name of the
    DNS style with at most one namespace, an entity, a schema, an ingestion and
    an evaluator, and for the ingestion, the evaluator, the alert and the
    remediation the configuration their type calls for, with templates and jq
    expressions that parse, and aliases that are valid and differ; and its
    remediation can be set, which leaves out the comment on a pull request. *)
Theorem rule_type_validated rt :
  RuleType_Validate jq_Parse jq_Compile text_Parse html_Parse (Some rt) = None ↔
  rule_type_ok rt ∧ rule_type_settable rt.
Proof. apply rule_type_validity. Qed.
End wf.

(** ** The engines of a rule type that was accepted *)

Section engines.
Context (jq_Parse jq_Compile text_Parse html_Parse : string → error).
Context {W E P : Type} `{ActionProviders W E P}.
(** The configurations as the engines take them. *)
Context (any_rest : RestType → any) (any_text : string → any) (any_texts : TitleBody → any)
        (any_advisory : unit → any).

Definition engine_remediate (r : Remediate) : RemediateDef :=
  {| rem_Type := re_Type r; rem_Rest := any_rest <$> re_Rest r;
     rem_GhBranchProtection := any_text <$> re_GhBranchProtection r;
     rem_PullRequest := any_texts <$> re_PullRequest r; rem_Issue := any_texts <$> re_Issue r;
     rem_PullRequestComment := any_text <$> re_PullRequestComment r |}.

Definition engine_alert (a : Alert) : AlertDef :=
  {| al_Type := alert_Type a; al_SecurityAdvisory := any_advisory <$> alert_SecurityAdvisory a;
     al_PullRequestComment := any_text <$> alert_PullRequestComment a |}.

Definition engine_def (def : RuleTypeDefinition) : RuleTypeDef :=
  {| rt_Remediate := engine_remediate <$> def_Remediate def;
     rt_Alert := engine_alert <$> def_Alert def |}.

Definition unless (has : bool) (trait : string) (m : res (Action W E)) : res (Action W E) :=
  if has then m else Err (EText ("provider does not implement " +:+ trait +:+ " trait")).

(** A rule type that was accepted has its engines.  The remediation and the
    alert of an accepted definition reach the constructor of their type with
    the configuration they were given, or fail for a trait the provider lacks:
    no configuration is missing and no type is unknown.  The fifth kind of
    remediation the engines know, a review comment, is never accepted. *)
Theorem accepted_engines rt def p s
    (Hvalid : RuleType_Validate jq_Parse jq_Compile text_Parse html_Parse (Some rt) = None)
    (Hdef : rt_Def rt = Some def) :
  match def_Remediate def with
  | None => NewRuleRemediator (engine_def def) p s = NewNoopRemediate remediate_ActionType
  | Some r =>
      (∃ c, re_Rest r = Some c ∧ NewRuleRemediator (engine_def def) p s =
         unless (As_REST p) "rest" (NewRestRemediate p remediate_ActionType (any_rest c) s)) ∨
      (∃ c, re_GhBranchProtection r = Some c ∧ NewRuleRemediator (engine_def def) p s =
         unless (As_GitHub p) "git"
           (NewGhBranchProtectRemediator p remediate_ActionType (any_text c) s)) ∨
      (∃ c, re_PullRequest r = Some c ∧ NewRuleRemediator (engine_def def) p s =
         unless (As_GitHub p) "git" (NewPullRequestRemediate p remediate_ActionType (any_texts c) s)) ∨
      (∃ c, re_Issue r = Some c ∧ NewRuleRemediator (engine_def def) p s =
         unless (As_IssuePublisher p) "issue"
           (NewIssueRemediate p remediate_ActionType (any_texts c) s))
  end ∧
  match def_Alert def with
  | None => NewRuleAlert (engine_def def) p s = NewNoopAlert alert_ActionType
  | Some a =>
      (∃ c, alert_SecurityAdvisory a = Some c ∧ NewRuleAlert (engine_def def) p s =
         if As_GitHub p then NewSecurityAdvisoryAlert p alert_ActionType (any_advisory c) s
         else NewNoopAlert alert_ActionType) ∨
      (∃ c, alert_PullRequestComment a = Some c ∧ NewRuleAlert (engine_def def) p s =
         if As_ReviewPublisher p then NewPullRequestCommentAlert p alert_ActionType (any_text c) s
         else NewNoopAlert alert_ActionType)
  end.
Proof.
  apply rule_type_validity in Hvalid as [[_ (d & Hd & [_ _ _ Ha Hr _])] Hset].
  rewrite Hdef in Hd. injection Hd as <-. specialize (Hset def). split.
  - destruct (def_Remediate def) as [r|] eqn:HE; unfold NewRuleRemediator; cbn [engine_def rt_Remediate];
      rewrite HE; [|done]. cbn [option_fmap option_map fmap].
    destruct (Hset r Hdef eq_refl) as [Hne _].
    destruct (Hr r eq_refl) as [(Ht & c & Hc & _)|[(Ht & c & Hc & _)|[(Ht & c & Hc & _)|
      [(Ht & c & Hc & _)|[Ht _]]]]]; [..|done]; cbn [engine_remediate rem_Type rem_Rest rem_GhBranchProtection
      rem_PullRequest rem_Issue]; rewrite Ht, Hc; cbn.
    + left. exists c. split; [done|]. unfold unless. by destruct (As_REST p).
    + right. right. left. exists c. split; [done|]. unfold unless. by destruct (As_GitHub p).
    + right. left. exists c. split; [done|]. unfold unless. by destruct (As_GitHub p).
    + right. right. right. exists c. split; [done|]. unfold unless. by destruct (As_IssuePublisher p).
  - destruct (def_Alert def) as [a|] eqn:HE; unfold NewRuleAlert; cbn [engine_def rt_Alert];
      rewrite HE; [|done]. cbn [option_fmap option_map fmap].
    destruct (Ha a eq_refl) as [[Ht [c Hc]]|(Ht & c & Hc & _)];
      cbn [engine_alert al_Type al_SecurityAdvisory al_PullRequestComment]; rewrite Ht, Hc; cbn.
    + left. by exists c.
    + right. by exists c.
Qed.
End engines.

(** ** Witness: a rule type with an issue remediation and an advisory *)

Definition ex_definition : RuleTypeDefinition :=
  {| def_InEntity := "repository"; def_RuleSchema := Some ∅; def_ParamSchema := None;
     def_Ingest := Some {| ing_Type := "git"; ing_Rest := None; ing_Diff := None |};
     def_Eval := Some {| ev_Type := "rego"; ev_Jq := []; ev_Rego := Some "package minder";
                         ev_DataSources := [{| dsr_Name := "ghapi"; dsr_Alias := "" |}] |};
     def_Remediate := Some {| re_Type := "issue"; re_Rest := None; re_GhBranchProtection := None;
                              re_PullRequest := None; re_PullRequestComment := None;
                              re_Issue := Some {| tb_Title := "Fix"; tb_Body := "it" |} |};
     def_Alert := Some {| alert_Type := "security_advisory"; alert_SecurityAdvisory := Some tt;
                          alert_PullRequestComment := None |} |}.

Definition ex_rule_type : RuleType :=
  {| rt_Id := None; rt_Name := "minder/secret-scanning"; rt_DisplayName := "Secret scanning";
     rt_ShortFailureMessage := ""; rt_Context := None; rt_Def := Some ex_definition;
     rt_Description := ""; rt_Guidance := ""; rt_Severity := "high"; rt_ReleasePhase := "beta" |}.

Definition parses : string → error := λ _, None.

Lemma accepted_engines_witness :
  RuleType_Validate parses parses parses parses (Some ex_rule_type) = None ∧
  ∃ c, def_Remediate ex_definition ≫= re_Issue = Some c ∧
  @NewRuleRemediator _ _ _ log_providers
    (engine_def (λ _, Any "") Any (λ t, Any (tb_Title t)) (λ _, Any "") ex_definition) tt ActionOptOn
  = unless (@As_IssuePublisher _ _ _ log_providers tt) "issue"
      (@NewIssueRemediate _ _ _ log_providers tt remediate_ActionType (Any (tb_Title c)) ActionOptOn).
Proof.
  split; [vm_compute; reflexivity|].
  destruct (@accepted_engines parses parses parses parses _ _ _ log_providers
    (λ _, Any "") Any (λ t, Any (tb_Title t)) (λ _, Any "") ex_rule_type ex_definition tt ActionOptOn)
    as [Hr _]; [vm_compute; reflexivity|reflexivity|].
  cbn [def_Remediate ex_definition re_Rest re_GhBranchProtection re_PullRequest re_Issue] in Hr.
  destruct Hr as [(c & [=] & _)|[(c & [=] & _)|[(c & [=] & _)|(c & Hc & Hr)]]].
  exists c. exact (conj Hc Hr).
Defined.
