(* ===== verification/Database.v ===== *)
(** * The database and the world of the server

    The tables the modelled queries touch, as they are after the migrations of
    database/migrations/, and the world a request runs in: the database, the
    clock, the supply of random ids, the failures the connection is going to
    have and the messages published.  A query is one atomic step; it fails, and
    changes nothing, when the next entry of [w_faults] says so. *)

From S2P Require Import Prelude GoErrors GoMonad Uuid DbTypes ProfileModels EntityEvent.
Local Open Scope string_scope.

(** ** Tables *)

Record EntityInstance := {
  ei_EntityType : Entities; ei_Name : string; ei_ProjectID : UUID; ei_ProviderID : UUID;
  ei_OriginatedFrom : option UUID;
}.

(** [properties], unique on [(entity_id, key)]; the value is [JSONB]. *)
Record Property := { pr_Value : string; pr_UpdatedAt : Z }.

Record Provider := {
  prv_Name : string; prv_Class : string; prv_Implements : list string; prv_ProjectID : UUID;
}.

(** [entity_execution_lock], unique on its [entity_instance_id]. *)
Record EntityExecutionLock := {
  lk_Entity : Entities; lk_LockedBy : UUID; lk_LastLockTime : Z; lk_ProjectID : UUID;
}.

(** [flush_cache], unique on its [entity_instance_id]. *)
Record FlushCacheRow := {
  fc_Entity : Entities; fc_QueuedAt : Z; fc_ProjectID : UUID; fc_EntityInstanceID : UUID;
}.

Record EvaluationRuleEntity := {
  ere_RuleID : UUID; ere_EntityType : Entities; ere_EntityInstanceID : UUID;
}.

Record EvaluationStatus := {
  es_RuleEntityID : UUID; es_Status : EvalStatusTypes; es_Details : string;
  es_EvaluationTime : Z; es_Checkpoint : string;
}.

(** [latest_evaluation_statuses], whose key is the rule entity. *)
Record LatestStatus := { la_EvaluationHistoryID : UUID; la_ProfileID : UUID }.

(** [remediation_events] and [alert_events]; the metadata are [NOT NULL]. *)
Record ActionEvent := {
  ev_EvaluationID : UUID; ev_Status : string; ev_Details : string; ev_Metadata : string;
  ev_CreatedAt : Z;
}.

Record EvaluationOutput := { eo_Output : option string; eo_Debug : option string }.

(** [rule_instances], unique on the profile, the entity type and the lower case
    of the name; the definition and the parameters are [JSONB]. *)
Record dbRuleInstance := {
  rin_Name : string; rin_RuleTypeID : UUID; rin_ProfileID : UUID;
  rin_EntityType : Entities; rin_Def : string; rin_Params : string; rin_ProjectID : UUID;
}.

(** [rule_type], unique on the project and the lower case of the name. *)
Record dbRuleType := {
  rty_Name : string; rty_Severity : string; rty_ProjectID : UUID; rty_Description : string;
  rty_Guidance : string; rty_Definition : string; rty_SubscriptionID : option UUID;
  rty_DisplayName : string; rty_ReleasePhase : string; rty_ShortFailureMessage : string;
  rty_RegoVersion : string;
}.

(** [profiles], unique on the project and the lower case of the name. *)
Record dbProfile := {
  dpr_Name : string; dpr_Labels : list string; dpr_ProjectID : UUID;
  dpr_Remediate : option ActionTypeDB; dpr_Alert : option ActionTypeDB;
  dpr_SubscriptionID : option UUID; dpr_DisplayName : string;
}.

(** [provider_access_tokens]: the provider, by project and name, and the secret in
    its old and in its new column, of type [JSONB]. *)
Record ProviderAccessToken := {
  pat_ProjectID : UUID; pat_Provider : string;
  pat_EncryptedToken : option string; pat_EncryptedAccessToken : option string;
}.

(** [data_sources], unique on the project and the lower case of the name; the
    metadata are [JSONB]. *)
Record dbDataSource := {
  dso_Name : string; dso_DisplayName : string; dso_ProjectID : UUID;
  dso_SubscriptionID : option UUID; dso_Metadata : option string;
}.

(** [data_sources_functions], unique on the data source, the project and the
    lower case of the name; the definition is [JSONB]. *)
Record dbDataSourceFunction := {
  dsf_Name : string; dsf_Type : string; dsf_DataSourceID : UUID; dsf_ProjectID : UUID;
  dsf_Definition : string;
}.

(** The tables of the data sources; [rule_type_data_sources] has the project for
    a rule type and a data source. *)
Record Sources := {
  s_sources : gmap UUID dbDataSource;
  s_functions : gmap UUID dbDataSourceFunction;
  s_references : gmap (UUID * UUID) UUID;
}.

Record Db := {
  entity_instances : gmap UUID EntityInstance;
  entity_execution_lock : gmap UUID EntityExecutionLock;
  flush_cache : gmap UUID FlushCacheRow;
  evaluation_rule_entities : gmap UUID EvaluationRuleEntity;
  evaluation_statuses : gmap UUID EvaluationStatus;
  latest_evaluation_statuses : gmap UUID LatestStatus;
  evaluation_outputs : gmap UUID EvaluationOutput;
  remediation_events : list ActionEvent;
  alert_events : list ActionEvent;
  rule_instances : gmap UUID dbRuleInstance;
  rule_types : gmap UUID dbRuleType;
  profiles : gmap UUID dbProfile;
  projects : gset UUID;
  providers : gmap UUID Provider;
  provider_access_tokens : gmap Z ProviderAccessToken;
  properties : gmap (UUID * string) Property;
  (** the features of a project *)
  entitlements : gset (UUID * string);
  (** the [parent_id] of the projects that have one *)
  parent_projects : gmap UUID UUID;
  (** the contextual rules, [JSONB], unique on the profile and the entity *)
  entity_profiles : gmap (UUID * Entities) string;
  profile_selectors : list dbProfileSelector;
  (** the projects that are organizations *)
  organizations : gset UUID;
  sources : Sources;
}.

Record World := {
  w_db : Db;
  w_now : Z;
  w_fresh : nat;
  w_faults : list (option gerr);
  w_published : list (string * message);
}.

Definition set_db (d : Db) (w : World) : World :=
  {| w_db := d; w_now := w_now w; w_fresh := w_fresh w; w_faults := w_faults w;
     w_published := w_published w |}.

Definition set_faults (f : list (option gerr)) (w : World) : World :=
  {| w_db := w_db w; w_now := w_now w; w_fresh := w_fresh w; w_faults := f;
     w_published := w_published w |}.

Definition set_fresh (n : nat) (w : World) : World :=
  {| w_db := w_db w; w_now := w_now w; w_fresh := n; w_faults := w_faults w;
     w_published := w_published w |}.

Definition add_published (topic : string) (m : message) (w : World) : World :=
  {| w_db := w_db w; w_now := w_now w; w_fresh := w_fresh w; w_faults := w_faults w;
     w_published := w_published w ++ [(topic, m)] |}.

(** ** Table updates *)

Definition set_locks (t : gmap UUID EntityExecutionLock) (d : Db) : Db :=
  {| entity_instances := entity_instances d; entity_execution_lock := t;
     flush_cache := flush_cache d; evaluation_rule_entities := evaluation_rule_entities d;
     evaluation_statuses := evaluation_statuses d;
     latest_evaluation_statuses := latest_evaluation_statuses d;
     evaluation_outputs := evaluation_outputs d; remediation_events := remediation_events d;
     alert_events := alert_events d; rule_instances := rule_instances d;
     rule_types := rule_types d; profiles := profiles d; projects := projects d;
     providers := providers d; provider_access_tokens := provider_access_tokens d;
     properties := properties d; entitlements := entitlements d;
     parent_projects := parent_projects d; entity_profiles := entity_profiles d;
     profile_selectors := profile_selectors d; organizations := organizations d; sources := sources d |}.

Definition set_flush (t : gmap UUID FlushCacheRow) (d : Db) : Db :=
  {| entity_instances := entity_instances d; entity_execution_lock := entity_execution_lock d;
     flush_cache := t; evaluation_rule_entities := evaluation_rule_entities d;
     evaluation_statuses := evaluation_statuses d;
     latest_evaluation_statuses := latest_evaluation_statuses d;
     evaluation_outputs := evaluation_outputs d; remediation_events := remediation_events d;
     alert_events := alert_events d; rule_instances := rule_instances d;
     rule_types := rule_types d; profiles := profiles d; projects := projects d;
     providers := providers d; provider_access_tokens := provider_access_tokens d;
     properties := properties d; entitlements := entitlements d;
     parent_projects := parent_projects d; entity_profiles := entity_profiles d;
     profile_selectors := profile_selectors d; organizations := organizations d; sources := sources d |}.

Definition set_tokens (t : gmap Z ProviderAccessToken) (d : Db) : Db :=
  {| entity_instances := entity_instances d; entity_execution_lock := entity_execution_lock d;
     flush_cache := flush_cache d; evaluation_rule_entities := evaluation_rule_entities d;
     evaluation_statuses := evaluation_statuses d;
     latest_evaluation_statuses := latest_evaluation_statuses d;
     evaluation_outputs := evaluation_outputs d; remediation_events := remediation_events d;
     alert_events := alert_events d; rule_instances := rule_instances d;
     rule_types := rule_types d; profiles := profiles d; projects := projects d;
     providers := providers d; provider_access_tokens := t;
     properties := properties d; entitlements := entitlements d;
     parent_projects := parent_projects d; entity_profiles := entity_profiles d;
     profile_selectors := profile_selectors d; organizations := organizations d; sources := sources d |}.

Definition set_entities (t : gmap UUID EntityInstance) (d : Db) : Db :=
  {| entity_instances := t; entity_execution_lock := entity_execution_lock d;
     flush_cache := flush_cache d; evaluation_rule_entities := evaluation_rule_entities d;
     evaluation_statuses := evaluation_statuses d;
     latest_evaluation_statuses := latest_evaluation_statuses d;
     evaluation_outputs := evaluation_outputs d; remediation_events := remediation_events d;
     alert_events := alert_events d; rule_instances := rule_instances d;
     rule_types := rule_types d; profiles := profiles d; projects := projects d;
     providers := providers d; provider_access_tokens := provider_access_tokens d;
     properties := properties d; entitlements := entitlements d;
     parent_projects := parent_projects d; entity_profiles := entity_profiles d;
     profile_selectors := profile_selectors d; organizations := organizations d; sources := sources d |}.

Definition set_properties (t : gmap (UUID * string) Property) (d : Db) : Db :=
  {| entity_instances := entity_instances d; entity_execution_lock := entity_execution_lock d;
     flush_cache := flush_cache d; evaluation_rule_entities := evaluation_rule_entities d;
     evaluation_statuses := evaluation_statuses d;
     latest_evaluation_statuses := latest_evaluation_statuses d;
     evaluation_outputs := evaluation_outputs d; remediation_events := remediation_events d;
     alert_events := alert_events d; rule_instances := rule_instances d;
     rule_types := rule_types d; profiles := profiles d; projects := projects d;
     providers := providers d; provider_access_tokens := provider_access_tokens d;
     properties := t; entitlements := entitlements d;
     parent_projects := parent_projects d; entity_profiles := entity_profiles d;
     profile_selectors := profile_selectors d; organizations := organizations d; sources := sources d |}.

Definition set_rule_types (t : gmap UUID dbRuleType) (d : Db) : Db :=
  {| entity_instances := entity_instances d; entity_execution_lock := entity_execution_lock d;
     flush_cache := flush_cache d; evaluation_rule_entities := evaluation_rule_entities d;
     evaluation_statuses := evaluation_statuses d;
     latest_evaluation_statuses := latest_evaluation_statuses d;
     evaluation_outputs := evaluation_outputs d; remediation_events := remediation_events d;
     alert_events := alert_events d; rule_instances := rule_instances d;
     rule_types := t; profiles := profiles d; projects := projects d;
     providers := providers d; provider_access_tokens := provider_access_tokens d;
     properties := properties d; entitlements := entitlements d;
     parent_projects := parent_projects d; entity_profiles := entity_profiles d;
     profile_selectors := profile_selectors d; organizations := organizations d; sources := sources d |}.

Definition set_sources (t : Sources) (d : Db) : Db :=
  {| entity_instances := entity_instances d; entity_execution_lock := entity_execution_lock d;
     flush_cache := flush_cache d; evaluation_rule_entities := evaluation_rule_entities d;
     evaluation_statuses := evaluation_statuses d;
     latest_evaluation_statuses := latest_evaluation_statuses d;
     evaluation_outputs := evaluation_outputs d; remediation_events := remediation_events d;
     alert_events := alert_events d; rule_instances := rule_instances d;
     rule_types := rule_types d; profiles := profiles d; projects := projects d;
     providers := providers d; provider_access_tokens := provider_access_tokens d;
     properties := properties d; entitlements := entitlements d;
     parent_projects := parent_projects d; entity_profiles := entity_profiles d;
     profile_selectors := profile_selectors d; organizations := organizations d; sources := t |}.

(** The projects with their providers and their features. *)
Record Tenants := {
  t_projects : gset UUID;
  t_parents : gmap UUID UUID;
  t_organizations : gset UUID;
  t_entitlements : gset (UUID * string);
  t_providers : gmap UUID Provider;
}.

Definition tenants (d : Db) : Tenants :=
  {| t_projects := projects d; t_parents := parent_projects d; t_organizations := organizations d;
     t_entitlements := entitlements d; t_providers := providers d |}.

Definition set_tenants (t : Tenants) (d : Db) : Db :=
  {| entity_instances := entity_instances d; entity_execution_lock := entity_execution_lock d;
     flush_cache := flush_cache d; evaluation_rule_entities := evaluation_rule_entities d;
     evaluation_statuses := evaluation_statuses d;
     latest_evaluation_statuses := latest_evaluation_statuses d;
     evaluation_outputs := evaluation_outputs d; remediation_events := remediation_events d;
     alert_events := alert_events d; rule_instances := rule_instances d;
     rule_types := rule_types d; profiles := profiles d; projects := t_projects t;
     providers := t_providers t; provider_access_tokens := provider_access_tokens d;
     properties := properties d; entitlements := t_entitlements t;
     parent_projects := t_parents t; entity_profiles := entity_profiles d;
     profile_selectors := profile_selectors d; organizations := t_organizations t; sources := sources d |}.

(** The tables of the profiles. *)
Record Policies := {
  p_rules : gmap UUID dbRuleInstance;
  p_profiles : gmap UUID dbProfile;
  p_entities : gmap (UUID * Entities) string;
  p_selectors : list dbProfileSelector;
}.

Definition policies (d : Db) : Policies :=
  {| p_rules := rule_instances d; p_profiles := profiles d; p_entities := entity_profiles d;
     p_selectors := profile_selectors d |}.

Definition set_policies (p : Policies) (d : Db) : Db :=
  {| entity_instances := entity_instances d; entity_execution_lock := entity_execution_lock d;
     flush_cache := flush_cache d; evaluation_rule_entities := evaluation_rule_entities d;
     evaluation_statuses := evaluation_statuses d;
     latest_evaluation_statuses := latest_evaluation_statuses d;
     evaluation_outputs := evaluation_outputs d; remediation_events := remediation_events d;
     alert_events := alert_events d; rule_instances := p_rules p;
     rule_types := rule_types d; profiles := p_profiles p; projects := projects d;
     providers := providers d; provider_access_tokens := provider_access_tokens d;
     properties := properties d; entitlements := entitlements d;
     parent_projects := parent_projects d; entity_profiles := p_entities p;
     profile_selectors := p_selectors p; organizations := organizations d; sources := sources d |}.

(** The five history tables. *)
Record History := {
  h_entities : gmap UUID EvaluationRuleEntity;
  h_statuses : gmap UUID EvaluationStatus;
  h_latest : gmap UUID LatestStatus;
  h_outputs : gmap UUID EvaluationOutput;
  h_remediations : list ActionEvent;
  h_alerts : list ActionEvent;
}.

Definition history (d : Db) : History :=
  {| h_entities := evaluation_rule_entities d; h_statuses := evaluation_statuses d;
     h_latest := latest_evaluation_statuses d; h_outputs := evaluation_outputs d;
     h_remediations := remediation_events d; h_alerts := alert_events d |}.

Definition set_history (h : History) (d : Db) : Db :=
  {| entity_instances := entity_instances d; entity_execution_lock := entity_execution_lock d;
     flush_cache := flush_cache d; evaluation_rule_entities := h_entities h;
     evaluation_statuses := h_statuses h; latest_evaluation_statuses := h_latest h;
     evaluation_outputs := h_outputs h; remediation_events := h_remediations h;
     alert_events := h_alerts h; rule_instances := rule_instances d;
     rule_types := rule_types d; profiles := profiles d; projects := projects d;
     providers := providers d; provider_access_tokens := provider_access_tokens d;
     properties := properties d; entitlements := entitlements d;
     parent_projects := parent_projects d; entity_profiles := entity_profiles d;
     profile_selectors := profile_selectors d; organizations := organizations d; sources := sources d |}.

(** ** Queries and transactions *)

(** A statement of the driver: it may fail on the connection, before doing
    anything; else it does its work on the tables. *)
Definition query {A} (f : World → World * res A) : prog World A := λ w,
  match w_faults w with
  | Some e :: fs => (set_faults fs w, Err e)
  | None :: fs => f (set_faults fs w)
  | [] => f w
  end.

(** A statement that only reads. *)
Definition select {A} (f : World → res A) : prog World A := query (λ w, (w, f w)).

Definition BeginTransaction : prog World unit := select (λ _, Ok tt).
Definition Commit : prog World unit := select (λ _, Ok tt).

(** The tables go back to what they were; [ROLLBACK] itself is not allowed to
    change anything else. *)
Definition restore (d : Db) : prog World unit := modify (set_db d).

(** [SQLStore.WithTransactionErr] of internal/db/store.go.  The deferred
    rollback runs on every path; after a commit it does nothing. *)
Definition WithTransactionErr (fn : prog World unit) : prog World unit := λ w0,
  match BeginTransaction w0 with
  | (w1, Ok _) =>
      let d := w_db w1 in
      match fn w1 with
      | (w2, Ok _) =>
          match Commit w2 with
          | (w3, Ok _) => (w3, Ok tt)
          | (w3, Err e) => (set_db d w3, Err e)
          | (w3, Panic m) => (set_db d w3, Panic m)
          end
      | (w2, Err e) => (set_db d w2, Err e)
      | (w2, Panic m) => (set_db d w2, Panic m)
      end
  | (w1, Err e) => (w1, Err e)
  | (w1, Panic m) => (w1, Panic m)
  end.

(** [db.WithTransaction]: the same with a value. *)
Definition WithTransaction {A} (fn : prog World A) : prog World A := λ w0,
  match BeginTransaction w0 with
  | (w1, Ok _) =>
      let d := w_db w1 in
      match fn w1 with
      | (w2, Ok a) =>
          match Commit w2 with
          | (w3, Ok _) => (w3, Ok a)
          | (w3, Err e) => (set_db d w3, Err e)
          | (w3, Panic m) => (set_db d w3, Panic m)
          end
      | (w2, Err e) => (set_db d w2, Err e)
      | (w2, Panic m) => (set_db d w2, Panic m)
      end
  | (w1, Err e) => (w1, Err e)
  | (w1, Panic m) => (w1, Panic m)
  end.

(** The errors the database itself raises. *)
Definition ForeignKeyViolation : gerr :=
  ENew "pq.foreign_key_violation" "violates foreign key constraint".
Definition NotNullViolation : gerr :=
  ENew "pq.not_null_violation" "violates not-null constraint".

(** ** Lemmas *)

Lemma query_ok {A} (f : World → World * res A) w :
  w_faults w = [] → query f w = f w.
Proof. unfold query. by intros ->. Qed.

Lemma select_ok {A} (f : World → res A) w :
  w_faults w = [] → select f w = (w, f w).
Proof. intros. unfold select. by rewrite query_ok. Qed.

(** A statement either fails on the connection or does its work. *)
Lemma query_cases {A} (f : World → World * res A) w :
  (∃ e fs, query f w = (set_faults fs w, Err e)) ∨
  (∃ fs, query f w = f (set_faults fs w)).
Proof.
  unfold query. destruct (w_faults w) as [|[e|] fs] eqn:Hf.
  - right. exists []. destruct w; simpl in *. by rewrite Hf.
  - left. eauto.
  - right. eauto.
Qed.

(** The same, with what the list of failures says. *)
Lemma query_Ok {A} (f : World → World * res A) w w' a :
  query f w = (w', Ok a) → ∃ fs, f (set_faults fs w) = (w', Ok a).
Proof.
  intros Hq. destruct (query_cases f w) as [(e & fs & H)|(fs & H)]; rewrite H in Hq;
    [discriminate|eauto].
Qed.

Lemma query_faults {A} (f : World → World * res A) w :
  (∃ e fs, w_faults w = Some e :: fs ∧ query f w = (set_faults fs w, Err e)) ∨
  (∃ fs, (w_faults w = [] → fs = []) ∧ query f w = f (set_faults fs w)).
Proof.
  unfold query. destruct (w_faults w) as [|[e|] fs] eqn:Hf.
  - right. exists []. split; [done|]. destruct w; simpl in *. by rewrite Hf.
  - left. eauto.
  - right. exists fs. done.
Qed.

Lemma query_db {A} (f : World → World * res A) (P : Db → Prop) w :
  (∀ w', w_db w' = w_db w → w_now w' = w_now w → w_fresh w' = w_fresh w → P (w_db (f w').1)) →
  P (w_db w) → P (w_db (query f w).1).
Proof.
  intros Hf HP. destruct (query_cases f w) as [(e & fs & ->)|(fs & ->)]; [done|].
  by apply Hf.
Qed.

(** A connection failure is not the absence of rows. *)
Definition honest_faults (w : World) : Prop :=
  ∀ e, Some e ∈ w_faults w → is_in e ErrNoRows = false.

Lemma query_honest {A} (f : World → World * res A) w :
  honest_faults w →
  (∃ e fs, query f w = (set_faults fs w, Err e) ∧ is_in e ErrNoRows = false ∧
     honest_faults (set_faults fs w)) ∨
  (∃ fs, query f w = f (set_faults fs w) ∧ honest_faults (set_faults fs w)).
Proof.
  unfold honest_faults, query. intros Hh. destruct (w_faults w) as [|[e|] fs] eqn:Hf.
  - right. exists []. split; [destruct w; simpl in *; by rewrite Hf|]. simpl. set_solver.
  - left. exists e, fs. split_and!; [done|apply Hh; set_solver|]. simpl. set_solver.
  - right. exists fs. split; [done|]. simpl. set_solver.
Qed.

(** [I] on the tables is kept by a statement that keeps it. *)
Lemma preserves_query {A} (I : Db → Prop) (f : World → World * res A) :
  (∀ w, I (w_db w) → I (w_db (f w).1)) → preserves (λ w, I (w_db w)) (query f).
Proof.
  intros Hf w Hw. apply query_db; [|done]. intros w' Hw' _ _. apply Hf. by rewrite Hw'.
Qed.

Lemma preserves_select {A} (I : Db → Prop) (f : World → res A) :
  preserves (λ w, I (w_db w)) (select f).
Proof. by apply preserves_query. Qed.

#[export] Hint Resolve preserves_query preserves_select : preserves.

Lemma preserves_WithTransaction {A} (I : Db → Prop) (fn : prog World A) :
  preserves (λ w, I (w_db w)) fn → preserves (λ w, I (w_db w)) (WithTransaction fn).
Proof.
  intros Hfn w Hw. unfold WithTransaction.
  pose proof (preserves_select I (λ _, Ok tt) w Hw) as H1. fold BeginTransaction in H1.
  destruct (BeginTransaction w) as [w1 [[]|e|m]]; simpl in *; [|done|done].
  specialize (Hfn w1 H1). destruct (fn w1) as [w2 [a|e|m]]; simpl in *; [|done|done].
  pose proof (preserves_select I (λ _, Ok tt) w2 Hfn) as H2. fold Commit in H2.
  by destruct (Commit w2) as [w3 [[]|e|m]].
Qed.

Lemma preserves_WithTransactionErr (I : Db → Prop) (fn : prog World unit) :
  preserves (λ w, I (w_db w)) fn → preserves (λ w, I (w_db w)) (WithTransactionErr fn).
Proof.
  intros Hfn w Hw. pose proof (preserves_WithTransaction I fn Hfn w Hw) as H.
  unfold WithTransactionErr. unfold WithTransaction in H.
  destruct (BeginTransaction w) as [w1 [[]|e|m]]; simpl in *; [|done|done].
  destruct (fn w1) as [w2 [[]|e|m]]; simpl in *; [|done|done].
  by destruct (Commit w2) as [w3 [[]|e|m]].
Qed.

#[export] Hint Resolve preserves_WithTransaction preserves_WithTransactionErr : preserves.

Lemma query_select_db {A} (f : World → res A) w : w_db (select f w).1 = w_db w.
Proof. destruct (query_cases (λ w, (w, f w)) w) as [(e & fs & Hq)|(fs & Hq)];
  unfold select; by rewrite Hq. Qed.

(** A read leaves everything but the failures to come, of which it may have
    used the first. *)
Lemma select_run {A} (f : World → res A) w :
  ∃ fs r, select f w = (set_faults fs w, r) ∧ (∀ x, x ∈ fs → x ∈ w_faults w).
Proof.
  unfold select, query. destruct (w_faults w) as [|[e|] fs] eqn:Hf; simpl.
  - exists [], (f w). split; [|done]. destruct w; simpl in *. by rewrite Hf.
  - exists fs, (Err e). split; [done|]. intros x Hx. by right.
  - exists fs, (f (set_faults fs w)). split; [done|]. intros x Hx. by right.
Qed.

Lemma honest_faults_sub fs w :
  honest_faults w → (∀ x, x ∈ fs → x ∈ w_faults w) → honest_faults (set_faults fs w).
Proof. intros Hh Hs e He. by apply Hh, Hs. Qed.

(** The outcome of a transaction: what its function did, or nothing. *)
Lemma WithTransaction_cases {A} (fn : prog World A) w w' r :
  WithTransaction fn w = (w', r) →
  (∃ a fs w2, r = Ok a ∧ (∀ x, x ∈ fs → x ∈ w_faults w) ∧
     fn (set_faults fs w) = (w2, Ok a) ∧
     w_db w' = w_db w2 ∧ w_now w' = w_now w2 ∧ w_published w' = w_published w2) ∨
  (is_ok r = false ∧ w_db w' = w_db w).
Proof.
  unfold WithTransaction.
  destruct (select_run (λ _, Ok tt) w) as (fs & r1 & Hb & Hfs). fold BeginTransaction in Hb.
  rewrite Hb. destruct r1 as [[]|e|m]; simpl in *; [|intros [= <- <-]; by right..].
  destruct (fn (set_faults fs w)) as [w2 [a|e|m]] eqn:Hfn; [|intros [= <- <-]; by right..].
  destruct (select_run (λ _, Ok tt) w2) as (fs2 & r2 & Hc & _). fold Commit in Hc.
  rewrite Hc. destruct r2 as [[]|e|m]; simpl in *; intros [= <- <-]; [left|by right..].
  by exists a, fs, w2.
Qed.

Lemma WithTransactionErr_WithTransaction fn w :
  WithTransactionErr fn w = WithTransaction fn w.
Proof.
  unfold WithTransactionErr, WithTransaction.
  destruct (BeginTransaction w) as [w1 [[]|e|m]]; [|done..].
  destruct (fn w1) as [w2 [[]|e|m]]; [|done..]. by destruct (Commit w2) as [w3 [[]|e|m]].
Qed.

Lemma WithTransactionErr_cases (fn : prog World unit) w w' r :
  WithTransactionErr fn w = (w', r) →
  (r = Ok tt ∧ ∃ fs w2, (∀ x, x ∈ fs → x ∈ w_faults w) ∧
     fn (set_faults fs w) = (w2, Ok tt) ∧
     w_db w' = w_db w2 ∧ w_now w' = w_now w2 ∧ w_published w' = w_published w2) ∨
  (r ≠ Ok tt ∧ w_db w' = w_db w).
Proof.
  rewrite WithTransactionErr_WithTransaction.
  intros [([] & fs & w2 & -> & H)|[Hr H]]%WithTransaction_cases; [left|right].
  - split; [done|]. by exists fs, w2.
  - split; [by intros ->|done].
Qed.

(** C10: a transaction is all or nothing.  Whatever the function does and
    whichever statement fails (the commit included), a transaction that does
    not return success leaves every table as it was; one that returns success
    leaves the tables as the function left them. *)
Theorem transaction_atomic (fn : prog World unit) w :
  match WithTransactionErr fn w with
  | (w', Ok _) => ∃ w1 w2, fn w1 = (w2, Ok tt) ∧ w_db w1 = w_db w ∧ w_db w' = w_db w2
  | (w', _) => w_db w' = w_db w
  end.
Proof.
  destruct (WithTransactionErr fn w) as [w' r] eqn:Hrun.
  destruct (WithTransactionErr_cases _ _ _ _ Hrun) as [[-> (fs & w2 & _ & H1 & H2 & _)]|[Hr H]];
    [by exists (set_faults fs w), w2|].
  by destruct r as [[]|e|m].
Qed.

(** With a working connection a transaction is its function. *)
Lemma transaction_runs (fn : prog World unit) w w' :
  w_faults w = [] → fn w = (w', Ok tt) → w_faults w' = [] →
  WithTransactionErr fn w = (w', Ok tt).
Proof.
  intros Hw Hfn Hw'. unfold WithTransactionErr, BeginTransaction, Commit.
  rewrite select_ok by done. rewrite Hfn. by rewrite select_ok.
Qed.

Lemma WithTransaction_runs {A} (fn : prog World A) w w' a :
  w_faults w = [] → fn w = (w', Ok a) → w_faults w' = [] →
  WithTransaction fn w = (w', Ok a).
Proof.
  intros Hw Hfn Hw'. unfold WithTransaction, BeginTransaction, Commit.
  rewrite select_ok by done. rewrite Hfn. by rewrite select_ok.
Qed.

(** ** Programs that only read

    On the same tables with a working connection such a program changes nothing,
    not even the failures to come; when statements may fail it gives the same
    answer, or fails. *)

Definition clean (w : World) : World := set_faults [] w.

Definition reads {A} (m : prog World A) : Prop := ∀ w, honest_faults w →
  (m (clean w)).1 = clean w ∧
  ∃ fs r, m w = (set_faults fs w, r) ∧ (∀ x, x ∈ fs → x ∈ w_faults w) ∧
    (r = (m (clean w)).2 ∨ is_ok r = false ∧ w_faults w ≠ []).

Lemma set_faults_same w : set_faults (w_faults w) w = w.
Proof. by destruct w. Qed.

Lemma clean_same w : w_faults w = [] → clean w = w.
Proof. unfold clean. intros <-. apply set_faults_same. Qed.

(** A program that leaves the world alone reads. *)
Lemma reads_const {A} (m : prog World A) (r : res A) : (∀ w, m w = (w, r)) → reads m.
Proof.
  intros Hm w _. rewrite !Hm. split; [done|]. exists (w_faults w), r.
  rewrite set_faults_same. auto.
Qed.

Lemma reads_ret {A} (a : A) : reads (mret a).
Proof. by apply (reads_const _ (Ok a)). Qed.
Lemma reads_lift {A} (r : res A) : reads (lift r).
Proof. by apply (reads_const _ r). Qed.
Lemma reads_throw {A} e : reads (throw e : prog World A).
Proof. apply reads_lift. Qed.

Lemma reads_select {A} (f : Db → res A) : reads (select (λ w, f (w_db w))).
Proof.
  intros w _. unfold clean. rewrite select_ok by done. split; [done|].
  unfold select, query. destruct (w_faults w) as [|[e|] fs] eqn:Hf; cbn.
  - exists [], (f (w_db w)). rewrite <-Hf, set_faults_same. auto.
  - exists fs, (Err e). split_and!; [done| |by right]. intros x Hx. by right.
  - exists fs, (f (w_db w)). split_and!; [done| |by left]. intros x Hx. by right.
Qed.

Lemma reads_bind {A B} (m : prog World A) (k : A → prog World B) :
  reads m → (∀ a, reads (k a)) → reads (m ≫= k).
Proof.
  intros Hm Hk w Hh. destruct (Hm w Hh) as (Hc & fs & r & Hrun & Hfs & Hr).
  unfold mbind, prog_bind. rewrite Hrun. destruct (m (clean w)) as [wc rc]. cbn in Hc, Hr. subst wc.
  destruct Hr as [<-|[Hr Hne]].
  - destruct r as [a|e|s]; [|split; [done|]; exists fs; eexists; auto..].
    pose proof (honest_faults_sub _ _ Hh Hfs) as Hh'.
    destruct (Hk a _ Hh') as (Hc & fs' & r & Hrun' & Hfs' & Hr).
    change (clean (set_faults fs w)) with (clean w) in *. rewrite Hrun'. split; [done|].
    exists fs', r. split_and!; [done|by intros x ?%Hfs'%Hfs|].
    destruct Hr as [->|[Hr Hne]]; [by left|right]. split; [done|]. intros Hw. apply Hne. cbn.
    destruct fs as [|x fs]; [done|]. assert (x ∈ w_faults w) as Hx by (apply Hfs; left).
    rewrite Hw in Hx. by apply not_elem_of_nil in Hx.
  - split; [|by destruct r as [a|e|s]; [done|exists fs; eexists; eauto..]].
    destruct rc as [a|e|s]; [|done..].
    assert (honest_faults (clean w)) as Hcl by (by intros e ?%not_elem_of_nil).
    exact (proj1 (Hk a _ Hcl)).
Qed.

Lemma reads_wrapf {A} pre (m : prog World A) : reads m → reads (wrapf pre m).
Proof.
  intros Hm w Hh. destruct (Hm w Hh) as (Hc & fs & r & Hrun & Hfs & Hr). unfold wrapf.
  rewrite Hrun. destruct (m (clean w)) as [wc rc]. cbn in *. subst wc. split; [done|].
  exists fs, (wrapf_res pre r). split_and!; [done..|].
  destruct Hr as [->|[Hr Hne]]; [by left|right]. split; [by destruct r|done].
Qed.

(** An error is looked at, and a failure of the connection is returned. *)
Lemma reads_try_select {A B} (f : Db → res A) (k : A + gerr → prog World B) :
  (∀ x, reads (k x)) →
  (∀ e w, is_in e ErrNoRows = false → is_ok (k (inr e) w).2 = false) →
  reads (try (select (λ w, f (w_db w))) ≫= k).
Proof.
  intros Hk Hfail w Hh. unfold mbind, prog_bind, try.
  rewrite (select_ok _ (clean w)) by done.
  assert (honest_faults (clean w)) as Hcl by (by intros e ?%not_elem_of_nil).
  change (w_db (clean w)) with (w_db w).
  split.
  { destruct (f (w_db w)) as [a|e|s];
      [exact (proj1 (Hk (inl a) _ Hcl))|exact (proj1 (Hk (inr e) _ Hcl))|done]. }
  pose proof (query_honest (λ w, (w, f (w_db w))) w Hh) as Hq.
  change (query (λ w, (w, f (w_db w)))) with (select (λ w, f (w_db w))) in Hq.
  assert (Hsub : ∃ fs r, select (λ w, f (w_db w)) w = (set_faults fs w, r) ∧
    (∀ x, x ∈ fs → x ∈ w_faults w) ∧ (fs ≠ [] → w_faults w ≠ []) ∧
    (r = f (w_db w) ∨ ∃ e, r = Err e ∧ is_in e ErrNoRows = false ∧ w_faults w ≠ [])).
  { destruct (reads_select f w Hh) as (_ & fs & r & Hs & Hfs & Hr). exists fs, r.
    split_and!; [done..| |].
    - intros Hne Hw. destruct fs as [|x fs]; [done|]. specialize (Hfs x ltac:(left)).
      rewrite Hw in Hfs. by apply not_elem_of_nil in Hfs.
    - unfold clean in Hr. rewrite select_ok in Hr by done. destruct Hr as [->|[Hno Hne]]; [by left|].
      destruct Hq as [(e & fs' & Hq & He & _)|(fs' & Hq & _)]; rewrite Hq in Hs;
        injection Hs as Hfs' <-; [right; eauto|by left]. }
  destruct Hsub as (fs & r & -> & Hfs & Hne & Hr).
  pose proof (honest_faults_sub _ _ Hh Hfs) as Hh'.
  assert (Hgen : ∀ x, ∃ fs' r', k x (set_faults fs w) = (set_faults fs' w, r') ∧
    (∀ y, y ∈ fs' → y ∈ w_faults w) ∧
    (r' = (k x (clean w)).2 ∨ is_ok r' = false ∧ w_faults w ≠ [])).
  { intros x. destruct (Hk x _ Hh') as (_ & fs' & r' & Hrun & Hfs' & Hr'). exists fs', r'.
    split_and!; [done|by intros y ?%Hfs'%Hfs|]. destruct Hr' as [->|[? ?]]; [by left|right; auto]. }
  destruct Hr as [->|(e & -> & He & Hw)].
  - destruct (f (w_db w)) as [a|e|s]; [apply (Hgen (inl a))|apply (Hgen (inr e))|].
    exists fs, (Panic s). auto.
  - destruct (Hgen (inr e)) as (fs' & r' & Hrun & Hfs' & _). exists fs', r'. split_and!; [done..|].
    right. split; [|done]. pose proof (Hfail e (set_faults fs w) He) as Hf. by rewrite Hrun in Hf.
Qed.

(** An error is replaced by another. *)
Lemma reads_try_throw {A B} (m : prog World A) (k : A + gerr → prog World B) (f : gerr → gerr) :
  reads m → (∀ a, reads (k (inl a))) → (∀ e, k (inr e) = throw (f e)) → reads (try m ≫= k).
Proof.
  intros Hm Hk Hf.
  assert (Heq : ∀ w, (try m ≫= k) w = ((λ w, match m w with (w', Err e) => (w', Err (f e)) | x => x end)
                       ≫= λ a, k (inl a)) w).
  { intros w. unfold mbind, prog_bind, try. destruct (m w) as [w1 [a|e|s]]; [done| |done].
    by rewrite Hf. }
  assert (Hr : reads (λ w, match m w with (w', Err e) => (w', Err (f e)) | x => x end)).
  { intros w Hh. destruct (Hm w Hh) as (Hc & fs & r & Hrun & Hfs & Hr). rewrite Hrun.
    destruct (m (clean w)) as [wc rc]. cbn in Hc, Hr. subst wc. split; [by destruct rc|].
    destruct Hr as [->|[Hno Hne]].
    - destruct rc; exists fs; eexists; split_and!; try done; by left.
    - destruct r; [done|exists fs; eexists; split_and!; try done; by right..]. }
  intros w Hh. rewrite !Heq. apply (reads_bind _ (λ a, k (inl a)) Hr Hk w Hh).
Qed.

Lemma reads_foreach {A} (f : A → prog World unit) l : (∀ x, reads (f x)) → reads (foreach f l).
Proof.
  intros Hf. induction l as [|x l IH]; cbn; [apply reads_ret|]. by apply reads_bind.
Qed.

Create HintDb reads.
#[export] Hint Resolve reads_ret reads_lift reads_throw reads_bind reads_wrapf reads_foreach : reads.

(** With a working connection. *)
Lemma reads_clean {A} (m : prog World A) w : reads m → w_faults w = [] → ∃ r, m w = (w, r).
Proof.
  intros Hm Hw. assert (honest_faults w) as Hh by (intros e; rewrite Hw; by intros ?%not_elem_of_nil).
  destruct (Hm w Hh) as [Hc _]. rewrite clean_same in Hc by done.
  exists (m w).2. destruct (m w); cbn in *. by subst.
Qed.

(** What a reader answers with a working connection is what it answers. *)
Lemma reads_outcome {A} (m : prog World A) (P : A → Prop) w :
  reads m → honest_faults w →
  (∀ r, m (clean w) = (clean w, r) → match r with Ok a => P a | _ => ∀ a, ¬ P a end) →
  match m w with
  | (w', Ok a) => w_db w' = w_db w ∧ P a
  | (w', _) => w_db w' = w_db w ∧ (w_faults w = [] → ∀ a, ¬ P a)
  end.
Proof.
  intros Hm Hh HP. destruct (Hm w Hh) as (Hc & fs & r & -> & _ & Hr).
  destruct (m (clean w)) as [wc rc]. cbn in Hc, Hr. subst wc. specialize (HP _ eq_refl).
  destruct Hr as [->|[Hr Hne]]; [by destruct rc|]. destruct r; [done|by split..].
Qed.

Lemma foreach_clean {A} (f : A → prog World unit) l w :
  (∀ x, reads (f x)) → w_faults w = [] →
  foreach f l w = (w, Ok tt) ↔ ∀ x, x ∈ l → f x w = (w, Ok tt).
Proof.
  intros Hf Hw. induction l as [|x l IH]; cbn.
  - split; [by intros _ ? ?%not_elem_of_nil|done].
  - rewrite prog_bind_Ok. split.
    + intros (w1 & [] & Hx & Hl) y [->|Hy]%elem_of_cons.
      * destruct (reads_clean _ w (Hf x) Hw) as [r Hr]. congruence.
      * destruct (reads_clean _ w (Hf x) Hw) as [r Hr]. rewrite Hx in Hr. injection Hr as -> <-.
        by apply IH.
    + intros H. exists w, tt. split; [apply H; left|]. apply IH. intros y Hy. apply H. by right.
Qed.

(** ** A small database, for the witnesses: one project with one entity *)

Definition ex_rule_row : dbRuleInstance :=
  {| rin_Name := "rule"; rin_RuleTypeID := 30%N; rin_ProfileID := 40%N;
     rin_EntityType := "repository"; rin_Def := "{}"; rin_Params := "{}"; rin_ProjectID := 2%N |}.

Definition ex_type_row : dbRuleType :=
  {| rty_Name := "rule_type"; rty_Severity := "high"; rty_ProjectID := 2%N;
     rty_Description := ""; rty_Guidance := ""; rty_Definition := "{}";
     rty_SubscriptionID := None; rty_DisplayName := "Rule type"; rty_ReleasePhase := "beta";
     rty_ShortFailureMessage := "";
     rty_RegoVersion := "v0" |}.

Definition ex_profile_row : dbProfile :=
  {| dpr_Name := "profile"; dpr_Labels := []; dpr_ProjectID := 2%N; dpr_Remediate := None;
     dpr_Alert := None; dpr_SubscriptionID := None; dpr_DisplayName := "" |}.

Definition ex_db : Db :=
  {| entity_instances := {[7%N := {| ei_EntityType := "repository"; ei_Name := "acme/app";
                                     ei_ProjectID := 2%N; ei_ProviderID := 1%N;
                                     ei_OriginatedFrom := None |}]};
     entity_execution_lock := ∅; flush_cache := ∅; evaluation_rule_entities := ∅;
     evaluation_statuses := ∅; latest_evaluation_statuses := ∅; evaluation_outputs := ∅;
     remediation_events := []; alert_events := [];
     rule_instances := {[20%N := ex_rule_row]};
     rule_types := {[30%N := ex_type_row]};
     profiles := {[40%N := ex_profile_row]};
     projects := {[2%N]}; providers := {[1%N := {| prv_Name := "github"; prv_Class := "github";
                             prv_Implements := ["github"; "git"; "rest"];
                             prv_ProjectID := 2%N |}]};
     provider_access_tokens := ∅; properties := ∅; entitlements := ∅;
     parent_projects := ∅; entity_profiles := ∅; profile_selectors := [];
     organizations := ∅;
     sources := {| s_sources := ∅; s_functions := ∅; s_references := ∅ |} |}.

Definition ex_world (d : Db) (faults : list (option gerr)) : World :=
  {| w_db := d; w_now := 1000%Z; w_fresh := 100; w_faults := faults; w_published := [] |}.
