(* ===== verification/EntityMessage.v ===== *)
(** * Messages of the entity handlers

    internal/entities/handlers/message/message.go: the message that asks a
    handler to find an entity, by its id or by properties of the provider, and to
    do something with it; and internal/reconcilers/messages/. *)

From S2P Require Import Prelude GoErrors GoMonad GoStrings Uuid DbTypes EntityEvent Properties.
From S2P Require Import Database.
From Stdlib Require Import SpecFloat.
Local Open Scope string_scope.

(** A [map[string]any] that may be nil. *)
Abbreviation anymap := (option (gmap string goval)).

Record TypedProps := { tp_Type : Entity; tp_EntityID : UUID; tp_GetByProps : anymap }.

Record EntityHint := { ProviderImplementsHint : string; ProviderClassHint : string }.

Record HandleEntityAndDoMessage := {
  hm_Entity : TypedProps;
  hm_Originator : TypedProps;
  hm_Hint : EntityHint;
  hm_MatchProps : anymap;
}.

Definition no_props : TypedProps :=
  {| tp_Type := Entity_ENTITY_UNSPECIFIED; tp_EntityID := uuid_Nil; tp_GetByProps := None |}.

Definition NewEntityRefreshAndDoMessage : HandleEntityAndDoMessage :=
  {| hm_Entity := no_props; hm_Originator := no_props;
     hm_Hint := {| ProviderImplementsHint := ""; ProviderClassHint := "" |};
     hm_MatchProps := None |}.

Section builders.
Context `{Structpb}.

Definition props_map (p : Properties) : anymap := Some (AsMap (ToProtoStruct p)).

(** The structure is replaced: an id set before is forgotten. *)
Definition WithEntity (entType : Entity) (getByProps : Properties)
    (e : HandleEntityAndDoMessage) : HandleEntityAndDoMessage :=
  {| hm_Entity := {| tp_Type := entType; tp_EntityID := uuid_Nil;
                     tp_GetByProps := props_map getByProps |};
     hm_Originator := hm_Originator e; hm_Hint := hm_Hint e; hm_MatchProps := hm_MatchProps e |}.

Definition WithOriginator (originatorType : Entity) (originatorProps : Properties)
    (e : HandleEntityAndDoMessage) : HandleEntityAndDoMessage :=
  {| hm_Entity := hm_Entity e;
     hm_Originator := {| tp_Type := originatorType; tp_EntityID := uuid_Nil;
                         tp_GetByProps := props_map originatorProps |};
     hm_Hint := hm_Hint e; hm_MatchProps := hm_MatchProps e |}.

Definition WithEntityID (entityID : UUID) (e : HandleEntityAndDoMessage)
    : HandleEntityAndDoMessage :=
  {| hm_Entity := {| tp_Type := tp_Type (hm_Entity e); tp_EntityID := entityID;
                     tp_GetByProps := tp_GetByProps (hm_Entity e) |};
     hm_Originator := hm_Originator e; hm_Hint := hm_Hint e; hm_MatchProps := hm_MatchProps e |}.

Definition WithProviderImplementsHint (providerHint : string) (e : HandleEntityAndDoMessage)
    : HandleEntityAndDoMessage :=
  {| hm_Entity := hm_Entity e; hm_Originator := hm_Originator e;
     hm_Hint := {| ProviderImplementsHint := providerHint;
                   ProviderClassHint := ProviderClassHint (hm_Hint e) |};
     hm_MatchProps := hm_MatchProps e |}.

Definition WithProviderClassHint (providerClassHint : string) (e : HandleEntityAndDoMessage)
    : HandleEntityAndDoMessage :=
  {| hm_Entity := hm_Entity e; hm_Originator := hm_Originator e;
     hm_Hint := {| ProviderImplementsHint := ProviderImplementsHint (hm_Hint e);
                   ProviderClassHint := providerClassHint |};
     hm_MatchProps := hm_MatchProps e |}.

Definition WithMatchProps (matchProps : Properties) (e : HandleEntityAndDoMessage)
    : HandleEntityAndDoMessage :=
  {| hm_Entity := hm_Entity e; hm_Originator := hm_Originator e; hm_Hint := hm_Hint e;
     hm_MatchProps := props_map matchProps |}.

(** What JSON gives back as it was: the plain values [AsInterface] makes of a
    storable property. *)
Definition json_flat (g : goval) : Prop :=
  match g with
  | GNil | GBool _ => True
  | GFloat64 f => trunc f ≠ None
  | GString s => utf8_ValidString s = true
  | GMap m => ∃ m', m = GString <$> m' ∧ valid_text m'
  | _ => False
  end.

Definition json_map (m : anymap) : Prop :=
  match m with
  | None => True
  | Some m => map_Forall (λ k v, utf8_ValidString k = true ∧ json_flat v) m
  end.

Definition json_message (e : HandleEntityAndDoMessage) : Prop :=
  json_map (tp_GetByProps (hm_Entity e)) ∧ json_map (tp_GetByProps (hm_Originator e)) ∧
  json_map (hm_MatchProps e) ∧
  utf8_ValidString (ProviderImplementsHint (hm_Hint e)) = true ∧
  utf8_ValidString (ProviderClassHint (hm_Hint e)) = true.
End builders.

(** encoding/json of the message, [RepoReconcilerEvent] (and
    [EntityReminderEvent], which has the same fields and names), [MinderEvent]
    and [ProfileInitEvent]. *)
Record RepoReconcilerEvent := { rr_Project : UUID; rr_Provider : UUID; rr_EntityID : UUID }.

Record MinderEvent := {
  me_ProviderID : UUID; me_ProjectID : UUID; me_EntityType : Entity; me_EntityID : UUID;
  me_Properties : anymap;
}.

Class MessageJSON `{Structpb} := {
  do_Marshal : HandleEntityAndDoMessage → string + gerr;
  do_Unmarshal : string → HandleEntityAndDoMessage + gerr;
  event_Marshal : RepoReconcilerEvent → string;
  event_Unmarshal : string → RepoReconcilerEvent + gerr;
  minder_Marshal : MinderEvent → string + gerr;
  minder_Unmarshal : string → MinderEvent + gerr;
  profile_Marshal : UUID → string;
  profile_Unmarshal : string → UUID + gerr;
  do_json_roundtrip : ∀ e, json_message e →
    ∃ s, do_Marshal e = inl s ∧ do_Unmarshal s = inl e;
  reminder_event_roundtrip : ∀ e, event_Unmarshal (event_Marshal e) = inl e;
  minder_roundtrip : ∀ e, json_map (me_Properties e) →
    ∃ s, minder_Marshal e = inl s ∧ minder_Unmarshal s = inl e;
  profile_roundtrip : ∀ u, profile_Unmarshal (profile_Marshal u) = inl u;
}.

(** ** internal/reconcilers/messages: [MinderEvent] *)

Definition NewMinderEvent : MinderEvent :=
  {| me_ProviderID := uuid_Nil; me_ProjectID := uuid_Nil;
     me_EntityType := Entity_ENTITY_UNSPECIFIED; me_EntityID := uuid_Nil;
     me_Properties := Some ∅ |}.

Definition event_WithProviderID (id : UUID) (e : MinderEvent) : MinderEvent :=
  {| me_ProviderID := id; me_ProjectID := me_ProjectID e; me_EntityType := me_EntityType e;
     me_EntityID := me_EntityID e; me_Properties := me_Properties e |}.
Definition event_WithProjectID (id : UUID) (e : MinderEvent) : MinderEvent :=
  {| me_ProviderID := me_ProviderID e; me_ProjectID := id; me_EntityType := me_EntityType e;
     me_EntityID := me_EntityID e; me_Properties := me_Properties e |}.
Definition event_WithProperties `{Structpb} (props : Properties) (e : MinderEvent) : MinderEvent :=
  {| me_ProviderID := me_ProviderID e; me_ProjectID := me_ProjectID e;
     me_EntityType := me_EntityType e; me_EntityID := me_EntityID e;
     me_Properties := props_map props |}.
Definition event_WithEntityID (id : UUID) (e : MinderEvent) : MinderEvent :=
  {| me_ProviderID := me_ProviderID e; me_ProjectID := me_ProjectID e;
     me_EntityType := me_EntityType e; me_EntityID := id; me_Properties := me_Properties e |}.
Definition event_WithEntityType (t : Entity) (e : MinderEvent) : MinderEvent :=
  {| me_ProviderID := me_ProviderID e; me_ProjectID := me_ProjectID e; me_EntityType := t;
     me_EntityID := me_EntityID e; me_Properties := me_Properties e |}.

Section messages.
Context `{UuidLib} `{RandomUuid} `{MessageJSON}.

Definition event_ToMessage (e : MinderEvent) (msg : message) : res message :=
  match minder_Marshal e with
  | inl payload =>
      Ok (Metadata_Set
           (Metadata_Set {| msg_UUID := msg_UUID msg; msg_Metadata := msg_Metadata msg;
                            msg_Payload := payload |}
              "providerID" (uuid_String (me_ProviderID e)))
           "projectID" (uuid_String (me_ProjectID e)))
  | inr err => Err (EWrap "error marshalling event: " err "")
  end.

(** [message.NewMessage(uuid.New().String(), payload)] *)
Definition NewMessage (payload : string) : prog World message := λ w,
  (set_fresh (S (w_fresh w)) w,
   Ok {| msg_UUID := uuid_String (gen_random_uuid (w_fresh w)); msg_Metadata := ∅;
         msg_Payload := payload |}).

Definition with_payload (payload : string) (msg : message) : message :=
  {| msg_UUID := msg_UUID msg; msg_Metadata := msg_Metadata msg; msg_Payload := payload |}.

Definition do_ToMessage (e : HandleEntityAndDoMessage) (msg : message) : res message :=
  match do_Marshal e with
  | inl payloadBytes => Ok (with_payload payloadBytes msg)
  | inr err => Err (EWrap "error marshalling entity: " err "")
  end.

Definition ToEntityRefreshAndDo (msg : message) : res HandleEntityAndDoMessage :=
  match do_Unmarshal (msg_Payload msg) with
  | inl entMsg => Ok entMsg
  | inr err => Err (EWrap "error unmarshalling entity: " err "")
  end.

Definition NewRepoReconcilerMessage (providerID entityID projectID : UUID)
    : prog World message :=
  NewMessage (event_Marshal
    {| rr_Project := projectID; rr_Provider := providerID; rr_EntityID := entityID |}).
End messages.

Definition TopicQueueReconcileRepoInit : string := "internal.repo.reconciler.event".
Definition TopicQueueReconcileProfileInit : string := "internal.profile.init.event".
Definition TopicQueueReconcileEntityDelete : string := "internal.entity.delete.event".
Definition TopicQueueReconcileEntityAdd : string := "internal.entity.add.event".
Definition TopicQueueRefreshEntityByIDAndEvaluate : string :=
  "refresh.entity.by.id.evaluate.event".

(** ** An instance, for the witnesses: a text is the number of a message *)

Definition flat : Type := unit + bool + (bool + bool + bool * positive * Z + unit) + string
  + gmap string string.

Definition flat_float (f : spec_float) : bool + bool + bool * positive * Z + unit :=
  match f with
  | S754_zero s => inl (inl (inl s))
  | S754_infinity s => inl (inl (inr s))
  | S754_finite s m e => inl (inr (s, m, e))
  | S754_nan => inr tt
  end.
Definition float_of_flat (f : bool + bool + bool * positive * Z + unit) : spec_float :=
  match f with
  | inl (inl (inl s)) => S754_zero s
  | inl (inl (inr s)) => S754_infinity s
  | inl (inr (s, m, e)) => S754_finite s m e
  | inr _ => S754_nan
  end.

Definition to_flat (g : goval) : option flat :=
  match g with
  | GNil => Some (inl (inl (inl (inl tt))))
  | GBool b => Some (inl (inl (inl (inr b))))
  | GFloat64 f => Some (inl (inl (inr (flat_float f))))
  | GString s => Some (inl (inr s))
  | GMap m => Some (inr (omap (λ v, match v with GString s => Some s | _ => None end) m))
  | _ => None
  end.
Definition of_flat (f : flat) : goval :=
  match f with
  | inl (inl (inl (inl _))) => GNil
  | inl (inl (inl (inr b))) => GBool b
  | inl (inl (inr f)) => GFloat64 (float_of_flat f)
  | inl (inr s) => GString s
  | inr m => GMap (GString <$> m)
  end.

Section instance.
#[local] Existing Instance ex_structpb.

Lemma of_to_flat g : json_flat g → of_flat <$> to_flat g = Some g.
Proof.
  destruct g as [|b|z|z|z|f|s|m|l|t]; try done; simpl.
  - intros _. by destruct f.
  - intros (m' & -> & _). do 2 f_equal. apply map_eq. intros k.
    rewrite lookup_fmap, lookup_omap, lookup_fmap. by destruct (m' !! k).
Qed.

Definition flat_map (m : gmap string goval) : gmap string flat := omap to_flat m.
Definition unflat_map (m : gmap string flat) : gmap string goval := of_flat <$> m.

Lemma flat_map_json m : json_map (Some m) → unflat_map (flat_map m) = m.
Proof.
  intros Hm. apply map_eq. intros k. unfold unflat_map, flat_map. rewrite lookup_fmap, lookup_omap.
  destruct (m !! k) as [g|] eqn:Hg; [|done]. simpl. by apply of_to_flat, (Hm k g).
Qed.

(** The number of a countable value, in digits. *)
Definition text_of {A} `{Countable A} (a : A) : string := decimal_string (Npos (encode a)).
Definition of_text {A} `{Countable A} (s : string) : option A :=
  match decimal_parse s with Ok (Npos p) => decode p | _ => None end.

Lemma of_text_of {A} `{Countable A} (a : A) : of_text (text_of a) = Some a.
Proof. unfold of_text, text_of. by rewrite decimal_parse_string, decode_encode. Qed.

Definition flat_props (t : TypedProps) : Z * UUID * option (gmap string flat) :=
  (tp_Type t, tp_EntityID t, flat_map <$> tp_GetByProps t).
Definition props_of_flat (t : Z * UUID * option (gmap string flat)) : TypedProps :=
  let '(ty, id, m) := t in
  {| tp_Type := ty; tp_EntityID := id; tp_GetByProps := unflat_map <$> m |}.

Lemma flat_anymap_json m : json_map m → unflat_map <$> (flat_map <$> m) = m.
Proof. destruct m as [m|]; [|done]. intros Hm. simpl. f_equal. by apply flat_map_json. Qed.

Lemma props_of_flat_props t : json_map (tp_GetByProps t) → props_of_flat (flat_props t) = t.
Proof. destruct t as [ty id m]. unfold props_of_flat, flat_props. simpl. intros Hm.
  by rewrite flat_anymap_json. Qed.

Definition ex_do_Marshal (e : HandleEntityAndDoMessage) : string + gerr :=
  inl (text_of (flat_props (hm_Entity e), flat_props (hm_Originator e),
                ProviderImplementsHint (hm_Hint e), ProviderClassHint (hm_Hint e),
                flat_map <$> hm_MatchProps e)).
Definition ex_do_Unmarshal (s : string) : HandleEntityAndDoMessage + gerr :=
  match of_text s with
  | Some (ent, orig, impl, class, props) =>
      inl {| hm_Entity := props_of_flat ent; hm_Originator := props_of_flat orig;
             hm_Hint := {| ProviderImplementsHint := impl; ProviderClassHint := class |};
             hm_MatchProps := unflat_map <$> (props : option (gmap string flat)) |}
  | None => inr (EText "invalid JSON")
  end.

Lemma ex_do_roundtrip e :
  json_message e → ∃ s, ex_do_Marshal e = inl s ∧ ex_do_Unmarshal s = inl e.
Proof.
  intros (He & Ho & Hm & _). eexists. split; [done|]. unfold ex_do_Unmarshal.
  rewrite of_text_of. rewrite !props_of_flat_props, flat_anymap_json by done.
  by destruct e as [ent orig [impl class] props].
Qed.

Definition ex_event_Marshal (e : RepoReconcilerEvent) : string :=
  text_of (rr_Project e, rr_Provider e, rr_EntityID e).
Definition ex_event_Unmarshal (s : string) : RepoReconcilerEvent + gerr :=
  match of_text s with
  | Some (p, v, i) => inl {| rr_Project := p; rr_Provider := v; rr_EntityID := i |}
  | None => inr (EText "invalid JSON")
  end.
Lemma ex_event_roundtrip e : ex_event_Unmarshal (ex_event_Marshal e) = inl e.
Proof.
  unfold ex_event_Unmarshal, ex_event_Marshal. rewrite of_text_of. by destruct e.
Qed.

Definition ex_minder_Marshal (e : MinderEvent) : string + gerr :=
  inl (text_of (me_ProviderID e, me_ProjectID e, me_EntityType e, me_EntityID e,
                flat_map <$> me_Properties e)).
Definition ex_minder_Unmarshal (s : string) : MinderEvent + gerr :=
  match of_text s with
  | Some (v, p, t, i, m) =>
      inl {| me_ProviderID := v; me_ProjectID := p; me_EntityType := t; me_EntityID := i;
             me_Properties := unflat_map <$> (m : option (gmap string flat)) |}
  | None => inr (EText "invalid JSON")
  end.
Lemma ex_minder_roundtrip e :
  json_map (me_Properties e) →
  ∃ s, ex_minder_Marshal e = inl s ∧ ex_minder_Unmarshal s = inl e.
Proof.
  intros Hm. eexists. split; [done|]. unfold ex_minder_Unmarshal. rewrite of_text_of.
  f_equal. destruct e. simpl in *. by rewrite flat_anymap_json.
Qed.

Definition ex_profile_Unmarshal (s : string) : UUID + gerr :=
  match of_text s with Some u => inl u | None => inr (EText "invalid JSON") end.
Lemma ex_profile_roundtrip (u : UUID) : ex_profile_Unmarshal (text_of u) = inl u.
Proof. unfold ex_profile_Unmarshal. by rewrite of_text_of. Qed.

Definition ex_message_json : MessageJSON :=
  {| do_Marshal := ex_do_Marshal; do_Unmarshal := ex_do_Unmarshal;
     event_Marshal := ex_event_Marshal; event_Unmarshal := ex_event_Unmarshal;
     minder_Marshal := ex_minder_Marshal; minder_Unmarshal := ex_minder_Unmarshal;
     profile_Marshal := text_of; profile_Unmarshal := ex_profile_Unmarshal;
     do_json_roundtrip := ex_do_roundtrip; reminder_event_roundtrip := ex_event_roundtrip;
     minder_roundtrip := ex_minder_roundtrip; profile_roundtrip := ex_profile_roundtrip |}.
End instance.
