(* ===== verification/EntityModels.v ===== *)
(** * Entities with their properties

    internal/entities/models/models.go, and the interface the properties service
    presents to the aggregator, the listing of the history and the executor. *)

From S2P Require Import Prelude GoErrors GoMonad GoStrings Uuid DbTypes EntityEvent Properties.
From S2P Require Import Database.
Local Open Scope string_scope.

(** [models.EntityInstance] *)
Record ModelEntity := {
  em_ID : UUID; em_Type : Entity; em_Name : string; em_ProviderID : UUID; em_ProjectID : UUID;
  em_OriginatedFrom : UUID;
}.

Record EntityWithProperties := { ewp_Entity : ModelEntity; ewp_Properties : Properties }.

Definition NewEntityWithProperties (id : UUID) (dbEntity : EntityInstance) (props : Properties)
    : EntityWithProperties :=
  {| ewp_Entity := {| em_ID := id; em_Type := EntityTypeFromDB (ei_EntityType dbEntity);
                      em_Name := ei_Name dbEntity; em_ProviderID := ei_ProviderID dbEntity;
                      em_ProjectID := ei_ProjectID dbEntity;
                      em_OriginatedFrom := default uuid_Nil (ei_OriginatedFrom dbEntity) |};
     ewp_Properties := props |}.

Definition UpdateProperties (props : Properties) (e : EntityWithProperties)
    : EntityWithProperties :=
  {| ewp_Entity := ewp_Entity e; ewp_Properties := props |}.

(** Two of them may be the upstream id and the name that stand in for the rest. *)
Definition NeedsPropertyLoad (e : EntityWithProperties) : bool :=
  (Len (ewp_Properties e) <=? 2)%Z.

Abbreviation ewp_ID e := (em_ID (ewp_Entity e)).
Abbreviation ewp_ProjectID e := (em_ProjectID (ewp_Entity e)).
Abbreviation ewp_ProviderID e := (em_ProviderID (ewp_Entity e)).

(** [service.ErrEntityNotFound] *)
Definition ErrEntityNotFound : gerr := ENew "service.ErrEntityNotFound" "entity not found".

(** What [EntityWithPropertiesByID] and [EntityWithPropertiesAsProto] promise:
    an entity with its project and its provider, then its message. *)
Class PropertiesService := {
  EntityWithPropertiesByID : UUID → prog World EntityWithProperties;
  EntityWithPropertiesAsProto : EntityWithProperties → prog World ProtoMessage;
}.

Definition GetEntityByID (id : UUID) : prog World EntityInstance :=
  select (λ w, match entity_instances (w_db w) !! id with
               | Some e => Ok e
               | None => Err ErrNoRows
               end).

(** An entity without properties, for the witnesses. *)
Definition ex_entity (id : UUID) : EntityWithProperties :=
  {| ewp_Entity := {| em_ID := id; em_Type := Entity_ENTITY_REPOSITORIES; em_Name := "acme/app";
                      em_ProviderID := 1%N; em_ProjectID := 2%N; em_OriginatedFrom := uuid_Nil |};
     ewp_Properties := None |}.
