(* ===== verification/ExecLock.v ===== *)
(** * The execution lock and the flush cache

    internal/db/entity_execution_lock.sql.go.  A lock belongs to an entity; it
    is taken when there is none or the last one is older than the interval, and
    released or renewed only by the execution id it was taken with.  The flush
    cache remembers, once per entity, that an event came while it was locked. *)

From S2P Require Import Prelude GoErrors GoMonad Uuid DbTypes EntityEvent Database.
Local Open Scope Z_scope.

(** [interval] as [Postgres] reads ["<n> seconds"], in nanoseconds. *)
Definition seconds (n : Z) : Z := n * 1000000000.

Record EnqueueFlushParams := {
  ef_Entity : Entities; ef_ProjectID : UUID; ef_EntityInstanceID : UUID;
}.

(** The foreign keys of the two tables. *)
Definition entity_and_project (d : Db) (ent proj : UUID) : bool :=
  bool_decide (is_Some (entity_instances d !! ent)) && bool_decide (proj ∈ projects d).

Definition EnqueueFlush (arg : EnqueueFlushParams) : prog World FlushCacheRow :=
  query (λ w,
    let d := w_db w in
    let e := ef_EntityInstanceID arg in
    match flush_cache d !! e with
    | Some _ => (w, Err ErrNoRows)
    | None =>
        if entity_and_project d e (ef_ProjectID arg) then
          let row := {| fc_Entity := ef_Entity arg; fc_QueuedAt := w_now w;
                        fc_ProjectID := ef_ProjectID arg; fc_EntityInstanceID := e |} in
          (set_db (set_flush (<[e := row]> (flush_cache d)) d) w, Ok row)
        else (w, Err ForeignKeyViolation)
    end).

Definition FlushCache (entityInstanceID : UUID) : prog World FlushCacheRow :=
  query (λ w,
    let d := w_db w in
    match flush_cache d !! entityInstanceID with
    | Some row => (set_db (set_flush (delete entityInstanceID (flush_cache d)) d) w, Ok row)
    | None => (w, Err ErrNoRows)
    end).

(** The order of a [SELECT] without [ORDER BY] is not specified. *)
Definition ListFlushCache : prog World (list FlushCacheRow) :=
  select (λ w, Ok (map_to_list (flush_cache (w_db w))).*2).

Record LockParams := {
  lp_Entity : Entities; lp_ProjectID : UUID; lp_EntityInstanceID : UUID; lp_Interval : Z;
}.

Record ReleaseLockParams := { rl_EntityInstanceID : UUID; rl_LockedBy : UUID }.
Record UpdateLeaseParams := { ul_EntityInstanceID : UUID; ul_LockedBy : UUID }.

Section locks.
Context `{RandomUuid}.

Definition LockIfThresholdNotExceeded (arg : LockParams) : prog World EntityExecutionLock :=
  query (λ w,
    let d := w_db w in
    let e := lp_EntityInstanceID arg in
    let id := gen_random_uuid (w_fresh w) in
    let put l := (set_fresh (S (w_fresh w))
                    (set_db (set_locks (<[e := l]> (entity_execution_lock d)) d) w), Ok l) in
    match entity_execution_lock d !! e with
    | None =>
        if entity_and_project d e (lp_ProjectID arg) then
          put {| lk_Entity := lp_Entity arg; lk_LockedBy := id; lk_LastLockTime := w_now w;
                 lk_ProjectID := lp_ProjectID arg |}
        else (w, Err ForeignKeyViolation)
    | Some l =>
        if lk_LastLockTime l <? w_now w - seconds (lp_Interval arg) then
          put {| lk_Entity := lk_Entity l; lk_LockedBy := id; lk_LastLockTime := w_now w;
                 lk_ProjectID := lk_ProjectID l |}
        else (w, Err ErrNoRows)
    end).

Definition held_by (d : Db) (e id : UUID) : bool :=
  match entity_execution_lock d !! e with
  | Some l => bool_decide (lk_LockedBy l = id)
  | None => false
  end.

Definition ReleaseLock (arg : ReleaseLockParams) : prog World unit :=
  query (λ w,
    let d := w_db w in
    let e := rl_EntityInstanceID arg in
    if held_by d e (rl_LockedBy arg)
    then (set_db (set_locks (delete e (entity_execution_lock d)) d) w, Ok tt)
    else (w, Ok tt)).

Definition UpdateLease (arg : UpdateLeaseParams) : prog World unit :=
  query (λ w,
    let d := w_db w in
    let e := ul_EntityInstanceID arg in
    match entity_execution_lock d !! e with
    | Some l =>
        if bool_decide (lk_LockedBy l = ul_LockedBy arg) then
          let l' := {| lk_Entity := lk_Entity l; lk_LockedBy := lk_LockedBy l;
                       lk_LastLockTime := w_now w; lk_ProjectID := lk_ProjectID l |} in
          (set_db (set_locks (<[e := l']> (entity_execution_lock d)) d) w, Ok tt)
        else (w, Ok tt)
    | None => (w, Ok tt)
    end).

(** ** The operations of several servers, interleaved

    Each operation is atomic in the database; time passes between them. *)
Inductive op :=
| OpLock (arg : LockParams)
| OpRelease (arg : ReleaseLockParams)
| OpLease (arg : UpdateLeaseParams)
| OpEnqueue (arg : EnqueueFlushParams)
| OpFlush (e : UUID)
| OpTick (dt : Z).

(** The lock an operation took, if it took one. *)
Definition run_op (o : op) (w : World) : World * option EntityExecutionLock :=
  match o with
  | OpLock arg =>
      match LockIfThresholdNotExceeded arg w with
      | (w', Ok l) => (w', Some l)
      | (w', _) => (w', None)
      end
  | OpRelease arg => ((ReleaseLock arg w).1, None)
  | OpLease arg => ((UpdateLease arg w).1, None)
  | OpEnqueue arg => ((EnqueueFlush arg w).1, None)
  | OpFlush e => ((FlushCache e w).1, None)
  | OpTick dt =>
      ({| w_db := w_db w; w_now := w_now w + dt; w_fresh := w_fresh w;
          w_faults := w_faults w; w_published := w_published w |}, None)
  end.

Fixpoint run_ops (os : list op) (w : World) : World * list (op * option EntityExecutionLock) :=
  match os with
  | [] => (w, [])
  | o :: os =>
      let '(w1, r) := run_op o w in
      let '(w2, rs) := run_ops os w1 in
      (w2, (o, r) :: rs)
  end.

Definition op_ok (interval : Z) (o : op) : Prop :=
  match o with
  | OpLock arg => lp_Interval arg = interval
  | OpTick dt => 0 ≤ dt
  | _ => True
  end.

(** The entity is held by [id] and was last locked or renewed at [t]. *)
Definition holds (w : World) (e id : UUID) (t : Z) : Prop :=
  ∃ l, entity_execution_lock (w_db w) !! e = Some l ∧ lk_LockedBy l = id ∧
       t ≤ lk_LastLockTime l ≤ w_now w.
End locks.
Arguments LockIfThresholdNotExceeded {_} _ _.

(** The ids in the table were drawn before the next one. *)
Definition ids_drawn `{RandomUuid} (w : World) : Prop :=
  ∀ e l, entity_execution_lock (w_db w) !! e = Some l →
    ∃ n, (n < w_fresh w)%nat ∧ lk_LockedBy l = gen_random_uuid n.

(** ** Lemmas *)

Section lock_lemmas.
Context `{RandomUuid}.

Lemma seconds_mono a : 0 ≤ a → 0 ≤ seconds a.
Proof. unfold seconds. lia. Qed.

(** Taking a lock, on a world whose connection works at this statement. *)
Lemma Lock_spec arg w w' r :
  LockIfThresholdNotExceeded arg w = (w', r) →
  let e := lp_EntityInstanceID arg in
  match r with
  | Ok l => w_db w' = set_locks (<[e := l]> (entity_execution_lock (w_db w))) (w_db w) ∧
      w_now w' = w_now w ∧ w_fresh w' = S (w_fresh w) ∧
      lk_LockedBy l = gen_random_uuid (w_fresh w) ∧ lk_LastLockTime l = w_now w ∧
      (∀ l0, entity_execution_lock (w_db w) !! e = Some l0 →
         lk_LastLockTime l0 < w_now w - seconds (lp_Interval arg))
  | _ => w_db w' = w_db w ∧ w_now w' = w_now w ∧ w_fresh w' = w_fresh w
  end.
Proof.
  intros Hl. cbv zeta. unfold LockIfThresholdNotExceeded in Hl.
  match type of Hl with query ?f _ = _ =>
    destruct (query_cases f w) as [(err & fs & Hq)|(fs & Hq)] end;
    rewrite Hq in Hl; clear Hq.
  { injection Hl as <- <-. done. }
  simpl in Hl. destruct (entity_execution_lock (w_db w) !! lp_EntityInstanceID arg)
    as [l0|] eqn:He.
  - destruct (Z.ltb_spec (lk_LastLockTime l0) (w_now w - seconds (lp_Interval arg)));
      injection Hl as <- <-; simpl; split_and!; try done. by intros ? [= <-].
  - destruct (entity_and_project _ _ _); injection Hl as <- <-; simpl; by split_and!.
Qed.

Lemma Release_spec arg w :
  let d' := w_db (ReleaseLock arg w).1 in
  w_now (ReleaseLock arg w).1 = w_now w ∧ w_fresh (ReleaseLock arg w).1 = w_fresh w ∧
  (d' = w_db w ∨
   (held_by (w_db w) (rl_EntityInstanceID arg) (rl_LockedBy arg) = true ∧
    d' = set_locks (delete (rl_EntityInstanceID arg) (entity_execution_lock (w_db w)))
           (w_db w))).
Proof.
  cbv zeta. unfold ReleaseLock.
  match goal with |- context [query ?f w] =>
    destruct (query_cases f w) as [(err & fs & ->)|(fs & ->)] end; simpl.
  { by split_and!; [..|left]. }
  destruct (held_by _ _ _); simpl; by eauto.
Qed.

Lemma Lease_spec arg w :
  let w' := (UpdateLease arg w).1 in
  w_now w' = w_now w ∧ w_fresh w' = w_fresh w ∧
  (w_db w' = w_db w ∨
   ∃ l, entity_execution_lock (w_db w) !! ul_EntityInstanceID arg = Some l ∧
     lk_LockedBy l = ul_LockedBy arg ∧
     w_db w' = set_locks (<[ul_EntityInstanceID arg :=
         {| lk_Entity := lk_Entity l; lk_LockedBy := lk_LockedBy l;
            lk_LastLockTime := w_now w; lk_ProjectID := lk_ProjectID l |}]>
         (entity_execution_lock (w_db w))) (w_db w)).
Proof.
  cbv zeta. unfold UpdateLease.
  match goal with |- context [query ?f w] =>
    destruct (query_cases f w) as [(err & fs & ->)|(fs & ->)] end; simpl.
  { by split_and!; [..|left]. }
  destruct (entity_execution_lock (w_db w) !! ul_EntityInstanceID arg) as [l|] eqn:He;
    [|simpl; by eauto].
  case_bool_decide; simpl; split_and!; eauto 10.
Qed.

Lemma Enqueue_locks arg w :
  let w' := (EnqueueFlush arg w).1 in
  w_now w' = w_now w ∧ w_fresh w' = w_fresh w ∧
  entity_execution_lock (w_db w') = entity_execution_lock (w_db w).
Proof.
  cbv zeta. unfold EnqueueFlush.
  match goal with |- context [query ?f w] =>
    destruct (query_cases f w) as [(err & fs & ->)|(fs & ->)] end; simpl; [done|].
  destruct (flush_cache _ !! _); [done|]. by destruct (entity_and_project _ _ _).
Qed.

Lemma Flush_locks e w :
  let w' := (FlushCache e w).1 in
  w_now w' = w_now w ∧ w_fresh w' = w_fresh w ∧
  entity_execution_lock (w_db w') = entity_execution_lock (w_db w).
Proof.
  cbv zeta. unfold FlushCache.
  match goal with |- context [query ?f w] =>
    destruct (query_cases f w) as [(err & fs & ->)|(fs & ->)] end; simpl; [done|].
  by destruct (flush_cache _ !! _).
Qed.
End lock_lemmas.

Section lock_runs.
Context `{RandomUuid}.

(** What one operation does to the lock of one entity. *)
Lemma run_op_lock o w w' r e :
  run_op o w = (w', r) →
  (w_now w ≤ w_now w' ∨ ∃ dt, o = OpTick dt ∧ w_now w' = w_now w + dt) ∧
  (w_fresh w ≤ w_fresh w')%nat ∧
  ((entity_execution_lock (w_db w') !! e = entity_execution_lock (w_db w) !! e ∧
    (∀ arg l, o = OpLock arg → r = Some l → lp_EntityInstanceID arg ≠ e)) ∨
   (∃ arg l, o = OpLock arg ∧ r = Some l ∧ lp_EntityInstanceID arg = e ∧
      entity_execution_lock (w_db w') !! e = Some l ∧ w_now w' = w_now w ∧
      lk_LockedBy l = gen_random_uuid (w_fresh w) ∧ w_fresh w' = S (w_fresh w) ∧
      lk_LastLockTime l = w_now w ∧
      ∀ l0, entity_execution_lock (w_db w) !! e = Some l0 →
        lk_LastLockTime l0 < w_now w - seconds (lp_Interval arg)) ∨
   (∃ id l, o = OpRelease {| rl_EntityInstanceID := e; rl_LockedBy := id |} ∧
      entity_execution_lock (w_db w) !! e = Some l ∧ lk_LockedBy l = id ∧
      entity_execution_lock (w_db w') !! e = None) ∨
   (∃ l, entity_execution_lock (w_db w) !! e = Some l ∧ w_now w' = w_now w ∧
      (∀ arg, o ≠ OpLock arg) ∧
      entity_execution_lock (w_db w') !! e =
        Some {| lk_Entity := lk_Entity l; lk_LockedBy := lk_LockedBy l;
                lk_LastLockTime := w_now w; lk_ProjectID := lk_ProjectID l |})).
Proof.
  destruct o as [arg|arg|arg|arg|k|dt]; simpl.
  - destruct (LockIfThresholdNotExceeded arg w) as [w1 r1] eqn:Hl.
    pose proof (Lock_spec arg w w1 r1 Hl) as Hs. cbv zeta in Hs.
    destruct r1 as [l|err|m]; intros [= <- <-];
      [|destruct Hs as (-> & -> & ->); split_and!; [lia|lia|left]; by split..].
    destruct Hs as (-> & Hn & Hf & Hid & Ht & Hold). simpl. split_and!; [lia|lia|].
    destruct (decide (lp_EntityInstanceID arg = e)) as [<-|Hne].
    + right; left. exists arg, l. rewrite lookup_insert_eq. by split_and!.
    + left. rewrite lookup_insert_ne by done. split; [done|]. by intros ? ? [= <-] _.
  - destruct arg as [k id].
    destruct (Release_spec {| rl_EntityInstanceID := k; rl_LockedBy := id |} w)
      as (Hn & Hf & Hdb). intros [= <- <-]. rewrite Hn, Hf. split_and!; [lia|lia|].
    destruct Hdb as [->|[Hh ->]]; [by left|]. simpl in *. unfold held_by in Hh.
    destruct (entity_execution_lock (w_db w) !! k) as [l|] eqn:Hk; [|done].
    apply bool_decide_eq_true in Hh.
    destruct (decide (k = e)) as [<-|Hne].
    + right; right; left. exists id, l. by rewrite lookup_delete_eq.
    + left. by rewrite lookup_delete_ne.
  - destruct (Lease_spec arg w) as (Hn & Hf & Hdb). intros [= <- <-].
    rewrite Hn, Hf. split_and!; [lia|lia|].
    destruct Hdb as [->|(l & Hl & Hid & ->)]; [by left|]. simpl.
    destruct (decide (ul_EntityInstanceID arg = e)) as [<-|Hne].
    + do 3 right. exists l. by rewrite lookup_insert_eq.
    + left. by rewrite lookup_insert_ne.
  - destruct (Enqueue_locks arg w) as (Hn & Hf & Hdb). intros [= <- <-].
    rewrite Hn, Hf, Hdb. split_and!; [lia|lia|by left].
  - destruct (Flush_locks k w) as (Hn & Hf & Hdb). intros [= <- <-].
    rewrite Hn, Hf, Hdb. split_and!; [lia|lia|by left].
  - intros [= <- <-]. simpl. split_and!; [eauto|lia|by left].
Qed.

Lemma run_ops_now interval os w w' rs :
  Forall (op_ok interval) os → run_ops os w = (w', rs) → w_now w ≤ w_now w'.
Proof.
  intros Hok. revert w rs. induction Hok as [|o os Ho _ IH]; intros w rs; simpl.
  - intros [= <- _]. lia.
  - destruct (run_op o w) as [w1 r] eqn:H1. destruct (run_ops os w1) as [w2 rs'] eqn:H2.
    intros [= <- _]. apply IH in H2.
    destruct (run_op_lock o w w1 r uuid_Nil H1) as ([?|(dt & -> & ?)] & _); [lia|].
    simpl in Ho. lia.
Qed.
End lock_runs.

(** C4: an entity is evaluated by one execution at a time.  From a state where
    [id] holds the lock of [e] and last took or renewed it at [t] or later,
    whatever the servers do — lock attempts, releases and renewals under any
    ids, flushes, connection failures, the passage of time — as long as the
    holder does not release it and at most the lock interval has passed since
    [t], the lock is still held by [id] and no lock attempt on [e] has
    succeeded. *)
Theorem lock_exclusive `{RandomUuid} interval os w w' rs e id t :
  holds w e id t →
  Forall (op_ok interval) os →
  OpRelease {| rl_EntityInstanceID := e; rl_LockedBy := id |} ∉ os →
  run_ops os w = (w', rs) →
  w_now w' ≤ t + seconds interval →
  holds w' e id t ∧
  ∀ arg l, (OpLock arg, Some l) ∈ rs → lp_EntityInstanceID arg ≠ e.
Proof.
  intros Hh Hok. revert w rs Hh.
  induction Hok as [|o os Ho Hos IH]; intros w rs Hh Hrel; simpl.
  { intros [= <- <-] _. split; [done|]. intros arg l Hin. by apply elem_of_nil in Hin. }
  destruct (run_op o w) as [w1 r] eqn:H1. destruct (run_ops os w1) as [w2 rs'] eqn:H2.
  intros [= <- <-] Hlim. pose proof (run_ops_now interval os w1 w2 rs' Hos H2) as Hmono.
  apply not_elem_of_cons in Hrel as [Hno Hrel].
  destruct Hh as (l & Hl & Hid & Hle & Hnow).
  destruct (run_op_lock o w w1 r e H1) as (Hn & _ & Hcases).
  assert (w_now w ≤ w_now w1) as Hn1.
  { destruct Hn as [?|(dt & -> & ?)]; [done|]. simpl in Ho. lia. }
  assert (holds w1 e id t ∧ ∀ arg l, o = OpLock arg → r = Some l →
            lp_EntityInstanceID arg ≠ e) as [Hh1 Hr].
  { destruct Hcases as [[Heq Hr]|[(arg & l' & -> & _ & _ & _ & _ & _ & _ & _ & Hold)|
      [(id' & l' & -> & Hl' & Hid' & _)|(l' & Hl' & Hn' & Hnl & Hle')]]].
    - split; [|done]. exists l. rewrite Heq. split_and!; (done || lia).
    - specialize (Hold l Hl). simpl in Ho. rewrite Ho in Hold. lia.
    - rewrite Hl in Hl'. injection Hl' as <-. subst id'. by rewrite Hid in Hno.
    - rewrite Hl in Hl'. injection Hl' as <-. split; [|intros a ? -> _; by destruct (Hnl a)].
      eexists. split; [exact Hle'|]. simpl. split_and!; (done || lia). }
  destruct (IH w1 rs' Hh1 Hrel H2 Hlim) as [Hh2 Hrs]. split; [done|].
  intros arg l0 [Hin|Hin]%elem_of_cons; [|by eapply Hrs].
  injection Hin as <- <-. eapply Hr; done.
Qed.

(** A lock that is lost stays lost.  Once an execution id that was drawn
    before no longer holds the lock of an entity — it was released, or another
    execution took it after the interval — no sequence of operations makes it
    hold that lock again, and a late release or renewal under the old id leaves
    every table as it is. *)
Theorem lost_lock_is_fenced `{RandomUuid} os w w' rs e n :
  (n < w_fresh w)%nat →
  held_by (w_db w) e (gen_random_uuid n) = false →
  run_ops os w = (w', rs) →
  held_by (w_db w') e (gen_random_uuid n) = false ∧
  w_db (ReleaseLock {| rl_EntityInstanceID := e; rl_LockedBy := gen_random_uuid n |} w').1
    = w_db w' ∧
  w_db (UpdateLease {| ul_EntityInstanceID := e; ul_LockedBy := gen_random_uuid n |} w').1
    = w_db w'.
Proof.
  intros Hn Hh. revert w rs Hn Hh. induction os as [|o os IH]; intros w rs Hn Hh; simpl.
  - intros [= <- _]. split; [done|]. split.
    + destruct (Release_spec {| rl_EntityInstanceID := e; rl_LockedBy := gen_random_uuid n |} w)
        as (_ & _ & [->|[Hh' _]]); [done|]. simpl in Hh'. congruence.
    + destruct (Lease_spec {| ul_EntityInstanceID := e; ul_LockedBy := gen_random_uuid n |} w)
        as (_ & _ & [->|(l & Hl & Hid & _)]); [done|]. simpl in *.
      unfold held_by in Hh. rewrite Hl in Hh. by apply bool_decide_eq_false in Hh.
  - destruct (run_op o w) as [w1 r] eqn:H1. destruct (run_ops os w1) as [w2 rs'] eqn:H2.
    intros [= <- _]. destruct (run_op_lock o w w1 r e H1) as (_ & Hf & Hcases).
    apply (IH w1 rs'); [lia| |done]. unfold held_by in *.
    destruct Hcases as [[Heq _]|[(arg & l & _ & _ & _ & -> & _ & Hid & _)|
      [(id' & l & _ & _ & _ & ->)|(l & Hl & _ & _ & ->)]]].
    + by rewrite Heq.
    + rewrite Hid. apply bool_decide_eq_false_2. intros Heq.
      apply gen_random_uuid_inj in Heq. lia.
    + done.
    + by rewrite Hl in Hh.
Qed.

(** ** Witnesses *)

Definition ex_lock (id : UUID) (t : Z) : EntityExecutionLock :=
  {| lk_Entity := "repository"; lk_LockedBy := id; lk_LastLockTime := t; lk_ProjectID := 2%N |}.

(** The entity is held; another server tries to lock it and to release it under
    its own id while the time passes. *)
Definition ex_ops : list op :=
  [OpTick 5; OpLock {| lp_Entity := "repository"; lp_ProjectID := 2%N;
                       lp_EntityInstanceID := 7%N; lp_Interval := 30 |};
   OpRelease {| rl_EntityInstanceID := 7%N; rl_LockedBy := 3%N |};
   OpLease {| ul_EntityInstanceID := 7%N; ul_LockedBy := 1%N |}; OpTick 9].

Definition ex_locked_world : World := ex_world (set_locks {[7%N := ex_lock 1%N 1000]} ex_db) [].

Example lock_exclusive_witness :
  holds (@run_ops counter_uuid ex_ops ex_locked_world).1 7%N 1%N 1000.
Proof.
  refine (proj1 (@lock_exclusive counter_uuid 30 ex_ops ex_locked_world
    (@run_ops counter_uuid ex_ops ex_locked_world).1
    (@run_ops counter_uuid ex_ops ex_locked_world).2 7%N 1%N 1000 _ _ _ _ _)).
  - exists (ex_lock 1%N 1000). split_and!; (reflexivity || done).
  - repeat constructor; done.
  - unfold ex_ops. rewrite !not_elem_of_cons. split_and!; try discriminate. set_solver.
  - by destruct (run_ops ex_ops ex_locked_world).
  - vm_compute. discriminate.
Defined.

Example lost_lock_is_fenced_witness :
  held_by (w_db (@run_ops counter_uuid ex_ops ex_locked_world).1) 7%N
    (@gen_random_uuid counter_uuid 5) = false.
Proof.
  refine (proj1 (@lost_lock_is_fenced counter_uuid ex_ops ex_locked_world
    (@run_ops counter_uuid ex_ops ex_locked_world).1
    (@run_ops counter_uuid ex_ops ex_locked_world).2 7%N 5 _ _ _)).
  - vm_compute. lia.
  - reflexivity.
  - by destruct (run_ops ex_ops ex_locked_world).
Defined.
