(* ===== verification/Eea.v ===== *)
(** * The event execution aggregator: internal/eea/eea.go

    Events of an entity that is locked are remembered in the flush cache and
    published again when the execution is over; the others go on to the
    executor with the execution id of the lock they took.  The properties
    service is an interface. *)

From S2P Require Import Prelude GoErrors GoMonad GoStrings Uuid DbTypes EntityEvent.
From S2P Require Import Database EntityModels ExecLock.
Local Open Scope string_scope.

Definition TopicQueueEntityEvaluate : string := "execute.entity.event".
Definition TopicQueueEntityFlush : string := "flush.entity.event".

(** [Publish] hands the message to the bus or fails. *)
Definition Publish (topic : string) (msg : message) : prog World unit :=
  query (λ w, (add_published topic msg w, Ok tt)).

Section eea.
Context `{UuidLib} `{RandomUuid} `{ProtoJSON} `{PropertiesService}.
(** [cfg.LockInterval] *)
Context (LockInterval : Z).

(** [uuid.NewUUID()] *)
Definition NewUUID : prog World UUID :=
  query (λ w, (set_fresh (S (w_fresh w)) w, Ok (gen_random_uuid (w_fresh w)))).

Definition build_message (eiw : EntityInfoWrapper) : prog World message :=
  id ← try NewUUID;
  lift (BuildMessage match id with inl id => Ok id | inr e => Err e end eiw).

(** [inf.Publish(evt)] *)
Definition PublishEntity (eiw : EntityInfoWrapper) : prog World unit :=
  msg ← build_message eiw;
  wrapf "error publishing entity event: " (Publish TopicQueueEntityEvaluate msg).

(** Getting the lock, in its own transaction: an error of the lock rolls it
    back and is handed on. *)
Definition lock_in_transaction (d : Db) (inf : EntityInfoWrapper) (entityID : UUID)
    : prog World (EntityExecutionLock + gerr) :=
  r ← try (LockIfThresholdNotExceeded
             {| lp_Entity := EntityTypeToDB (eiw_Type inf);
                lp_EntityInstanceID := entityID;
                lp_ProjectID := eiw_ProjectID inf; lp_Interval := LockInterval |});
  match r with
  | inl lock =>
      c ← try Commit;
      match c with
      | inl _ => mret (inl lock)
      | inr e => restore d;; throw (EWrap "error committing transaction: " e "")
      end
  | inr e => restore d;; mret (inr e)
  end.

Definition aggregate (msg : message) : prog World (option message) :=
  inf ← wrapf "error unmarshalling payload: " (lift (ParseEntityEvent msg));
  id ← try (lift (GetID (Some inf)));
  match id with
  | inr _ => mret None
  | inl entityID =>
      wrapf "error beginning transaction: " BeginTransaction;;
      d ← gets w_db;
      ent ← try (GetEntityByID entityID);
      match ent with
      | inr e =>
          restore d;;
          if is_in e ErrNoRows then mret None
          else throw (EWrap "error getting entity: " e "")
      | inl _ =>
          res ← lock_in_transaction d inf entityID;
          match res with
          | inl lock =>
              mret (Some (Metadata_Set msg ExecutionIDKey (uuid_String (lk_LockedBy lock))))
          | inr e =>
              if is_in e ErrNoRows then
                q ← try (EnqueueFlush {| ef_Entity := EntityTypeToDB (eiw_Type inf);
                                         ef_EntityInstanceID := entityID;
                                         ef_ProjectID := eiw_ProjectID inf |});
                match q with
                | inl _ => mret None
                | inr e => if is_in e ErrNoRows then mret None
                           else throw (EWrap "error enqueuing flush: " e "")
                end
              else throw (EWrap "error locking: " e "")
          end
      end
  end.

(** The middleware: the handler runs on the message that passes. *)
Definition AggregateMiddleware {A} (h : message → prog World (list A)) (msg : message)
    : prog World (list A) :=
  m ← wrapf "error aggregating event: " (aggregate msg);
  match m with
  | None => mret []
  | Some msg => h msg
  end.

Definition FlushMessageHandler (msg : message) : prog World unit :=
  inf ← wrapf "error unmarshalling payload: " (lift (ParseEntityEvent msg));
  eID ← wrapf "error getting entity ID: " (lift (GetID (Some inf)));
  r ← try (FlushCache eID);
  match r with
  | inr e => if is_in e ErrNoRows then mret tt
             else throw (EWrap "error flushing cache: " e "")
  | inl _ => wrapf "error publishing execute event: " (PublishEntity inf)
  end.

(** The three builders differ in the message they accept. *)
Definition buildInfoWrapper (k : pkind) (with_ : ProtoMessage → EntityInfoWrapper → EntityInfoWrapper)
    (what : string) (entityID projID : UUID) : prog World EntityInfoWrapper :=
  ent ← wrapf "error fetching entity: " (EntityWithPropertiesByID entityID);
  if bool_decide (ewp_ProjectID ent ≠ projID)
  then throw (EText ("entity " +:+ uuid_String entityID +:+
                     " does not belong to project " +:+ uuid_String projID))
  else
    raw ← wrapf "error converting entity to protobuf: " (EntityWithPropertiesAsProto ent);
    if bool_decide (pm_kind raw = k)
    then mret (WithProviderID (ewp_ProviderID ent)
                 (WithProjectID projID (WithID entityID (with_ raw NewEntityInfoWrapper))))
    else throw (EText ("error converting entity to " +:+ what)).

Definition buildRepositoryInfoWrapper := buildInfoWrapper KRepository WithRepository "repository".
Definition buildArtifactInfoWrapper := buildInfoWrapper KArtifact WithArtifact "artifact".
Definition buildPullRequestInfoWrapper :=
  buildInfoWrapper KPullRequest WithPullRequest "pull request".

Definition buildEntityWrapper (entity : Entities) (projID entityID : UUID)
    : prog World EntityInfoWrapper :=
  if bool_decide (entity = EntitiesRepository) then buildRepositoryInfoWrapper entityID projID
  else if bool_decide (entity = EntitiesArtifact) then buildArtifactInfoWrapper entityID projID
  else if bool_decide (entity = EntitiesPullRequest)
  then buildPullRequestInfoWrapper entityID projID
  else if bool_decide (entity ∈ [EntitiesBuildEnvironment; EntitiesRelease;
                                 EntitiesPipelineRun; EntitiesTaskRun; EntitiesBuild])
  then throw (EText ("entity type " +:+ entity +:+ " not yet supported"))
  else throw (EText ("unknown entity type: " +:+ entity)).

(** One turn of the loop of [FlushAll]. *)
Definition flush_one (cache : FlushCacheRow) : prog World unit :=
  r ← try (buildEntityWrapper (fc_Entity cache) (fc_ProjectID cache)
             (fc_EntityInstanceID cache));
  match r with
  | inr e => if is_in e ErrNoRows || is_in e ErrEntityNotFound then mret tt
             else throw (EWrap "error building entity wrapper: " e "")
  | inl eiw =>
      msg ← wrapf "error building message: " (build_message eiw);
      wrapf "error flushing messages: " (FlushMessageHandler msg)
  end.

Definition FlushAll : prog World unit :=
  caches ← wrapf "error listing flush cache: " ListFlushCache;
  foreach flush_one caches.
End eea.

(** ** Lemmas *)

#[local] Arguments GetID : simpl never.
#[local] Arguments ParseEntityEvent : simpl never.
#[local] Arguments is_in : simpl never.
#[local] Arguments BuildMessage : simpl never.

(** Run one honest statement of the goal or of a hypothesis. *)
Ltac honest_query :=
  match goal with
  | Hh : honest_faults ?w |- context [query ?f ?w] =>
      let e := fresh "e" in let fs := fresh "fs" in let Hq := fresh "Hq" in
      let Hn := fresh "Hn" in let Hh' := fresh "Hh" in
      destruct (query_honest f w Hh) as [(e & fs & Hq & Hn & Hh')|(fs & Hq & Hh')];
      rewrite Hq; clear Hq
  end.

Section eea_lemmas.
Context `{UuidLib} `{RandomUuid} `{ProtoJSON} `{PropertiesService}.

(** The lock of an entity was taken or renewed within the interval. *)
Definition recently_locked (interval : Z) (e : UUID) (w : World) : Prop :=
  ∃ l, entity_execution_lock (w_db w) !! e = Some l ∧
    (w_now w - seconds interval ≤ lk_LastLockTime l)%Z.

(** The new lock of [e], which was free or whose interval was over. *)
Definition lock_taken (interval : Z) (e : UUID) (l : EntityExecutionLock) (w w' : World) : Prop :=
  ¬ recently_locked interval e w ∧ lk_LockedBy l = gen_random_uuid (w_fresh w) ∧
  lk_LastLockTime l = w_now w ∧
  w_db w' = set_locks (<[e := l]> (entity_execution_lock (w_db w))) (w_db w).

(** The entity waits for a flush: it did, or an entry for it was added. *)
Definition kept_waiting (inf : EntityInfoWrapper) (e : UUID) (w w' : World) : Prop :=
  (is_Some (flush_cache (w_db w) !! e) ∧ w_db w' = w_db w) ∨
  (flush_cache (w_db w) !! e = None ∧
   w_db w' = set_flush (<[e := {| fc_Entity := EntityTypeToDB (eiw_Type inf);
                                  fc_QueuedAt := w_now w; fc_ProjectID := eiw_ProjectID inf;
                                  fc_EntityInstanceID := e |}]> (flush_cache (w_db w))) (w_db w)).

Lemma Lock_honest arg w w' r :
  honest_faults w → LockIfThresholdNotExceeded arg w = (w', r) →
  honest_faults w' ∧ w_published w' = w_published w ∧ w_now w' = w_now w ∧
  match r with
  | Ok l => lock_taken (lp_Interval arg) (lp_EntityInstanceID arg) l w w'
  | Err e => w_db w' = w_db w ∧ (is_in e ErrNoRows = true →
               recently_locked (lp_Interval arg) (lp_EntityInstanceID arg) w)
  | Panic _ => False
  end.
Proof.
  intros Hh. unfold LockIfThresholdNotExceeded, lock_taken, recently_locked.
  match goal with |- query ?f w = _ → _ =>
    destruct (query_honest f w Hh) as [(e & fs & -> & Hn & Hh')|(fs & -> & Hh')] end.
  { intros [= <- <-]. split_and!; try done. congruence. }
  simpl. destruct (entity_execution_lock (w_db w) !! _) as [l0|] eqn:He.
  - destruct (Z.ltb_spec (lk_LastLockTime l0) (w_now w - seconds (lp_Interval arg)));
      intros [= <- <-]; split_and!; try done; [|eauto].
    intros (l & [= <-] & Hl). lia.
  - destruct (entity_and_project _ _ _); intros [= <- <-]; split_and!; try done.
    by intros (l & ? & _).
Qed.

Lemma Enqueue_honest inf e w w' r :
  honest_faults w →
  EnqueueFlush {| ef_Entity := EntityTypeToDB (eiw_Type inf); ef_EntityInstanceID := e;
                  ef_ProjectID := eiw_ProjectID inf |} w = (w', r) →
  w_published w' = w_published w ∧
  match r with
  | Ok _ => kept_waiting inf e w w'
  | Err err => w_db w' = w_db w ∧ (is_in err ErrNoRows = true → kept_waiting inf e w w')
  | Panic _ => False
  end.
Proof.
  intros Hh. unfold EnqueueFlush, kept_waiting.
  match goal with |- query ?f w = _ → _ =>
    destruct (query_honest f w Hh) as [(err & fs & -> & Hn & Hh')|(fs & -> & Hh')] end.
  { intros [= <- <-]. split_and!; [done..|congruence]. }
  simpl. destruct (flush_cache (w_db w) !! e) as [row|] eqn:Hf.
  - intros [= <- <-]. split_and!; [done..|]. left. eauto.
  - destruct (entity_and_project _ _ _); intros [= <- <-]; split_and!; try done. by right.
Qed.

Lemma lock_in_transaction_spec interval d inf e w w' r :
  honest_faults w → w_db w = d →
  lock_in_transaction interval d inf e w = (w', r) →
  w_published w' = w_published w ∧
  match r with
  | Ok (inl l) => lock_taken interval e l w w'
  | Ok (inr err) => w_db w' = d ∧ w_now w' = w_now w ∧ honest_faults w' ∧
      (is_in err ErrNoRows = true → recently_locked interval e w)
  | Err _ => w_db w' = d
  | Panic _ => False
  end.
Proof.
  intros Hh <-. unfold lock_in_transaction, mbind, prog_bind, try.
  destruct (LockIfThresholdNotExceeded _ w) as [w1 r1] eqn:Hl.
  destruct (Lock_honest _ _ _ _ Hh Hl) as (Hh1 & Hp & Hnow & Hs).
  destruct r1 as [l|err|m]; [| |done]; cbn in *.
  - unfold Commit, select. honest_query; cbn; intros [= <- <-]; done.
  - destruct Hs as [Hdb Hr]. intros [= <- <-]. by split_and!.
Qed.
End eea_lemmas.

(** C12: the aggregator loses no event about an entity that exists.  On a
    connection that can fail at any statement: if [aggregate] lets the message
    through, the entity was not locked within the interval, its lock is the one
    change to the tables, and the message is the one that came with the
    execution id of that lock.  If it stops the message without an error and
    the event names an entity that exists, the entity is locked by another and
    waits in the flush cache for the flush, which is the one change to the
    tables: no other entry is lost.  An event without an entity id, or about an
    entity that does not exist, is dropped; if [aggregate] fails, every table is
    as before.  It publishes nothing. *)
Theorem aggregate_no_lost_event `{UuidLib} `{RandomUuid} `{ProtoJSON}
    interval msg w w' r :
  honest_faults w →
  aggregate interval msg w = (w', r) →
  w_published w' = w_published w ∧
  match r with
  | Ok (Some msg') => ∃ inf e l, ParseEntityEvent msg = Ok inf ∧ GetID (Some inf) = Ok e ∧
      is_Some (entity_instances (w_db w) !! e) ∧ lock_taken interval e l w w' ∧
      msg' = Metadata_Set msg ExecutionIDKey (uuid_String (lk_LockedBy l))
  | Ok None => ∃ inf, ParseEntityEvent msg = Ok inf ∧
      ((∃ err, GetID (Some inf) = Err err ∧ w_db w' = w_db w) ∨
       (∃ e, GetID (Some inf) = Ok e ∧
          match entity_instances (w_db w) !! e with
          | None => w_db w' = w_db w
          | Some _ => recently_locked interval e w ∧ kept_waiting inf e w w'
          end))
  | Err _ => w_db w' = w_db w
  | Panic _ => ∃ inf m, ParseEntityEvent msg = Ok inf ∧ GetID (Some inf) = Panic m
  end.
Proof.
  intros Hh. unfold aggregate.
  destruct (ParseEntityEvent msg) as [inf|err|m] eqn:Hp;
    [|by intros [= <- <-]|by apply ParseEntityEvent_no_panic in Hp].
  destruct (GetID (Some inf)) as [e|err|m] eqn:Hid; unfold mbind, prog_bind; cbn;
    rewrite Hid; cbn; [|intros [= <- <-]; eauto 10|intros [= <- <-]; eauto].
  unfold wrapf, try, BeginTransaction, select at 1. honest_query; [intros [= <- <-]; done|]. cbn.
  unfold GetEntityByID, select. honest_query; cbn.
  { rewrite Hn. by intros [= <- <-]. }
  destruct (entity_instances (w_db w) !! e) as [ent|] eqn:Hent; cbn.
  2: { intros [= <- <-]. split; [done|]. exists inf. split; [done|]. right. exists e. by rewrite Hent. }
  destruct (lock_in_transaction interval (w_db w) inf e _) as [w1 [[l|err]|err|m]] eqn:Hl;
    apply lock_in_transaction_spec in Hl as [Hpub Hl]; try done; cbn in *.
  - intros [= <- <-]. split; [done|]. by exists inf, e, l.
  - destruct Hl as (Hdb & Hnow & Hhx & Hrec). destruct (is_in err ErrNoRows) eqn:Hnr; cbn.
    2: by intros [= <- <-].
    specialize (Hrec eq_refl). unfold recently_locked in Hrec. cbn in Hrec.
    destruct (EnqueueFlush _ w1) as [w2 [row|e'|m]] eqn:Hq;
      apply Enqueue_honest in Hq as [Hpub' Hq]; try done; cbn in *.
    + intros [= <- <-]. split; [congruence|]. exists inf. split; [done|]. right. exists e.
      rewrite Hent. split; [done|]. unfold kept_waiting in *. by rewrite Hdb, Hnow in Hq.
    + destruct Hq as [Hdb' Hnr']. destruct (is_in e' ErrNoRows) eqn:He; cbn;
        intros [= <- <-]; (split; [congruence|]); [|congruence].
      exists inf. split; [done|]. right. exists e. rewrite Hent. split; [done|].
      specialize (Hnr' eq_refl). unfold kept_waiting in *. by rewrite Hdb, Hnow in Hnr'.
  - by intros [= <- <-].
Qed.

(** A flush whose publication fails loses the event.  The handler deletes
    the entry of the flush cache before it publishes, and not in one
    transaction: when the publication fails it returns an error with the entry
    gone, and the message delivered again finds nothing to flush and succeeds
    without publishing anything. *)
Theorem flush_publish_failure_loses_event `{UuidLib} `{RandomUuid} `{ProtoJSON}
    msg inf e row err w :
  ParseEntityEvent msg = Ok inf → GetID (Some inf) = Ok e →
  flush_cache (w_db w) !! e = Some row →
  w_faults w = [None; None; Some err] →
  (∀ u, is_ok (BuildMessage (Ok u) inf) = true) →
  ∃ w1 err', FlushMessageHandler msg w = (w1, Err err') ∧
    flush_cache (w_db w1) !! e = None ∧ w_published w1 = w_published w ∧
    FlushMessageHandler msg w1 = (w1, Ok tt).
Proof.
  intros Hp Hid Hrow Hf Hb.
  unfold FlushMessageHandler, FlushCache, PublishEntity, build_message, NewUUID, Publish,
    mbind, prog_bind, wrapf, try, query, lift. cbn.
  rewrite Hp. cbn. rewrite Hid. cbn. rewrite Hf. cbn. rewrite Hrow. cbn.
  specialize (Hb (gen_random_uuid (w_fresh w))).
  destruct (BuildMessage _ inf) as [m|?|?]; [|done|done]. cbn.
  eexists _, _. split; [reflexivity|]. cbn. rewrite lookup_delete_eq. by split_and!.
Qed.

(** One entry of an unsupported type blocks the whole flush.  When the
    first entry listed is of a type the aggregator enqueues but [FlushAll]
    cannot rebuild (a build environment, release, pipeline run, task run or
    build), [FlushAll] stops with an error: no entry is flushed, nothing is
    published, and every later call does the same. *)
Theorem flush_all_blocked `{UuidLib} `{RandomUuid} `{ProtoJSON} `{PropertiesService}
    row rest w :
  w_faults w = [] →
  (map_to_list (flush_cache (w_db w))).*2 = row :: rest →
  fc_Entity row ∈ [EntitiesBuildEnvironment; EntitiesRelease; EntitiesPipelineRun;
                   EntitiesTaskRun; EntitiesBuild] →
  ∃ err, FlushAll w = (w, Err err) ∧ is_in err ErrNoRows = false.
Proof.
  intros Hf Hl Ht. unfold FlushAll, ListFlushCache.
  unfold mbind, prog_bind, wrapf. rewrite select_ok by done. cbn. rewrite Hl. cbn.
  unfold flush_one, buildEntityWrapper, mbind, prog_bind, try.
  destruct row as [t q p i]. cbn [fc_Entity] in *.
  list_cases Ht; bool_consts; eexists; split; reflexivity.
Qed.

Section flush_all.
Context `{UuidLib} `{RandomUuid} `{ProtoJSON} `{PropertiesService}.

(** The wrapper that decoding gives back. *)
Definition decoded (eiw : EntityInfoWrapper) : EntityInfoWrapper :=
  {| eiw_ProviderID := eiw_ProviderID eiw; eiw_ProjectID := eiw_ProjectID eiw;
     eiw_EntityID := eiw_EntityID eiw; eiw_Entity := eiw_Entity eiw;
     eiw_Type := eiw_Type eiw; eiw_OwnershipData := ∅;
     eiw_ExecutionID := None; eiw_ActionEvent := "" |}.

(** A wrapper that is fit to be published. *)
Definition publishable (eiw : EntityInfoWrapper) : Prop :=
  IsValid (eiw_Type eiw) = true ∧ eiw_ProjectID eiw ≠ uuid_Nil ∧
  eiw_ProviderID eiw ≠ uuid_Nil ∧ eiw_EntityID eiw ≠ uuid_Nil ∧
  eiw_OwnershipData eiw = ∅ ∧
  ∃ m s, eiw_Entity eiw = Some m ∧ pm_kind m = kind_of_type (eiw_Type eiw) ∧
    protojson_Marshal m = inl s.

Lemma BuildMessage_roundtrip u eiw :
  publishable eiw →
  ∃ msg, BuildMessage (Ok u) eiw = Ok msg ∧ ParseEntityEvent msg = Ok (decoded eiw) ∧
    GetID (Some (decoded eiw)) = Ok (eiw_EntityID eiw) ∧ publishable (decoded eiw).
Proof.
  intros (Ht & Hproj & Hprov & Hid & Hown & m & s & Hm & Hk & Hs).
  destruct (ToMessage_roundtrip eiw {| msg_UUID := uuid_String u; msg_Metadata := ∅;
    msg_Payload := "" |} m s) as (msg & Hto & Hparse & Hget & _); try done.
  { intros k _. by rewrite Hown. }
  exists msg. unfold BuildMessage. cbn. rewrite Hto. unfold decoded. rewrite Hm.
  split_and!; try done. unfold publishable. cbn. split_and!; eauto 10.
Qed.

(** What the properties service knows about an entry of the cache. *)
Definition known_entry (e : UUID) (row : FlushCacheRow) : Prop :=
  fc_EntityInstanceID row = e ∧
  ∃ t prov m s,
    EntityTypeToDB t = fc_Entity row ∧
    t ∈ [Entity_ENTITY_REPOSITORIES; Entity_ENTITY_ARTIFACTS; Entity_ENTITY_PULL_REQUESTS] ∧
    e ≠ uuid_Nil ∧ prov ≠ uuid_Nil ∧ fc_ProjectID row ≠ uuid_Nil ∧
    pm_kind m = kind_of_type t ∧ protojson_Marshal m = inl s ∧
    ∃ ent, ewp_ProjectID ent = fc_ProjectID row ∧ ewp_ProviderID ent = prov ∧
    (∀ w, EntityWithPropertiesByID e w = (w, Ok ent)) ∧
    (∀ w, EntityWithPropertiesAsProto ent w = (w, Ok m)).

Lemma buildEntityWrapper_known e row w :
  known_entry e row →
  ∃ eiw, buildEntityWrapper (fc_Entity row) (fc_ProjectID row) (fc_EntityInstanceID row) w
           = (w, Ok eiw) ∧ publishable eiw ∧ eiw_EntityID eiw = e.
Proof.
  intros (-> & t & prov & m & s & Ht & Hin & He & Hprov & Hproj & Hk & Hs & ent & Hpj & <- &
    Hent & Hproto).
  exists (WithProviderID (ewp_ProviderID ent) (WithProjectID (fc_ProjectID row) (WithID e
            (WithProtoMessage t (Some m) NewEntityInfoWrapper)))).
  split; [|split; [|done]].
  - rewrite <-Ht. unfold buildEntityWrapper.
    list_cases Hin; bool_consts; unfold buildRepositoryInfoWrapper,
      buildArtifactInfoWrapper, buildPullRequestInfoWrapper, buildInfoWrapper;
      unfold mbind, prog_bind, wrapf; rewrite Hent; cbn;
      rewrite Hpj; rewrite bool_decide_eq_false_2 by (intros []; done);
      rewrite Hproto; cbn; cbv -[pm_kind] in Hk; rewrite Hk; reflexivity.
  - unfold publishable. cbn. split_and!; try done; [|by exists m, s].
    list_cases Hin; reflexivity.
Qed.

(** One entry: it leaves the cache and an event for its entity is published. *)
Lemma flush_one_known e row w :
  w_faults w = [] → flush_cache (w_db w) !! e = Some row → known_entry e row →
  ∃ w' m inf, flush_one row w = (w', Ok tt) ∧
    w_faults w' = [] ∧
    flush_cache (w_db w') = delete e (flush_cache (w_db w)) ∧
    w_published w' = (w_published w ++ [(TopicQueueEntityEvaluate, m)])%list ∧
    ParseEntityEvent m = Ok inf ∧ GetID (Some inf) = Ok e.
Proof.
  intros Hf Hrow Hknown.
  destruct (buildEntityWrapper_known e row w Hknown) as (eiw & Hb & Hpub & <-).
  destruct (BuildMessage_roundtrip (gen_random_uuid (w_fresh w)) eiw Hpub)
    as (m1 & Hm1 & Hparse1 & Hget1 & Hpub1).
  destruct (BuildMessage_roundtrip (gen_random_uuid (S (w_fresh w))) (decoded eiw) Hpub1)
    as (m2 & Hm2 & Hparse2 & Hget2 & _).
  unfold flush_one, FlushMessageHandler, FlushCache, PublishEntity, build_message, NewUUID,
    Publish, mbind, prog_bind, wrapf, try, query, lift.
  rewrite Hb, Hf. cbn.
  rewrite Hm1. cbn. rewrite Hparse1. cbn. rewrite Hget1. cbn. rewrite Hf. cbn.
  rewrite Hrow. cbn. rewrite Hf. cbn. rewrite Hm2. cbn. rewrite Hf. cbn.
  eexists _, m2, (decoded (decoded eiw)). split; [reflexivity|]. cbn. by split_and!.
Qed.

Lemma flush_list_known rows w :
  w_faults w = [] → NoDup rows.*1 →
  (∀ e row, (e, row) ∈ rows → flush_cache (w_db w) !! e = Some row ∧ known_entry e row) →
  ∃ w', foreach flush_one rows.*2 w = (w', Ok tt) ∧
    (∀ e, e ∈ rows.*1 → flush_cache (w_db w') !! e = None) ∧
    (∀ e, e ∉ rows.*1 → flush_cache (w_db w') !! e = flush_cache (w_db w) !! e) ∧
    (∀ e, e ∈ rows.*1 → ∃ m inf, (TopicQueueEntityEvaluate, m) ∈ w_published w' ∧
       ParseEntityEvent m = Ok inf ∧ GetID (Some inf) = Ok e) ∧
    length (w_published w') = (length (w_published w) + length rows)%nat ∧
    (∀ x, x ∈ w_published w → x ∈ w_published w').
Proof.
  revert w. induction rows as [|[e row] rows IH]; intros w Hf Hnd Hrows; cbn in *.
  { exists w. split_and!; (set_solver || lia || done). }
  apply NoDup_cons in Hnd as [Hnin Hnd].
  destruct (Hrows e row ltac:(set_solver)) as [Hrow Hknown].
  destruct (flush_one_known e row w Hf Hrow Hknown)
    as (w1 & m & inf & Hone & Hf1 & Hcache & Hpubl & Hparse & Hget).
  destruct (IH w1 Hf1 Hnd) as (w' & Hrun & Hgone & Hkeep & Hev & Hlen & Hsub).
  { intros e' row' Hin. rewrite Hcache. rewrite lookup_delete_ne.
    - apply Hrows. set_solver.
    - intros <-. apply Hnin. apply list_elem_of_fmap. by exists (e, row'). }
  exists w'. rewrite (prog_bind_run _ _ _ _ _ Hone). split_and!; [done| | | | |].
  - intros e' [->|Hin]%elem_of_cons; [|by apply Hgone].
    rewrite Hkeep by done. rewrite Hcache. apply lookup_delete_eq.
  - intros e' [Hne Hnin']%not_elem_of_cons. rewrite Hkeep by done. rewrite Hcache.
    by apply lookup_delete_ne.
  - intros e' [->|Hin]%elem_of_cons; [|by apply Hev].
    exists m, inf. split; [|done]. apply Hsub. rewrite Hpubl. set_solver.
  - rewrite Hlen, Hpubl, length_app. simpl. lia.
  - intros x Hx. apply Hsub. rewrite Hpubl. set_solver.
Qed.
End flush_all.

(** Otherwise the flush is complete.  With a working connection and a
    properties service that knows the repositories, artifacts and pull requests
    in the cache, [FlushAll] succeeds, empties the cache and publishes exactly
    one event per entry, each of which decodes to the entity of the entry. *)
Theorem flush_all_complete `{UuidLib} `{RandomUuid} `{ProtoJSON} `{PropertiesService} w :
  w_faults w = [] →
  (∀ e row, flush_cache (w_db w) !! e = Some row → known_entry e row) →
  ∃ w', FlushAll w = (w', Ok tt) ∧ flush_cache (w_db w') = ∅ ∧
    length (w_published w') = (length (w_published w) + size (flush_cache (w_db w)))%nat ∧
    ∀ e, is_Some (flush_cache (w_db w) !! e) →
      ∃ m inf, (TopicQueueEntityEvaluate, m) ∈ w_published w' ∧
        ParseEntityEvent m = Ok inf ∧ GetID (Some inf) = Ok e.
Proof.
  intros Hf Hknown. unfold FlushAll, ListFlushCache.
  unfold mbind at 1, prog_bind at 1, wrapf at 1. rewrite select_ok by done. cbn.
  destruct (flush_list_known (map_to_list (flush_cache (w_db w))) w Hf)
    as (w' & -> & Hgone & Hkeep & Hev & Hlen & _).
  { apply NoDup_fst_map_to_list. }
  { intros e row Hin%elem_of_map_to_list. auto. }
  assert (Hin : ∀ e, is_Some (flush_cache (w_db w) !! e) ↔
                     e ∈ (map_to_list (flush_cache (w_db w))).*1).
  { intros e. split.
    - intros [row Hrow]. apply list_elem_of_fmap. exists (e, row).
      split; [done|]. by apply elem_of_map_to_list.
    - intros ([e' row] & -> & Hrow)%list_elem_of_fmap.
      apply elem_of_map_to_list in Hrow. eauto. }
  exists w'. split_and!; [reflexivity| |by rewrite <-length_map_to_list|].
  - apply map_empty. intros e. destruct (flush_cache (w_db w) !! e) as [row|] eqn:Hrow.
    + apply Hgone. apply Hin. eauto.
    + rewrite Hkeep; [done|]. intros Hc%Hin. destruct Hc. congruence.
  - intros e He. apply Hev. by apply Hin.
Qed.

(** ** Witnesses *)

Definition ex_service : PropertiesService :=
  {| EntityWithPropertiesByID := λ e w,
       (w, Ok (ex_entity e));
     EntityWithPropertiesAsProto := λ _ w,
       (w, Ok {| pm_kind := KRepository; pm_fields := Any "repo" |}) |}.

Definition ex_event_message : message :=
  ex_message {["project_id" := "2"; "provider_id" := "1"; "entity_type" := "repository";
               "entity_id" := "7"]} "repo".

Definition ex_cache_row (t : Entities) : FlushCacheRow :=
  {| fc_Entity := t; fc_QueuedAt := 0; fc_ProjectID := 2%N; fc_EntityInstanceID := 7%N |}.

(** A second event of a locked entity waits in the flush cache. *)
Definition ex_locked_db : Db :=
  set_locks {[7%N := {| lk_Entity := "repository"; lk_LockedBy := 5%N; lk_LastLockTime := 0;
                        lk_ProjectID := 2%N |}]} ex_db.

Example aggregate_no_lost_event_witness :
  match (@aggregate decimal_uuid counter_uuid plain_protojson 30 ex_event_message
           (ex_world ex_locked_db [])) with
  | (w', Ok None) => ∃ inf, (∃ e,
      @GetID decimal_uuid (Some inf) = Ok e ∧ recently_locked 30 e (ex_world ex_locked_db []) ∧
      kept_waiting inf e (ex_world ex_locked_db []) w')
  | _ => False
  end.
Proof.
  assert (Hh : honest_faults (ex_world ex_locked_db [])).
  { intros e He. exfalso. by apply elem_of_nil in He. }
  destruct (@aggregate_no_lost_event decimal_uuid counter_uuid plain_protojson 30
    ex_event_message (ex_world ex_locked_db []) _ _ Hh (surjective_pairing _)) as [_ Hr].
  revert Hr.
  assert (Hrun : (@aggregate decimal_uuid counter_uuid plain_protojson 30 ex_event_message
    (ex_world ex_locked_db [])).2 = Ok None) by (by vm_compute).
  destruct (aggregate _ _ _) as [w' r]. cbn [fst snd] in *. subst r.
  intros (inf & Hp & [(err & Hid & _)|(e & Hid & Hr)]).
  - exfalso. clear -Hp Hid. vm_compute in Hp. injection Hp as <-. by vm_compute in Hid.
  - assert (He : entity_instances (w_db (ex_world ex_locked_db [])) !! e ≠ None).
    { clear -Hp Hid. vm_compute in Hp. injection Hp as <-. vm_compute in Hid.
      injection Hid as <-. by vm_compute. }
    destruct (entity_instances _ !! e); [|done]. eauto 10.
Defined.

(** An event of an entity that is free passes with its lock. *)
Example aggregate_passes :
  match (@aggregate decimal_uuid counter_uuid plain_protojson 30 ex_event_message
           (ex_world ex_db [])) with
  | (w', Ok (Some msg')) => dom (entity_execution_lock (w_db w')) = {[7%N]} ∧
      flush_cache (w_db w') = ∅
  | _ => False
  end.
Proof. vm_compute. done. Qed.

Definition ex_flush_world (t : Entities) (faults : list (option gerr)) : World :=
  ex_world (set_flush {[7%N := ex_cache_row t]} ex_db) faults.

Definition ex_inf : EntityInfoWrapper :=
  {| eiw_ProviderID := 1%N; eiw_ProjectID := 2%N; eiw_EntityID := 7%N;
     eiw_Entity := Some {| pm_kind := KRepository; pm_fields := Any "repo" |};
     eiw_Type := Entity_ENTITY_REPOSITORIES; eiw_OwnershipData := ∅;
     eiw_ExecutionID := None; eiw_ActionEvent := "" |}.

Example flush_publish_failure_loses_event_witness :
  let w := ex_flush_world "repository" [None; None; Some (EText "bus down")] in
  ∃ w1 err', @FlushMessageHandler decimal_uuid counter_uuid plain_protojson
      ex_event_message w = (w1, Err err') ∧
    flush_cache (w_db w1) !! 7%N = None ∧ w_published w1 = [] ∧
    @FlushMessageHandler decimal_uuid counter_uuid plain_protojson ex_event_message w1
      = (w1, Ok tt).
Proof.
  apply (@flush_publish_failure_loses_event decimal_uuid counter_uuid plain_protojson
    ex_event_message ex_inf 7%N (ex_cache_row "repository") (EText "bus down")).
  - vm_compute. reflexivity.
  - reflexivity.
  - reflexivity.
  - reflexivity.
  - intros u. reflexivity.
Defined.

Example flush_all_blocked_witness :
  ∃ err, @FlushAll decimal_uuid counter_uuid plain_protojson ex_service
      (ex_flush_world "release" []) = (ex_flush_world "release" [], Err err) ∧
    is_in err ErrNoRows = false.
Proof.
  apply (@flush_all_blocked decimal_uuid counter_uuid plain_protojson ex_service
    (ex_cache_row "release") []).
  - reflexivity.
  - vm_compute. reflexivity.
  - right; left.
Defined.

Example flush_all_complete_witness :
  ∃ w', @FlushAll decimal_uuid counter_uuid plain_protojson ex_service
      (ex_flush_world "repository" []) = (w', Ok tt) ∧ flush_cache (w_db w') = ∅ ∧
    length (w_published w') = 1%nat.
Proof.
  destruct (@flush_all_complete decimal_uuid counter_uuid plain_protojson ex_service
    (ex_flush_world "repository" [])) as (w' & Hrun & Hempty & Hlen & _).
  - reflexivity.
  - intros e row. unfold ex_flush_world. simpl. intros [<- <-]%lookup_singleton_Some.
    split; [reflexivity|].
    exists Entity_ENTITY_REPOSITORIES, 1%N, {| pm_kind := KRepository; pm_fields := Any "repo" |},
      "repo".
    split_and!; [reflexivity|by left|discriminate|discriminate|discriminate|reflexivity|
      reflexivity|].
    exists (ex_entity 7%N). split_and!; reflexivity.
  - exists w'. split_and!; [exact Hrun|exact Hempty|].
    rewrite Hlen. reflexivity.
Defined.
