(* ===== verification/Reminder.v ===== *)
(** * Reminders

    internal/reminder/reminder.go, its messages, internal/reminderprocessor/ and
    the reconciler of repositories: on every tick the next repositories are
    fetched, those that were last evaluated long ago get a message, and the
    message makes the server refresh and evaluate the repository.  The queries
    are those of internal/db/entities.sql.go and profile_status.sql.go. *)

From S2P Require Import Prelude GoErrors GoMonad GoStrings Uuid DbTypes EntityEvent Properties.
From S2P Require Import EntityMessage Database Eea.
Local Open Scope string_scope.

(** ** The queries *)

Abbreviation EntityRow := (UUID * EntityInstance)%type.

Record ListEntitiesAfterIDParams := { la_EntityType : Entities; la_ID : UUID; la_Limit : Z }.

(** The ids of a type above a cursor, in their order. *)
Definition ids_after (d : Db) (t : Entities) (cursor : UUID) : list UUID :=
  merge_sort N.le (map_to_list (filter
    (λ p, ei_EntityType p.2 = t ∧ (cursor < p.1)%N) (entity_instances d))).*1.

Definition entity_rows (d : Db) (ids : list UUID) : list EntityRow :=
  omap (λ id, (λ e, (id, e)) <$> entity_instances d !! id) ids.

(** A [LIMIT] below zero is an error of the database. *)
Definition ListEntitiesAfterID (arg : ListEntitiesAfterIDParams) : prog World (list EntityRow) :=
  select (λ w,
    if (la_Limit arg <? 0)%Z then Err (EText "LIMIT must not be negative")
    else Ok (take (Z.to_nat (la_Limit arg))
               (entity_rows (w_db w) (ids_after (w_db w) (la_EntityType arg) (la_ID arg))))).

Record EntityExistsAfterIDParams := { ea_EntityType : Entities; ea_ID : UUID }.

Definition exists_after (d : Db) (t : Entities) (cursor : UUID) : bool :=
  negb (bool_decide (
    filter (λ p, ei_EntityType p.2 = t ∧ (cursor < p.1)%N) (entity_instances d) = ∅)).

Definition EntityExistsAfterID (arg : EntityExistsAfterIDParams) : prog World bool :=
  select (λ w, Ok (exists_after (w_db w) (ea_EntityType arg) (ea_ID arg))).

(** The times of the latest evaluations of an entity, over all its rules. *)
Definition latest_times (d : Db) (id : UUID) : list Z :=
  map_to_list (latest_evaluation_statuses d) ≫= λ '(ere, la),
    match evaluation_rule_entities d !! ere,
          evaluation_statuses d !! la_EvaluationHistoryID la with
    | Some r, Some es =>
        if bool_decide (ere_EntityInstanceID r = id) then [es_EvaluationTime es] else []
    | _, _ => []
    end.

(** [MIN] of a group, which has a row at least. *)
Definition min_time (l : list Z) : option Z :=
  match l with [] => None | t :: l => Some (foldr Z.min t l) end.

Record ListOldestRuleEvaluationsByEntityIDRow := {
  or_EntityInstanceID : UUID; or_OldestLastUpdated : Z;
}.

Definition ListOldestRuleEvaluationsByEntityID (entityIds : list UUID)
    : prog World (list ListOldestRuleEvaluationsByEntityIDRow) :=
  select (λ w, Ok (omap (λ id,
    (λ t, {| or_EntityInstanceID := id; or_OldestLastUpdated := t |}) <$>
      min_time (latest_times (w_db w) id)) (remove_dups entityIds))).

(** ** The messages *)

(** [EntityReminderEvent] has the fields and the JSON names of
    [RepoReconcilerEvent]. *)
Abbreviation EntityReminderEvent := RepoReconcilerEvent.

Definition TopicQueueRepoReminder : string := "repo.reminder.event".
Section messages.
Context `{UuidLib} `{RandomUuid} `{MessageJSON}.

Definition NewEntityReminderMessage (providerId entityID projectID : UUID)
    : prog World message :=
  NewMessage (event_Marshal
    {| rr_Project := projectID; rr_Provider := providerId; rr_EntityID := entityID |}).

Definition EntityReminderEventFromMessage (msg : message) : res EntityReminderEvent :=
  match event_Unmarshal (msg_Payload msg) with
  | inl evt => Ok evt
  | inr err => Err (EWrap "error unmarshalling payload: " err "")
  end.

(** *** reminder_processor.go: a failed publication is only logged *)
Definition reminderMessageHandler (msg : message) : prog World unit :=
  evt ← wrapf "error unmarshalling reminder event: " (lift (EntityReminderEventFromMessage msg));
  repoReconcileMsg ← wrapf "error creating repo reconcile event: "
    (NewRepoReconcilerMessage (rr_Provider evt) (rr_EntityID evt) (rr_Project evt));
  try (Publish TopicQueueReconcileRepoInit repoReconcileMsg);;
  mret tt.

(** *** internal/reconcilers/repository.go: an event that cannot be read, or
    without an entity, is dropped; the structure has no validation tags *)
Definition handleRepositoryReconcilerEvent (evt : RepoReconcilerEvent) : prog World unit :=
  let entRefresh := WithEntityID (rr_EntityID evt) NewEntityRefreshAndDoMessage in
  m ← NewMessage "";
  match do_ToMessage entRefresh m with
  | Ok m =>
      if (rr_EntityID evt =? uuid_Nil)%N then mret tt
      else wrapf "error publishing message: " (Publish TopicQueueRefreshEntityByIDAndEvaluate m)
  | Err _ => mret tt
  | Panic s => lift (Panic s)
  end.

Definition handleRepoReconcilerEvent (msg : message) : prog World unit :=
  match event_Unmarshal (msg_Payload msg) with
  | inr _ => mret tt
  | inl evt => handleRepositoryReconcilerEvent evt
  end.
End messages.

(** ** reminder.go *)

Record RecurrenceConfig := { Interval : Z; BatchSize : Z; MinElapsed : Z }.

Definition Validate (r : RecurrenceConfig) : res unit :=
  if (MinElapsed r <? 0)%Z then Err (EText "min_elapsed cannot be negative")
  else if (Interval r <? 0)%Z then Err (EText "interval cannot be negative")
  else Ok tt.

(** When a receive from the channel [metricsServerDone] returns: it is closed,
    it will be closed once the reminder is stopped or its context is done, or
    nobody is going to close it. *)
Inductive Closing := Closed | WhenStopped | Never.

Record reminder := {
  r_server : World;
  r_repositoryCursor : UUID;
  r_stop : bool;
  r_ticker : bool;
  r_publisherClosed : nat;
  r_metricsServerDone : Closing;
}.

Definition set_server (w : World) (r : reminder) : reminder :=
  {| r_server := w; r_repositoryCursor := r_repositoryCursor r; r_stop := r_stop r;
     r_ticker := r_ticker r; r_publisherClosed := r_publisherClosed r;
     r_metricsServerDone := r_metricsServerDone r |}.
Definition set_cursor (c : UUID) (r : reminder) : reminder :=
  {| r_server := r_server r; r_repositoryCursor := c; r_stop := r_stop r;
     r_ticker := r_ticker r; r_publisherClosed := r_publisherClosed r;
     r_metricsServerDone := r_metricsServerDone r |}.
Definition set_ticker (r : reminder) : reminder :=
  {| r_server := r_server r; r_repositoryCursor := r_repositoryCursor r; r_stop := r_stop r;
     r_ticker := true; r_publisherClosed := r_publisherClosed r;
     r_metricsServerDone := r_metricsServerDone r |}.
Definition set_done (d : Closing) (r : reminder) : reminder :=
  {| r_server := r_server r; r_repositoryCursor := r_repositoryCursor r; r_stop := r_stop r;
     r_ticker := r_ticker r; r_publisherClosed := r_publisherClosed r;
     r_metricsServerDone := d |}.
(** [stopOnce.Do]: the channel is closed and the publisher too. *)
Definition stop_once (r : reminder) : reminder :=
  if r_stop r then r
  else {| r_server := r_server r; r_repositoryCursor := r_repositoryCursor r; r_stop := true;
          r_ticker := r_ticker r; r_publisherClosed := S (r_publisherClosed r);
          r_metricsServerDone := r_metricsServerDone r |}.

(** A call of the store or of the publisher. *)
Definition on_store {A} (m : prog World A) : prog reminder A := λ r,
  let '(w, a) := m (r_server r) in (set_server w r, a).

Section reminder.
Context `{UuidLib} `{RandomUuid} `{MessageJSON}.
Context (cfg : RecurrenceConfig).

Definition NewReminder (w : World) : reminder :=
  {| r_server := set_fresh (S (w_fresh w)) w;
     r_repositoryCursor := gen_random_uuid (w_fresh w); r_stop := false; r_ticker := false;
     r_publisherClosed := 0; r_metricsServerDone := Never |}.

(** The times by id, and the rows that are old enough. *)
Definition idToLastUpdate (evals : list ListOldestRuleEvaluationsByEntityIDRow) : gmap UUID Z :=
  foldl (λ m e, <[or_EntityInstanceID e := or_OldestLastUpdated e]> m) ∅ evals.

Definition eligible (last : gmap UUID Z) (cutoff : Z) (id : UUID) : bool :=
  match last !! id with Some t => (t <? cutoff)%Z | None => false end.

Definition getEligibleRepositories (repos : list EntityRow) : prog reminder (list EntityRow) :=
  oldestRuleEvals ← on_store (ListOldestRuleEvaluationsByEntityID repos.*1);
  now ← gets (λ r, w_now (r_server r));
  let cutoff := (now - MinElapsed cfg)%Z in
  mret (filter (λ repo, Is_true (eligible (idToLastUpdate oldestRuleEvals) cutoff repo.1)) repos).

Definition adjustCursorForEndOfList : prog reminder unit :=
  cursor ← gets r_repositoryCursor;
  exists_ ← try (on_store (EntityExistsAfterID
    {| ea_EntityType := "repository"; ea_ID := cursor |}));
  match exists_ with
  | inl true => mret tt
  | _ => modify (set_cursor uuid_Nil)
  end.

Definition updateRepositoryCursor (repos : list EntityRow) : prog reminder unit :=
  match last repos with
  | None => modify (set_cursor uuid_Nil)
  | Some repo => modify (set_cursor repo.1);; adjustCursorForEndOfList
  end.

Definition getRepositoryBatch : prog reminder (list EntityRow) :=
  cursor ← gets r_repositoryCursor;
  repos ← on_store (ListEntitiesAfterID
    {| la_EntityType := "repository"; la_ID := cursor; la_Limit := BatchSize cfg |});
  eligibleRepos ← getEligibleRepositories repos;
  updateRepositoryCursor repos;;
  mret eligibleRepos.

Fixpoint createReminderMessages (repos : list EntityRow) : prog World (list message) :=
  match repos with
  | [] => mret []
  | repo :: repos =>
      m ← wrapf "error creating reminder message: "
            (NewEntityReminderMessage (ei_ProviderID repo.2) repo.1 (ei_ProjectID repo.2));
      ms ← createReminderMessages repos;
      mret (m :: ms)
  end.

(** The publisher is handed all the messages at once; it may fail after some. *)
Definition sendReminders : prog reminder unit :=
  repos ← wrapf "error fetching repository batch: " getRepositoryBatch;
  match repos with
  | [] => mret tt
  | _ =>
      messages ← wrapf "error creating reminder messages: "
                   (on_store (createReminderMessages repos));
      wrapf "error publishing messages: "
        (on_store (foreach (Publish TopicQueueRepoReminder) messages))
  end.

(** *** The service *)

(** What the [select] of the loop receives, in order: a tick (at a time), the
    end of the context, or the closed channel after somebody called [Stop]. *)
Inductive event := Tick (now : Z) | CtxDone | StopCalled.

Inductive outcome := Returns (r : res unit) | Blocks | Running.

Definition received (ctxDone : bool) (r : reminder) : bool :=
  match r_metricsServerDone r with
  | Closed => true
  | WhenStopped => ctxDone || r_stop r
  | Never => false
  end.

Definition Stop (ctxDone : bool) (r : reminder) : reminder * outcome :=
  let r := stop_once r in
  (r, if received ctxDone r then Returns (Ok tt) else Blocks).

Definition at_time (now : Z) (r : reminder) : reminder :=
  let w := r_server r in
  set_server {| w_db := w_db w; w_now := now; w_fresh := w_fresh w; w_faults := w_faults w;
                w_published := w_published w |} r.

(** A tick that fails is logged. *)
Definition on_tick (now : Z) (r : reminder) : reminder := (sendReminders (at_time now r)).1.

Fixpoint loop (events : list event) (r : reminder) : reminder * bool * outcome :=
  match events with
  | [] => (r, false, Running)
  | Tick now :: events => loop events (on_tick now r)
  | CtxDone :: _ => (r, true, if received true r then Returns (Ok tt) else Blocks)
  | StopCalled :: _ =>
      let r := stop_once r in (r, false, if received false r then Returns (Ok tt) else Blocks)
  end.

(** The deferred [Stop], after what the rest of [Start] gave. *)
Definition deferred_Stop (ctxDone : bool) (r : reminder) (o : outcome) : reminder * outcome :=
  match o with
  | Returns res => match Stop ctxDone r with
                   | (r, Returns _) => (r, Returns res)
                   | other => other
                   end
  | o => (r, o)
  end.

(** [metrics]: whether metrics are enabled, and then whether the server and the
    recorder could be set up. *)
Definition Start (metrics : option (error * error)) (events : list event) (r : reminder)
    : reminder * outcome :=
  if r_stop r then (r, Returns (Err (EText "reminder stopped, cannot start again")))
  else if (Interval cfg <=? 0)%Z
  then deferred_Stop false r (Returns (Err (EText "invalid interval")))
  else
    let run r := let '(r, ctxDone, o) := loop events (set_ticker r) in
                 deferred_Stop ctxDone r o in
    match metrics with
    | None => run (set_done Closed r)
    | Some (serverErr, recorderErr) =>
        let r := match serverErr with None => set_done WhenStopped r | Some _ => r end in
        match recorderErr with
        | Some err => deferred_Stop false r (Returns (Err err))
        | None => run r
        end
    end.
End reminder.

(** ** The abstract service: a ring of repositories

    The repositories that are still to come in this round; a tick takes the
    next ones, and starts a new round when none is left. *)

Section ring.
Context {A : Type} (k : nat) (all : list A).

Definition ring_next (pending : list A) : list A :=
  match drop k pending with [] => all | rest => rest end.

Fixpoint ring_run (n : nat) (pending : list A) : list (list A) * list A :=
  match n with
  | O => ([], pending)
  | S n => let '(batches, rest) := ring_run n (ring_next pending) in
           (take k pending :: batches, rest)
  end.

Lemma ring_run_length n pending : length (ring_run n pending).1 = n.
Proof.
  revert pending. induction n as [|n IH]; intros pending; [done|]. simpl.
  specialize (IH (ring_next pending)). destruct (ring_run n _). simpl in *. by rewrite IH.
Qed.

(** A round of as many ticks as there are batches takes every repository once,
    in its order, and the next round starts. *)
Lemma ring_round n pending :
  0 < k → pending ≠ [] → (n - 1) * k < length pending ≤ n * k →
  concat (ring_run n pending).1 = pending ∧ (ring_run n pending).2 = all.
Proof.
  intros Hk. revert pending. induction n as [|n IH]; intros pending Hp Hn.
  { destruct pending; [done|simpl in Hn; lia]. }
  simpl. destruct (drop k pending) as [|x rest] eqn:Hd.
  - assert (Hl : length (drop k pending) = 0) by by rewrite Hd.
    rewrite length_drop in Hl. destruct n as [|n].
    + simpl. rewrite app_nil_r, take_ge by lia. unfold ring_next. by rewrite Hd.
    + exfalso. simpl in Hn. nia.
  - assert (Hl : length (drop k pending) = S (length rest)) by by rewrite Hd.
    rewrite length_drop in Hl.
    destruct (IH (x :: rest)) as [Hc Hr]; [done|simpl; simpl in Hn; split; nia|].
    unfold ring_next. rewrite Hd.
    destruct (ring_run n (x :: rest)) as [bs r]. simpl in *. split; [|done].
    by rewrite Hc, <-Hd, take_drop.
Qed.
End ring.

(** ** Lemmas on the queries *)

Lemma ids_after_elem d t c id :
  id ∈ ids_after d t c ↔
  ∃ e, entity_instances d !! id = Some e ∧ ei_EntityType e = t ∧ (c < id)%N.
Proof.
  unfold ids_after. rewrite (merge_sort_Permutation N.le). rewrite list_elem_of_fmap. split.
  - intros ([i e] & -> & Hin). apply elem_of_map_to_list, map_lookup_filter_Some in Hin.
    destruct Hin as [He [Ht Hc]]. by exists e.
  - intros (e & He & Ht & Hc). exists (id, e). split; [done|].
    by apply elem_of_map_to_list, map_lookup_filter_Some.
Qed.

Lemma ids_after_NoDup d t c : NoDup (ids_after d t c).
Proof.
  unfold ids_after. rewrite (merge_sort_Permutation N.le). apply NoDup_fst_map_to_list.
Qed.

Lemma N_le_total : Total N.le.
Proof. intros x y. lia. Qed.

Lemma ids_after_sorted d t c : StronglySorted N.le (ids_after d t c).
Proof.
  apply StronglySorted_merge_sort; [intros x y z; lia|exact N_le_total].
Qed.

Lemma sorted_middle (pre post : list N) x :
  StronglySorted N.le (pre ++ x :: post)%list → NoDup (pre ++ x :: post)%list →
  (∀ y, y ∈ pre → (y < x)%N) ∧ (∀ y, y ∈ post → (x < y)%N).
Proof.
  intros Hs Hn. apply NoDup_app in Hn as (_ & Hpre & Hn). apply NoDup_cons in Hn as [Hx _].
  apply StronglySorted_app in Hs as (Hc & _ & Hs). split.
  - intros y Hy. specialize (Hc y x Hy (list_elem_of_here _ _)).
    assert (y ≠ x); [|lia]. intros ->. apply (Hpre x Hy). by left.
  - intros y Hy. inversion Hs as [|? ? _ Hall]; subst.
    rewrite Forall_forall in Hall. specialize (Hall y Hy).
    assert (y ≠ x); [by intros ->|lia].
Qed.

(** After the last one of a batch come the rest. *)
Lemma ids_after_rest d t c pre x post :
  ids_after d t c = (pre ++ x :: post)%list → ids_after d t x = post.
Proof.
  intros Hl. pose proof (ids_after_sorted d t c) as Hs. pose proof (ids_after_NoDup d t c) as Hn.
  rewrite Hl in Hs, Hn. destruct (sorted_middle _ _ _ Hs Hn) as [Hpre Hpost].
  assert (Hxc : (c < x)%N).
  { assert (Hx : x ∈ ids_after d t c) by (rewrite Hl; set_solver).
    by apply ids_after_elem in Hx as (e & _ & _ & Hc). }
  apply (StronglySorted_unique N.le).
  - apply ids_after_sorted.
  - apply StronglySorted_app in Hs as (_ & _ & Hs). by inversion Hs.
  - apply NoDup_Permutation; [apply ids_after_NoDup| |].
    { apply NoDup_app in Hn as (_ & _ & Hn). by inversion Hn. }
    intros y. rewrite ids_after_elem. split.
    + intros (e & He & Ht & Hy). assert (Hin : y ∈ ids_after d t c).
      { apply ids_after_elem. exists e. split_and!; [done|done|lia]. }
      rewrite Hl in Hin. apply elem_of_app in Hin as [Hin|Hin]; [apply Hpre in Hin; lia|].
      apply elem_of_cons in Hin as [->|Hin]; [lia|done].
    + intros Hy. assert (Hin : y ∈ ids_after d t c) by (rewrite Hl; set_solver).
      apply ids_after_elem in Hin as (e & He & Ht & _). exists e.
      split_and!; [done|done|by apply Hpost].
Qed.

Lemma entity_rows_ids d ids :
  (∀ id, id ∈ ids → is_Some (entity_instances d !! id)) → (entity_rows d ids).*1 = ids.
Proof.
  unfold entity_rows. induction ids as [|id ids IH]; intros Hall; [done|]. simpl.
  destruct (Hall id) as [e He]; [by left|]. rewrite He. simpl. f_equal. apply IH.
  intros i Hi. apply Hall. by right.
Qed.

Lemma entity_rows_elem d ids id e :
  (id, e) ∈ entity_rows d ids ↔ id ∈ ids ∧ entity_instances d !! id = Some e.
Proof.
  unfold entity_rows. rewrite list_elem_of_omap. split.
  - intros (i & Hi & Hrow). destruct (entity_instances d !! i) eqn:He; [|done].
    by injection Hrow as -> ->.
  - intros [Hi He]. exists id. by rewrite He.
Qed.

Lemma last_times (F : UUID → option Z) evals (m : gmap UUID Z) id :
  (∀ e, e ∈ evals → F (or_EntityInstanceID e) = Some (or_OldestLastUpdated e)) →
  foldl (λ m e, <[or_EntityInstanceID e := or_OldestLastUpdated e]> m) m evals !! id
  = if decide (id ∈ or_EntityInstanceID <$> evals) then F id else m !! id.
Proof.
  revert m. induction evals as [|e evals IH]; intros m HF; [by rewrite decide_False by set_solver|].
  simpl. rewrite IH by set_solver.
  destruct (decide (id ∈ or_EntityInstanceID <$> evals)) as [Hin|Hin].
  - by rewrite decide_True by set_solver.
  - destruct (decide (id = or_EntityInstanceID e)) as [->|Hne].
    + rewrite decide_True by set_solver. rewrite lookup_insert_eq. symmetry. apply HF. by left.
    + rewrite decide_False by set_solver. by rewrite lookup_insert_ne.
Qed.

(** A repository is due when its oldest latest evaluation is before the cutoff. *)
Definition due (d : Db) (cutoff : Z) (id : UUID) : bool :=
  match min_time (latest_times d id) with Some t => (t <? cutoff)%Z | None => false end.

Definition oldest_rows (d : Db) (ids : list UUID) : list ListOldestRuleEvaluationsByEntityIDRow :=
  omap (λ id, (λ t, {| or_EntityInstanceID := id; or_OldestLastUpdated := t |}) <$>
    min_time (latest_times d id)) (remove_dups ids).

Lemma eligible_due d cutoff ids id :
  id ∈ ids → eligible (idToLastUpdate (oldest_rows d ids)) cutoff id = due d cutoff id.
Proof.
  intros Hid. unfold eligible, due, idToLastUpdate.
  rewrite (last_times (λ id, min_time (latest_times d id))).
  - destruct (decide _) as [_|Hn]; [done|]. rewrite lookup_empty.
    destruct (min_time (latest_times d id)) as [t|] eqn:Ht; [|done]. destruct Hn.
    apply list_elem_of_fmap.
    exists {| or_EntityInstanceID := id; or_OldestLastUpdated := t |}. split; [done|].
    apply list_elem_of_omap. exists id. split; [by apply elem_of_remove_dups|]. by rewrite Ht.
  - intros e He. apply list_elem_of_omap in He as (i & _ & He).
    destruct (min_time (latest_times d i)) as [t|] eqn:Ht; [|done]. by injection He as <-.
Qed.

(** ** One tick *)

Section tick.
Context `{UuidLib} `{RandomUuid} `{MessageJSON}.
Context (cfg : RecurrenceConfig).

Abbreviation table r := (w_db (r_server r)).

(** The rows a tick fetches, and those it reminds of. *)
Definition batch_rows (d : Db) (cursor : UUID) : list EntityRow :=
  take (Z.to_nat (BatchSize cfg)) (entity_rows d (ids_after d "repository" cursor)).
Definition due_rows (d : Db) (now : Z) (rows : list EntityRow) : list EntityRow :=
  filter (λ repo, Is_true (due d (now - MinElapsed cfg) repo.1)) rows.

(** The reminder of a repository, and those among the published messages. *)
Definition reminder_of (row : EntityRow) : RepoReconcilerEvent :=
  {| rr_Project := ei_ProjectID row.2; rr_Provider := ei_ProviderID row.2;
     rr_EntityID := row.1 |}.
Definition sent (l : list (string * message)) : list RepoReconcilerEvent :=
  omap (λ '(topic, msg),
    if String.eqb topic TopicQueueRepoReminder then
      match event_Unmarshal (msg_Payload msg) with inl evt => Some evt | inr _ => None end
    else None) l.

Definition with_faults (fs : list (option gerr)) (r : reminder) : reminder :=
  set_server (set_faults fs (r_server r)) r.

Lemma on_select_cases {A} (f : World → res A) r :
  (∃ e fs, on_store (select f) r = (with_faults fs r, Err e)) ∨
  (∃ fs, on_store (select f) r = (with_faults fs r, f (set_faults fs (r_server r)))).
Proof.
  unfold on_store, select, with_faults.
  destruct (query_cases (λ w, (w, f w)) (r_server r)) as [(e & fs & ->)|(fs & ->)]; eauto.
Qed.

Lemma on_select_ok {A} (f : World → res A) r :
  w_faults (r_server r) = [] → on_store (select f) r = (r, f (r_server r)).
Proof. intros Hw. unfold on_store. rewrite select_ok by done. by destruct r. Qed.

Lemma batch_ids d cursor :
  (batch_rows d cursor).*1 = take (Z.to_nat (BatchSize cfg)) (ids_after d "repository" cursor).
Proof.
  unfold batch_rows. rewrite fmap_take, entity_rows_ids; [done|].
  intros id (e & He & _)%ids_after_elem. by exists e.
Qed.

Lemma getEligible_Ok (repos : list EntityRow) r fs :
  on_store (ListOldestRuleEvaluationsByEntityID repos.*1) r
    = (with_faults fs r, Ok (oldest_rows (table r) repos.*1)) →
  getEligibleRepositories cfg repos r
    = (with_faults fs r, Ok (due_rows (table r) (w_now (r_server r)) repos)).
Proof.
  intros Hrun. unfold getEligibleRepositories. rewrite (prog_bind_run _ _ _ _ _ Hrun).
  unfold gets, mbind, prog_bind, mret, prog_ret. simpl. do 2 f_equal.
  apply list_filter_ext_in. intros row Hrow. rewrite eligible_due; [done|].
  apply list_elem_of_fmap. by exists row.
Qed.

Lemma getEligible_cases (repos : list EntityRow) r :
  ∃ fs, (∃ e, getEligibleRepositories cfg repos r = (with_faults fs r, Err e)) ∨
        getEligibleRepositories cfg repos r
          = (with_faults fs r, Ok (due_rows (table r) (w_now (r_server r)) repos)).
Proof.
  pose proof (on_select_cases (λ w, Ok (oldest_rows (w_db w) repos.*1)) r) as Hq.
  destruct Hq as [(e & fs & Hq)|(fs & Hq)]; exists fs; [left|right].
  - exists e. unfold getEligibleRepositories. by rewrite (prog_bind_run_Err _ _ _ _ _ Hq).
  - by apply getEligible_Ok.
Qed.

(** The cursor after a batch: its end, or the start when nothing is known to
    come after it. *)
Lemma updateRepositoryCursor_cases (repos : list EntityRow) r :
  ∃ fs c, updateRepositoryCursor repos r = (set_cursor c (with_faults fs r), Ok tt) ∧
    (c = uuid_Nil ∨ ∃ row, last repos = Some row ∧ c = row.1).
Proof.
  unfold updateRepositoryCursor. destruct (last repos) as [row|].
  - unfold adjustCursorForEndOfList. set (r1 := set_cursor row.1 r).
    assert (Hq : ∃ fs x, try (on_store (EntityExistsAfterID
        {| ea_EntityType := "repository"; ea_ID := row.1 |})) r1 = (with_faults fs r1, Ok x)).
    { unfold try, EntityExistsAfterID. cbn [ea_EntityType ea_ID].
      destruct (on_select_cases (λ w, Ok (exists_after (w_db w) "repository" row.1)) r1)
        as [(e & fs & Hq)|(fs & Hq)].
      - exists fs, (inr e). by rewrite Hq.
      - exists fs. eexists (inl _). by rewrite Hq. }
    destruct Hq as (fs & x & Hq). exists fs.
    change (modify (set_cursor row.1);; _) with (λ r0 : reminder,
      (cursor ← gets r_repositoryCursor; exists_ ← try (on_store (EntityExistsAfterID
        {| ea_EntityType := "repository"; ea_ID := cursor |}));
       match exists_ with inl true => mret tt | _ => modify (set_cursor uuid_Nil) end)
      (set_cursor row.1 r0)). cbv beta. fold r1.
    change (gets r_repositoryCursor ≫= ?f) with (λ r0 : reminder, f (r_repositoryCursor r0) r0).
    cbv beta. rewrite (prog_bind_run _ _ _ _ _ Hq).
    destruct x as [[]|e]; [exists row.1|exists uuid_Nil..]; (split; [done|]); eauto.
  - exists (w_faults (r_server r)), uuid_Nil. split; [|by left].
    unfold modify, with_faults, set_cursor, set_server, set_faults. simpl. by destruct (r_server r).
Qed.

Lemma getRepositoryBatch_cases r :
  let rows := batch_rows (table r) (r_repositoryCursor r) in
  ∃ fs, (∃ e, getRepositoryBatch cfg r = (with_faults fs r, Err e)) ∨
    (∃ c, getRepositoryBatch cfg r
       = (set_cursor c (with_faults fs r), Ok (due_rows (table r) (w_now (r_server r)) rows)) ∧
       (c = uuid_Nil ∨ ∃ row, last rows = Some row ∧ c = row.1)).
Proof.
  unfold getRepositoryBatch.
  change (gets r_repositoryCursor ≫= ?f) with (λ r0 : reminder, f (r_repositoryCursor r0) r0).
  cbv beta. unfold ListEntitiesAfterID. cbn [la_EntityType la_ID la_Limit].
  match goal with |- context [on_store (select ?f)] =>
    destruct (on_select_cases f r) as [(e & fs & Hq)|(fs & Hq)] end.
  { exists fs. left. exists e. by rewrite (prog_bind_run_Err _ _ _ _ _ Hq). }
  destruct (Z.ltb_spec (BatchSize cfg) 0).
  { exists fs. left. eexists. by rewrite (prog_bind_run_Err _ _ _ _ _ Hq). }
  rewrite (prog_bind_run _ _ _ _ _ Hq).
  fold (batch_rows (table r) (r_repositoryCursor r)).
  change (w_db (set_faults fs (r_server r))) with (table r).
  fold (batch_rows (table r) (r_repositoryCursor r)).
  set (rows := batch_rows (table r) (r_repositoryCursor r)).
  destruct (getEligible_cases rows (with_faults fs r)) as (fs2 & [(e & He)|He]).
  { exists fs2. left. exists e. by rewrite (prog_bind_run_Err _ _ _ _ _ He). }
  rewrite (prog_bind_run _ _ _ _ _ He).
  destruct (updateRepositoryCursor_cases rows (with_faults fs2 (with_faults fs r)))
    as (fs3 & c & Hu & Hc).
  exists fs3. right. exists c. split; [|done]. by rewrite (prog_bind_run _ _ _ _ _ Hu).
Qed.

Lemma createReminderMessages_run (repos : list EntityRow) w :
  ∃ ms n, createReminderMessages repos w = (set_fresh n w, Ok ms) ∧
    msg_Payload <$> ms = event_Marshal ∘ reminder_of <$> repos.
Proof.
  revert w. induction repos as [|repo repos IH]; intros w.
  { exists [], (w_fresh w). split; [by destruct w|done]. }
  destruct (IH (set_fresh (S (w_fresh w)) w)) as (ms & n & Hrun & Hms).
  set (m := {| msg_UUID := uuid_String (gen_random_uuid (w_fresh w)); msg_Metadata := ∅;
               msg_Payload := event_Marshal (reminder_of repo) |}).
  exists (m :: ms), n. split; [|by rewrite !fmap_cons, Hms]. simpl.
  rewrite (prog_bind_run _ _ w (set_fresh (S (w_fresh w)) w) m) by done.
  by rewrite (prog_bind_run _ _ _ _ _ Hrun).
Qed.

Definition publish_all (topic : string) (ms : list message) (w : World) : World :=
  {| w_db := w_db w; w_now := w_now w; w_fresh := w_fresh w; w_faults := w_faults w;
     w_published := w_published w ++ ((λ m, (topic, m)) <$> ms) |}.

Lemma foreach_Publish topic ms w :
  ∃ fs pre post r, foreach (Publish topic) ms w = (publish_all topic pre (set_faults fs w), r) ∧
    ms = (pre ++ post)%list ∧ (r = Ok tt ↔ post = []) ∧ (w_faults w = [] → post = [] ∧ fs = []).
Proof.
  revert w. induction ms as [|m ms IH]; intros w.
  { exists (w_faults w), [], [], (Ok tt). split_and!; [|done..]. simpl.
    unfold publish_all, mret, prog_ret. simpl. rewrite app_nil_r. by destruct w. }
  simpl. change (Publish topic m) with (query (λ w0, (add_published topic m w0, Ok tt))).
  destruct (query_cases (λ w0, (add_published topic m w0, Ok tt)) w) as [(e & fs & Hq)|(fs & Hq)].
  - exists fs, [], (m :: ms), (Err e). rewrite (prog_bind_run_Err _ _ _ _ _ Hq).
    split_and!; [|done|done|].
    + f_equal. unfold publish_all. simpl. by rewrite app_nil_r.
    + intros Hw. unfold query in Hq. rewrite Hw in Hq. discriminate.
  - rewrite (prog_bind_run _ _ _ _ _ Hq).
    destruct (IH (add_published topic m (set_faults fs w))) as (fs2 & pre & post & r & Hr & Hms & Hp & Hf).
    exists fs2, (m :: pre), post, r. split_and!; [|simpl; by f_equal|done|].
    + rewrite Hr. f_equal. unfold publish_all, add_published, set_faults. simpl.
      by rewrite <-app_assoc.
    + intros Hw. apply Hf. simpl. unfold query in Hq. rewrite Hw in Hq.
      injection Hq. intros. congruence.
Qed.

Lemma sent_messages (rows : list EntityRow) ms :
  msg_Payload <$> ms = event_Marshal ∘ reminder_of <$> rows →
  sent ((λ m, (TopicQueueRepoReminder, m)) <$> ms) = reminder_of <$> rows.
Proof.
  revert ms. induction rows as [|row rows IH]; intros [|m ms] Hms; try done.
  injection Hms as Hm Hms. simpl. rewrite Hm, reminder_event_roundtrip. simpl. f_equal. by apply IH.
Qed.

Lemma sent_app l1 l2 : sent (l1 ++ l2)%list = (sent l1 ++ sent l2)%list.
Proof. unfold sent. apply omap_app. Qed.

(** What a tick does, whatever fails: it may fail before it moved the cursor;
    else the cursor is at the end of the batch, or at the start, and of the
    repositories that are due, some first ones, and all of them if it reports
    success, have got their message. *)
Lemma sendReminders_cases r :
  ∃ r' res, sendReminders cfg r = (r', res) ∧ w_db (r_server r') = table r ∧
    ((r_repositoryCursor r' = r_repositoryCursor r ∧ is_ok res = false ∧
      w_published (r_server r') = w_published (r_server r)) ∨
     let rows := batch_rows (table r) (r_repositoryCursor r) in
     (r_repositoryCursor r' = uuid_Nil ∨
      ∃ row, last rows = Some row ∧ r_repositoryCursor r' = row.1) ∧
     ∃ new todo, w_published (r_server r') = (w_published (r_server r) ++ new)%list ∧
       reminder_of <$> due_rows (table r) (w_now (r_server r)) rows = (sent new ++ todo)%list ∧
       (res = Ok tt → todo = [])).
Proof.
  unfold sendReminders. destruct (getRepositoryBatch_cases r) as (fs & [(e & Hb)|(c & Hb & Hc)]).
  { rewrite (prog_bind_run_Err _ _ _ _ _ (wrapf_Err _ _ _ _ _ Hb)).
    do 2 eexists. split_and!; [done|done|]. by left. }
  rewrite (prog_bind_run _ _ _ _ _ (proj2 (wrapf_Ok _ _ _ _ _) Hb)).
  set (rows := due_rows _ _ _) in *. clearbody rows.
  destruct rows as [|row rest] eqn:Hrows.
  { do 2 eexists. split_and!; [done|done|]. right. split; [done|].
    exists [], []. rewrite app_nil_r. done. }
  rewrite <-Hrows.
  destruct (createReminderMessages_run rows (set_faults fs (r_server r))) as (ms & n & Hms & Hpay).
  assert (Hs : on_store (createReminderMessages rows) (set_cursor c (with_faults fs r))
    = (set_cursor c (set_server (set_fresh n (set_faults fs (r_server r))) r), Ok ms)).
  { unfold on_store. simpl (r_server _). by rewrite Hms. }
  replace (match rows with [] => mret tt | _ :: _ => _ end) with
    (messages ← wrapf "error creating reminder messages: " (on_store (createReminderMessages rows));
     wrapf "error publishing messages: "
       (on_store (foreach (Publish TopicQueueRepoReminder) messages))) by by rewrite Hrows.
  rewrite (prog_bind_run _ _ _ _ _ (proj2 (wrapf_Ok _ _ _ _ _) Hs)).
  destruct (foreach_Publish TopicQueueRepoReminder ms (set_fresh n (set_faults fs (r_server r))))
    as (fs2 & pre & post & res & Hrun & Hpp & Hres & _).
  unfold wrapf, on_store. simpl (r_server _). rewrite Hrun.
  do 2 eexists. split_and!; [done|done|]. right. split; [done|].
  rewrite Hpp, fmap_app in Hpay.
  destruct (fmap_app_inv _ _ _ _ (eq_sym Hpay)) as (rows1 & rows2 & Hr1 & Hr2 & Hsplit).
  eexists _, (reminder_of <$> rows2). split_and!; [done| |].
  - rewrite (sent_messages rows1) by done. by rewrite Hsplit, fmap_app.
  - destruct res as [[]|e|m]; try done. intros _. rewrite (proj1 Hres eq_refl) in Hr2.
    by destruct rows2.
Qed.

(** *** With a working connection *)

Lemma with_faults_nil r : w_faults (r_server r) = [] → with_faults [] r = r.
Proof.
  destruct r as [w ? ? ? ? ?], w. unfold with_faults, set_server, set_faults. simpl. by intros ->.
Qed.

Definition next_cursor (d : Db) (rows : list EntityRow) : UUID :=
  match last rows with
  | None => uuid_Nil
  | Some row => if exists_after d "repository" row.1 then row.1 else uuid_Nil
  end.

Lemma getRepositoryBatch_run r :
  w_faults (r_server r) = [] → (0 ≤ BatchSize cfg)%Z →
  let rows := batch_rows (table r) (r_repositoryCursor r) in
  getRepositoryBatch cfg r
    = (set_cursor (next_cursor (table r) rows) r, Ok (due_rows (table r) (w_now (r_server r)) rows)).
Proof.
  intros Hw Hb. unfold getRepositoryBatch.
  change (gets r_repositoryCursor ≫= ?f) with (λ r0 : reminder, f (r_repositoryCursor r0) r0).
  cbv beta zeta. unfold ListEntitiesAfterID. cbn [la_EntityType la_ID la_Limit].
  match goal with |- context [on_store (select ?f)] => pose proof (on_select_ok f r Hw) as Hl end.
  rewrite (proj2 (Z.ltb_ge _ _) Hb) in Hl |- *. rewrite (prog_bind_run _ _ _ _ _ Hl).
  fold (batch_rows (table r) (r_repositoryCursor r)).
  set (rows := batch_rows (table r) (r_repositoryCursor r)).
  pose proof (getEligible_Ok rows r []) as He. rewrite with_faults_nil in He by done.
  rewrite (prog_bind_run _ _ _ _ _ (He (on_select_ok _ _ Hw))).
  assert (Hu : updateRepositoryCursor rows r = (set_cursor (next_cursor (table r) rows) r, Ok tt)).
  { unfold updateRepositoryCursor, next_cursor. destruct (last rows) as [row|]; [|done].
    rewrite (prog_bind_run _ _ r (set_cursor row.1 r) tt) by done.
    unfold adjustCursorForEndOfList.
    rewrite (prog_bind_run _ _ _ (set_cursor row.1 r) row.1) by done.
    unfold EntityExistsAfterID. cbn [ea_EntityType ea_ID].
    rewrite (prog_bind_run _ _ _ (set_cursor row.1 r)
      (inl (exists_after (table r) "repository" row.1))) by by unfold try; rewrite on_select_ok.
    by destruct (exists_after _ _ _). }
  by rewrite (prog_bind_run _ _ _ _ _ Hu).
Qed.

Abbreviation all_ids r := (ids_after (table r) "repository" uuid_Nil).
Abbreviation pending r := (ids_after (table r) "repository" (r_repositoryCursor r)).

Lemma exists_after_ids d t c : exists_after d t c = negb (bool_decide (ids_after d t c = [])).
Proof.
  unfold exists_after. f_equal. apply bool_decide_ext. split; intros He.
  - apply elem_of_nil_inv. intros id (e & Hid & Ht & Hc)%ids_after_elem.
    assert (Hf : filter (λ p : UUID * EntityInstance, ei_EntityType p.2 = t ∧ (c < p.1)%N)
      (entity_instances d) !! id = Some e) by by apply map_lookup_filter_Some.
    rewrite He in Hf. by rewrite lookup_empty in Hf.
  - apply map_empty. intros id. apply eq_None_not_Some. intros [e Hid].
    apply map_lookup_filter_Some in Hid as (Hid & Ht & Hc).
    assert (Hin : id ∈ ids_after d t c) by (apply ids_after_elem; eauto).
    rewrite He in Hin. by apply not_elem_of_nil in Hin.
Qed.

(** The cursor stands for the rest of the ring. *)
Lemma next_cursor_ring d cursor :
  (0 < BatchSize cfg)%Z →
  ids_after d "repository" (next_cursor d (batch_rows d cursor))
  = ring_next (Z.to_nat (BatchSize cfg)) (ids_after d "repository" uuid_Nil)
      (ids_after d "repository" cursor).
Proof.
  intros Hb. set (k := Z.to_nat (BatchSize cfg)). assert (Hk : 0 < k) by lia.
  unfold next_cursor, ring_next. pose proof (batch_ids d cursor) as Hids. fold k in Hids.
  set (l := ids_after d "repository" cursor) in *.
  destruct (last (batch_rows d cursor)) as [row|] eqn:Hl.
  - apply last_Some in Hl as [pre Hl]. rewrite Hl, fmap_app in Hids. simpl in Hids.
    assert (Hsplit : l = (pre.*1 ++ row.1 :: drop k l)%list).
    { rewrite <-(take_drop k l) at 1. rewrite <-Hids, <-app_assoc. done. }
    pose proof (ids_after_rest _ _ _ _ _ _ Hsplit) as Hrest.
    rewrite exists_after_ids, Hrest. by destruct (drop k l).
  - apply last_None in Hl. rewrite Hl in Hids. simpl in Hids.
    destruct l as [|x l]; [by destruct k|]. destruct k; [lia|done].
Qed.

(** A tick takes the next ones of the ring and reminds of those that are due. *)
Lemma sendReminders_ring r :
  w_faults (r_server r) = [] → (0 < BatchSize cfg)%Z →
  ∃ r' new, sendReminders cfg r = (r', Ok tt) ∧ w_db (r_server r') = table r ∧
    w_faults (r_server r') = [] ∧
    w_published (r_server r') = (w_published (r_server r) ++ new)%list ∧
    sent new = reminder_of <$>
      due_rows (table r) (w_now (r_server r)) (batch_rows (table r) (r_repositoryCursor r)) ∧
    pending r' = ring_next (Z.to_nat (BatchSize cfg)) (all_ids r) (pending r).
Proof.
  intros Hw Hb. unfold sendReminders.
  pose proof (getRepositoryBatch_run r Hw ltac:(lia)) as Hrun. cbv zeta in Hrun.
  rewrite (prog_bind_run _ _ _ _ _ (proj2 (wrapf_Ok _ _ _ _ _) Hrun)).
  pose proof (next_cursor_ring (table r) (r_repositoryCursor r) Hb) as Hring.
  set (rows := batch_rows (table r) (r_repositoryCursor r)) in *.
  set (c := next_cursor (table r) rows) in *.
  set (dues := due_rows _ _ _).
  destruct (createReminderMessages_run dues (r_server r)) as (ms & n & Hms & Hpay).
  destruct (foreach_Publish TopicQueueRepoReminder ms (set_fresh n (r_server r)))
    as (fs & pre & post & res & Hpub & Hpp & Hres & Hf).
  destruct (Hf Hw) as [-> ->]. rewrite (proj2 Hres eq_refl) in Hpub. rewrite app_nil_r in Hpp.
  subst pre. clear Hf Hres.
  assert (Hs : on_store (createReminderMessages dues) (set_cursor c r)
    = (set_cursor c (set_server (set_fresh n (r_server r)) r), Ok ms)).
  { unfold on_store. simpl (r_server _). by rewrite Hms. }
  destruct dues as [|row dues'] eqn:Hd.
  { exists (set_cursor c r), []. split_and!; [done|done|done|by rewrite app_nil_r|done|done]. }
  rewrite (prog_bind_run _ _ _ _ _ (proj2 (wrapf_Ok _ _ _ _ _) Hs)).
  unfold wrapf, on_store. simpl (r_server _). rewrite Hpub.
  do 2 eexists. split_and!; [done|done|done|done| |done].
  by rewrite (sent_messages (row :: dues')).
Qed.
End tick.

(** ** Properties *)

Section properties.
Context `{UuidLib} `{RandomUuid} `{MessageJSON}.
Context (cfg : RecurrenceConfig).

Abbreviation table r := (w_db (r_server r)).
Abbreviation all_ids r := (ids_after (table r) "repository" uuid_Nil).
Abbreviation pending r := (ids_after (table r) "repository" (r_repositoryCursor r)).

(** The reminders the abstract service sends: at each tick, those of the batch
    that are due by then. *)
Definition ring_reminders (d : Db) (ticks : list Z) (batches : list (list UUID)) : list UUID :=
  concat (zip_with (λ now ids, filter (λ id, Is_true (due d (now - MinElapsed cfg) id)) ids)
            ticks batches).

(** A reminder tells the project and the provider of its entity. *)
Definition truthful (d : Db) (evt : RepoReconcilerEvent) : Prop :=
  ∃ e, entity_instances d !! rr_EntityID evt = Some e ∧ ei_EntityType e = "repository" ∧
       evt = reminder_of (rr_EntityID evt, e).

Lemma due_rows_ids d now rows :
  rr_EntityID <$> (reminder_of <$> due_rows cfg d now rows)
  = filter (λ id, Is_true (due d (now - MinElapsed cfg) id)) rows.*1.
Proof.
  unfold due_rows. induction rows as [|row rows IH]; [done|].
  rewrite fmap_cons, !filter_cons. simpl. case_decide; [|done]. rewrite !fmap_cons. f_equal. exact IH.
Qed.

Lemma due_rows_truthful d now cursor evt :
  evt ∈ reminder_of <$> due_rows cfg d now (batch_rows cfg d cursor) → truthful d evt.
Proof.
  intros ([id e] & -> & Hrow)%list_elem_of_fmap. apply list_elem_of_filter in Hrow as [_ Hrow].
  apply elem_of_take in Hrow as (i & Hrow & _). apply list_elem_of_lookup_2 in Hrow.
  apply entity_rows_elem in Hrow as [Hid He].
  apply ids_after_elem in Hid as (e' & He' & Ht & _). rewrite He in He'. injection He' as <-.
  by exists e.
Qed.

Lemma loop_ring ticks r :
  w_faults (r_server r) = [] → (0 < BatchSize cfg)%Z →
  ∃ r' new, loop cfg (Tick <$> ticks) r = (r', false, Running) ∧ table r' = table r ∧
    w_published (r_server r') = (w_published (r_server r) ++ new)%list ∧
    let '(batches, rest) :=
      ring_run (Z.to_nat (BatchSize cfg)) (all_ids r) (length ticks) (pending r) in
    pending r' = rest ∧ rr_EntityID <$> sent new = ring_reminders (table r) ticks batches ∧
    ∀ evt, evt ∈ sent new → truthful (table r) evt.
Proof.
  intros Hw Hb. revert r Hw. induction ticks as [|now ticks IH]; intros r Hw.
  { exists r, []. split_and!; [done|done|by rewrite app_nil_r|]. simpl.
    split_and!; [done|done|]. intros evt Hevt. by apply not_elem_of_nil in Hevt. }
  destruct (sendReminders_ring cfg (at_time now r)) as (r1 & new1 & Hs & Hd & Hw1 & Hp & Hsent & Hr);
    [done|done|].
  destruct (IH r1 Hw1) as (r2 & new2 & Hl & Hd2 & Hp2 & Hring).
  exists r2, (new1 ++ new2)%list. simpl. unfold on_tick. rewrite Hs. simpl.
  change (table (at_time now r)) with (table r) in *.
  change (r_repositoryCursor (at_time now r)) with (r_repositoryCursor r) in *.
  rewrite Hd in *.
  split_and!; [done|by rewrite Hd2|by rewrite Hp2, Hp, app_assoc|].
  rewrite Hr in Hring. simpl in Hp.
  destruct (ring_run _ _ (length ticks) _) as [batches rest].
  destruct Hring as (Hrest & Hids & Htrue). split_and!; [done| |].
  - rewrite sent_app, fmap_app, Hids, Hsent, due_rows_ids, batch_ids. done.
  - intros evt. rewrite sent_app. intros [Hevt|Hevt]%elem_of_app; [|by apply Htrue].
    rewrite Hsent in Hevt. by eapply due_rows_truthful.
Qed.

Lemma ring_reminders_sublist d ticks batches :
  ring_reminders d ticks batches `sublist_of` concat batches.
Proof.
  unfold ring_reminders. revert batches. induction ticks as [|now ticks IH]; intros [|b batches];
    simpl; try apply sublist_nil_l.
  apply sublist_app; [apply sublist_filter|apply IH].
Qed.

Lemma ring_reminders_NoDup d ticks batches :
  NoDup (concat batches) → NoDup (ring_reminders d ticks batches).
Proof. intros Hn. eapply sublist_NoDup; [done|apply ring_reminders_sublist]. Qed.

Lemma ring_reminders_all d ticks batches id :
  length batches = length ticks → id ∈ concat batches →
  (∀ now, now ∈ ticks → due d (now - MinElapsed cfg) id = true) →
  id ∈ ring_reminders d ticks batches.
Proof.
  unfold ring_reminders. revert batches. induction ticks as [|now ticks IH]; intros [|b batches] Hl;
    simpl; try done.
  intros [Hid|Hid]%elem_of_app Hdue; apply elem_of_app.
  - left. apply list_elem_of_filter. split; [|done]. rewrite Hdue; [done|by left].
  - right. apply IH; [by injection Hl|done|]. intros t Ht. apply Hdue. by right.
Qed.

Lemma ring_reminders_due d ticks batches id :
  id ∈ ring_reminders d ticks batches →
  ∃ now, now ∈ ticks ∧ due d (now - MinElapsed cfg) id = true.
Proof.
  unfold ring_reminders. revert batches. induction ticks as [|now ticks IH]; intros [|b batches];
    simpl; intros Hid; try by apply not_elem_of_nil in Hid.
  apply elem_of_app in Hid as [Hid|Hid].
  - apply list_elem_of_filter in Hid as [Hid _]. exists now. split; [by left|].
    by apply Is_true_true.
  - destruct (IH _ Hid) as (t & Ht & Hdue). exists t. split; [by right|done].
Qed.

Lemma batch_reached d cursor id e row :
  last (batch_rows cfg d cursor) = Some row → entity_instances d !! id = Some e →
  ei_EntityType e = "repository" → (cursor < id)%N → ¬ (row.1 < id)%N →
  (id, e) ∈ batch_rows cfg d cursor.
Proof.
  intros [pre Hl]%last_Some He Ht Hc Hge. pose proof (batch_ids cfg d cursor) as Hids.
  set (k := Z.to_nat (BatchSize cfg)) in *.
  assert (Hin : id ∈ ids_after d "repository" cursor) by (apply ids_after_elem; eauto).
  rewrite <-(take_drop k (ids_after d "repository" cursor)), <-Hids in Hin.
  apply elem_of_app in Hin as [Hin|Hin].
  - apply list_elem_of_fmap in Hin as ([id' e'] & -> & Hrow). simpl in *.
    assert (Hrow' : (id', e') ∈ entity_rows d (ids_after d "repository" cursor)).
    { unfold batch_rows in Hrow. apply elem_of_take in Hrow as (i & Hi & _).
      by eapply list_elem_of_lookup_2. }
    apply entity_rows_elem in Hrow' as [_ He']. rewrite He in He'. by injection He' as ->.
  - exfalso. pose proof (ids_after_sorted d "repository" cursor) as Hs.
    pose proof (ids_after_NoDup d "repository" cursor) as Hn.
    rewrite Hl, fmap_app in Hids. simpl in Hids.
    rewrite <-(take_drop k (ids_after d "repository" cursor)), <-Hids, <-app_assoc in Hs, Hn.
    destruct (sorted_middle _ _ _ Hs Hn) as [_ Hpost]. by apply Hge, Hpost.
Qed.

(** C19: the reminder refines a ring.  With a working connection a run of ticks
    sends what the abstract service sends, which goes round the repositories in
    the order of their ids, as many at each tick as the batch size says, and
    reminds of those whose oldest latest evaluation is older than the configured
    time; the cursor always stands for the repositories still to come. *)
Theorem reminder_refines_ring ticks r
    (Hw : w_faults (r_server r) = []) (Hb : (0 < BatchSize cfg)%Z) :
  ∃ r' new, loop cfg (Tick <$> ticks) r = (r', false, Running) ∧ table r' = table r ∧
    w_published (r_server r') = (w_published (r_server r) ++ new)%list ∧
    let '(batches, rest) :=
      ring_run (Z.to_nat (BatchSize cfg)) (all_ids r) (length ticks) (pending r) in
    pending r' = rest ∧ rr_EntityID <$> sent new = ring_reminders (table r) ticks batches ∧
    ∀ evt, evt ∈ sent new → truthful (table r) evt.
Proof. by apply loop_ring. Qed.

(** In a round every repository is considered exactly once.  From the start
    of the list, as many ticks as there are batches send no entity two
    reminders, one to each repository that is due all that time, none to one
    that is due at no tick, and the next round begins. *)
Theorem reminder_round ticks r
    (Hw : w_faults (r_server r) = []) (Hb : (0 < BatchSize cfg)%Z)
    (Hstart : r_repositoryCursor r = uuid_Nil) (Hsome : all_ids r ≠ [])
    (Hn : (Z.of_nat (length ticks - 1) * BatchSize cfg < Z.of_nat (length (all_ids r))
           ≤ Z.of_nat (length ticks) * BatchSize cfg)%Z) :
  ∃ r' new, loop cfg (Tick <$> ticks) r = (r', false, Running) ∧
    w_published (r_server r') = (w_published (r_server r) ++ new)%list ∧
    pending r' = all_ids r ∧ NoDup (rr_EntityID <$> sent new) ∧
    ∀ id, id ∈ all_ids r →
      ((∀ now, now ∈ ticks → due (table r) (now - MinElapsed cfg) id = true) →
         id ∈ rr_EntityID <$> sent new) ∧
      (id ∈ rr_EntityID <$> sent new →
         ∃ now, now ∈ ticks ∧ due (table r) (now - MinElapsed cfg) id = true).
Proof.
  destruct (loop_ring ticks r Hw Hb) as (r' & new & Hl & Hd & Hp & Hring).
  rewrite Hstart in Hring.
  destruct (ring_round (Z.to_nat (BatchSize cfg)) (all_ids r) (length ticks) (all_ids r))
    as [Hcat Hrest]; [lia|done|nia|].
  pose proof (ring_run_length (Z.to_nat (BatchSize cfg)) (all_ids r) (length ticks) (all_ids r))
    as Hlen.
  destruct (ring_run _ _ (length ticks) _) as [batches rest]. simpl in *. subst rest.
  destruct Hring as (Hrest & Hids & _). exists r', new. rewrite Hids. split_and!; try done.
  - apply (ring_reminders_NoDup (table r) ticks batches). rewrite Hcat. apply ids_after_NoDup.
  - intros id Hid. rewrite <-Hcat in Hid. split.
    + intros Hdue. by apply ring_reminders_all.
    + by apply ring_reminders_due.
Qed.

(** No repository is passed over.  Whatever fails in a tick, a repository
    the cursor has not reached is either still ahead of it, or was in the batch,
    and then, when the tick reports success and the repository is due, it got
    its reminder; and a tick that fails before the publication leaves the
    cursor where it was. *)
Theorem no_repository_passed_over r r' res id e
    (Hrun : sendReminders cfg r = (r', res))
    (He : entity_instances (table r) !! id = Some e) (Ht : ei_EntityType e = "repository")
    (Hc : (r_repositoryCursor r < id)%N) :
  table r' = table r ∧ ∃ new, w_published (r_server r') = (w_published (r_server r) ++ new)%list ∧
  ((r_repositoryCursor r' < id)%N ∨
   (res = Ok tt → due (table r) (w_now (r_server r) - MinElapsed cfg) id = true →
      reminder_of (id, e) ∈ sent new)).
Proof.
  destruct (sendReminders_cases cfg r) as (r1 & res1 & Hrun1 & Hd & Hcases).
  rewrite Hrun in Hrun1. injection Hrun1 as <- <-. split; [done|].
  destruct Hcases as [(Hcur & _ & Hp)|(Hcur & new & todo & Hp & Hsent & Htodo)].
  { exists []. rewrite app_nil_r. split; [done|]. left. by rewrite Hcur. }
  exists new. split; [done|].
  destruct Hcur as [Hcur|(row & Hlast & Hcur)]; [left; rewrite Hcur; unfold uuid_Nil; lia|].
  destruct (decide (row.1 < id)%N) as [Hlt|Hge]; [left; by rewrite Hcur|].
  right. intros Hok Hdue. rewrite (Htodo Hok), app_nil_r in Hsent. rewrite <-Hsent.
  apply list_elem_of_fmap. exists (id, e). split; [done|].
  apply list_elem_of_filter. simpl. rewrite Hdue. split; [done|].
  by eapply batch_reached.
Qed.

(** The configuration of an interval of zero is accepted, and hangs the
    service: [Start] means to return an error, but the [Stop] it deferred waits
    for a metrics server that was never started, for ever. *)
Theorem invalid_interval_blocks metrics events r
    (Hi : (Interval cfg <= 0)%Z) (Hstop : r_stop r = false)
    (Hdone : r_metricsServerDone r = Never) :
  (Interval cfg = 0%Z → (0 ≤ MinElapsed cfg)%Z → Validate cfg = Ok tt) ∧
  ∃ r', Start cfg metrics events r = (r', Blocks).
Proof.
  split.
  - intros Hz Hm. unfold Validate. rewrite Hz, (proj2 (Z.ltb_ge _ _) Hm). done.
  - unfold Start. rewrite Hstop, (proj2 (Z.leb_le _ _) Hi).
    unfold deferred_Stop, Stop, stop_once, received. rewrite Hstop. simpl. rewrite Hdone.
    by eexists.
Qed.

Lemma on_tick_state now r :
  r_stop (on_tick cfg now r) = r_stop r ∧
  r_publisherClosed (on_tick cfg now r) = r_publisherClosed r ∧
  r_metricsServerDone (on_tick cfg now r) = r_metricsServerDone r.
Proof.
  unfold on_tick, sendReminders.
  destruct (getRepositoryBatch_cases cfg (at_time now r)) as (fs & [(e & Hb)|(c & Hb & _)]).
  { by rewrite (prog_bind_run_Err _ _ _ _ _ (wrapf_Err _ _ _ _ _ Hb)). }
  rewrite (prog_bind_run _ _ _ _ _ (proj2 (wrapf_Ok _ _ _ _ _) Hb)).
  set (rows := due_rows _ _ _ _). destruct rows as [|row rows]; [done|].
  unfold wrapf, on_store, mbind, prog_bind. simpl.
  repeat (case_goal; simplify_eq/=; try done).
Qed.

(** With a valid interval the service stops when it is told to.  Whatever
    the ticks do, once the context is done or [Stop] is called, [Start] returns
    without an error, the publisher has been closed exactly once, and a second
    [Start] is refused. *)
Theorem start_stops recorder ticks last_event r
    (Hi : (0 < Interval cfg)%Z) (Hstop : r_stop r = false)
    (Hlast : last_event = CtxDone ∨ last_event = StopCalled)
    (Hrec : recorder = None ∨ recorder = Some (None, None)) :
  ∃ r', Start cfg recorder ((Tick <$> ticks) ++ [last_event]) r = (r', Returns (Ok tt)) ∧
    r_stop r' = true ∧ r_publisherClosed r' = S (r_publisherClosed r) ∧
    ∀ metrics events, ∃ err, Start cfg metrics events r' = (r', Returns (Err err)).
Proof.
  assert (Hloop : ∀ ticks r0, r_stop r0 = false → r_metricsServerDone r0 ≠ Never →
    ∃ r' c, loop cfg ((Tick <$> ticks) ++ [last_event]) r0 = (r', c, Returns (Ok tt)) ∧
      (r_stop r' = true ∧ r_publisherClosed r' = S (r_publisherClosed r0) ∨
       r_stop r' = false ∧ r_publisherClosed r' = r_publisherClosed r0) ∧
      r_metricsServerDone r' = r_metricsServerDone r0).
  { clear ticks. induction ticks as [|now ticks IH]; intros r0 Hs Hd; simpl.
    - destruct Hlast as [->| ->]; unfold received, stop_once; simpl; rewrite ?Hs; simpl.
      + exists r0, true. destruct (r_metricsServerDone r0); split_and!; auto; done.
      + destruct (r_metricsServerDone r0) eqn:Hdn; [|
          |done]; do 2 eexists; (split; [done|]); (split; [by left|]); done.
    - destruct (on_tick_state now r0) as (Hs1 & Hp1 & Hd1).
      destruct (IH (on_tick cfg now r0)) as (r' & c & Hl & Hp & Hdn); [congruence|congruence|].
      exists r', c. split; [exact Hl|]. rewrite Hdn, Hd1, <-Hp1. done. }
  assert (Hend : ∀ r0, r_stop r0 = false → r_metricsServerDone r0 ≠ Never →
    r_publisherClosed r0 = r_publisherClosed r →
    ∃ r', (let '(r1, c, o) := loop cfg ((Tick <$> ticks) ++ [last_event]) r0 in
           deferred_Stop c r1 o) = (r', Returns (Ok tt)) ∧
      r_stop r' = true ∧ r_publisherClosed r' = S (r_publisherClosed r) ∧
      ∀ metrics events, ∃ err, Start cfg metrics events r' = (r', Returns (Err err))).
  { intros r0 Hs Hd Hp. destruct (Hloop ticks r0 Hs Hd) as (r' & c & -> & Hcase & Hdn).
    exists (stop_once r').
    assert (Hs' : r_stop (stop_once r') = true) by by unfold stop_once; destruct (r_stop r') eqn:?.
    assert (Hrec' : received c (stop_once r') = true).
    { unfold received. replace (r_metricsServerDone (stop_once r')) with (r_metricsServerDone r0)
        by by unfold stop_once; destruct (r_stop r').
      rewrite Hs'. destruct (r_metricsServerDone r0); [done|apply orb_true_r|done]. }
    split_and!; [unfold deferred_Stop, Stop; by rewrite Hrec'|done| |].
    - unfold stop_once. destruct Hcase as [[-> Hc]|[-> Hc]]; simpl; congruence.
    - intros metrics events. unfold Start. rewrite Hs'. by eexists. }
  destruct Hrec as [->| ->];
    [destruct (Hend (set_ticker (set_done Closed r)) Hstop ltac:(done) eq_refl) as (r' & Hl & Hr)
    |destruct (Hend (set_ticker (set_done WhenStopped r)) Hstop ltac:(done) eq_refl)
       as (r' & Hl & Hr)];
    (exists r'; split; [|exact Hr]; unfold Start;
     rewrite Hstop, (proj2 (Z.leb_gt _ _) Hi); exact Hl).
Qed.

(** A reminder makes the server refresh its repository.  The processor
    turns the message of a reminder into one for the reconciler, and the
    reconciler asks for the entity of that id to be refreshed and evaluated. *)
Theorem reminder_delivered d evt msg w
    (Hevt : truthful d evt) (Hid : rr_EntityID evt ≠ uuid_Nil)
    (Hmsg : msg_Payload msg = event_Marshal evt) (Hw : w_faults w = []) :
  ∃ w1 m1 w2 m2,
    reminderMessageHandler msg w = (w1, Ok tt) ∧
    w_published w1 = (w_published w ++ [(TopicQueueReconcileRepoInit, m1)])%list ∧
    handleRepoReconcilerEvent m1 w1 = (w2, Ok tt) ∧
    w_published w2 = (w_published w1 ++ [(TopicQueueRefreshEntityByIDAndEvaluate, m2)])%list ∧
    ToEntityRefreshAndDo m2 = Ok (WithEntityID (rr_EntityID evt) NewEntityRefreshAndDoMessage).
Proof.
  set (do := WithEntityID (rr_EntityID evt) NewEntityRefreshAndDoMessage).
  destruct (do_json_roundtrip do) as (s & Hs & Hback).
  { split_and!; [done|done|done|by apply ascii_valid..]. }
  unfold reminderMessageHandler, EntityReminderEventFromMessage. rewrite Hmsg, reminder_event_roundtrip.
  set (m1 := {| msg_UUID := uuid_String (gen_random_uuid (w_fresh w)); msg_Metadata := ∅;
                msg_Payload := event_Marshal evt |}).
  set (w1 := add_published TopicQueueReconcileRepoInit m1 (set_fresh (S (w_fresh w)) w)).
  set (m2 := {| msg_UUID := uuid_String (gen_random_uuid (S (w_fresh w))); msg_Metadata := ∅;
                msg_Payload := s |}).
  exists w1, m1.
  exists (add_published TopicQueueRefreshEntityByIDAndEvaluate m2 (set_fresh (S (S (w_fresh w))) w1)).
  exists m2. split_and!; try done.
  - unfold w1, wrapf, lift, NewRepoReconcilerMessage, NewMessage, try, Publish, mbind, prog_bind.
    simpl. replace (event_Marshal {| rr_Project := rr_Project evt; rr_Provider := rr_Provider evt;
      rr_EntityID := rr_EntityID evt |}) with (event_Marshal evt) by by destruct evt.
    rewrite query_ok by done. done.
  - unfold handleRepoReconcilerEvent. simpl (msg_Payload m1). rewrite reminder_event_roundtrip.
    unfold handleRepositoryReconcilerEvent, NewMessage, mbind, prog_bind, do_ToMessage.
    fold do. rewrite Hs. rewrite (proj2 (N.eqb_neq _ _) Hid).
    unfold wrapf, Publish. rewrite query_ok by done. done.
  - unfold ToEntityRefreshAndDo. simpl. by rewrite Hback.
Qed.
End properties.

(** ** Small instances, for the witnesses: two repositories, one of them with an
    old evaluation *)

Definition ex_repo (name : string) : EntityInstance :=
  {| ei_EntityType := "repository"; ei_Name := name; ei_ProjectID := 2%N; ei_ProviderID := 1%N;
     ei_OriginatedFrom := None |}.

Definition ex_reminder_db : Db :=
  set_history
    {| h_entities := {[50%N := {| ere_RuleID := 20%N; ere_EntityType := "repository";
                                  ere_EntityInstanceID := 7%N |}]};
       h_statuses := {[60%N := {| es_RuleEntityID := 50%N; es_Status := "success";
                                  es_Details := ""; es_EvaluationTime := 100;
                                  es_Checkpoint := "{}" |}]};
       h_latest := {[50%N := {| la_EvaluationHistoryID := 60%N; la_ProfileID := 40%N |}]};
       h_outputs := ∅; h_remediations := []; h_alerts := [] |}
    (set_entities {[7%N := ex_repo "acme/app"; 9%N := ex_repo "acme/lib"]} ex_db).

Definition ex_recurrence (interval : Z) : RecurrenceConfig :=
  {| Interval := interval; BatchSize := 1; MinElapsed := 50 |}.

Definition ex_reminder (done : Closing) (cursor : UUID) : reminder :=
  {| r_server := ex_world ex_reminder_db []; r_repositoryCursor := cursor; r_stop := false;
     r_ticker := false; r_publisherClosed := 0; r_metricsServerDone := done |}.

Lemma ex_all_ids : ids_after ex_reminder_db "repository" 0 = [7%N; 9%N].
Proof. by vm_compute. Qed.

Lemma ex_due : due ex_reminder_db (200 - 50) 7 = true ∧ due ex_reminder_db (300 - 50) 7 = true ∧
  due ex_reminder_db (200 - 50) 9 = false ∧ due ex_reminder_db (300 - 50) 9 = false.
Proof. by vm_compute. Qed.

(** Two ticks go round the two repositories and remind of the first one. *)
Lemma reminder_round_witness :
  ∃ r' new, @loop decimal_uuid counter_uuid ex_structpb ex_message_json (ex_recurrence 3600)
      [Tick 200; Tick 300] (ex_reminder Closed 0) = (r', false, Running) ∧
    7%N ∈ rr_EntityID <$> @sent ex_structpb ex_message_json new.
Proof.
  destruct (@reminder_round decimal_uuid counter_uuid ex_structpb ex_message_json
    (ex_recurrence 3600) [200; 300]%Z (ex_reminder Closed 0) eq_refl ltac:(done) eq_refl)
    as (r' & new & Hl & _ & _ & _ & Hids).
  - change (ids_after ex_reminder_db "repository" 0 ≠ []). by rewrite ex_all_ids.
  - change (ids_after (w_db (r_server (ex_reminder Closed 0))) "repository" uuid_Nil)
      with (ids_after ex_reminder_db "repository" 0).
    rewrite ex_all_ids. simpl. lia.
  - exists r', new. split; [exact Hl|]. apply (proj1 (Hids 7%N ltac:(
      change (7%N ∈ ids_after ex_reminder_db "repository" 0); rewrite ex_all_ids; by left))).
    intros now Hnow. destruct ex_due as (H1 & H2 & _). list_cases Hnow; [exact H1|exact H2].
Defined.

(** A tick from anywhere leaves the ring where the abstract service is. *)
Lemma reminder_refines_ring_witness :
  ∃ r' new, @loop decimal_uuid counter_uuid ex_structpb ex_message_json (ex_recurrence 3600)
      [Tick 200] (ex_reminder Closed 8) = (r', false, Running) ∧
    ids_after ex_reminder_db "repository" (r_repositoryCursor r') = [7%N; 9%N] ∧
    rr_EntityID <$> @sent ex_structpb ex_message_json new = [].
Proof.
  destruct (@reminder_refines_ring decimal_uuid counter_uuid ex_structpb ex_message_json
    (ex_recurrence 3600) [200]%Z (ex_reminder Closed 8) eq_refl ltac:(done))
    as (r' & new & Hl & Hd & _ & Hr & Hs & _).
  exists r', new. split; [exact Hl|]. rewrite Hd in Hr. simpl in Hr, Hs.
  change (w_db (r_server (ex_reminder Closed 8))) with ex_reminder_db in *.
  split; [rewrite Hr; by vm_compute|rewrite Hs; by vm_compute].
Defined.

Lemma ex_tick_fails :
  ∃ r', @sendReminders decimal_uuid counter_uuid ex_structpb ex_message_json (ex_recurrence 3600)
    (with_faults [Some ErrNoRows] (ex_reminder Closed 0)) = (r', Err
      (EWrap "error fetching repository batch: " ErrNoRows "")).
Proof. eexists. by vm_compute. Qed.

(** When the connection is down the first repository stays ahead of the cursor. *)
Lemma no_repository_passed_over_witness :
  ∃ r' res, @sendReminders decimal_uuid counter_uuid ex_structpb ex_message_json
      (ex_recurrence 3600) (with_faults [Some ErrNoRows] (ex_reminder Closed 0)) = (r', res) ∧
    w_db (r_server r') = ex_reminder_db.
Proof.
  destruct ex_tick_fails as (r' & Hrun). eexists r', _. split; [exact Hrun|].
  exact (proj1 (@no_repository_passed_over decimal_uuid counter_uuid ex_structpb ex_message_json
    (ex_recurrence 3600) _ _ _ 7%N (ex_repo "acme/app") Hrun eq_refl eq_refl eq_refl)).
Defined.

Lemma invalid_interval_blocks_witness :
  Validate (ex_recurrence 0) = Ok tt ∧
  ∃ r', @Start decimal_uuid counter_uuid ex_structpb ex_message_json (ex_recurrence 0) None
    [Tick 200; CtxDone] (ex_reminder Never 0) = (r', Blocks).
Proof.
  destruct (@invalid_interval_blocks decimal_uuid counter_uuid ex_structpb ex_message_json
    (ex_recurrence 0) None [Tick 200; CtxDone] (ex_reminder Never 0) ltac:(done) eq_refl eq_refl)
    as [Hv Hb].
  split; [by apply Hv|exact Hb].
Defined.

Lemma start_stops_witness :
  ∃ r', @Start decimal_uuid counter_uuid ex_structpb ex_message_json (ex_recurrence 3600) None
    [Tick 200; StopCalled] (ex_reminder Never 0) = (r', Returns (Ok tt)) ∧
    r_publisherClosed r' = 1.
Proof.
  destruct (@start_stops decimal_uuid counter_uuid ex_structpb ex_message_json
    (ex_recurrence 3600) None [200]%Z StopCalled (ex_reminder Never 0) ltac:(done) eq_refl
    (or_intror eq_refl) (or_introl eq_refl)) as (r' & Hs & _ & Hp & _).
  exists r'. split; [exact Hs|exact Hp].
Defined.

Definition ex_reminder_event : RepoReconcilerEvent :=
  {| rr_Project := 2%N; rr_Provider := 1%N; rr_EntityID := 7%N |}.

Lemma reminder_delivered_witness :
  ∃ m1 w1, @reminderMessageHandler decimal_uuid counter_uuid ex_structpb ex_message_json
      {| msg_UUID := ""; msg_Metadata := ∅;
         msg_Payload := @event_Marshal ex_structpb ex_message_json ex_reminder_event |}
      (ex_world ex_reminder_db []) = (w1, Ok tt) ∧
    w_published w1 = [(TopicQueueReconcileRepoInit, m1)].
Proof.
  destruct (@reminder_delivered decimal_uuid counter_uuid ex_structpb ex_message_json
    ex_reminder_db ex_reminder_event
    {| msg_UUID := ""; msg_Metadata := ∅;
       msg_Payload := @event_Marshal ex_structpb ex_message_json ex_reminder_event |}
    (ex_world ex_reminder_db [])) as (w1 & m1 & _ & _ & Hrun & Hp & _).
  - exists (ex_repo "acme/app"). split; [reflexivity|]. split; reflexivity.
  - done.
  - reflexivity.
  - reflexivity.
  - exists m1, w1. split; [exact Hrun|exact Hp].
Defined.
