(* ===== verification/HistoryFilter.v ===== *)
(** * Listing evaluations: cursors and filters

    internal/history/models.go, internal/labels/labels.go and the cursor and
    option helpers of internal/controlplane/handlers_evalstatus.go. *)

From S2P Require Import Prelude GoErrors GoMonad GoStrings GoBase64 Uuid DbTypes.
From Stdlib Require Import Ascii.
Local Open Scope string_scope.

Definition ErrMalformedCursor : gerr := ENew "history.ErrMalformedCursor" "malformed cursor".
Definition ErrInvalidProjectID : gerr :=
  ENew "history.ErrInvalidProjectID" "invalid project id".
Definition ErrInvalidTimeRange : gerr :=
  ENew "history.ErrInvalidTimeRange" "invalid time range".
Definition ErrInclusionExclusion : gerr :=
  ENew "history.ErrInclusionExclusion" "inclusion and exclusion filter specified".
Definition ErrInvalidIdentifier : gerr :=
  ENew "history.ErrInvalidIdentifier" "invalid identifier".

(** ** Cursors *)

(** [Direction]: a string type with two named values. *)
Abbreviation Direction := string.
Definition Next : Direction := "next".
Definition Prev : Direction := "prev".

Record ListEvaluationCursor := { cur_Time : Time.t; cur_Direction : Direction }.

Definition DefaultCursor : ListEvaluationCursor :=
  {| cur_Time := Time.UnixMicro_of 999999999999999999; cur_Direction := Next |}.

Definition ParseListEvaluationCursor (payload : string) : res ListEvaluationCursor :=
  match Base64.DecodeString payload with
  | None => Err (EWrap "" ErrMalformedCursor ": illegal base64 data")
  | Some "" => Ok DefaultCursor
  | Some decoded =>
      let '(usecsStr, direction) :=
        if Strings.HasPrefix decoded "+" then (Strings.drop 1 decoded, Next)
        else if Strings.HasPrefix decoded "-" then (Strings.drop 1 decoded, Prev)
        else (decoded, Next) in
      match Strconv.ParseInt usecsStr with
      | None => Err (EWrap "" ErrMalformedCursor ": invalid integer")
      | Some usecs => Ok {| cur_Time := Time.UnixMicro_of usecs; cur_Direction := direction |}
      end
  end.

(** The cursors [ListEvaluationHistory] gives with a page, and their wire form
    [makeCursor]. *)
Definition next_cursor (oldest : Time.t) : string :=
  "+" +:+ Strconv.FormatInt (Time.UnixMicro oldest).
Definition prev_cursor (newest : Time.t) : string :=
  "-" +:+ Strconv.FormatInt (Time.UnixMicro newest).
Definition makeCursor (cursor : string) : string := Base64.EncodeToString cursor.

(** ** Labels *)

Definition ParseLabel (label : string) : string * string :=
  if Strings.HasPrefix label "!" then ("", Strings.TrimPrefix label "!") else (label, "").

(** ** The filter *)

(** What is included in and excluded from one field. *)
Record inclusion := { included : list string; excluded : list string }.

Definition no_inclusion : inclusion := {| included := []; excluded := [] |}.

Record listEvaluationFilter := {
  f_projectID : UUID;
  f_entityTypes : inclusion;
  f_entityNames : inclusion;
  f_profileNames : inclusion;
  f_labels : inclusion;
  f_statuses : inclusion;
  f_remediations : inclusion;
  f_alerts : inclusion;
  f_from : option Time.t;
  f_to : option Time.t;
}.

Definition empty_filter : listEvaluationFilter :=
  {| f_projectID := uuid_Nil; f_entityTypes := no_inclusion; f_entityNames := no_inclusion;
     f_profileNames := no_inclusion; f_labels := no_inclusion; f_statuses := no_inclusion;
     f_remediations := no_inclusion; f_alerts := no_inclusion; f_from := None; f_to := None |}.

Definition allowedEntityTypes : list string :=
  ["repository"; "build_environment"; "artifact"; "pull_request"].
Definition allowedEvaluationStatuses : list string :=
  [EvalStatusSuccess; EvalStatusFailure; EvalStatusError; EvalStatusSkipped; EvalStatusPending].
Definition allowedRemediationStatuses : list string :=
  [RemediationStatusSuccess; RemediationStatusFailure; RemediationStatusError;
   RemediationStatusSkipped; RemediationStatusNotAvailable; RemediationStatusPending].
Definition allowedAlertStatuses : list string :=
  [AlertStatusOn; AlertStatusOff; AlertStatusError; AlertStatusSkipped;
   AlertStatusNotAvailable].

(** [strings.Split(value, "!")[1]], which exists after the prefix check. *)
Definition exclusion_of (value : string) : res string :=
  match nth_error (Strings.Split value "!"%char) 1 with
  | Some v => Ok v
  | None => Panic "index out of range"
  end.

(** The body the [Add...] methods share: append to one of the lists, check the
    value against the allowed ones if the field has any, refuse both kinds at
    once. *)
Definition add_value (allowed : option (list string)) (what value : string)
    (i : inclusion) : res inclusion :=
  '(value, i) ←
    (if Strings.HasPrefix value "!" then
       v ← exclusion_of value;
       Ok (v, {| included := included i; excluded := (excluded i ++ [v])%list |})
     else Ok (value, {| included := (included i ++ [value])%list; excluded := excluded i |}));
  if match allowed with
     | Some l => negb (bool_decide (value ∈ l))
     | None => false
     end
  then Err (EWrap "" ErrInvalidIdentifier (": " +:+ what))
  else if bool_decide (included i ≠ []) && bool_decide (excluded i ≠ [])
  then Err (EWrap "" ErrInclusionExclusion (": " +:+ what))
  else Ok i.

Definition AddProjectID (projectID : UUID) (f : listEvaluationFilter)
    : res listEvaluationFilter :=
  if bool_decide (projectID = uuid_Nil)
  then Err (EWrap "" ErrInvalidIdentifier ": project id")
  else Ok {| f_projectID := projectID; f_entityTypes := f_entityTypes f;
             f_entityNames := f_entityNames f; f_profileNames := f_profileNames f;
             f_labels := f_labels f; f_statuses := f_statuses f;
             f_remediations := f_remediations f; f_alerts := f_alerts f;
             f_from := f_from f; f_to := f_to f |}.

Definition AddEntityType (entityType : string) (f : listEvaluationFilter)
    : res listEvaluationFilter :=
  i ← add_value (Some allowedEntityTypes) "entity type" entityType (f_entityTypes f);
  Ok {| f_projectID := f_projectID f; f_entityTypes := i;
        f_entityNames := f_entityNames f; f_profileNames := f_profileNames f;
        f_labels := f_labels f; f_statuses := f_statuses f;
        f_remediations := f_remediations f; f_alerts := f_alerts f;
        f_from := f_from f; f_to := f_to f |}.

Definition AddEntityName (entityName : string) (f : listEvaluationFilter)
    : res listEvaluationFilter :=
  i ← add_value None "entity name" entityName (f_entityNames f);
  Ok {| f_projectID := f_projectID f; f_entityTypes := f_entityTypes f;
        f_entityNames := i; f_profileNames := f_profileNames f;
        f_labels := f_labels f; f_statuses := f_statuses f;
        f_remediations := f_remediations f; f_alerts := f_alerts f;
        f_from := f_from f; f_to := f_to f |}.

Definition AddProfileName (profileName : string) (f : listEvaluationFilter)
    : res listEvaluationFilter :=
  i ← add_value None "profile name" profileName (f_profileNames f);
  Ok {| f_projectID := f_projectID f; f_entityTypes := f_entityTypes f;
        f_entityNames := f_entityNames f; f_profileNames := i;
        f_labels := f_labels f; f_statuses := f_statuses f;
        f_remediations := f_remediations f; f_alerts := f_alerts f;
        f_from := f_from f; f_to := f_to f |}.

(** Labels may be included and excluded at once. *)
Definition AddLabel (label : string) (f : listEvaluationFilter) : res listEvaluationFilter :=
  let '(inc, exc) := ParseLabel label in
  let l := f_labels f in
  let i := {| included := if String.eqb inc "" then included l else (included l ++ [inc])%list;
              excluded := if String.eqb exc "" then excluded l else (excluded l ++ [exc])%list |} in
  Ok {| f_projectID := f_projectID f; f_entityTypes := f_entityTypes f;
        f_entityNames := f_entityNames f; f_profileNames := f_profileNames f;
        f_labels := i; f_statuses := f_statuses f;
        f_remediations := f_remediations f; f_alerts := f_alerts f;
        f_from := f_from f; f_to := f_to f |}.

Definition IncludedLabels (f : listEvaluationFilter) : list string :=
  if bool_decide ("*" ∈ included (f_labels f)) then ["*"] else included (f_labels f).

Definition AddStatus (status : string) (f : listEvaluationFilter) : res listEvaluationFilter :=
  i ← add_value (Some allowedEvaluationStatuses) "status" status (f_statuses f);
  Ok {| f_projectID := f_projectID f; f_entityTypes := f_entityTypes f;
        f_entityNames := f_entityNames f; f_profileNames := f_profileNames f;
        f_labels := f_labels f; f_statuses := i;
        f_remediations := f_remediations f; f_alerts := f_alerts f;
        f_from := f_from f; f_to := f_to f |}.

Definition AddRemediation (remediation : string) (f : listEvaluationFilter)
    : res listEvaluationFilter :=
  i ← add_value (Some allowedRemediationStatuses) "remediation" remediation (f_remediations f);
  Ok {| f_projectID := f_projectID f; f_entityTypes := f_entityTypes f;
        f_entityNames := f_entityNames f; f_profileNames := f_profileNames f;
        f_labels := f_labels f; f_statuses := f_statuses f;
        f_remediations := i; f_alerts := f_alerts f;
        f_from := f_from f; f_to := f_to f |}.

Definition AddAlert (alert : string) (f : listEvaluationFilter) : res listEvaluationFilter :=
  i ← add_value (Some allowedAlertStatuses) "alert" alert (f_alerts f);
  Ok {| f_projectID := f_projectID f; f_entityTypes := f_entityTypes f;
        f_entityNames := f_entityNames f; f_profileNames := f_profileNames f;
        f_labels := f_labels f; f_statuses := f_statuses f;
        f_remediations := f_remediations f; f_alerts := i;
        f_from := f_from f; f_to := f_to f |}.

Definition SetFrom (t : Time.t) (f : listEvaluationFilter) : res listEvaluationFilter :=
  Ok {| f_projectID := f_projectID f; f_entityTypes := f_entityTypes f;
        f_entityNames := f_entityNames f; f_profileNames := f_profileNames f;
        f_labels := f_labels f; f_statuses := f_statuses f;
        f_remediations := f_remediations f; f_alerts := f_alerts f;
        f_from := Some t; f_to := f_to f |}.

Definition SetTo (t : Time.t) (f : listEvaluationFilter) : res listEvaluationFilter :=
  Ok {| f_projectID := f_projectID f; f_entityTypes := f_entityTypes f;
        f_entityNames := f_entityNames f; f_profileNames := f_profileNames f;
        f_labels := f_labels f; f_statuses := f_statuses f;
        f_remediations := f_remediations f; f_alerts := f_alerts f;
        f_from := f_from f; f_to := Some t |}.

(** ** Options

    A [Filter] is any value; an option asks it for the interface it needs. *)
Inductive Filter := FEvaluation (f : listEvaluationFilter) | FOther.

Definition FilterOpt : Type := Filter → res Filter.

Definition on_filter (add : listEvaluationFilter → res listEvaluationFilter) : FilterOpt :=
  λ filter, match filter with
            | FEvaluation f => FEvaluation <$> add f
            | FOther => Err (EWrap "" ErrInvalidIdentifier ": wrong filter type")
            end.

(** The guard of the string options. *)
Definition string_opt (what : string) (bang : bool)
    (add : string → listEvaluationFilter → res listEvaluationFilter) (value : string)
    : FilterOpt :=
  λ filter,
    if String.eqb value "" || (bang && String.eqb value "!")
    then Err (EWrap "" ErrInvalidIdentifier (": " +:+ what))
    else on_filter (add value) filter.

Definition WithProjectID (projectID : UUID) : FilterOpt := on_filter (AddProjectID projectID).

Definition WithProjectIDStr `{UuidLib} (projectID : string) : FilterOpt := λ filter,
  match uuid_Parse projectID with
  | Ok id => on_filter (AddProjectID id) filter
  | _ => Err (EWrap "" ErrInvalidIdentifier ": project id")
  end.

Definition WithEntityType := string_opt "entity type" true AddEntityType.
Definition WithEntityName := string_opt "entity name" true AddEntityName.
Definition WithProfileName := string_opt "profile name" true AddProfileName.
Definition WithLabel := string_opt "label" false AddLabel.
Definition WithStatus := string_opt "status" true AddStatus.
Definition WithRemediation := string_opt "remediation" true AddRemediation.
Definition WithAlert := string_opt "alert" true AddAlert.
Definition WithFrom (t : Time.t) : FilterOpt := on_filter (SetFrom t).
Definition WithTo (t : Time.t) : FilterOpt := on_filter (SetTo t).

Fixpoint apply_opts (opts : list FilterOpt) (filter : Filter) : res Filter :=
  match opts with
  | [] => Ok filter
  | opt :: opts => filter ← opt filter; apply_opts opts filter
  end.

Definition NewListEvaluationFilter (opts : list FilterOpt) : res listEvaluationFilter :=
  filter ← apply_opts opts (FEvaluation empty_filter);
  match filter with
  | FOther => Panic "unreachable"
  | FEvaluation f =>
      if bool_decide (f_projectID f = uuid_Nil)
      then Err (EWrap "" ErrInvalidProjectID ": missing")
      else if match f_from f, f_to f with
              | Some from, Some to => Time.After from to
              | _, _ => false
              end
      then Err (EWrap "" ErrInvalidTimeRange ": from is greated than to")
      else Ok f
  end.

(** A list of values, each of which may hold several separated by commas. *)
Definition FilterOptsFromStrings (values : list string) (f : string → FilterOpt)
    : list FilterOpt :=
  values ≫= λ val, f <$> Strings.Split val ","%char.


(** ** Lemmas *)

Lemma FormatInt_signed_drop c z : Strings.drop 1 (String c (Strconv.FormatInt z)) = Strconv.FormatInt z.
Proof. by destruct (Strconv.FormatInt z). Qed.

Lemma parse_encoded (s : string) :
  s ≠ "" →
  ParseListEvaluationCursor (Base64.EncodeToString s) =
    (let '(usecsStr, direction) :=
       if Strings.HasPrefix s "+" then (Strings.drop 1 s, Next)
       else if Strings.HasPrefix s "-" then (Strings.drop 1 s, Prev)
       else (s, Next) in
     match Strconv.ParseInt usecsStr with
     | None => Err (EWrap "" ErrMalformedCursor ": invalid integer")
     | Some usecs => Ok {| cur_Time := Time.UnixMicro_of usecs; cur_Direction := direction |}
     end).
Proof.
  intros Hs. unfold ParseListEvaluationCursor.
  rewrite Base64.DecodeString_EncodeToString. by destruct s.
Qed.

Lemma parse_next_cursor t :
  (1000 | t)%Z → Strconv.is_int64 (t / 1000) →
  ParseListEvaluationCursor (makeCursor (next_cursor t))
    = Ok {| cur_Time := t; cur_Direction := Next |}.
Proof.
  intros Hus Hrange. unfold makeCursor, next_cursor. rewrite parse_encoded by done.
  change ("+" +:+ ?x) with (String "+" x). rewrite Strings.HasPrefix_cons.
  rewrite FormatInt_signed_drop, Strconv.ParseInt_FormatInt
    by (unfold Time.UnixMicro; by rewrite Time.wrap_int64_id).
  by rewrite Time.UnixMicro_of_UnixMicro.
Qed.

Lemma parse_prev_cursor t :
  (1000 | t)%Z → Strconv.is_int64 (t / 1000) →
  ParseListEvaluationCursor (makeCursor (prev_cursor t))
    = Ok {| cur_Time := t; cur_Direction := Prev |}.
Proof.
  intros Hus Hrange. unfold makeCursor, prev_cursor. rewrite parse_encoded by done.
  change ("-" +:+ ?x) with (String "-" x). rewrite Strings.HasPrefix_cons.
  simpl (Strings.HasPrefix _ "+"). rewrite FormatInt_signed_drop, Strconv.ParseInt_FormatInt
    by (unfold Time.UnixMicro; by rewrite Time.wrap_int64_id).
  by rewrite Time.UnixMicro_of_UnixMicro.
Qed.

(** C39: the cursors a page of the listing carries are read back as what they
    say: the time of the oldest (newest) entry with direction next (prev),
    provided the time is a whole number of microseconds whose count fits an
    int64, as the database's timestamps are; no payload is the default cursor,
    and a payload that is refused is refused as a malformed cursor, never with
    a panic. *)
Theorem cursor_roundtrip (t : Time.t) (Hus : (1000 | t)%Z)
    (Hrange : Strconv.is_int64 (t / 1000)) :
  ParseListEvaluationCursor (makeCursor (next_cursor t))
    = Ok {| cur_Time := t; cur_Direction := Next |} ∧
  ParseListEvaluationCursor (makeCursor (prev_cursor t))
    = Ok {| cur_Time := t; cur_Direction := Prev |} ∧
  ParseListEvaluationCursor (makeCursor "") = Ok DefaultCursor ∧
  (∀ payload, match ParseListEvaluationCursor payload with
              | Ok _ => True
              | Err e => is_in e ErrMalformedCursor = true
              | Panic _ => False
              end).
Proof.
  split_and!; [by apply parse_next_cursor|by apply parse_prev_cursor|done|].
  intros payload. unfold ParseListEvaluationCursor.
  destruct (Base64.DecodeString payload) as [[|c s2]|]; [done| |done].
  by repeat case_goal.
Qed.

Lemma cursor_roundtrip_witness :
  (1000 | 1257894000000000000)%Z ∧
  ParseListEvaluationCursor (makeCursor (next_cursor 1257894000000000000%Z))
    = Ok {| cur_Time := 1257894000000000000%Z; cur_Direction := Next |}.
Proof.
  split; [by exists 1257894000000000%Z|].
  apply (cursor_roundtrip 1257894000000000000%Z).
  - by exists 1257894000000000%Z.
  - by vm_compute.
Defined.

(** *** What an accepted filter satisfies *)

(** The values of one field: of the allowed ones, and on one side only. *)
Definition inclusion_ok (allowed : option (list string)) (i : inclusion) : Prop :=
  (∀ l v, allowed = Some l → v ∈ (included i ++ excluded i)%list → v ∈ l) ∧
  (included i = [] ∨ excluded i = []).

Definition filter_fields_ok (f : listEvaluationFilter) : Prop :=
  inclusion_ok (Some allowedEntityTypes) (f_entityTypes f) ∧
  inclusion_ok None (f_entityNames f) ∧
  inclusion_ok None (f_profileNames f) ∧
  inclusion_ok (Some allowedEvaluationStatuses) (f_statuses f) ∧
  inclusion_ok (Some allowedRemediationStatuses) (f_remediations f) ∧
  inclusion_ok (Some allowedAlertStatuses) (f_alerts f).

Lemma add_value_ok allowed what v i i' :
  inclusion_ok allowed i → add_value allowed what v i = Ok i' → inclusion_ok allowed i'.
Proof.
  intros [Hall _]. unfold add_value, mbind, res_bind.
  destruct (if Strings.HasPrefix v "!" then _ else _) as [[v' j]|e|m] eqn:Hj; [|done|done].
  assert (Hv : ∀ x, x ∈ (included j ++ excluded j)%list →
                 x = v' ∨ x ∈ (included i ++ excluded i)%list).
  { intros x. destruct (Strings.HasPrefix v "!").
    - destruct (exclusion_of v); [|done|done]. injection Hj as <- <-. simpl.
      rewrite !elem_of_app, list_elem_of_singleton. tauto.
    - injection Hj as <- <-. simpl. rewrite !elem_of_app, list_elem_of_singleton. tauto. }
  clear Hj. destruct (match allowed with Some _ => _ | None => _ end) eqn:Ha; [done|].
  destruct (bool_decide (included j ≠ []) && _) eqn:Hb; [done|]. intros [= <-]. split.
  - intros l x -> [->|Hx]%Hv; [|by eapply Hall].
    by apply negb_false_iff, bool_decide_eq_true in Ha.
  - apply andb_false_iff in Hb as [Hb|Hb]; apply bool_decide_eq_false in Hb;
      apply dec_stable in Hb; tauto.
Qed.

(** An option keeps the fields of the filter it is given well formed. *)
Definition opt_keeps (opt : FilterOpt) : Prop :=
  ∀ f filter', filter_fields_ok f → opt (FEvaluation f) = Ok filter' →
    ∃ f', filter' = FEvaluation f' ∧ filter_fields_ok f'.

Lemma on_filter_keeps add :
  (∀ f f', filter_fields_ok f → add f = Ok f' → filter_fields_ok f') →
  opt_keeps (on_filter add).
Proof.
  intros Hadd f filter' Hf. unfold on_filter, fmap, res_fmap.
  destruct (add f) as [f'|e|m] eqn:E; [|done|done]. intros [= <-]. eauto.
Qed.

Lemma string_opt_keeps what bang add :
  (∀ v f f', filter_fields_ok f → add v f = Ok f' → filter_fields_ok f') →
  ∀ v, opt_keeps (string_opt what bang add v).
Proof.
  intros Hadd v f filter' Hf. unfold string_opt.
  destruct (_ || _); [done|]. by eapply on_filter_keeps; eauto.
Qed.

(** One field changes, through [add_value]. *)
Ltac field_keeps :=
  intros; match goal with
  | H : filter_fields_ok ?f, Ha : ?add ?v ?f = Ok ?f' |- _ =>
      unfold filter_fields_ok in *; unfold add, mbind, res_bind in Ha;
      destruct (add_value _ _ _ _) eqn:Hadd in Ha; [|done|done];
      injection Ha as <-; simpl; apply add_value_ok in Hadd; tauto
  end.

Lemma AddEntityType_keeps v f f' :
  filter_fields_ok f → AddEntityType v f = Ok f' → filter_fields_ok f'.
Proof. field_keeps. Qed.
Lemma AddEntityName_keeps v f f' :
  filter_fields_ok f → AddEntityName v f = Ok f' → filter_fields_ok f'.
Proof. field_keeps. Qed.
Lemma AddProfileName_keeps v f f' :
  filter_fields_ok f → AddProfileName v f = Ok f' → filter_fields_ok f'.
Proof. field_keeps. Qed.
Lemma AddStatus_keeps v f f' :
  filter_fields_ok f → AddStatus v f = Ok f' → filter_fields_ok f'.
Proof. field_keeps. Qed.
Lemma AddRemediation_keeps v f f' :
  filter_fields_ok f → AddRemediation v f = Ok f' → filter_fields_ok f'.
Proof. field_keeps. Qed.
Lemma AddAlert_keeps v f f' :
  filter_fields_ok f → AddAlert v f = Ok f' → filter_fields_ok f'.
Proof. field_keeps. Qed.
Lemma AddLabel_keeps v f f' :
  filter_fields_ok f → AddLabel v f = Ok f' → filter_fields_ok f'.
Proof.
  unfold AddLabel. destruct (ParseLabel v). intros H [= <-]. exact H.
Qed.
Lemma AddProjectID_keeps v f f' :
  filter_fields_ok f → AddProjectID v f = Ok f' → filter_fields_ok f'.
Proof. unfold AddProjectID. case_bool_decide; [done|]. intros H0 [= <-]. exact H0. Qed.
Lemma SetFrom_keeps v f f' :
  filter_fields_ok f → SetFrom v f = Ok f' → filter_fields_ok f'.
Proof. intros H [= <-]. exact H. Qed.
Lemma SetTo_keeps v f f' :
  filter_fields_ok f → SetTo v f = Ok f' → filter_fields_ok f'.
Proof. intros H [= <-]. exact H. Qed.

(** The options of the package. *)
Inductive option_kind :=
| OProject (u : UUID) | OProjectStr (s : string) | OEntityType (s : string)
| OEntityName (s : string) | OProfileName (s : string) | OLabel (s : string)
| OStatus (s : string) | ORemediation (s : string) | OAlert (s : string)
| OFrom (t : Time.t) | OTo (t : Time.t).

Definition opt_of `{UuidLib} (o : option_kind) : FilterOpt :=
  match o with
  | OProject u => WithProjectID u
  | OProjectStr s => WithProjectIDStr s
  | OEntityType s => WithEntityType s
  | OEntityName s => WithEntityName s
  | OProfileName s => WithProfileName s
  | OLabel s => WithLabel s
  | OStatus s => WithStatus s
  | ORemediation s => WithRemediation s
  | OAlert s => WithAlert s
  | OFrom t => WithFrom t
  | OTo t => WithTo t
  end.

Lemma opt_of_keeps `{UuidLib} o : opt_keeps (opt_of o).
Proof.
  destruct o as [u|s|s|s|s|s|s|s|s|t|t]; cbn [opt_of].
  - apply on_filter_keeps, AddProjectID_keeps.
  - intros f filter' Hf. unfold WithProjectIDStr. destruct (uuid_Parse s); [|done|done].
    apply on_filter_keeps; [apply AddProjectID_keeps|done].
  - apply string_opt_keeps, AddEntityType_keeps.
  - apply string_opt_keeps, AddEntityName_keeps.
  - apply string_opt_keeps, AddProfileName_keeps.
  - apply string_opt_keeps, AddLabel_keeps.
  - apply string_opt_keeps, AddStatus_keeps.
  - apply string_opt_keeps, AddRemediation_keeps.
  - apply string_opt_keeps, AddAlert_keeps.
  - apply on_filter_keeps, SetFrom_keeps.
  - apply on_filter_keeps, SetTo_keeps.
Qed.

Lemma apply_opts_keeps `{UuidLib} os f filter' :
  filter_fields_ok f → apply_opts (opt_of <$> os) (FEvaluation f) = Ok filter' →
  ∃ f', filter' = FEvaluation f' ∧ filter_fields_ok f'.
Proof.
  revert f. induction os as [|o os IH]; intros f Hf; simpl.
  - intros [= <-]. eauto.
  - unfold mbind at 1, res_bind at 1.
    destruct (opt_of o (FEvaluation f)) as [g|e|m] eqn:Ho; [|done|done].
    destruct (opt_of_keeps o f g Hf Ho) as (f' & -> & Hf'). by apply IH.
Qed.

Lemma empty_filter_ok : filter_fields_ok empty_filter.
Proof.
  unfold filter_fields_ok. split_and!; (split; [|by left]); simpl;
    intros l v _ Hv; by apply not_elem_of_nil in Hv.
Qed.

(** A filter that is accepted: its project, its range and its fields. *)
Lemma accepted_filter `{UuidLib} os f :
  NewListEvaluationFilter (opt_of <$> os) = Ok f →
  f_projectID f ≠ uuid_Nil ∧
  (∀ from to, f_from f = Some from → f_to f = Some to → (from ≤ to)%Z) ∧
  filter_fields_ok f.
Proof.
  intros Hok. unfold NewListEvaluationFilter, mbind, res_bind in Hok.
  destruct (apply_opts _ _) as [g|e|m] eqn:Ho; [|done|done].
  destruct (apply_opts_keeps _ _ _ empty_filter_ok Ho) as (f' & -> & Hf').
  case_bool_decide as Hp; [done|].
  destruct (match f_from f' with Some _ => _ | None => _ end) eqn:Ht; [done|].
  injection Hok as <-. split_and!; [done| |done].
  intros from to Hfr Hto. rewrite Hfr, Hto in Ht. unfold Time.After in Ht.
  by apply Z.ltb_ge in Ht.
Qed.

Lemma accepted_fields `{UuidLib} os f :
  NewListEvaluationFilter (opt_of <$> os) = Ok f → filter_fields_ok f.
Proof. intros Hok. by apply accepted_filter in Hok as (_ & _ & ?). Qed.

(** Whatever options it is given, a filter that is accepted names a
    project, has its time range the right way round, holds only entity types
    and statuses of the allowed ones, and asks of each field other than the
    labels either inclusions or exclusions, not both. *)
Theorem filter_sound `{UuidLib} (os : list option_kind) f
    (Hok : NewListEvaluationFilter (opt_of <$> os) = Ok f) :
  f_projectID f ≠ uuid_Nil ∧
  (∀ from to, f_from f = Some from → f_to f = Some to → (from ≤ to)%Z) ∧
  filter_fields_ok f.
Proof. by eapply accepted_filter. Qed.

Lemma filter_sound_witness :
  let f := empty_filter in
  let f := {| f_projectID := 5%N; f_entityTypes := {| included := []; excluded := ["artifact"] |};
              f_entityNames := f_entityNames f; f_profileNames := f_profileNames f;
              f_labels := {| included := ["a"]; excluded := ["b"] |}; f_statuses := f_statuses f;
              f_remediations := f_remediations f; f_alerts := f_alerts f;
              f_from := Some 1%Z; f_to := Some 2%Z |} in
  filter_fields_ok f.
Proof.
  intros f0 f. unshelve eapply (@filter_sound decimal_uuid
    [OProjectStr "5"; OEntityType "!artifact"; OLabel "a"; OLabel "!b"; OFrom 1%Z; OTo 2%Z] f _).
  by vm_compute.
Defined.

(** An exclusion is cut at the next exclamation mark: excluding the entity
    name [!a!b] excludes every entity called [a], which nobody asked for, and
    not those called [a!b].  In general, what is excluded is the part of the
    name before its first exclamation mark. *)
Theorem exclusion_truncated (name : string) (f : listEvaluationFilter)
    (Hinc : included (f_entityNames f) = []) :
  (∃ f', AddEntityName ("!" +:+ name) f = Ok f' ∧
     excluded (f_entityNames f')
       = (excluded (f_entityNames f) ++ [Strings.until name "!"%char])%list) ∧
  (Strings.Contains name "!"%char = true →
   ∀ f', AddEntityName ("!" +:+ name) f = Ok f' →
     name ∉ excluded (f_entityNames f) → name ∉ excluded (f_entityNames f')).
Proof.
  assert (Hrun : AddEntityName ("!" +:+ name) f =
    Ok {| f_projectID := f_projectID f; f_entityTypes := f_entityTypes f;
          f_entityNames := {| included := [];
            excluded := (excluded (f_entityNames f) ++ [Strings.until name "!"%char])%list |};
          f_profileNames := f_profileNames f;
          f_labels := f_labels f; f_statuses := f_statuses f;
          f_remediations := f_remediations f; f_alerts := f_alerts f;
          f_from := f_from f; f_to := f_to f |}).
  { unfold AddEntityName, add_value. change ("!" +:+ name) with (String "!" name).
    rewrite Strings.HasPrefix_cons. unfold exclusion_of. rewrite Strings.Split_lead.
    unfold mbind, res_bind. cbn -[Strings.until]. rewrite Hinc. done. }
  split; [by eexists|]. intros Hc f' Hf' Hn. rewrite Hrun in Hf'. injection Hf' as <-.
  simpl. rewrite elem_of_app, list_elem_of_singleton. intros [?|Heq]; [done|].
  pose proof (Strings.until_Contains name "!"%char) as Hu. congruence.
Qed.

Lemma exclusion_truncated_witness :
  ∃ f', AddEntityName "!a!b" empty_filter = Ok f' ∧ excluded (f_entityNames f') = ["a"].
Proof. exact (proj1 (exclusion_truncated "a!b" empty_filter eq_refl)). Defined.
