(* ===== verification/HistoryDb.v ===== *)
(** * The evaluation history: statements

    internal/db/eval_history.sql.go, eval_outputs.sql.go, the listing of
    profile_status.sql.go and GetRuleEvaluationByProfileIdAndRuleType of
    internal/db/store.go, as programs on the tables.  SQL's order of rows
    without [ORDER BY], and among rows that compare equal, is not specified;
    here it is the order of the map.  Comparisons with a null are not true. *)

From S2P Require Import Prelude GoErrors GoMonad GoStrings Uuid DbTypes StatusAdapter.
From S2P Require Import Database.
Local Open Scope string_scope.

Definition UniqueViolation : gerr :=
  ENew "pq.unique_violation" "violates unique constraint".

(** ** Updates of the history tables *)

Definition upd_history (f : History → History) (w : World) : World :=
  set_db (set_history (f (history (w_db w))) (w_db w)) w.

Definition upd_entities (f : gmap UUID EvaluationRuleEntity → gmap UUID EvaluationRuleEntity)
    (h : History) : History :=
  {| h_entities := f (h_entities h); h_statuses := h_statuses h; h_latest := h_latest h;
     h_outputs := h_outputs h; h_remediations := h_remediations h; h_alerts := h_alerts h |}.
Definition upd_statuses (f : gmap UUID EvaluationStatus → gmap UUID EvaluationStatus)
    (h : History) : History :=
  {| h_entities := h_entities h; h_statuses := f (h_statuses h); h_latest := h_latest h;
     h_outputs := h_outputs h; h_remediations := h_remediations h; h_alerts := h_alerts h |}.
Definition upd_latest (f : gmap UUID LatestStatus → gmap UUID LatestStatus)
    (h : History) : History :=
  {| h_entities := h_entities h; h_statuses := h_statuses h; h_latest := f (h_latest h);
     h_outputs := h_outputs h; h_remediations := h_remediations h; h_alerts := h_alerts h |}.
Definition upd_outputs (f : gmap UUID EvaluationOutput → gmap UUID EvaluationOutput)
    (h : History) : History :=
  {| h_entities := h_entities h; h_statuses := h_statuses h; h_latest := h_latest h;
     h_outputs := f (h_outputs h); h_remediations := h_remediations h; h_alerts := h_alerts h |}.
Definition upd_remediations (f : list ActionEvent → list ActionEvent) (h : History) : History :=
  {| h_entities := h_entities h; h_statuses := h_statuses h; h_latest := h_latest h;
     h_outputs := h_outputs h; h_remediations := f (h_remediations h); h_alerts := h_alerts h |}.
Definition upd_alerts (f : list ActionEvent → list ActionEvent) (h : History) : History :=
  {| h_entities := h_entities h; h_statuses := h_statuses h; h_latest := h_latest h;
     h_outputs := h_outputs h; h_remediations := h_remediations h; h_alerts := f (h_alerts h) |}.

(** ** Inserts and updates *)

Record InsertEvaluationRuleEntityParams := {
  ie_RuleID : UUID; ie_EntityType : Entities; ie_EntityInstanceID : UUID;
}.

Record InsertEvaluationStatusParams := {
  is_RuleEntityID : UUID; is_Status : EvalStatusTypes; is_Details : string;
  is_Checkpoint : option string;
}.

Record UpsertLatestEvaluationStatusParams := {
  ul_RuleEntityID : UUID; ul_EvaluationHistoryID : UUID; ul_ProfileID : UUID;
}.

(** [InsertRemediationEventParams] and [InsertAlertEventParams]: a nil metadata
    is an SQL null. *)
Record InsertEventParams := {
  iev_EvaluationID : UUID; iev_Status : string; iev_Details : string;
  iev_Metadata : option string;
}.

Record UpsertEvaluationOutputParams := {
  uo_ID : UUID; uo_Output : option string; uo_Debug : option string;
}.

(** [COALESCE($n, old)] *)
Definition coalesce {A} (new old : option A) : option A :=
  match new with Some _ => new | None => old end.

Definition event_row (arg : InsertEventParams) (metadata : string) (now : Z) : ActionEvent :=
  {| ev_EvaluationID := iev_EvaluationID arg; ev_Status := iev_Status arg;
     ev_Details := iev_Details arg; ev_Metadata := metadata; ev_CreatedAt := now |}.

Section inserts.
Context `{RandomUuid}.

Definition InsertEvaluationRuleEntity (arg : InsertEvaluationRuleEntityParams)
    : prog World UUID :=
  query (λ w,
    let d := w_db w in
    let id := gen_random_uuid (w_fresh w) in
    let w1 := set_fresh (S (w_fresh w)) w in
    if bool_decide (is_Some (evaluation_rule_entities d !! id)) then (w1, Err UniqueViolation)
    else if bool_decide (is_Some (rule_instances d !! ie_RuleID arg)) &&
            bool_decide (is_Some (entity_instances d !! ie_EntityInstanceID arg))
    then
      let row := {| ere_RuleID := ie_RuleID arg; ere_EntityType := ie_EntityType arg;
                    ere_EntityInstanceID := ie_EntityInstanceID arg |} in
      (upd_history (upd_entities (insert id row)) w1, Ok id)
    else (w1, Err ForeignKeyViolation)).

Definition InsertEvaluationStatus (arg : InsertEvaluationStatusParams) : prog World UUID :=
  query (λ w,
    let d := w_db w in
    let id := gen_random_uuid (w_fresh w) in
    let w1 := set_fresh (S (w_fresh w)) w in
    match is_Checkpoint arg with
    | None => (w1, Err NotNullViolation)
    | Some checkpoint =>
        if bool_decide (is_Some (evaluation_statuses d !! id)) then (w1, Err UniqueViolation)
        else if bool_decide (is_Some (evaluation_rule_entities d !! is_RuleEntityID arg))
        then
          let row := {| es_RuleEntityID := is_RuleEntityID arg; es_Status := is_Status arg;
                        es_Details := is_Details arg; es_EvaluationTime := w_now w;
                        es_Checkpoint := checkpoint |} in
          (upd_history (upd_statuses (insert id row)) w1, Ok id)
        else (w1, Err ForeignKeyViolation)
    end).
End inserts.

(** A conflict on the rule entity updates the status it points to, and leaves
    the profile. *)
Definition UpsertLatestEvaluationStatus (arg : UpsertLatestEvaluationStatusParams)
    : prog World unit :=
  query (λ w,
    let d := w_db w in
    if bool_decide (is_Some (evaluation_statuses d !! ul_EvaluationHistoryID arg)) then
      match latest_evaluation_statuses d !! ul_RuleEntityID arg with
      | Some old =>
          let row := {| la_EvaluationHistoryID := ul_EvaluationHistoryID arg;
                        la_ProfileID := la_ProfileID old |} in
          (upd_history (upd_latest (insert (ul_RuleEntityID arg) row)) w, Ok tt)
      | None =>
          if bool_decide (is_Some (evaluation_rule_entities d !! ul_RuleEntityID arg)) &&
             bool_decide (is_Some (profiles d !! ul_ProfileID arg))
          then
            let row := {| la_EvaluationHistoryID := ul_EvaluationHistoryID arg;
                          la_ProfileID := ul_ProfileID arg |} in
            (upd_history (upd_latest (insert (ul_RuleEntityID arg) row)) w, Ok tt)
          else (w, Err ForeignKeyViolation)
      end
    else (w, Err ForeignKeyViolation)).

Definition insert_event (upd : (list ActionEvent → list ActionEvent) → History → History)
    (arg : InsertEventParams) : prog World unit :=
  query (λ w,
    match iev_Metadata arg with
    | None => (w, Err NotNullViolation)
    | Some metadata =>
        if bool_decide (is_Some (evaluation_statuses (w_db w) !! iev_EvaluationID arg))
        then (upd_history (upd (λ l, (l ++ [event_row arg metadata (w_now w)])%list)) w, Ok tt)
        else (w, Err ForeignKeyViolation)
    end).

Definition InsertRemediationEvent : InsertEventParams → prog World unit :=
  insert_event upd_remediations.
Definition InsertAlertEvent : InsertEventParams → prog World unit :=
  insert_event upd_alerts.

Definition UpsertEvaluationOutput (arg : UpsertEvaluationOutputParams) : prog World unit :=
  query (λ w,
    let d := w_db w in
    match evaluation_outputs d !! uo_ID arg with
    | Some old =>
        let row := {| eo_Output := coalesce (uo_Output arg) (eo_Output old);
                      eo_Debug := coalesce (uo_Debug arg) (eo_Debug old) |} in
        (upd_history (upd_outputs (insert (uo_ID arg) row)) w, Ok tt)
    | None =>
        if bool_decide (is_Some (evaluation_statuses d !! uo_ID arg)) then
          let row := {| eo_Output := uo_Output arg; eo_Debug := uo_Debug arg |} in
          (upd_history (upd_outputs (insert (uo_ID arg) row)) w, Ok tt)
        else (w, Err ForeignKeyViolation)
    end).

(** ** Deletion

    The events and the output of a status go with it; a row of the latest
    statuses refers to its status without a cascade. *)
Definition refers_to_one_of (ids : list UUID) (d : Db) : Prop :=
  map_Exists (λ _ l, la_EvaluationHistoryID l ∈ ids) (latest_evaluation_statuses d).

#[export] Instance refers_to_one_of_dec ids d : Decision (refers_to_one_of ids d).
Proof. apply _. Defined.

Definition delete_statuses (ids : list UUID) (h : History) : History :=
  {| h_entities := h_entities h;
     h_statuses := filter (λ p, p.1 ∉ ids) (h_statuses h);
     h_latest := h_latest h;
     h_outputs := filter (λ p, p.1 ∉ ids) (h_outputs h);
     h_remediations := filter (λ e, ev_EvaluationID e ∉ ids) (h_remediations h);
     h_alerts := filter (λ e, ev_EvaluationID e ∉ ids) (h_alerts h) |}.

(** The number of rows affected. *)
Definition DeleteEvaluationHistoryByIDs (ids : list UUID) : prog World Z :=
  query (λ w,
    let d := w_db w in
    let doomed := filter (λ p, p.1 ∈ ids) (evaluation_statuses d) in
    if bool_decide (refers_to_one_of (map_to_list doomed).*1 d)
    then (w, Err ForeignKeyViolation)
    else (upd_history (delete_statuses ids) w, Ok (Z.of_nat (size doomed)))).

(** ** Reads *)

(** [FOR UPDATE] takes row locks, which a single transaction does not see. *)
Definition latest_of (d : Db) (rule ent : UUID) : list (UUID * EvaluationStatus) :=
  omap (λ '(re, row),
    if bool_decide (ere_RuleID row = rule ∧ ere_EntityInstanceID row = ent) then
      l ← latest_evaluation_statuses d !! re;
      s ← evaluation_statuses d !! la_EvaluationHistoryID l;
      Some (la_EvaluationHistoryID l, s)
    else None) (map_to_list (evaluation_rule_entities d)).

(** A [:one] query scans the first row. *)
Definition GetLatestEvalStateForRuleEntity (rule ent : UUID)
    : prog World (UUID * EvaluationStatus) :=
  select (λ w, match latest_of (w_db w) rule ent with
               | row :: _ => Ok row
               | [] => Err ErrNoRows
               end).

Record StaleRow := {
  sr_EvaluationTime : Z; sr_ID : UUID; sr_RuleID : UUID; sr_EntityType : Entities;
  sr_EntityID : UUID;
}.

(** [ORDER BY s.evaluation_time ASC, rule_id ASC, entity_id ASC] *)
Definition stale_le (a b : StaleRow) : Prop :=
  (sr_EvaluationTime a < sr_EvaluationTime b)%Z ∨
  (sr_EvaluationTime a = sr_EvaluationTime b ∧
   ((sr_RuleID a < sr_RuleID b)%N ∨
    (sr_RuleID a = sr_RuleID b ∧ (sr_EntityID a ≤ sr_EntityID b)%N))).

#[export] Instance stale_le_dec a b : Decision (stale_le a b).
Proof. unfold stale_le. apply _. Defined.

(** The latest row of the same rule entity that points to this very status. *)
Definition is_latest (d : Db) (id : UUID) (s : EvaluationStatus) : bool :=
  match latest_evaluation_statuses d !! es_RuleEntityID s with
  | Some l => bool_decide (la_EvaluationHistoryID l = id)
  | None => false
  end.

Definition stale_row (d : Db) (threshold : Z) (p : UUID * EvaluationStatus) : option StaleRow :=
  let '(id, s) := p in
  ere ← evaluation_rule_entities d !! es_RuleEntityID s;
  if (es_EvaluationTime s <? threshold)%Z && negb (is_latest d id s)
  then Some {| sr_EvaluationTime := es_EvaluationTime s; sr_ID := id;
               sr_RuleID := ere_RuleID ere; sr_EntityType := ere_EntityType ere;
               sr_EntityID := ere_EntityInstanceID ere |}
  else None.

Definition ListEvaluationHistoryStaleRecords (threshold size : Z)
    : prog World (list StaleRow) :=
  select (λ w,
    let d := w_db w in
    Ok (take (Z.to_nat size)
          (merge_sort stale_le
             (omap (stale_row d threshold) (map_to_list (evaluation_statuses d)))))).

Definition GetEvaluationOutput (id : UUID) : prog World EvaluationOutput :=
  select (λ w, match evaluation_outputs (w_db w) !! id with
               | Some o => Ok o
               | None => Err ErrNoRows
               end).

Definition GetRuleTypeNameByID (id : UUID) : prog World string :=
  select (λ w, match rule_types (w_db w) !! id with
               | Some rt => Ok (rty_Name rt)
               | None => Err ErrNoRows
               end).

(** [lower(text)] of the database. *)
Class PgText := { pg_lower : string → string }.

Record ListRuleEvaluationsByProfileIdParams := {
  lre_ProfileID : UUID;
  lre_EntityID : option UUID;
  lre_EntityName : option string;
  lre_RuleTypeName : option string;
  lre_RuleName : option string;
}.

(** [col = $n OR $n IS NULL] *)
Definition eq_or_null {A} `{EqDecision A} (param : option A) (col : A) : bool :=
  match param with None => true | Some p => bool_decide (col = p) end.

Definition events_of (evs : list ActionEvent) (id : UUID) : list ActionEvent :=
  filter (λ e, ev_EvaluationID e = id) evs.

(** The inner joins of one latest row: one result per pair of events. *)
Definition rule_evaluation_rows `{PgText} (d : Db) (arg : ListRuleEvaluationsByProfileIdParams)
    (p : UUID * LatestStatus) : list ListRuleEvaluationsByProfileIdRow :=
  let '(re, l) := p in
  let id := la_EvaluationHistoryID l in
  default [] (
    ere ← evaluation_rule_entities d !! re;
    s ← evaluation_statuses d !! id;
    ri ← rule_instances d !! ere_RuleID ere;
    rt ← rule_types d !! rin_RuleTypeID ri;
    ei ← entity_instances d !! ere_EntityInstanceID ere;
    prov ← providers d !! ei_ProviderID ei;
    if bool_decide (la_ProfileID l = lre_ProfileID arg) &&
       eq_or_null (lre_EntityID arg) (ere_EntityInstanceID ere) &&
       eq_or_null (lre_EntityName arg) (ei_Name ei) &&
       eq_or_null (lre_RuleTypeName arg) (rty_Name rt) &&
       eq_or_null (pg_lower <$> lre_RuleName arg) (pg_lower (rin_Name ri))
    then Some (
      rd ← events_of (remediation_events d) id;
      ad ← events_of (alert_events d) id;
      [{| row_RemStatus := ev_Status rd; row_RemMetadata := Some (ev_Metadata rd);
          row_AlertStatus := ev_Status ad; row_AlertMetadata := Some (ev_Metadata ad) |}])
    else None).

Definition ListRuleEvaluationsByProfileId `{PgText}
    (arg : ListRuleEvaluationsByProfileIdParams)
    : prog World (list ListRuleEvaluationsByProfileIdRow) :=
  select (λ w,
    let d := w_db w in
    Ok (map_to_list (latest_evaluation_statuses d) ≫= rule_evaluation_rows d arg)).

Definition GetRuleEvaluationByProfileIdAndRuleType `{PgText} (profileID : UUID)
    (ruleName : option string) (entityID : UUID) (ruleTypeName : option string)
    : prog World (option ListRuleEvaluationsByProfileIdRow) :=
  rows ← ListRuleEvaluationsByProfileId
    {| lre_ProfileID := profileID; lre_EntityID := Some entityID; lre_EntityName := None;
       lre_RuleTypeName := ruleTypeName; lre_RuleName := ruleName |};
  match rows with
  | [] => mret None
  | [row] => mret (Some row)
  | _ => throw (EText ("GetRuleEvaluationByProfileIdAndRuleType - expected 1 row, got "
                       +:+ Strconv.FormatInt (Z.of_nat (length rows))))
  end.
