(* ===== verification/HistoryStore.v ===== *)
(** * Storing an evaluation: internal/history/service.go

    [StoreEvaluationStatus] and [createNewStatus], the invariant of the history
    tables, and what one stored evaluation changes. *)

From S2P Require Import Prelude GoErrors GoMonad GoStrings EngineErrors Uuid DbTypes.
From S2P Require Import StatusAdapter Database HistoryDb.
Local Open Scope string_scope.

(** [json.Marshal] of a value the code does not look into. *)
Class JsonAny := { json_Marshal : any → string + gerr }.

Record ruleEntityParams := { rep_RuleID : UUID; rep_EntityID : UUID }.

Definition paramsFromEntity (ruleID entityID : UUID) : ruleEntityParams :=
  {| rep_RuleID := ruleID; rep_EntityID := entityID |}.

Section store.
Context `{UuidLib} `{RandomUuid} `{TemplateEngine} `{JsonAny}.

Definition createNewStatus (ruleEntityID profileID : UUID) (status : EvalStatusTypes)
    (details : string) (marshaledCheckpoint : option string) : prog World UUID :=
  newEvaluationID ← InsertEvaluationStatus
    {| is_RuleEntityID := ruleEntityID; is_Status := status; is_Details := details;
       is_Checkpoint := marshaledCheckpoint |};
  UpsertLatestEvaluationStatus
    {| ul_RuleEntityID := ruleEntityID; ul_EvaluationHistoryID := newEvaluationID;
       ul_ProfileID := profileID |};;
  mret newEvaluationID.

(** The rule entity of the latest record, or a new one. *)
Definition find_rule_entity (params : ruleEntityParams) (entityType : Entities)
    : prog World UUID :=
  latestRecord ← try (GetLatestEvalStateForRuleEntity (rep_RuleID params) (rep_EntityID params));
  match latestRecord with
  | inl (_, rec) => mret (es_RuleEntityID rec)
  | inr err =>
      if errors_Is (Some err) ErrNoRows then
        wrapf "error while creating new rule/entity in database: "
          (InsertEvaluationRuleEntity
             {| ie_RuleID := rep_RuleID params; ie_EntityType := entityType;
                ie_EntityInstanceID := rep_EntityID params |})
      else throw (EWrap "error while querying DB: " err "")
  end.

(** An output that does not marshal is logged and left out. *)
Definition store_output (ruleEntityID evaluationID : UUID) (output : option any)
    : prog World unit :=
  match output with
  | None => mret tt
  | Some out =>
      match json_Marshal out with
      | inr _ => mret tt
      | inl outputJSON =>
          wrapf ("error storing extended output for rule/entity "
                 +:+ uuid_String ruleEntityID +:+ ": ")
            (UpsertEvaluationOutput
               {| uo_ID := evaluationID; uo_Output := Some outputJSON; uo_Debug := None |})
      end
  end.

Definition StoreEvaluationStatus (ruleID profileID : UUID) (entityType : Entities)
    (entityID : UUID) (evalError : error) (marshaledCheckpoint : option string)
    (output : option any) : prog World UUID :=
  let status := ErrorAsEvalStatus evalError in
  let details := ErrorAsEvalDetails evalError in
  ruleEntityID ← find_rule_entity (paramsFromEntity ruleID entityID) entityType;
  evaluationID ← wrapf ("error while creating new evaluation status for rule/entity "
                        +:+ uuid_String ruleEntityID +:+ ": ")
    (createNewStatus ruleEntityID profileID status details marshaledCheckpoint);
  store_output ruleEntityID evaluationID output;;
  mret evaluationID.
End store.

(** ** The invariant of the history tables, between transactions *)

Record history_wf (h : History) : Prop := {
  (** the latest status of a rule entity is one of its statuses, *)
  wf_latest : ∀ re l, h_latest h !! re = Some l →
    ∃ s, h_statuses h !! la_EvaluationHistoryID l = Some s ∧ es_RuleEntityID s = re;
  (** a status belongs to a rule entity, *)
  wf_status : ∀ id s, h_statuses h !! id = Some s → is_Some (h_entities h !! es_RuleEntityID s);
  (** every rule entity has a latest status, *)
  wf_entity : ∀ re row, h_entities h !! re = Some row → is_Some (h_latest h !! re);
  (** there is one rule entity per rule and entity, *)
  wf_unique : ∀ re1 re2 r1 r2, h_entities h !! re1 = Some r1 → h_entities h !! re2 = Some r2 →
    ere_RuleID r1 = ere_RuleID r2 → ere_EntityInstanceID r1 = ere_EntityInstanceID r2 → re1 = re2;
  (** and outputs and events belong to a status. *)
  wf_outputs : ∀ id o, h_outputs h !! id = Some o → is_Some (h_statuses h !! id);
  wf_remediations : ∀ e, e ∈ h_remediations h → is_Some (h_statuses h !! ev_EvaluationID e);
  wf_alerts : ∀ e, e ∈ h_alerts h → is_Some (h_statuses h !! ev_EvaluationID e);
}.

(** The row of a rule entity. *)
Definition rule_entity_of (h : History) (rule ent re : UUID) : Prop :=
  ∃ row, h_entities h !! re = Some row ∧ ere_RuleID row = rule ∧
         ere_EntityInstanceID row = ent.

(** What storing an evaluation changes: the rule entity is the one there is or
    a new one, the status is new, and it is the latest of its rule entity. *)
Definition stored (h h' : History) (rule ent profile : UUID) (etype : Entities)
    (s : EvaluationStatus) (id : UUID) (out : option EvaluationOutput) : Prop :=
  ∃ re p,
    es_RuleEntityID s = re ∧
    h_statuses h !! id = None ∧
    (rule_entity_of h rule ent re ∧ (∃ l, h_latest h !! re = Some l ∧ p = la_ProfileID l) ∧
       h_entities h' = h_entities h
     ∨ h_entities h !! re = None ∧ h_latest h !! re = None ∧ p = profile ∧
       (∀ re', ¬ rule_entity_of h rule ent re') ∧
       h_entities h' = <[re := {| ere_RuleID := rule; ere_EntityType := etype;
                                  ere_EntityInstanceID := ent |}]> (h_entities h)) ∧
    h_statuses h' = <[id := s]> (h_statuses h) ∧
    h_latest h' = <[re := {| la_EvaluationHistoryID := id; la_ProfileID := p |}]> (h_latest h) ∧
    h_outputs h' = match out with Some o => <[id := o]> (h_outputs h) | None => h_outputs h end ∧
    h_remediations h' = h_remediations h ∧ h_alerts h' = h_alerts h.

(** ** Lemmas *)

Lemma history_set_history h d : history (set_history h d) = h.
Proof. by destruct h. Qed.

Lemma set_history_twice h h' d : set_history h (set_history h' d) = set_history h d.
Proof. done. Qed.

Lemma history_upd f w : history (w_db (upd_history f w)) = f (history (w_db w)).
Proof. unfold upd_history. simpl. apply history_set_history. Qed.

Lemma latest_of_Some d rule ent id s :
  (id, s) ∈ latest_of d rule ent →
  ∃ re l, rule_entity_of (history d) rule ent re ∧
    latest_evaluation_statuses d !! re = Some l ∧ la_EvaluationHistoryID l = id ∧
    evaluation_statuses d !! id = Some s.
Proof.
  unfold latest_of. intros ([re row] & Hin & Hf)%list_elem_of_omap.
  apply elem_of_map_to_list in Hin. case_bool_decide as Hr; [|done].
  apply bind_Some in Hf as (l & Hl & Hf). apply bind_Some in Hf as (s' & Hs & [= <- <-]).
  exists re, l. split_and!; try done. exists row. naive_solver.
Qed.

(** Under the invariant, no latest record means no rule entity. *)
Lemma latest_of_None d rule ent :
  history_wf (history d) → latest_of d rule ent = [] →
  ∀ re, ¬ rule_entity_of (history d) rule ent re.
Proof.
  intros Hwf Hn re (row & Hre & Hrule & Hent).
  destruct (wf_entity _ Hwf _ _ Hre) as [l Hl].
  destruct (wf_latest _ Hwf _ _ Hl) as (s & Hs & _). simpl in *.
  assert ((la_EvaluationHistoryID l, s) ∈ latest_of d rule ent) as Hin; [|by rewrite Hn in Hin; apply not_elem_of_nil in Hin].
  unfold latest_of. apply list_elem_of_omap. exists (re, row).
  split; [by apply elem_of_map_to_list|]. rewrite bool_decide_eq_true_2 by done.
  rewrite Hl. simpl. by rewrite Hs.
Qed.

Lemma stored_wf h h' rule ent profile etype s id out :
  history_wf h → stored h h' rule ent profile etype s id out → history_wf h'.
Proof.
  intros Hwf (re & p & Hre & Hid & Hent & Hst & Hla & Hou & Hrem & Hal).
  assert (Hmono : ∀ x, is_Some (h_statuses h !! x) → is_Some (h_statuses h' !! x)).
  { intros x Hx. rewrite Hst. apply lookup_insert_is_Some'. by right. }
  assert (Hents : ∀ x, is_Some (h_entities h !! x) → is_Some (h_entities h' !! x)).
  { intros x Hx. destruct Hent as [(_ & _ & ->)|(_ & _ & _ & _ & ->)]; [done|].
    apply lookup_insert_is_Some'. by right. }
  split.
  - intros re' l Hl. rewrite Hla in Hl. rewrite Hst.
    destruct (decide (re' = re)) as [->|Hne].
    + rewrite lookup_insert_eq in Hl. injection Hl as <-. exists s. simpl.
      by rewrite lookup_insert_eq.
    + rewrite lookup_insert_ne in Hl by done.
      destruct (wf_latest _ Hwf _ _ Hl) as (s' & Hs' & ?). exists s'.
      rewrite lookup_insert_ne by (intros Heq; rewrite <-Heq in Hs'; congruence). done.
  - intros id' s' Hs'. rewrite Hst in Hs'. destruct (decide (id' = id)) as [->|Hne].
    + rewrite lookup_insert_eq in Hs'. injection Hs' as <-. rewrite Hre.
      destruct Hent as [((row & ? & _) & _ & ->)|(_ & _ & _ & _ & ->)]; [done|].
      by rewrite lookup_insert_eq.
    + rewrite lookup_insert_ne in Hs' by done. by eapply Hents, wf_status.
  - intros re' row Hr. rewrite Hla. apply lookup_insert_is_Some'.
    destruct (decide (re = re')) as [|Hne]; [by left|right].
    destruct Hent as [(_ & _ & Heq)|(_ & _ & _ & _ & Heq)]; rewrite Heq in Hr.
    + by eapply wf_entity.
    + rewrite lookup_insert_ne in Hr by done. by eapply wf_entity.
  - intros re1 re2 r1 r2 H1 H2 Hr He.
    destruct Hent as [(_ & _ & Heq)|(Hnew & _ & _ & Hno & Heq)];
      rewrite Heq in H1, H2; [by eapply wf_unique|].
    apply lookup_insert_Some in H1 as [[<- <-]|[Hn1 H1]];
      apply lookup_insert_Some in H2 as [[<- <-]|[Hn2 H2]]; simpl in *; try done.
    + exfalso. apply (Hno re2). exists r2. by rewrite <-Hr, <-He.
    + exfalso. apply (Hno re1). exists r1. by rewrite Hr, He.
    + by eapply wf_unique.
  - intros id' o Ho. rewrite Hou in Ho. destruct out as [o'|].
    + apply lookup_insert_Some in Ho as [[<- _]|[_ Ho]].
      * rewrite Hst, lookup_insert_eq. done.
      * by eapply Hmono, wf_outputs.
    + by eapply Hmono, wf_outputs.
  - intros e He. rewrite Hrem in He. by eapply Hmono, wf_remediations.
  - intros e He. rewrite Hal in He. by eapply Hmono, wf_alerts.
Qed.

(** *** Successful statements *)

(** The tables other than the history, the clock and the bus. *)
Definition same_but_history (w w' : World) : Prop :=
  w_db w' = set_history (history (w_db w')) (w_db w) ∧
  w_now w' = w_now w ∧ w_published w' = w_published w.

Lemma same_but_history_refl w : same_but_history w w.
Proof. split_and!; try done. by destruct (w_db w). Qed.

Lemma same_but_history_trans w1 w2 w3 :
  same_but_history w1 w2 → same_but_history w2 w3 → same_but_history w1 w3.
Proof.
  intros (H1 & H2 & H3) (H4 & H5 & H6). split_and!; [|congruence..].
  rewrite H4 at 1. rewrite H1. apply set_history_twice.
Qed.

Lemma same_but_history_upd f w fs n :
  same_but_history w (upd_history f (set_fresh n (set_faults fs w))).
Proof. by split_and!. Qed.

Lemma same_but_history_upd' f w fs : same_but_history w (upd_history f (set_faults fs w)).
Proof. by split_and!. Qed.

Section statements.
Context `{UuidLib} `{RandomUuid}.

Lemma InsertEvaluationStatus_Ok arg w w' id :
  InsertEvaluationStatus arg w = (w', Ok id) →
  ∃ cp, is_Checkpoint arg = Some cp ∧
    h_statuses (history (w_db w)) !! id = None ∧
    is_Some (h_entities (history (w_db w)) !! is_RuleEntityID arg) ∧
    history (w_db w') = upd_statuses (insert id
      {| es_RuleEntityID := is_RuleEntityID arg; es_Status := is_Status arg;
         es_Details := is_Details arg; es_EvaluationTime := w_now w;
         es_Checkpoint := cp |}) (history (w_db w)) ∧
    same_but_history w w'.
Proof.
  intros (fs & Hq)%query_Ok. simpl in Hq. destruct (is_Checkpoint arg) as [cp|]; [|done].
  case_bool_decide as Hid; [done|]. case_bool_decide as Hre; [|done].
  injection Hq as <- <-. exists cp. split_and!; [done| |done| |].
  - by apply eq_None_not_Some.
  - rewrite history_upd. done.
  - apply (same_but_history_upd _ w fs (S (w_fresh w))).
Qed.

Lemma UpsertLatest_Ok arg w w' :
  UpsertLatestEvaluationStatus arg w = (w', Ok tt) →
  history (w_db w') = upd_latest (insert (ul_RuleEntityID arg)
    {| la_EvaluationHistoryID := ul_EvaluationHistoryID arg;
       la_ProfileID := from_option la_ProfileID (ul_ProfileID arg)
         (h_latest (history (w_db w)) !! ul_RuleEntityID arg) |}) (history (w_db w)) ∧
  same_but_history w w'.
Proof.
  intros (fs & Hq)%query_Ok. simpl in Hq. case_bool_decide; [|done].
  change (h_latest (history (w_db w))) with (latest_evaluation_statuses (w_db w)).
  destruct (latest_evaluation_statuses (w_db w) !! ul_RuleEntityID arg) as [old|] eqn:Ho;
    [|destruct (_ && _); [|done]];
    injection Hq as <-; rewrite history_upd; (split; [done|apply same_but_history_upd']).
Qed.

Lemma InsertEvaluationRuleEntity_Ok arg w w' id :
  InsertEvaluationRuleEntity arg w = (w', Ok id) →
  h_entities (history (w_db w)) !! id = None ∧
  history (w_db w') = upd_entities (insert id
    {| ere_RuleID := ie_RuleID arg; ere_EntityType := ie_EntityType arg;
       ere_EntityInstanceID := ie_EntityInstanceID arg |}) (history (w_db w)) ∧
  same_but_history w w'.
Proof.
  intros (fs & Hq)%query_Ok. simpl in Hq. case_bool_decide as Hid; [done|].
  destruct (_ && _); [|done]. injection Hq as <- <-. split_and!.
  - by apply eq_None_not_Some.
  - by rewrite history_upd.
  - apply (same_but_history_upd _ w fs (S (w_fresh w))).
Qed.

Lemma UpsertEvaluationOutput_Ok arg w w' :
  h_outputs (history (w_db w)) !! uo_ID arg = None →
  UpsertEvaluationOutput arg w = (w', Ok tt) →
  history (w_db w') = upd_outputs (insert (uo_ID arg)
    {| eo_Output := uo_Output arg; eo_Debug := uo_Debug arg |}) (history (w_db w)) ∧
  same_but_history w w'.
Proof.
  intros Hn (fs & Hq)%query_Ok. simpl in *. rewrite Hn in Hq.
  case_bool_decide; [|done]. injection Hq as <-. rewrite history_upd. split; [done|].
  apply same_but_history_upd'.
Qed.

Lemma insert_event_Ok upd arg w w' :
  insert_event upd arg w = (w', Ok tt) →
  ∃ m, iev_Metadata arg = Some m ∧
    is_Some (h_statuses (history (w_db w)) !! iev_EvaluationID arg) ∧
    history (w_db w') = upd (λ l, (l ++ [event_row arg m (w_now w)])%list) (history (w_db w)) ∧
    same_but_history w w'.
Proof.
  intros (fs & Hq)%query_Ok. simpl in Hq. destruct (iev_Metadata arg) as [m|]; [|done].
  case_bool_decide; [|done]. injection Hq as <-. exists m. rewrite history_upd.
  split_and!; done || apply same_but_history_upd'.
Qed.

#[local] Arguments wrapf : simpl never.

(** The latest record or the absence of one; a connection failure is neither. *)
Lemma find_rule_entity_Ok rule ent etype w w' re :
  history_wf (history (w_db w)) → honest_faults w →
  find_rule_entity (paramsFromEntity rule ent) etype w = (w', Ok re) →
  same_but_history w w' ∧
  (rule_entity_of (history (w_db w)) rule ent re ∧
     is_Some (h_latest (history (w_db w)) !! re) ∧ history (w_db w') = history (w_db w)
   ∨ h_entities (history (w_db w)) !! re = None ∧
     (∀ re', ¬ rule_entity_of (history (w_db w)) rule ent re') ∧
     history (w_db w') = upd_entities (insert re
       {| ere_RuleID := rule; ere_EntityType := etype; ere_EntityInstanceID := ent |})
       (history (w_db w))).
Proof.
  intros Hwf Hh. unfold find_rule_entity. simpl.
  unfold mbind, prog_bind, try, GetLatestEvalStateForRuleEntity, select.
  match goal with |- context [query ?f w] =>
    destruct (query_honest f w Hh) as [(e & fs & -> & He & _)|(fs & -> & _)] end.
  { simpl. by rewrite He. }
  simpl. destruct (latest_of (w_db w) rule ent) as [|[id s] rest] eqn:Hl; simpl.
  - intros Hq. apply wrapf_Ok, InsertEvaluationRuleEntity_Ok in Hq as (Hn & Hhist & Hsame). split.
    + exact (same_but_history_trans w (set_faults fs w) w' (same_but_history_refl w) Hsame).
    + right. split_and!; try done. by apply latest_of_None.
  - intros [= <- <-].
    destruct (latest_of_Some (w_db w) rule ent id s) as (re' & l & Hre & Hla & Hid & Hs).
    { rewrite Hl. by left. }
    destruct (wf_latest _ Hwf re' l Hla) as (s' & Hs' & Hre').
    simpl in *. rewrite Hid in Hs'. assert (s' = s) as -> by congruence. rewrite Hre'.
    split; [exact (same_but_history_refl w)|]. left. by rewrite Hla.
Qed.
End statements.

(** Compute the fields of an updated history, and read the parameters of a
    statement. *)
Ltac hist_simpl :=
  cbn [upd_entities upd_statuses upd_latest upd_outputs upd_remediations upd_alerts
       h_entities h_statuses h_latest h_outputs h_remediations h_alerts] in *.
Ltac arg_fields :=
  cbn [ul_RuleEntityID ul_EvaluationHistoryID ul_ProfileID is_RuleEntityID is_Status
       is_Details is_Checkpoint uo_ID uo_Output uo_Debug] in *.

Section store_lemmas.
Context `{UuidLib} `{RandomUuid} `{TemplateEngine} `{JsonAny}.

Lemma createNewStatus_Ok re profile status details cp w w' id :
  createNewStatus re profile status details cp w = (w', Ok id) →
  ∃ c, cp = Some c ∧ h_statuses (history (w_db w)) !! id = None ∧
    is_Some (h_entities (history (w_db w)) !! re) ∧
    history (w_db w') =
      upd_latest (insert re
        {| la_EvaluationHistoryID := id;
           la_ProfileID := from_option la_ProfileID profile (h_latest (history (w_db w)) !! re) |})
      (upd_statuses (insert id
        {| es_RuleEntityID := re; es_Status := status; es_Details := details;
           es_EvaluationTime := w_now w; es_Checkpoint := c |}) (history (w_db w))) ∧
    same_but_history w w'.
Proof.
  unfold createNewStatus. intros Hrun.
  apply prog_bind_Ok in Hrun as (w1 & id1 & Hi & Hrun).
  apply prog_bind_Ok in Hrun as (w2 & [] & Hu & Hrun). injection Hrun as <- <-.
  apply InsertEvaluationStatus_Ok in Hi as (c & Hc & Hn & Hre & Hh1 & Hs1).
  apply UpsertLatest_Ok in Hu as (Hh2 & Hs2). arg_fields.
  exists c. split_and!; try done; [|by eapply same_but_history_trans].
  rewrite Hh2, Hh1. done.
Qed.

(** The row of the output table, if the output is there and marshals. *)
Definition output_row (output : option any) : option EvaluationOutput :=
  match output with
  | None => None
  | Some out => match json_Marshal out with
                | inl js => Some {| eo_Output := Some js; eo_Debug := None |}
                | inr _ => None
                end
  end.

Lemma store_output_Ok re id output w w' :
  h_outputs (history (w_db w)) !! id = None →
  store_output re id output w = (w', Ok tt) →
  history (w_db w') = upd_outputs (λ t, match output_row output with
                                        | Some o => <[id := o]> t
                                        | None => t
                                        end) (history (w_db w)) ∧
  same_but_history w w'.
Proof.
  intros Hn. unfold store_output, output_row.
  destruct output as [out|]; [destruct (json_Marshal out) as [js|e]|];
    try (intros [= <-]; split; [by destruct (history (w_db w))|apply same_but_history_refl]).
  intros Hrun. apply wrapf_Ok in Hrun. by apply UpsertEvaluationOutput_Ok in Hrun.
Qed.

(** The status a stored evaluation is given. *)
Definition new_status (re : UUID) (err : error) (checkpoint : string) (now : Z)
    : EvaluationStatus :=
  {| es_RuleEntityID := re; es_Status := ErrorAsEvalStatus err;
     es_Details := ErrorAsEvalDetails err; es_EvaluationTime := now;
     es_Checkpoint := checkpoint |}.

Lemma StoreEvaluationStatus_Ok rule profile etype ent err cp output w w' id :
  history_wf (history (w_db w)) → honest_faults w →
  StoreEvaluationStatus rule profile etype ent err cp output w = (w', Ok id) →
  ∃ re c, cp = Some c ∧
    stored (history (w_db w)) (history (w_db w')) rule ent profile etype
      (new_status re err c (w_now w)) id (output_row output) ∧
    same_but_history w w'.
Proof.
  intros Hwf Hh Hrun. unfold StoreEvaluationStatus in Hrun. cbv zeta in Hrun.
  apply prog_bind_Ok in Hrun as (w1 & re & Hf & Hrun).
  apply prog_bind_Ok in Hrun as (w2 & id2 & Hc & Hrun). apply wrapf_Ok in Hc.
  apply prog_bind_Ok in Hrun as (w3 & [] & Ho & Hrun). injection Hrun as <- <-.
  apply find_rule_entity_Ok in Hf as (Hs1 & Hf); [|done..].
  apply createNewStatus_Ok in Hc as (c & Hcp & Hn & _ & Hh2 & Hs2).
  assert (Hst : h_statuses (history (w_db w1)) = h_statuses (history (w_db w)) ∧
    h_latest (history (w_db w1)) = h_latest (history (w_db w)) ∧
    h_outputs (history (w_db w1)) = h_outputs (history (w_db w)) ∧
    h_remediations (history (w_db w1)) = h_remediations (history (w_db w)) ∧
    h_alerts (history (w_db w1)) = h_alerts (history (w_db w)))
    by (destruct Hf as [(_ & _ & ->)|(_ & _ & ->)]; done).
  destruct Hst as (Hst & Hla & Hou & Hrm & Hal). rewrite Hst in Hn.
  assert (Hno : h_outputs (history (w_db w)) !! id2 = None).
  { apply eq_None_not_Some. intros [o Hx]. destruct (wf_outputs _ Hwf _ _ Hx). congruence. }
  apply store_output_Ok in Ho as (Hh3 & Hs3); [|rewrite Hh2; hist_simpl; congruence].
  exists re, c. split_and!; [done| |eauto using same_but_history_trans].
  exists re, (from_option la_ProfileID profile (h_latest (history (w_db w)) !! re)).
  assert (Hnow : w_now w1 = w_now w) by apply Hs1.
  split_and!; [done|done| |rewrite Hh3, Hh2; hist_simpl; rewrite ?Hst, ?Hla, ?Hou, ?Hrm, ?Hal, ?Hnow..];
    try done.
  rewrite Hh3, Hh2. hist_simpl.
  destruct Hf as [(Hre & [l Hl] & ->)|(Hre & Hno' & ->)]; [left|right].
  - split_and!; [done| |done]. exists l. by rewrite Hl.
  - assert (Hnl : h_latest (history (w_db w)) !! re = None).
    { apply eq_None_not_Some. intros [l Hl]. destruct (wf_latest _ Hwf _ _ Hl) as (s & Hs & <-).
      destruct (wf_status _ Hwf _ _ Hs). congruence. }
    rewrite Hnl. done.
Qed.
End store_lemmas.
