(* ===== verification/EntityDb.v ===== *)
(** * Entities and their properties: statements

    internal/db/entities.sql.go, entity_helpers.go and the provider query of
    internal/db/providers.sql.go, as programs on the tables.  The deletion of an
    entity takes with it what the migrations declare with [ON DELETE CASCADE]:
    the entities that originate from it, the properties, the lock, the waiting
    event and the whole evaluation history of each. *)

From S2P Require Import Prelude GoErrors GoMonad GoStrings Uuid DbTypes Properties EntityMessage.
From S2P Require Import Database EntityModels HistoryDb HistoryStore.
From Stdlib Require Import Ascii.
Local Open Scope string_scope.

(** ** entity_helpers.go *)

Definition propValueV1 : string := "v1".
Definition ErrBadPropVersion : gerr :=
  ENew "db.ErrBadPropVersion" "unexpected property version".

(** encoding/json of a [PropertyWrapper] (a version and a value) and the cast to
    [JSONB] and back; the operator [@>] on two of them. *)
Class PropertyJSON `{Structpb} := {
  wrapper_Marshal : string → goval → string + gerr;
  wrapper_Unmarshal : string → (string * goval) + gerr;
  jsonb_contains : string → string → bool;
  wrapper_roundtrip : ∀ version value, ascii_string version = true → json_flat value →
    ∃ s, wrapper_Marshal version value = inl s ∧ wrapper_Unmarshal s = inl (version, value);
  (** a string contains itself only *)
  contains_string : ∀ a b sa sb, wrapper_Marshal propValueV1 (GString a) = inl sa →
    wrapper_Marshal propValueV1 (GString b) = inl sb →
    jsonb_contains sa sb = String.eqb a b;
}.

Section properties.
Context `{PropertyJSON}.

Definition propValueFromDb (rawValue expVersion : string) : res goval :=
  match wrapper_Unmarshal rawValue with
  | inr err => Err err
  | inl (version, value) =>
      if negb (String.eqb version expVersion) then Err ErrBadPropVersion else Ok value
  end.

Definition PropValueToDbV1 (value : goval) : res string :=
  match wrapper_Marshal propValueV1 value with inl s => Ok s | inr err => Err err end.
Definition PropValueFromDbV1 (rawValue : string) : res goval :=
  propValueFromDb rawValue propValueV1.

(** *** Statements on [properties] *)

Definition UpsertProperty (entityID : UUID) (key value : string) : prog World unit :=
  query (λ w,
    let d := w_db w in
    if bool_decide (is_Some (entity_instances d !! entityID)) then
      (set_db (set_properties
         (<[(entityID, key) := {| pr_Value := value; pr_UpdatedAt := w_now w |}]> (properties d)) d) w,
       Ok tt)
    else (w, Err ForeignKeyViolation)).

Definition UpsertPropertyValueV1 (entityID : UUID) (key : string) (value : goval)
    : prog World unit :=
  jsonVal ← lift (PropValueToDbV1 value);
  UpsertProperty entityID key jsonVal.

Definition DeleteProperty (entityID : UUID) (key : string) : prog World unit :=
  query (λ w, (set_db (set_properties (delete (entityID, key) (properties (w_db w))) (w_db w)) w,
               Ok tt)).

Definition DeleteAllPropertiesForEntity (entityID : UUID) : prog World unit :=
  query (λ w,
    (set_db (set_properties (filter (λ p, p.1.1 ≠ entityID) (properties (w_db w))) (w_db w)) w,
     Ok tt)).

(** The rows of an entity, by key. *)
Definition properties_of (d : Db) (entityID : UUID) : list (string * Property) :=
  omap (λ p, if bool_decide (p.1.1 = entityID) then Some (p.1.2, p.2) else None)
    (map_to_list (properties d)).

Definition GetAllPropertiesForEntity (entityID : UUID) : prog World (list (string * Property)) :=
  select (λ w, Ok (properties_of (w_db w) entityID)).

Definition has_value (d : Db) (entityID : UUID) (key value : string) : bool :=
  match properties d !! (entityID, key) with
  | Some row => jsonb_contains (pr_Value row) value
  | None => false
  end.

(** A nil project or provider is any. *)
Definition GetTypedEntitiesByProperty (entType : Entities) (projectID providerID : UUID)
    (key value : string) : prog World (list (UUID * EntityInstance)) :=
  select (λ w,
    let d := w_db w in
    Ok (filter (λ p,
      ei_EntityType p.2 = entType ∧
      (projectID = uuid_Nil ∨ ei_ProjectID p.2 = projectID) ∧
      (providerID = uuid_Nil ∨ ei_ProviderID p.2 = providerID) ∧
      has_value d p.1 key value = true) (map_to_list (entity_instances d)))).

Definition GetTypedEntitiesByPropertyV1 (entType : Entities) (key : string) (value : goval)
    (projectID providerID : UUID) : prog World (list (UUID * EntityInstance)) :=
  jsonVal ← lift (PropValueToDbV1 value);
  GetTypedEntitiesByProperty entType projectID providerID key jsonVal.
End properties.

(** ** Statements on [entity_instances] and [providers] *)

Record GetEntityByNameParams := {
  gn_ProjectID : UUID; gn_EntityType : Entities; gn_Name : string; gn_ProviderID : UUID;
}.

(** The four columns together are unique. *)
Definition entity_key (e : EntityInstance) : UUID * UUID * Entities * string :=
  (ei_ProjectID e, ei_ProviderID e, ei_EntityType e, ei_Name e).

Definition GetEntityByName (arg : GetEntityByNameParams) : prog World (UUID * EntityInstance) :=
  select (λ w,
    match filter (λ p, entity_key p.2
             = (gn_ProjectID arg, gn_ProviderID arg, gn_EntityType arg, gn_Name arg))
             (map_to_list (entity_instances (w_db w))) with
    | row :: _ => Ok row
    | [] => Err ErrNoRows
    end).

Definition GetProviderByID (id : UUID) : prog World Provider :=
  select (λ w, match providers (w_db w) !! id with Some p => Ok p | None => Err ErrNoRows end).

(** The first provider of that name, whatever its case, in one of the projects. *)
Definition GetProviderByName (name : string) (projects : list UUID)
    : prog World (UUID * Provider) :=
  select (λ w,
    match filter (λ p, Strings.ToLower (prv_Name p.2) = Strings.ToLower name ∧
                       prv_ProjectID p.2 ∈ projects) (map_to_list (providers (w_db w))) with
    | row :: _ => Ok row
    | [] => Err ErrNoRows
    end).

(** [GetFeatureInProject], of which only the presence matters. *)
Definition GetFeatureInProject (projectID : UUID) (feature : string) : prog World unit :=
  select (λ w, if bool_decide ((projectID, feature) ∈ entitlements (w_db w)) then Ok tt
               else Err ErrNoRows).

Definition GetEntitiesByProjectHierarchy (projects : list UUID)
    : prog World (list (UUID * EntityInstance)) :=
  select (λ w, Ok (filter (λ p, ei_ProjectID p.2 ∈ projects)
                     (map_to_list (entity_instances (w_db w))))).

Definition GetEntitiesByType (entType : Entities) (providerID : UUID) (projects : list UUID)
    : prog World (list (UUID * EntityInstance)) :=
  select (λ w, Ok (filter (λ p, ei_EntityType p.2 = entType ∧ ei_ProviderID p.2 = providerID ∧
                                ei_ProjectID p.2 ∈ projects)
                     (map_to_list (entity_instances (w_db w))))).

(** The references of a new row. *)
Definition entity_allowed (d : Db) (e : EntityInstance) : bool :=
  bool_decide (ei_ProjectID e ∈ projects d) &&
  bool_decide (is_Some (providers d !! ei_ProviderID e)) &&
  match ei_OriginatedFrom e with
  | Some o => bool_decide (is_Some (entity_instances d !! o))
  | None => true
  end.

(** A row with the same id is returned as it is. *)
Definition CreateOrEnsureEntityByID (id : UUID) (arg : EntityInstance)
    : prog World EntityInstance :=
  query (λ w,
    let d := w_db w in
    match entity_instances d !! id with
    | Some e => (w, Ok e)
    | None =>
        if bool_decide (map_Exists (λ _ e, entity_key e = entity_key arg) (entity_instances d))
        then (w, Err UniqueViolation)
        else if entity_allowed d arg
        then (set_db (set_entities (<[id := arg]> (entity_instances d)) d) w, Ok arg)
        else (w, Err ForeignKeyViolation)
    end).

(** *** Deletion *)

(** One generation of the entities that originate from [ids]. *)
Definition originates_in (ids : gset UUID) (e : EntityInstance) : bool :=
  match ei_OriginatedFrom e with Some o => bool_decide (o ∈ ids) | None => false end.

Definition originated (t : gmap UUID EntityInstance) (ids : gset UUID) : gset UUID :=
  ids ∪ dom (filter (λ p : UUID * EntityInstance, originates_in ids p.2 = true) t).

Definition descendants (fuel : nat) (t : gmap UUID EntityInstance) (ids : gset UUID) : gset UUID :=
  grow (originated t) fuel ids.

(** The history without the rule entities [res] and their statuses. *)
Definition gone_statuses (res : gset UUID) (h : History) : gset UUID :=
  dom (filter (λ p : UUID * EvaluationStatus, es_RuleEntityID p.2 ∈ res) (h_statuses h)).

Definition drop_rule_entities (res : gset UUID) (h : History) : History :=
  let gone := gone_statuses res h in
  {| h_entities := filter (λ p, p.1 ∉ res) (h_entities h);
     h_statuses := filter (λ p, p.1 ∉ gone) (h_statuses h);
     h_latest := filter (λ p, p.1 ∉ res) (h_latest h);
     h_outputs := filter (λ p, p.1 ∉ gone) (h_outputs h);
     h_remediations := filter (λ e, ev_EvaluationID e ∉ gone) (h_remediations h);
     h_alerts := filter (λ e, ev_EvaluationID e ∉ gone) (h_alerts h) |}.

Definition rule_entities_of (ids : gset UUID) (h : History) : gset UUID :=
  dom (filter (λ p : UUID * EvaluationRuleEntity, ere_EntityInstanceID p.2 ∈ ids) (h_entities h)).

Definition delete_entities (ids : gset UUID) (d : Db) : Db :=
  set_history (drop_rule_entities (rule_entities_of ids (history d)) (history d))
    (set_properties (filter (λ p, p.1.1 ∉ ids) (properties d))
      (set_locks (filter (λ p, p.1 ∉ ids) (entity_execution_lock d))
        (set_flush (filter (λ p, p.1 ∉ ids) (flush_cache d))
          (set_entities (filter (λ p, p.1 ∉ ids) (entity_instances d)) d)))).

(** Every row of the latest statuses refers to a status; that reference has no
    cascade, and is checked at the end of the statement. *)
Definition latest_refer (h : History) : Prop :=
  map_Forall (λ _ l, is_Some (h_statuses h !! la_EvaluationHistoryID l)) (h_latest h).

#[export] Instance latest_refer_dec h : Decision (latest_refer h).
Proof. unfold latest_refer. apply _. Defined.

(** An id that is not there, or is another project's, deletes nothing. *)
Definition DeleteEntity (id projectID : UUID) : prog World unit :=
  query (λ w,
    let d := w_db w in
    match entity_instances d !! id with
    | Some e =>
        if bool_decide (ei_ProjectID e = projectID) then
          let d' := delete_entities
                      (descendants (size (entity_instances d)) (entity_instances d) {[id]}) d in
          if bool_decide (latest_refer (history d')) then (set_db d' w, Ok tt)
          else (w, Err ForeignKeyViolation)
        else (w, Ok tt)
    | None => (w, Ok tt)
    end).

(** ** Referential integrity *)

Record entities_wf (d : Db) : Prop := {
  ew_unique : ∀ i j a b, entity_instances d !! i = Some a → entity_instances d !! j = Some b →
    entity_key a = entity_key b → i = j;
  ew_origin : ∀ i e o, entity_instances d !! i = Some e → ei_OriginatedFrom e = Some o →
    is_Some (entity_instances d !! o);
  ew_project : ∀ i e, entity_instances d !! i = Some e → ei_ProjectID e ∈ projects d;
  ew_provider : ∀ i e, entity_instances d !! i = Some e → is_Some (providers d !! ei_ProviderID e);
  ew_properties : ∀ k p, properties d !! k = Some p → is_Some (entity_instances d !! k.1);
  ew_locks : ∀ i l, entity_execution_lock d !! i = Some l → is_Some (entity_instances d !! i);
  ew_flush : ∀ i f, flush_cache d !! i = Some f → is_Some (entity_instances d !! i);
  ew_rules : ∀ i r, evaluation_rule_entities d !! i = Some r →
    is_Some (entity_instances d !! ere_EntityInstanceID r);
}.

(** An entity descends from itself and from what its origin descends from. *)
Inductive descends (t : gmap UUID EntityInstance) (root : UUID) : UUID → Prop :=
| descends_refl : descends t root root
| descends_step j e o : t !! j = Some e → ei_OriginatedFrom e = Some o → descends t root o →
    descends t root j.

(** ** Lemmas *)

Lemma originates_in_true ids e :
  originates_in ids e = true ↔ ∃ o, ei_OriginatedFrom e = Some o ∧ o ∈ ids.
Proof.
  unfold originates_in. destruct (ei_OriginatedFrom e) as [o|].
  - rewrite bool_decide_eq_true. naive_solver.
  - naive_solver.
Qed.

Lemma elem_of_originated t ids j :
  j ∈ originated t ids ↔
  j ∈ ids ∨ ∃ e o, t !! j = Some e ∧ ei_OriginatedFrom e = Some o ∧ o ∈ ids.
Proof.
  unfold originated. rewrite elem_of_union, elem_of_dom. split.
  - intros [Hj|[e He]]; [by left|]. apply map_lookup_filter_Some in He as [He Ho].
    apply originates_in_true in Ho as (o & ? & ?). right. by exists e, o.
  - intros [Hj|(e & o & He & Ho & Hin)]; [by left|]. right. exists e.
    apply map_lookup_filter_Some. split; [done|]. apply originates_in_true. by exists o.
Qed.

Lemma originated_incl t ids : ids ⊆ originated t ids.
Proof. unfold originated. set_solver. Qed.

Lemma descendants_sound fuel t root ids :
  (∀ j, j ∈ ids → descends t root j) → ∀ j, j ∈ descendants fuel t ids → descends t root j.
Proof.
  apply (grow_ind (originated t) (descends t root)). clear ids.
  intros ids Hids j [Hj|(e & o & He & Ho & Hin)]%elem_of_originated; [by apply Hids|].
  eapply descends_step; eauto.
Qed.

Lemma descendants_incl fuel t ids : ids ⊆ descendants fuel t ids.
Proof. apply grow_incl, originated_incl. Qed.

(** As many generations as there are entities are enough. *)
Lemma descendants_closed fuel t (ids : gset UUID) :
  (size (dom t ∖ ids) ≤ fuel)%nat → originated t (descendants fuel t ids) = descendants fuel t ids.
Proof.
  apply grow_closed; [apply originated_incl|]. clear ids. intros ids j.
  intros [Hj|(e & o & He & _)]%elem_of_originated; [set_solver|].
  apply elem_of_dom_2 in He. set_solver.
Qed.

Lemma descendants_step fuel t (ids : gset UUID) j e o :
  (size (dom t ∖ ids) ≤ fuel)%nat → t !! j = Some e → ei_OriginatedFrom e = Some o →
  o ∈ descendants fuel t ids → j ∈ descendants fuel t ids.
Proof.
  intros Hs He Ho Hin. rewrite <-(descendants_closed fuel t ids Hs).
  apply elem_of_originated. right. eauto.
Qed.

Section drop.
Context (res : gset UUID) (h : History).

Abbreviation gone := (gone_statuses res h).

Lemma elem_of_gone id s :
  h_statuses h !! id = Some s → id ∈ gone ↔ es_RuleEntityID s ∈ res.
Proof.
  intros Hs. unfold gone_statuses. rewrite elem_of_dom. split.
  - intros [s' [Hs' Hin]%map_lookup_filter_Some]. rewrite Hs in Hs'. by injection Hs' as <-.
  - intros Hin. exists s. by apply map_lookup_filter_Some.
Qed.

Lemma kept_status id s :
  h_statuses h !! id = Some s → (es_RuleEntityID s ∉ res) →
  h_statuses (drop_rule_entities res h) !! id = Some s.
Proof.
  intros Hs Hn. apply map_lookup_filter_Some. split; [done|]. simpl.
  by rewrite (elem_of_gone id s Hs).
Qed.

Lemma kept_of_gone id :
  is_Some (h_statuses h !! id) → (id ∉ gone) →
  is_Some (h_statuses (drop_rule_entities res h) !! id).
Proof. intros [s Hs] Hn. exists s. by apply map_lookup_filter_Some. Qed.

Lemma drop_rule_entities_wf : history_wf h → history_wf (drop_rule_entities res h).
Proof.
  intros Hwf. split.
  - intros re l [Hl Hn]%map_lookup_filter_Some. destruct (wf_latest _ Hwf _ _ Hl) as (s & Hs & He).
    exists s. split; [|done]. apply kept_status; [done|]. by rewrite He.
  - intros id s [Hs Hn]%map_lookup_filter_Some. destruct (wf_status _ Hwf _ _ Hs) as [row Hrow].
    exists row. apply map_lookup_filter_Some. split; [done|]. simpl in *.
    by rewrite <-(elem_of_gone id s Hs).
  - intros re row [Hrow Hn]%map_lookup_filter_Some.
    destruct (wf_entity _ Hwf _ _ Hrow) as [l Hl]. exists l. by apply map_lookup_filter_Some.
  - intros re1 re2 r1 r2 [Hr1 _]%map_lookup_filter_Some [Hr2 _]%map_lookup_filter_Some.
    by apply (wf_unique _ Hwf).
  - intros id o [Ho Hn]%map_lookup_filter_Some. apply kept_of_gone; [|done].
    by eapply wf_outputs.
  - intros e [Hn He]%list_elem_of_filter. apply kept_of_gone; [|done]. by apply wf_remediations.
  - intros e [Hn He]%list_elem_of_filter. apply kept_of_gone; [|done]. by apply wf_alerts.
Qed.
End drop.

Lemma delete_entities_wf ids d :
  entities_wf d →
  (∀ j e o, entity_instances d !! j = Some e → ei_OriginatedFrom e = Some o → o ∈ ids → j ∈ ids) →
  entities_wf (delete_entities ids d).
Proof.
  intros Hwf Hclosed.
  assert (Hkeep : ∀ i, is_Some (entity_instances d !! i) → (i ∉ ids) →
    is_Some (entity_instances (delete_entities ids d) !! i)).
  { intros i [e He] Hn. exists e. by apply map_lookup_filter_Some. }
  split.
  - intros i j a b [Ha _]%map_lookup_filter_Some [Hb _]%map_lookup_filter_Some.
    by apply (ew_unique _ Hwf).
  - intros i e o [He Hn]%map_lookup_filter_Some Ho. apply Hkeep; [exact (ew_origin _ Hwf _ _ _ He Ho)|].
    intros Hin. apply Hn. by eapply Hclosed.
  - intros i e [He _]%map_lookup_filter_Some. exact (ew_project _ Hwf _ _ He).
  - intros i e [He _]%map_lookup_filter_Some. exact (ew_provider _ Hwf _ _ He).
  - intros k p [Hp Hn]%map_lookup_filter_Some. apply Hkeep; [exact (ew_properties _ Hwf _ _ Hp)|done].
  - intros i l [Hl Hn]%map_lookup_filter_Some. apply Hkeep; [exact (ew_locks _ Hwf _ _ Hl)|done].
  - intros i f [Hf Hn]%map_lookup_filter_Some. apply Hkeep; [exact (ew_flush _ Hwf _ _ Hf)|done].
  - intros i r [Hr Hn]%map_lookup_filter_Some. apply Hkeep; [exact (ew_rules _ Hwf _ _ Hr)|].
    intros Hin. apply Hn. simpl. apply elem_of_dom. exists r. by apply map_lookup_filter_Some.
Qed.

Lemma latest_refer_wf h : history_wf h → latest_refer h.
Proof. intros Hwf re l Hl. destruct (wf_latest _ Hwf _ _ Hl) as (s & Hs & _). by exists s. Qed.

(** A new row is inserted when its key is free and its references are there. *)
Lemma CreateOrEnsure_Ok id arg w w' e :
  CreateOrEnsureEntityByID id arg w = (w', Ok e) → entity_instances (w_db w) !! id = None →
  e = arg ∧ w_db w' = set_entities (<[id := arg]> (entity_instances (w_db w))) (w_db w) ∧
  (entities_wf (w_db w) → entities_wf (w_db w')).
Proof.
  intros Hrun Hnew. unfold CreateOrEnsureEntityByID in Hrun.
  match type of Hrun with query ?f _ = _ =>
    destruct (query_cases f w) as [(e' & fs & Hc)|(fs & Hc)] end; rewrite Hc in Hrun; clear Hc;
    [done|].
  simpl in Hrun. rewrite Hnew in Hrun.
  case_bool_decide as Hu; [done|]. destruct (entity_allowed (w_db w) arg) eqn:Ha; [|done].
  injection Hrun as <- <-. split_and!; [done..|]. intros Hwf. simpl.
  unfold entity_allowed in Ha. rewrite !andb_true_iff, !bool_decide_eq_true in Ha.
  destruct Ha as [[Hp Hv] Ho].
  assert (Hkeep : ∀ i, is_Some (entity_instances (w_db w) !! i) →
    is_Some (<[id := arg]> (entity_instances (w_db w)) !! i)).
  { intros i Hi. destruct (decide (i = id)) as [->|Hne]; [by rewrite lookup_insert_eq|].
    by rewrite lookup_insert_ne. }
  assert (Hfree : ∀ i a, entity_instances (w_db w) !! i = Some a → entity_key a ≠ entity_key arg).
  { intros i a Hi Hk. apply Hu. by exists i, a. }
  split; simpl; try (intros; apply Hkeep; by eapply Hwf).
  - intros i j a b [[<- <-]|[Hi Hai]]%lookup_insert_Some [[<- <-]|[Hj Hbj]]%lookup_insert_Some Hk;
      [done|by destruct (Hfree _ _ Hbj)|by destruct (Hfree _ _ Hai)|].
    exact (ew_unique _ Hwf _ _ _ _ Hai Hbj Hk).
  - intros i a o [[<- <-]|[Hi Hai]]%lookup_insert_Some Hao; apply Hkeep.
    + rewrite Hao in Ho. by apply bool_decide_eq_true in Ho.
    + exact (ew_origin _ Hwf _ _ _ Hai Hao).
  - intros i a [[<- <-]|[Hi Hai]]%lookup_insert_Some; [done|exact (ew_project _ Hwf _ _ Hai)].
  - intros i a [[<- <-]|[Hi Hai]]%lookup_insert_Some; [done|exact (ew_provider _ Hwf _ _ Hai)].
  - intros k p Hk. apply Hkeep. exact (ew_properties _ Hwf _ _ Hk).
  - intros i l Hi. apply Hkeep. exact (ew_locks _ Hwf _ _ Hi).
  - intros i f Hi. apply Hkeep. exact (ew_flush _ Hwf _ _ Hi).
  - intros i r Hi. apply Hkeep. exact (ew_rules _ Hwf _ _ Hi).
Qed.

(** What the statement did: nothing, or delete the descendants. *)
Lemma DeleteEntity_run id projectID w w' r :
  DeleteEntity id projectID w = (w', r) →
  (w_db w' = w_db w ∧ (r = Ok tt → ∀ e, entity_instances (w_db w) !! id = Some e →
     ei_ProjectID e ≠ projectID)) ∨
  (r = Ok tt ∧ ∃ e, entity_instances (w_db w) !! id = Some e ∧ ei_ProjectID e = projectID ∧
     w_db w' = delete_entities (descendants (size (entity_instances (w_db w)))
                                  (entity_instances (w_db w)) {[id]}) (w_db w)).
Proof.
  unfold DeleteEntity.
  match goal with |- query ?f _ = _ → _ =>
    destruct (query_cases f w) as [(e & fs & ->)|(fs & ->)] end; [intros [= <- <-]; by left|].
  simpl. destruct (entity_instances (w_db w) !! id) as [e|] eqn:He;
    [|intros [= <- <-]; by left].
  case_bool_decide as Hp; [|intros [= <- <-]; left; split; [done|]; by intros _ ? [= <-]].
  case_bool_decide; intros [= <- <-]; [right|by left]. split; [done|]. by exists e.
Qed.

Lemma deleted_gone d id :
  entity_instances (delete_entities (descendants (size (entity_instances d))
    (entity_instances d) {[id]}) d) !! id = None.
Proof.
  apply map_lookup_filter_None. right. intros e _ Hn. apply Hn. simpl.
  apply descendants_incl. by apply elem_of_singleton.
Qed.

Lemma GetEntityByID_run id w :
  ∃ fs r, GetEntityByID id w = (set_faults fs w, r) ∧ (∀ m, r ≠ Panic m) ∧
    (∀ ent, r = Ok ent → entity_instances (w_db w) !! id = Some ent).
Proof.
  unfold GetEntityByID, select.
  match goal with |- context [query ?f w] =>
    destruct (query_cases f w) as [(e & fs & ->)|(fs & ->)] end.
  - by exists fs, (Err e).
  - simpl. exists fs. destruct (entity_instances (w_db w) !! id) as [ent|] eqn:He;
      eexists; (split_and!; [reflexivity|done|]); [by intros ? [= <-]|done].
Qed.

(** C25: deleting an entity keeps the tables whole.  Whatever the statement does,
    every reference between the tables still finds its row and the history stays
    well formed; a deletion that succeeds leaves no row of the entity if it was
    the project's, and takes away no entity but those that descend from it. *)
Theorem delete_entity_integrity id projectID w w' r
    (Hrun : DeleteEntity id projectID w = (w', r))
    (Hwf : entities_wf (w_db w)) (Hh : history_wf (history (w_db w))) :
  entities_wf (w_db w') ∧ history_wf (history (w_db w')) ∧ (w_faults w = [] → r = Ok tt) ∧
  (r = Ok tt → ∀ e, entity_instances (w_db w') !! id = Some e → ei_ProjectID e ≠ projectID) ∧
  (∀ j e, entity_instances (w_db w) !! j = Some e → entity_instances (w_db w') !! j = Some e ∨
     (entity_instances (w_db w') !! j = None ∧ descends (entity_instances (w_db w)) id j)).
Proof.
  unfold DeleteEntity in Hrun.
  match type of Hrun with query ?f _ = _ =>
    destruct (query_faults f w) as [(e & fs & Hf & Hq)|(fs & _ & Hq)] end;
    rewrite Hq in Hrun; clear Hq.
  { injection Hrun as <- <-. split_and!; [done|done|by rewrite Hf|done|by left]. }
  simpl in Hrun.
  destruct (entity_instances (w_db w) !! id) as [e|] eqn:He.
  2:{ injection Hrun as <- <-. split_and!; [done..| |by left]. intros _ e He'.
      simpl in He'. by rewrite He in He'. }
  case_bool_decide as Hp; [|injection Hrun as <- <-; split_and!; [done..| |by left];
    intros _ e' He'; simpl in He'; rewrite He in He'; by injection He' as <-].
  set (t := entity_instances (w_db w)) in *.
  set (ids := descendants (size t) t {[id]}) in *.
  assert (Hs : (size (dom t ∖ {[id]}) ≤ size t)%nat).
  { rewrite <-size_dom. apply subseteq_size. set_solver. }
  assert (Hh' : history_wf (history (delete_entities ids (w_db w)))).
  { exact (drop_rule_entities_wf (rule_entities_of ids (history (w_db w))) _ Hh). }
  rewrite bool_decide_eq_true_2 in Hrun by by apply latest_refer_wf. injection Hrun as <- <-.
  split_and!; [|exact Hh'|done| |].
  - apply delete_entities_wf; [done|]. intros j e' o Hj Ho Hin. by eapply descendants_step.
  - intros _ e' [_ Hn]%map_lookup_filter_Some. destruct Hn. simpl. apply descendants_incl.
    by apply elem_of_singleton.
  - intros j e' Hj. destruct (decide (j ∈ ids)) as [Hin|Hn].
    + right. split; [apply map_lookup_filter_None; right; intros ? _ Hx; by apply Hx|].
      eapply descendants_sound; [|exact Hin]. intros i ->%elem_of_singleton. constructor.
    + left. by apply map_lookup_filter_Some.
Qed.

(** ** The values of properties, for the witnesses *)

Section instance.
#[local] Existing Instance ex_structpb.

(** A framed string, the rest after it. *)
Fixpoint frame (s rest : string) : string :=
  match s with
  | EmptyString => String "0"%char rest
  | String c s => String "1"%char (String c (frame s rest))
  end.
Fixpoint unframe (s : string) : option (string * string) :=
  match s with
  | String "0"%char rest => Some (EmptyString, rest)
  | String "1"%char (String c s) =>
      match unframe s with Some (s, rest) => Some (String c s, rest) | None => None end
  | _ => None
  end.

Lemma unframe_frame s rest : unframe (frame s rest) = Some (s, rest).
Proof. induction s as [|c s IH]; simpl; [done|]. by rewrite IH. Qed.

Lemma frame_inj s a b : frame s a = frame s b → a = b.
Proof.
  intros Hab. assert (unframe (frame s a) = Some (s, b)) as Hb by (rewrite Hab; apply unframe_frame).
  rewrite unframe_frame in Hb. by injection Hb.
Qed.

(** Strings and booleans as they are, the other values by their numbers. *)
Definition tagged (g : goval) : option string :=
  match g with
  | GString s => Some (String "s"%char s)
  | GBool b => Some (if b then "t" else "f")
  | g => match to_flat g with Some f => Some (String "#"%char (text_of f)) | None => None end
  end.
Definition untagged (s : string) : option goval :=
  match s with
  | String "s"%char s => Some (GString s)
  | String "t"%char _ => Some (GBool true)
  | String "f"%char _ => Some (GBool false)
  | String "#"%char s => match of_text s with Some f => Some (of_flat f) | None => None end
  | _ => None
  end.

Lemma untagged_tagged g : json_flat g → ∃ s, tagged g = Some s ∧ untagged s = Some g.
Proof.
  intros Hg%of_to_flat. unfold tagged, untagged.
  destruct g as [|[]|z|z|z|f|s|m|l|t]; try (eexists; split; reflexivity);
    destruct (to_flat _) as [fl|]; [|discriminate Hg|..|discriminate Hg];
    try discriminate Hg; injection Hg as Hg; (eexists; split; [done|]); cbv beta iota;
    rewrite of_text_of; by rewrite Hg.
Qed.

Definition ex_wrapper_Marshal (version : string) (value : goval) : string + gerr :=
  match tagged value with
  | Some s => inl (frame version s)
  | None => inr (EText "json: unsupported type")
  end.
Definition ex_wrapper_Unmarshal (s : string) : (string * goval) + gerr :=
  match unframe s with
  | Some (version, s) => match untagged s with
                         | Some value => inl (version, value)
                         | None => inr (EText "invalid JSON")
                         end
  | None => inr (EText "invalid JSON")
  end.

Lemma ex_wrapper_roundtrip version value :
  ascii_string version = true → json_flat value →
  ∃ s, ex_wrapper_Marshal version value = inl s ∧ ex_wrapper_Unmarshal s = inl (version, value).
Proof.
  intros _ (s & Hs & Hv)%untagged_tagged. unfold ex_wrapper_Marshal, ex_wrapper_Unmarshal.
  rewrite Hs. eexists. split; [done|]. by rewrite unframe_frame, Hv.
Qed.

Lemma ex_contains_string a b sa sb :
  ex_wrapper_Marshal propValueV1 (GString a) = inl sa →
  ex_wrapper_Marshal propValueV1 (GString b) = inl sb → String.eqb sa sb = String.eqb a b.
Proof.
  intros [= <-] [= <-]. destruct (String.eqb_spec a b) as [->|Hne]; [by apply String.eqb_refl|].
  apply String.eqb_neq. intros Heq%(frame_inj propValueV1). congruence.
Qed.

Definition ex_property_json : PropertyJSON :=
  {| wrapper_Marshal := ex_wrapper_Marshal; wrapper_Unmarshal := ex_wrapper_Unmarshal;
     jsonb_contains := String.eqb; wrapper_roundtrip := ex_wrapper_roundtrip;
     contains_string := ex_contains_string |}.
End instance.

(** A pull request and its repository: the deletion of the repository takes both. *)
Definition ex_family : Db :=
  set_entities (<[8%N := {| ei_EntityType := "pull_request"; ei_Name := "acme/app/1";
                            ei_ProjectID := 2%N; ei_ProviderID := 1%N;
                            ei_OriginatedFrom := Some 7%N |}]> (entity_instances ex_db)) ex_db.

Lemma ex_family_wf : entities_wf ex_family.
Proof.
  split; unfold ex_family, ex_db; simpl; try done.
  - intros i j a b Ha Hb Hk.
    apply lookup_insert_Some in Ha as [[<- <-]|[_ [<- <-]%lookup_singleton_Some]];
      apply lookup_insert_Some in Hb as [[<- <-]|[_ [<- <-]%lookup_singleton_Some]]; done.
  - intros i e o [[<- <-]|[_ [<- <-]%lookup_singleton_Some]]%lookup_insert_Some [= <-].
    eexists. by vm_compute.
  - intros i e [[<- <-]|[_ [<- <-]%lookup_singleton_Some]]%lookup_insert_Some; set_solver.
  - intros i e [[<- <-]|[_ [<- <-]%lookup_singleton_Some]]%lookup_insert_Some;
      eexists; by vm_compute.
Qed.

Lemma ex_family_history_wf : history_wf (history ex_family).
Proof. split; simpl; try done; by intros ? ?%elem_of_nil. Qed.

Lemma delete_entity_integrity_witness :
  ∃ w', DeleteEntity 7%N 2%N (ex_world ex_family []) = (w', Ok tt) ∧ entities_wf (w_db w') ∧
    entity_instances (w_db w') = ∅.
Proof.
  destruct (DeleteEntity 7%N 2%N (ex_world ex_family [])) as [w' r] eqn:Hrun.
  destruct (delete_entity_integrity _ _ _ _ _ Hrun ex_family_wf ex_family_history_wf)
    as (Hwf & _ & Hok & _).
  specialize (Hok eq_refl). subst r. exists w'. split; [done|]. split; [done|].
  vm_compute in Hrun. injection Hrun as <-. reflexivity.
Defined.
