(* ===== verification/ProfileDb.v ===== *)
(** * Profiles in the database: statements

    The queries of internal/db/profiles.sql.go, rule_instances.sql.go,
    selectors.sql.go, rule_types.sql.go and projects.sql.go that creating,
    changing, deleting and reading a profile makes, with the references, the
    uniqueness and the cascades of database/migrations/. *)

From S2P Require Import Prelude GoErrors GoMonad GoStrings Uuid DbTypes ProfileModels.
From S2P Require Import SelectorScan Database HistoryDb EntityDb.
Local Open Scope string_scope.

(** ** Projects and rule types *)

(** The project and its ancestors.  [UNION] drops what is there already, so a
    cycle of parents ends the recursion. *)
Fixpoint parents (fuel : nat) (d : Db) (seen : list UUID) (id : UUID) : list UUID :=
  match fuel with
  | O => []
  | S fuel =>
      if bool_decide (id ∈ projects d ∧ id ∉ seen) then
        id :: match parent_projects d !! id with
              | Some p => parents fuel d (id :: seen) p
              | None => []
              end
      else []
  end.

Definition ancestors (d : Db) (id : UUID) : list UUID := parents (S (size (projects d))) d [] id.

Definition GetParentProjects (id : UUID) : prog World (list UUID) :=
  select (λ w, Ok (ancestors (w_db w) id)).

(** A project that is no organization. *)
Definition GetProjectByID (id : UUID) : prog World UUID :=
  select (λ w, if bool_decide (id ∈ projects (w_db w) ∧ id ∉ organizations (w_db w))
               then Ok id else Err ErrNoRows).

Section statements.
Context `{PgText}.

Definition same_name (a b : string) : Prop := pg_lower a = pg_lower b.

#[export] Instance same_name_dec a b : Decision (same_name a b).
Proof. unfold same_name. apply _. Defined.

Definition rule_type_named (d : Db) (projects : list UUID) (name : string)
    : res (UUID * dbRuleType) :=
  match filter (λ p, rty_ProjectID p.2 ∈ projects ∧ same_name (rty_Name p.2) name)
          (map_to_list (rule_types d)) with
  | row :: _ => Ok row
  | [] => Err ErrNoRows
  end.

Definition GetRuleTypeByName (projects : list UUID) (name : string)
    : prog World (UUID * dbRuleType) :=
  select (λ w, rule_type_named (w_db w) projects name).

(** ** Reading profiles *)

(** A row joins a profile with one of its entities, or with null, and carries
    its selectors. *)
Record ProfileRow := {
  prw_ID : UUID; prw_Profile : dbProfile; prw_Entity : option (Entities * string);
  prw_Selectors : list dbProfileSelector;
}.

Definition entities_of (d : Db) (id : UUID) : list (Entities * string) :=
  omap (λ p, if bool_decide (p.1.1 = id) then Some (p.1.2, p.2) else None)
    (map_to_list (entity_profiles d)).

Section rows.
Context `{UuidLib} `{RecordOutput}.

(** The selectors as they are read; one that cannot be fails the query. *)
Definition selectors_of (d : Db) (id : UUID) : res (list dbProfileSelector) :=
  mapM (λ s, ProfileSelector_Scan (Some (row_text s)))
    (filter (λ s, dps_ProfileID s = id) (profile_selectors d)).

Definition rows_of (d : Db) (p : UUID * dbProfile) : res (list ProfileRow) :=
  selectors ← selectors_of d p.1;
  let row e := {| prw_ID := p.1; prw_Profile := p.2; prw_Entity := e;
                  prw_Selectors := selectors |} in
  mret (match entities_of d p.1 with
        | [] => [row None]
        | es => row ∘ Some <$> es
        end).

Definition profile_rows (P : UUID * dbProfile → Prop) `{∀ p, Decision (P p)} (d : Db)
    : res (list ProfileRow) :=
  rows ← mapM (rows_of d) (filter P (map_to_list (profiles d)));
  mret (concat rows).

Definition labels_match (inc exc labels : list string) : Prop :=
  ((inc = [] ∧ labels = []) ∨ inc = ["*"] ∨ (inc ≠ [] ∧ Forall (λ l, l ∈ labels) inc)) ∧
  (exc = [] ∨ Forall (λ l, l ∉ labels) exc).

#[export] Instance labels_match_dec inc exc labels : Decision (labels_match inc exc labels).
Proof. unfold labels_match. apply _. Defined.

Definition ListProfilesByProjectIDAndLabel (projectID : UUID) (inc exc : list string)
    : prog World (list ProfileRow) :=
  select (λ w, profile_rows (λ p, dpr_ProjectID p.2 = projectID ∧
                                  labels_match inc exc (dpr_Labels p.2)) (w_db w)).

Definition GetProfileByProjectAndID (projectID id : UUID) : prog World (list ProfileRow) :=
  select (λ w, profile_rows (λ p, dpr_ProjectID p.2 = projectID ∧ p.1 = id) (w_db w)).

Definition GetProfileByProjectAndName (projectID : UUID) (name : string)
    : prog World (list ProfileRow) :=
  select (λ w, profile_rows (λ p, dpr_ProjectID p.2 = projectID ∧
                                  same_name (dpr_Name p.2) name) (w_db w)).

(** One row for each profile. *)
Definition BulkGetProfilesByID (ids : list UUID)
    : prog World (list (UUID * dbProfile * list dbProfileSelector)) :=
  select (λ w,
    mapM (λ p, selectors ← selectors_of (w_db w) p.1; mret (p, selectors))
      (filter (λ p, p.1 ∈ ids) (map_to_list (profiles (w_db w))))).
End rows.

Definition first_profile (P : UUID * dbProfile → Prop) `{∀ p, Decision (P p)} (d : Db)
    : res (UUID * dbProfile) :=
  match filter P (map_to_list (profiles d)) with
  | row :: _ => Ok row
  | [] => Err ErrNoRows
  end.

Definition GetProfileByIDAndLock (projectID id : UUID) : prog World (UUID * dbProfile) :=
  select (λ w, first_profile (λ p, dpr_ProjectID p.2 = projectID ∧ p.1 = id) (w_db w)).

Definition GetProfileByNameAndLock (projectID : UUID) (name : string)
    : prog World (UUID * dbProfile) :=
  select (λ w, first_profile (λ p, dpr_ProjectID p.2 = projectID ∧
                                   same_name (dpr_Name p.2) name) (w_db w)).

Definition GetRuleInstancesEntityInProjects (entityType : Entities) (projects : list UUID)
    : prog World (list (UUID * dbRuleInstance)) :=
  select (λ w, Ok (filter (λ p, rin_EntityType p.2 = entityType ∧ rin_ProjectID p.2 ∈ projects)
                     (map_to_list (rule_instances (w_db w))))).

(** ** Writing profiles *)

Definition upd_policies (f : Policies → Policies) (w : World) : World :=
  set_db (set_policies (f (policies (w_db w))) (w_db w)) w.

Definition upd_rules (f : gmap UUID dbRuleInstance → gmap UUID dbRuleInstance) (p : Policies)
    : Policies :=
  {| p_rules := f (p_rules p); p_profiles := p_profiles p; p_entities := p_entities p;
     p_selectors := p_selectors p |}.
Definition upd_profiles (f : gmap UUID dbProfile → gmap UUID dbProfile) (p : Policies) : Policies :=
  {| p_rules := p_rules p; p_profiles := f (p_profiles p); p_entities := p_entities p;
     p_selectors := p_selectors p |}.
Definition upd_rulesets (f : gmap (UUID * Entities) string → gmap (UUID * Entities) string)
    (p : Policies) : Policies :=
  {| p_rules := p_rules p; p_profiles := p_profiles p; p_entities := f (p_entities p);
     p_selectors := p_selectors p |}.
Definition upd_selectors (f : list dbProfileSelector → list dbProfileSelector) (p : Policies)
    : Policies :=
  {| p_rules := p_rules p; p_profiles := p_profiles p; p_entities := p_entities p;
     p_selectors := f (p_selectors p) |}.

Definition profile_key (p : dbProfile) : UUID * string := (dpr_ProjectID p, pg_lower (dpr_Name p)).

Definition rule_key (r : dbRuleInstance) : UUID * Entities * string :=
  (rin_ProfileID r, rin_EntityType r, pg_lower (rin_Name r)).

Definition CreateProfile_query `{RandomUuid} (row : dbProfile) : prog World (UUID * dbProfile) :=
  query (λ w,
    let d := w_db w in
    let id := gen_random_uuid (w_fresh w) in
    let w1 := set_fresh (S (w_fresh w)) w in
    if bool_decide (is_Some (profiles d !! id) ∨
                    map_Exists (λ _ p, profile_key p = profile_key row) (profiles d))
    then (w1, Err UniqueViolation)
    else if bool_decide (dpr_ProjectID row ∈ projects d)
    then (upd_policies (upd_profiles (insert id row)) w1, Ok (id, row))
    else (w1, Err ForeignKeyViolation)).

(** The name, the project and the subscription stay. *)
Record UpdateProfileParams := {
  up_ID : UUID; up_ProjectID : UUID; up_Remediate : option ActionTypeDB;
  up_Alert : option ActionTypeDB; up_DisplayName : string; up_Labels : list string;
}.

Definition updated_profile (arg : UpdateProfileParams) (p : dbProfile) : dbProfile :=
  {| dpr_Name := dpr_Name p; dpr_Labels := up_Labels arg; dpr_ProjectID := dpr_ProjectID p;
     dpr_Remediate := up_Remediate arg; dpr_Alert := up_Alert arg;
     dpr_SubscriptionID := dpr_SubscriptionID p; dpr_DisplayName := up_DisplayName arg |}.

Definition UpdateProfile_query (arg : UpdateProfileParams) : prog World (UUID * dbProfile) :=
  query (λ w,
    match profiles (w_db w) !! up_ID arg with
    | Some p =>
        if bool_decide (dpr_ProjectID p = up_ProjectID arg)
        then (upd_policies (upd_profiles (insert (up_ID arg) (updated_profile arg p))) w,
              Ok (up_ID arg, updated_profile arg p))
        else (w, Err ErrNoRows)
    | None => (w, Err ErrNoRows)
    end).

(** *** The rules of an entity, as JSON *)

Definition CreateProfileForEntity (profileID : UUID) (entity : Entities) (rules : string)
    : prog World unit :=
  query (λ w,
    let d := w_db w in
    if bool_decide (is_Some (entity_profiles d !! (profileID, entity))) then (w, Err UniqueViolation)
    else if bool_decide (is_Some (profiles d !! profileID))
    then (upd_policies (upd_rulesets (insert (profileID, entity) rules)) w, Ok tt)
    else (w, Err ForeignKeyViolation)).

Definition UpsertProfileForEntity (profileID : UUID) (entity : Entities) (rules : string)
    : prog World unit :=
  query (λ w,
    if bool_decide (is_Some (profiles (w_db w) !! profileID))
    then (upd_policies (upd_rulesets (insert (profileID, entity) rules)) w, Ok tt)
    else (w, Err ForeignKeyViolation)).

Definition DeleteProfileForEntity (profileID : UUID) (entity : Entities) : prog World unit :=
  query (λ w, (upd_policies (upd_rulesets (delete (profileID, entity))) w, Ok tt)).

(** *** Rule instances *)

(** A rule of the same name, whatever its case, is overwritten; its name and its
    project stay. *)
Definition UpsertRuleInstance `{RandomUuid} (row : dbRuleInstance) : prog World UUID :=
  query (λ w,
    let d := w_db w in
    let id := gen_random_uuid (w_fresh w) in
    let w1 := set_fresh (S (w_fresh w)) w in
    match filter (λ p, rule_key p.2 = rule_key row) (map_to_list (rule_instances d)) with
    | (old, r) :: _ =>
        if bool_decide (is_Some (rule_types d !! rin_RuleTypeID row)) then
          let r' := {| rin_Name := rin_Name r; rin_RuleTypeID := rin_RuleTypeID row;
                       rin_ProfileID := rin_ProfileID r; rin_EntityType := rin_EntityType r;
                       rin_Def := rin_Def row; rin_Params := rin_Params row;
                       rin_ProjectID := rin_ProjectID r |} in
          (upd_policies (upd_rules (insert old r')) w1, Ok old)
        else (w1, Err ForeignKeyViolation)
    | [] =>
        if bool_decide (is_Some (rule_instances d !! id)) then (w1, Err UniqueViolation)
        else if bool_decide (is_Some (rule_types d !! rin_RuleTypeID row)) &&
                bool_decide (is_Some (profiles d !! rin_ProfileID row)) &&
                bool_decide (rin_ProjectID row ∈ projects d)
        then (upd_policies (upd_rules (insert id row)) w1, Ok id)
        else (w1, Err ForeignKeyViolation)
    end).

(** The history of a rule goes with it; the latest statuses refer to the
    evaluations without a cascade, which is checked at the end. *)
Definition rule_entities_of_rules (ids : gset UUID) (h : History) : gset UUID :=
  dom (filter (λ p : UUID * EvaluationRuleEntity, ere_RuleID p.2 ∈ ids) (h_entities h)).

Definition delete_rules (ids : gset UUID) (d : Db) : Db :=
  set_history (drop_rule_entities (rule_entities_of_rules ids (history d)) (history d))
    (set_policies (upd_rules (filter (λ p, p.1 ∉ ids)) (policies d)) d).

Definition checked (d : Db) (w : World) : World * res unit :=
  if bool_decide (latest_refer (history d)) then (set_db d w, Ok tt)
  else (w, Err ForeignKeyViolation).

Definition rules_where (P : UUID * dbRuleInstance → Prop) `{∀ p, Decision (P p)} (d : Db)
    : gset UUID := dom (filter P (rule_instances d)).

Definition DeleteNonUpdatedRules (profileID : UUID) (entity : Entities) (updatedIDs : list UUID)
    : prog World unit :=
  query (λ w,
    checked (delete_rules (rules_where (λ p, rin_ProfileID p.2 = profileID ∧
                             rin_EntityType p.2 = entity ∧ p.1 ∉ updatedIDs) (w_db w)) (w_db w)) w).

(** *** Selectors and deletion *)

Definition CreateSelector `{RandomUuid} (profileID : UUID) (entity : option Entities)
    (selector comment : string) : prog World unit :=
  query (λ w,
    let id := gen_random_uuid (w_fresh w) in
    let w1 := set_fresh (S (w_fresh w)) w in
    if bool_decide (id ∈ dps_ID <$> profile_selectors (w_db w))
    then (w1, Err UniqueViolation)
    else if bool_decide (is_Some (profiles (w_db w) !! profileID)) then
      let row := {| dps_ID := id; dps_ProfileID := profileID; dps_Entity := entity;
                    dps_Selector := selector; dps_Comment := comment |} in
      (upd_policies (upd_selectors (λ l, (l ++ [row])%list)) w1, Ok tt)
    else (w1, Err ForeignKeyViolation)).

Definition DeleteSelectorsByProfileID (profileID : UUID) : prog World unit :=
  query (λ w, (upd_policies (upd_selectors (filter (λ s, dps_ProfileID s ≠ profileID))) w, Ok tt)).

(** With the profile go its rules, their history, its rules as JSON, its
    selectors and its latest statuses. *)
Definition delete_profile (id : UUID) (d : Db) : Db :=
  let d1 := delete_rules (rules_where (λ p, rin_ProfileID p.2 = id) d) d in
  set_history (upd_latest (filter (λ p, la_ProfileID p.2 ≠ id)) (history d1))
    (set_policies
      (upd_profiles (delete id)
        (upd_rulesets (filter (λ p, p.1.1 ≠ id))
          (upd_selectors (filter (λ s, dps_ProfileID s ≠ id)) (policies d1)))) d1).

Definition DeleteProfile_query (id projectID : UUID) : prog World unit :=
  query (λ w,
    match profiles (w_db w) !! id with
    | Some p => if bool_decide (dpr_ProjectID p = projectID)
                then checked (delete_profile id (w_db w)) w
                else (w, Ok tt)
    | None => (w, Ok tt)
    end).
End statements.
