(* ===== verification/ProfileRules.v ===== *)
(** * The rules of a profile

    pkg/profiles/validator.go, rule_names.go, rule_validator.go and types.go,
    and pkg/ruletypes/util.go: a profile is validated against the rule types of
    its project and their schemas, and its rules get their names.  JSON schemas,
    protojson and the CEL checker of selectors are interfaces.  The literal maps
    over the entities are visited in the order they are written; Go's order
    varies, and with it which of several errors is reported. *)

From S2P Require Import Prelude GoErrors GoMonad GoStrings Uuid DbTypes Properties ApiTypes.
From S2P Require Import Validators Database HistoryDb ProfileDb.
Local Open Scope string_scope.

(** ** pkg/ruletypes/util.go *)

(** [Severity_Value] and [RuleTypeReleasePhase], by the names of their values. *)
Definition Severity_FromString (s : string) : option string :=
  if bool_decide (s ∈ [""; "unknown"; "info"; "low"; "medium"; "high"; "critical"])
  then Some s else None.

Definition ReleasePhase_FromString (s : string) : option string :=
  if bool_decide (s ∈ [""; "alpha"; "beta"; "ga"; "deprecated"]) then Some s else None.

(** [protojson.Unmarshal] of a definition; a JSON schema once compiled, and
    what is wrong with a value of it. *)
Class RuleTypeLib := {
  definition_Unmarshal : string → RuleTypeDefinition + gerr;
  json_schema : Type;
  schema_Compile : Struct → json_schema + gerr;
  schema_Validate : json_schema → Struct → option string;
}.

Section rule_types.
Context `{UuidLib} `{RuleTypeLib}.

Definition RuleDefFromDB (r : dbRuleType) : res RuleTypeDefinition :=
  match definition_Unmarshal (rty_Definition r) with
  | inl def => Ok def
  | inr err => Err (EWrap "cannot unmarshal rule type definition: " err "")
  end.

Definition RuleTypePBFromDB (rt : UUID * dbRuleType) : res RuleType :=
  def ← wrapf_res "cannot get rule type definition: " (RuleDefFromDB rt.2);
  mret {| rt_Id := Some (uuid_String rt.1); rt_Name := rty_Name rt.2;
          rt_DisplayName := if String.eqb (rty_DisplayName rt.2) "" then rty_Name rt.2
                            else rty_DisplayName rt.2;
          rt_ShortFailureMessage := rty_ShortFailureMessage rt.2;
          rt_Context := Some {| ctx_Provider := Some "";
                                ctx_Project := Some (uuid_String (rty_ProjectID rt.2)) |};
          rt_Def := Some def; rt_Description := rty_Description rt.2;
          rt_Guidance := rty_Guidance rt.2;
          rt_Severity := default "unknown" (Severity_FromString (rty_Severity rt.2));
          rt_ReleasePhase := default "" (ReleasePhase_FromString (rty_ReleasePhase rt.2)) |}.

(** ** rule_validator.go, internal/util/schemavalidate *)

Record RuleValidator := {
  rv_ruleTypeName : string; rv_schema : json_schema; rv_paramSchema : option json_schema;
}.

Definition compile (schema : option Struct) : res (option json_schema) :=
  match schema with
  | None => Ok None
  | Some s => match schema_Compile s with inl c => Ok (Some c) | inr e => Err e end
  end.

Definition NewRuleValidator (rt : RuleType) : res RuleValidator :=
  match rt_Def rt ≫= def_RuleSchema with
  | None => Err (EText ("rule type " +:+ rt_Name rt +:+ " does not have a rule schema"))
  | Some main =>
      mainSchema ← wrapf_res "cannot create json schema: "
                     match schema_Compile main with inl c => Ok c | inr e => Err e end;
      paramSchema ← wrapf_res "cannot create json schema for params: "
                      (compile (rt_Def rt ≫= def_ParamSchema));
      mret {| rv_ruleTypeName := rt_Name rt; rv_schema := mainSchema;
              rv_paramSchema := paramSchema |}
  end.

(** The map of a nil struct is empty.  The defaults are filled into a copy. *)
Definition ValidateAgainstSchema (name : string) (schema : json_schema) (obj : option Struct)
    : res unit :=
  match schema_Validate schema (default ∅ obj) with
  | Some problems => Err (ERuleValidation ("invalid json schema: " +:+ problems) name)
  | None => Ok tt
  end.

Definition ValidateRuleDefAgainstSchema (r : RuleValidator) (def : option Struct) : res unit :=
  ValidateAgainstSchema (rv_ruleTypeName r) (rv_schema r) def.

Definition ValidateParamsAgainstSchema (r : RuleValidator) (params : option Struct) : res unit :=
  match rv_paramSchema r with
  | None => Ok tt
  | Some schema => ValidateAgainstSchema (rv_ruleTypeName r) schema params
  end.
End rule_types.

(** ** The traversals of util.go *)

(** [fn] with what it has gathered so far; its error becomes that of the rule. *)
Fixpoint TraverseRules {A} (fn : A → Profile_Rule → prog World A) (acc : A)
    (rules : list Profile_Rule) : prog World A :=
  match rules with
  | [] => mret acc
  | rule :: rules =>
      r ← try (fn acc rule);
      match r with
      | inl acc => TraverseRules fn acc rules
      | inr err => throw (ERuleValidation (Error err) (rule_Type rule))
      end
  end.

(** The rules of pipeline runs, task runs and builds are not visited. *)
Definition TraverseAllRulesForPipeline {A} (fn : A → Profile_Rule → prog World A) (acc : A)
    (p : Profile) : prog World A :=
  acc ← wrapf "error traversing repository rules: " (TraverseRules fn acc (prof_Repository p));
  acc ← wrapf "error traversing build environment rules: "
          (TraverseRules fn acc (prof_BuildEnvironment p));
  acc ← wrapf "error traversing pull_request rules: " (TraverseRules fn acc (prof_PullRequest p));
  acc ← wrapf "error traversing artifact rules: " (TraverseRules fn acc (prof_Artifact p));
  wrapf "error traversing release rules: " (TraverseRules fn acc (prof_Release p)).

(** The rules of each entity: the literal map of [TraverseRuleTypesForEntities],
    of [validateRuleNames] and of the profile service. *)
Definition rules_by_entity (p : Profile) : list (Entity * list Profile_Rule) :=
  [(Entity_ENTITY_REPOSITORIES, prof_Repository p); (Entity_ENTITY_ARTIFACTS, prof_Artifact p);
   (Entity_ENTITY_BUILD_ENVIRONMENTS, prof_BuildEnvironment p);
   (Entity_ENTITY_PULL_REQUESTS, prof_PullRequest p); (Entity_ENTITY_RELEASE, prof_Release p);
   (Entity_ENTITY_PIPELINE_RUN, prof_PipelineRun p); (Entity_ENTITY_TASK_RUN, prof_TaskRun p);
   (Entity_ENTITY_BUILD, prof_Build p)].

Definition TraverseRuleTypesForEntities (p : Profile) (fn : Entity → Profile_Rule → prog World unit)
    : prog World unit :=
  foreach (λ '(entity, rules), foreach (fn entity) rules) (rules_by_entity p).

(** ** rule_names.go *)

(** The id of the rule type and the name of a rule, by type and given name. *)
Abbreviation RuleMapping := (gmap (string * string) (UUID * string)).

Definition ComputeRuleName (rule : Profile_Rule) (ruleTypeDisplayName : string) : string :=
  if String.eqb (rule_Name rule) "" then ruleTypeDisplayName else rule_Name rule.

Definition set_rule_name (name : string) (r : Profile_Rule) : Profile_Rule :=
  {| rule_Type := rule_Type r; rule_Params := rule_Params r; rule_Def := rule_Def r;
     rule_Name := name |}.

(** A key the map lacks gives the zero value. *)
Fixpoint populate (rules : list Profile_Rule) (m : RuleMapping) : list Profile_Rule * RuleMapping :=
  match rules with
  | [] => ([], m)
  | r :: rules =>
      let value := default (uuid_Nil, "") (m !! (rule_Type r, rule_Name r)) in
      let m := <[(rule_Type r, value.2) := value]> (delete (rule_Type r, rule_Name r) m) in
      let '(rules, m) := populate rules m in
      (set_rule_name value.2 r :: rules, m)
  end.

Definition set_rules (p : Profile) (repo build art pr rel : list Profile_Rule) : Profile :=
  {| prof_Context := prof_Context p; prof_Id := prof_Id p; prof_Name := prof_Name p;
     prof_Labels := prof_Labels p; prof_Repository := repo; prof_BuildEnvironment := build;
     prof_Artifact := art; prof_PullRequest := pr; prof_Release := rel;
     prof_PipelineRun := prof_PipelineRun p; prof_TaskRun := prof_TaskRun p;
     prof_Build := prof_Build p; prof_Selection := prof_Selection p;
     prof_Remediate := prof_Remediate p; prof_Alert := prof_Alert p; prof_Type := prof_Type p;
     prof_Version := prof_Version p; prof_DisplayName := prof_DisplayName p |}.

(** The profile and the map are changed in place. *)
Definition PopulateRuleNames (p : Profile) (m : RuleMapping) : Profile * RuleMapping :=
  let '(repo, m) := populate (prof_Repository p) m in
  let '(build, m) := populate (prof_BuildEnvironment p) m in
  let '(pr, m) := populate (prof_PullRequest p) m in
  let '(art, m) := populate (prof_Artifact p) m in
  let '(rel, m) := populate (prof_Release p) m in
  (set_rules p repo build art pr rel, m).

(** ** The names of the rules of an entity *)

Definition names_in (entity : Entity) (a name b : string) : string :=
  a +:+ name +:+ b +:+ ToString entity +:+ "'".

(** The first loop: the types and the types of nameless rules seen so far. *)
Fixpoint names_loop (entity : Entity) (types unnamed : gset string) (rules : list Profile_Rule)
    : res (gset string) :=
  match rules with
  | [] => Ok unnamed
  | rule :: rules =>
      let types := {[rule_Type rule]} ∪ types in
      if bool_decide (rule_Name rule ∈ types) && negb (String.eqb (rule_Name rule) (rule_Type rule))
      then Err (ERuleValidation
        (names_in entity "rule name '" (rule_Name rule) "' conflicts with a rule type in entity '"
         +:+ ", rule name cannot match other rule types") (rule_Type rule))
      else if String.eqb (rule_Name rule) "" then
        if bool_decide (rule_Type rule ∈ unnamed)
        then Err (ERuleValidation
          (names_in entity "multiple rules with empty name and same type in entity '" "" ""
           +:+ ", add unique names to rules") (rule_Type rule))
        else names_loop entity types ({[rule_Type rule]} ∪ unnamed) rules
      else names_loop entity types unnamed rules
  end.

Definition validateRuleWithNonEmptyName (rule : Profile_Rule) (entity : Entity)
    (ruleNameToType : gmap string string) (unnamed : gset string) : res (gmap string string) :=
  let lowercaseName := Strings.ToLower (rule_Name rule) in
  match ruleNameToType !! lowercaseName with
  | Some existingType =>
      Err (ERuleValidation
        (if String.eqb existingType (rule_Type rule)
         then names_in entity "multiple rules of same type with same name '" (rule_Name rule)
                "' in entity '" +:+ ", assign unique names to rules"
         else names_in entity "rule name '" (rule_Name rule)
                ("' conflicts with rule name of type '" +:+ existingType +:+ "' in entity '")
              +:+ ", assign unique names to rules") (rule_Type rule))
  | None =>
      if String.eqb (rule_Name rule) (rule_Type rule) && bool_decide (rule_Type rule ∈ unnamed)
      then Err (ERuleValidation
        (names_in entity "rule name '" (rule_Name rule)
           "' conflicts with default rule name of unnamed rule in entity '"
         +:+ ", assign unique names to rules") (rule_Type rule))
      else Ok (<[lowercaseName := rule_Type rule]> ruleNameToType)
  end.

(** The second loop. *)
Fixpoint named_loop (entity : Entity) (ruleNameToType : gmap string string) (unnamed : gset string)
    (rules : list Profile_Rule) : res unit :=
  match rules with
  | [] => Ok tt
  | rule :: rules =>
      if String.eqb (rule_Name rule) "" then named_loop entity ruleNameToType unnamed rules
      else
        ruleNameToType ← validateRuleWithNonEmptyName rule entity ruleNameToType unnamed;
        named_loop entity ruleNameToType unnamed rules
  end.

Definition validateRuleNamesForEntity (entity : Entity) (rules : list Profile_Rule) : res unit :=
  unnamed ← names_loop entity ∅ ∅ rules;
  named_loop entity ∅ unnamed rules.

Fixpoint validate_names (l : list (Entity * list Profile_Rule)) : res unit :=
  match l with
  | [] => Ok tt
  | (ent, entRules) :: l => validateRuleNamesForEntity ent entRules;; validate_names l
  end.

Definition validateRuleNames (profile : Profile) : res unit := validate_names (rules_by_entity profile).

(** ** validator.go *)

Section validator.
Context `{UuidLib} `{PgText} `{RuleTypeLib}.

(** The rule type of a rule, as the two passes read it. *)
Definition rule_type_pb (ruleType : UUID * dbRuleType) : prog World RuleType :=
  wrapf ("cannot convert rule type " +:+ rty_Name ruleType.2 +:+ " to minderv1: ")
    (lift (RuleTypePBFromDB ruleType)).

Definition visit_entity (projects : list UUID) (entity : Entity) (rule : Profile_Rule)
    : prog World unit :=
  ruleType ← try (GetRuleTypeByName projects (rule_Type rule));
  match ruleType with
  | inr err =>
      if errors_Is (Some err) ErrNoRows then mret tt
      else throw (EWrap ("error getting rule type " +:+ rule_Type rule +:+ ": ") err "")
  | inl ruleType =>
      ruleTypePB ← rule_type_pb ruleType;
      let inEntity := default "" (def_InEntity <$> rt_Def ruleTypePB) in
      if String.eqb inEntity (ToString entity) then mret tt
      else throw (ERuleValidation ("rule type " +:+ rt_Name ruleTypePB +:+ " expects entity " +:+
             inEntity +:+ ", but was given entity " +:+ ToString entity) (rt_Name ruleTypePB))
  end.

Definition validateEntities (profile : Profile) (projectID : UUID) : prog World unit :=
  projects ← wrapf "error getting parent projects: " (GetParentProjects projectID);
  TraverseRuleTypesForEntities profile (visit_entity projects).

Definition extract_rule (projects : list UUID) (rulesInProfile : RuleMapping)
    (profileRule : Profile_Rule) : prog World RuleMapping :=
  ruleType ← try (GetRuleTypeByName projects (rule_Type profileRule));
  match ruleType with
  | inr err =>
      throw (if errors_Is (Some err) ErrNoRows
             then ERuleValidation ("cannot find rule type " +:+ rule_Type profileRule)
                    (rule_Type profileRule)
             else EWrap ("error getting rule type " +:+ rule_Type profileRule +:+ ": ") err "")
  | inl ruleType =>
      ruleTypePB ← rule_type_pb ruleType;
      ruleValidator ← wrapf "error creating rule validator: " (lift (NewRuleValidator ruleTypePB));
      wrapf "error validating rule: "
        (lift (ValidateRuleDefAgainstSchema ruleValidator (rule_Def profileRule)));;
      wrapf "error validating rule params: "
        (lift (ValidateParamsAgainstSchema ruleValidator (rule_Params profileRule)));;
      mret (<[(rule_Type profileRule, rule_Name profileRule) :=
               (ruleType.1, ComputeRuleName profileRule (rt_DisplayName ruleTypePB))]> rulesInProfile)
  end.

Definition validateRuleParams (prof : Profile) (projectID : UUID) : prog World RuleMapping :=
  projects ← wrapf "error getting parent projects: " (GetParentProjects projectID);
  TraverseAllRulesForPipeline (extract_rule projects) ∅ prof.

(** The caller of the API sees violations, and of other errors only that there
    was one. *)
Definition reported {A} (seen : string * string → gerr) (hidden : string) (m : prog World A)
    : prog World A :=
  r ← try m;
  match r with
  | inl a => mret a
  | inr err => throw (match as_rule_validation err with
                      | Some violation => seen violation
                      | None => status_error "Internal" hidden
                      end)
  end.

Definition ValidateAndExtractRules (projectID : UUID) (profile : Profile) : prog World RuleMapping :=
  match Profile_Validate profile with
  | Some err => throw (status_error "InvalidArgument" ("invalid profile: " +:+ Error err))
  | None =>
      reported (λ v, status_error "InvalidArgument"
                  ("profile failed rule name validation: " +:+ Error (ERuleValidation v.1 v.2)))
        "error validating rule names in profile" (lift (validateRuleNames profile));;
      reported (λ v, status_error "InvalidArgument"
                  ("profile failed rule validation: " +:+ Error (ERuleValidation v.1 v.2)))
        "error validating profile" (validateEntities profile projectID);;
      reported (λ v, status_error "InvalidArgument"
                  ("profile contained invalid rule '" +:+ v.2 +:+ "': " +:+ v.1))
        "error creating profile" (validateRuleParams profile projectID)
  end.
End validator.

(** ** Selectors *)

(** The checker of CEL, and its two types of errors with their messages. *)
Class SelectionChecker := {
  CheckSelector : Profile_Selector → error;
  as_ParseError : gerr → option (list string);
  as_CheckError : gerr → option (list string);
}.

Definition ErrUnsupported : gerr := ENew "selectors.ErrUnsupported" "unsupported entity type".
Definition ErrSelectorCheck : gerr := ENew "selectors.ErrSelectorCheck" "failed to check selector".

Section selection.
Context `{SelectionChecker}.

Definition handleErrSelectorCheck (err : gerr) : gerr :=
  let msg l := default "No error message found" (head l) in
  match as_ParseError err, as_CheckError err with
  | Some l, _ => status_error "InvalidArgument" ("selector failed to parse: " +:+ msg l)
  | None, Some l => status_error "InvalidArgument" ("selector is invalid: " +:+ msg l)
  | None, None => err
  end.

Definition handleSelectorError (err : gerr) : gerr :=
  if errors_Is (Some err) ErrUnsupported
  then status_error "InvalidArgument" ("unsupported entity type: " +:+ Error err)
  else if errors_Is (Some err) ErrSelectorCheck then handleErrSelectorCheck err
  else err.

Fixpoint ValidateSelection (selection : list Profile_Selector) : res unit :=
  match selection with
  | [] => Ok tt
  | sel :: selection =>
      match CheckSelector sel with
      | Some err => Err (handleSelectorError err)
      | None => ValidateSelection selection
      end
  end.
End selection.
