(* ===== verification/ProfileTyping.v ===== *)
(** * The typing of profiles

    What the validation of ProfileRules.v decides: the rules on names, and that
    each rule has a type the project knows, for its entity, whose schemas its
    definition and its parameters fit. *)

From S2P Require Import Prelude GoErrors GoMonad GoStrings Uuid DbTypes Properties ApiTypes.
From S2P Require Import Validators Database HistoryDb ProfileDb ProfileRules.
Local Open Scope string_scope.

(** ** What a validated profile is *)

(** The names of the rules of an entity as the check decides them: no rule is
    named like the type of a rule before it, unless that is its own type; at most
    one rule of a type has no name; the names of the others differ whatever their
    case; and a rule named like its type is beside no unnamed rule of that type.
    The comment of the check asks the first of every rule of the entity, before or
    after: that is more than the check does ([names_in_order]). *)
Record names_valid (rules : list Profile_Rule) : Prop := {
  nv_types : ∀ l r l', rules = (l ++ r :: l')%list →
    rule_Name r ∈ rule_Type <$> l → rule_Name r = rule_Type r;
  nv_unnamed : NoDup (rule_Type <$> filter (λ r, rule_Name r = "") rules);
  nv_named : NoDup ((λ r, Strings.ToLower (rule_Name r)) <$> filter (λ r, rule_Name r ≠ "") rules);
  nv_default : ∀ r u, r ∈ rules → u ∈ rules → rule_Name r ≠ "" → rule_Name r = rule_Type r →
    rule_Name u = "" → rule_Type u ≠ rule_Type r;
}.

Definition unnamed_types (rules : list Profile_Rule) : list string :=
  rule_Type <$> filter (λ r, rule_Name r = "") rules.

Lemma names_loop_Ok entity types unnamed rules s :
  names_loop entity types unnamed rules = Ok s ↔
  (∀ l r l', rules = (l ++ r :: l')%list →
     (rule_Name r ∈ types ∨ rule_Name r ∈ rule_Type <$> l) → rule_Name r = rule_Type r) ∧
  NoDup (unnamed_types rules) ∧ (∀ t, t ∈ unnamed_types rules → t ∉ unnamed) ∧
  s = list_to_set (unnamed_types rules) ∪ unnamed.
Proof.
  revert types unnamed. induction rules as [|r rules IH]; intros types unnamed.
  { cbn. split.
    - intros [= <-]. split_and!; [by intros [|? ?]|constructor|by intros ? ?%not_elem_of_nil|set_solver].
    - intros (_ & _ & _ & ->). f_equal. set_solver. }
  assert (Hpre : (∀ l x l', r :: rules = (l ++ x :: l')%list →
      rule_Name x ∈ types ∨ rule_Name x ∈ rule_Type <$> l → rule_Name x = rule_Type x) ↔
    (rule_Name r ∈ types → rule_Name r = rule_Type r) ∧
    (∀ l x l', rules = (l ++ x :: l')%list →
      (rule_Name x ∈ {[rule_Type r]} ∪ types ∨ rule_Name x ∈ rule_Type <$> l) →
      rule_Name x = rule_Type x)).
  { split.
    - intros H. split; [intros Hr; apply (H [] r rules); [done|by left]|].
      intros l x l' -> Hx. apply (H (r :: l) x l'); [done|]. rewrite fmap_cons, elem_of_cons. set_solver.
    - intros [Hr H] [|y l] x l' [= -> ->]; cbn; [by intros [?|?%not_elem_of_nil]; auto|].
      intros Hx. apply (H l x l'); [done|]. rewrite elem_of_cons in Hx. set_solver. }
  rewrite Hpre. clear Hpre. cbn [names_loop]. unfold unnamed_types in *. rewrite filter_cons.
  destruct (bool_decide (rule_Name r ∈ {[rule_Type r]} ∪ types) &&
            negb (String.eqb (rule_Name r) (rule_Type r))) eqn:Hc.
  { split; [discriminate|]. intros [[Hr _] _]. exfalso. bool_consts. 
    apply andb_true_iff in Hc as [Hin%bool_decide_eq_true Hne%negb_true_iff%String.eqb_neq].
    set_solver. }
  assert (rule_Name r ∈ types → rule_Name r = rule_Type r) as Hr.
  { intros Hin. apply andb_false_iff in Hc as [Hc%bool_decide_eq_false|Hc%negb_false_iff%String.eqb_eq];
      [set_solver|done]. }
  clear Hc.
  destruct (String.eqb_spec (rule_Name r) "") as [He|He]; cbv iota.
  - rewrite decide_True by done. rewrite fmap_cons, NoDup_cons. case_bool_decide as Hu.
    { split; [intros [=]|]. intros (_ & _ & Hn & _). exfalso. apply (Hn (rule_Type r)); [left|done]. }
    rewrite IH. split.
    + intros (H1 & H2 & H3 & ->). split_and!; [done|done| |done| |].
      * intros Hin. apply (H3 _ Hin). set_solver.
      * intros t [->|Ht]%elem_of_cons; [done|]. intros Hin. apply (H3 _ Ht). set_solver.
      * rewrite list_to_set_cons. set_solver.
    + intros ([_ H1] & [Hn H2] & H3 & ->). split_and!; [done..| |].
      * intros t Ht [->%elem_of_singleton|Hin]%elem_of_union; [done|]. apply (H3 t); [by right|done].
      * rewrite list_to_set_cons. set_solver.
  - rewrite decide_False by done. rewrite IH. naive_solver.
Qed.

Lemma named_loop_Ok entity names unnamed rules :
  named_loop entity names unnamed rules = Ok tt ↔
  NoDup ((λ r, Strings.ToLower (rule_Name r)) <$> filter (λ r, rule_Name r ≠ "") rules) ∧
  (∀ r, r ∈ rules → rule_Name r ≠ "" → names !! Strings.ToLower (rule_Name r) = None ∧
    (rule_Name r = rule_Type r → rule_Type r ∉ unnamed)).
Proof.
  revert names. induction rules as [|r rules IH]; intros names.
  { cbn. split; [|done]. intros _. split; [constructor|by intros ? ?%not_elem_of_nil]. }
  cbn [named_loop]. rewrite filter_cons.
  destruct (String.eqb_spec (rule_Name r) "") as [He|He]; cbv iota.
  { rewrite decide_False by auto. rewrite IH. setoid_rewrite elem_of_cons. naive_solver. }
  rewrite decide_True by done. rewrite fmap_cons, NoDup_cons. unfold validateRuleWithNonEmptyName.
  destruct (names !! Strings.ToLower (rule_Name r)) as [t|] eqn:Ht; cbn.
  { split; [intros [=]|]. intros [_ H]. destruct (H r) as [Hn _]; [left|done|congruence]. }
  destruct (String.eqb (rule_Name r) (rule_Type r) && bool_decide (rule_Type r ∈ unnamed)) eqn:Hc.
  { split; [intros [=]|]. intros [_ H]. destruct (H r) as [_ Hn]; [left|done|].
    apply andb_true_iff in Hc as [Hc%String.eqb_eq Hd%bool_decide_eq_true]. by destruct Hn. }
  assert (rule_Name r = rule_Type r → rule_Type r ∉ unnamed) as Hr.
  { intros Hin. apply andb_false_iff in Hc as [Hc%String.eqb_neq|Hc%bool_decide_eq_false]; done. }
  clear Hc. cbn. rewrite IH. split.
  - intros [Hnd H]. split_and!; [|done|].
    + intros (x & Hx & [Hne Hin]%list_elem_of_filter)%list_elem_of_fmap.
      destruct (H x Hin Hne) as [Hl _]. by rewrite <-Hx, lookup_insert_eq in Hl.
    + intros x [->|Hin]%elem_of_cons Hne; [done|]. destruct (H x Hin Hne) as [Hl Hu].
      split; [|done]. by apply lookup_insert_None in Hl as [Hl _].
  - intros [[Hnew Hnd] H]. split; [done|]. intros x Hin Hne.
    destruct (H x) as [Hl Hu]; [by right|done|]. split; [|done].
    apply lookup_insert_None. split; [done|]. intros Heq. apply Hnew.
    apply list_elem_of_fmap. exists x. split; [done|]. by apply list_elem_of_filter.
Qed.

Lemma names_valid_spec entity rules :
  validateRuleNamesForEntity entity rules = Ok tt ↔ names_valid rules.
Proof.
  unfold validateRuleNamesForEntity.
  assert (Hset : ∀ r, rule_Type r ∉ list_to_set (C := gset string) (unnamed_types rules) ∪ ∅ ↔
    ∀ u, u ∈ rules → rule_Name u = "" → rule_Type u ≠ rule_Type r).
  { intros r. rewrite union_empty_r_L, elem_of_list_to_set. unfold unnamed_types.
    rewrite list_elem_of_fmap. setoid_rewrite list_elem_of_filter. naive_solver. }
  split.
  - destruct (names_loop entity ∅ ∅ rules) as [s|e|m] eqn:Hl; cbn; [|intros [=]..].
    apply names_loop_Ok in Hl as (Ht & Hu & _ & ->). intros [Hn Hd]%named_loop_Ok. split.
    + intros l r l' Hrules Hin. apply (Ht l r l'); [done|by right].
    + done.
    + done.
    + intros r u Hr Hin Hne Heq. destruct (Hd r Hr Hne) as [_ H]. by apply (proj1 (Hset r) (H Heq)).
  - intros [Ht Hu Hn Hd].
    assert (names_loop entity ∅ ∅ rules = Ok (list_to_set (unnamed_types rules) ∪ ∅)) as ->.
    { apply names_loop_Ok. split_and!; [|done|set_solver|done].
      intros l r l' Hrules [?%not_elem_of_empty|Hin]; [done|]. by apply (Ht l r l'). }
    cbn. apply named_loop_Ok. split; [done|]. intros r Hr Hne. split; [apply lookup_empty|].
    intros Heq. apply Hset. intros u Hin Hu'. by apply (Hd r u).
Qed.

Lemma validate_names_Ok l :
  validate_names l = Ok tt ↔ ∀ ent rules, (ent, rules) ∈ l → names_valid rules.
Proof.
  induction l as [|[ent rules] l IH]; cbn.
  { split; [by intros _ ? ? ?%not_elem_of_nil|done]. }
  setoid_rewrite elem_of_cons.
  pose proof (names_valid_spec ent rules) as Hs.
  destruct (validateRuleNamesForEntity ent rules) as [[]|e|m]; cbn.
  - rewrite IH. naive_solver.
  - split; [intros [=]|]. intros H. enough (@Err unit e = Ok tt) by done. apply Hs, (H ent). by left.
  - split; [intros [=]|]. intros H. enough (@Panic unit m = Ok tt) by done. apply Hs, (H ent). by left.
Qed.

Section typing.
Context `{UuidLib} `{PgText} `{RuleTypeLib}.

(** The rule type a rule names, in one of the projects. *)
Definition has_type (d : Db) (projects : list UUID) (r : Profile_Rule) (id : UUID) (rt : RuleType)
    : Prop :=
  ∃ row, rule_type_named d projects (rule_Type r) = Ok (id, row) ∧
         RuleTypePBFromDB (id, row) = Ok rt.

(** The definition and the parameters of a rule are values of the schemas of its
    type. *)
Definition rule_fits (rt : RuleType) (r : Profile_Rule) : Prop :=
  ∃ def schema s, rt_Def rt = Some def ∧ def_RuleSchema def = Some schema ∧
    schema_Compile schema = inl s ∧ schema_Validate s (default ∅ (rule_Def r)) = None ∧
    ∀ params, def_ParamSchema def = Some params →
      ∃ ps, schema_Compile params = inl ps ∧ schema_Validate ps (default ∅ (rule_Params r)) = None.

Lemma validator_fits rt r :
  (∃ v, NewRuleValidator rt = Ok v ∧ ValidateRuleDefAgainstSchema v (rule_Def r) = Ok tt ∧
     ValidateParamsAgainstSchema v (rule_Params r) = Ok tt) ↔ rule_fits rt r.
Proof.
  unfold rule_fits, NewRuleValidator, ValidateRuleDefAgainstSchema, ValidateParamsAgainstSchema,
    ValidateAgainstSchema, compile, wrapf_res.
  destruct (rt_Def rt) as [def|]; cbn; [|naive_solver].
  destruct (def_RuleSchema def) as [schema|] eqn:Hschema; cbn; [|naive_solver].
  destruct (schema_Compile schema) as [s|e] eqn:Hs; cbn;
    [|split; [by intros (? & [=] & _)|intros (? & ? & ? & [= <-] & ? & ? & _); congruence]].
  destruct (def_ParamSchema def) as [params|] eqn:Hparams; cbn.
  - destruct (schema_Compile params) as [ps|e] eqn:Hps; cbn.
    + split.
      * intros (v & [= <-] & Hd & Hp); cbn in *. exists def, schema, s.
        repeat case_match; try done. split_and!; [done..|]. intros p Hp'.
        assert (p = params) as -> by congruence. eauto.
      * intros (? & schema' & s' & [= <-] & Hsc & Hs' & Hd & Hp).
        assert (schema' = schema) as -> by congruence. assert (s' = s) as -> by congruence.
        destruct (Hp _ Hparams) as (ps' & Hps' & Hv). assert (ps' = ps) as -> by congruence.
        eexists. split; [done|]. cbn. by rewrite Hd, Hv.
    + split; [by intros (? & [=] & _)|]. intros (? & ? & ? & [= <-] & ? & _ & _ & Hp).
      destruct (Hp _ Hparams) as (ps' & Hps' & Hv). congruence.
  - split.
    + intros (v & [= <-] & Hd & Hp); cbn in *. exists def, schema, s.
      repeat case_match; try done. split_and!; [done..|]. congruence.
    + intros (? & schema' & s' & [= <-] & Hsc & Hs' & Hd & Hp).
      assert (schema' = schema) as -> by congruence. assert (s' = s) as -> by congruence.
      eexists. split; [done|]. cbn. by rewrite Hd.
Qed.

Lemma rule_type_named_cases d projects name :
  (∃ id row, rule_type_named d projects name = Ok (id, row)) ∨
  rule_type_named d projects name = Err ErrNoRows.
Proof. unfold rule_type_named. destruct (filter _ _) as [|[id row] l]; eauto. Qed.

Lemma reads_parents id : reads (GetParentProjects id).
Proof. apply (reads_select (λ d, Ok (ancestors d id))). Qed.

Lemma reads_rule_type_pb row : reads (rule_type_pb row).
Proof. unfold rule_type_pb. auto with reads. Qed.

(** The rule type of a rule is read, and the rest of the work does not depend on
    the tables. *)
Lemma reads_type {A} projects name (k : (UUID * dbRuleType) + gerr → prog World A) :
  (∀ x, reads (k x)) →
  (∀ e w, is_in e ErrNoRows = false → is_ok (k (inr e) w).2 = false) →
  reads (try (GetRuleTypeByName projects name) ≫= k).
Proof. apply (reads_try_select (λ d, rule_type_named d projects name)). Qed.

#[local] Hint Resolve reads_parents reads_rule_type_pb : reads.

Lemma reads_extract_rule projects m r : reads (extract_rule projects m r).
Proof.
  apply reads_type.
  - intros [row|e]; cbv beta iota; [|apply reads_throw].
    repeat (apply reads_bind; [auto with reads|intros]). apply reads_ret.
  - intros e w He. by cbn.
Qed.

Lemma reads_visit_entity projects entity r : reads (visit_entity projects entity r).
Proof.
  apply reads_type.
  - intros [row|e]; cbv beta iota.
    + apply reads_bind; [auto with reads|]. intros rt. cbv zeta. case_goal; auto with reads.
    + case_goal; auto with reads.
  - intros e w He. cbn. by rewrite He.
Qed.

Lemma reads_validateEntities p projectID : reads (validateEntities p projectID).
Proof.
  apply reads_bind; [auto with reads|]. intros projects. apply reads_foreach.
  intros [entity rules]. apply reads_foreach. intros r. apply reads_visit_entity.
Qed.

Lemma reads_TraverseRules {A} (fn : A → Profile_Rule → prog World A) acc rules :
  (∀ acc r, reads (fn acc r)) → reads (TraverseRules fn acc rules).
Proof.
  intros Hfn. revert acc. induction rules as [|r rules IH]; intros acc; cbn; [apply reads_ret|].
  by apply (reads_try_throw _ _ (λ err, ERuleValidation (Error err) (rule_Type r))).
Qed.

Lemma reads_validateRuleParams p projectID : reads (validateRuleParams p projectID).
Proof.
  apply reads_bind; [auto with reads|]. intros projects.
  unfold TraverseAllRulesForPipeline.
  repeat (apply reads_bind; [by apply reads_wrapf, reads_TraverseRules, reads_extract_rule|intros]).
  by apply reads_wrapf, reads_TraverseRules, reads_extract_rule.
Qed.

Lemma reads_reported {A} seen hidden (m : prog World A) : reads m → reads (reported seen hidden m).
Proof.
  intros Hm. eapply (reads_try_throw _ _ (λ err, match as_rule_validation err with
    | Some violation => seen violation | None => status_error "Internal" hidden end));
    [done|apply reads_ret|done].
Qed.

Lemma reads_ValidateAndExtractRules projectID p : reads (ValidateAndExtractRules projectID p).
Proof.
  unfold ValidateAndExtractRules. destruct (Profile_Validate p); [apply reads_throw|].
  apply reads_bind; [by apply reads_reported, reads_lift|intros _].
  apply reads_bind; [by apply reads_reported, reads_validateEntities|intros _].
  apply reads_reported, reads_validateRuleParams.
Qed.
(** *** With a working connection *)

Definition entity_fits (d : Db) (projects : list UUID) (entity : Entity) (r : Profile_Rule) : Prop :=
  rule_type_named d projects (rule_Type r) = Err ErrNoRows ∨
  ∃ id rt, has_type d projects r id rt ∧
           default "" (def_InEntity <$> rt_Def rt) = ToString entity.

Lemma type_run projects r w :
  w_faults w = [] →
  try (GetRuleTypeByName projects (rule_Type r)) w =
    (w, Ok (match rule_type_named (w_db w) projects (rule_Type r) with
            | Ok row => inl row | _ => inr ErrNoRows end)).
Proof.
  intros Hw. unfold GetRuleTypeByName, try. rewrite select_ok by done.
  by destruct (rule_type_named_cases (w_db w) projects (rule_Type r)) as [(id & row & ->)| ->].
Qed.

Lemma visit_entity_clean projects entity r w :
  w_faults w = [] →
  visit_entity projects entity r w = (w, Ok tt) ↔ entity_fits (w_db w) projects entity r.
Proof.
  intros Hw. unfold visit_entity, entity_fits, has_type.
  rewrite (prog_bind_run _ _ _ _ _ (type_run projects r w Hw)).
  destruct (rule_type_named_cases (w_db w) projects (rule_Type r)) as [(id & row & ->)| ->].
  2: { split; [by left|]. intros _. cbn. by rewrite bool_decide_eq_true_2. }
  unfold mbind at 1, prog_bind, rule_type_pb, wrapf, lift.
  destruct (RuleTypePBFromDB (id, row)) as [rt|e|s] eqn:Hrt; cbn [wrapf_res].
  - destruct (String.eqb_spec (default "" (def_InEntity <$> rt_Def rt)) (ToString entity)) as [He|He].
    + split; [|done]. intros _. right. exists id, rt. eauto.
    + split; [by intros [=]|]. intros [[=]|(? & rt' & (? & [= <- <-] & ?) & ?)]. congruence.
  - split; [by intros [=]|]. intros [[=]|(? & rt' & (? & [= <- <-] & ?) & ?)]. congruence.
  - split; [by intros [=]|]. intros [[=]|(? & rt' & (? & [= <- <-] & ?) & ?)]. congruence.
Qed.

(** What a rule adds to the mapping. *)
Definition key (r : Profile_Rule) : string * string := (rule_Type r, rule_Name r).

Definition value (id : UUID) (rt : RuleType) (r : Profile_Rule) : UUID * string :=
  (id, ComputeRuleName r (rt_DisplayName rt)).

Definition well_typed (d : Db) (projects : list UUID) (r : Profile_Rule) (id : UUID) (rt : RuleType)
    : Prop := has_type d projects r id rt ∧ rule_fits rt r.

Lemma extract_rule_clean projects m r w m' :
  w_faults w = [] →
  extract_rule projects m r w = (w, Ok m') ↔
  ∃ id rt, well_typed (w_db w) projects r id rt ∧ m' = <[key r := value id rt r]> m.
Proof.
  intros Hw. unfold extract_rule, well_typed, has_type.
  rewrite (prog_bind_run _ _ _ _ _ (type_run projects r w Hw)).
  destruct (rule_type_named_cases (w_db w) projects (rule_Type r)) as [(id & row & ->)| ->].
  2: { split; [by intros [=]|]. by intros (? & ? & [(? & [=] & _) _] & _). }
  setoid_rewrite <-validator_fits.
  unfold rule_type_pb, wrapf, lift, mbind, prog_bind.
  destruct (RuleTypePBFromDB (id, row)) as [rt|e|s] eqn:Hrt; cbn [wrapf_res].
  2,3: split; [by intros [=]|]; intros (? & ? & [(? & [= <- <-] & ?) _] & _); congruence.
  destruct (NewRuleValidator rt) as [v|e|s] eqn:Hv; cbn [wrapf_res].
  2,3: split; [by intros [=]|]; intros (? & rt' & [(? & [= <- <-] & ?) (v & ? & _)] & _); congruence.
  destruct (ValidateRuleDefAgainstSchema v (rule_Def r)) as [[]|e|s] eqn:Hd; cbn [wrapf_res].
  2,3: split; [by intros [=]|]; intros (? & rt' & [(? & [= <- <-] & ?) (v' & ? & ? & _)] & _); congruence.
  destruct (ValidateParamsAgainstSchema v (rule_Params r)) as [[]|e|s] eqn:Hp; cbn [wrapf_res].
  2,3: split; [by intros [=]|]; intros (? & rt' & [(? & [= <- <-] & ?) (v' & ? & ? & ?)] & _); congruence.
  split.
  - intros [= <-]. exists id, rt. split; [|done]. eauto 10.
  - intros (? & rt' & [(? & [= <- <-] & ?) _] & ->). assert (rt' = rt) as -> by congruence. done.
Qed.

(** The rules whose types are looked up, in their order. *)
Definition traversed (p : Profile) : list Profile_Rule :=
  (prof_Repository p ++ prof_BuildEnvironment p ++ prof_PullRequest p ++ prof_Artifact p ++
   prof_Release p)%list.

Fixpoint extracted (d : Db) (projects : list UUID) (rules : list Profile_Rule) (m m' : RuleMapping)
    : Prop :=
  match rules with
  | [] => m' = m
  | r :: rules => ∃ id rt, well_typed d projects r id rt ∧
                           extracted d projects rules (<[key r := value id rt r]> m) m'
  end.

Lemma extracted_app d projects l1 l2 m m' :
  extracted d projects (l1 ++ l2)%list m m' ↔
  ∃ m1, extracted d projects l1 m m1 ∧ extracted d projects l2 m1 m'.
Proof.
  revert m. induction l1 as [|r l1 IH]; intros m; cbn; [naive_solver|].
  setoid_rewrite IH. naive_solver.
Qed.

Lemma TraverseRules_clean projects rules m m' w :
  w_faults w = [] →
  TraverseRules (extract_rule projects) m rules w = (w, Ok m') ↔
  extracted (w_db w) projects rules m m'.
Proof.
  intros Hw. revert m. induction rules as [|r rules IH]; intros m; cbn [TraverseRules extracted].
  { split; [by intros [= <-]|by intros ->]. }
  setoid_rewrite <-IH. clear IH.
  destruct (reads_clean _ w (reads_extract_rule projects m r) Hw) as [res Hres].
  pose proof (λ m', extract_rule_clean projects m r w m' Hw) as Hex. setoid_rewrite Hres in Hex.
  unfold mbind, prog_bind, try. rewrite Hres. destruct res as [m1|e|s].
  - destruct (proj1 (Hex m1) eq_refl) as (id & rt & Ht & ->). split; [by exists id, rt|].
    intros (id' & rt' & Ht' & <-).
    assert (Hm : (w, @Ok RuleMapping (<[key r:=value id rt r]> m)) = (w, Ok (<[key r:=value id' rt' r]> m)))
      by (apply Hex; eauto). injection Hm as Hm. by rewrite Hm.
  - split; [by intros [=]|]. intros (id & rt & Ht & _).
    enough ((w, @Err RuleMapping e) = (w, Ok (<[key r:=value id rt r]> m))) by done. apply Hex. eauto.
  - split; [by intros [=]|]. intros (id & rt & Ht & _).
    enough ((w, @Panic RuleMapping s) = (w, Ok (<[key r:=value id rt r]> m))) by done. apply Hex. eauto.
Qed.
Lemma extracted_spec d projects rules m m' :
  extracted d projects rules m m' →
  (∀ r, r ∈ rules → ∃ id rt, well_typed d projects r id rt ∧ m' !! key r = Some (value id rt r)) ∧
  (∀ k, k ∉ key <$> rules → m' !! k = m !! k).
Proof.
  revert m. induction rules as [|r rules IH]; intros m; cbn [extracted].
  { intros ->. split; [by intros ? ?%not_elem_of_nil|done]. }
  intros (id & rt & Ht & Hrec). destruct (IH _ Hrec) as [Hin Hout]. split.
  - intros x [->|Hx]%elem_of_cons; [|by apply Hin].
    destruct (decide (key r ∈ key <$> rules)) as [(y & Hk & Hy)%list_elem_of_fmap|Hk].
    + destruct (Hin y Hy) as (id' & rt' & [(row & Hrow & Hpb) Hfit] & Hm).
      destruct Ht as [(row' & Hrow' & Hpb') Hfit']. injection Hk as Hty Hnm.
      rewrite <-Hty, Hrow' in Hrow. injection Hrow as <- <-. rewrite Hpb' in Hpb. injection Hpb as <-.
      exists id, rt. split; [by split; [exists row'|]|]. unfold key in *. rewrite Hty, Hnm, Hm.
      unfold value, ComputeRuleName. by rewrite Hnm.
    + exists id, rt. split; [done|]. rewrite (Hout _ Hk). apply lookup_insert_eq.
  - intros k [Hne Hk]%not_elem_of_cons. rewrite (Hout _ Hk). by apply lookup_insert_ne.
Qed.

Lemma extracted_total d projects rules m :
  (∀ r, r ∈ rules → ∃ id rt, well_typed d projects r id rt) →
  ∃ m', extracted d projects rules m m'.
Proof.
  revert m. induction rules as [|r rules IH]; intros m Hall; [by exists m|].
  destruct (Hall r) as (id & rt & Ht); [left|].
  destruct (IH (<[key r := value id rt r]> m)) as [m' Hm']; [intros x Hx; apply Hall; by right|].
  exists m'. by exists id, rt.
Qed.

Lemma GetParentProjects_run id w :
  w_faults w = [] → GetParentProjects id w = (w, Ok (ancestors (w_db w) id)).
Proof. intros Hw. unfold GetParentProjects. by rewrite select_ok. Qed.

Lemma wrapped_parents pre id w :
  w_faults w = [] → wrapf pre (GetParentProjects id) w = (w, Ok (ancestors (w_db w) id)).
Proof. intros Hw. by apply wrapf_Ok, GetParentProjects_run. Qed.

Lemma validateEntities_clean p projectID w :
  w_faults w = [] →
  validateEntities p projectID w = (w, Ok tt) ↔
  ∀ entity rules r, (entity, rules) ∈ rules_by_entity p → r ∈ rules →
    entity_fits (w_db w) (ancestors (w_db w) projectID) entity r.
Proof.
  intros Hw. unfold validateEntities.
  rewrite (prog_bind_run _ _ _ _ _ (wrapped_parents _ projectID w Hw)).
  unfold TraverseRuleTypesForEntities. rewrite foreach_clean; [|intros [entity rules]|done].
  2: { apply reads_foreach. intros r. apply reads_visit_entity. }
  split.
  - intros Hall entity rules r Hin Hr. specialize (Hall _ Hin). cbv beta iota in Hall.
    rewrite foreach_clean in Hall by (try apply reads_visit_entity; done).
    by apply visit_entity_clean, Hall.
  - intros Hall [entity rules] Hin. apply foreach_clean; [apply reads_visit_entity|done|].
    intros r Hr. apply visit_entity_clean; eauto.
Qed.

Lemma traverse_bind {B : Type} (pre : string) (projects : list UUID) (m : RuleMapping) (rules : list Profile_Rule)
    (k : RuleMapping → prog World B) (w : World) (b : B) :
  w_faults w = [] →
  (wrapf pre (TraverseRules (extract_rule projects) m rules) ≫= k) w = (w, Ok b) ↔
  ∃ m1, extracted (w_db w) projects rules m m1 ∧ k m1 w = (w, Ok b).
Proof.
  intros Hw. rewrite prog_bind_Ok.
  setoid_rewrite <-(TraverseRules_clean _ _ _ _ _ Hw). setoid_rewrite wrapf_Ok.
  destruct (reads_clean _ w (reads_TraverseRules (extract_rule projects) m rules
    (reads_extract_rule projects)) Hw) as [r Hr]. rewrite Hr. naive_solver.
Qed.

Lemma validateRuleParams_clean p projectID w m :
  w_faults w = [] →
  validateRuleParams p projectID w = (w, Ok m) ↔
  extracted (w_db w) (ancestors (w_db w) projectID) (traversed p) ∅ m.
Proof.
  intros Hw. unfold validateRuleParams, TraverseAllRulesForPipeline, traversed.
  rewrite (prog_bind_run _ _ _ _ _ (wrapped_parents _ projectID w Hw)), !extracted_app.
  repeat (rewrite traverse_bind by done; apply exist_proper; intros ?; apply and_iff_compat_l;
          rewrite ?extracted_app).
  by rewrite wrapf_Ok, TraverseRules_clean.
Qed.
Lemma reported_Ok {A} seen hidden (m : prog World A) w w' a :
  reported seen hidden m w = (w', Ok a) ↔ m w = (w', Ok a).
Proof.
  unfold reported, mbind, prog_bind, try. destruct (m w) as [w1 [x|e|s]]; [done|by split; intros [=]..].
Qed.

(** A profile is well typed in a project: it is well formed, the names of its
    rules are in order, the rules of an entity have types for that entity or,
    in part of the entities, none, and the others fit their types. *)
Record profile_typed (d : Db) (projectID : UUID) (p : Profile) : Prop := {
  pt_valid : Profile_Validate p = None;
  pt_names : ∀ entity rules, (entity, rules) ∈ rules_by_entity p → names_valid rules;
  pt_entities : ∀ entity rules r, (entity, rules) ∈ rules_by_entity p → r ∈ rules →
    entity_fits d (ancestors d projectID) entity r;
  pt_rules : ∀ r, r ∈ traversed p → ∃ id rt, well_typed d (ancestors d projectID) r id rt;
}.

Definition mapping_of (d : Db) (projectID : UUID) (p : Profile) (m : RuleMapping) : Prop :=
  (∀ r, r ∈ traversed p → ∃ id rt,
     well_typed d (ancestors d projectID) r id rt ∧ m !! key r = Some (value id rt r)) ∧
  ∀ k, k ∉ key <$> traversed p → m !! k = None.

Lemma ValidateAndExtractRules_clean projectID p w m :
  w_faults w = [] →
  ValidateAndExtractRules projectID p w = (w, Ok m) ↔
  Profile_Validate p = None ∧
  (∀ entity rules, (entity, rules) ∈ rules_by_entity p → names_valid rules) ∧
  (∀ entity rules r, (entity, rules) ∈ rules_by_entity p → r ∈ rules →
    entity_fits (w_db w) (ancestors (w_db w) projectID) entity r) ∧
  extracted (w_db w) (ancestors (w_db w) projectID) (traversed p) ∅ m.
Proof.
  intros Hw. unfold ValidateAndExtractRules.
  destruct (Profile_Validate p) as [e|]; [by split; [intros [=]|intros [[=] _]]|].
  assert (Hstep : ∀ {A B : Type} seen hidden (n : prog World A) (k : A → prog World B) b, reads n →
    (reported seen hidden n ≫= k) w = (w, Ok b) ↔ ∃ a, n w = (w, Ok a) ∧ k a w = (w, Ok b)).
  { intros A B seen hidden n k b Hn. rewrite prog_bind_Ok. setoid_rewrite reported_Ok.
    destruct (reads_clean _ w Hn Hw) as [r Hr]. rewrite Hr. naive_solver. }
  rewrite Hstep by apply reads_lift. unfold lift at 1, validateRuleNames.
  setoid_rewrite Hstep; [|apply reads_validateEntities]. setoid_rewrite reported_Ok.
  setoid_rewrite validateRuleParams_clean; [|done].
  rewrite <-validate_names_Ok, <-validateEntities_clean by done.
  destruct (validate_names (rules_by_entity p)) as [[]|e|s];
    [|by split; [intros (? & [=] & _)|intros (_ & [=] & _)]..].
  split.
  - intros ([] & _ & [] & He & Hm). done.
  - intros (_ & _ & He & Hm). exists tt. split; [done|]. by exists tt.
Qed.

Lemma typed_answers projectID p w :
  w_faults w = [] →
  match ValidateAndExtractRules projectID p w with
  | (_, Ok m) => profile_typed (w_db w) projectID p ∧ mapping_of (w_db w) projectID p m
  | _ => ¬ profile_typed (w_db w) projectID p
  end.
Proof.
  intros Hw. pose proof (λ m, ValidateAndExtractRules_clean projectID p w m Hw) as Hc.
  assert (Hno : ∀ r, ValidateAndExtractRules projectID p w = (w, r) →
    (∀ m, r ≠ Ok m) → ¬ profile_typed (w_db w) projectID p).
  { intros r Hr Hne [Hv Hn He Ht]. destruct (extracted_total _ _ _ ∅ Ht) as [m Hm].
    apply (Hne m). enough ((w, r) = (w, Ok m)) by congruence. rewrite <-Hr. by apply Hc. }
  destruct (reads_clean _ w (reads_ValidateAndExtractRules projectID p) Hw) as [r Hr].
  rewrite Hr. destruct r as [m|e|s]; [|by eapply Hno..].
  destruct (proj1 (Hc m) Hr) as (Hv & Hn & He & Hx).
  destruct (extracted_spec _ _ _ _ _ Hx) as [Hin Hout]. split.
  - split; [done..|]. intros x Hxin. destruct (Hin x Hxin) as (id & rt & Ht & _). eauto.
  - split; [done|]. intros k Hk. rewrite (Hout k Hk). apply lookup_empty.
Qed.

(** Whatever the failures to come, what is accepted is well typed. *)
Lemma validation_sound projectID p w w' m :
  honest_faults w → ValidateAndExtractRules projectID p w = (w', Ok m) →
  w_db w' = w_db w ∧ profile_typed (w_db w) projectID p ∧ mapping_of (w_db w) projectID p m.
Proof.
  intros Hh Hrun. destruct (reads_ValidateAndExtractRules projectID p w Hh) as (Hc & fs & r & Hw & _ & Hr).
  rewrite Hrun in Hw. injection Hw as -> <-. split; [done|].
  pose proof (typed_answers projectID p (clean w) eq_refl) as Ht.
  destruct (ValidateAndExtractRules projectID p (clean w)) as [wc rc]. cbn in Hr.
  destruct Hr as [<-|[[=] _]]. done.
Qed.

(** Validation of a profile decides its typing.  It changes nothing; it
    accepts only a profile that is well formed, whose rules have names in order
    and types the project and its ancestors know, for the entity they are under,
    with definitions and parameters that fit the schemas, and answers the id of
    the type and the name of each rule; with a working connection it refuses only
    a profile that is not well typed. *)
Theorem profile_validated projectID p w (Hh : honest_faults w) :
  match ValidateAndExtractRules projectID p w with
  | (w', Ok m) => w_db w' = w_db w ∧ profile_typed (w_db w) projectID p ∧
                  mapping_of (w_db w) projectID p m
  | (w', _) => w_db w' = w_db w ∧ (w_faults w = [] → ¬ profile_typed (w_db w) projectID p)
  end.
Proof.
  destruct (reads_ValidateAndExtractRules projectID p w Hh) as (Hc & fs & r & -> & _ & Hr).
  pose proof (typed_answers projectID p (clean w) eq_refl) as Ht.
  destruct (ValidateAndExtractRules projectID p (clean w)) as [wc rc]. cbn in Hc, Hr. subst wc.
  destruct Hr as [->|[Hno Hne]]; [by destruct rc|]. by destruct r.
Qed.
End typing.

(** ** Witness: a profile with one rule without a name *)

Definition ex_library : RuleTypeLib :=
  {| definition_Unmarshal := λ s,
       if String.eqb s "{}" then inl ex_definition else inr (EText "invalid");
     json_schema := unit; schema_Compile := λ _, inl tt;
     schema_Validate := λ _ obj,
       if bool_decide (is_Some (obj !! "skip")) then Some "skip is not allowed" else None |}.

Definition ex_lower : PgText := {| pg_lower := Strings.ToLower |}.

Definition ex_rule : Profile_Rule :=
  {| rule_Type := "Rule_Type"; rule_Params := None; rule_Def := Some ∅; rule_Name := "" |}.

Definition ex_profile_pb (rules : list Profile_Rule) : Profile :=
  {| prof_Context := None; prof_Id := None; prof_Name := "new"; prof_Labels := [];
     prof_Repository := rules; prof_BuildEnvironment := []; prof_Artifact := [];
     prof_PullRequest := []; prof_Release := []; prof_PipelineRun := []; prof_TaskRun := [];
     prof_Build := []; prof_Selection := []; prof_Remediate := Some "on"; prof_Alert := None;
     prof_Type := ""; prof_Version := ""; prof_DisplayName := "" |}.

Section witness.
#[local] Existing Instance decimal_uuid.
#[local] Existing Instance ex_library.
#[local] Existing Instance ex_lower.

Lemma profile_validated_witness :
  honest_faults (ex_world ex_db []) ∧ profile_typed ex_db 2%N (ex_profile_pb [ex_rule]) ∧
  ¬ profile_typed ex_db 2%N (ex_profile_pb [ex_rule; ex_rule]).
Proof.
  assert (Hh : honest_faults (ex_world ex_db [])) by (intros e; cbn; by intros ?%not_elem_of_nil).
  split; [done|].
  pose proof (profile_validated 2%N (ex_profile_pb [ex_rule]) _ Hh) as H1.
  pose proof (profile_validated 2%N (ex_profile_pb [ex_rule; ex_rule]) _ Hh) as H2.
  assert (is_ok (ValidateAndExtractRules 2%N (ex_profile_pb [ex_rule]) (ex_world ex_db [])).2 = true)
    as Hok1 by (vm_compute; reflexivity).
  assert (is_ok (ValidateAndExtractRules 2%N (ex_profile_pb [ex_rule; ex_rule])
            (ex_world ex_db [])).2 = false) as Hok2 by (vm_compute; reflexivity).
  destruct (ValidateAndExtractRules 2%N (ex_profile_pb [ex_rule]) _) as [w1 [m| |]]; [|done..].
  destruct (ValidateAndExtractRules 2%N (ex_profile_pb [ex_rule; ex_rule]) _) as [w2 [m2| |]];
    [done|split; [apply H1|by apply H2]..].
Defined.

(** The order of the rules matters: named like the type of a later rule, the
    first is accepted. *)
Definition named (type name : string) : Profile_Rule :=
  {| rule_Type := type; rule_Params := None; rule_Def := None; rule_Name := name |}.

Example names_in_order :
  validateRuleNamesForEntity Entity_ENTITY_REPOSITORIES [named "a" "b"; named "b" "c"] = Ok tt ∧
  is_ok (validateRuleNamesForEntity Entity_ENTITY_REPOSITORIES [named "b" "c"; named "a" "b"]) = false.
Proof. by vm_compute. Qed.
End witness.
