(* ===== verification/ProfileMerge.v ===== *)
(** * Profiles from the rows of the database

    pkg/profiles/util.go and internal/db/validators.go: the messages built from
    the rows, which come once for each entity of a profile, and the name of a
    profile derived from its display name. *)

From S2P Require Import Prelude GoErrors GoMonad GoStrings Uuid DbTypes ProfileModels Properties.
From S2P Require Import ApiTypes Validators Database ProfileDb ProfileRules.
From Stdlib Require Import Ascii.
Local Open Scope string_scope.

(** ** internal/db/validators.go *)

Definition validateActionType (r : string) (dfl : option ActionTypeDB) : option ActionTypeDB :=
  if String.eqb r "on" then Some ActionTypeOn
  else if String.eqb r "off" then Some ActionTypeOff
  else if String.eqb r "dry_run" then Some ActionTypeDryRun
  else dfl.

Definition ValidateRemediateType (r : string) : option ActionTypeDB :=
  validateActionType r (Some ActionTypeOff).
Definition ValidateAlertType (r : string) : option ActionTypeDB :=
  validateActionType r (Some ActionTypeOn).

(** ** The rules of an entity *)

Definition GetRulesForEntity (p : Profile) (entity : Entity) : res (list Profile_Rule) :=
  if (entity =? Entity_ENTITY_REPOSITORIES)%Z then Ok (prof_Repository p)
  else if (entity =? Entity_ENTITY_BUILD_ENVIRONMENTS)%Z then Ok (prof_BuildEnvironment p)
  else if (entity =? Entity_ENTITY_ARTIFACTS)%Z then Ok (prof_Artifact p)
  else if (entity =? Entity_ENTITY_PULL_REQUESTS)%Z then Ok (prof_PullRequest p)
  else if (entity =? Entity_ENTITY_RELEASE)%Z then Ok (prof_Release p)
  else if (entity =? Entity_ENTITY_PIPELINE_RUN)%Z then Ok (prof_PipelineRun p)
  else if (entity =? Entity_ENTITY_TASK_RUN)%Z then Ok (prof_TaskRun p)
  else if (entity =? Entity_ENTITY_BUILD)%Z then Ok (prof_Build p)
  else if (entity =? Entity_ENTITY_UNSPECIFIED)%Z then Err (EText "entity type unspecified")
  else Err (EText ("unknown entity: " +:+ Strconv.FormatInt entity)).

Definition GetRulesFromProfileOfType (p : Profile) (rt : RuleType) : res (list Profile_Rule) :=
  match rt_Def rt with
  | None => Panic "invalid memory address or nil pointer dereference"
  | Some def =>
      contextualRules ← wrapf_res "error getting rules for entity: "
                          (GetRulesForEntity p (EntityFromString (def_InEntity def)));
      mret (filter (λ r, rule_Type r = rt_Name rt) contextualRules)
  end.

Definition set_entity_rules (entity : Entity) (rules : list Profile_Rule) (p : Profile) : Profile :=
  let pick (e : Entity) (old : list Profile_Rule) := if (entity =? e)%Z then rules else old in
  {| prof_Context := prof_Context p; prof_Id := prof_Id p; prof_Name := prof_Name p;
     prof_Labels := prof_Labels p;
     prof_Repository := pick Entity_ENTITY_REPOSITORIES (prof_Repository p);
     prof_BuildEnvironment := pick Entity_ENTITY_BUILD_ENVIRONMENTS (prof_BuildEnvironment p);
     prof_Artifact := pick Entity_ENTITY_ARTIFACTS (prof_Artifact p);
     prof_PullRequest := pick Entity_ENTITY_PULL_REQUESTS (prof_PullRequest p);
     prof_Release := pick Entity_ENTITY_RELEASE (prof_Release p);
     prof_PipelineRun := pick Entity_ENTITY_PIPELINE_RUN (prof_PipelineRun p);
     prof_TaskRun := pick Entity_ENTITY_TASK_RUN (prof_TaskRun p);
     prof_Build := pick Entity_ENTITY_BUILD (prof_Build p);
     prof_Selection := prof_Selection p; prof_Remediate := prof_Remediate p;
     prof_Alert := prof_Alert p; prof_Type := prof_Type p; prof_Version := prof_Version p;
     prof_DisplayName := prof_DisplayName p |}.

(** ** From rows to messages *)

(** [json.Marshal] of the rules of an entity and of a struct, kept as [JSONB],
    and what reads them back. *)
Class RulesJSON := {
  rules_Marshal : list Profile_Rule → string + gerr;
  rules_Unmarshal : string → list Profile_Rule + gerr;
  struct_Marshal : option Struct → string + gerr;
  rules_roundtrip : ∀ rules s, rules_Marshal rules = inl s → rules_Unmarshal s = inl rules;
}.

Section merge.
Context `{UuidLib} `{RulesJSON}.

Definition dbProfileToPB (id : UUID) (p : dbProfile) : Profile :=
  {| prof_Context := Some {| ctx_Provider := None;
                             ctx_Project := Some (uuid_String (dpr_ProjectID p)) |};
     prof_Id := Some (uuid_String id); prof_Name := dpr_Name p; prof_Labels := [];
     prof_Repository := []; prof_BuildEnvironment := []; prof_Artifact := [];
     prof_PullRequest := []; prof_Release := []; prof_PipelineRun := []; prof_TaskRun := [];
     prof_Build := []; prof_Selection := [];
     prof_Remediate := Some (default ActionTypeOff (dpr_Remediate p));
     prof_Alert := Some (default ActionTypeOn (dpr_Alert p));
     prof_Type := ""; prof_Version := "";
     prof_DisplayName := if String.eqb (dpr_DisplayName p) "" then dpr_Name p
                         else dpr_DisplayName p |}.

(** The column of a selector without an entity reads as the empty string. *)
Definition selector_pb (s : dbProfileSelector) : Profile_Selector :=
  {| psel_Id := uuid_String (dps_ID s); psel_Entity := default "" (dps_Entity s);
     psel_Selector := dps_Selector s; psel_Description := dps_Comment s |}.

Definition set_selection (l : list Profile_Selector) (p : Profile) : Profile :=
  {| prof_Context := prof_Context p; prof_Id := prof_Id p; prof_Name := prof_Name p;
     prof_Labels := prof_Labels p; prof_Repository := prof_Repository p;
     prof_BuildEnvironment := prof_BuildEnvironment p; prof_Artifact := prof_Artifact p;
     prof_PullRequest := prof_PullRequest p; prof_Release := prof_Release p;
     prof_PipelineRun := prof_PipelineRun p; prof_TaskRun := prof_TaskRun p;
     prof_Build := prof_Build p; prof_Selection := l; prof_Remediate := prof_Remediate p;
     prof_Alert := prof_Alert p; prof_Type := prof_Type p; prof_Version := prof_Version p;
     prof_DisplayName := prof_DisplayName p |}.

Definition selectorsToProfile (profile : Profile) (selectors : list dbProfileSelector) : Profile :=
  set_selection (selector_pb <$> selectors) profile.

(** Nothing, when the row cannot be used: that is logged.  The profile is changed
    in place. *)
Definition rowInfoToProfileMap (profile : Profile) (row : option (Entities * string))
    : option Profile :=
  match row with
  | None => Some profile
  | Some (entity, contextualRules) =>
      if negb (IsValid (EntityTypeFromDB entity)) then None
      else match rules_Unmarshal contextualRules with
           | inr _ => None
           | inl ruleset => Some (set_entity_rules (EntityTypeFromDB entity) ruleset profile)
           end
  end.

(** One row, by the key of its profile. *)
Definition merge_row (key : ProfileRow → string) (profiles : gmap string Profile) (p : ProfileRow)
    : gmap string Profile :=
  let profile := default (selectorsToProfile (dbProfileToPB (prw_ID p) (prw_Profile p))
                            (prw_Selectors p)) (profiles !! key p) in
  <[key p := default profile (rowInfoToProfileMap profile (prw_Entity p))]> profiles.

(** By id, whereas the other two go by name. *)
Definition MergeDatabaseListIntoProfiles (ppl : list ProfileRow) : gmap string Profile :=
  foldl (merge_row (λ p, uuid_String (prw_ID p))) ∅ ppl.

Definition MergeDatabaseGetIntoProfiles (ppl : list ProfileRow) : gmap string Profile :=
  foldl (merge_row (λ p, dpr_Name (prw_Profile p))) ∅ ppl.

Definition MergeDatabaseGetByNameIntoProfiles (ppl : list ProfileRow) : gmap string Profile :=
  foldl (merge_row (λ p, dpr_Name (prw_Profile p))) ∅ ppl.
End merge.

(** ** The name from the display name *)

Definition profileNameMaxLength : nat := 63.

(** [\s] *)
Definition is_space (c : ascii) : bool := bool_decide (nat_of_ascii c ∈ [9; 10; 12; 13; 32]).

(** Two or more spaces become one; a single one stays what it is. *)
Fixpoint join_spaces (l : list ascii) : list ascii :=
  match l with
  | [] => []
  | c :: l' =>
      if is_space c then
        match join_spaces l' with
        | c' :: rest => if is_space c' then " "%char :: rest else c :: c' :: rest
        | [] => [c]
        end
      else c :: join_spaces l'
  end.

Definition cleanDisplayName (displayName : string) : string :=
  let chars := String.list_ascii_of_string (Strings.TrimSpace displayName) in
  let chars := filter (λ c, is_alnum c || is_space c = true) chars in
  let chars := (λ c, if Ascii.eqb c " "%char then "_"%char else c) <$> join_spaces chars in
  String.string_of_list_ascii
    (take profileNameMaxLength (String.list_ascii_of_string
       (Strings.ToLower (String.string_of_list_ascii chars)))).

Definition counted (name : string) (counter : nat) : string :=
  name +:+ "-" +:+ Strconv.FormatInt (Z.of_nat counter).

Definition next_name (name : string) (counter : nat) : res string :=
  if (profileNameMaxLength <? String.length (counted name counter))%nat then
    let suffix := String.length (counted "" counter) in
    if (profileNameMaxLength <? suffix)%nat ||
       (String.length name <? profileNameMaxLength - suffix)%nat
    then Panic "slice bounds out of range"
    else Ok (counted (String.substring 0 (profileNameMaxLength - suffix) name) counter)
  else Ok (counted name counter).

Fixpoint name_loop (fuel : nat) (existing : gmap string Profile) (name : string) (counter : nat)
    (derivedName : string) : res string :=
  match existing !! derivedName with
  | None => Ok derivedName
  | Some _ =>
      match fuel with
      | O => Panic "out of fuel"
      | S fuel =>
          derivedName ← next_name name counter;
          name_loop fuel existing name (S counter) derivedName
      end
  end.

Definition base_name (profile : Profile) : string :=
  if negb (String.eqb (prof_DisplayName profile) "") && String.eqb (prof_Name profile) ""
  then cleanDisplayName (prof_DisplayName profile) else prof_Name profile.

Definition DeriveProfileNameFromDisplayName (profile : Profile) (existing : gmap string Profile)
    : res string :=
  name_loop (S (size existing)) existing (base_name profile) 1 (base_name profile).

(** ** The derived name is fresh *)

Lemma double_digits d :
  (Decimal.nb_digits (Decimal.Little.double d) ≤ S (Decimal.nb_digits d))%nat ∧
  (Decimal.nb_digits (Decimal.Little.succ_double d) ≤ S (Decimal.nb_digits d))%nat.
Proof. induction d as [|d IH|d IH|d IH|d IH|d IH|d IH|d IH|d IH|d IH|d IH]; cbn in *; lia. Qed.

Lemma little_digits p :
  (Decimal.nb_digits (Pos.to_little_uint p) ≤ Pos.size_nat p)%nat.
Proof.
  induction p as [p IH|p IH|]; cbn; [| |lia].
  - pose proof (double_digits (Pos.to_little_uint p)) as [_ ?]. cbn in *. lia.
  - pose proof (double_digits (Pos.to_little_uint p)) as [? _]. cbn in *. lia.
Qed.

Lemma size_nat_bound p k : (Z.pos p < 2 ^ Z.of_nat k)%Z → (Pos.size_nat p ≤ k)%nat.
Proof.
  revert k. induction p as [p IH|p IH|]; intros [|k] Hp; cbn [Pos.size_nat];
    try (change (2 ^ Z.of_nat 0)%Z with 1%Z in Hp; lia);
    rewrite Nat2Z.inj_succ, Z.pow_succ_r in Hp by lia; first [apply le_n_S, IH; lia|lia].
Qed.

Lemma uint_length d : String.length (DecimalString.NilEmpty.string_of_uint d) = Decimal.nb_digits d.
Proof. induction d; cbn; congruence. Qed.

Lemma uint_no_dash d :
  "-"%char ∉ String.list_ascii_of_string (DecimalString.NilEmpty.string_of_uint d).
Proof. induction d; cbn; rewrite ?not_elem_of_cons; [apply not_elem_of_nil|..]; done. Qed.

Lemma nonempty_uint d : d ≠ Decimal.Nil →
  DecimalString.NilZero.string_of_uint d = DecimalString.NilEmpty.string_of_uint d.
Proof. by destruct d. Qed.

(** A counter in decimal: digits, no more of them than it has bits. *)
Lemma counter_digits n :
  ("-"%char ∉ String.list_ascii_of_string (Strconv.FormatInt (Z.of_nat n))) ∧
  ∀ k, (Z.of_nat n < 2 ^ Z.of_nat k)%Z → (0 < k)%nat →
    (String.length (Strconv.FormatInt (Z.of_nat n)) ≤ k)%nat.
Proof.
  unfold Strconv.FormatInt. destruct n as [|n].
  { split; [by apply (uint_no_dash (Decimal.D0 Decimal.Nil))|]. intros k _ Hk. exact Hk. }
  change (Z.to_int (Z.of_nat (S n))) with (Decimal.Pos (Pos.to_uint (Pos.of_succ_nat n))).
  cbn [DecimalString.NilZero.string_of_int]. rewrite nonempty_uint.
  2: { pose proof (Strconv.to_int_not_nil (Z.of_nat (S n))) as [Hp _]. intros Heq. apply Hp.
       change (Z.to_int (Z.of_nat (S n))) with (Decimal.Pos (Pos.to_uint (Pos.of_succ_nat n))).
       by rewrite Heq. }
  split; [apply uint_no_dash|]. intros k Hk _. rewrite uint_length.
  unfold Pos.to_uint. rewrite DecimalFacts.nb_digits_rev.
  etransitivity; [apply little_digits|]. by apply size_nat_bound.
Qed.

Lemma FormatInt_inj n m :
  (Z.of_nat n < 2 ^ 62)%Z → (Z.of_nat m < 2 ^ 62)%Z →
  Strconv.FormatInt (Z.of_nat n) = Strconv.FormatInt (Z.of_nat m) → n = m.
Proof.
  intros Hn Hm Heq.
  pose proof (Strconv.ParseUint_FormatInt (Z.of_nat n)) as H1.
  pose proof (Strconv.ParseUint_FormatInt (Z.of_nat m)) as H2.
  rewrite Heq, H2 in H1 by (unfold Strconv.is_uint64; lia).
  enough (Some (Z.of_nat m) = Some (Z.of_nat n)) as [= ?] by lia.
  apply H1. unfold Strconv.is_uint64. lia.
Qed.

Lemma last_dash (l1 l2 d1 d2 : list ascii) c :
  c ∉ d1 → c ∉ d2 → (l1 ++ c :: d1 = l2 ++ c :: d2)%list → d1 = d2.
Proof.
  revert l2. induction l1 as [|x l1 IH]; intros [|y l2] H1 H2; cbn.
  - by intros [= ->].
  - intros [= -> ->]. destruct H1. rewrite elem_of_app, elem_of_cons. auto.
  - intros [= -> <-]. destruct H2. rewrite elem_of_app, elem_of_cons. auto.
  - intros [= _ Heq]. by apply (IH l2).
Qed.

Lemma counted_chars name n :
  String.list_ascii_of_string (counted name n) =
  (String.list_ascii_of_string name ++
   "-"%char :: String.list_ascii_of_string (Strconv.FormatInt (Z.of_nat n)))%list.
Proof. unfold counted. by rewrite !chars_append. Qed.

Lemma counted_inj name1 name2 n m :
  (Z.of_nat n < 2 ^ 62)%Z → (Z.of_nat m < 2 ^ 62)%Z →
  counted name1 n = counted name2 m → n = m.
Proof.
  intros Hn Hm Heq. apply (FormatInt_inj n m Hn Hm).
  apply (f_equal String.list_ascii_of_string) in Heq. rewrite !counted_chars in Heq.
  apply last_dash in Heq; [|apply counter_digits..].
  by rewrite <-(String.string_of_list_ascii_of_string (Strconv.FormatInt (Z.of_nat n))), Heq,
    String.string_of_list_ascii_of_string.
Qed.

Lemma counted_length name n :
  String.length (counted name n) = (String.length name + String.length (counted "" n))%nat.
Proof. unfold counted. by rewrite !length_append. Qed.

Lemma suffix_bound n : (Z.of_nat n < 2 ^ 62)%Z → (String.length (counted "" n) ≤ 63)%nat.
Proof.
  intros Hn. unfold counted. rewrite !length_append.
  pose proof (proj2 (counter_digits n) 62%nat ltac:(done) ltac:(lia)). cbn in *. lia.
Qed.

Lemma next_name_Ok name n :
  (Z.of_nat n < 2 ^ 62)%Z →
  ∃ pre, next_name name n = Ok (counted pre n) ∧
         (String.length (counted pre n) ≤ profileNameMaxLength)%nat.
Proof.
  intros Hn. unfold next_name, profileNameMaxLength. pose proof (suffix_bound n Hn) as Hs.
  destruct (Nat.ltb_spec 63 (String.length (counted name n))) as [Hlt|Hge]; [|by exists name].
  rewrite counted_length in Hlt.
  rewrite (proj2 (Nat.ltb_ge _ _) Hs), (proj2 (Nat.ltb_ge _ _)) by lia. cbn.
  eexists. split; [done|]. rewrite counted_length, substring_length by lia. lia.
Qed.

Lemma next_name_inj name n m a :
  (Z.of_nat n < 2 ^ 62)%Z → (Z.of_nat m < 2 ^ 62)%Z →
  next_name name n = Ok a → next_name name m = Ok a → n = m.
Proof.
  intros Hn Hm H1 H2. destruct (next_name_Ok name n Hn) as (p1 & E1 & _).
  destruct (next_name_Ok name m Hm) as (p2 & E2 & _). rewrite E1 in H1. rewrite E2 in H2.
  injection H1 as H1. injection H2 as H2. apply (counted_inj p1 p2); congruence.
Qed.

(** The names tried so far that are taken. *)
Definition tried (existing : gmap string Profile) (name : string) (counter : nat)
    (taken : gset string) : Prop :=
  taken ⊆ dom existing ∧ ∀ s, s ∈ taken → ∃ c, (c < counter)%nat ∧ next_name name c = Ok s.

Lemma name_loop_fresh existing name fuel counter taken derived :
  (Z.of_nat counter + Z.of_nat (size existing) < 2 ^ 62 + Z.of_nat (size taken))%Z →
  (size existing ≤ fuel + size taken)%nat →
  tried existing name counter taken → next_name name counter = Ok derived →
  (String.length derived ≤ profileNameMaxLength)%nat →
  ∃ n, name_loop fuel existing name (S counter) derived = Ok n ∧ existing !! n = None ∧
       (String.length n ≤ profileNameMaxLength)%nat.
Proof.
  revert counter taken derived. induction fuel as [|fuel IH];
    intros counter taken derived Hc Hfuel [Hsub Htaken] Hd Hlen; cbn [name_loop];
    destruct (existing !! derived) as [p|] eqn:Hp; [|by exists derived| |by exists derived].
  all: assert (Hin : derived ∈ dom existing) by (by apply elem_of_dom_2 in Hp).
  all: pose proof (subseteq_size _ _ Hsub) as Hsize; rewrite size_dom in Hsize.
  all: assert (Hnew : derived ∉ taken) by
    (intros (c & Hlt & Hn)%Htaken; pose proof (next_name_inj name c counter derived); 
     assert (c = counter) by (auto with lia); lia).
  all: assert (Hsize' : size ({[derived]} ∪ taken) = S (size taken)) by
    (rewrite size_union by set_solver; by rewrite size_singleton).
  all: pose proof (subseteq_size ({[derived]} ∪ taken) (dom existing) ltac:(set_solver)) as Hle;
    rewrite size_dom, Hsize' in Hle.
  - lia.
  - destruct (next_name_Ok name (S counter)) as (pre & Hn & Hlen'); [lia|]. rewrite Hn. cbn.
    apply (IH _ ({[derived]} ∪ taken)); [lia|lia| |done..]. split; [set_solver|].
    intros x [->%elem_of_singleton|Hx]%elem_of_union; [by exists counter; split; [lia|]|].
    destruct (Htaken x Hx) as (c & Hlt & Hc'). exists c. split; [lia|done].
Qed.

(** A profile always gets a name, and a new one.  When the name asked for, or
    made from the display name, is taken, a counter is appended, in place of the
    end of a long name; the search ends, within as many steps as there are
    names, with a name that is not among them, of at most 63 bytes unless it is
    the one asked for. *)
Theorem derived_name_fresh profile existing (Hsize : (Z.of_nat (size existing) < 2 ^ 61)%Z) :
  ∃ n, DeriveProfileNameFromDisplayName profile existing = Ok n ∧ existing !! n = None ∧
       (existing !! base_name profile = None → n = base_name profile) ∧
       (n = base_name profile ∨ (String.length n ≤ profileNameMaxLength)%nat).
Proof.
  unfold DeriveProfileNameFromDisplayName. cbn [name_loop].
  destruct (existing !! base_name profile) as [p|] eqn:Hp;
    [|exists (base_name profile); split_and!; auto].
  destruct (next_name_Ok (base_name profile) 1) as (pre & Hn & Hlen); [done|]. rewrite Hn.
  destruct (name_loop_fresh existing (base_name profile) (size existing) 1 ∅ (counted pre 1))
    as (n & Hrun & Hfree & Hl); [rewrite size_empty; lia|rewrite size_empty; lia| |done..|].
  - split; [set_solver|]. by intros x ?%not_elem_of_empty.
  - exists n. split_and!; [done..|by right].
Qed.

Definition taken_profile (name display : string) : Profile :=
  {| prof_Context := None; prof_Id := None; prof_Name := name; prof_Labels := [];
     prof_Repository := []; prof_BuildEnvironment := []; prof_Artifact := [];
     prof_PullRequest := []; prof_Release := []; prof_PipelineRun := []; prof_TaskRun := [];
     prof_Build := []; prof_Selection := []; prof_Remediate := None; prof_Alert := None;
     prof_Type := ""; prof_Version := ""; prof_DisplayName := display |}.

Definition ex_existing : gmap string Profile := {["my_profile" := taken_profile "my_profile" ""]}.

Lemma derived_name_fresh_witness :
  DeriveProfileNameFromDisplayName (taken_profile "" " My  profile! ") ex_existing
    = Ok "my_profile-1" ∧ ex_existing !! "my_profile-1" = None.
Proof.
  destruct (derived_name_fresh (taken_profile "" " My  profile! ") ex_existing)
    as (n & Hn & Hfree & _); [by unfold ex_existing; rewrite map_size_singleton|].
  assert (DeriveProfileNameFromDisplayName (taken_profile "" " My  profile! ") ex_existing
    = Ok "my_profile-1") as Hc by (vm_compute; reflexivity).
  rewrite Hn in Hc. injection Hc as Hc. rewrite Hc in Hn, Hfree. exact (conj Hn Hfree).
Defined.
