(* ===== verification/PropertyService.v ===== *)
(** * The service of entity properties

    internal/entities/properties/service/service.go, helpers.go and options.go,
    and internal/entities/models/models.go: the properties of an entity are kept
    in the database for a while, and fetched again from the provider when they
    are too old; entities are looked up by id, or by what a provider calls them. *)

From S2P Require Import Prelude GoErrors GoMonad GoStrings Uuid DbTypes EntityEvent Properties.
From S2P Require Import EntityMessage Database EntityModels HistoryDb HistoryStore EntityDb.
Local Open Scope string_scope.

Definition PropertyName : string := "name".
Definition PropertyUpstreamID : string := "upstream_id".

(** ** models.go *)

Section models.
Context `{PropertyJSON}.

Fixpoint propMap (dbProps : list (string * Property)) (m : gmap string goval)
    : res (gmap string goval) :=
  match dbProps with
  | [] => Ok m
  | (key, prop) :: dbProps =>
      anyVal ← PropValueFromDbV1 (pr_Value prop);
      propMap dbProps (<[key := anyVal]> m)
  end.

Definition DbPropsToModel (dbProps : list (string * Property)) : res Properties :=
  m ← propMap dbProps ∅; Ok (NewProperties m false).
End models.

(** ** The provider *)

Definition provif_ErrEntityNotFound : gerr :=
  ENew "provifv1.ErrEntityNotFound" "entity not found".

(** What the services ask of a provider (pkg/providers/v1/providers.go). *)
Record provif_EntityCreationOptions := {
  cd_RegisterWithProvider : bool; cd_PublishReconciliationEvent : bool;
}.

Record ProviderOps := {
  FetchAllProperties : Properties → Entity → Properties → prog World Properties;
  PropertiesToProtoMessage : Entity → Properties → res ProtoMessage;
  CreationOptions : Entity → option provif_EntityCreationOptions;
  GetEntityName : Entity → Properties → res string;
  RegisterEntity : Entity → Properties → prog World Properties;
  DeregisterEntity : Entity → Properties → prog World unit;
}.

Class ProviderManager := { InstantiateFromID : UUID → prog World ProviderOps }.

(** A provider talks to a remote service; it does not touch the tables. *)
Record leaves_tables (p : ProviderOps) : Prop := {
  lt_fetch : ∀ a t b w, w_db (FetchAllProperties p a t b w).1 = w_db w;
  lt_register : ∀ t a w, w_db (RegisterEntity p t a w).1 = w_db w;
  lt_deregister : ∀ t a w, w_db (DeregisterEntity p t a w).1 = w_db w;
}.

(** ** service.go *)

Definition ErrMultipleEntities : gerr :=
  ENew "service.ErrMultipleEntities" "multiple entities found".

Definition bypassCacheTimeout : Z := -1.

(** [CallOptions] and [ReadOptions]: whether they carry the querier of a
    transaction, and whether stale data will do. *)
Record ReadOptions := { ro_transaction : bool; ro_tolerateStaleData : bool }.

Record ByUpstreamHint := {
  bh_ProviderImplements : option string; bh_ProviderClass : option string;
}.

Definition isSet (hint : ByUpstreamHint) : bool :=
  match bh_ProviderImplements hint, bh_ProviderClass hint with
  | None, None => false
  | _, _ => true
  end.

Section service.
Context `{PropertyJSON} `{ProviderManager}.
Context (entityTimeout : Z).

(** *** Saving *)

Definition saveAllPropertiesWithQuerier (entityID : UUID) (props : Properties)
    : prog World unit :=
  match props with
  | None => lift (Panic "invalid memory address or nil pointer dereference")
  | Some props =>
      foreach (λ p, UpsertPropertyValueV1 entityID p.1 (RawValue (Some p.2))) (map_to_list props)
  end.

Definition replaceAllPropertiesWithQuerier (entityID : UUID) (props : Properties)
    : prog World unit :=
  wrapf "failed to delete properties: " (DeleteAllPropertiesForEntity entityID);;
  saveAllPropertiesWithQuerier entityID props.

(** In a transaction of its own, unless the caller is in one. *)
Definition ReplaceAllProperties (transaction : bool) (entityID : UUID) (props : Properties)
    : prog World unit :=
  if transaction then replaceAllPropertiesWithQuerier entityID props
  else WithTransactionErr (replaceAllPropertiesWithQuerier entityID props).

Definition SaveAllProperties (transaction : bool) (entityID : UUID) (props : Properties)
    : prog World unit :=
  if transaction then saveAllPropertiesWithQuerier entityID props
  else WithTransactionErr (saveAllPropertiesWithQuerier entityID props).

Definition ReplaceProperty (entityID : UUID) (key : string) (prop : option Value)
    : prog World unit :=
  match prop with
  | None => DeleteProperty entityID key
  | Some _ => UpsertPropertyValueV1 entityID key (RawValue prop)
  end.

(** *** Looking up *)

Definition getEntityWithProperties (id : UUID) (ent : EntityInstance)
    : prog World EntityWithProperties :=
  dbProps ← try (GetAllPropertiesForEntity id);
  match dbProps with
  | inr err =>
      throw (if errors_Is (Some err) ErrNoRows
             then EWrap "failed to get properties for entity: " ErrEntityNotFound ""
             else EWrap "failed to get properties for entity: " err "")
  | inl dbProps =>
      props ← wrapf "failed to convert properties to model: " (lift (DbPropsToModel dbProps));
      props ← match GetProperty props PropertyName with
              | None => wrapf "failed to set name property: "
                          (lift (SetKeyValue props PropertyName (GString (ei_Name ent))))
              | Some _ => mret props
              end;
      mret (NewEntityWithProperties id ent props)
  end.

Definition service_EntityWithPropertiesByID (entityID : UUID) : prog World EntityWithProperties :=
  ent ← try (GetEntityByID entityID);
  match ent with
  | inr err =>
      throw (if errors_Is (Some err) ErrNoRows then ErrEntityNotFound
             else EWrap "error getting entity: " err "")
  | inl ent => getEntityWithProperties entityID ent
  end.

(** A provider that cannot be read does not match. *)
Definition dbEntMatchesUpstreamHint (ent : EntityInstance) (hint : ByUpstreamHint)
    : prog World bool :=
  if isSet hint then
    dbProv ← try (GetProviderByID (ei_ProviderID ent));
    match dbProv with
    | inr _ => mret false
    | inl dbProv =>
        mret (match bh_ProviderClass hint with
              | Some class => String.eqb (prv_Class dbProv) class
              | None => true
              end &&
              match bh_ProviderImplements hint with
              | Some typ => bool_decide (typ ∈ prv_Implements dbProv)
              | None => true
              end)
    end
  else mret true.

Fixpoint find_match (ents : list (UUID * EntityInstance)) (hint : ByUpstreamHint)
    (found : option (UUID * EntityInstance)) : prog World (UUID * EntityInstance) :=
  match ents with
  | [] => match found with Some ent => mret ent | None => throw ErrEntityNotFound end
  | ent :: ents =>
      matches ← dbEntMatchesUpstreamHint ent.2 hint;
      if matches : bool then
        match found with
        | Some _ => throw ErrMultipleEntities
        | None => find_match ents hint (Some ent)
        end
      else find_match ents hint found
  end.

Definition findMatchByUpstreamHint (ents : list (UUID * EntityInstance)) (hint : ByUpstreamHint)
    : prog World (UUID * EntityInstance) := find_match ents hint None.

Definition getAllByProperty (propName : string) (propVal : goval) (entType : Entity)
    (projectID providerID : UUID) : prog World (list (UUID * EntityInstance)) :=
  ents ← try (GetTypedEntitiesByPropertyV1 (EntityTypeToDB entType) propName propVal
                projectID providerID);
  match ents with
  | inr err => throw (if errors_Is (Some err) ErrNoRows then ErrEntityNotFound
                      else EWrap "error fetching entities by property: " err "")
  | inl ents => mret ents
  end.

Fixpoint match_lookups (lookupOrder : list string) (props : Properties) (entType : Entity)
    (hint : ByUpstreamHint) : prog World (UUID * EntityInstance) :=
  match lookupOrder with
  | [] => throw ErrEntityNotFound
  | lookupProp :: rest =>
      match GetProperty props lookupProp with
      | None => match_lookups rest props entType hint
      | Some prop =>
          ents ← wrapf "failed to get entities by upstream ID: "
            (getAllByProperty lookupProp (RawValue (Some prop)) entType uuid_Nil uuid_Nil);
          found ← try (findMatchByUpstreamHint ents hint);
          match found with
          | inl ent => mret ent
          | inr err =>
              if errors_Is (Some err) ErrEntityNotFound || errors_Is (Some err) ErrMultipleEntities
              then match_lookups rest props entType hint
              else throw (EWrap "failed to match entity by hint: " err "")
          end
      end
  end.

Definition matchEntityWithHint (props : Properties) (entType : Entity) (hint : ByUpstreamHint)
    : prog World (UUID * EntityInstance) :=
  if negb (isSet hint)
  then throw (EText "at least one of projectID, providerID or providerImplements must be set in hint")
  else match_lookups [PropertyUpstreamID; PropertyName] props entType hint.

Definition EntityWithPropertiesByUpstreamHint (entType : Entity) (getByProps : Properties)
    (hint : ByUpstreamHint) : prog World EntityWithProperties :=
  ent ← wrapf "failed to get entity ID: " (matchEntityWithHint getByProps entType hint);
  getEntityWithProperties ent.1 ent.2.

(** *** helpers.go: the cache *)

Definition isDatabasePropertyValid (now : Z) (dbProp : Property) (opts : ReadOptions) : bool :=
  if (entityTimeout =? bypassCacheTimeout)%Z then false
  else (now - pr_UpdatedAt dbProp <? entityTimeout)%Z || ro_tolerateStaleData opts.

Definition areDatabasePropertiesValid (now : Z) (dbProps : list (string * Property))
    (opts : ReadOptions) : bool :=
  forallb (λ p, isDatabasePropertyValid now p.2 opts) dbProps.

(** The second half of [retrieveAllPropertiesForEntity]. *)
Definition refreshProperties (provider : ProviderOps) (entID : UUID)
    (lookupProperties : Properties) (entType : Entity) (modelProps : Properties)
    (opts : ReadOptions) : prog World Properties :=
  refreshedProps ← try (FetchAllProperties provider lookupProperties entType modelProps);
  match refreshedProps with
  | inr err =>
      throw (if errors_Is (Some err) provif_ErrEntityNotFound
             then EWrap "failed to fetch upstream properties: " ErrEntityNotFound ""
             else err)
  | inl refreshedProps =>
      if (entID =? uuid_Nil)%N then mret refreshedProps
      else
        wrapf "failed to update properties: "
          (ReplaceAllProperties (ro_transaction opts) entID refreshedProps);;
        mret refreshedProps
  end.

Definition retrieveAllPropertiesForEntity (provider : ProviderOps) (entID : UUID)
    (lookupProperties : Properties) (entType : Entity) (opts : ReadOptions)
    : prog World Properties :=
  dbProps ← if (entID =? uuid_Nil)%N then mret []
            else (r ← try (GetAllPropertiesForEntity entID);
                  match r with
                  | inl rows => mret rows
                  | inr err => if errors_Is (Some err) ErrNoRows then mret [] else throw err
                  end);
  modelProps ← match dbProps with
               | [] => mret None
               | _ => wrapf "failed to convert properties: " (lift (DbPropsToModel dbProps))
               end;
  now ← gets w_now;
  if match dbProps with [] => false | _ => areDatabasePropertiesValid now dbProps opts end
  then mret modelProps
  else refreshProperties provider entID lookupProperties entType modelProps opts.

Definition getEntityIdByUpstreamID (projectID providerID : UUID) (upstreamID : string)
    (entType : Entity) : prog World UUID :=
  ents ← getAllByProperty PropertyUpstreamID (GString upstreamID) entType projectID providerID;
  match ents with
  | [] => throw ErrEntityNotFound
  | [ent] => mret ent.1
  | _ => throw ErrMultipleEntities
  end.

Definition getEntityIdByName (projectId providerID : UUID) (name : string) (entType : Entity)
    : prog World UUID :=
  ent ← try (GetEntityByName {| gn_ProjectID := projectId; gn_EntityType := EntityTypeToDB entType;
                                gn_Name := name; gn_ProviderID := providerID |});
  match ent with
  | inl ent => mret ent.1
  | inr err => throw (if errors_Is (Some err) ErrNoRows then ErrEntityNotFound
                      else EWrap "failed to get entity by name: " err "")
  end.

Definition getEntityIdByProperties (projectId providerID : UUID) (props : Properties)
    (entType : Entity) : prog World UUID :=
  let by_name :=
    match GetProperty props PropertyName with
    | Some name => getEntityIdByName projectId providerID (GetString (Some name)) entType
    | None => mret uuid_Nil
    end in
  match GetProperty props PropertyUpstreamID with
  | None => by_name
  | Some upstreamID =>
      ent ← try (getEntityIdByUpstreamID projectId providerID (GetString (Some upstreamID)) entType);
      match ent with
      | inl ent => mret ent
      | inr err => if errors_Is (Some err) ErrEntityNotFound then by_name else throw err
      end
  end.

Definition RetrieveAllProperties (provider : ProviderOps) (projectId providerID : UUID)
    (lookupProperties : Properties) (entType : Entity) (opts : ReadOptions)
    : prog World Properties :=
  entID ← try (getEntityIdByProperties projectId providerID lookupProperties entType);
  match entID with
  | inl entID => retrieveAllPropertiesForEntity provider entID lookupProperties entType opts
  | inr err =>
      if errors_Is (Some err) ErrEntityNotFound
      then retrieveAllPropertiesForEntity provider uuid_Nil lookupProperties entType opts
      else throw (EWrap "failed to get entity ID: " err "")
  end.

(** The entity the pointer refers to gets the new properties. *)
Definition RetrieveAllPropertiesForEntity (efp : EntityWithProperties) (opts : ReadOptions)
    : prog World EntityWithProperties :=
  propClient ← wrapf "error instantiating provider: "
                 (InstantiateFromID (em_ProviderID (ewp_Entity efp)));
  props ← wrapf "error fetching properties for entity: "
    (retrieveAllPropertiesForEntity propClient (em_ID (ewp_Entity efp)) (ewp_Properties efp)
       (em_Type (ewp_Entity efp)) opts);
  mret (UpdateProperties props efp).

Definition service_EntityWithPropertiesAsProto (ewp : EntityWithProperties) : prog World ProtoMessage :=
  prov ← wrapf "error instantiating provider: "
           (InstantiateFromID (em_ProviderID (ewp_Entity ewp)));
  lift (PropertiesToProtoMessage prov (em_Type (ewp_Entity ewp)) (ewp_Properties ewp)).

(** The service behind the interface of its clients. *)
#[export] Instance propertiesService : PropertiesService :=
  {| EntityWithPropertiesByID := service_EntityWithPropertiesByID;
     EntityWithPropertiesAsProto := service_EntityWithPropertiesAsProto |}.
End service.

(** ** Lemmas *)

Section rows.
Context `{PropertyJSON}.

Lemma json_flat_AsInterface v : storable v → json_flat (AsInterface v).
Proof.
  destruct v as [|f|s|b|m|l]; simpl; intros Hv.
  - by rewrite AsInterface_null.
  - by rewrite AsInterface_number.
  - by rewrite AsInterface_string.
  - by rewrite AsInterface_bool.
  - destruct Hv as (m' & -> & Hm). rewrite AsInterface_struct. exists m'. split; [|done].
    rewrite <-map_fmap_compose. apply map_fmap_ext. intros i x _. apply AsInterface_string.
  - done.
Qed.

Lemma value_stored v :
  storable v → ∃ s, PropValueToDbV1 (AsInterface v) = Ok s ∧ PropValueFromDbV1 s = Ok (AsInterface v).
Proof.
  intros Hv%json_flat_AsInterface.
  destruct (wrapper_roundtrip propValueV1 (AsInterface v) eq_refl Hv) as (s & Hm & Hu).
  exists s. unfold PropValueToDbV1, PropValueFromDbV1, propValueFromDb. by rewrite Hm, Hu.
Qed.

Lemma elem_of_properties_of d id k row :
  (k, row) ∈ properties_of d id ↔ properties d !! (id, k) = Some row.
Proof.
  unfold properties_of. rewrite list_elem_of_omap. split.
  - intros ([[i k'] row'] & Hin & Hs). simpl in Hs. case_bool_decide; [|done].
    injection Hs as -> ->. subst. by apply elem_of_map_to_list.
  - intros Hrow. exists ((id, k), row). split; [by apply elem_of_map_to_list|]. simpl.
    by rewrite bool_decide_eq_true_2.
Qed.

Lemma properties_of_NoDup d id : NoDup (properties_of d id).*1.
Proof.
  unfold properties_of. pose proof (NoDup_fst_map_to_list (properties d)) as Hnd.
  induction (map_to_list (properties d)) as [|[[i k] row] l IH]; simpl; [constructor|].
  apply NoDup_cons in Hnd as [Hnin Hnd]. case_bool_decide as Hi; [|by apply IH].
  rewrite fmap_cons. apply NoDup_cons. split; [|by apply IH]. simpl in *. subst i.
  intros ([k' row'] & -> & Hin)%list_elem_of_fmap. apply Hnin.
  apply list_elem_of_omap in Hin as ([[i k''] row''] & Hin & Hs). simpl in *.
  case_bool_decide; [|done]. injection Hs as -> ->. subst.
  apply list_elem_of_fmap. by exists ((id, k'), row').
Qed.

Lemma propMap_Ok l m :
  (∀ k row, (k, row) ∈ l → ∃ g, PropValueFromDbV1 (pr_Value row) = Ok g) → NoDup l.*1 →
  ∃ m', propMap l m = Ok m' ∧ (∀ k, (k ∉ l.*1) → m' !! k = m !! k) ∧
    (∀ k row g, (k, row) ∈ l → PropValueFromDbV1 (pr_Value row) = Ok g → m' !! k = Some g).
Proof.
  revert m. induction l as [|[k row] l IH]; intros m Hl Hnd; simpl.
  { exists m. split_and!; [done..|]. by intros ? ? ? ?%elem_of_nil. }
  apply NoDup_cons in Hnd as [Hnin Hnd]. simpl in Hnin.
  destruct (Hl k row (list_elem_of_here _ _)) as [g Hg]. rewrite Hg. simpl.
  destruct (IH (<[k := g]> m)) as (m' & Hm' & Hout & Hin); [|done|].
  { intros k' row' Hin. apply (Hl k' row'). by right. }
  exists m'. split; [done|]. split.
  - intros k' [Hne Hn]%not_elem_of_cons. rewrite Hout by done. by rewrite lookup_insert_ne.
  - intros k' row' g' [[= -> ->]|Hk]%elem_of_cons Hg'.
    + rewrite Hg in Hg'. injection Hg' as <-. rewrite Hout by done. apply lookup_insert_eq.
    + by eapply Hin.
Qed.

(** The rows of [id] hold the values of [props], and nothing else. *)
Definition stored (d : Db) (id : UUID) (props : gmap string Value) : Prop :=
  ∀ k, match props !! k with
       | Some v => ∃ row, properties d !! (id, k) = Some row ∧
                          PropValueToDbV1 (AsInterface v) = Ok (pr_Value row)
       | None => properties d !! (id, k) = None
       end.

Lemma stored_read d id props :
  stored d id props → map_Forall (λ _ v, storable v) props →
  DbPropsToModel (properties_of d id)
    = Ok (Some (filter (λ kv, Strings.HasPrefix kv.1 internalPrefix = false) props)).
Proof.
  intros Hst Hp.
  assert (Hrow : ∀ k row, properties d !! (id, k) = Some row →
    ∃ v, props !! k = Some v ∧ PropValueFromDbV1 (pr_Value row) = Ok (AsInterface v)).
  { intros k row Hk. specialize (Hst k). destruct (props !! k) as [v|] eqn:Hv; [|congruence].
    destruct Hst as (row' & Hk' & Hs). rewrite Hk in Hk'. injection Hk' as <-. exists v.
    split; [done|]. destruct (value_stored v) as (s & Hs1 & Hs2); [by eapply Hp|].
    rewrite Hs in Hs1. by injection Hs1 as ->. }
  unfold DbPropsToModel.
  destruct (propMap_Ok (properties_of d id) ∅) as (m & Hm & Hout & Hin);
    [|apply properties_of_NoDup|].
  { intros k row Hk%elem_of_properties_of. destruct (Hrow k row Hk) as (v & _ & Hv). by exists (AsInterface v). }
  rewrite Hm. simpl. f_equal. replace m with (AsInterface <$> props).
  { by rewrite NewProperties_storable. }
  apply map_eq. intros k. rewrite lookup_fmap. specialize (Hst k).
  destruct (props !! k) as [v|] eqn:Hv; simpl; symmetry.
  - destruct Hst as (row & Hk & Hs). destruct (Hrow k row Hk) as (v' & Hv' & Hg).
    rewrite Hv in Hv'. injection Hv' as <-. eapply Hin; [|done]. by apply elem_of_properties_of.
  - rewrite Hout; [apply lookup_empty|]. intros ([k' row] & -> & Hk)%list_elem_of_fmap.
    apply elem_of_properties_of in Hk. simpl in Hst. congruence.
Qed.

(** *** Writing *)

(** [w'] is [w] but for failures that were used up and the rows of [id]. *)
Definition touches (id : UUID) (w w' : World) : Prop :=
  ∃ t, w_db w' = set_properties t (w_db w) ∧
    (∀ j k, j ≠ id → t !! (j, k) = properties (w_db w) !! (j, k)).

Lemma touches_refl id w w' : w_db w' = w_db w → touches id w w'.
Proof. intros Hw. exists (properties (w_db w)). rewrite Hw. split; [by destruct (w_db w)|done]. Qed.

Lemma touches_trans id w1 w2 w3 : touches id w1 w2 → touches id w2 w3 → touches id w1 w3.
Proof.
  intros (t & H1 & Ht) (t' & H2 & Ht'). exists t'. rewrite H2, H1. split; [done|].
  intros j k Hj. rewrite Ht' by done. rewrite H1. simpl. by apply Ht.
Qed.

(** Rows of an entity that is there refer to it. *)
Lemma touches_wf id w w' :
  touches id w w' → is_Some (entity_instances (w_db w) !! id) → entities_wf (w_db w) →
  entities_wf (w_db w').
Proof.
  intros (t & -> & Ht) Hid Hwf. split; simpl; try apply Hwf.
  intros [j k] p Hp. simpl. destruct (decide (j = id)) as [->|Hj]; [done|].
  rewrite Ht in Hp by done. exact (ew_properties _ Hwf _ _ Hp).
Qed.

Lemma Upsert_Ok id k v w w' :
  UpsertPropertyValueV1 id k (AsInterface v) w = (w', Ok tt) →
  touches id w w' ∧
  (∀ k', k' ≠ k → properties (w_db w') !! (id, k') = properties (w_db w) !! (id, k')) ∧
  ∃ row, properties (w_db w') !! (id, k) = Some row ∧
    PropValueToDbV1 (AsInterface v) = Ok (pr_Value row).
Proof.
  unfold UpsertPropertyValueV1. intros (w1 & s & Hs & Hq)%prog_bind_Ok. unfold lift in Hs.
  injection Hs as <- Hs. unfold UpsertProperty in Hq.
  match type of Hq with query ?f _ = _ =>
    destruct (query_cases f w) as [(e & fs & Hc)|(fs & Hc)] end; rewrite Hc in Hq; clear Hc; [done|].
  simpl in Hq. case_bool_decide; [|done]. injection Hq as <-. simpl. split_and!.
  - eexists. split; [done|]. intros j k' Hj. by rewrite lookup_insert_ne by congruence.
  - intros k' Hk. by rewrite lookup_insert_ne by congruence.
  - eexists. split; [apply lookup_insert_eq|done].
Qed.

Lemma Upsert_runs id k v w :
  w_faults w = [] → is_Some (entity_instances (w_db w) !! id) → storable v →
  ∃ w', UpsertPropertyValueV1 id k (AsInterface v) w = (w', Ok tt) ∧ w_faults w' = [].
Proof.
  intros Hf He Hv. destruct (value_stored v Hv) as (s & Hs & _).
  unfold UpsertPropertyValueV1. rewrite Hs. unfold mbind, prog_bind, lift. cbv beta iota.
  unfold UpsertProperty. rewrite query_ok by done. simpl. rewrite bool_decide_eq_true_2 by done.
  eexists. done.
Qed.

Definition upsert_all (id : UUID) (l : list (string * Value)) : prog World unit :=
  foreach (λ p, UpsertPropertyValueV1 id p.1 (RawValue (Some p.2))) l.

Lemma upsert_all_Ok id l w w' :
  upsert_all id l w = (w', Ok tt) → NoDup l.*1 →
  touches id w w' ∧
  (∀ k, (k ∉ l.*1) → properties (w_db w') !! (id, k) = properties (w_db w) !! (id, k)) ∧
  (∀ k v, (k, v) ∈ l → ∃ row, properties (w_db w') !! (id, k) = Some row ∧
     PropValueToDbV1 (AsInterface v) = Ok (pr_Value row)).
Proof.
  revert w. induction l as [|[k v] l IH]; intros w Hrun Hnd; simpl in Hrun.
  { injection Hrun as <-. split_and!; [by apply touches_refl|done|]. by intros ? ? ?%elem_of_nil. }
  apply NoDup_cons in Hnd as [Hnin Hnd]. simpl in Hnin.
  unfold upsert_all in Hrun. simpl in Hrun. apply prog_bind_Ok in Hrun as (w1 & [] & Hu & Hrun).
  destruct (Upsert_Ok _ _ _ _ _ Hu) as (Ht1 & Hk1 & row & Hrow & Hs).
  destruct (IH w1 Hrun Hnd) as (Ht & Hout & Hin). split_and!.
  - by eapply touches_trans.
  - intros k' [Hne Hn]%not_elem_of_cons. rewrite Hout by done. by apply Hk1.
  - intros k' v' [[= -> ->]|Hk]%elem_of_cons; [|by apply Hin]. exists row.
    by rewrite Hout.
Qed.

Lemma upsert_all_runs id l w :
  w_faults w = [] → is_Some (entity_instances (w_db w) !! id) → (∀ p, p ∈ l → storable p.2) →
  ∃ w', upsert_all id l w = (w', Ok tt) ∧ w_faults w' = [].
Proof.
  revert w. induction l as [|[k v] l IH]; intros w Hf He Hl; [by exists w|].
  destruct (Upsert_runs id k v w) as (w1 & Hu & Hf1); [done..|apply (Hl (k, v)); by left|].
  destruct (Upsert_Ok _ _ _ _ _ Hu) as ((t & Hd & _) & _).
  destruct (IH w1) as (w' & Hrun & Hf'); [done|by rewrite Hd| |].
  { intros p Hp. apply Hl. by right. }
  exists w'. split; [|done]. unfold upsert_all. simpl. by rewrite (prog_bind_run _ _ _ _ _ Hu).
Qed.

Lemma replaceAll_Ok id props w w' :
  replaceAllPropertiesWithQuerier id props w = (w', Ok tt) →
  ∃ m, props = Some m ∧ touches id w w' ∧ stored (w_db w') id m.
Proof.
  unfold replaceAllPropertiesWithQuerier. intros (w1 & [] & Hd%wrapf_Ok & Hs)%prog_bind_Ok.
  destruct props as [m|]; [|done]. exists m. split; [done|].
  unfold DeleteAllPropertiesForEntity in Hd.
  match type of Hd with query ?f _ = _ =>
    destruct (query_cases f w) as [(e & fs & Hc)|(fs & Hc)] end; rewrite Hc in Hd; clear Hc; [done|].
  injection Hd as <-.
  destruct (upsert_all_Ok _ _ _ _ Hs (NoDup_fst_map_to_list m)) as (Ht & Hout & Hin). split.
  - eapply touches_trans; [|exact Ht]. eexists. split; [done|]. intros j k Hj.
    rewrite map_lookup_filter. destruct (properties _ !! _); simpl; [|done].
    by rewrite option_guard_True.
  - intros k. destruct (m !! k) as [v|] eqn:Hk.
    + apply Hin. by apply elem_of_map_to_list.
    + rewrite Hout.
      * apply map_lookup_filter_None. right. intros row _ Hne. by apply Hne.
      * intros ([k' v] & -> & Hv%elem_of_map_to_list)%list_elem_of_fmap. simpl in Hk. congruence.
Qed.

Lemma replaceAll_runs id m w :
  w_faults w = [] → is_Some (entity_instances (w_db w) !! id) → map_Forall (λ _ v, storable v) m →
  ∃ w', replaceAllPropertiesWithQuerier id (Some m) w = (w', Ok tt) ∧ w_faults w' = [].
Proof.
  intros Hf He Hm. unfold replaceAllPropertiesWithQuerier, DeleteAllPropertiesForEntity.
  unfold mbind, prog_bind at 1, wrapf. rewrite query_ok by done. simpl.
  apply upsert_all_runs; [done..|]. intros [k v] Hv%elem_of_map_to_list. by eapply Hm.
Qed.
(** Statements on the tables publish nothing. *)
Definition same_messages (p : list (string * message)) (w : World) : Prop := w_published w = p.

Lemma query_messages {A} p (f : World → World * res A) :
  (∀ w, w_published (f w).1 = w_published w) → preserves (same_messages p) (query f).
Proof.
  intros Hf w Hw. unfold same_messages in *.
  destruct (query_cases f w) as [(e & fs & ->)|(fs & ->)]; [done|]. by rewrite Hf.
Qed.

Lemma replaceAll_messages p id m :
  preserves (same_messages p) (replaceAllPropertiesWithQuerier id (Some m)).
Proof.
  unfold replaceAllPropertiesWithQuerier. apply preserves_bind.
  - apply preserves_wrapf. by apply query_messages.
  - intros _. apply preserves_foreach. intros [k v]. unfold UpsertPropertyValueV1.
    apply preserves_bind; [apply preserves_lift|]. intros s. apply query_messages.
    intros w. simpl. by case_bool_decide.
Qed.
End rows.

(** ** Properties *)

(** What an entity with the properties [m] has when it is read back. *)
Definition read_back_props (m : gmap string Value) (name : string) : gmap string Value :=
  let kept := filter (λ kv, Strings.HasPrefix kv.1 internalPrefix = false) m in
  match kept !! PropertyName with
  | Some _ => kept
  | None => <[PropertyName := StringValue name]> kept
  end.

Section properties.
Context `{PropertyJSON}.

Lemma read_properties id ent m w :
  w_faults w = [] → stored (w_db w) id m →
  map_Forall (λ _ v, storable v) m → utf8_ValidString (ei_Name ent) = true →
  getEntityWithProperties id ent w
    = (w, Ok (NewEntityWithProperties id ent (Some (read_back_props m (ei_Name ent))))).
Proof.
  intros Hf Hst Hm Hname. unfold getEntityWithProperties, GetAllPropertiesForEntity.
  unfold mbind at 1, prog_bind at 1, try at 1. rewrite select_ok by done.
  unfold mbind at 1, prog_bind at 1, wrapf, lift.
  rewrite (stored_read _ _ _ Hst Hm). simpl wrapf_res. cbv iota beta.
  unfold mbind at 1, prog_bind at 1, read_back_props. cbv zeta.
  set (kept := filter _ m). unfold GetProperty.
  destruct (kept !! PropertyName) as [v|] eqn:Hn; [done|].
  unfold SetKeyValue, NewProperty. by rewrite NewValue_string.
Qed.

Lemma read_entity id ent m w :
  w_faults w = [] → entity_instances (w_db w) !! id = Some ent → stored (w_db w) id m →
  map_Forall (λ _ v, storable v) m → utf8_ValidString (ei_Name ent) = true →
  service_EntityWithPropertiesByID id w
    = (w, Ok (NewEntityWithProperties id ent (Some (read_back_props m (ei_Name ent))))).
Proof.
  intros Hf He Hst Hm Hname. unfold service_EntityWithPropertiesByID, GetEntityByID.
  unfold mbind at 1, prog_bind at 1, try at 1. rewrite select_ok by done. rewrite He.
  by apply read_properties.
Qed.

(** What is saved is what is read.  With a working connection, replacing
    the properties of an entity succeeds and changes the rows of no other
    entity; the entity then reads back with exactly these properties, less those
    with an internal name, and with its own name when they do not give one. *)
Theorem replaced_properties_read_back id ent m w
    (Hf : w_faults w = []) (He : entity_instances (w_db w) !! id = Some ent)
    (Hm : map_Forall (λ _ v, storable v) m) (Hname : utf8_ValidString (ei_Name ent) = true) :
  ∃ w', ReplaceAllProperties false id (Some m) w = (w', Ok tt) ∧ touches id w w' ∧
    service_EntityWithPropertiesByID id w'
      = (w', Ok (NewEntityWithProperties id ent (Some (read_back_props m (ei_Name ent))))).
Proof.
  destruct (replaceAll_runs id m w) as (w' & Hrun & Hf'); [done|by eexists|done|].
  destruct (replaceAll_Ok _ _ _ _ Hrun) as (m' & [= <-] & (t & Hd & Ht) & Hst).
  exists w'. split_and!.
  - by apply transaction_runs.
  - by exists t.
  - apply read_entity; try done. by rewrite Hd.
Qed.

(** *** Refreshing *)

(** The rows of the entity as the cache has them. *)
Definition cached_rows (d : Db) (entID : UUID) : list (string * Property) :=
  if (entID =? uuid_Nil)%N then [] else properties_of d entID.

Definition cache_valid (entityTimeout now : Z) (rows : list (string * Property))
    (opts : ReadOptions) : bool :=
  match rows with [] => false | _ => areDatabasePropertiesValid entityTimeout now rows opts end.

Lemma cached_read entID w :
  ∃ fs r, (w_faults w = [] → r = Ok (cached_rows (w_db w) entID) ∧ fs = []) ∧
    (is_ok r = true → r = Ok (cached_rows (w_db w) entID) ∨ r = Ok []) ∧
    (if (entID =? uuid_Nil)%N then mret []
     else (r ← try (GetAllPropertiesForEntity entID);
           match r with
           | inl rows => mret rows
           | inr err => if errors_Is (Some err) ErrNoRows then mret [] else throw err
           end)) w = (set_faults fs w, r).
Proof.
  unfold cached_rows. destruct (entID =? uuid_Nil)%N.
  { exists (w_faults w), (Ok []). split_and!; [done|by left|]. by destruct w. }
  unfold GetAllPropertiesForEntity, select, try, mbind, prog_bind.
  match goal with |- context [query ?f w] =>
    destruct (query_faults f w) as [(e & fs & Hw & Hc)|(fs & Hw & Hc)] end; rewrite Hc.
  - destruct (errors_Is (Some e) ErrNoRows); exists fs.
    + exists (Ok []). split_and!; [by rewrite Hw|by right|done].
    + exists (Err e). split_and!; [by rewrite Hw|done|done].
  - exists fs, (Ok (properties_of (w_db w) entID)). split_and!; [by intros ->%Hw|by left|done].
Qed.

(** What a refresh can do to the tables: nothing, or replace all the rows of
    the entity with what the provider said. *)
Definition refreshed (provider : ProviderOps) (entID : UUID) (lookup : Properties) (t : Entity)
    (w w' : World) (r : res Properties) : Prop :=
  (w_db w' = w_db w ∧
   ∀ props, r = Ok props →
     entID = uuid_Nil ∧
     ∃ model w1 w2, FetchAllProperties provider lookup t model w1 = (w2, Ok props)) ∨
  (∃ m model w1 w2, r = Ok (Some m) ∧ entID ≠ uuid_Nil ∧
     FetchAllProperties provider lookup t model w1 = (w2, Ok (Some m)) ∧
     touches entID w w' ∧ stored (w_db w') entID m).

Lemma touches_db id w1 w2 w1' w2' :
  w_db w1' = w_db w1 → w_db w2' = w_db w2 → touches id w1 w2 → touches id w1' w2'.
Proof. unfold touches. by intros -> ->. Qed.

Lemma refreshProperties_run provider entID lookup t model opts w w' r :
  leaves_tables provider → ro_transaction opts = false →
  refreshProperties provider entID lookup t model opts w = (w', r) →
  refreshed provider entID lookup t w w' r.
Proof.
  intros Hprov Htx Hrun. unfold refreshProperties, mbind, prog_bind, try in Hrun.
  pose proof (lt_fetch _ Hprov lookup t model w) as Hdb.
  destruct (FetchAllProperties _ _ _ _ _) as [w2 [props|e|p]] eqn:Hfetch; simpl in Hdb;
    [|by injection Hrun as <- <-; left..].
  destruct (N.eqb_spec entID uuid_Nil) as [Hnil|Hnil].
  { injection Hrun as <- <-. left. split; [done|]. intros ? [= <-]. split; [done|].
    by exists model, w, w2. }
  rewrite Htx in Hrun. unfold ReplaceAllProperties, wrapf in Hrun.
  destruct (WithTransactionErr _ w2) as [w3 r3] eqn:Htr.
  destruct (WithTransactionErr_cases _ _ _ _ Htr)
    as [(-> & fs3 & w4 & _ & Hrep & Hd3 & _)|(Hr3 & Hd3)].
  - destruct (replaceAll_Ok _ _ _ _ Hrep) as (m & -> & Ht & Hst). injection Hrun as <- <-.
    right. exists m, model, w, w2. split_and!; [done..| |by rewrite Hd3].
    by eapply touches_db; [..|exact Ht].
  - left. destruct r3 as [[]|e|p]; [done|..]; injection Hrun as <- <-; by rewrite Hd3.
Qed.

(** A refresh that succeeds wrote the rows of its entity at most, in a transaction
    or not. *)
Lemma ReplaceAll_touches tx entID props w w' :
  ReplaceAllProperties tx entID props w = (w', Ok tt) → touches entID w w'.
Proof.
  unfold ReplaceAllProperties. destruct tx.
  - by intros (m & _ & Ht & _)%replaceAll_Ok.
  - intros [(_ & fs & w2 & _ & Hr & Hd & _)|[? _]]%WithTransactionErr_cases; [|done].
    apply replaceAll_Ok in Hr as (m & _ & Ht & _). by eapply touches_db; [..|exact Ht].
Qed.

Lemma refreshProperties_touches provider entID lookup t model opts w w' props :
  leaves_tables provider →
  refreshProperties provider entID lookup t model opts w = (w', Ok props) → touches entID w w'.
Proof.
  intros Hprov Hrun. unfold refreshProperties, mbind, prog_bind, try in Hrun.
  pose proof (lt_fetch _ Hprov lookup t model w) as Hdb.
  destruct (FetchAllProperties _ _ _ _ _) as [w2 [props2|e|p]]; simpl in Hdb; [|done..].
  destruct (entID =? uuid_Nil)%N; [injection Hrun as <- _; by apply touches_refl|].
  unfold wrapf in Hrun. destruct (ReplaceAllProperties _ _ _ w2) as [w3 [[]|e|p]] eqn:Hrep; try done.
  injection Hrun as <- _. apply ReplaceAll_touches in Hrep. by eapply touches_db; [..|exact Hrep].
Qed.

Lemma retrieve_touches entityTimeout provider entID lookup t opts w w' props :
  leaves_tables provider →
  retrieveAllPropertiesForEntity entityTimeout provider entID lookup t opts w = (w', Ok props) →
  touches entID w w'.
Proof.
  intros Hprov Hrun. unfold retrieveAllPropertiesForEntity in Hrun.
  destruct (cached_read entID w) as (fs & r0 & _ & _ & Hread).
  apply prog_bind_Ok in Hrun as (w1 & rows & Hr & Hrun).
  rewrite Hread in Hr. injection Hr as <- ->.
  apply prog_bind_Ok in Hrun as (w2 & model & Hm & Hrun).
  assert (w2 = set_faults fs w) as ->.
  { destruct rows; [by injection Hm as <- _|]. apply wrapf_Ok in Hm. by injection Hm as <- _. }
  apply prog_bind_Ok in Hrun as (w3 & now & Hn & Hrun). injection Hn as <- <-.
  destruct (match rows with [] => false | _ => _ end).
  - injection Hrun as <- _. by apply touches_refl.
  - apply refreshProperties_touches in Hrun; [|done]. by eapply touches_db; [..|exact Hrun].
Qed.

(** C14: a refresh is all or nothing, and the cache is the table.  Whatever
    statement fails, either the tables are as they were (and properties that are
    answered were cached and valid, or belong to no known entity), or exactly the
    rows of the entity were replaced, all of them, with the answer of the
    provider, which is the answer of the call. *)
Theorem refresh_all_or_nothing entityTimeout provider entID lookup t opts w w' r
    (Hprov : leaves_tables provider) (Htx : ro_transaction opts = false)
    (Hrun : retrieveAllPropertiesForEntity entityTimeout provider entID lookup t opts w = (w', r)) :
  (w_db w' = w_db w ∧ ∃ props, r = Ok props ∧
     DbPropsToModel (cached_rows (w_db w) entID) = Ok props ∧
     cache_valid entityTimeout (w_now w) (cached_rows (w_db w) entID) opts = true) ∨
  refreshed provider entID lookup t w w' r.
Proof.
  unfold retrieveAllPropertiesForEntity in Hrun.
  destruct (cached_read entID w) as (fs & r0 & _ & Hr0 & Hread).
  unfold mbind at 1, prog_bind at 1 in Hrun. rewrite Hread in Hrun. clear Hread.
  assert (Hnothing : ∀ w1 r1, w_db w1 = w_db w → is_ok r1 = false →
    refreshed provider entID lookup t w w1 r1).
  { intros w1 r1 Hw1 Hr1. left. split; [done|]. by intros ? ->. }
  destruct r0 as [rows|e|p]; [|injection Hrun as <- <-; right; by apply Hnothing..].
  assert (Hrows : rows = cached_rows (w_db w) entID ∨ rows = []).
  { destruct (Hr0 eq_refl) as [[= ->]|[= ->]]; [by left|by right]. }
  destruct rows as [|row rows].
  - right. eapply refreshProperties_run in Hrun; [|done..].
    destruct Hrun as [[Hd Hok]|(m & model & w1 & w2 & Hm)]; [by left|right].
    exists m, model, w1, w2. exact Hm.
  - destruct Hrows as [Hrows|]; [|done]. rewrite Hrows in Hrun.
    unfold mbind at 1, prog_bind at 1, wrapf, lift in Hrun.
    destruct (DbPropsToModel _) as [props|e|p] eqn:Hmodel; simpl in Hrun;
      [|injection Hrun as <- <-; right; by apply Hnothing..].
    unfold mbind, prog_bind, gets in Hrun.
    change (w_now (set_faults fs w)) with (w_now w) in Hrun. rewrite <-Hrows in Hrun.
    destruct (areDatabasePropertiesValid _ _ _ _) eqn:Hvalid.
    + injection Hrun as <- <-. left. split; [done|]. exists props. by rewrite <-Hrows.
    + right. eapply refreshProperties_run in Hrun; [|done..].
      destruct Hrun as [[Hd Hok]|(m & model & w1 & w2 & Hm)]; [by left|right].
      exists m, model, w1, w2. exact Hm.
Qed.

(** A valid cache answers alone, and a bypassed one never does.  With a
    working connection, rows that are all fresh (or may be stale) are the answer
    whatever the provider, and nothing is written; when the cache is bypassed,
    the answer is the provider's even if the rows are new. *)
Theorem cache_decides entityTimeout provider entID lookup t opts w props
    (Hf : w_faults w = []) (Hmodel : DbPropsToModel (cached_rows (w_db w) entID) = Ok props) :
  (cache_valid entityTimeout (w_now w) (cached_rows (w_db w) entID) opts = true →
   retrieveAllPropertiesForEntity entityTimeout provider entID lookup t opts w = (w, Ok props)) ∧
  retrieveAllPropertiesForEntity bypassCacheTimeout provider entID lookup t opts w
    = refreshProperties provider entID lookup t
        (match cached_rows (w_db w) entID with [] => None | _ => props end) opts w.
Proof.
  unfold retrieveAllPropertiesForEntity.
  destruct (cached_read entID w) as (fs & r0 & Hr0 & _ & Hread).
  destruct (Hr0 Hf) as [-> ->].
  assert (Hset : set_faults [] w = w) by (destruct w; simpl in *; by rewrite Hf).
  rewrite Hset in Hread. rewrite !(prog_bind_run _ _ _ _ _ Hread).
  destruct (cached_rows (w_db w) entID) as [|row rows].
  { split; [done|]. done. }
  unfold mbind, prog_bind, wrapf, lift, gets. rewrite Hmodel. simpl wrapf_res. cbv iota beta. split.
  - unfold cache_valid. by intros ->.
  - done.
Qed.

(** *** Looking up by hint *)

Definition hint_matches (d : Db) (hint : ByUpstreamHint) (e : EntityInstance) : bool :=
  match providers d !! ei_ProviderID e with
  | None => false
  | Some p =>
      match bh_ProviderClass hint with Some c => String.eqb (prv_Class p) c | None => true end &&
      match bh_ProviderImplements hint with
      | Some i => bool_decide (i ∈ prv_Implements p)
      | None => true
      end
  end.

(** The entities of a type with a value for a key, whose provider fits. *)
Definition candidates (d : Db) (t : Entity) (hint : ByUpstreamHint) (key : string) (v : Value)
    : list (UUID * EntityInstance) :=
  match PropValueToDbV1 (AsInterface v) with
  | Ok s => filter (λ p, ei_EntityType p.2 = EntityTypeToDB t ∧ has_value d p.1 key s = true ∧
                         hint_matches d hint p.2 = true) (map_to_list (entity_instances d))
  | _ => []
  end.

(** The first key that singles out an entity. *)
Fixpoint hint_spec (d : Db) (t : Entity) (hint : ByUpstreamHint) (m : gmap string Value)
    (keys : list string) : res (UUID * EntityInstance) :=
  match keys with
  | [] => Err ErrEntityNotFound
  | k :: keys =>
      match m !! k with
      | Some v => match candidates d t hint k v with
                  | [e] => Ok e
                  | _ => hint_spec d t hint m keys
                  end
      | None => hint_spec d t hint m keys
      end
  end.

Lemma dbEntMatches_run e hint w :
  w_faults w = [] → isSet hint = true →
  dbEntMatchesUpstreamHint e hint w = (w, Ok (hint_matches (w_db w) hint e)).
Proof.
  intros Hf Hs. unfold dbEntMatchesUpstreamHint, hint_matches, GetProviderByID. rewrite Hs.
  unfold mbind, prog_bind, try. rewrite select_ok by done.
  by destruct (providers (w_db w) !! _).
Qed.

Lemma find_match_run ents hint found w :
  w_faults w = [] → isSet hint = true →
  find_match ents hint found w =
  (w, match (option_list found ++ filter (λ p, hint_matches (w_db w) hint p.2 = true) ents)%list with
      | [] => Err ErrEntityNotFound
      | [e] => Ok e
      | _ => Err ErrMultipleEntities
      end).
Proof.
  intros Hf Hs. revert found. induction ents as [|e ents IH]; intros found; simpl.
  { by destruct found. }
  rewrite (prog_bind_run _ _ _ _ _ (dbEntMatches_run _ _ _ Hf Hs)).
  destruct (hint_matches (w_db w) hint e.2) eqn:He.
  - rewrite filter_cons_True by done. destruct found; [done|]. by rewrite IH.
  - rewrite filter_cons_False by (by rewrite He). by rewrite IH.
Qed.

Lemma match_lookups_run keys m t hint w :
  w_faults w = [] → isSet hint = true → map_Forall (λ _ v, storable v) m →
  match_lookups keys (Some m) t hint w = (w, hint_spec (w_db w) t hint m keys).
Proof.
  intros Hf Hs Hm. induction keys as [|k keys IH]; simpl; [done|].
  destruct (m !! k) as [v|] eqn:Hk; [|done].
  destruct (value_stored v) as (s & Hv & _); [by eapply Hm|].
  assert (Hget : wrapf "failed to get entities by upstream ID: "
      (getAllByProperty k (AsInterface v) t uuid_Nil uuid_Nil) w
    = (w, Ok (filter (λ p, ei_EntityType p.2 = EntityTypeToDB t ∧
        has_value (w_db w) p.1 k s = true) (map_to_list (entity_instances (w_db w)))))).
  { unfold getAllByProperty, GetTypedEntitiesByPropertyV1, GetTypedEntitiesByProperty, wrapf.
    rewrite Hv. unfold mbind, prog_bind, try, lift. rewrite select_ok by done. simpl. do 2 f_equal.
    apply list_filter_iff. intros p. naive_solver. }
  rewrite (prog_bind_run _ _ _ _ _ Hget). unfold candidates. rewrite Hv.
  unfold mbind, prog_bind, try, findMatchByUpstreamHint. rewrite find_match_run by done.
  simpl option_list. rewrite app_nil_l, list_filter_filter.
  rewrite (list_filter_iff _ (λ p, ei_EntityType p.2 = EntityTypeToDB t ∧
    has_value (w_db w) p.1 k s = true ∧ hint_matches (w_db w) hint p.2 = true)) by naive_solver.
  clear Hget. set (cands := filter _ _). destruct cands as [|e [|e' l]]; [exact IH|done|exact IH].
Qed.

(** A lookup by hint finds the entity the properties single out.  With a
    working connection, the entity is the only one of its type, among those whose
    provider fits the hint, that has the same upstream id or, when none or several
    have, the same name; it is an error when neither singles one out, or when the
    hint is empty. *)
Theorem hint_lookup_exact m t hint w
    (Hf : w_faults w = []) (Hm : map_Forall (λ _ v, storable v) m) :
  if isSet hint
  then matchEntityWithHint (Some m) t hint w
       = (w, hint_spec (w_db w) t hint m [PropertyUpstreamID; PropertyName])
  else ∃ e, matchEntityWithHint (Some m) t hint w = (w, Err e).
Proof.
  unfold matchEntityWithHint. destruct (isSet hint) eqn:Hs; simpl negb; cbv iota.
  - by apply match_lookups_run.
  - by eexists.
Qed.

Lemma read_by_hint t m' hint id ent m w :
  w_faults w = [] → isSet hint = true → map_Forall (λ _ v, storable v) m' →
  hint_spec (w_db w) t hint m' [PropertyUpstreamID; PropertyName] = Ok (id, ent) →
  stored (w_db w) id m → map_Forall (λ _ v, storable v) m →
  utf8_ValidString (ei_Name ent) = true →
  EntityWithPropertiesByUpstreamHint t (Some m') hint w
    = (w, Ok (NewEntityWithProperties id ent (Some (read_back_props m (ei_Name ent))))).
Proof.
  intros Hf Hs Hm' Hspec Hst Hm Hname. unfold EntityWithPropertiesByUpstreamHint.
  erewrite prog_bind_run.
  2:{ apply wrapf_Ok. unfold matchEntityWithHint. rewrite Hs. simpl negb. cbv iota.
      rewrite <-Hspec. by apply match_lookups_run. }
  by apply read_properties.
Qed.
End properties.

(** ** Witnesses *)

Definition ex_saved : gmap string Value :=
  {["upstream_id" := StringValue "42"; "is_private" := BoolValue true]}.

Lemma ex_saved_storable : map_Forall (λ _ v, @storable ex_structpb v) ex_saved.
Proof.
  unfold ex_saved. apply map_Forall_insert_2; [done|]. by apply map_Forall_singleton.
Qed.

Definition ex_provider (answer : prog World Properties) : ProviderOps :=
  {| FetchAllProperties _ _ _ := answer;
     PropertiesToProtoMessage _ _ := Err (EText "no message");
     CreationOptions _ := None; GetEntityName _ _ := Ok "acme/app";
     RegisterEntity _ p := mret p; DeregisterEntity _ _ := mret tt |}.

Lemma ex_provider_leaves answer :
  (∀ w, w_db (answer w).1 = w_db w) → leaves_tables (ex_provider answer).
Proof. intros Ha. by split; simpl. Qed.

Definition ex_answer : prog World Properties := λ w, (w, Ok (Some ex_saved)).

Lemma ex_answer_leaves : leaves_tables (ex_provider ex_answer).
Proof. by apply ex_provider_leaves. Qed.

(** The entity 7 with its two properties. *)
Definition ex_saved_world : World :=
  (@ReplaceAllProperties ex_structpb ex_property_json false 7%N (Some ex_saved)
     (ex_world ex_db [])).1.

(** The entity 7 after its properties were replaced. *)
Definition ex_with (m : gmap string Value) : World :=
  (@ReplaceAllProperties ex_structpb ex_property_json false 7%N (Some m) (ex_world ex_db [])).1.

Lemma ex_with_stored m :
  map_Forall (λ _ v, @storable ex_structpb v) m →
  w_faults (ex_with m) = [] ∧ @stored ex_structpb ex_property_json (w_db (ex_with m)) 7%N m ∧
  touches 7%N (ex_world ex_db []) (ex_with m).
Proof.
  intros Hm. destruct (@replaceAll_runs ex_structpb ex_property_json 7%N m (ex_world ex_db []))
    as (w' & Hrun & Hf'); [done|by eexists|done|].
  assert (ex_with m = w') as ->.
  { unfold ex_with, ReplaceAllProperties.
    by rewrite (transaction_runs _ (ex_world ex_db []) w' eq_refl Hrun Hf'). }
  destruct (replaceAll_Ok _ _ _ _ Hrun) as (m' & [= <-] & Ht & Hst). done.
Qed.

Definition ex_app : EntityInstance :=
  {| ei_EntityType := "repository"; ei_Name := "acme/app"; ei_ProjectID := 2%N;
     ei_ProviderID := 1%N; ei_OriginatedFrom := None |}.

Definition ex_github : ByUpstreamHint :=
  {| bh_ProviderImplements := Some "github"; bh_ProviderClass := None |}.

Lemma replaced_properties_read_back_witness :
  ∃ w', @service_EntityWithPropertiesByID ex_structpb ex_property_json 7%N w'
    = (w', Ok (NewEntityWithProperties 7%N ex_app
        (Some (<["name" := StringValue "acme/app"]> ex_saved)))).
Proof.
  destruct (@replaced_properties_read_back ex_structpb ex_property_json 7%N ex_app ex_saved
    (ex_world ex_db []) eq_refl eq_refl ex_saved_storable eq_refl) as (w' & _ & _ & Hrun).
  exists w'. exact Hrun.
Defined.

Lemma refresh_all_or_nothing_witness :
  ∃ w' m, @retrieveAllPropertiesForEntity ex_structpb ex_property_json 60
      (ex_provider ex_answer) 7%N None Entity_ENTITY_REPOSITORIES
      {| ro_transaction := false; ro_tolerateStaleData := false |} (ex_world ex_db [])
    = (w', Ok (Some m)) ∧
    @stored ex_structpb ex_property_json (w_db w') 7%N m.
Proof.
  destruct (@retrieveAllPropertiesForEntity ex_structpb ex_property_json 60
    (ex_provider ex_answer) 7%N None Entity_ENTITY_REPOSITORIES
    {| ro_transaction := false; ro_tolerateStaleData := false |} (ex_world ex_db []))
    as [w' r] eqn:Hrun.
  pose proof (@refresh_all_or_nothing ex_structpb ex_property_json 60 _ 7%N None
    Entity_ENTITY_REPOSITORIES {| ro_transaction := false; ro_tolerateStaleData := false |}
    (ex_world ex_db []) w' r
    ex_answer_leaves eq_refl Hrun) as Hall.
  exists w'. destruct Hall as [(_ & props & _ & _ & Hv)|[[Hdb Hok]|Hall]].
  - vm_compute in Hv. discriminate Hv.
  - exfalso. assert (Hr : is_ok r = true) by (change r with (w', r).2; rewrite <-Hrun;
      vm_compute; reflexivity).
    destruct r as [props|e|p]; [|discriminate Hr..].
    destruct (Hok props eq_refl) as [Hnil _]. discriminate Hnil.
  - destruct Hall as (m & model & w1 & w2 & Hr & _ & _ & _ & Hst). exists m. rewrite Hr.
    split; [reflexivity|exact Hst].
Defined.

(** The rows are fresh, and the provider is not asked: it would fail. *)
Lemma cache_decides_witness :
  ∃ props, @retrieveAllPropertiesForEntity ex_structpb ex_property_json 60
      (ex_provider (throw (EText "rate limit"))) 7%N None Entity_ENTITY_REPOSITORIES
      {| ro_transaction := false; ro_tolerateStaleData := false |} ex_saved_world
    = (ex_saved_world, Ok props) ∧ Len props = 2%Z.
Proof.
  assert (Hlen : match @DbPropsToModel ex_structpb ex_property_json
                         (cached_rows (w_db ex_saved_world) 7%N) with
                 | Ok props => Len props = 2%Z
                 | _ => False
                 end) by (vm_compute; reflexivity).
  destruct (@DbPropsToModel ex_structpb ex_property_json (cached_rows (w_db ex_saved_world) 7%N))
    as [props|e|p] eqn:Hmodel; [|destruct Hlen..].
  exists props. split.
  - apply (proj1 (@cache_decides ex_structpb ex_property_json 60
      (ex_provider (throw (EText "rate limit"))) 7%N None Entity_ENTITY_REPOSITORIES
      {| ro_transaction := false; ro_tolerateStaleData := false |} ex_saved_world props
      eq_refl Hmodel)). vm_compute. reflexivity.
  - exact Hlen.
Defined.

Lemma hint_lookup_exact_witness :
  @matchEntityWithHint ex_structpb ex_property_json
    (Some {["upstream_id" := StringValue "42"]}) Entity_ENTITY_REPOSITORIES ex_github ex_saved_world
  = (ex_saved_world, Ok (7%N, ex_app)).
Proof.
  pose proof (@hint_lookup_exact ex_structpb ex_property_json
    {["upstream_id" := StringValue "42"]} Entity_ENTITY_REPOSITORIES ex_github ex_saved_world
    eq_refl) as Hspec.
  refine (eq_trans (Hspec _) _); [by apply map_Forall_singleton|].
  vm_compute. reflexivity.
Defined.
