(* ===== verification/EntityService.v ===== *)
(** * The services that create, read and delete entities

    internal/entities/service/service.go and entity_creator.go, the validators of
    internal/entities/service/validators/ and internal/projects/features/. *)

From S2P Require Import Prelude GoErrors GoMonad GoStrings Uuid DbTypes EntityEvent Properties.
From S2P Require Import EntityMessage Database EntityModels Eea HistoryDb HistoryStore EntityDb.
From S2P Require Import PropertyService.
Local Open Scope string_scope.

Definition RepoPropertyIsPrivate : string := "is_private".
Definition RepoPropertyIsArchived : string := "is_archived".

(** ** internal/projects/features *)

Definition privateReposEnabledFlag : string := "private_repositories_enabled".

(** An error counts as a feature that is off. *)
Definition featureEnabled (projectID : UUID) (featureFlag : string) : prog World bool :=
  r ← try (GetFeatureInProject projectID featureFlag);
  mret (match r with inl _ => true | inr _ => false end).

Definition ProjectAllowsPrivateRepos (projectID : UUID) : prog World bool :=
  featureEnabled projectID privateReposEnabledFlag.

(** ** validators/registry.go

    Handles are numbers of 64 bits, given out in turn. *)

Abbreviation Validator := (Properties → UUID → prog World unit).

Record validatorRegistry := {
  vr_validators : gmap Entity (list (Z * Validator)); vr_nextID : Z;
}.

Definition NewValidatorRegistry : validatorRegistry := {| vr_validators := ∅; vr_nextID := 0 |}.

Definition entries (r : validatorRegistry) (entityType : Entity) : list (Z * Validator) :=
  default [] (vr_validators r !! entityType).

Definition AddValidator (entityType : Entity) (validator : Validator) (r : validatorRegistry)
    : validatorRegistry * Z :=
  let nextID := ((vr_nextID r + 1) mod 2 ^ 64)%Z in
  ({| vr_validators :=
        <[entityType := (entries r entityType ++ [(nextID, validator)])%list]> (vr_validators r);
      vr_nextID := nextID |}, nextID).

(** [entries[:i] ++ entries[i+1:]] for the first entry with the handle. *)
Fixpoint remove_entry (handle : Z) (l : list (Z * Validator)) : option (list (Z * Validator)) :=
  match l with
  | [] => None
  | e :: l => if (e.1 =? handle)%Z then Some l
              else match remove_entry handle l with Some l => Some (e :: l) | None => None end
  end.

(** The types are visited in some order. *)
Fixpoint remove_in (handle : Z) (types : list (Entity * list (Z * Validator)))
    (m : gmap Entity (list (Z * Validator))) : gmap Entity (list (Z * Validator)) :=
  match types with
  | [] => m
  | (t, l) :: types => match remove_entry handle l with
                       | Some l => <[t := l]> m
                       | None => remove_in handle types m
                       end
  end.

Definition RemoveValidator (handle : Z) (r : validatorRegistry) : validatorRegistry :=
  {| vr_validators := remove_in handle (map_to_list (vr_validators r)) (vr_validators r);
     vr_nextID := vr_nextID r |}.

Definition registry_Validate (r : validatorRegistry) (entityType : Entity) (props : Properties)
    (projectID : UUID) : prog World unit :=
  foreach (λ e, e.2 props projectID) (entries r entityType).

Definition HasValidators (r : validatorRegistry) (entityType : Entity) : bool :=
  negb (length (entries r entityType) =? 0)%nat.

(** ** validators/repository_validator.go *)

Definition ErrPrivateRepoForbidden : gerr :=
  ENew "validators.ErrPrivateRepoForbidden" "private repositories are not allowed in this project".
Definition ErrArchivedRepoForbidden : gerr :=
  ENew "validators.ErrArchivedRepoForbidden" "archived repositories cannot be registered".

Section validator.
Context `{Structpb}.

Definition RepositoryValidator_Validate (props : Properties) (projectID : UUID)
    : prog World unit :=
  isArchived ← wrapf "error checking is_archived property: "
                 (lift (AsBool (GetProperty props RepoPropertyIsArchived)));
  if isArchived : bool then throw ErrArchivedRepoForbidden
  else
    isPrivate ← wrapf "error checking is_private property: "
                  (lift (AsBool (GetProperty props RepoPropertyIsPrivate)));
    if isPrivate : bool then
      allowed ← ProjectAllowsPrivateRepos projectID;
      if allowed : bool then mret tt else throw ErrPrivateRepoForbidden
    else mret tt.

(** The registry of the server (internal/service/service.go). *)
Definition server_validators : validatorRegistry :=
  (AddValidator Entity_ENTITY_REPOSITORIES RepositoryValidator_Validate NewValidatorRegistry).1.
End validator.

(** ** entity_creator.go *)

Record EntityCreationOptions := {
  co_OriginatingEntityID : option UUID;
  co_RegisterWithProvider : bool;
  co_PublishReconciliationEvent : bool;
}.

(** [uuid.New()] *)
Definition uuid_New `{RandomUuid} : prog World UUID := λ w,
  (set_fresh (S (w_fresh w)) w, Ok (gen_random_uuid (w_fresh w))).

Section creator.
Context `{UuidLib} `{RandomUuid} `{MessageJSON} `{!PropertyJSON} `{ProviderManager}.
Context (validators : validatorRegistry).

Definition publishReconciliationEvent (ewp : EntityWithProperties) (projectID providerID : UUID)
    : prog World unit :=
  if negb (bool_decide (em_Type (ewp_Entity ewp) = Entity_ENTITY_REPOSITORIES)) then mret tt
  else
    msg ← wrapf "error creating reconciler message: "
            (NewRepoReconcilerMessage providerID (ewp_ID ewp) projectID);
    wrapf "error publishing reconciler event: " (Publish TopicQueueReconcileRepoInit msg).

Definition cleanupProviderRegistration (prov : ProviderOps) (entityType : Entity)
    (registeredProps : Properties) (wasRegistered : bool) : prog World unit :=
  if negb wasRegistered then mret tt
  else match registeredProps with
       | None => mret tt
       | Some _ => try (DeregisterEntity prov entityType registeredProps);; mret tt
       end.

(** The function run in the transaction. *)
Definition persist (providerID projectID : UUID) (entityType : Entity) (entityName : string)
    (originatingEntityID : option UUID) (registeredProps : Properties)
    : prog World EntityWithProperties :=
  entityID ← uuid_New;
  ent ← wrapf "error creating entity: " (CreateOrEnsureEntityByID entityID
          {| ei_EntityType := EntityTypeToDB entityType; ei_Name := entityName;
             ei_ProjectID := projectID; ei_ProviderID := providerID;
             ei_OriginatedFrom := originatingEntityID |});
  wrapf "error saving properties: " (ReplaceAllProperties true entityID registeredProps);;
  mret (NewEntityWithProperties entityID ent registeredProps).

(** The options the caller gives, or else the defaults of the provider. *)
Definition creation_options (defaults : provif_EntityCreationOptions)
    (opts : option EntityCreationOptions) : EntityCreationOptions :=
  match opts with
  | Some opts => opts
  | None => {| co_OriginatingEntityID := None;
               co_RegisterWithProvider := cd_RegisterWithProvider defaults;
               co_PublishReconciliationEvent := cd_PublishReconciliationEvent defaults |}
  end.

(** Steps 1 to 7: all that comes before the tables are written. *)
Definition prepareEntity (provider : UUID * Provider) (projectID : UUID) (entityType : Entity)
    (identifyingProps : Properties) (opts : option EntityCreationOptions)
    : prog World (ProviderOps * EntityCreationOptions * string * Properties) :=
  prov ← wrapf "error instantiating provider: " (InstantiateFromID provider.1);
  match CreationOptions prov entityType with
  | None => throw (EText "provider does not support entity type")
  | Some defaults =>
      let opts := creation_options defaults opts in
      allProps ← wrapf "error fetching properties: "
                   (FetchAllProperties prov identifyingProps entityType None);
      registry_Validate validators entityType allProps projectID;;
      entityName ← wrapf "error getting entity name: " (lift (GetEntityName prov entityType allProps));
      registeredProps ← if co_RegisterWithProvider opts
                        then wrapf "error registering with provider: "
                               (RegisterEntity prov entityType allProps)
                        else mret allProps;
      mret (prov, opts, entityName, registeredProps)
  end.

Definition CreateEntity (provider : UUID * Provider) (projectID : UUID) (entityType : Entity)
    (identifyingProps : Properties) (opts : option EntityCreationOptions)
    : prog World EntityWithProperties :=
  prepared ← prepareEntity provider projectID entityType identifyingProps opts;
  let '(prov, opts, entityName, registeredProps) := prepared in
  ewp ← try (WithTransaction (persist provider.1 projectID entityType entityName
                                (co_OriginatingEntityID opts) registeredProps));
  match ewp with
  | inr err =>
      cleanupProviderRegistration prov entityType registeredProps (co_RegisterWithProvider opts);;
      throw err
  | inl ewp =>
      (if co_PublishReconciliationEvent opts
       then try (publishReconciliationEvent ewp projectID provider.1);; mret tt
       else mret tt);;
      mret ewp
  end.
End creator.

(** ** Creating an entity *)

(** The tables with a new entity and its properties. *)
Definition created `{PropertyJSON} (d d' : Db) (id : UUID) (ent : EntityInstance)
    (m : gmap string Value) : Prop :=
  ∃ t, d' = set_properties t (set_entities (<[id := ent]> (entity_instances d)) d) ∧
    (∀ j k, j ≠ id → t !! (j, k) = properties d !! (j, k)) ∧ stored d' id m.

(** The supply of ids has none that is in use. *)
Definition unused_ids `{RandomUuid} (d : Db) : Prop :=
  ∀ n, entity_instances d !! gen_random_uuid n = None.

Section created.
Context `{UuidLib} `{RandomUuid} `{MessageJSON} `{!PropertyJSON} `{ProviderManager}.
Context (validators : validatorRegistry).

Lemma persist_Ok providerID projectID t name origin props w w' ewp :
  persist providerID projectID t name origin props w = (w', Ok ewp) → unused_ids (w_db w) →
  ∃ id m, let ent := {| ei_EntityType := EntityTypeToDB t; ei_Name := name;
                        ei_ProjectID := projectID; ei_ProviderID := providerID;
                        ei_OriginatedFrom := origin |} in
    props = Some m ∧ ewp = NewEntityWithProperties id ent (Some m) ∧
    entity_instances (w_db w) !! id = None ∧ created (w_db w) (w_db w') id ent m ∧
    (entities_wf (w_db w) → entities_wf (w_db w')).
Proof.
  unfold persist. intros (w1 & id & Hid & Hrun)%prog_bind_Ok Hun. injection Hid as <- <-.
  apply prog_bind_Ok in Hrun as (w2 & e & He%wrapf_Ok & Hrun).
  apply prog_bind_Ok in Hrun as (w3 & [] & Hp%wrapf_Ok & Hrun). injection Hrun as <- <-.
  pose proof (Hun (w_fresh w)) as Hnew.
  destruct (CreateOrEnsure_Ok _ _ _ _ _ He Hnew) as (-> & Hd2 & Hwf).
  destruct (replaceAll_Ok _ _ _ _ Hp) as (m & -> & Ht & Hst).
  exists (gen_random_uuid (w_fresh w)), m. cbv zeta. split_and!; [done..| |].
  - destruct Ht as (tt' & Hd3 & Hother). exists tt'. rewrite Hd3, Hd2. split; [done|].
    split; [|rewrite <-Hd2, <-Hd3; exact Hst]. intros j k Hj. rewrite Hother by done. by rewrite Hd2.
  - intros Hw. eapply touches_wf; [exact Ht| |by apply Hwf]. rewrite Hd2. simpl.
    by rewrite lookup_insert_eq.
Qed.

(** Providers and validators do not write the tables. *)
Definition providers_leave_tables : Prop :=
  ∀ id w, w_db (InstantiateFromID id w).1 = w_db w ∧
    ∀ w' p, InstantiateFromID id w = (w', Ok p) → leaves_tables p.

Definition validators_leave_tables : Prop :=
  ∀ t props projectID w, w_db (registry_Validate validators t props projectID w).1 = w_db w.

Context (Hprov : providers_leave_tables) (Hval : validators_leave_tables).

(** Everything that comes before the tables are written went well: the provider
    told of [allProps], the validators of the type accepted them, the name is
    made of them, and [registered] are they or, when the entity is registered,
    what the provider made of them. *)
Definition prepared_by (provider : UUID * Provider) (projectID : UUID) (t : Entity)
    (props : Properties) (opts : option EntityCreationOptions) (w : World) (prov : ProviderOps)
    (o : EntityCreationOptions) (name : string) (allProps registered : Properties) : Prop :=
  ∃ defaults w1 w2 w3 w4,
    InstantiateFromID provider.1 w = (w1, Ok prov) ∧
    CreationOptions prov t = Some defaults ∧ o = creation_options defaults opts ∧
    FetchAllProperties prov props t None w1 = (w2, Ok allProps) ∧
    registry_Validate validators t allProps projectID w2 = (w3, Ok tt) ∧ w_db w2 = w_db w ∧
    GetEntityName prov t allProps = Ok name ∧
    if co_RegisterWithProvider o
    then RegisterEntity prov t allProps w3 = (w4, Ok registered)
    else registered = allProps.

Lemma prepareEntity_run provider projectID t props opts w w' r :
  prepareEntity validators provider projectID t props opts w = (w', r) →
  w_db w' = w_db w ∧
  ∀ prov o name registered, r = Ok (prov, o, name, registered) →
    leaves_tables prov ∧
    ∃ allProps, prepared_by provider projectID t props opts w prov o name allProps registered.
Proof.
  unfold prepareEntity, prepared_by. intros Hrun.
  unfold mbind, prog_bind, wrapf in Hrun.
  destruct (Hprov provider.1 w) as [Hd1 Hleaves].
  destruct (InstantiateFromID provider.1 w) as [w1 [prov|e|m]] eqn:Hinst; simpl in *;
    [|injection Hrun as <- <-; by split..].
  specialize (Hleaves w1 prov eq_refl).
  destruct (CreationOptions prov t) as [defaults|] eqn:Hcd; [|injection Hrun as <- <-; by split].
  pose proof (lt_fetch _ Hleaves props t None w1) as Hd2.
  destruct (FetchAllProperties prov props t None w1) as [w2 [allProps|e|m]] eqn:Hfetch;
    simpl in *; [|injection Hrun as <- <-; by split; [congruence|]..].
  pose proof (Hval t allProps projectID w2) as Hd3.
  destruct (registry_Validate validators t allProps projectID w2) as [w3 [[]|e|m]] eqn:Hv;
    simpl in *; [|injection Hrun as <- <-; by split; [congruence|]..].
  destruct (GetEntityName prov t allProps) as [name|e|m] eqn:Hname; simpl in *;
    [|injection Hrun as <- <-; by split; [congruence|]..].
  destruct (co_RegisterWithProvider _) eqn:Hreg.
  - pose proof (lt_register _ Hleaves t allProps w3) as Hd4.
    destruct (RegisterEntity prov t allProps w3) as [w4 [reg|e|m]] eqn:Hr; simpl in *;
      injection Hrun as <- <-; (split; [congruence|]); [|done..].
    intros ? ? ? ? [= <- <- <- <-]. split; [done|]. exists allProps, defaults, w1, w2, w3, w4.
    rewrite Hreg. split_and!; try done. congruence.
  - injection Hrun as <- <-. split; [congruence|]. intros ? ? ? ? [= <- <- <- <-].
    split; [done|]. exists allProps, defaults, w1, w2, w3, w3. rewrite Hreg.
    split_and!; try done. congruence.
Qed.

Lemma publish_leaves topic m w : w_db (Publish topic m w).1 = w_db w.
Proof.
  unfold Publish. match goal with |- context [query ?f w] =>
    destruct (query_cases f w) as [(e & fs & ->)|(fs & ->)] end; done.
Qed.

(** A publication that fails is logged. *)
Lemma publish_step (b : bool) ewp projectID providerID w :
  ∃ w', (if b then try (publishReconciliationEvent ewp projectID providerID);; mret tt
         else mret tt : prog World unit) w = (w', Ok tt) ∧ w_db w' = w_db w.
Proof.
  destruct b; [|by exists w].
  unfold publishReconciliationEvent. destruct (negb _); [by exists w|].
  unfold mbind, prog_bind, try, wrapf, NewRepoReconcilerMessage, NewMessage. simpl.
  unfold Publish. match goal with |- context [query ?f ?w0] =>
    destruct (query_cases f w0) as [(e & fs & ->)|(fs & ->)] end; by eexists.
Qed.

Lemma cleanup_run prov t registered b w w' r :
  leaves_tables prov → cleanupProviderRegistration prov t registered b w = (w', r) →
  w_db w' = w_db w ∧ (∀ e, r ≠ Err e) ∧
  ∀ reg, registered = Some reg → b = true → r = Ok tt →
    w' = (DeregisterEntity prov t (Some reg) w).1.
Proof.
  intros Hleaves. unfold cleanupProviderRegistration, mbind, prog_bind, try.
  destruct b; simpl; [|by intros [= <- <-]]. destruct registered as [reg|]; [|by intros [= <- <-]].
  pose proof (lt_deregister _ Hleaves t (Some reg) w) as Hd3.
  destruct (DeregisterEntity _ _ _ _) as [w4 [[]|e|m]] eqn:Hdereg; intros [= <- <-];
    (split_and!; [done|done|]); [..|done]; intros ? [= <-] _ _; by rewrite Hdereg.
Qed.

(** C18: an entity is created entirely or not at all, and not without consent.
    Whatever the provider answers and whichever statement fails, a creation that
    does not succeed leaves the tables as they were, and takes back the
    registration with the provider if it was made; one that succeeds adds exactly
    one entity, of that project, provider, type and originator, named and with
    exactly the properties that are returned: those the provider told of, which
    the validators of the type accepted, or, when the entity is registered with
    it, what the provider made of these. *)
Theorem create_entity_all_or_nothing provider projectID t props opts w w' r
    (Hun : unused_ids (w_db w))
    (Hrun : CreateEntity validators provider projectID t props opts w = (w', r)) :
  match r with
  | Ok ewp => ∃ id m name,
      let ent := {| ei_EntityType := EntityTypeToDB t; ei_Name := name;
                    ei_ProjectID := projectID; ei_ProviderID := provider.1;
                    ei_OriginatedFrom := opts ≫= co_OriginatingEntityID |} in
      ewp = NewEntityWithProperties id ent (Some m) ∧
      entity_instances (w_db w) !! id = None ∧ created (w_db w) (w_db w') id ent m ∧
      (entities_wf (w_db w) → entities_wf (w_db w')) ∧
      ∃ prov o allProps,
        prepared_by provider projectID t props opts w prov o name allProps (Some m)
  | _ => w_db w' = w_db w ∧
      ∀ wp prov o name reg e, r = Err e → co_RegisterWithProvider o = true →
        prepareEntity validators provider projectID t props opts w
          = (wp, Ok (prov, o, name, Some reg)) →
        ∃ wf, w_db wf = w_db w ∧ w' = (DeregisterEntity prov t (Some reg) wf).1
  end.
Proof.
  unfold CreateEntity in Hrun.
  destruct (prepareEntity _ _ _ _ _ _ _) as [w1 rp] eqn:Hprep.
  destruct (prepareEntity_run _ _ _ _ _ _ _ _ Hprep) as [Hd1 Hok].
  unfold mbind at 1, prog_bind at 1 in Hrun. rewrite Hprep in Hrun.
  destruct rp as [[[[prov o] name] registered]|e|m];
    [|injection Hrun as <- <-; (split; [done|]); intros; congruence..].
  destruct (Hok _ _ _ _ eq_refl) as (Hleaves & allProps & Hby).
  pose proof Hby as (defaults & _ & _ & _ & _ & _ & _ & Ho & _).
  unfold mbind at 1, prog_bind at 1, try at 1 in Hrun.
  destruct (WithTransaction _ w1) as [w2 r2] eqn:Htr.
  destruct (WithTransaction_cases _ _ _ _ Htr)
    as [(ewp & fs & w3 & -> & _ & Hfn & Hd2 & _)|[Hr2 Hd2]].
  - apply persist_Ok in Hfn as (id & m & Hp & -> & Hnew & Hcr & Hwf);
      [|intros n; simpl; rewrite Hd1; apply Hun].
    simpl in Hnew, Hcr, Hwf. rewrite Hd1 in Hnew, Hcr, Hwf. rewrite <-Hd2 in Hcr, Hwf.
    assert (Horig : co_OriginatingEntityID o = opts ≫= co_OriginatingEntityID)
      by (rewrite Ho; by destruct opts).
    destruct (publish_step (co_PublishReconciliationEvent o) (NewEntityWithProperties id
      {| ei_EntityType := EntityTypeToDB t; ei_Name := name; ei_ProjectID := projectID;
         ei_ProviderID := provider.1; ei_OriginatedFrom := co_OriginatingEntityID o |}
      (Some m)) projectID provider.1 w2) as (w4 & Hpub & Hd4).
    rewrite (prog_bind_run _ _ _ _ _ Hpub) in Hrun. injection Hrun as <- <-.
    rewrite Horig in Hcr. exists id, m, name. cbv zeta. rewrite Hd4, Horig.
    split_and!; [done..|]. exists prov, o, allProps. by rewrite <-Hp.
  - destruct r2 as [ewp|e|m]; [done|..].
    + unfold mbind, prog_bind in Hrun.
      destruct (cleanupProviderRegistration _ _ _ _ w2) as [w3 r3] eqn:Hcl.
      destruct (cleanup_run _ _ _ _ _ _ _ Hleaves Hcl) as (Hd3 & Hno & Hdereg).
      assert (Hd : w_db w3 = w_db w) by congruence.
      destruct r3 as [[]|e3|m3]; injection Hrun as <- <-; (split; [exact Hd|]); [|..|done].
      * intros wp prov' o' name' reg e' _ Hreg' [= <- <- <- <- ->]. exists w2.
        split; [congruence|by apply Hdereg].
      * by destruct (Hno e3).
    + injection Hrun as <- <-. split; [congruence|done].
Qed.
End created.

(** ** service.go *)

(** [pb.EntityInstance], with the project of its context; its provider stays
    empty. *)
Record pbEntityInstance := {
  pe_Id : string; pe_ProjectId : string; pe_Provider : string; pe_Name : string;
  pe_Type : Entity; pe_Properties : option (gmap string Value);
}.

(** The transactions the services write by hand: the rollback is deferred. *)
Definition in_transaction {A} (body : prog World A) : prog World A :=
  wrapf "error starting transaction: " BeginTransaction;;
  d ← gets w_db;
  (λ w, match body w with
        | (w1, Ok a) =>
            match wrapf "error committing transaction: " Commit w1 with
            | (w2, Ok _) => (w2, Ok a)
            | (w2, Err e) => (set_db d w2, Err e)
            | (w2, Panic m) => (set_db d w2, Panic m)
            end
        | (w1, Err e) => (set_db d w1, Err e)
        | (w1, Panic m) => (set_db d w1, Panic m)
        end) : prog World A.

Lemma in_transaction_cases {A} (body : prog World A) w w' r :
  in_transaction body w = (w', r) →
  (∃ a fs w2, r = Ok a ∧ (w_faults w = [] → fs = []) ∧ body (set_faults fs w) = (w2, Ok a) ∧
     w_db w' = w_db w2) ∨
  (is_ok r = false ∧ w_db w' = w_db w).
Proof.
  unfold in_transaction, mbind, prog_bind, wrapf, gets, BeginTransaction, Commit, select.
  match goal with |- context [query ?f w] =>
    destruct (query_faults f w) as [(e & fs & _ & ->)|(fs & Hfs & ->)] end; simpl.
  { intros [= <- <-]. by right. }
  destruct (body (set_faults fs w)) as [w2 [a|e|m]] eqn:Hb; [|intros [= <- <-]; by right..].
  match goal with |- context [query ?f w2] =>
    destruct (query_cases f w2) as [(e & fs2 & ->)|(fs2 & ->)] end; simpl; intros [= <- <-];
    [by right|left]. by exists a, fs, w2.
Qed.

Lemma in_transaction_runs {A} (body : prog World A) w w' a :
  w_faults w = [] → body w = (w', Ok a) → w_faults w' = [] → in_transaction body w = (w', Ok a).
Proof.
  intros Hw Hb Hw'. unfold in_transaction, mbind, prog_bind, wrapf, gets, BeginTransaction, Commit.
  rewrite select_ok by done. simpl. rewrite Hb. by rewrite select_ok.
Qed.

Section service.
Context `{UuidLib} `{PropertyJSON} `{ProviderManager} (entity_String : Entity → string).
Context (entityTimeout : Z).

Definition entityInstanceToProto (ewp : EntityWithProperties) : pbEntityInstance :=
  {| pe_Id := uuid_String (ewp_ID ewp); pe_ProjectId := uuid_String (ewp_ProjectID ewp);
     pe_Provider := ""; pe_Name := em_Name (ewp_Entity ewp); pe_Type := em_Type (ewp_Entity ewp);
     pe_Properties := ToProtoStruct (ewp_Properties ewp) |}.

(** The entity with its properties, old ones included. *)
Definition load_entity (transaction : bool) (id : UUID) : prog World EntityWithProperties :=
  ewp ← wrapf "error fetching properties for entity: " (service_EntityWithPropertiesByID id);
  wrapf "error fetching properties for entity: "
    (RetrieveAllPropertiesForEntity entityTimeout ewp
       {| ro_transaction := transaction; ro_tolerateStaleData := true |}).

(** The entities of a page, and the id after it; [left] is what the limit leaves. *)
Fixpoint list_loop (left : option nat) (outentities : list (UUID * EntityInstance))
    : prog World (list pbEntityInstance * string) :=
  match outentities with
  | [] => mret ([], "")
  | entity :: rest =>
      match left with
      | Some O => mret ([], uuid_String entity.1)
      | _ =>
          ewp ← load_entity true entity.1;
          page ← list_loop (pred <$> left) rest;
          mret (entityInstanceToProto ewp :: page.1, page.2)
      end
  end.

Definition maxFetchLimit : Z := 100.

(** The transaction of the listing, always rolled back. *)
Definition list_in_transaction (dbEntityType : Entities) (projectID providerID : UUID) (limit : Z)
    : prog World (list pbEntityInstance * string) :=
  wrapf "error starting transaction: " BeginTransaction;;
  d ← gets w_db;
  defer (restore d)
    (outentities ← wrapf "error fetching entities: "
       (GetEntitiesByType dbEntityType providerID [projectID]);
     list_loop (if (0 <? limit)%Z then Some (Z.to_nat limit) else None) outentities).

Definition ListEntities (projectID providerID : UUID) (entityType : Entity) (cursor : string)
    (limit : Z) : prog World (list pbEntityInstance * string) :=
  dbEntityType ← wrapf "failed to convert entity type: "
                   (lift (EntityTypeToDBType entity_String entityType));
  (if String.eqb cursor "" then mret tt
   else match uuid_Parse cursor with
        | Ok _ => mret tt
        | Err _ => throw (status_error "InvalidArgument" "invalid cursor format")
        | Panic m => lift (Panic m)
        end);;
  if (maxFetchLimit <? limit)%Z
  then throw (status_error "InvalidArgument" "limit too high, max is 100")
  else list_in_transaction dbEntityType projectID providerID limit.

(** [GetEntityByID] *)
Definition entityService_GetEntityByID (entityID projectID : UUID) : prog World pbEntityInstance :=
  entity ← try (GetEntityByID entityID);
  match entity with
  | inr err =>
      throw (if errors_Is (Some err) ErrNoRows then status_error "NotFound" "entity not found"
             else EWrap "error fetching entity: " err "")
  | inl entity =>
      if negb (ei_ProjectID entity =? projectID)%N
      then throw (status_error "NotFound" "entity not found in project")
      else ewp ← load_entity false entityID; mret (entityInstanceToProto ewp)
  end.

(** [GetEntityByName] *)
Definition entityService_GetEntityByName (name : string) (projectID providerID : UUID)
    (entityType : Entity) : prog World pbEntityInstance :=
  dbEntityType ← wrapf "failed to convert entity type: "
                   (lift (EntityTypeToDBType entity_String entityType));
  entity ← try (GetEntityByName {| gn_ProjectID := projectID; gn_EntityType := dbEntityType;
                                   gn_Name := name; gn_ProviderID := providerID |});
  match entity with
  | inr err =>
      throw (if errors_Is (Some err) ErrNoRows then status_error "NotFound" "entity not found"
             else EWrap "error fetching entity: " err "")
  | inl entity => ewp ← load_entity false entity.1; mret (entityInstanceToProto ewp)
  end.

Definition DeleteEntityByID (entityID projectID : UUID) : prog World unit :=
  entity ← try (GetEntityByID entityID);
  match entity with
  | inr err =>
      throw (if errors_Is (Some err) ErrNoRows then status_error "NotFound" "entity not found"
             else EWrap "error fetching entity: " err "")
  | inl entity =>
      if negb (ei_ProjectID entity =? projectID)%N
      then throw (status_error "NotFound" "entity not found in project")
      else
        in_transaction
          (wrapf "error deleting entity properties: " (DeleteAllPropertiesForEntity entityID);;
           wrapf "error deleting entity: " (DeleteEntity entityID projectID))
  end.
End service.

(** ** Properties *)

Section consent.
Context `{UuidLib} `{RandomUuid} `{MessageJSON} `{!PropertyJSON} `{ProviderManager}.

Lemma server_validators_run t props projectID w :
  registry_Validate server_validators t props projectID w =
  if bool_decide (t = Entity_ENTITY_REPOSITORIES)
  then (RepositoryValidator_Validate props projectID;; mret tt) w else (w, Ok tt).
Proof.
  unfold registry_Validate, entries, server_validators, AddValidator. simpl.
  case_bool_decide as Ht.
  - subst. by rewrite lookup_insert_eq.
  - by rewrite lookup_insert_ne, lookup_empty.
Qed.

Lemma allows_run projectID w :
  ∃ w' b, ProjectAllowsPrivateRepos projectID w = (w', Ok b) ∧ w_db w' = w_db w ∧
  (b = true → (projectID, privateReposEnabledFlag) ∈ entitlements (w_db w)) ∧
  (w_faults w = [] → w' = w ∧
     b = bool_decide ((projectID, privateReposEnabledFlag) ∈ entitlements (w_db w))).
Proof.
  unfold ProjectAllowsPrivateRepos, featureEnabled, mbind, prog_bind, try, GetFeatureInProject, select.
  match goal with |- context [query ?f w] =>
    destruct (query_faults f w) as [(e & fs & Hf & ->)|(fs & Hf & ->)] end; simpl.
  - eexists _, false. split_and!; [done..|by rewrite Hf].
  - case_bool_decide as Hb; eexists _, _; (split_and!; [reflexivity|done|done|]); intros Hw;
      rewrite (Hf Hw); (split; [destruct w; simpl in *; by rewrite Hw|done]).
Qed.

Lemma RepositoryValidator_run props projectID w w' r :
  RepositoryValidator_Validate props projectID w = (w', r) →
  w_db w' = w_db w ∧
  (r = Ok tt → AsBool (GetProperty props RepoPropertyIsArchived) = Ok false ∧
     ∃ private, AsBool (GetProperty props RepoPropertyIsPrivate) = Ok private ∧
       (private = true → (projectID, privateReposEnabledFlag) ∈ entitlements (w_db w))).
Proof.
  unfold RepositoryValidator_Validate. intros Hrun.
  unfold mbind, prog_bind, wrapf, lift in Hrun.
  destruct (AsBool (GetProperty props RepoPropertyIsArchived)) as [[]|e|m]; simpl in Hrun;
    [by injection Hrun as <- <-| |by injection Hrun as <- <-..].
  destruct (AsBool (GetProperty props RepoPropertyIsPrivate)) as [[]|e|m]; simpl in Hrun;
    [|injection Hrun as <- <-; split; [done|]; intros _; split; [done|]; by exists false
     |by injection Hrun as <- <-..].
  destruct (allows_run projectID w) as (w1 & b & Ha & Hd & Hok & _). rewrite Ha in Hrun.
  destruct b; injection Hrun as <- <-; (split; [done|]); [|done].
  intros _. split; [done|]. exists true. split; [done|]. intros _. by apply Hok.
Qed.

Lemma server_validators_leave : validators_leave_tables server_validators.
Proof.
  intros t props projectID w. rewrite server_validators_run. case_bool_decide; [|done].
  unfold mbind, prog_bind.
  destruct (RepositoryValidator_Validate props projectID w) as [w1 r] eqn:Hv.
  destruct (RepositoryValidator_run _ _ _ _ _ Hv) as [Hd _]. by destruct r as [[]|e|m].
Qed.

(** An archived repository is never registered, and a private one only where
    the project may have private ones.  When the server creates a repository,
    what the provider said of it is that it is not archived, and that it is not
    private or the project has the feature at that time; if it is not registered
    with the provider, these are the properties it is stored with. *)
Theorem created_repository_allowed provider projectID props opts w w' ewp
    (Hprov : providers_leave_tables)
    (Hrun : CreateEntity server_validators provider projectID Entity_ENTITY_REPOSITORIES props opts w
              = (w', Ok ewp)) :
  ∃ allProps, AsBool (GetProperty allProps RepoPropertyIsArchived) = Ok false ∧
    (∃ private, AsBool (GetProperty allProps RepoPropertyIsPrivate) = Ok private ∧
       (private = true → (projectID, privateReposEnabledFlag) ∈ entitlements (w_db w))) ∧
    ∀ o, opts = Some o → co_RegisterWithProvider o = false → ewp_Properties ewp = allProps.
Proof.
  unfold CreateEntity in Hrun.
  apply prog_bind_Ok in Hrun as (w1 & [[[prov o] name] registered] & Hprep & Hrun).
  destruct (prepareEntity_run _ Hprov server_validators_leave _ _ _ _ _ _ _ _ Hprep) as [_ Hok].
  destruct (Hok _ _ _ _ eq_refl) 
    as (_ & allProps & defaults & _ & wv & wv' & w4' & _ & _ & Ho & _ & Hv & Hdv & _ & Hreg).
  rewrite server_validators_run in Hv. rewrite bool_decide_eq_true_2 in Hv by done.
  apply prog_bind_Ok in Hv as (wv1 & [] & Hv & _).
  destruct (RepositoryValidator_run _ _ _ _ _ Hv) as [_ Hallow].
  destruct (Hallow eq_refl) as (Harch & private & Hpriv & Hent). rewrite Hdv in Hent.
  exists allProps. split_and!; [done|by exists private|].
  intros o' -> Hno. simpl in Ho. rewrite <-Ho in Hno. rewrite Hno in Hreg. rewrite <-Hreg.
  apply prog_bind_Ok in Hrun as (w2 & r2 & Htr & Hrun).
  destruct r2 as [ewp'|e]; [|apply prog_bind_Ok in Hrun as (? & [] & _ & Hrun); done].
  apply prog_bind_Ok in Hrun as (w3 & [] & _ & Hrun). injection Hrun as <- <-.
  unfold try in Htr. destruct (WithTransaction _ w1) as [w4 [ewp2|e|m]] eqn:Hw; try done.
  injection Htr as <- <-.
  destruct (WithTransaction_cases _ _ _ _ Hw) as [(a & fs & w5 & [= <-] & _ & Hp & _)|[? _]]; [|done].
  unfold persist in Hp. apply prog_bind_Ok in Hp as (? & id & _ & Hp).
  apply prog_bind_Ok in Hp as (? & ent & _ & Hp). apply prog_bind_Ok in Hp as (? & [] & _ & Hp).
  by injection Hp as <- <-.
Qed.
End consent.

Section isolation.
Context `{UuidLib} `{PropertyJSON} `{ProviderManager} (entity_String : Entity → string).
Context (entityTimeout : Z).

Lemma service_ByID_Ok id w w' ewp :
  service_EntityWithPropertiesByID id w = (w', Ok ewp) →
  w_db w' = w_db w ∧ ∃ ent props, entity_instances (w_db w) !! id = Some ent ∧
    ewp = NewEntityWithProperties id ent props.
Proof.
  unfold service_EntityWithPropertiesByID. intros (w1 & r & Hr & Hrun)%prog_bind_Ok.
  unfold try, GetEntityByID, select in Hr.
  match type of Hr with context [query ?f w] =>
    destruct (query_cases f w) as [(e & fs & Hc)|(fs & Hc)] end; rewrite Hc in Hr; clear Hc.
  { by injection Hr as <- <-. }
  simpl in Hr. destruct (entity_instances (w_db w) !! id) as [ent|] eqn:He;
    [|by injection Hr as <- <-]. injection Hr as <- <-.
  unfold getEntityWithProperties in Hrun. apply prog_bind_Ok in Hrun as (w2 & r2 & Hr2 & Hrun).
  assert (Hd2 : w_db w2 = w_db w).
  { unfold try, GetAllPropertiesForEntity, select in Hr2.
    match type of Hr2 with context [query ?f ?w0] =>
      destruct (query_cases f w0) as [(e & fs2 & Hc)|(fs2 & Hc)] end; rewrite Hc in Hr2;
      by injection Hr2 as <- <-. }
  destruct r2 as [rows|e]; [|done].
  apply prog_bind_Ok in Hrun as (w3 & props & Hp%wrapf_Ok & Hrun). injection Hp as <- _.
  apply prog_bind_Ok in Hrun as (w4 & props' & Hp' & Hrun).
  assert (w4 = w2) as ->.
  { destruct (GetProperty props PropertyName); [by injection Hp' as <- _|].
    apply wrapf_Ok in Hp'. by injection Hp' as <- _. }
  injection Hrun as <- <-. split; [done|]. by exists ent, props'.
Qed.

Lemma load_entity_Ok transaction id w w' ewp :
  load_entity entityTimeout transaction id w = (w', Ok ewp) →
  ∃ ent, entity_instances (w_db w) !! id = Some ent ∧ em_ID (ewp_Entity ewp) = id ∧
    em_ProjectID (ewp_Entity ewp) = ei_ProjectID ent ∧ em_Name (ewp_Entity ewp) = ei_Name ent ∧
    em_Type (ewp_Entity ewp) = EntityTypeFromDB (ei_EntityType ent).
Proof.
  unfold load_entity. intros (w1 & e & He%wrapf_Ok & Hr%wrapf_Ok)%prog_bind_Ok.
  apply service_ByID_Ok in He as (_ & ent & props & Hent & ->). exists ent. split; [done|].
  unfold RetrieveAllPropertiesForEntity in Hr. apply prog_bind_Ok in Hr as (w2 & prov & _ & Hr).
  apply prog_bind_Ok in Hr as (w3 & props' & _ & Hr). by injection Hr as _ <-.
Qed.

(** Loading an entity writes its properties at most. *)
Lemma load_entity_touches transaction id w w' ewp :
  providers_leave_tables → load_entity entityTimeout transaction id w = (w', Ok ewp) →
  touches id w w'.
Proof.
  unfold load_entity. intros Hprov (w1 & e & He%wrapf_Ok & Hr%wrapf_Ok)%prog_bind_Ok.
  apply service_ByID_Ok in He as (Hd1 & ent & props & _ & ->).
  unfold RetrieveAllPropertiesForEntity in Hr.
  apply prog_bind_Ok in Hr as (w2 & prov & Hi%wrapf_Ok & Hr). simpl in Hi, Hr.
  destruct (Hprov (ei_ProviderID ent) w1) as [Hd2 Hl]. rewrite Hi in Hd2, Hl. simpl in Hd2.
  apply prog_bind_Ok in Hr as (w3 & props' & Hr%wrapf_Ok & Hend). injection Hend as <- _.
  apply retrieve_touches in Hr; [|by eapply Hl].
  eapply touches_db; [| |exact Hr]; [by rewrite Hd2, Hd1|done].
Qed.

Lemma list_loop_Ok left rows w w' page next :
  providers_leave_tables →
  (∀ p, p ∈ rows → entity_instances (w_db w) !! p.1 = Some p.2) →
  list_loop entityTimeout left rows w = (w', Ok (page, next)) →
  (∀ n, left = Some n → length page ≤ n)%nat ∧
  (if String.eqb next "" then length page = length rows else ∃ n, left = Some n ∧ length page = n) ∧
  Forall2 (λ pe p, pe_Id pe = uuid_String p.1 ∧ pe_Name pe = ei_Name p.2)
    page (take (length page) rows).
Proof.
  intros Hprov. revert left w page next. induction rows as [|[id ent] rows IH];
    intros left w page next Hrows Hrun; simpl in Hrun.
  { injection Hrun as <- <- <-. simpl. split_and!; [lia|done|constructor]. }
  destruct (decide (left = Some 0%nat)) as [->|Hleft].
  { injection Hrun as <- <- <-. simpl. destruct (String.eqb_spec (uuid_String id) "") as [Hs|_];
      [by destruct (uuid_String_nonempty id)|].
    split_and!; [lia|by exists 0%nat|constructor]. }
  assert (Hload : ∃ w1 ewp page' , load_entity entityTimeout true id w = (w1, Ok ewp) ∧
    list_loop entityTimeout (pred <$> left) rows w1 = (w', Ok (page', next)) ∧
    page = entityInstanceToProto ewp :: page').
  { destruct left as [[|n]|]; [done|..]; apply prog_bind_Ok in Hrun as (w1 & ewp & Hl & Hrun);
      apply prog_bind_Ok in Hrun as (w2 & [page' next'] & Hr & Hend); injection Hend as <- <- <-;
      by exists w1, ewp, page'. }
  destruct Hload as (w1 & ewp & page' & Hl & Hr & ->).
  destruct (load_entity_touches _ _ _ _ _ Hprov Hl) as (t & Hd & _).
  apply load_entity_Ok in Hl as (ent' & Hent' & Hid & _ & Hname & _).
  pose proof (Hrows (id, ent) (list_elem_of_here _ _)) as Hhere. simpl in Hhere.
  rewrite Hhere in Hent'. injection Hent' as <-.
  apply IH in Hr as (Hle & Hnext & Hall).
  2:{ intros p Hp. rewrite Hd. apply Hrows. by right. }
  split_and!.
  - intros n ->. simpl. destruct n as [|n]; [done|]. specialize (Hle n eq_refl). lia.
  - destruct (String.eqb next ""); [simpl; lia|]. destruct Hnext as (n & Hn & Hlen).
    destruct left as [[|n']|]; [done| |done]. injection Hn as Hn. exists (S n').
    simpl in *. split; [done|]. lia.
  - simpl. constructor; [|done]. simpl. by rewrite Hid.
Qed.

(** What a page of the rows [rows] of a listing is. *)
Definition page_of (rows : list (UUID * EntityInstance)) (limit : Z)
    (page : list pbEntityInstance) (next : string) : Prop :=
  Forall2 (λ pe p, pe_Id pe = uuid_String p.1 ∧ pe_Name pe = ei_Name p.2)
    page (take (length page) rows) ∧
  (0 < limit → Z.of_nat (length page) ≤ limit)%Z ∧
  (if String.eqb next "" then length page = length rows
   else (0 < limit)%Z ∧ Z.of_nat (length page) = limit).

Definition listed (d : Db) (projectID providerID : UUID) (dbType : Entities)
    (rows : list (UUID * EntityInstance)) : Prop :=
  ∀ p, p ∈ rows ↔ entity_instances d !! p.1 = Some p.2 ∧ ei_EntityType p.2 = dbType ∧
    ei_ProviderID p.2 = providerID ∧ ei_ProjectID p.2 = projectID.

Lemma list_in_transaction_run dbType projectID providerID limit w w' r :
  providers_leave_tables →
  list_in_transaction entityTimeout dbType projectID providerID limit w = (w', r) →
  w_db w' = w_db w ∧
  ∀ page next, r = Ok (page, next) → ∃ rows, listed (w_db w) projectID providerID dbType rows ∧
    page_of rows limit page next.
Proof.
  intros Hprov. unfold list_in_transaction, mbind at 1, prog_bind at 1, wrapf at 1.
  destruct (select_run (λ _, Ok tt) w) as (fs & r1 & Hb & _). fold BeginTransaction in Hb.
  rewrite Hb. destruct r1 as [[]|e|m]; [|by intros [= <- <-]..]. simpl wrapf_res.
  change (gets w_db ≫= ?k) with (λ w0, k (w_db w0) w0). cbv beta. unfold defer.
  match goal with |- context [let '(_, _) := ?m in _] => destruct m as [w2 r2] eqn:Hbody end.
  simpl. intros [= <- <-]. split; [done|].
  intros page next ->. apply prog_bind_Ok in Hbody as (w3 & rows & Hrows%wrapf_Ok & Hloop).
  unfold GetEntitiesByType, select in Hrows.
  match type of Hrows with query ?f ?w0 = _ =>
    destruct (query_cases f w0) as [(e & fs2 & Hc)|(fs2 & Hc)] end; rewrite Hc in Hrows; [done|].
  injection Hrows as <- <-. clear Hc.
  set (rows := filter _ _) in Hloop.
  assert (Hin : listed (w_db w) projectID providerID dbType rows).
  { intros [id ent]. unfold rows. rewrite list_elem_of_filter, elem_of_map_to_list. simpl.
    rewrite list_elem_of_singleton. tauto. }
  exists rows. split; [done|].
  apply list_loop_Ok in Hloop as (Hle & Hnext & Hall); [|done|by intros p [? _]%Hin].
  unfold page_of. split_and!; [done|..].
  - intros Hl. rewrite (proj2 (Z.ltb_lt _ _)) in Hle by done. specialize (Hle _ eq_refl). lia.
  - destruct (String.eqb next ""); [done|]. destruct Hnext as (n & Hn & Hlen).
    destruct (Z.ltb_spec 0 limit); [|done]. injection Hn as <-. lia.
Qed.

(** A listing reads only, and its pages are what they say.  A page has at
    most the number of entities that was asked for, all of them of the project,
    the provider and the type; when it names no next entity it has them all, and
    otherwise it is full.  Whatever happens, the tables stay as they were: even
    properties that were fetched from the provider on the way are not kept. *)
Theorem listing_page projectID providerID t cursor limit w w' r
    (Hprov : providers_leave_tables)
    (Hrun : ListEntities entity_String entityTimeout projectID providerID t cursor limit w = (w', r)) :
  w_db w' = w_db w ∧
  ∀ page next, r = Ok (page, next) → ∃ rows dbType,
    EntityTypeToDBType entity_String t = Ok dbType ∧
    listed (w_db w) projectID providerID dbType rows ∧ page_of rows limit page next.
Proof.
  unfold ListEntities, mbind at 1, prog_bind at 1, wrapf at 1, lift at 1 in Hrun.
  destruct (EntityTypeToDBType entity_String t) as [dbType|e|m]; simpl in Hrun;
    [|by injection Hrun as <- <-..].
  assert (Hlist : (w_db w' = w_db w ∧ is_ok r = false) ∨
    list_in_transaction entityTimeout dbType projectID providerID limit w = (w', r)).
  { unfold mbind, prog_bind in Hrun.
    destruct (String.eqb cursor ""); [|destruct (uuid_Parse cursor)];
      try (left; by injection Hrun as <- <-);
      (destruct (maxFetchLimit <? limit)%Z; [left; by injection Hrun as <- <-|by right]). }
  destruct Hlist as [[Hd Hr]|Hlist]; [split; [done|]; by intros page next ->|].
  apply list_in_transaction_run in Hlist as [Hd Hpage]; [|done]. split; [done|].
  intros page next Hr. destruct (Hpage page next Hr) as (rows & Hl & Hp). by exists rows, dbType.
Qed.

(** C26: a project reads and deletes its own entities only.  An entity that is
    answered is in the table and belongs to the project that asked; a deletion
    that succeeds was asked for by the project of the entity, which is gone
    afterwards; a deletion that fails has changed nothing. *)
Theorem entities_project_isolation id projectID w w' :
  (∀ pe, entityService_GetEntityByID entityTimeout id projectID w = (w', Ok pe) →
     ∃ ent, entity_instances (w_db w) !! id = Some ent ∧ ei_ProjectID ent = projectID ∧
       pe_Name pe = ei_Name ent ∧ pe_Id pe = uuid_String id) ∧
  (∀ r, DeleteEntityByID id projectID w = (w', r) →
     if is_ok r
     then (∃ ent, entity_instances (w_db w) !! id = Some ent ∧ ei_ProjectID ent = projectID) ∧
          entity_instances (w_db w') !! id = None
     else w_db w' = w_db w).
Proof.
  destruct (GetEntityByID_run id w) as (fs & r0 & Hget & Hnp & Hent). split.
  - intros pe (w1 & r & He & Hrun)%prog_bind_Ok. unfold try in He. rewrite Hget in He.
    destruct r0 as [ent|e|m]; [injection He as <- <-|by injection He as <- <-|done].
    destruct (N.eqb_spec (ei_ProjectID ent) projectID) as [Hp|]; [|done]. simpl in Hrun.
    apply prog_bind_Ok in Hrun as (w2 & ewp & Hl & Hrun). injection Hrun as <- <-.
    apply load_entity_Ok in Hl as (ent' & Hent' & Hid & _ & Hname & _). exists ent.
    specialize (Hent ent eq_refl). simpl in Hent'. rewrite Hent in Hent'. injection Hent' as <-.
    simpl. by rewrite Hid.
  - intros r Hrun. unfold DeleteEntityByID in Hrun.
    unfold mbind at 1, prog_bind at 1, try in Hrun. rewrite Hget in Hrun.
    destruct r0 as [ent|e|m]; [|by injection Hrun as <- <-|by destruct (Hnp m)].
    specialize (Hent ent eq_refl).
    destruct (N.eqb_spec (ei_ProjectID ent) projectID) as [Hp|]; simpl in Hrun;
      [|by injection Hrun as <- <-].
    destruct (in_transaction_cases _ _ _ _ Hrun) as [(a & fs2 & w2 & -> & _ & Hb & Hd2)|[Hr Hd2]];
      [|by destruct r].
    simpl. split; [by exists ent|]. rewrite Hd2.
    apply prog_bind_Ok in Hb as (w3 & [] & Hdel%wrapf_Ok & Hb%wrapf_Ok).
    assert (Hsame : entity_instances (w_db w3) = entity_instances (w_db w)).
    { unfold DeleteAllPropertiesForEntity in Hdel.
      match type of Hdel with query ?f ?w0 = _ =>
        destruct (query_cases f w0) as [(e & fs3 & Hc)|(fs3 & Hc)] end; rewrite Hc in Hdel;
        [done|by injection Hdel as <-]. }
    destruct a. destruct (DeleteEntity_run _ _ _ _ _ Hb) as [[_ Hno]|(_ & _ & _ & _ & ->)];
      [|apply deleted_gone].
    destruct (Hno eq_refl ent); [by rewrite Hsame|done].
Qed.
End isolation.

(** ** Witnesses *)

Definition ex_public : gmap string Value :=
  {["is_archived" := BoolValue false; "is_private" := BoolValue false;
    "upstream_id" := StringValue "43"]}.

(** A provider that tells of [props] and creates a hook when it registers. *)
Definition ex_hooked (props : gmap string Value) : ProviderOps :=
  {| FetchAllProperties _ _ _ := λ w, (w, Ok (Some props));
     PropertiesToProtoMessage _ _ := Ok {| pm_kind := KRepository; pm_fields := Any "repo" |};
     CreationOptions _ := Some {| cd_RegisterWithProvider := true;
                                  cd_PublishReconciliationEvent := true |};
     GetEntityName _ _ := Ok "acme/lib";
     RegisterEntity _ p := λ w, (w, Ok p);
     DeregisterEntity _ _ := λ w, (w, Ok tt) |}.

Definition ex_manager (props : gmap string Value) : ProviderManager :=
  {| InstantiateFromID _ := λ w, (w, Ok (ex_hooked props)) |}.

Lemma ex_manager_leaves props : @providers_leave_tables (ex_manager props).
Proof. intros id w. split; [done|]. by intros w' p [= <- <-]. Qed.

Definition ex_prov_row : UUID * Provider :=
  (1%N, {| prv_Name := "github"; prv_Class := "github"; prv_Implements := ["github"; "git"; "rest"];
           prv_ProjectID := 2%N |}).

(** The database without its entity, in which every id is unused. *)
Definition ex_empty_db : Db := set_entities ∅ ex_db.

Lemma ex_empty_unused : @unused_ids counter_uuid (w_db (ex_world ex_empty_db [])).
Proof. by intros n. Qed.

Definition ex_creation (props : gmap string Value) (w : World) : World * res EntityWithProperties :=
  @CreateEntity decimal_uuid counter_uuid ex_structpb ex_message_json ex_property_json
    (ex_manager props) (@server_validators ex_structpb) ex_prov_row 2%N Entity_ENTITY_REPOSITORIES None None w.

Lemma create_entity_all_or_nothing_witness :
  ∃ w' ewp, ex_creation ex_public (ex_world ex_empty_db []) = (w', Ok ewp) ∧
    is_Some (entity_instances (w_db w') !! ewp_ID ewp).
Proof.
  destruct (ex_creation ex_public (ex_world ex_empty_db [])) as [w' r] eqn:Hrun.
  pose proof (@create_entity_all_or_nothing decimal_uuid counter_uuid ex_structpb ex_message_json
    ex_property_json (ex_manager ex_public) (@server_validators ex_structpb)
    (ex_manager_leaves ex_public) server_validators_leave ex_prov_row 2%N
    Entity_ENTITY_REPOSITORIES None None _ w' r ex_empty_unused Hrun) as Hall.
  assert (Hok : is_ok r = true) by (change r with (w', r).2; rewrite <-Hrun; vm_compute; reflexivity).
  destruct r as [ewp|e|m]; [|discriminate Hok..].
  destruct Hall as (id & m & name & -> & _ & (t & Hd & _) & _).
  eexists _, _. split; [reflexivity|]. rewrite Hd. simpl. rewrite lookup_insert_eq. by eexists.
Defined.

Lemma created_repository_allowed_witness :
  ∃ w' ewp allProps, ex_creation ex_public (ex_world ex_empty_db []) = (w', Ok ewp) ∧
    @AsBool ex_structpb (GetProperty allProps RepoPropertyIsArchived) = Ok false.
Proof.
  destruct (ex_creation ex_public (ex_world ex_empty_db [])) as [w' r] eqn:Hrun.
  assert (Hok : is_ok r = true) by (change r with (w', r).2; rewrite <-Hrun; vm_compute; reflexivity).
  destruct r as [ewp|e|m]; [|discriminate Hok..].
  destruct (@created_repository_allowed decimal_uuid counter_uuid ex_structpb ex_message_json
    ex_property_json (ex_manager ex_public) ex_prov_row 2%N None None _ w' ewp
    (ex_manager_leaves ex_public) Hrun) as (allProps & Harch & _).
  exists w', ewp, allProps. exact (conj eq_refl Harch).
Defined.

(** The entity 7 of the project 2, deleted by its project and out of reach of the
    project 3. *)
Lemma entities_project_isolation_witness :
  (∃ w', DeleteEntityByID 7%N 2%N (ex_world ex_db []) = (w', Ok tt) ∧
     entity_instances (w_db w') !! 7%N = None) ∧
  (∃ w' e, DeleteEntityByID 7%N 3%N (ex_world ex_db []) = (w', Err e) ∧ w_db w' = ex_db).
Proof.
  split.
  - destruct (DeleteEntityByID 7%N 2%N (ex_world ex_db [])) as [w' r] eqn:Hrun.
    pose proof (proj2 (@entities_project_isolation decimal_uuid ex_structpb ex_property_json
      (ex_manager ex_public) 60 7%N 2%N _ w') r Hrun) as Hall.
    assert (Hok : is_ok r = true)
      by (change r with (w', r).2; rewrite <-Hrun; vm_compute; reflexivity).
    destruct r as [[]|e|m]; [|discriminate Hok..].
    exists w'. exact (conj eq_refl (proj2 Hall)).
  - destruct (DeleteEntityByID 7%N 3%N (ex_world ex_db [])) as [w' r] eqn:Hrun.
    pose proof (proj2 (@entities_project_isolation decimal_uuid ex_structpb ex_property_json
      (ex_manager ex_public) 60 7%N 3%N _ w') r Hrun) as Hall.
    assert (Hno : match r with Err _ => true | _ => false end = true)
      by (change r with (w', r).2; rewrite <-Hrun; vm_compute; reflexivity).
    destruct r as [[]|e|m]; [discriminate Hno| |discriminate Hno].
    exists w', e. exact (conj eq_refl Hall).
Defined.

Lemma listing_page_witness :
  ∃ w' pe, @ListEntities decimal_uuid ex_structpb ex_property_json (ex_manager ex_public)
      (λ _, "") 60 2%N 1%N Entity_ENTITY_REPOSITORIES "" 10 (ex_world ex_db [])
    = (w', Ok ([pe], "")) ∧ w_db w' = ex_db.
Proof.
  destruct (@ListEntities decimal_uuid ex_structpb ex_property_json (ex_manager ex_public)
    (λ _, "") 60 2%N 1%N Entity_ENTITY_REPOSITORIES "" 10 (ex_world ex_db [])) as [w' r] eqn:Hrun.
  destruct (@listing_page decimal_uuid ex_structpb ex_property_json (ex_manager ex_public)
    (λ _, "") 60 2%N 1%N Entity_ENTITY_REPOSITORIES "" 10 _ w' r (ex_manager_leaves ex_public) Hrun)
    as [Hd _].
  assert (Hone : match r with Ok ([_], EmptyString) => true | _ => false end = true)
    by (change r with (w', r).2; rewrite <-Hrun; vm_compute; reflexivity).
  destruct r as [[[|pe [|pe' page]] [|c s]]|e|m]; try discriminate Hone.
  exists w', pe. exact (conj eq_refl Hd).
Defined.
