(* ===== verification/Repositories.v ===== *)
(** * Repositories and their reconciliation

    internal/repositories/service.go, the repository handlers of
    internal/controlplane/handlers_repositories.go, and the reconcilers of
    internal/reconcilers/entity_add.go, entity_delete.go and run_profile.go. *)

From S2P Require Import Prelude GoErrors GoMonad GoStrings Uuid DbTypes EntityEvent Properties.
From S2P Require Import EntityMessage Database EntityModels Eea HistoryDb HistoryStore EntityDb.
From S2P Require Import PropertyService EntityService.
From Stdlib Require Import Ascii.
Local Open Scope string_scope.

(** ** service.go *)

(** The type assertion to [*pb.Repository]. *)
Definition as_repository (what : string) (m : ProtoMessage) : res ProtoMessage :=
  if bool_decide (pm_kind m = KRepository) then Ok m else Err (EText what).

(** Neither transaction nor stale data. *)
Definition no_options : ReadOptions := {| ro_transaction := false; ro_tolerateStaleData := false |}.

Section service.
Context `{UuidLib} `{RandomUuid} `{MessageJSON} `{!PropertyJSON} `{ProviderManager}.
Context (validators : validatorRegistry) (entityTimeout : Z).

Definition CreateRepository (provider : UUID * Provider) (projectID : UUID)
    (fetchByProps : Properties) : prog World ProtoMessage :=
  ewp ← try (CreateEntity validators provider projectID Entity_ENTITY_REPOSITORIES fetchByProps
               (Some {| co_OriginatingEntityID := None; co_RegisterWithProvider := true;
                        co_PublishReconciliationEvent := true |}));
  match ewp with
  | inr err =>
      throw (if errors_Is (Some err) ErrPrivateRepoForbidden ||
                errors_Is (Some err) ErrArchivedRepoForbidden
             then err else EWrap "error creating repository: " err "")
  | inl ewp =>
      somePB ← wrapf "error converting entity to protobuf: "
                 (service_EntityWithPropertiesAsProto ewp);
      lift (as_repository "couldn't convert to protobuf" somePB)
  end.

Fixpoint load_repositories (repoEnts : list (UUID * EntityInstance))
    : prog World (list EntityWithProperties) :=
  match repoEnts with
  | [] => mret []
  | ent :: repoEnts =>
      ewp ← wrapf "error fetching properties for repository: "
              (service_EntityWithPropertiesByID ent.1);
      ewp ← wrapf "error fetching properties for repository: "
              (RetrieveAllPropertiesForEntity entityTimeout ewp
                 {| ro_transaction := true; ro_tolerateStaleData := true |});
      ents ← load_repositories repoEnts;
      mret (ewp :: ents)
  end.

(** The transaction is committed, for the properties that were fetched. *)
Definition ListRepositories (projectID providerID : UUID)
    : prog World (list EntityWithProperties) :=
  in_transaction
    (repoEnts ← wrapf "error fetching repositories: "
       (GetEntitiesByType EntitiesRepository providerID [projectID]);
     load_repositories repoEnts).

(** The properties and the message of an entity. *)
Definition repository_message (ewp : EntityWithProperties) : prog World ProtoMessage :=
  ewp ← wrapf "error fetching properties for repository: "
          (RetrieveAllPropertiesForEntity entityTimeout ewp no_options);
  somePB ← wrapf "error converting entity to protobuf: "
             (service_EntityWithPropertiesAsProto ewp);
  lift (as_repository "unexpected type" somePB).

Definition GetRepositoryById (repositoryID projectID : UUID) : prog World ProtoMessage :=
  ewp ← wrapf "error fetching repository: " (service_EntityWithPropertiesByID repositoryID);
  if negb (ewp_ProjectID ewp =? projectID)%N then throw ErrNoRows
  else if negb (bool_decide (em_Type (ewp_Entity ewp) = Entity_ENTITY_REPOSITORIES))
  then throw (EText "entity is not a repository")
  else repository_message ewp.

(** The id of the provider of that name, or any. *)
Definition provider_id (projectID : UUID) (providerName : string) : prog World UUID :=
  if String.eqb providerName "" then mret uuid_Nil
  else prov ← wrapf "error fetching provider: " (GetProviderByName providerName [projectID]);
       mret prov.1.

Definition repositories_named (repoOwner repoName : string) (projectID : UUID)
    (providerName : string) : prog World (list (UUID * EntityInstance)) :=
  providerID ← provider_id projectID providerName;
  wrapf "error searching for repository: "
    (GetTypedEntitiesByPropertyV1 EntitiesRepository PropertyName
       (GString (repoOwner +:+ "/" +:+ repoName)) projectID providerID).

Definition GetRepositoryByName (repoOwner repoName : string) (projectID : UUID)
    (providerName : string) : prog World ProtoMessage :=
  entities ← repositories_named repoOwner repoName projectID providerName;
  match entities with
  | [] => throw ErrNoRows
  | ent :: _ =>
      ewp ← wrapf "error fetching repository: " (service_EntityWithPropertiesByID ent.1);
      repository_message ewp
  end.

(** A registration that cannot be taken back is logged. *)
Definition deleteRepository (client : ProviderOps) (repo : EntityWithProperties)
    : prog World unit :=
  try (DeregisterEntity client Entity_ENTITY_REPOSITORIES (ewp_Properties repo));;
  wrapf "error deleting repository: "
    (WithTransaction (wrapf "error deleting entity from DB: "
       (DeleteEntity (ewp_ID repo) (ewp_ProjectID repo)))).

(** Of the project only the log is told. *)
Definition DeleteByID (repositoryID projectID : UUID) : prog World unit :=
  ent ← wrapf "error fetching repository: " (service_EntityWithPropertiesByID repositoryID);
  prov ← wrapf "error instantiating provider: " (InstantiateFromID (ewp_ProviderID ent));
  deleteRepository prov ent.

Definition DeleteByName (repoOwner repoName : string) (projectID : UUID) (providerName : string)
    : prog World unit :=
  entities ← repositories_named repoOwner repoName projectID providerName;
  match entities with
  | [] => throw (EWrap "error retrieving repository: " ErrNoRows "")
  | ent :: _ =>
      ent ← wrapf "error fetching repository: " (service_EntityWithPropertiesByID ent.1);
      prov ← wrapf "error instantiating provider: " (InstantiateFromID (ewp_ProviderID ent));
      deleteRepository prov ent
  end.

(** ** handlers_repositories.go

    [project] is the project of the request, which the caller may act on. *)

(** [ErrNoRows] is not found, any other error is internal. *)
Definition found (text : string) {A} (m : prog World A) : prog World A :=
  r ← try m;
  match r with
  | inl a => mret a
  | inr err => throw (if errors_Is (Some err) ErrNoRows
                      then status_error "NotFound" "repository not found"
                      else status_error "Internal" (text +:+ Error err))
  end.

Definition GetRepositoryById_handler (project : UUID) (id : string) : prog World ProtoMessage :=
  match uuid_Parse id with
  | Ok parsedRepositoryID =>
      found "cannot read repository: " (GetRepositoryById parsedRepositoryID project)
  | Err _ => throw (status_error "InvalidArgument" "invalid repository ID")
  | Panic m => lift (Panic m)
  end.

Definition DeleteRepositoryById_handler (project : UUID) (id : string) : prog World string :=
  match uuid_Parse id with
  | Ok parsedRepositoryID =>
      found "unexpected error deleting repo: " (DeleteByID parsedRepositoryID project);; mret id
  | Err _ => throw (status_error "InvalidArgument" "invalid repository ID")
  | Panic m => lift (Panic m)
  end.

Definition DeleteRepositoryByName_handler (project : UUID) (providerName name : string)
    : prog World string :=
  match Strings.Split name "/"%char with
  | [owner; repo] =>
      found "unexpected error deleting repo: " (DeleteByName owner repo project providerName);;
      mret name
  | _ => throw (status_error "InvalidArgument" "invalid repository name")
  end.

(** ** The reconcilers *)

(** [validate.Struct]: the fields that are required are not zero, nor nil. *)
Definition valid_event (event : MinderEvent) : bool :=
  negb (me_ProviderID event =? uuid_Nil)%N && negb (me_ProjectID event =? uuid_Nil)%N &&
  negb (me_EntityType event =? Entity_ENTITY_UNSPECIFIED)%Z &&
  match me_Properties event with Some _ => true | None => false end.

(** [repository_id]: the field of the message. *)
Definition handleEntityAddEvent (repository_id : ProtoMessage → option string) (msg : message)
    : prog World unit :=
  match minder_Unmarshal (msg_Payload msg) with
  | inr err => throw (EWrap "error unmarshalling payload: " err "")
  | inl event =>
      if negb (valid_event event) then mret tt
      else if negb (bool_decide (me_EntityType event = Entity_ENTITY_REPOSITORIES)) then mret tt
      else
        let props := default ∅ (me_Properties event) in
        if (size props =? 0)%nat then mret tt
        else
          dbProvider ← wrapf "error retrieving provider: " (GetProviderByID (me_ProviderID event));
          pbRepo ← wrapf "error add repository from DB: "
            (CreateRepository (me_ProviderID event, dbProvider) (me_ProjectID event)
               (NewProperties props false));
          match repository_id pbRepo with
          | None => throw (EText "repository id is nil")
          | Some id => wrapf "repository id is not a UUID: " (lift (uuid_Parse id));; mret tt
          end
  end.

Definition handleEntityDeleteEvent (msg : message) : prog World unit :=
  match minder_Unmarshal (msg_Payload msg) with
  | inr err => throw (EWrap "error unmarshalling payload: " err "")
  | inl event =>
      if negb (valid_event event) then mret tt
      else if negb (bool_decide (me_EntityType event = Entity_ENTITY_REPOSITORIES)) then mret tt
      else
        r ← try (DeleteByID (me_EntityID event) (me_ProjectID event));
        match r with
        | inl _ => mret tt
        | inr err => if errors_Is (Some err) ErrEntityNotFound then mret tt
                     else throw (EWrap "error deleting repository: " err "")
        end
  end.

(** *** run_profile.go *)

Definition NewProfileInitMessage (projectID : UUID) : prog World message :=
  NewMessage (profile_Marshal projectID).

(** A message that cannot be built is left out. *)
Fixpoint publish_refreshes (ents : list (UUID * EntityInstance)) : prog World unit :=
  match ents with
  | [] => mret tt
  | ent :: ents =>
      m ← NewMessage "";
      match do_ToMessage (WithEntityID ent.1 NewEntityRefreshAndDoMessage) m with
      | Ok m =>
          wrapf "error publishing message: " (Publish TopicQueueRefreshEntityByIDAndEvaluate m);;
          publish_refreshes ents
      | Err _ => publish_refreshes ents
      | Panic s => lift (Panic s)
      end
  end.

Definition publishProfileInitEvents (projectID : UUID) : prog World unit :=
  ents ← wrapf "cannot get entities: " (GetEntitiesByProjectHierarchy [projectID]);
  publish_refreshes ents.

(** An error is logged; the message is not retried. *)
Definition handleProfileInitEvent (msg : message) : prog World unit :=
  match profile_Unmarshal (msg_Payload msg) with
  | inr _ => mret tt
  | inl project => try (publishProfileInitEvents project);; mret tt
  end.
End service.

(** ** Lemmas *)

(** A deletion in a transaction, with a working connection and a history whose
    references are right, takes the entity away. *)
Lemma delete_in_transaction id project w ent :
  w_faults w = [] → entity_instances (w_db w) !! id = Some ent → ei_ProjectID ent = project →
  history_wf (history (w_db w)) →
  ∃ w', WithTransaction (wrapf "error deleting entity from DB: " (DeleteEntity id project)) w
          = (w', Ok tt) ∧ w_faults w' = [] ∧ entity_instances (w_db w') !! id = None.
Proof.
  intros Hf He Hp Hwf.
  set (d' := delete_entities (descendants (size (entity_instances (w_db w)))
               (entity_instances (w_db w)) {[id]}) (w_db w)).
  assert (Hrun : DeleteEntity id project w = (set_db d' w, Ok tt)).
  { unfold DeleteEntity. rewrite query_ok by done. rewrite He.
    rewrite bool_decide_eq_true_2 by done. fold d'.
    rewrite bool_decide_eq_true_2; [done|]. apply latest_refer_wf. by apply drop_rule_entities_wf. }
  exists (set_db d' w). split_and!; [|done|apply deleted_gone].
  apply WithTransaction_runs; [done| |done]. by apply wrapf_Ok.
Qed.

Section repositories.
Context `{UuidLib} `{RandomUuid} `{MessageJSON} `{!PropertyJSON} `{ProviderManager}.

(** Any project can delete the repository of any other by its id.  The id is
    all the deletion looks at: the project of the request reaches the log only.
    A repository that a project is told does not exist when it asks for it is
    deleted, with all that hangs on it, when the same project asks to delete it. *)
Theorem delete_by_id_crosses_projects entityTimeout id project w ewp prov
    (Hf : w_faults w = []) (Hwf : history_wf (history (w_db w)))
    (Hread : service_EntityWithPropertiesByID id w = (w, Ok ewp))
    (Hother : ewp_ProjectID ewp ≠ project)
    (Hprov : InstantiateFromID (ewp_ProviderID ewp) w = (w, Ok prov))
    (Hdereg : ∃ r : res unit, (∀ m, r ≠ Panic m) ∧
       DeregisterEntity prov Entity_ENTITY_REPOSITORIES (ewp_Properties ewp) w = (w, r)) :
  GetRepositoryById_handler entityTimeout project (uuid_String id) w
    = (w, Err (status_error "NotFound" "repository not found")) ∧
  ∃ w', DeleteRepositoryById_handler project (uuid_String id) w = (w', Ok (uuid_String id)) ∧
    is_Some (entity_instances (w_db w) !! id) ∧ entity_instances (w_db w') !! id = None.
Proof.
  destruct (service_ByID_Ok _ _ _ _ Hread) as (_ & ent & props & He & ->). simpl in Hother, Hprov.
  unfold GetRepositoryById_handler, DeleteRepositoryById_handler. rewrite uuid_Parse_String. split.
  - unfold found, try, GetRepositoryById, wrapf, mbind, prog_bind. rewrite Hread. simpl.
    rewrite (proj2 (N.eqb_neq _ _)) by done. done.
  - destruct (delete_in_transaction id (ei_ProjectID ent) w ent Hf He eq_refl Hwf)
      as (w' & Hdel & _ & Hgone).
    exists w'. split_and!; [|by eexists|done].
    assert (Hrun : DeleteByID id project w = (w', Ok tt)).
    { unfold DeleteByID. rewrite (prog_bind_run _ _ _ _ _ (proj2 (wrapf_Ok _ _ _ _ _) Hread)).
      rewrite (prog_bind_run _ _ _ _ _ (proj2 (wrapf_Ok _ _ _ _ _) Hprov)).
      unfold deleteRepository, mbind, prog_bind, try. destruct Hdereg as (r & Hnp & ->).
      destruct r as [[]|e|m]; [| |by destruct (Hnp m)]; cbv iota beta; by apply wrapf_Ok. }
    unfold found, try, mbind, prog_bind. by rewrite Hrun.
Qed.

(** *** A new profile *)

Lemma refresh_message_read id m :
  ∃ s, do_ToMessage (WithEntityID id NewEntityRefreshAndDoMessage) m = Ok (with_payload s m) ∧
    ToEntityRefreshAndDo (with_payload s m) = Ok (WithEntityID id NewEntityRefreshAndDoMessage).
Proof.
  destruct (do_json_roundtrip (WithEntityID id NewEntityRefreshAndDoMessage)) as (s & Hm & Hu).
  { repeat split; by apply ascii_valid. }
  exists s. unfold do_ToMessage, ToEntityRefreshAndDo. simpl msg_Payload. by rewrite Hm, Hu.
Qed.

Lemma publish_refreshes_run ents w :
  w_faults w = [] →
  ∃ w' ms, publish_refreshes ents w = (w', Ok tt) ∧ w_faults w' = [] ∧ w_db w' = w_db w ∧
    w_published w' = (w_published w ++ (pair TopicQueueRefreshEntityByIDAndEvaluate <$> ms))%list ∧
    Forall2 (λ m p, ToEntityRefreshAndDo m = Ok (WithEntityID p.1 NewEntityRefreshAndDoMessage))
      ms ents.
Proof.
  revert w. induction ents as [|ent ents IH]; intros w Hf.
  { exists w, []. rewrite app_nil_r. split_and!; [done..|constructor]. }
  simpl. unfold mbind at 1, prog_bind at 1, NewMessage.
  match goal with |- context [do_ToMessage _ ?m] =>
    destruct (refresh_message_read ent.1 m) as (s & Hm & Hread) end.
  rewrite Hm. unfold mbind at 1, prog_bind at 1, wrapf, Publish. rewrite query_ok by done. simpl.
  match goal with |- context [publish_refreshes ents ?w1] =>
    destruct (IH w1 Hf) as (w' & ms & Hrun & Hf' & Hd & Hp & Hall) end.
  eexists w', (_ :: ms). split_and!; [exact Hrun|done|done| |by constructor].
  rewrite Hp. simpl. by rewrite <-app_assoc.
Qed.

(** A new profile has every entity of its project looked at again.  With a
    working connection, the event of a profile publishes one message for each
    entity of the project and nothing else, and each is read back as the request
    to refresh that entity and to evaluate it. *)
Theorem profile_init_refreshes_all project w (Hf : w_faults w = []) :
  ∃ w0 msg, NewProfileInitMessage project w = (w0, Ok msg) ∧
  ∃ w' ms ents, handleProfileInitEvent msg w0 = (w', Ok tt) ∧ w_db w' = w_db w ∧
    w_published w' = (w_published w ++ (pair TopicQueueRefreshEntityByIDAndEvaluate <$> ms))%list ∧
    NoDup ents.*1 ∧
    (∀ p, p ∈ ents ↔ entity_instances (w_db w) !! p.1 = Some p.2 ∧ ei_ProjectID p.2 = project) ∧
    Forall2 (λ m p, ToEntityRefreshAndDo m = Ok (WithEntityID p.1 NewEntityRefreshAndDoMessage))
      ms ents.
Proof.
  eexists _, _. split; [reflexivity|]. unfold handleProfileInitEvent. cbn [msg_Payload].
  rewrite profile_roundtrip.
  set (w0 := set_fresh _ w).
  set (ents := filter (λ p : UUID * EntityInstance, ei_ProjectID p.2 ∈ [project])
                 (map_to_list (entity_instances (w_db w0)))).
  destruct (publish_refreshes_run ents w0 Hf) as (w' & ms & Hrun & Hf' & Hd & Hp & Hall).
  exists w', ms, ents. split_and!; [|done|done| | |done].
  - assert (Hq : publishProfileInitEvents project w0 = (w', Ok tt)).
    { unfold publishProfileInitEvents. erewrite prog_bind_run; [exact Hrun|].
      apply wrapf_Ok. unfold GetEntitiesByProjectHierarchy. by rewrite select_ok. }
    unfold mbind, prog_bind, try. by rewrite Hq.
  - unfold ents. eapply sublist_NoDup; [apply (NoDup_fst_map_to_list (entity_instances (w_db w0)))|].
    apply fmap_sublist, sublist_filter.
  - intros [id e]. unfold ents. rewrite list_elem_of_filter, elem_of_map_to_list. simpl.
    rewrite list_elem_of_singleton. tauto.
Qed.
End repositories.

(** ** Witnesses *)

(** The project 3 deletes the repository 7 of the project 2. *)
Definition ex_ewp : EntityWithProperties :=
  NewEntityWithProperties 7%N ex_app (Some (<["name" := StringValue "acme/app"]> ∅)).

Lemma ex_read : @service_EntityWithPropertiesByID ex_structpb ex_property_json 7%N
  (ex_world ex_db []) = (ex_world ex_db [], Ok ex_ewp).
Proof. vm_compute. reflexivity. Qed.

Lemma ex_owned_history_wf : history_wf (history (w_db (ex_world ex_db []))).
Proof. split; simpl; try done; by intros ? ?%elem_of_nil. Qed.

Lemma delete_by_id_crosses_projects_witness :
  ∃ w', @DeleteRepositoryById_handler decimal_uuid ex_structpb ex_property_json
      (ex_manager ex_public) 3%N "7" (ex_world ex_db []) = (w', Ok "7") ∧
    entity_instances (w_db w') !! 7%N = None.
Proof.
  destruct (@delete_by_id_crosses_projects decimal_uuid ex_structpb ex_property_json
    (ex_manager ex_public) 60 7%N 3%N (ex_world ex_db []) ex_ewp (ex_hooked ex_public)
    eq_refl ex_owned_history_wf ex_read) as (_ & w' & Hrun & _ & Hgone).
  - discriminate.
  - reflexivity.
  - exists (Ok tt). split; [discriminate|reflexivity].
  - exists w'. exact (conj Hrun Hgone).
Defined.

(** The one entity of the project 2. *)
Lemma profile_init_refreshes_all_witness :
  ∃ w0 msg, @NewProfileInitMessage decimal_uuid counter_uuid ex_structpb ex_message_json 2%N
      (ex_world ex_db []) = (w0, Ok msg) ∧
  ∃ w' ms (ents : list (UUID * EntityInstance)),
    @handleProfileInitEvent decimal_uuid counter_uuid ex_structpb ex_message_json msg w0
      = (w', Ok tt) ∧ w_published w' = pair TopicQueueRefreshEntityByIDAndEvaluate <$> ms ∧
    (7%N, ex_app) ∈ ents.
Proof.
  destruct (@profile_init_refreshes_all decimal_uuid counter_uuid ex_structpb ex_message_json 2%N
    (ex_world ex_db []) eq_refl)
    as (w0 & msg & Hm & w' & ms & ents & Hrun & _ & Hp & _ & Hin & _).
  exists w0, msg. split; [exact Hm|]. exists w', ms, ents. split; [exact Hrun|].
  split; [exact Hp|]. apply Hin. split; reflexivity.
Defined.
