(* ===== verification/ProfileService.v ===== *)
(** * The profile service and its handlers

    pkg/profiles/service.go, internal/marketplaces/namespaces/validation.go,
    internal/labels/labels.go and the handlers of
    internal/controlplane/handlers_profile.go that create, change, delete and
    read profiles.  The literal maps over the entities are visited in the order
    of [rules_by_entity]; the querier of the service is the transaction the
    handler opened. *)

From S2P Require Import Prelude GoErrors GoMonad GoStrings Uuid DbTypes ProfileModels Properties.
From S2P Require Import ApiTypes Validators Database HistoryDb SelectorScan ProfileDb ProfileRules ProfileMerge.
From S2P Require Import EntityMessage Eea Repositories.
From Stdlib Require Import Ascii.
Local Open Scope string_scope.

(** ** namespaces/validation.go *)

Definition ValidateNamespacedNameRules (name : string) (subscriptionID : UUID) : error :=
  let hasNamespace := Strings.Contains name "/" in
  if hasNamespace && (subscriptionID =? uuid_Nil)%N
  then Some (EText "cannot create a rule type, data source or profile with a namespace through the API")
  else if negb hasNamespace && negb (subscriptionID =? uuid_Nil)%N
  then Some (EText "rule types, data sources and profiles from subscriptions must have namespaced names")
  else None.

Definition DoesSubscriptionIDMatch (subscriptionID : UUID) (dbSubscriptionID : option UUID) : error :=
  match dbSubscriptionID with
  | Some id => if (id =? subscriptionID)%N then None
               else Some (EText "attempted to edit a rule type or profile which belongs to a bundle")
  | None => if (subscriptionID =? uuid_Nil)%N then None
            else Some (EText "attempted to edit a customer rule type or profile with bundle operation")
  end.

Definition ValidateLabelsPresence (labels : list string) (subscriptionID : UUID) : error :=
  if (subscriptionID =? uuid_Nil)%N && negb (bool_decide (labels = []))
  then Some (EText "labels can only be applied to profiles from a subscription bundle") else None.

Definition ValidateLabelsUpdate (labels dbLabels : list string) : error :=
  if bool_decide (labels = dbLabels) then None else Some (EText "labels cannot be updated").

(** ** labels/labels.go *)

(** To include, and to exclude. *)
Definition ParseLabel (label : string) : string * string :=
  if Strings.HasPrefix label "!" then ("", Strings.TrimPrefix label "!") else (label, "").

Fixpoint parse_labels (labels : list string) (star : bool) (inc exc : list string)
    : bool * list string * list string :=
  match labels with
  | [] => (star, inc, exc)
  | label :: labels =>
      let label := Strings.TrimSpace label in
      if String.eqb label "" then parse_labels labels star inc exc
      else
        let '(i, e) := ParseLabel label in
        let star := star || String.eqb i "*" in
        let inc := if negb (String.eqb i "") && negb (String.eqb i "*") then (inc ++ [i])%list else inc in
        let exc := if negb (String.eqb e "") then (exc ++ [e])%list else exc in
        parse_labels labels star inc exc
  end.

Definition ParseLabelFilter (flt : string) : list string * list string :=
  if String.eqb flt "" then ([], [])
  else
    let '(starMatched, include, exclude) := parse_labels (Strings.Split flt ",") false [] [] in
    (if starMatched then ["*"] else include, exclude).

(** ** service.go *)

(** [%q], of a string that holds nothing to escape. *)
Definition quoted (s : string) : string := String dquote (s +:+ String dquote "").

(** [if err := check; err != nil { return nil, f(err) }] *)
Definition checking (f : gerr → gerr) (err : error) : prog World unit :=
  match err with None => mret tt | Some e => throw (f e) end.

(** The order of [sort.Strings]. *)
Definition string_le (a b : string) : Prop := String.leb a b = true.

#[export] Instance string_le_dec a b : Decision (string_le a b).
Proof. unfold string_le. apply _. Defined.

Section service.
Context `{UuidLib} `{RandomUuid} `{PgText} `{RuleTypeLib} `{RulesJSON} `{RecordOutput}
  `{SelectionChecker} `{MessageJSON}.

(** Neither error is fatal. *)
Definition sendNewProfileEvent (projectID : UUID) : prog World unit :=
  msg ← NewProfileInitMessage projectID;
  try (Publish TopicQueueReconcileProfileInit msg);; mret tt.

(** The ids of the rules that were written. *)
Fixpoint upsertRuleInstances (profileID projectID : UUID) (entityType : Entities)
    (rulesInProf : RuleMapping) (newRules : list Profile_Rule) : prog World (list UUID) :=
  match newRules with
  | [] => mret []
  | rule :: newRules =>
      match rulesInProf !! (rule_Type rule, rule_Name rule) with
      | None => throw (EText ("unable to find rule type ID for " +:+ rule_Name rule +:+ "/" +:+
                              rule_Type rule))
      | Some ruleIDAndName =>
          def ← wrapf "unable to serialize rule def: "
                  (lift match struct_Marshal (rule_Def rule) with inl s => Ok s | inr e => Err e end);
          params ← wrapf "unable to serialize rule params: "
                  (lift match struct_Marshal (rule_Params rule) with inl s => Ok s | inr e => Err e end);
          id ← wrapf "unable to insert new rule instance: "
                 (UpsertRuleInstance
                    {| rin_Name := rule_Name rule; rin_RuleTypeID := ruleIDAndName.1;
                       rin_ProfileID := profileID; rin_EntityType := entityType; rin_Def := def;
                       rin_Params := params; rin_ProjectID := projectID |});
          updatedIDs ← upsertRuleInstances profileID projectID entityType rulesInProf newRules;
          mret (id :: updatedIDs)
      end
  end.

Definition marshal_rules (rules : list Profile_Rule) : prog World string :=
  or_throw (failing "Internal" "error creating profile: ")
    (lift match rules_Marshal rules with inl s => Ok s | inr e => Err e end).

Definition createProfileRulesForEntity (entity : Entity) (id : UUID) (profile : dbProfile)
    (rules : list Profile_Rule) (rulesInProf : RuleMapping) : prog World unit :=
  match rules with
  | [] => mret tt
  | _ =>
      wrapf "error while creating rule instances: "
        (upsertRuleInstances id (dpr_ProjectID profile) (EntityTypeToDB entity) rulesInProf rules);;
      marshalled ← marshal_rules rules;
      or_throw (failing "Internal" "error creating profile: ")
        (CreateProfileForEntity id (EntityTypeToDB entity) marshalled)
  end.

Definition updateProfileRulesForEntity (entity : Entity) (id : UUID) (rules : list Profile_Rule)
    : prog World unit :=
  match rules with
  | [] => DeleteProfileForEntity id (EntityTypeToDB entity)
  | _ =>
      marshalled ← marshal_rules rules;
      UpsertProfileForEntity id (EntityTypeToDB entity) marshalled
  end.

Definition createSelectorDbRecords (profID : UUID) (selection : list Profile_Selector)
    : prog World unit :=
  foreach (λ sel,
    let ent := EntityFromString (psel_Entity sel) in
    wrapf "error creating selector: "
      (CreateSelector profID
         (if (ent =? Entity_ENTITY_UNSPECIFIED)%Z then None else Some (EntityTypeToDB ent))
         (psel_Selector sel) (psel_Description sel))) selection.

Definition createSelectors (profID : UUID) (selection : list Profile_Selector) : prog World unit :=
  lift (ValidateSelection selection);;
  createSelectorDbRecords profID selection.

Definition updateSelectors (profID : UUID) (selection : list Profile_Selector) : prog World unit :=
  lift (ValidateSelection selection);;
  wrapf "error deleting selectors: " (DeleteSelectorsByProfileID profID);;
  createSelectorDbRecords profID selection.

(** What the service answers: the profile, with its id, its project and its
    actions. *)
Definition answer (id : UUID) (row : dbProfile) (profile : Profile) : Profile :=
  {| prof_Context := Some {| ctx_Provider := None;
                             ctx_Project := Some (uuid_String (dpr_ProjectID row)) |};
     prof_Id := Some (uuid_String id); prof_Name := prof_Name profile;
     prof_Labels := prof_Labels profile; prof_Repository := prof_Repository profile;
     prof_BuildEnvironment := prof_BuildEnvironment profile;
     prof_Artifact := prof_Artifact profile; prof_PullRequest := prof_PullRequest profile;
     prof_Release := prof_Release profile; prof_PipelineRun := prof_PipelineRun profile;
     prof_TaskRun := prof_TaskRun profile; prof_Build := prof_Build profile;
     prof_Selection := prof_Selection profile;
     prof_Remediate := Some (default "" (dpr_Remediate row));
     prof_Alert := Some (default "" (dpr_Alert row)); prof_Type := prof_Type profile;
     prof_Version := prof_Version profile; prof_DisplayName := prof_DisplayName profile |}.

Definition display_name (profile : Profile) : string :=
  if String.eqb (prof_DisplayName profile) "" then prof_Name profile else prof_DisplayName profile.

Definition new_row (projectID subscriptionID : UUID) (name : string) (profile : Profile) : dbProfile :=
  {| dpr_Name := name; dpr_Labels := prof_Labels profile; dpr_ProjectID := projectID;
     dpr_Remediate := ValidateRemediateType (default "" (prof_Remediate profile));
     dpr_Alert := ValidateAlertType (default "" (prof_Alert profile));
     dpr_SubscriptionID := if (subscriptionID =? uuid_Nil)%N then None else Some subscriptionID;
     dpr_DisplayName := display_name profile |}.

Definition CreateProfile (projectID subscriptionID : UUID) (profile : Profile) : prog World Profile :=
  rulesInProf ← ValidateAndExtractRules projectID profile;
  checking (failing "InvalidArgument" "name failed namespace validation: ")
    (ValidateNamespacedNameRules (prof_Name profile) subscriptionID);;
  checking (failing "InvalidArgument" "labels failed namespace validation: ")
    (ValidateLabelsPresence (prof_Labels profile) subscriptionID);;
  let '(profile, rulesInProf) := PopulateRuleNames profile rulesInProf in
  existingProfiles ← or_throw (failing "Unknown" "failed to get profiles: ")
                       (ListProfilesByProjectIDAndLabel projectID [] []);
  name ← lift (DeriveProfileNameFromDisplayName profile
                 (MergeDatabaseListIntoProfiles existingProfiles));
  newProfile ← or_throw (λ err,
      if errors_Is (Some err) UniqueViolation
      then status_error "AlreadyExists" "profile already exists"
      else status_error "Internal" "error creating profile")
    (CreateProfile_query (new_row projectID subscriptionID name profile));
  foreach (λ '(ent, entRules),
    createProfileRulesForEntity ent newProfile.1 newProfile.2 entRules rulesInProf)
    (rules_by_entity profile);;
  createSelectors newProfile.1 (prof_Selection profile);;
  sendNewProfileEvent projectID;;
  mret (answer newProfile.1 newProfile.2 profile).

Definition getProfileFromPBForUpdate (profile : Profile) (projectID : UUID)
    : prog World (UUID * dbProfile) :=
  if negb (String.eqb (GetId profile) "") then
    match uuid_Parse (GetId profile) with
    | Ok id => GetProfileByIDAndLock projectID id
    | _ => throw (status_error "InvalidArgument" "invalid profile ID")
    end
  else GetProfileByNameAndLock projectID (prof_Name profile).

Definition validateProfileUpdate (old : dbProfile) (newProfile : Profile) (projectID : UUID) : error :=
  if negb (String.eqb (dpr_Name old) (prof_Name newProfile))
  then Some (status_error "InvalidArgument" "cannot change profile name")
  else if negb (dpr_ProjectID old =? projectID)%N
  then Some (status_error "InvalidArgument" "cannot change profile project")
  else failing "InvalidArgument" "labels update failed validation: " <$>
         ValidateLabelsUpdate (prof_Labels newProfile) (dpr_Labels old).

(** The rules of an entity are written, and those not written deleted. *)
Definition update_entity (id : UUID) (row : dbProfile) (rules : RuleMapping)
    (ent : Entity) (entRules : list Profile_Rule) : prog World unit :=
  updateProfileRulesForEntity ent id entRules;;
  updatedIDs ← upsertRuleInstances id (dpr_ProjectID row) (EntityTypeToDB ent) rules entRules;
  wrapf "error while cleaning up rule instances: "
    (DeleteNonUpdatedRules id (EntityTypeToDB ent) updatedIDs).

Definition UpdateProfile (projectID subscriptionID : UUID) (profile : Profile) : prog World Profile :=
  rules ← ValidateAndExtractRules projectID profile;
  old ← or_throw (λ err,
      if errors_Is (Some err) ErrNoRows
      then status_error "NotFound" "profile not found"
      else failing "Internal" "error fetching profile to be updated: " err)
    (getProfileFromPBForUpdate profile projectID);
  checking (failing "InvalidArgument" "namespace validation failed: ")
    (DoesSubscriptionIDMatch subscriptionID (dpr_SubscriptionID old.2));;
  checking (failing "InvalidArgument" "invalid profile update: ")
    (validateProfileUpdate old.2 profile projectID);;
  let '(profile, rules) := PopulateRuleNames profile rules in
  updated ← or_throw (failing "Internal" "error updating profile: ")
    (UpdateProfile_query
       {| up_ID := old.1; up_ProjectID := projectID;
          up_Remediate := ValidateRemediateType (default "" (prof_Remediate profile));
          up_Alert := ValidateAlertType (default "" (prof_Alert profile));
          up_DisplayName := display_name profile; up_Labels := prof_Labels profile |});
  foreach (λ '(ent, entRules), update_entity updated.1 updated.2 rules ent entRules)
    (rules_by_entity profile);;
  updateSelectors updated.1 (prof_Selection profile);;
  sendNewProfileEvent projectID;;
  mret (answer updated.1 updated.2 profile).

(** *** Patching *)

Definition pick {A} (attr name : string) (get : Profile → A) (dst src : Profile) : A :=
  if String.eqb attr name then get src else get dst.

(** The value of an optional string that is not there is the empty string. *)
Definition pick_optional (attr name : string) (get : Profile → option string) (dst src : Profile)
    : option string :=
  if String.eqb attr name then Some (default "" (get src)) else get dst.

(** [Set] to a message that is not there panics; a name that is no field is
    passed over. *)
Definition copyFieldValue (attr : string) (dst src : Profile) : res Profile :=
  if String.eqb attr "context" && is_nil (prof_Context src)
  then Panic "field minder.v1.Profile.context has invalid nil pointer"
  else Ok {|
    prof_Context := pick attr "context" prof_Context dst src;
    prof_Id := pick_optional attr "id" prof_Id dst src;
    prof_Name := pick attr "name" prof_Name dst src;
    prof_Labels := pick attr "labels" prof_Labels dst src;
    prof_Repository := pick attr "repository" prof_Repository dst src;
    prof_BuildEnvironment := pick attr "build_environment" prof_BuildEnvironment dst src;
    prof_Artifact := pick attr "artifact" prof_Artifact dst src;
    prof_PullRequest := pick attr "pull_request" prof_PullRequest dst src;
    prof_Release := pick attr "release" prof_Release dst src;
    prof_PipelineRun := pick attr "pipeline_run" prof_PipelineRun dst src;
    prof_TaskRun := pick attr "task_run" prof_TaskRun dst src;
    prof_Build := pick attr "build" prof_Build dst src;
    prof_Selection := pick attr "selection" prof_Selection dst src;
    prof_Remediate := pick_optional attr "remediate" prof_Remediate dst src;
    prof_Alert := pick_optional attr "alert" prof_Alert dst src;
    prof_Type := pick attr "type" prof_Type dst src;
    prof_Version := pick attr "version" prof_Version dst src;
    prof_DisplayName := pick attr "display_name" prof_DisplayName dst src |}.

Fixpoint copy_fields (paths : list string) (dst src : Profile) : res Profile :=
  match paths with
  | [] => Ok dst
  | attr :: paths => dst ← copyFieldValue attr dst src; copy_fields paths dst src
  end.

Definition patchProfilePb (oldProfilePb patchPb : Profile) (updateMask : option (list string))
    : res Profile :=
  match updateMask with
  | None => Ok oldProfilePb
  | Some paths => copy_fields paths oldProfilePb patchPb
  end.

Definition the_profile (pols : gmap string Profile) : res Profile :=
  match map_to_list pols with
  | [] => Err (EText "profile not found")
  | [(_, profile)] => Ok profile
  | l => Err (EText ("expected only one profile, got " +:+ Strconv.FormatInt (Z.of_nat (length l))))
  end.

Definition getProfilePBFromDB (id projectID : UUID) : prog World Profile :=
  profiles ← GetProfileByProjectAndID projectID id;
  lift (the_profile (MergeDatabaseGetIntoProfiles profiles)).

(** By its id if it is one, else by its name. *)
Definition PatchProfile (projectID : UUID) (profile : string) (patch : Profile)
    (updateMask : option (list string)) : prog World Profile :=
  profileID ←
    match uuid_Parse profile with
    | Ok id => mret id
    | _ =>
        row ← or_throw (λ err,
            if errors_Is (Some err) ErrNoRows
            then status_error "NotFound" ("profile " +:+ quoted profile +:+ " not found")
            else failing "Internal" "error fetching profile to be patched: " err)
          (GetProfileByNameAndLock projectID profile);
        mret row.1
    end;
  baseProfilePb ← wrapf ("failed to get profile " +:+ uuid_String profileID +:+ ": ")
                    (getProfilePBFromDB profileID projectID);
  patched ← lift (patchProfilePb baseProfilePb patch updateMask);
  UpdateProfile projectID uuid_Nil patched.

Definition DeleteProfile (projectID : UUID) (profile : string) : prog World (UUID * dbProfile) :=
  row ← or_throw (λ err,
      if errors_Is (Some err) ErrNoRows
      then status_error "NotFound" ("profile " +:+ quoted profile +:+ " not found")
      else failing "Internal" "error fetching profile to be deleted: " err)
    match uuid_Parse profile with
    | Ok id => GetProfileByIDAndLock projectID id
    | _ => GetProfileByNameAndLock projectID profile
    end;
  match dpr_SubscriptionID row.2 with
  | Some _ => throw (status_error "InvalidArgument" "cannot delete profile from bundle")
  | None =>
      or_throw (failing "Internal" "failed to delete profile: ")
        (DeleteProfile_query row.1 projectID);;
      mret row
  end.

(** ** controlplane/handlers_profile.go

    The project is that of the request's context. *)

Definition ValidateProject (projectID : UUID) : prog World unit :=
  or_throw (λ err, failing "InvalidArgument" "error in entity context: "
              (EWrap "unable to get context: failed getting project: " err ""))
    (GetProjectByID projectID);;
  mret tt.

Definition handle_CreateProfile (projectID : UUID) (profile : Profile) : prog World Profile :=
  checking (λ err,
      if errors_Is (Some err) ErrValidationFailed
      then failing "InvalidArgument" "Couldn't create profile: " err
      else failing "InvalidArgument" "invalid profile: " err)
    (Profile_Validate profile);;
  ValidateProject projectID;;
  WithTransaction (CreateProfile projectID uuid_Nil profile).

Definition handle_DeleteProfile (projectID : UUID) (id : string) : prog World unit :=
  ValidateProject projectID;;
  WithTransaction (DeleteProfile projectID id);;
  mret tt.

(** The keys are the ids of the profiles. *)
Definition handle_ListProfiles (projectID : UUID) (labelFilter : string) : prog World (list Profile) :=
  ValidateProject projectID;;
  let '(inc, exc) := ParseLabelFilter labelFilter in
  profiles ← or_throw (failing "Unknown" "failed to get profiles: ")
               (ListProfilesByProjectIDAndLabel projectID inc exc);
  let profileMap := MergeDatabaseListIntoProfiles profiles in
  let profileNames := merge_sort string_le (map_to_list profileMap).*1 in
  mret (omap (λ name, profileMap !! name) profileNames).

Definition handle_GetProfileById (projectID : UUID) (id : string) : prog World Profile :=
  ValidateProject projectID;;
  match uuid_Parse id with
  | Ok parsedProfileID =>
      or_throw (λ err,
          if errors_Is (Some err) ErrNoRows ||
             negb (is_nil (String.index 0 "not found" (Error err)))
          then status_error "NotFound" "profile not found"
          else failing "Internal" "failed to get profile: " err)
        (getProfilePBFromDB parsedProfileID projectID)
  | _ => throw (status_error "InvalidArgument" "invalid profile ID")
  end.

Definition handle_GetProfileByName (projectID : UUID) (name : string) : prog World Profile :=
  let notFound := status_error "NotFound" ("profile " +:+ quoted name +:+ " not found") in
  ValidateProject projectID;;
  if String.eqb name "" then throw (status_error "InvalidArgument" "profile name must be specified")
  else
    profiles ← or_throw (λ err, if errors_Is (Some err) ErrNoRows then notFound else err)
                 (GetProfileByProjectAndName projectID name);
    let pols := MergeDatabaseGetByNameIntoProfiles profiles in
    if bool_decide (pols = ∅) then throw notFound else lift (the_profile pols).

Definition handle_PatchProfile (projectID : UUID) (id : string) (patch : Profile)
    (updateMask : option (list string)) : prog World Profile :=
  ValidateProject projectID;;
  if String.eqb id "" then throw (status_error "InvalidArgument" "profile ID must be specified")
  else WithTransaction (PatchProfile projectID id patch updateMask).

Definition handle_UpdateProfile (projectID : UUID) (profile : Profile) : prog World Profile :=
  ValidateProject projectID;;
  WithTransaction (UpdateProfile projectID uuid_Nil profile).
End service.
