(* ===== verification/ProfileSync.v ===== *)
(** * The two copies of a profile's rules

    A profile's rules are stored twice: as JSON, for the API, and as rule
    instances, for the engine.  The operations of ProfileService.v keep the two
    in step.  First, what [PopulateRuleNames] does to the rules of a profile that
    was validated. *)

From S2P Require Import Prelude GoErrors GoMonad GoStrings Uuid DbTypes ProfileModels Properties.
From S2P Require Import ApiTypes Validators Database HistoryDb SelectorScan EntityDb ProfileDb ProfileRules.
From S2P Require Import ProfileTyping ProfileMerge EntityEvent EntityMessage Eea Repositories ProfileService.
Local Open Scope string_scope.

(** ** The names that are filled in *)

Definition lookup_value (m : RuleMapping) (r : Profile_Rule) : UUID * string :=
  default (uuid_Nil, "") (m !! key r).

(** A rule by its name in the mapping. *)
Definition renamed (m : RuleMapping) (r : Profile_Rule) : Profile_Rule :=
  set_rule_name (lookup_value m r).2 r.

(** A rule that has a name keeps it; [T] is what is known of the ids of types. *)
Record mapping_ok (T : string → UUID → Prop) (m : RuleMapping) : Prop := {
  mo_named : ∀ t n v, m !! (t, n) = Some v → n ≠ "" → v.2 = n;
  mo_typed : ∀ t n v, m !! (t, n) = Some v → T t v.1;
}.

Definition covers (m : RuleMapping) (rules : list Profile_Rule) : Prop :=
  ∀ r, r ∈ rules → is_Some (m !! key r).

Lemma populate_app l1 l2 m :
  populate (l1 ++ l2)%list m =
    let '(a, m1) := populate l1 m in let '(b, m2) := populate l2 m1 in ((a ++ b)%list, m2).
Proof.
  revert m. induction l1 as [|r l1 IH]; intros m; cbn.
  - by destruct (populate l2 m).
  - rewrite IH. destruct (populate l1 _) as [a m1]. by destruct (populate l2 m1).
Qed.

Lemma unnamed_cons r rules :
  NoDup (unnamed_types (r :: rules)) →
  NoDup (unnamed_types rules) ∧
  ∀ x, x ∈ rules → rule_Name r = "" → rule_Name x = "" → rule_Type x ≠ rule_Type r.
Proof.
  unfold unnamed_types. rewrite filter_cons. case_decide as Hr.
  - rewrite fmap_cons, NoDup_cons. intros [Hn Hnd]. split; [done|]. intros x Hx _ Hx' Heq.
    apply Hn, list_elem_of_fmap. exists x. split; [done|]. by apply list_elem_of_filter.
  - intros Hnd. split; [done|]. congruence.
Qed.

(** One step leaves the later rules their entries. *)
Lemma populate_step T r rules m v :
  mapping_ok T m → m !! key r = Some v → covers m rules → NoDup (unnamed_types (r :: rules)) →
  let m1 := <[(rule_Type r, v.2) := v]> (delete (key r) m) in
  mapping_ok T m1 ∧ covers m1 rules ∧
  ∀ x, x ∈ rules → (lookup_value m1 x).2 = (lookup_value m x).2.
Proof.
  intros [Hn Ht] Hv Hc [_ Hu]%unnamed_cons m1.
  assert (Hrest : ∀ x, x ∈ rules → (rule_Type r, v.2) ≠ key x → key x ≠ key r).
  { intros x Hx Hne Heq. unfold key in *. injection Heq as Hty Hnm.
    destruct (decide (rule_Name r = "")) as [He|He].
    - apply (Hu x Hx He); congruence.
    - apply Hne. by rewrite Hty, Hnm, (Hn _ _ _ Hv He). }
  split_and!.
  - split; intros t n v'.
    + intros [[Hk <-]|[_ [_ Hm]%lookup_delete_Some]]%lookup_insert_Some; [congruence|by eapply Hn].
    + intros [[[= <- <-] <-]|[_ [_ Hm]%lookup_delete_Some]]%lookup_insert_Some; by eapply Ht.
  - intros x Hx. unfold m1. destruct (decide ((rule_Type r, v.2) = key x)) as [->|Hne];
      [by rewrite lookup_insert_eq|].
    rewrite lookup_insert_ne, lookup_delete_ne by (try done; symmetry; auto). by apply Hc.
  - intros x Hx. unfold lookup_value, m1.
    destruct (decide ((rule_Type r, v.2) = key x)) as [Heq|Hne].
    + rewrite Heq, lookup_insert_eq. cbn. destruct (Hc x Hx) as [v' Hv']. rewrite Hv'. cbn.
      unfold key in *. injection Heq as Hty Hnm.
      destruct (decide (rule_Name x = "")) as [He|He]; [|by rewrite (Hn _ _ _ Hv' He)].
      destruct (decide (rule_Name r = "")) as [Hr|Hr]; [by destruct (Hu x Hx Hr He)|].
      rewrite (Hn _ _ _ Hv Hr) in Hnm. congruence.
    + rewrite lookup_insert_ne, lookup_delete_ne by (try done; symmetry; auto). done.
Qed.

Lemma fmap_ext_in {A B} (f g : A → B) (l : list A) :
  (∀ x, x ∈ l → f x = g x) → f <$> l = g <$> l.
Proof.
  intros Heq. apply list_fmap_ext. intros i x Hx. apply Heq. by eapply list_elem_of_lookup_2.
Qed.

Lemma unnamed_app_r l1 l2 : NoDup (unnamed_types (l1 ++ l2)%list) → NoDup (unnamed_types l2).
Proof. unfold unnamed_types. rewrite filter_app, fmap_app. by intros (_ & _ & ?)%NoDup_app. Qed.

(** The rules are renamed by the mapping as it was, and so will the rest be. *)
Lemma populate_spec T rules rest m :
  mapping_ok T m → covers m (rules ++ rest)%list → NoDup (unnamed_types (rules ++ rest)%list) →
  (populate rules m).1 = renamed m <$> rules ∧
  mapping_ok T (populate rules m).2 ∧ covers (populate rules m).2 rest ∧
  ∀ x, x ∈ rest → renamed (populate rules m).2 x = renamed m x.
Proof.
  revert m. induction rules as [|r rules IH]; intros m Hok Hc Hnd; [done|]. cbn [populate].
  destruct (Hc r) as [v Hv]; [left|]. fold (key r). rewrite Hv. cbn [default].
  destruct (populate_step T r (rules ++ rest)%list m v Hok Hv) as (Hok1 & Hc1 & Hsame);
    [intros x Hx; apply Hc; by right|done|].
  assert (Hren : ∀ x, x ∈ (rules ++ rest)%list →
    renamed (<[(rule_Type r, v.2):=v]> (delete (key r) m)) x = renamed m x).
  { intros x Hx. unfold renamed. f_equal. by apply Hsame. }
  destruct (IH _ Hok1 Hc1 (proj1 (unnamed_cons _ _ Hnd))) as (Hr & Hm & Hcr & Hrest).
  destruct (populate rules _) as [rules' m']. cbn in *. split_and!; [|done..|].
  - f_equal; [unfold renamed, lookup_value; by rewrite Hv|]. rewrite Hr. apply fmap_ext_in.
    intros x Hx. apply Hren. set_solver.
  - intros x Hx. rewrite Hrest by done. apply Hren. set_solver.
Qed.

(** Each rule of the five entities gets its name, the others stay. *)
Definition renamed_profile (m : RuleMapping) (p : Profile) : Profile :=
  set_rules p (renamed m <$> prof_Repository p) (renamed m <$> prof_BuildEnvironment p)
    (renamed m <$> prof_Artifact p) (renamed m <$> prof_PullRequest p)
    (renamed m <$> prof_Release p).

Lemma covers_app_r m l1 l2 : covers m (l1 ++ l2)%list → covers m l2.
Proof. intros Hc r Hr. apply Hc. set_solver. Qed.

Lemma PopulateRuleNames_spec T p m :
  mapping_ok T m → covers m (traversed p) → NoDup (unnamed_types (traversed p)) →
  (PopulateRuleNames p m).1 = renamed_profile m p ∧ mapping_ok T (PopulateRuleNames p m).2.
Proof.
  unfold traversed, PopulateRuleNames, renamed_profile. intros H0 C0 N0.
  destruct (populate_spec T _ _ _ H0 C0 N0) as (E1 & H1 & C1 & R1).
  destruct (populate (prof_Repository p) m) as [l1 m1]. cbn [fst snd] in *.
  pose proof (unnamed_app_r _ _ N0) as N1.
  destruct (populate_spec T _ _ _ H1 C1 N1) as (E2 & H2 & C2 & R2).
  destruct (populate (prof_BuildEnvironment p) m1) as [l2 m2]. cbn [fst snd] in *.
  pose proof (unnamed_app_r _ _ N1) as N2.
  destruct (populate_spec T _ _ _ H2 C2 N2) as (E3 & H3 & C3 & R3).
  destruct (populate (prof_PullRequest p) m2) as [l3 m3]. cbn [fst snd] in *.
  pose proof (unnamed_app_r _ _ N2) as N3.
  destruct (populate_spec T _ _ _ H3 C3 N3) as (E4 & H4 & C4 & R4).
  destruct (populate (prof_Artifact p) m3) as [l4 m4]. cbn [fst snd] in *.
  pose proof (unnamed_app_r _ _ N3) as N4. rewrite <-(app_nil_r (prof_Release p)) in C4, N4.
  destruct (populate_spec T _ _ _ H4 C4 N4) as (E5 & H5 & _).
  destruct (populate (prof_Release p) m4) as [l5 m5]. cbn [fst snd] in *. split; [|done].
  assert (Hl : ∀ l m', (∀ x, x ∈ l → renamed m' x = renamed m x) → renamed m' <$> l = renamed m <$> l)
    by (intros l m' Hx; by apply fmap_ext_in).
  rewrite E1, E2, E3, E4, E5. f_equal; apply Hl; intros x Hx.
  - apply R1. set_solver.
  - rewrite R3, R2, R1; set_solver.
  - rewrite R2, R1; set_solver.
  - rewrite R4, R3, R2, R1; set_solver.
Qed.

(** ** The mapping of a validated profile *)

Section validated.
Context `{UuidLib} `{PgText} `{RuleTypeLib}.

Definition type_id (d : Db) (t : string) (id : UUID) : Prop :=
  ∃ row, rule_types d !! id = Some row ∧ same_name (rty_Name row) t.

Lemma rule_type_named_id d projects name id row :
  rule_type_named d projects name = Ok (id, row) → type_id d name id.
Proof.
  unfold rule_type_named. destruct (filter _ _) as [|x l] eqn:Hf; [done|]. intros [= ->].
  assert (Hin : (id, row) ∈ (id, row) :: l) by left. rewrite <-Hf in Hin.
  apply list_elem_of_filter in Hin as [[_ Hn] Hin%elem_of_map_to_list]. by exists row.
Qed.

Lemma mapping_of_ok d projectID p m :
  mapping_of d projectID p m → mapping_ok (type_id d) m ∧ covers m (traversed p).
Proof.
  intros [Hin Hout].
  assert (Hm : ∀ t n v, m !! (t, n) = Some v → ∃ r id rt, t = rule_Type r ∧ n = rule_Name r ∧
    well_typed d (ancestors d projectID) r id rt ∧ v = value id rt r).
  { intros t n v Hv. destruct (decide ((t, n) ∈ key <$> traversed p)) as [Hk|Hk].
    - apply list_elem_of_fmap in Hk as (r & Hk & Hr). destruct (Hin r Hr) as (id & rt & Ht & Hl).
      injection Hk as -> ->. exists r, id, rt. split_and!; [done..|].
      unfold key in Hl. congruence.
    - rewrite (Hout _ Hk) in Hv. discriminate. }
  split; [split|].
  - intros t n v Hv Hn. destruct (Hm _ _ _ Hv) as (r & id & rt & -> & -> & _ & ->). cbn.
    unfold ComputeRuleName. by rewrite (proj2 (String.eqb_neq _ _) Hn).
  - intros t n v Hv. destruct (Hm _ _ _ Hv) as (r & id & rt & -> & -> & [(row & Hrow & _) _] & ->).
    by eapply rule_type_named_id.
  - intros r Hr. destruct (Hin r Hr) as (id & rt & _ & Hl). eauto.
Qed.

(** The entity of the type of that name. *)
Definition entity_of_type (d : Db) (projects : list UUID) (name : string) : option string :=
  match rule_type_named d projects name with
  | Ok row => match RuleTypePBFromDB row with
              | Ok rt => Some (default "" (def_InEntity <$> rt_Def rt))
              | _ => None
              end
  | _ => None
  end.

Lemma unnamed_concat (E : string → option string) (L : list (Entity * list Profile_Rule)) :
  NoDup (ToString ∘ fst <$> L) →
  (∀ e rules, (e, rules) ∈ L → NoDup (unnamed_types rules) ∧
     ∀ r, r ∈ rules → E (rule_Type r) = Some (ToString e)) →
  NoDup (unnamed_types (concat L.*2)).
Proof.
  induction L as [|[e rules] L IH]; intros Hnd Hall; [constructor|].
  cbn in *. apply NoDup_cons in Hnd as [Hnew Hnd].
  assert (HL : ∀ e rules, (e, rules) ∈ L → NoDup (unnamed_types rules) ∧
     ∀ r, r ∈ rules → E (rule_Type r) = Some (ToString e)).
  { intros e' rules' Hin. apply Hall. by right. }
  destruct (Hall e rules) as [Hn He]; [left|].
  unfold unnamed_types in *. rewrite filter_app, fmap_app. apply NoDup_app. split_and!; [done| |by apply IH].
  intros t Ht Ht'. apply list_elem_of_fmap in Ht as (r & -> & [_ Hr]%list_elem_of_filter).
  apply list_elem_of_fmap in Ht' as (r' & Heq & [_ Hr']%list_elem_of_filter).
  apply list_elem_of_In, in_concat in Hr' as (rules' & Hin & Hr').
  apply list_elem_of_In in Hin, Hr'. apply list_elem_of_fmap in Hin as ([e' ?] & -> & Hin).
  apply Hnew, list_elem_of_fmap. exists (e', l). split; [|done]. cbn.
  destruct (HL _ _ Hin) as [_ He']. specialize (He' r' Hr'). specialize (He r Hr).
  rewrite Heq in He. congruence.
Qed.

Lemma typed_unnamed d projectID p :
  profile_typed d projectID p → NoDup (unnamed_types (traversed p)).
Proof.
  intros [_ Hnames Hent Hrules].
  set (L := [(Entity_ENTITY_REPOSITORIES, prof_Repository p);
             (Entity_ENTITY_BUILD_ENVIRONMENTS, prof_BuildEnvironment p);
             (Entity_ENTITY_PULL_REQUESTS, prof_PullRequest p);
             (Entity_ENTITY_ARTIFACTS, prof_Artifact p); (Entity_ENTITY_RELEASE, prof_Release p)]).
  assert (Hcat : traversed p = concat L.*2) by (cbn; by rewrite app_nil_r).
  assert (HL : ∀ x, x ∈ L → x ∈ rules_by_entity p) by (unfold L, rules_by_entity; set_solver).
  rewrite Hcat. apply (unnamed_concat (entity_of_type d (ancestors d projectID))).
  - apply (bool_decide_eq_true_1 _). vm_compute. reflexivity.
  - intros e rules Hin. split; [apply (Hnames e rules (HL _ Hin))|]. intros r Hr.
    assert (Ht : r ∈ traversed p).
    { rewrite Hcat. apply list_elem_of_In, in_concat. exists rules. split; apply list_elem_of_In; [|done].
      apply list_elem_of_fmap. by exists (e, rules). }
    destruct (Hrules r Ht) as (id & rt & (row & Hrow & Hpb) & _).
    destruct (Hent e rules r (HL _ Hin) Hr) as [Hno|(id' & rt' & (row' & Hrow' & Hpb') & He)];
      [congruence|]. unfold entity_of_type. rewrite Hrow', Hpb'. by rewrite He.
Qed.

(** What creating and changing a profile go on with. *)
Lemma validated_names projectID p w w' m :
  honest_faults w → ValidateAndExtractRules projectID p w = (w', Ok m) →
  w_db w' = w_db w ∧
  (PopulateRuleNames p m).1 = renamed_profile m p ∧
  mapping_ok (type_id (w_db w)) (PopulateRuleNames p m).2.
Proof.
  intros Hh Hrun. destruct (validation_sound projectID p w w' m Hh Hrun) as (Hdb & Ht & Hm).
  destruct (mapping_of_ok _ _ _ _ Hm) as [Hok Hc].
  destruct (PopulateRuleNames_spec _ p m Hok Hc (typed_unnamed _ _ _ Ht)). done.
Qed.
End validated.

(** ** In step *)

Section in_step.
Context `{UuidLib} `{RandomUuid} `{PgText} `{RuleTypeLib} `{RulesJSON} `{RecordOutput}
  `{SelectionChecker} `{MessageJSON}.

(** The rules of an entity of a profile, as they are read. *)
Definition rules_at (d : Db) (id : UUID) (e : Entities) : list Profile_Rule :=
  match entity_profiles d !! (id, e) with
  | Some s => match rules_Unmarshal s with inl rules => rules | inr _ => [] end
  | None => []
  end.

Definition is_at (r : dbRuleInstance) (id : UUID) (e : Entities) : Prop :=
  rin_ProfileID r = id ∧ rin_EntityType r = e.

(** An instance has the name, up to case, the type, the definition and the
    parameters of a rule. *)
Record copy_of (d : Db) (r : dbRuleInstance) (rule : Profile_Rule) : Prop := {
  co_name : same_name (rin_Name r) (rule_Name rule);
  co_type : type_id d (rule_Type rule) (rin_RuleTypeID r);
  co_def : struct_Marshal (rule_Def rule) = inl (rin_Def r);
  co_params : struct_Marshal (rule_Params rule) = inl (rin_Params r);
}.

(** The last rule of its name, up to case: the one that was written last. *)
Definition last_of_name (rules : list Profile_Rule) (rule : Profile_Rule) : Prop :=
  ∃ before after, rules = (before ++ rule :: after)%list ∧
    ∀ x, x ∈ after → ¬ same_name (rule_Name x) (rule_Name rule).

Lemma last_of_name_snoc rules r rule :
  last_of_name (rules ++ [r])%list rule →
  rule = r ∨ last_of_name rules rule ∧ ¬ same_name (rule_Name r) (rule_Name rule).
Proof.
  intros (before & after & Heq & Hafter). destruct after as [|x after _] using rev_ind.
  - apply app_inj_tail in Heq as [_ ->]. by left.
  - rewrite app_comm_cons, app_assoc in Heq. apply app_inj_tail in Heq as [-> ->]. right. split.
    + exists before, after. split; [done|]. intros y Hy. apply Hafter. set_solver.
    + apply Hafter. set_solver.
Qed.

(** Each name has a last rule. *)
Lemma last_of_name_exists rules rule :
  rule ∈ rules → ∃ rule', last_of_name rules rule' ∧ same_name (rule_Name rule') (rule_Name rule).
Proof.
  induction rules as [|r rules IH]; [by intros ?%not_elem_of_nil|]. intros Hin.
  destruct (decide (Exists (λ x, same_name (rule_Name x) (rule_Name rule)) rules)) as [Hl|Hl].
  - assert (Hrest : ∃ rule', last_of_name rules rule' ∧ same_name (rule_Name rule') (rule_Name rule)).
    { clear IH Hin. induction rules as [|x rules IH]; [by apply Exists_nil in Hl|].
      destruct (decide (Exists (λ x, same_name (rule_Name x) (rule_Name rule)) rules)) as [Hr|Hr].
      - destruct (IH Hr) as (rule' & (b & a & -> & Ha) & Hn). exists rule'. split; [|done].
        by exists (x :: b), a.
      - apply Exists_cons in Hl as [Hx|Hx]; [|done]. exists x. split; [|done].
        exists [], rules. split; [done|]. intros y Hy Hs. apply Hr, Exists_exists. exists y.
        split; [done|]. unfold same_name in *. congruence. }
    destruct Hrest as (rule' & (b & a & -> & Ha) & Hn). exists rule'. split; [|done].
    by exists (r :: b), a.
  - exists rule. split; [|done]. apply elem_of_cons in Hin as [->|Hin].
    + exists [], rules. split; [done|]. intros y Hy Hs. apply Hl, Exists_exists. eauto.
    + exfalso. apply Hl, Exists_exists. by exists rule.
Qed.

(** One instance for a name of an entity of a profile. *)
Definition instances_unique (d : Db) : Prop :=
  ∀ iid1 iid2 r1 r2, rule_instances d !! iid1 = Some r1 → rule_instances d !! iid2 = Some r2 →
    rule_key r1 = rule_key r2 → iid1 = iid2.

(** Both copies belong to profiles that are there, of the same project; each rule
    of the one, the last of its name up to case, has its copy in the other, and
    each of the other is the copy of a rule of the one; and no name has two. *)
Record in_step (d : Db) : Prop := {
  is_instances : ∀ iid r, rule_instances d !! iid = Some r →
    ∃ p, profiles d !! rin_ProfileID r = Some p ∧ rin_ProjectID r = dpr_ProjectID p;
  is_rulesets : ∀ id e s, entity_profiles d !! (id, e) = Some s → is_Some (profiles d !! id);
  is_written : ∀ id e rule, last_of_name (rules_at d id e) rule →
    ∃ iid r, rule_instances d !! iid = Some r ∧ is_at r id e ∧ copy_of d r rule;
  is_copies : ∀ iid r, rule_instances d !! iid = Some r →
    ∃ rule, rule ∈ rules_at d (rin_ProfileID r) (rin_EntityType r) ∧ copy_of d r rule;
  is_unique : instances_unique d;
}.

(** Every rule has an instance of its name. *)
Lemma in_step_named d id e rule : in_step d → rule ∈ rules_at d id e →
  ∃ iid r, rule_instances d !! iid = Some r ∧ is_at r id e ∧
           same_name (rin_Name r) (rule_Name rule).
Proof.
  intros Hin (rule' & Hlast & Hn)%last_of_name_exists.
  destruct (is_written _ Hin _ _ _ Hlast) as (iid & r & Hl & Ha & Hc).
  exists iid, r. split_and!; [done..|]. destruct Hc as [Hc _ _ _]. unfold same_name in *. congruence.
Qed.

(** *** Rule instances *)

Definition with_rules (f : gmap UUID dbRuleInstance → gmap UUID dbRuleInstance) (d : Db) : Db :=
  set_policies (upd_rules f (policies d)) d.

Lemma with_rules_fields f d :
  rule_instances (with_rules f d) = f (rule_instances d) ∧
  profiles (with_rules f d) = profiles d ∧ entity_profiles (with_rules f d) = entity_profiles d ∧
  rule_types (with_rules f d) = rule_types d.
Proof. done. Qed.

Lemma UpsertRuleInstance_Ok row w w' iid :
  UpsertRuleInstance row w = (w', Ok iid) →
  ∃ r, w_db w' = with_rules (insert iid r) (w_db w) ∧ rule_key r = rule_key row ∧
    rin_RuleTypeID r = rin_RuleTypeID row ∧ rin_Def r = rin_Def row ∧ rin_Params r = rin_Params row ∧
    ((∃ old, rule_instances (w_db w) !! iid = Some old ∧ rule_key old = rule_key row ∧
             rin_ProjectID r = rin_ProjectID old) ∨
     rin_ProjectID r = rin_ProjectID row ∧ rule_instances (w_db w) !! iid = None ∧
     ∀ iid' r', rule_instances (w_db w) !! iid' = Some r' → rule_key r' ≠ rule_key row).
Proof.
  intros (fs & Hrun)%query_Ok. cbn in Hrun.
  destruct (filter _ _) as [|[old r] l] eqn:Hf.
  - destruct (bool_decide_reflect (is_Some (rule_instances (w_db w) !! gen_random_uuid (w_fresh w))))
      as [|Hnew]; [by injection Hrun|].
    destruct (bool_decide _ && _ && _) eqn:Hfk; [|by injection Hrun]. injection Hrun as <- <-.
    exists row. split_and!; [done..|]. right. split_and!; [done|by apply eq_None_not_Some|].
    intros iid' r' Hl Hk. assert (Hin : (iid', r') ∈ []) by
      (rewrite <-Hf; apply list_elem_of_filter; rewrite elem_of_map_to_list; done).
    by apply not_elem_of_nil in Hin.
  - assert (Hin : (old, r) ∈ (old, r) :: l) by left. rewrite <-Hf in Hin.
    apply list_elem_of_filter in Hin as [Hkey Hin%elem_of_map_to_list]. cbn in Hkey, Hin.
    case_bool_decide; [|by injection Hrun]. injection Hrun as <- <-.
    eexists. split; [reflexivity|]. split_and!; [done..|]. left. by exists r.
Qed.

Lemma UpsertRuleInstance_unique row w w' iid :
  UpsertRuleInstance row w = (w', Ok iid) → instances_unique (w_db w) → instances_unique (w_db w').
Proof.
  intros (r & Hdb & Hk & _ & _ & _ & Hold)%UpsertRuleInstance_Ok Hu. rewrite Hdb.
  assert (Hother : ∀ x r', rule_instances (w_db w) !! x = Some r' → rule_key r' = rule_key r → x = iid).
  { intros x r' Hx Hkx. destruct Hold as [(old & Hlo & Hko & _)|(_ & _ & Hno)].
    - apply (Hu x iid r' old Hx Hlo). congruence.
    - destruct (Hno _ _ Hx). congruence. }
  intros i1 i2 r1 r2. cbn. intros [[<- <-]|[_ L1]]%lookup_insert_Some
    [[<- <-]|[_ L2]]%lookup_insert_Some Heq; [done| | |by eapply Hu].
  - symmetry. by eapply Hother.
  - by eapply Hother.
Qed.

(** The instances of an entity of a profile while its rules are written: those
    written are copies of the rules so far, the others are as they were. *)
Record writing (d0 d : Db) (id proj : UUID) (e : Entities) (ids : list UUID)
    (rules : list Profile_Rule) : Prop := {
  wr_copies : ∀ iid, iid ∈ ids → ∃ r rule, rule_instances d !! iid = Some r ∧ is_at r id e ∧
    rin_ProjectID r = proj ∧ rule ∈ rules ∧ copy_of d r rule;
  wr_others : ∀ iid, iid ∉ ids → rule_instances d !! iid = rule_instances d0 !! iid;
  wr_written : ∀ rule, last_of_name (reverse rules) rule →
    ∃ iid r, iid ∈ ids ∧ rule_instances d !! iid = Some r ∧ copy_of d r rule;
  wr_before : ∀ iid r0, iid ∈ ids → rule_instances d0 !! iid = Some r0 → is_at r0 id e;
  wr_profiles : profiles d = profiles d0;
  wr_rulesets : entity_profiles d = entity_profiles d0;
  wr_types : rule_types d = rule_types d0;
  wr_unique : instances_unique d;
}.

Lemma writing_nil d id proj e : instances_unique d → writing d d id proj e [] [].
Proof.
  intros Hu. split; try done; try (by intros ? ?%not_elem_of_nil || (intros ? ? ?%not_elem_of_nil; done)).
  intros rule ([|] & after & Heq & _); discriminate Heq.
Qed.
Lemma copy_of_types d d' r rule :
  rule_types d' = rule_types d → copy_of d r rule → copy_of d' r rule.
Proof. intros Ht [Hn Hty Hd Hp]. split; try done. unfold type_id. by rewrite Ht. Qed.

(** The instances of a profile are of its project. *)
Definition of_project (d : Db) (id proj : UUID) : Prop :=
  ∀ iid r, rule_instances d !! iid = Some r → rin_ProfileID r = id → rin_ProjectID r = proj.

Lemma writing_step d0 w w' id proj e ids rules row rule iid :
  of_project d0 id proj → writing d0 (w_db w) id proj e ids rules →
  UpsertRuleInstance row w = (w', Ok iid) → rin_ProjectID row = proj →
  rule_key row = (id, e, pg_lower (rule_Name rule)) →
  type_id (w_db w) (rule_Type rule) (rin_RuleTypeID row) →
  struct_Marshal (rule_Def rule) = inl (rin_Def row) →
  struct_Marshal (rule_Params rule) = inl (rin_Params row) →
  writing d0 (w_db w') id proj e (iid :: ids) (rule :: rules).
Proof.
  intros Hof [Hcop Hoth Hwr Hbef Hprof Hrs Hty Huq] Hrun Hproj Hkey Htype Hdef Hpar.
  destruct (UpsertRuleInstance_Ok _ _ _ _ Hrun) as (r & Hdb & Hk & Hrt & Hrd & Hrp & Hold).
  destruct (with_rules_fields (insert iid r) (w_db w)) as (Ei & Ep & Ee & Et).
  rewrite <-Hdb in Ei, Ep, Ee, Et. rewrite Hkey in *. unfold rule_key in Hk.
  injection Hk as Hkp Hke Hkn.
  assert (Hcopy : copy_of (w_db w') r rule).
  { split; [done| |congruence..]. rewrite Hrt. unfold type_id. by rewrite Et. }
  pose proof (UpsertRuleInstance_unique _ _ _ _ Hrun Huq) as Huq'.
  assert (Hrproj : rin_ProjectID r = proj).
  { destruct Hold as [(old & Hlo & Hko & ->)|[-> _]]; [|done].
    unfold rule_key in Hko. injection Hko as Hop _ _.
    destruct (decide (iid ∈ ids)) as [Hi|Hi].
    - destruct (Hcop iid Hi) as (r' & _ & Hl & _ & Hp & _). congruence.
    - rewrite (Hoth iid Hi) in Hlo. by apply (Hof iid). }
  split; rewrite ?Ei, ?Ep, ?Ee, ?Et; try done.
  - intros x [->|Hx]%elem_of_cons.
    + exists r, rule. rewrite lookup_insert_eq. split_and!; [done..|by left|done].
    + destruct (decide (x = iid)) as [->|Hne].
      * exists r, rule. rewrite lookup_insert_eq. split_and!; [done..|by left|done].
      * destruct (Hcop x Hx) as (r' & rule' & Hl & Hat & Hp & Hin & Hc). exists r', rule'.
        rewrite lookup_insert_ne by done. split_and!; [done..|by right|].
        by apply (copy_of_types (w_db w)).
  - intros x [Hne Hx]%not_elem_of_cons. rewrite lookup_insert_ne by done. by apply Hoth.
  - intros x Hx. rewrite reverse_cons in Hx. apply last_of_name_snoc in Hx as [->|[Hx Hne]].
    + exists iid, r. rewrite lookup_insert_eq. split_and!; [by left|done|done].
    + destruct (Hwr x Hx) as (y & r' & Hy & Hl & Hc). destruct (decide (y = iid)) as [->|Hyne].
      * exfalso. destruct Hold as [(old & Hlo & Hko & _)|(_ & Hno & _)]; [|congruence].
        assert (old = r') as -> by congruence. unfold rule_key in Hko. injection Hko as _ _ Hko.
        destruct Hc as [Hc _ _ _]. apply Hne. unfold same_name in *. congruence.
      * exists y, r'. rewrite lookup_insert_ne by done. split_and!; [by right|done|].
        by apply (copy_of_types (w_db w)).
  - intros x r0 Hx Hl. destruct (decide (x ∈ ids)) as [Hin|Hni]; [by eapply Hbef|].
    apply elem_of_cons in Hx as [->|Hx]; [|done]. rewrite <-(Hoth iid Hni) in Hl.
    destruct Hold as [(old & Hlo & Hko & _)|(_ & Hno & _)]; [|congruence].
    assert (old = r0) as -> by congruence. unfold rule_key in Hko. injection Hko as ? ? _. done.
Qed.

(** What the database holds of the types stays while profiles change. *)
Definition typed_by (d : Db) (m : RuleMapping) : Prop := mapping_ok (type_id d) m.

Lemma upsertRuleInstances_writing d0 id proj e m new w w' ids0 rules0 ids :
  of_project d0 id proj → writing d0 (w_db w) id proj e ids0 rules0 → typed_by (w_db w) m →
  upsertRuleInstances id proj e m new w = (w', Ok ids) →
  writing d0 (w_db w') id proj e (reverse ids ++ ids0) (reverse new ++ rules0).
Proof.
  intros Hof. revert w ids ids0 rules0. induction new as [|rule new IH]; intros w ids ids0 rules0 Hwr Hm;
    cbn [upsertRuleInstances].
  { by intros [= <- <-]. }
  destruct (m !! (rule_Type rule, rule_Name rule)) as [v|] eqn:Hv; [|by intros [=]].
  rewrite prog_bind_Ok. intros (w1 & def & Hdef & Hrun).
  apply wrapf_Ok in Hdef. destruct (struct_Marshal (rule_Def rule)) as [sd|] eqn:Hsd; [|done].
  injection Hdef as <- <-. apply prog_bind_Ok in Hrun as (w2 & params & Hpar & Hrun).
  apply wrapf_Ok in Hpar. destruct (struct_Marshal (rule_Params rule)) as [sp|] eqn:Hsp; [|done].
  injection Hpar as <- <-. apply prog_bind_Ok in Hrun as (w3 & iid & Hup & Hrun).
  apply wrapf_Ok in Hup. apply prog_bind_Ok in Hrun as (w4 & ids' & Hrec & [= <- <-]).
  pose proof (writing_step _ _ _ _ _ _ _ _ _ rule _ Hof Hwr Hup eq_refl eq_refl) as Hw3.
  rewrite !reverse_cons, <-!app_assoc. cbn [app]. apply (IH w3); [|clear -Hm Hup|done].
  - apply Hw3; [|done..]. by apply (mo_typed _ _ Hm _ _ _ Hv).
  - destruct (UpsertRuleInstance_Ok _ _ _ _ Hup) as (r & Hdb & _). rewrite Hdb. by destruct Hm.
Qed.
Lemma upsertRuleInstances_Ok id proj e m new w w' ids :
  of_project (w_db w) id proj → instances_unique (w_db w) → typed_by (w_db w) m →
  upsertRuleInstances id proj e m new w = (w', Ok ids) →
  writing (w_db w) (w_db w') id proj e (reverse ids) (reverse new).
Proof.
  intros Hof Hu Hm Hrun. pose proof (upsertRuleInstances_writing _ _ _ _ _ _ _ _ [] [] _ Hof
    (writing_nil _ id proj e Hu) Hm Hrun) as Hw. by rewrite !app_nil_r in Hw.
Qed.

(** The rules of one entity of a profile are replaced in both copies. *)
Lemma in_step_entity d0 d id e (rules : list Profile_Rule) :
  in_step d0 → profiles d = profiles d0 → rule_types d = rule_types d0 →
  (∀ k, k ≠ (id, e) → entity_profiles d !! k = entity_profiles d0 !! k) →
  (is_Some (entity_profiles d !! (id, e)) → is_Some (profiles d0 !! id)) →
  rules_at d id e = rules → instances_unique d →
  (∀ iid r, rule_instances d !! iid = Some r → is_at r id e →
     (∃ p, profiles d0 !! id = Some p ∧ rin_ProjectID r = dpr_ProjectID p) ∧
     ∃ rule, rule ∈ rules ∧ copy_of d r rule) →
  (∀ iid r, ¬ is_at r id e →
     rule_instances d !! iid = Some r ↔ rule_instances d0 !! iid = Some r) →
  (∀ rule, last_of_name rules rule →
     ∃ iid r, rule_instances d !! iid = Some r ∧ is_at r id e ∧ copy_of d r rule) →
  in_step d.
Proof.
  intros [Hi Hs Hw Hc _] Hp Ht Hrs Hthere Hr Huq Hat Hother Hwr.
  assert (Hel : ∀ id' e', (id', e') ≠ (id, e) → rules_at d id' e' = rules_at d0 id' e').
  { intros id' e' Hne. unfold rules_at. by rewrite Hrs. }
  assert (Hnot : ∀ r id' e', (id', e') ≠ (id, e) → is_at r id' e' → ¬ is_at r id e).
  { intros r id' e' Hne [<- <-] [? ?]. congruence. }
  split; rewrite ?Hp.
  - intros iid r Hl. destruct (decide (rin_ProfileID r = id ∧ rin_EntityType r = e)) as [Ha|Ha].
    + destruct (Hat _ _ Hl Ha) as [Hpr _]. by destruct Ha as [-> _].
    + eapply Hi. by apply Hother.
  - intros id' e' s Hl. destruct (decide ((id', e') = (id, e))) as [[= -> ->]|Hne].
    + apply Hthere. eauto.
    + rewrite Hrs in Hl by done. by eapply Hs.
  - intros id' e' rule Hin. destruct (decide ((id', e') = (id, e))) as [[= -> ->]|Hne].
    + rewrite Hr in Hin. by apply Hwr.
    + rewrite Hel in Hin by done. destruct (Hw _ _ _ Hin) as (iid & r & Hl & Ha & Hn).
      exists iid, r. split_and!; [|done|by apply (copy_of_types d0)].
      apply Hother; [by eapply Hnot|done].
  - intros iid r Hl. destruct (decide (rin_ProfileID r = id ∧ rin_EntityType r = e)) as [Ha|Ha].
    + destruct (Hat _ _ Hl Ha) as [_ (rule & Hin & Hcp)]. exists rule. destruct Ha as [-> ->].
      split; [by rewrite Hr|done].
    + rewrite Hel by (intros [= E1 E2]; by apply Ha).
      destruct (Hc iid r) as (rule & Hin & Hcp); [by apply Hother|].
      exists rule. split; [done|]. by apply (copy_of_types d0).
  - done.
Qed.

Lemma marshal_rules_Ok rules w w' s :
  marshal_rules rules w = (w', Ok s) → w' = w ∧ rules_Marshal rules = inl s.
Proof.
  unfold marshal_rules. rewrite or_throw_Ok. unfold lift.
  destruct (rules_Marshal rules); by intros [= <- <-].
Qed.

Lemma rules_at_insert d id e s rules :
  rules_Marshal rules = inl s → entity_profiles d !! (id, e) = Some s → rules_at d id e = rules.
Proof. intros Hm Hl. unfold rules_at. rewrite Hl. by rewrite (rules_roundtrip _ _ Hm). Qed.

Lemma in_step_project d id p :
  in_step d → profiles d !! id = Some p → of_project d id (dpr_ProjectID p).
Proof.
  intros Hin Hp iid r Hl Heq. destruct (is_instances _ Hin iid r Hl) as (p' & Hp' & ->).
  rewrite Heq in Hp'. congruence.
Qed.

Lemma create_entity_in_step ent id row rules m w w' :
  in_step (w_db w) → typed_by (w_db w) m → profiles (w_db w) !! id = Some row →
  createProfileRulesForEntity ent id row rules m w = (w', Ok tt) →
  in_step (w_db w') ∧ rule_types (w_db w') = rule_types (w_db w) ∧
  profiles (w_db w') = profiles (w_db w).
Proof.
  intros Hin Hm Hrow. unfold createProfileRulesForEntity.
  destruct rules as [|r0 rules]; [by intros [= <-]|]. set (new := r0 :: rules).
  rewrite prog_bind_Ok. intros (w1 & ids & Hup%wrapf_Ok & Hrun).
  apply prog_bind_Ok in Hrun as (w2 & s & [-> Hs]%marshal_rules_Ok & Hrun).
  apply or_throw_Ok, query_Ok in Hrun as (fs & Hrun). cbn in Hrun.
  destruct (bool_decide_reflect (is_Some (entity_profiles (w_db w1) !! (id, EntityTypeToDB ent))))
    as [|Hnone]; [by injection Hrun|]. apply eq_None_not_Some in Hnone.
  case_bool_decide; [|by injection Hrun]. injection Hrun as <-.
  destruct (upsertRuleInstances_Ok _ _ _ _ _ _ _ _ (in_step_project _ _ _ Hin Hrow)
    (is_unique _ Hin) Hm Hup) as [Hcop Hoth Hwr Hbef Hprof Hrs Hty Huq].
  rewrite Hrs in Hnone. cbn [w_db set_faults upd_policies set_db].
  split; [|done].
  assert (Hnew : rules_at (w_db w) id (EntityTypeToDB ent) = []) by (unfold rules_at; by rewrite Hnone).
  apply (in_step_entity (w_db w) _ id (EntityTypeToDB ent) new Hin); cbn; [done..| | | | | | |].
  - intros k Hk. rewrite lookup_insert_ne by done. by rewrite Hrs.
  - eauto.
  - apply (rules_at_insert _ _ _ s); [done|]. cbn. apply lookup_insert_eq.
  - exact Huq.
  - intros iid r Hl Ha. destruct (decide (iid ∈ reverse ids)) as [Hi|Hi].
    + destruct (Hcop iid Hi) as (r' & rule & Hl' & _ & Hpr & Hru & Hcp).
      assert (r' = r) as -> by congruence. split; [by exists row|]. exists rule.
      split; [by rewrite elem_of_reverse in Hru|]. by apply (copy_of_types (w_db w1)).
    + rewrite (Hoth iid Hi) in Hl. destruct (is_copies _ Hin iid r Hl) as (rule & Hru & _).
      destruct Ha as [Ha1 Ha2]. rewrite Ha1, Ha2, Hnew in Hru. by apply not_elem_of_nil in Hru.
  - intros iid r Ha. destruct (decide (iid ∈ reverse ids)) as [Hi|Hi]; [|by rewrite (Hoth iid Hi)].
    split; intros Hl.
    + destruct (Hcop iid Hi) as (r' & rule & Hl' & Ha' & _). rewrite Hl in Hl'. injection Hl' as <-. done.
    + destruct Ha. by eapply Hbef.
  - intros rule Hru. destruct (Hwr rule) as (iid & r & Hi & Hl & Hn); [by rewrite reverse_involutive|].
    exists iid, r. split_and!; [done| |by apply (copy_of_types (w_db w1))].
    destruct (Hcop iid Hi) as (r' & ? & Hl' & Ha' & _). rewrite Hl in Hl'. injection Hl' as <-. done.
Qed.

Lemma updateProfileRules_Ok ent id rules w w' :
  updateProfileRulesForEntity ent id rules w = (w', Ok tt) →
  let d := w_db w in let d1 := w_db w' in let e := EntityTypeToDB ent in
  profiles d1 = profiles d ∧ rule_types d1 = rule_types d ∧
  rule_instances d1 = rule_instances d ∧ rules_at d1 id e = rules ∧
  (∀ k, k ≠ (id, e) → entity_profiles d1 !! k = entity_profiles d !! k) ∧
  (is_Some (entity_profiles d1 !! (id, e)) → is_Some (profiles d !! id)).
Proof.
  unfold updateProfileRulesForEntity. destruct rules as [|r0 rules].
  - intros (fs & [= <-])%query_Ok. cbn. split_and!; try done.
    + unfold rules_at. cbn. by rewrite lookup_delete_eq.
    + intros k Hk. by rewrite lookup_delete_ne.
    + rewrite lookup_delete_eq. by intros [? [=]].
  - rewrite prog_bind_Ok. intros (w1 & s & [-> Hs]%marshal_rules_Ok & Hrun).
    apply query_Ok in Hrun as (fs & Hrun). cbn in Hrun.
    case_bool_decide; [|by injection Hrun]. injection Hrun as <-. cbn. split_and!; try done.
    + apply (rules_at_insert _ _ _ s); [done|]. cbn. by rewrite lookup_insert_eq.
    + intros k Hk. by rewrite lookup_insert_ne.
Qed.

Lemma checked_Ok d w w' : checked d w = (w', Ok tt) → w_db w' = d.
Proof. unfold checked. case_bool_decide; by intros [= <-]. Qed.

Lemma delete_rules_fields ids d :
  rule_instances (delete_rules ids d) = filter (λ p, p.1 ∉ ids) (rule_instances d) ∧
  profiles (delete_rules ids d) = profiles d ∧
  entity_profiles (delete_rules ids d) = entity_profiles d ∧
  rule_types (delete_rules ids d) = rule_types d.
Proof. done. Qed.

Lemma rules_where_spec P `{∀ p, Decision (P p)} d iid :
  iid ∈ rules_where P d ↔ ∃ r, rule_instances d !! iid = Some r ∧ P (iid, r).
Proof.
  unfold rules_where. rewrite elem_of_dom. unfold is_Some.
  by setoid_rewrite map_lookup_filter_Some.
Qed.

(** What is left when the instances chosen by [P] are deleted. *)
Lemma deleted_lookup P `{∀ p, Decision (P p)} d iid r :
  rule_instances (delete_rules (rules_where P d) d) !! iid = Some r ↔
  rule_instances d !! iid = Some r ∧ ¬ P (iid, r).
Proof.
  destruct (delete_rules_fields (rules_where P d) d) as (-> & _).
  rewrite map_lookup_filter_Some. cbn. rewrite rules_where_spec. split.
  - intros [Hl Hn]. split; [done|]. intros HP. apply Hn. eauto.
  - intros [Hl Hn]. split; [done|]. intros (r' & Hl' & HP). congruence.
Qed.

Lemma DeleteNonUpdatedRules_Ok id e updated w w' :
  DeleteNonUpdatedRules id e updated w = (w', Ok tt) →
  let d := w_db w in let d1 := w_db w' in
  profiles d1 = profiles d ∧ entity_profiles d1 = entity_profiles d ∧
  rule_types d1 = rule_types d ∧
  ∀ iid r, rule_instances d1 !! iid = Some r ↔
    rule_instances d !! iid = Some r ∧ ¬ (is_at r id e ∧ iid ∉ updated).
Proof.
  intros (fs & Hrun%checked_Ok)%query_Ok. cbn in Hrun. cbv zeta. rewrite Hrun.
  split_and!; [done..|]. intros iid r. rewrite deleted_lookup. cbn. unfold is_at. tauto.
Qed.

Lemma update_entity_in_step ent id row rules m w w' :
  in_step (w_db w) → typed_by (w_db w) m → profiles (w_db w) !! id = Some row →
  update_entity id row m ent rules w = (w', Ok tt) →
  in_step (w_db w') ∧ rule_types (w_db w') = rule_types (w_db w) ∧
  profiles (w_db w') = profiles (w_db w).
Proof.
  intros Hin Hm Hrow. unfold update_entity. rewrite prog_bind_Ok. intros (w1 & [] & Hjs & Hrun).
  apply prog_bind_Ok in Hrun as (w2 & ids & Hup & Hdel%wrapf_Ok).
  destruct (updateProfileRules_Ok _ _ _ _ _ Hjs) as (P1 & T1 & I1 & R1 & O1 & S1).
  assert (Hm1 : typed_by (w_db w1) m).
  { destruct Hm as [Hn Ht]. split; [done|]. intros t n v Hv. unfold type_id. rewrite T1. by eapply Ht. }
  assert (Hof : of_project (w_db w1) id (dpr_ProjectID row)).
  { intros iid r. cbv zeta in I1. rewrite I1. by apply (in_step_project _ _ _ Hin Hrow). }
  assert (Hu1 : instances_unique (w_db w1)) by (unfold instances_unique; cbv zeta in I1; rewrite I1; apply Hin).
  destruct (upsertRuleInstances_Ok _ _ _ _ _ _ _ _ Hof Hu1 Hm1 Hup)
    as [Hcop Hoth Hwr Hbef P2 R2 T2 Huq].
  destruct (DeleteNonUpdatedRules_Ok _ _ _ _ _ Hdel) as (P3 & R3 & T3 & I3). cbv zeta in *.
  set (e := EntityTypeToDB ent) in *. rewrite I1, P1 in *.
  assert (Hids : ∀ iid, iid ∈ reverse ids ↔ iid ∈ ids) by (intros; apply elem_of_reverse).
  split; [|split; congruence].
  apply (in_step_entity (w_db w) _ id e rules Hin); [congruence..| | | | | | |].
  - intros k Hk. by rewrite R3, R2, O1.
  - by rewrite R3, R2.
  - unfold rules_at in *. by rewrite R3, R2.
  - intros i1 i2 r1 r2 [L1 _]%I3 [L2 _]%I3. by apply Huq.
  - intros iid r [Hl Hn]%I3 Ha. assert (Hi : iid ∈ reverse ids).
    { apply Hids. destruct (decide (iid ∈ ids)); [done|]. by destruct Hn. }
    destruct (Hcop iid Hi) as (r' & rule & Hl' & _ & Hpr & Hru & Hcp). rewrite Hl in Hl'.
    injection Hl' as <-. split; [by exists row|].
    + exists rule. rewrite elem_of_reverse in Hru. split; [done|]. by apply (copy_of_types (w_db w2)).
  - intros iid r Ha. rewrite I3. destruct (decide (iid ∈ reverse ids)) as [Hi|Hi].
    + split; [intros [Hl _]|intros Hl; destruct Ha; by eapply Hbef].
      destruct (Hcop iid Hi) as (r' & ? & Hl' & Ha' & _). rewrite Hl in Hl'. injection Hl' as <-. done.
    + rewrite (Hoth iid Hi). tauto.
  - intros rule Hru. destruct (Hwr rule) as (iid & r & Hi & Hl & Hn); [by rewrite reverse_involutive|].
    destruct (Hcop iid Hi) as (r' & ? & Hl' & Ha' & _). rewrite Hl in Hl'. injection Hl' as <-.
    exists iid, r. split_and!; [|done|by apply (copy_of_types (w_db w2))]. apply I3. split; [done|]. intros [_ Hni]. apply Hni, Hids, Hi.
Qed.
(** *** The other tables *)

Lemma in_step_profiles d d' :
  in_step d → rule_instances d' = rule_instances d → entity_profiles d' = entity_profiles d →
  rule_types d' = rule_types d →
  (∀ id p, profiles d !! id = Some p →
     ∃ p', profiles d' !! id = Some p' ∧ dpr_ProjectID p' = dpr_ProjectID p) →
  in_step d'.
Proof.
  intros [Hi Hs Hw Hc Hu] Ei Ee Et Hp.
  assert (Hr : ∀ id e, rules_at d' id e = rules_at d id e) by (intros; unfold rules_at; by rewrite Ee).
  split; rewrite ?Ei, ?Ee.
  - intros iid r Hl. destruct (Hi _ _ Hl) as (p & Hpl & ->).
    destruct (Hp _ _ Hpl) as (p' & Hpl' & <-). by exists p'.
  - intros id e x Hl. destruct (Hs _ _ _ Hl) as [p Hpl].
    destruct (Hp _ _ Hpl) as (p' & Hpl' & _). by exists p'.
  - intros id e x. rewrite Hr. intros (iid & r & Hl & Ha & Hx)%Hw. exists iid, r.
    split_and!; [done..|]. by apply (copy_of_types d).
  - intros iid r Hl. destruct (Hc _ _ Hl) as (x & Hx & Hcp). exists x. rewrite Hr. split; [done|].
    by apply (copy_of_types d).
  - unfold instances_unique. by rewrite Ei.
Qed.

(** In step, with the rule types [T]. *)
Definition kept (T : gmap UUID dbRuleType) (w : World) : Prop :=
  in_step (w_db w) ∧ rule_types (w_db w) = T.

Lemma kept_db T w w' : w_db w' = w_db w → kept T w → kept T w'.
Proof. unfold kept. by intros ->. Qed.

Lemma kept_typed T m w w0 :
  typed_by (w_db w0) m → rule_types (w_db w0) = T → kept T w → typed_by (w_db w) m.
Proof.
  intros [Hn Ht] Ht0 [_ Htw]. split; [done|]. intros t n v Hv.
  unfold type_id. rewrite Htw, <-Ht0. by eapply Ht.
Qed.

Lemma select_kept {A} T (f : World → res A) w w' a :
  select f w = (w', Ok a) → kept T w → kept T w'.
Proof. intros Hs. apply kept_db. rewrite <-(query_select_db f w). by rewrite Hs. Qed.

Lemma CreateProfile_query_kept T row w w' x :
  CreateProfile_query row w = (w', Ok x) → kept T w →
  kept T w' ∧ profiles (w_db w') !! x.1 = Some x.2.
Proof.
  intros (fs & Hrun)%query_Ok [Hin Ht]. cbn in Hrun.
  match type of Hrun with context [bool_decide ?P] =>
    destruct (bool_decide_reflect P) as [|Hnew]; [by injection Hrun|] end.
  destruct (bool_decide _) in Hrun; [|by injection Hrun]. injection Hrun as <- <-.
  split; [split; [|done]|apply lookup_insert_eq].
  apply (in_step_profiles (w_db w)); [done..|]. intros id p Hid. cbn. exists p.
  rewrite lookup_insert_ne; [done|]. intros Heq. apply Hnew. left. rewrite Heq. eauto.
Qed.

Lemma UpdateProfile_query_kept T arg w w' x :
  UpdateProfile_query arg w = (w', Ok x) → kept T w →
  kept T w' ∧ profiles (w_db w') !! x.1 = Some x.2.
Proof.
  intros (fs & Hrun)%query_Ok [Hin Ht]. cbn in Hrun.
  destruct (profiles (w_db w) !! up_ID arg) as [p|] eqn:Hp; [|by injection Hrun].
  destruct (bool_decide _) in Hrun; [|by injection Hrun]. injection Hrun as <- <-.
  split; [split; [|done]|apply lookup_insert_eq].
  apply (in_step_profiles (w_db w)); [done..|]. intros id p' Hid. cbn.
  destruct (decide (up_ID arg = id)) as [<-|]; [|by exists p'; rewrite lookup_insert_ne].
  exists (updated_profile arg p). rewrite lookup_insert_eq. split; [done|]. cbn. congruence.
Qed.

Lemma CreateSelector_kept T id e sel c w w' :
  CreateSelector id e sel c w = (w', Ok tt) → kept T w → kept T w'.
Proof.
  intros (fs & Hrun)%query_Ok [Hin Ht]. cbn in Hrun.
  destruct (bool_decide _) in Hrun; [by injection Hrun|].
  destruct (bool_decide _) in Hrun; [|by injection Hrun]. injection Hrun as <-.
  split; [|done]. apply (in_step_profiles (w_db w)); eauto.
Qed.

Lemma createSelectorDbRecords_kept T id selection w w' :
  createSelectorDbRecords id selection w = (w', Ok tt) → kept T w → kept T w'.
Proof.
  intros Hrun Hk. apply (foreach_Ok (kept T) _ _ _ _) in Hrun; [done| |done].
  intros sel w1 w2 _ Hk1 Hs%wrapf_Ok. by eapply CreateSelector_kept.
Qed.

Lemma sendNewProfileEvent_kept T project w w' :
  sendNewProfileEvent project w = (w', Ok tt) → kept T w → kept T w'.
Proof.
  unfold sendNewProfileEvent. rewrite prog_bind_Ok. intros (w1 & msg & [= <- <-] & Hrun).
  apply prog_bind_Ok in Hrun as (w2 & x & Hp & [= <-]). apply kept_db.
  unfold try, Publish in Hp. match type of Hp with context [query ?f ?w] =>
    destruct (query_cases f w) as [(e & fs & Hq)|(fs & Hq)] end; rewrite Hq in Hp;
    by injection Hp as <- _.
Qed.

Lemma DeleteProfile_query_kept T id project w w' :
  DeleteProfile_query id project w = (w', Ok tt) → kept T w → kept T w'.
Proof.
  intros (fs & Hrun)%query_Ok [Hin Ht]. cbv beta in Hrun.
  change (w_db (set_faults fs w)) with (w_db w) in Hrun.
  destruct (profiles (w_db w) !! id) as [p|] eqn:Hp; [|by injection Hrun as <-].
  destruct (bool_decide (dpr_ProjectID p = project)); [|by injection Hrun as <-].
  apply checked_Ok in Hrun. unfold kept. rewrite Hrun. split; [|done]. destruct Hin as [Hi Hs Hw Hc Hu].
  assert (Hinst : ∀ iid r, rule_instances (delete_profile id (w_db w)) !! iid = Some r ↔
    rule_instances (w_db w) !! iid = Some r ∧ rin_ProfileID r ≠ id).
  { intros iid r. change (rule_instances (delete_profile id (w_db w))) with
      (rule_instances (delete_rules (rules_where (λ p : UUID * dbRuleInstance,
        rin_ProfileID p.2 = id) (w_db w)) (w_db w))). by rewrite deleted_lookup. }
  assert (Hprof : ∀ i, i ≠ id →
    profiles (delete_profile id (w_db w)) !! i = profiles (w_db w) !! i).
  { intros i Hne. cbn. by rewrite lookup_delete_ne. }
  assert (Hent : ∀ i e, entity_profiles (delete_profile id (w_db w)) !! (i, e) =
    if decide (i = id) then None else entity_profiles (w_db w) !! (i, e)).
  { intros i e. cbn. case_decide as Hd.
    - apply map_lookup_filter_None. right. intros x _. cbn. tauto.
    - destruct (entity_profiles (w_db w) !! (i, e)) as [x|] eqn:Hl.
      + apply map_lookup_filter_Some. done.
      + apply map_lookup_filter_None. by left. }
  assert (Hr : ∀ i e, rules_at (delete_profile id (w_db w)) i e =
    if decide (i = id) then [] else rules_at (w_db w) i e).
  { intros i e. unfold rules_at. rewrite Hent. by case_decide. }
  split.
  - intros iid r [Hl Hne]%Hinst. rewrite Hprof by done. by eapply Hi.
  - intros i e x Hl. rewrite Hent in Hl. case_decide; [done|]. rewrite Hprof by done. by eapply Hs.
  - intros i e x. rewrite Hr.
    case_decide; [intros ([|] & after & Heq & _); discriminate Heq|]. intros Hx.
    destruct (Hw _ _ _ Hx) as (iid & r & Hl & Ha & Hn). exists iid, r.
    split_and!; [|done|by apply (copy_of_types (w_db w))].
    apply Hinst. split; [done|]. by destruct Ha as [-> _].
  - intros iid r [Hl Hne]%Hinst. destruct (Hc _ _ Hl) as (x & Hx & Hcp). exists x.
    rewrite Hr, decide_False by done. split; [done|]. by apply (copy_of_types (w_db w)).
  - intros i1 i2 r1 r2 [L1 _]%Hinst [L2 _]%Hinst. by apply Hu.
Qed.

(** *** The operations of the service *)

(** The loop over the entities of a profile. *)
Lemma loop_kept T m id row (f : Entity * list Profile_Rule → prog World unit) l w w' :
  (∀ x v v', in_step (w_db v) → typed_by (w_db v) m → profiles (w_db v) !! id = Some row →
     f x v = (v', Ok tt) → in_step (w_db v') ∧ rule_types (w_db v') = rule_types (w_db v) ∧
     profiles (w_db v') = profiles (w_db v)) →
  typed_by (w_db w) m → kept T w ∧ profiles (w_db w) !! id = Some row →
  foreach f l w = (w', Ok tt) → kept T w'.
Proof.
  intros Hf Hm Hk Hrun.
  enough (kept T w' ∧ profiles (w_db w') !! id = Some row) as [Hk' _] by done.
  apply (foreach_Ok (λ v, kept T v ∧ profiles (w_db v) !! id = Some row) _ _ _ _) in Hrun; [done| |done].
  intros x v v' _ [Hv Hrow] Hs.
  destruct (Hf x v v' (proj1 Hv) (kept_typed T _ _ w Hm (proj2 (proj1 Hk)) Hv) Hrow Hs)
    as (Hin & Ht & Hp).
  rewrite Hp. split; [|done]. split; [done|]. rewrite Ht. apply Hv.
Qed.

Lemma checking_Ok f err (w w' : World) : checking f err w = (w', Ok tt) → w' = w.
Proof. destruct err; by intros [= <-]. Qed.

Lemma lift_Ok {A} (r : res A) (w w' : World) a : lift r w = (w', Ok a) → w' = w ∧ r = Ok a.
Proof. by intros [= <- ->]. Qed.

Lemma CreateProfile_kept T project sub p w w' x :
  honest_faults w → CreateProfile project sub p w = (w', Ok x) → kept T w → kept T w'.
Proof.
  intros Hh Hrun Hk. unfold CreateProfile in Hrun.
  apply prog_bind_Ok in Hrun as (w1 & m & Hval & Hrun).
  destruct (validated_names _ _ _ _ _ Hh Hval) as (Hdb & _ & Hm).
  apply (kept_db T _ w1 Hdb) in Hk.
  apply prog_bind_Ok in Hrun as (w2 & [] & ->%checking_Ok & Hrun).
  apply prog_bind_Ok in Hrun as (w3 & [] & ->%checking_Ok & Hrun).
  destruct (PopulateRuleNames p m) as [p' m']. cbn [snd] in Hm. cbv beta iota in Hrun.
  apply prog_bind_Ok in Hrun as (w4 & rows & Hl%or_throw_Ok & Hrun).
  apply (select_kept T) in Hl; [|done].
  apply prog_bind_Ok in Hrun as (w5 & name & [-> _]%lift_Ok & Hrun).
  apply prog_bind_Ok in Hrun as (w6 & [id row] & Hc%or_throw_Ok & Hrun).
  apply (CreateProfile_query_kept T) in Hc; [|done].
  apply prog_bind_Ok in Hrun as (w7 & [] & Hf & Hrun).
  apply (loop_kept T m' id row) in Hf; [|intros [ent rules] v v'; by apply create_entity_in_step| |done].
  2: { apply (kept_typed T _ _ w Hm); [|apply Hc]. rewrite <-Hdb. apply Hk. }
  apply prog_bind_Ok in Hrun as (w8 & [] & Hs & Hrun). unfold createSelectors in Hs.
  apply prog_bind_Ok in Hs as (w9 & [] & [-> _]%lift_Ok & Hs).
  apply (createSelectorDbRecords_kept T) in Hs; [|done].
  apply prog_bind_Ok in Hrun as (w10 & [] & He & [= <- _]). by eapply sendNewProfileEvent_kept.
Qed.

Lemma getProfileForUpdate_kept T p project w w' a :
  getProfileFromPBForUpdate p project w = (w', Ok a) → kept T w → kept T w'.
Proof.
  unfold getProfileFromPBForUpdate. destruct (negb _); [destruct (uuid_Parse _)|];
    first [apply select_kept|by intros [=]].
Qed.

Lemma UpdateProfile_kept T project sub p w w' x :
  honest_faults w → UpdateProfile project sub p w = (w', Ok x) → kept T w → kept T w'.
Proof.
  intros Hh Hrun Hk. unfold UpdateProfile in Hrun.
  apply prog_bind_Ok in Hrun as (w1 & m & Hval & Hrun).
  destruct (validated_names _ _ _ _ _ Hh Hval) as (Hdb & _ & Hm).
  apply (kept_db T _ w1 Hdb) in Hk.
  apply prog_bind_Ok in Hrun as (w2 & old & Ho%or_throw_Ok & Hrun).
  pose proof (getProfileForUpdate_kept T _ _ _ _ _ Ho Hk) as Hk2.
  apply prog_bind_Ok in Hrun as (w3 & [] & ->%checking_Ok & Hrun).
  apply prog_bind_Ok in Hrun as (w4 & [] & ->%checking_Ok & Hrun).
  destruct (PopulateRuleNames p m) as [p' m']. cbn [snd] in Hm. cbv beta iota in Hrun.
  apply prog_bind_Ok in Hrun as (w6 & [id row] & Hc%or_throw_Ok & Hrun).
  apply (UpdateProfile_query_kept T) in Hc; [|done].
  apply prog_bind_Ok in Hrun as (w7 & [] & Hf & Hrun).
  apply (loop_kept T m' id row) in Hf; [|intros [ent rules] v v'; by apply update_entity_in_step| |done].
  2: { apply (kept_typed T _ _ w Hm); [|apply Hc]. rewrite <-Hdb. apply Hk. }
  apply prog_bind_Ok in Hrun as (w8 & [] & Hs & Hrun). unfold updateSelectors in Hs.
  apply prog_bind_Ok in Hs as (w9 & [] & [-> _]%lift_Ok & Hs).
  apply prog_bind_Ok in Hs as (w10 & [] & Hd%wrapf_Ok & Hs).
  assert (Hk10 : kept T w10).
  { apply query_Ok in Hd as (fs & [= <-]). split; [|apply Hf].
    apply (in_step_profiles (w_db w7)); [apply Hf|eauto..]. }
  apply (createSelectorDbRecords_kept T) in Hs; [|done].
  apply prog_bind_Ok in Hrun as (w11 & [] & He & [= <- _]). by eapply sendNewProfileEvent_kept.
Qed.
Lemma reads_step {A} (m : prog World A) w w' a :
  reads m → honest_faults w → m w = (w', Ok a) → w_db w' = w_db w ∧ honest_faults w'.
Proof.
  intros Hm Hh Hrun. destruct (Hm w Hh) as (_ & fs & r & Hw & Hfs & _). rewrite Hrun in Hw.
  injection Hw as -> _. split; [done|]. by apply honest_faults_sub.
Qed.

Lemma reads_or_throw {A} f (m : prog World A) : reads m → reads (or_throw f m).
Proof. intros Hm. by apply (reads_try_throw _ _ f); [|apply reads_ret|]. Qed.

Lemma reads_getProfilePBFromDB id project : reads (getProfilePBFromDB id project).
Proof.
  apply reads_bind; [|intros; apply reads_lift].
  apply (reads_select (λ d, profile_rows (λ p, dpr_ProjectID p.2 = project ∧ p.1 = id) d)).
Qed.

Lemma reads_by_name project name : reads (GetProfileByNameAndLock project name).
Proof.
  apply (reads_select (λ d, first_profile (λ p, dpr_ProjectID p.2 = project ∧
                                               same_name (dpr_Name p.2) name) d)).
Qed.

Lemma reads_ValidateProject project : reads (ValidateProject project).
Proof.
  apply reads_bind; [|intros; apply reads_ret]. apply reads_or_throw.
  exact (reads_select (λ d : Db, if bool_decide (project ∈ projects d ∧ project ∉ organizations d)
                                 then Ok project else Err ErrNoRows)).
Qed.

Lemma PatchProfile_kept T project id patch mask w w' x :
  honest_faults w → PatchProfile project id patch mask w = (w', Ok x) → kept T w → kept T w'.
Proof.
  intros Hh Hrun Hk. unfold PatchProfile in Hrun.
  apply prog_bind_Ok in Hrun as (w1 & pid & Hid & Hrun).
  apply reads_step in Hid as [D1 H1']; [| |done].
  2: { destruct (uuid_Parse id); [apply reads_ret|
         apply reads_bind; [apply reads_or_throw, reads_by_name|intros; apply reads_ret]..]. }
  apply prog_bind_Ok in Hrun as (w2 & base & Hb & Hrun).
  apply reads_step in Hb as [D2 H2']; [|apply reads_wrapf, reads_getProfilePBFromDB|done].
  apply prog_bind_Ok in Hrun as (w3 & patched & [-> _]%lift_Ok & Hrun).
  eapply UpdateProfile_kept; [exact H2'|exact Hrun|].
  apply (kept_db T w); [congruence|done].
Qed.

Lemma DeleteProfile_kept T project id w w' x :
  DeleteProfile project id w = (w', Ok x) → kept T w → kept T w'.
Proof.
  intros Hrun Hk. unfold DeleteProfile in Hrun.
  apply prog_bind_Ok in Hrun as (w1 & row & Hrow%or_throw_Ok & Hrun).
  assert (Hk1 : kept T w1) by (destruct (uuid_Parse id); by eapply select_kept).
  destruct (dpr_SubscriptionID row.2); [by injection Hrun|].
  apply prog_bind_Ok in Hrun as (w2 & [] & Hd%or_throw_Ok & [= <- _]).
  by eapply DeleteProfile_query_kept.
Qed.

(** ** The requests *)

Inductive profile_request :=
| RCreate (p : Profile)
| RUpdate (p : Profile)
| RPatch (id : string) (patch : Profile) (mask : option (list string))
| RDelete (id : string).

Definition serve (project : UUID) (r : profile_request) : prog World unit :=
  match r with
  | RCreate p => handle_CreateProfile project p;; mret tt
  | RUpdate p => handle_UpdateProfile project p;; mret tt
  | RPatch id patch mask => handle_PatchProfile project id patch mask;; mret tt
  | RDelete id => handle_DeleteProfile project id
  end.

(** A transaction keeps what its function keeps when it succeeds. *)
Lemma transaction_kept {A} (m : prog World A) w :
  (∀ w1 w2 a, honest_faults w1 → w_db w1 = w_db w → m w1 = (w2, Ok a) → in_step (w_db w2)) →
  honest_faults w → in_step (w_db w) → in_step (w_db (WithTransaction m w).1).
Proof.
  intros Hm Hh Hin. destruct (WithTransaction m w) as [w' r] eqn:Hrun. cbn.
  destruct (WithTransaction_cases _ _ _ _ Hrun) as [(a & fs & w2 & -> & Hfs & Hf & Hdb & _)|[_ Hdb]];
    rewrite Hdb; [|done].
  apply (Hm _ _ _ (honest_faults_sub _ _ Hh Hfs) eq_refl Hf).
Qed.

Lemma bind_step {A B} (m : prog World A) (k : A → prog World B) w :
  reads m → honest_faults w → in_step (w_db w) →
  (∀ w1 a, honest_faults w1 → in_step (w_db w1) → in_step (w_db (k a w1).1)) →
  in_step (w_db ((m ≫= k) w).1).
Proof.
  intros Hm Hh Hin Hk. destruct (Hm w Hh) as (_ & fs & r & Hw & Hfs & _).
  unfold mbind, prog_bind. rewrite Hw. destruct r as [a|e|s]; [|done..].
  apply Hk; [by apply honest_faults_sub|done].
Qed.

Lemma ignore_result {A} (m : prog World A) w : ((m;; mret tt) w).1 = (m w).1.
Proof. unfold mbind, prog_bind. by destruct (m w) as [w1 []]. Qed.

(** C20: the API and the engine see the same rules.  The rules of a profile are
    stored as JSON and as rule instances; whatever a request creates, updates,
    patches or deletes, and whichever statement fails, every instance is the copy
    of a rule of the JSON, of its profile and its entity: its name up to case,
    its type, its definition and its parameters.  Of the rules of the JSON with
    the same name up to case the last one has such a copy, and no name has two:
    with distinct names every rule has exactly one instance. *)
Theorem profile_rules_in_step project r w
    (Hh : honest_faults w) (Hin : in_step (w_db w)) :
  in_step (w_db (serve project r w).1).
Proof.
  assert (Hk : ∀ w1, w_db w1 = w_db w1 → in_step (w_db w1) → kept (rule_types (w_db w1)) w1) by done.
  destruct r as [p|p|id patch mask|id]; cbn [serve]; rewrite ?ignore_result.
  - unfold handle_CreateProfile. apply bind_step; [|done..|intros w1 _ Hh1 Hin1].
    { destruct (Profile_Validate p); [apply reads_throw|apply reads_ret]. }
    apply bind_step; [apply reads_ValidateProject|done..|intros w2 _ Hh2 Hin2].
    apply transaction_kept; [|done..]. intros w3 w4 a Hh3 Hdb Hrun.
    eapply CreateProfile_kept; [exact Hh3|exact Hrun|]. apply Hk; [done|congruence].
  - unfold handle_UpdateProfile.
    apply bind_step; [apply reads_ValidateProject|done..|intros w2 _ Hh2 Hin2].
    apply transaction_kept; [|done..]. intros w3 w4 a Hh3 Hdb Hrun.
    eapply UpdateProfile_kept; [exact Hh3|exact Hrun|]. apply Hk; [done|congruence].
  - unfold handle_PatchProfile.
    apply bind_step; [apply reads_ValidateProject|done..|intros w2 _ Hh2 Hin2].
    destruct (String.eqb id ""); [done|].
    apply transaction_kept; [|done..]. intros w3 w4 a Hh3 Hdb Hrun.
    eapply PatchProfile_kept; [exact Hh3|exact Hrun|]. apply Hk; [done|congruence].
  - unfold handle_DeleteProfile.
    apply bind_step; [apply reads_ValidateProject|done..|intros w2 _ Hh2 Hin2].
    rewrite ignore_result. apply transaction_kept; [|done..]. intros w3 w4 a Hh3 Hdb Hrun.
    eapply DeleteProfile_kept; [exact Hrun|]. apply Hk; [done|congruence].
Qed.
End in_step.

(** ** Witness: a profile with one rule is created *)

Definition is_plain (r : Profile_Rule) : bool := is_nil (rule_Params r) && is_nil (rule_Def r).

Definition plain_rule (p : string * string) : Profile_Rule :=
  {| rule_Type := p.1; rule_Params := None; rule_Def := None; rule_Name := p.2 |}.

Definition plain_Marshal (rules : list Profile_Rule) : string + gerr :=
  if forallb is_plain rules
  then inl (decimal_string (N.pos (encode (key <$> rules)))) else inr (EText "not plain").

Definition plain_Unmarshal (s : string) : list Profile_Rule + gerr :=
  match decimal_parse s with
  | Ok (N.pos p) =>
      match decode p : option (list (string * string)) with
      | Some l => inl (plain_rule <$> l)
      | None => inr (EText "invalid")
      end
  | _ => inr (EText "invalid")
  end.

Lemma plain_roundtrip rules s : plain_Marshal rules = inl s → plain_Unmarshal s = inl rules.
Proof.
  unfold plain_Marshal. destruct (forallb is_plain rules) eqn:Hp; [|done]. intros [= <-].
  unfold plain_Unmarshal. rewrite decimal_parse_string, decode_encode. f_equal.
  rewrite <-list_fmap_compose. rewrite <-(list_fmap_id rules) at 2. apply fmap_ext_in.
  intros r Hr. rewrite forallb_forall in Hp. specialize (Hp r (proj1 (list_elem_of_In _ _) Hr)).
  unfold is_plain in Hp. by destruct r as [t [|] [|] n].
Qed.

Definition plain_rules : RulesJSON :=
  {| rules_Marshal := plain_Marshal; rules_Unmarshal := plain_Unmarshal;
     struct_Marshal := λ o, inl (if is_nil o then "null" else "{}");
     rules_roundtrip := plain_roundtrip |}.

Definition ex_selection_checker : SelectionChecker :=
  {| CheckSelector := λ _, None; as_ParseError := λ _, None; as_CheckError := λ _, None |}.

(** No rule yet. *)
Definition ex_profiles_db : Db :=
  set_policies {| p_rules := ∅; p_profiles := {[40%N := ex_profile_row]}; p_entities := ∅;
                  p_selectors := [] |} ex_db.

Lemma ex_profiles_in_step `{PgText} `{RulesJSON} : in_step ex_profiles_db.
Proof.
  split.
  - intros iid r. cbn. by rewrite lookup_empty.
  - intros id e s. cbn. by rewrite lookup_empty.
  - intros id e rule. unfold rules_at. cbn. rewrite lookup_empty.
    intros ([|] & after & Heq & _); discriminate Heq.
  - intros iid r. cbn. by rewrite lookup_empty.
  - intros i1 i2 r1 r2. cbn. by rewrite lookup_empty.
Qed.

Section witness.
#[local] Existing Instance decimal_uuid.
#[local] Existing Instance counter_uuid.
#[local] Existing Instance ex_lower.
#[local] Existing Instance ex_library.
#[local] Existing Instance plain_rules.
#[local] Existing Instance ex_record.
#[local] Existing Instance ex_selection_checker.
#[local] Existing Instance ex_structpb.
#[local] Existing Instance ex_message_json.

Definition ex_create : profile_request := RCreate (ex_profile_pb [plain_rule ("Rule_Type", "")]).

(** The instance has the name of the type. *)
Lemma profile_rules_in_step_witness :
  in_step (w_db (serve 2%N ex_create (ex_world ex_profiles_db [])).1) ∧
  rin_Name <$> (map_to_list (rule_instances
    (w_db (serve 2%N ex_create (ex_world ex_profiles_db [])).1))).*2 = ["Rule type"].
Proof.
  split; [|vm_compute; reflexivity].
  apply (profile_rules_in_step 2%N ex_create (ex_world ex_profiles_db [])).
  - intros e. cbn. by intros ?%not_elem_of_nil.
  - apply ex_profiles_in_step.
Defined.
End witness.
