(* ===== verification/ProfileLimits.v ===== *)
(** * Profiles that cannot be stored as they are

    Two limits of the profile service: the rules of pipeline runs, of task runs
    and of builds are validated but left out of the mapping the rule instances
    are made from, so a profile that has any is refused; and rules that get the
    same name from their types end up in one instance. *)

From S2P Require Import Prelude GoErrors GoMonad GoStrings Uuid DbTypes ProfileModels Properties.
From S2P Require Import ApiTypes Validators Database HistoryDb SelectorScan EntityDb ProfileDb ProfileRules.
From S2P Require Import ProfileTyping ProfileMerge EntityEvent EntityMessage Eea Repositories ProfileService.
From S2P Require Import ProfileSync.
Local Open Scope string_scope.

Section limits.
Context `{UuidLib} `{RandomUuid} `{PgText} `{RuleTypeLib} `{RulesJSON} `{RecordOutput}
  `{SelectionChecker} `{MessageJSON}.

Definition left_out (p : Profile) : list Profile_Rule :=
  (prof_PipelineRun p ++ prof_TaskRun p ++ prof_Build p)%list.

(** The mapping speaks of the types of the traversed rules only. *)
Definition of_types (types : list string) (t : string) (_ : UUID) : Prop := t ∈ types.

Lemma mapping_of_types d projectID p m :
  mapping_of d projectID p m → mapping_ok (of_types (rule_Type <$> traversed p)) m.
Proof.
  intros Hm. destruct (mapping_of_ok d projectID p m Hm) as [[Hn _] _]. destruct Hm as [_ Hout].
  split; [done|]. intros t n v Hv. unfold of_types.
  destruct (decide ((t, n) ∈ key <$> traversed p)) as [(r & Hk & Hr)%list_elem_of_fmap|Hk].
  - apply list_elem_of_fmap. exists r. split; [|done]. by injection Hk.
  - rewrite (Hout _ Hk) in Hv. discriminate.
Qed.

Lemma upsert_covers id proj e m new w w' ids :
  upsertRuleInstances id proj e m new w = (w', Ok ids) → covers m new.
Proof.
  revert w ids. induction new as [|rule new IH]; intros w ids; cbn [upsertRuleInstances].
  { by intros _ r ?%not_elem_of_nil. }
  destruct (m !! (rule_Type rule, rule_Name rule)) as [v|] eqn:Hv; [|by intros [=]].
  rewrite prog_bind_Ok. intros (w1 & def & _ & Hrun).
  apply prog_bind_Ok in Hrun as (w2 & params & _ & Hrun).
  apply prog_bind_Ok in Hrun as (w3 & iid & _ & Hrun).
  apply prog_bind_Ok in Hrun as (w4 & ids' & Hrec & [= <- _]).
  intros r [->|Hr]%elem_of_cons; [unfold key; rewrite Hv; eauto|]. by apply (IH _ _ Hrec).
Qed.

Lemma foreach_each {W A} (f : A → prog W unit) l w w' x :
  foreach f l w = (w', Ok tt) → x ∈ l → ∃ v v', f x v = (v', Ok tt).
Proof.
  revert w. induction l as [|y l IH]; intros w; cbn; [by intros _ ?%not_elem_of_nil|].
  rewrite prog_bind_Ok. intros (w1 & [] & Hy & Hl) [->|Hx]%elem_of_cons; [eauto|by eapply IH].
Qed.

(** Two rules of a well-typed profile with the same type are under the same
    entity, if one of them is traversed. *)
Lemma typed_entity d projectID p e e' rules rules' r r' :
  profile_typed d projectID p → (e, rules) ∈ rules_by_entity p → (e', rules') ∈ rules_by_entity p →
  r ∈ rules → r' ∈ rules' → r' ∈ traversed p → rule_Type r = rule_Type r' →
  ToString e = ToString e'.
Proof.
  intros [_ _ Hent Hrules] He He' Hr Hr' Ht Heq.
  destruct (Hrules r' Ht) as (id & rt & (row & Hrow & Hpb) & _).
  destruct (Hent e rules r He Hr) as [Hno|(i1 & rt1 & (row1 & Hrow1 & Hpb1) & H1')];
    [rewrite Heq in Hno; congruence|].
  destruct (Hent e' rules' r' He' Hr') as [Hno|(i2 & rt2 & (row2 & Hrow2 & Hpb2) & H2')];
    [congruence|].
  rewrite Heq in Hrow1. rewrite Hrow1 in Hrow2. injection Hrow2 as <- <-.
  rewrite Hpb1 in Hpb2. injection Hpb2 as <-. congruence.
Qed.

Definition left_out_entities : list Entity :=
  [Entity_ENTITY_PIPELINE_RUN; Entity_ENTITY_TASK_RUN; Entity_ENTITY_BUILD].
Definition traversed_entities : list Entity :=
  [Entity_ENTITY_REPOSITORIES; Entity_ENTITY_BUILD_ENVIRONMENTS; Entity_ENTITY_PULL_REQUESTS;
   Entity_ENTITY_ARTIFACTS; Entity_ENTITY_RELEASE].

Lemma entities_differ e e' :
  e ∈ left_out_entities → e' ∈ traversed_entities → ToString e ≠ ToString e'.
Proof.
  assert (Forall (λ e, Forall (λ e', ToString e ≠ ToString e') traversed_entities) left_out_entities)
    as Hall by (apply (bool_decide_eq_true_1 _); vm_compute; reflexivity).
  rewrite Forall_forall in Hall. intros He He'. specialize (Hall e He).
  rewrite Forall_forall in Hall. by apply Hall.
Qed.

Lemma left_out_under p r :
  r ∈ left_out p → ∃ e rules, (e, rules) ∈ rules_by_entity p ∧ r ∈ rules ∧ e ∈ left_out_entities.
Proof.
  unfold left_out. rewrite !elem_of_app. intros [Hx|[Hx|Hx]];
    (eexists _, _; split_and!; [|exact Hx|]); unfold rules_by_entity, left_out_entities;
    repeat (left || right).
Qed.

Lemma traversed_under p r :
  r ∈ traversed p → ∃ e rules, (e, rules) ∈ rules_by_entity p ∧ r ∈ rules ∧ e ∈ traversed_entities.
Proof.
  unfold traversed. rewrite !elem_of_app. intros [Hx|[Hx|[Hx|[Hx|Hx]]]];
    (eexists _, _; split_and!; [|exact Hx|]); unfold rules_by_entity, traversed_entities;
    repeat (left || right).
Qed.

Lemma left_out_untyped d projectID p r :
  profile_typed d projectID p → r ∈ left_out p → rule_Type r ∉ rule_Type <$> traversed p.
Proof.
  intros Htyped Hr (r' & Heq & Hr')%list_elem_of_fmap.
  destruct (left_out_under p r Hr) as (e & rules & He & Hin & Hl).
  destruct (traversed_under p r' Hr') as (e' & rules' & He' & Hin' & Hl').
  apply (entities_differ e e' Hl Hl'). by eapply typed_entity.
Qed.

(** A loop over the entities that writes the rules of each by the mapping does
    not come to its end. *)
Lemma left_out_fails d projectID p m w w' (f : Entity * list Profile_Rule → prog World unit) r :
  profile_typed d projectID p → mapping_of d projectID p m → r ∈ left_out p →
  (∀ e rules v v', rules ≠ [] → f (e, rules) v = (v', Ok tt) →
     covers (PopulateRuleNames p m).2 rules) →
  foreach f (rules_by_entity (PopulateRuleNames p m).1) w ≠ (w', Ok tt).
Proof.
  intros Ht Hm Hr Hf Hrun. destruct (mapping_of_ok d projectID p m Hm) as [_ Hc].
  destruct (PopulateRuleNames_spec _ p m (mapping_of_types d projectID p m Hm) Hc
    (typed_unnamed _ _ _ Ht)) as [Hp [_ Htypes]].
  destruct (left_out_under p r Hr) as (e & rules & He & Hin & Hl).
  assert (He' : (e, rules) ∈ rules_by_entity (PopulateRuleNames p m).1).
  { rewrite Hp. unfold rules_by_entity in *. cbn.
    repeat (apply elem_of_cons in He as [He|He]; [injection He as -> ->; 
      first [exfalso; clear -Hl; revert Hl; vm_compute; set_solver|repeat (left || right)]|]).
    by apply not_elem_of_nil in He. }
  destruct (foreach_each _ _ _ _ _ Hrun He') as (v & v' & Hv).
  destruct (Hf e rules v v') with (r := r) as [x Hx]; [|done|done|].
  { intros ->. by apply not_elem_of_nil in Hin. }
  apply (left_out_untyped d projectID p r Ht Hr). by eapply Htypes.
Qed.
Lemma create_left_out project sub p r w w' x :
  honest_faults w → r ∈ left_out p → CreateProfile project sub p w ≠ (w', Ok x).
Proof.
  intros Hh Hr Hrun. unfold CreateProfile in Hrun.
  apply prog_bind_Ok in Hrun as (w1 & m & Hval & Hrun).
  destruct (validation_sound _ _ _ _ _ Hh Hval) as (_ & Ht & Hm).
  apply prog_bind_Ok in Hrun as (w2 & [] & _ & Hrun).
  apply prog_bind_Ok in Hrun as (w3 & [] & _ & Hrun).
  pose proof (left_out_fails (w_db w) project p m) as Hfail.
  destruct (PopulateRuleNames p m) as [p' m']. cbv beta iota in Hrun. cbn [fst snd] in Hfail.
  apply prog_bind_Ok in Hrun as (w4 & rows & _ & Hrun).
  apply prog_bind_Ok in Hrun as (w5 & name & _ & Hrun).
  apply prog_bind_Ok in Hrun as (w6 & [id row] & _ & Hrun).
  apply prog_bind_Ok in Hrun as (w7 & [] & Hf & _). revert Hf.
  apply (Hfail _ _ _ r Ht Hm Hr). clear. intros e rules v v' Hne Hv. cbv beta iota in Hv.
  unfold createProfileRulesForEntity in Hv. destruct rules; [done|].
  apply prog_bind_Ok in Hv as (v1 & ids & Hup%wrapf_Ok & _). by eapply upsert_covers.
Qed.

Lemma update_left_out project sub p r w w' x :
  honest_faults w → r ∈ left_out p → UpdateProfile project sub p w ≠ (w', Ok x).
Proof.
  intros Hh Hr Hrun. unfold UpdateProfile in Hrun.
  apply prog_bind_Ok in Hrun as (w1 & m & Hval & Hrun).
  destruct (validation_sound _ _ _ _ _ Hh Hval) as (_ & Ht & Hm).
  apply prog_bind_Ok in Hrun as (w2 & old & _ & Hrun).
  apply prog_bind_Ok in Hrun as (w3 & [] & _ & Hrun).
  apply prog_bind_Ok in Hrun as (w4 & [] & _ & Hrun).
  pose proof (left_out_fails (w_db w) project p m) as Hfail.
  destruct (PopulateRuleNames p m) as [p' m']. cbv beta iota in Hrun. cbn [fst snd] in Hfail.
  apply prog_bind_Ok in Hrun as (w6 & [id row] & _ & Hrun).
  apply prog_bind_Ok in Hrun as (w7 & [] & Hf & _). revert Hf.
  apply (Hfail _ _ _ r Ht Hm Hr). clear. intros e rules v v' _ Hv. cbv beta iota in Hv.
  apply prog_bind_Ok in Hv as (v1 & [] & _ & Hv).
  apply prog_bind_Ok in Hv as (v2 & ids & Hup & _). by eapply upsert_covers.
Qed.

(** A transaction that cannot succeed changes nothing. *)
Lemma transaction_refused {A} (m : prog World A) w :
  (∀ w1 w2 a, honest_faults w1 → m w1 ≠ (w2, Ok a)) → honest_faults w →
  is_ok (WithTransaction m w).2 = false ∧ w_db (WithTransaction m w).1 = w_db w.
Proof.
  intros Hm Hh. destruct (WithTransaction m w) as [w' r] eqn:Hrun.
  destruct (WithTransaction_cases _ _ _ _ Hrun) as [(a & fs & w2 & _ & Hfs & Hf & _)|Hno]; [|done].
  by destruct (Hm _ _ _ (honest_faults_sub _ _ Hh Hfs) Hf).
Qed.

Lemma bind_refused {A B} (m : prog World A) (k : A → prog World B) w :
  reads m → honest_faults w →
  (∀ w1 a, honest_faults w1 → w_db w1 = w_db w →
     is_ok (k a w1).2 = false ∧ w_db (k a w1).1 = w_db w) →
  is_ok ((m ≫= k) w).2 = false ∧ w_db ((m ≫= k) w).1 = w_db w.
Proof.
  intros Hm Hh Hk. destruct (Hm w Hh) as (_ & fs & r & Hw & Hfs & _).
  unfold mbind, prog_bind. rewrite Hw. destruct r as [a|e|s]; [|done..].
  apply Hk; [by apply honest_faults_sub|done].
Qed.

Lemma refused_transaction_after {A B} (m : prog World B) (t : prog World A) w :
  reads m → (∀ w1 w2 a, honest_faults w1 → t w1 ≠ (w2, Ok a)) → honest_faults w →
  is_ok ((m;; WithTransaction t) w).2 = false ∧ w_db ((m;; WithTransaction t) w).1 = w_db w.
Proof.
  intros Hm Ht Hh. apply bind_refused; [done..|]. intros w1 _ Hh1 Hdb. rewrite <-Hdb.
  by apply transaction_refused.
Qed.

(** The rules of three entities cannot be used.  Validation accepts rules for
    pipeline runs, task runs and builds, whose types exist and are of that
    entity; but the mapping the instances are made from leaves them out, so that a
    profile with any such rule is neither created nor updated, and nothing
    changes. *)
Theorem left_out_refused project p r w (Hh : honest_faults w) (Hr : r ∈ left_out p) :
  (is_ok (handle_CreateProfile project p w).2 = false ∧
   w_db (handle_CreateProfile project p w).1 = w_db w) ∧
  (is_ok (handle_UpdateProfile project p w).2 = false ∧
   w_db (handle_UpdateProfile project p w).1 = w_db w).
Proof.
  split.
  - apply bind_refused; [|done|].
    { destruct (Profile_Validate p); [apply reads_throw|apply reads_ret]. }
    intros w1 _ Hh1 <-. apply refused_transaction_after; [apply reads_ValidateProject| |done].
    intros. by eapply create_left_out.
  - apply refused_transaction_after; [apply reads_ValidateProject| |done].
    intros. by eapply update_left_out.
Qed.
End limits.

(** ** Witnesses *)

Section witness.
#[local] Existing Instance decimal_uuid.
#[local] Existing Instance counter_uuid.
#[local] Existing Instance ex_lower.
#[local] Existing Instance plain_rules.
#[local] Existing Instance ex_record.
#[local] Existing Instance ex_selection_checker.
#[local] Existing Instance ex_structpb.
#[local] Existing Instance ex_message_json.

(** Rule types are for builds. *)
Definition build_library : RuleTypeLib :=
  {| definition_Unmarshal := λ s, inl
       {| def_InEntity := "build"; def_RuleSchema := Some ∅; def_ParamSchema := None;
          def_Ingest := None; def_Eval := None; def_Remediate := None; def_Alert := None |};
     json_schema := unit; schema_Compile := λ _, inl tt; schema_Validate := λ _ _, None |}.

Definition build_profile : Profile :=
  set_entity_rules Entity_ENTITY_BUILD [plain_rule ("rule_type", "")] (ex_profile_pb []).

(** The profile is accepted by the validation. *)
Lemma left_out_refused_witness :
  is_ok (@ValidateAndExtractRules _ _ build_library 2%N build_profile (ex_world ex_profiles_db [])).2
    = true ∧
  is_ok (@handle_CreateProfile _ _ _ build_library _ _ _ _ _ 2%N build_profile
           (ex_world ex_profiles_db [])).2 = false.
Proof.
  split; [vm_compute; reflexivity|].
  refine (proj1 (proj1 (@left_out_refused _ _ _ build_library _ _ _ _ _ 2%N build_profile
    (plain_rule ("rule_type", "")) (ex_world ex_profiles_db []) _ _))).
  - intros e. cbn. by intros ?%not_elem_of_nil.
  - by left.
Defined.

#[local] Existing Instance ex_library.

(** A rule without a name, and one with the name the first one gets from its
    type: both are in the JSON, and one instance is left. *)
Example names_collapse :
  let w := (serve 2%N (RCreate (ex_profile_pb [plain_rule ("rule_type", "");
                                               plain_rule ("rule_type", "Rule type")]))
              (ex_world ex_profiles_db [])).1 in
  length <$> (omap (λ p, match rules_Unmarshal p with inl l => Some l | inr _ => None end)
    (map_to_list (entity_profiles (w_db w))).*2) = [2%nat] ∧
  size (rule_instances (w_db w)) = 1%nat.
Proof. vm_compute. done. Qed.
End witness.
