(* ===== verification/EntityHandlers.v ===== *)
(** * The handlers that find an entity and pass it on

    internal/entities/handlers/handler.go with the strategies of
    internal/entities/handlers/strategies/: a message names an entity, by its id
    or by what its provider calls it; a strategy finds, refreshes, creates or
    deletes it, and another makes the message that is forwarded. *)

From S2P Require Import Prelude GoErrors GoMonad GoStrings Uuid DbTypes EntityEvent Properties.
From S2P Require Import EntityMessage Database EntityModels Eea HistoryDb HistoryStore EntityDb.
From S2P Require Import PropertyService EntityService.
Local Open Scope string_scope.

(** ** handler.go *)

Definition errPrivateRepoNotAllowed : gerr :=
  ENew "handlers.errPrivateRepoNotAllowed" "private repositories are not allowed in this project".
Definition errArchivedRepoNotAllowed : gerr :=
  ENew "handlers.errArchivedRepoNotAllowed" "archived repositories are not evaluated".
Definition errPropsDoNotMatch : gerr :=
  ENew "handlers.errPropsDoNotMatch" "properties do not match".

(** A handler is a topic, its two strategies and the topic it forwards to; a
    strategy may find no entity, and make no message. *)
Record handleEntityAndDoBase := {
  refreshEntity : HandleEntityAndDoMessage → prog World (option EntityWithProperties);
  createMessage : option EntityWithProperties → prog World (option message);
  handlerName : string;
  forwardHandlerName : string;
}.

Section handler.
Context `{UuidLib} `{RandomUuid} `{ProtoJSON} `{MessageJSON} `{!PropertyJSON} `{ProviderManager}.

Definition matchPropertiesCheck (entMsg : HandleEntityAndDoMessage) (ewp : EntityWithProperties)
    : res unit :=
  match hm_MatchProps entMsg with
  | None => Ok tt
  | Some m =>
      let matchProps := default ∅ (NewProperties m false) in
      if forallb (λ p, Equal (Some p.2) (GetProperty (ewp_Properties ewp) p.1))
           (map_to_list matchProps)
      then Ok tt else Err errPropsDoNotMatch
  end.

Definition repoPrivateOrArchivedCheck (ewp : EntityWithProperties) : prog World unit :=
  let isRepo := bool_decide (em_Type (ewp_Entity ewp) = Entity_ENTITY_REPOSITORIES) in
  forbidden ← (if isRepo && GetBool (GetProperty (ewp_Properties ewp) RepoPropertyIsPrivate)
               then allowed ← ProjectAllowsPrivateRepos (ewp_ProjectID ewp); mret (negb allowed)
               else mret false);
  if forbidden : bool then throw errPrivateRepoNotAllowed
  else if isRepo && GetBool (GetProperty (ewp_Properties ewp) RepoPropertyIsArchived)
  then throw errArchivedRepoNotAllowed
  else mret tt.

Definition forwardEntityCheck (entMsg : HandleEntityAndDoMessage)
    (ewp : option EntityWithProperties) : prog World bool :=
  match ewp with
  | None => mret true
  | Some ewp =>
      match matchPropertiesCheck entMsg ewp with
      | Err err => if errors_Is (Some err) errPropsDoNotMatch then mret false else throw err
      | Panic m => lift (Panic m)
      | Ok _ =>
          r ← try (repoPrivateOrArchivedCheck ewp);
          match r with
          | inl _ => mret true
          | inr err => if errors_Is (Some err) errPrivateRepoNotAllowed ||
                          errors_Is (Some err) errArchivedRepoNotAllowed
                       then mret false else throw err
          end
      end
  end.

(** No error is returned: each is logged, and the message is done with. *)
Definition handleRefreshEntityAndDo (b : handleEntityAndDoBase) (msg : message)
    : prog World unit :=
  match ToEntityRefreshAndDo msg with
  | Err _ => mret tt
  | Panic m => lift (Panic m)
  | Ok entMsg =>
      ewp ← try (refreshEntity b entMsg);
      match ewp with
      | inr _ => mret tt
      | inl ewp =>
          forward ← try (forwardEntityCheck entMsg ewp);
          match forward with
          | inl true =>
              nextMsg ← try (createMessage b ewp);
              match nextMsg with
              | inl (Some nextMsg) => try (Publish (forwardHandlerName b) nextMsg);; mret tt
              | _ => mret tt
              end
          | _ => mret tt
          end
      end
  end.

(** ** strategies/message *)

Definition createEmpty (_ : option EntityWithProperties) : prog World (option message) :=
  mret None.

Definition toEntityInfoWrapper (ewp : option EntityWithProperties)
    : prog World (option message) :=
  match ewp with
  | None => throw (EText "entity with properties is nil")
  | Some ewp =>
      pbEnt ← wrapf "error converting entity to protobuf: "
                (service_EntityWithPropertiesAsProto ewp);
      m ← NewMessage "";
      match ToMessage (WithID (ewp_ID ewp) (WithProtoMessage (em_Type (ewp_Entity ewp)) (Some pbEnt)
              (WithProviderID (ewp_ProviderID ewp) (EntityEvent.WithProjectID (ewp_ProjectID ewp)
                 NewEntityInfoWrapper)))) m with
      | (m, None) => mret (Some m)
      | (_, Some err) => throw (EWrap "error converting entity to message: " err "")
      end
  end.

Definition toMinderEntity (ewp : option EntityWithProperties) : prog World (option message) :=
  match ewp with
  | None => throw (EText "entity with properties is nil")
  | Some ewp =>
      m ← NewMessage "";
      m ← wrapf "error converting entity to message: " (lift (event_ToMessage
            (event_WithEntityID (ewp_ID ewp) (event_WithEntityType (em_Type (ewp_Entity ewp))
               (event_WithProviderID (ewp_ProviderID ewp) (event_WithProjectID (ewp_ProjectID ewp)
                  NewMinderEvent)))) m));
      mret (Some m)
  end.

(** ** strategies/entity *)

Definition svc_hint (hint : EntityHint) : ByUpstreamHint :=
  let valid s := if String.eqb s "" then None else Some s in
  {| bh_ProviderImplements := valid (ProviderImplementsHint hint);
     bh_ProviderClass := valid (ProviderClassHint hint) |}.

Definition getEntityInner (entType : Entity) (entPropMap : anymap) (hint : EntityHint)
    : prog World EntityWithProperties :=
  wrapf "error searching entity by ID: "
    (EntityWithPropertiesByUpstreamHint entType (NewProperties (default ∅ entPropMap) false)
       (svc_hint hint)).

Definition of_entity (p : TypedProps) (hint : EntityHint) : prog World EntityWithProperties :=
  getEntityInner (tp_Type p) (tp_GetByProps p) hint.

Definition getEntityByUpstreamID (entMsg : HandleEntityAndDoMessage)
    : prog World (option EntityWithProperties) :=
  ewp ← of_entity (hm_Entity entMsg) (hm_Hint entMsg); mret (Some ewp).

Section refresh.
Context (entityTimeout : Z).

(** Inside a transaction: the entity, then its properties. *)
Definition refresh_in_transaction (what : string) (get : prog World EntityWithProperties)
    : prog World EntityWithProperties :=
  ewp ← wrapf "error getting entity: " get;
  wrapf what (RetrieveAllPropertiesForEntity entityTimeout ewp
                {| ro_transaction := true; ro_tolerateStaleData := false |}).

Definition refreshEntityByID (entMsg : HandleEntityAndDoMessage)
    : prog World (option EntityWithProperties) :=
  if (tp_EntityID (hm_Entity entMsg) =? uuid_Nil)%N then throw (EText "entity id is nil")
  else
    ewp ← wrapf "error refreshing entity: " (WithTransaction
      (refresh_in_transaction "error retrieving properties for entity: "
         (service_EntityWithPropertiesByID (tp_EntityID (hm_Entity entMsg)))));
    mret (Some ewp).

Definition refreshEntityByUpstreamProps (entMsg : HandleEntityAndDoMessage)
    : prog World (option EntityWithProperties) :=
  ewp ← wrapf "error refreshing entity: " (WithTransaction
    (refresh_in_transaction "error fetching entity: "
       (of_entity (hm_Entity entMsg) (hm_Hint entMsg))));
  mret (Some ewp).
End refresh.

Definition addOriginatingEntity (validators : validatorRegistry)
    (entMsg : HandleEntityAndDoMessage) : prog World (option EntityWithProperties) :=
  let childProps := NewProperties (default ∅ (tp_GetByProps (hm_Entity entMsg))) false in
  parentEwp ← wrapf "error getting parent entity: "
                (of_entity (hm_Originator entMsg) (hm_Hint entMsg));
  provider ← wrapf "error getting provider: " (GetProviderByID (ewp_ProviderID parentEwp));
  childEwp ← wrapf "error creating entity: "
    (CreateEntity validators (ewp_ProviderID parentEwp, provider) (ewp_ProjectID parentEwp)
       (tp_Type (hm_Entity entMsg)) childProps
       (Some {| co_OriginatingEntityID := Some (ewp_ID parentEwp);
                co_RegisterWithProvider := false; co_PublishReconciliationEvent := false |}));
  mret (Some childEwp).

Definition delOriginatingEntity (entMsg : HandleEntityAndDoMessage)
    : prog World (option EntityWithProperties) :=
  in_transaction
    (wrapf "error getting parent entity: " (of_entity (hm_Originator entMsg) (hm_Hint entMsg));;
     childEwp ← wrapf "error getting parent entity: " (of_entity (hm_Entity entMsg) (hm_Hint entMsg));
     r ← try (DeleteEntity (ewp_ID childEwp) (ewp_ProjectID childEwp));
     match r with
     | inl _ => mret tt
     | inr err => if errors_Is (Some err) ErrNoRows then mret tt else throw err
     end);;
  mret None.

(** ** The handlers of the server *)

Definition TopicQueueOriginatingEntityAdd : string := "originating.entity.add.event".
Definition TopicQueueOriginatingEntityDelete : string := "originating.entity.delete.event".
Definition TopicQueueGetEntityAndDelete : string := "get.entity.delete.event".
Definition TopicQueueRefreshEntityAndEvaluate : string := "refresh.entity.evaluate.event".

Definition NewRefreshByIDAndEvaluateHandler (entityTimeout : Z) : handleEntityAndDoBase :=
  {| refreshEntity := refreshEntityByID entityTimeout; createMessage := toEntityInfoWrapper;
     handlerName := TopicQueueRefreshEntityByIDAndEvaluate;
     forwardHandlerName := TopicQueueEntityEvaluate |}.

Definition NewRefreshEntityAndEvaluateHandler (entityTimeout : Z) : handleEntityAndDoBase :=
  {| refreshEntity := refreshEntityByUpstreamProps entityTimeout;
     createMessage := toEntityInfoWrapper;
     handlerName := TopicQueueRefreshEntityAndEvaluate;
     forwardHandlerName := TopicQueueEntityEvaluate |}.

Definition NewGetEntityAndDeleteHandler : handleEntityAndDoBase :=
  {| refreshEntity := getEntityByUpstreamID; createMessage := toMinderEntity;
     handlerName := TopicQueueGetEntityAndDelete;
     forwardHandlerName := TopicQueueReconcileEntityDelete |}.

Definition NewAddOriginatingEntityHandler (validators : validatorRegistry)
    : handleEntityAndDoBase :=
  {| refreshEntity := addOriginatingEntity validators; createMessage := toEntityInfoWrapper;
     handlerName := TopicQueueOriginatingEntityAdd;
     forwardHandlerName := TopicQueueEntityEvaluate |}.

Definition NewRemoveOriginatingEntityHandler : handleEntityAndDoBase :=
  {| refreshEntity := delOriginatingEntity; createMessage := createEmpty;
     handlerName := TopicQueueOriginatingEntityDelete; forwardHandlerName := "" |}.
End handler.

(** ** Lemmas *)

(** What may be passed on: an entity with the properties the message asks for
    that is no archived repository, nor a private one the project may not have. *)
Definition may_forward `{Structpb} (d : Db) (entMsg : HandleEntityAndDoMessage)
    (ewp : EntityWithProperties) : bool :=
  is_ok (matchPropertiesCheck entMsg ewp) &&
  (negb (bool_decide (em_Type (ewp_Entity ewp) = Entity_ENTITY_REPOSITORIES)) ||
   (negb (GetBool (GetProperty (ewp_Properties ewp) RepoPropertyIsPrivate)) ||
    bool_decide ((ewp_ProjectID ewp, privateReposEnabledFlag) ∈ entitlements d)) &&
   negb (GetBool (GetProperty (ewp_Properties ewp) RepoPropertyIsArchived))).

Section lemmas.
Context `{UuidLib} `{RandomUuid} `{ProtoJSON} `{MessageJSON} `{!PropertyJSON} `{ProviderManager}.

Lemma matchPropertiesCheck_cases entMsg ewp :
  matchPropertiesCheck entMsg ewp = Ok tt ∨ matchPropertiesCheck entMsg ewp = Err errPropsDoNotMatch.
Proof.
  unfold matchPropertiesCheck. destruct (hm_MatchProps entMsg); [|by left].
  destruct (forallb _ _); [by left|by right].
Qed.

Lemma repoCheck_run ewp w :
  let private := GetBool (GetProperty (ewp_Properties ewp) RepoPropertyIsPrivate) in
  let archived := GetBool (GetProperty (ewp_Properties ewp) RepoPropertyIsArchived) in
  ∃ w' r, repoPrivateOrArchivedCheck ewp w = (w', r) ∧ w_db w' = w_db w ∧
    (r = Ok tt ∨ r = Err errPrivateRepoNotAllowed ∨ r = Err errArchivedRepoNotAllowed) ∧
    ∃ b, is_ok r = negb (bool_decide (em_Type (ewp_Entity ewp) = Entity_ENTITY_REPOSITORIES)) ||
                   (negb private || b) && negb archived ∧
      (b = true → (ewp_ProjectID ewp, privateReposEnabledFlag) ∈ entitlements (w_db w)) ∧
      (w_faults w = [] → w' = w ∧
         b = bool_decide ((ewp_ProjectID ewp, privateReposEnabledFlag) ∈ entitlements (w_db w))).
Proof.
  cbv zeta. unfold repoPrivateOrArchivedCheck.
  set (known := bool_decide ((ewp_ProjectID ewp, privateReposEnabledFlag) ∈ entitlements (w_db w))).
  assert (Hknown : known = true →
    (ewp_ProjectID ewp, privateReposEnabledFlag) ∈ entitlements (w_db w))
    by apply bool_decide_eq_true.
  case_bool_decide; simpl; [|exists w, (Ok tt); split_and!; [done|done|by left|by exists known]].
  destruct (GetBool (GetProperty _ RepoPropertyIsPrivate)); simpl.
  - destruct (allows_run (ewp_ProjectID ewp) w) as (w1 & b & Ha & Hd & Hok & Hfree).
    unfold mbind, prog_bind. rewrite Ha. simpl. destruct b; simpl.
    + destruct (GetBool (GetProperty _ RepoPropertyIsArchived)); eexists _, _;
        (split_and!; [reflexivity|done|by auto|]); by exists true.
    + eexists _, _. split_and!; [reflexivity|done|by auto|]. by exists false.
  - destruct (GetBool (GetProperty _ RepoPropertyIsArchived)); eexists _, _;
      (split_and!; [reflexivity|done|by auto|]); by exists known.
Qed.

Lemma forwardEntityCheck_run entMsg ewp w :
  ∃ w' b, forwardEntityCheck entMsg (Some ewp) w = (w', Ok b) ∧ w_db w' = w_db w ∧
    (b = true → may_forward (w_db w) entMsg ewp = true) ∧
    (w_faults w = [] → w' = w ∧ b = may_forward (w_db w) entMsg ewp).
Proof.
  unfold forwardEntityCheck, may_forward.
  destruct (matchPropertiesCheck_cases entMsg ewp) as [->| ->]; simpl is_ok; cbv iota beta.
  2:{ exists w, false. split_and!; done. }
  destruct (repoCheck_run ewp w) as (w' & r & Hrun & Hd & Hr & b & Hb & Hok & Hfree).
  unfold mbind, prog_bind, try. rewrite Hrun. exists w', (is_ok r). split_and!.
  - by destruct Hr as [->|[->| ->]].
  - done.
  - rewrite Hb. simpl. destruct (bool_decide (em_Type _ = _)); simpl; [|done].
    destruct b; [|by destruct (negb (GetBool _))]. rewrite bool_decide_eq_true_2 by by apply Hok.
    done.
  - intros Hf. destruct (Hfree Hf) as [-> ->]. done.
Qed.

(** Nothing is passed on that must not be.  The check answers for every
    entity and writes nothing; whichever statement fails, an entity it lets
    through has the properties the message asks for, is no archived repository,
    and is no private one unless its project may have them; with a working
    connection it lets through all of these. *)
Theorem forwarded_entities_allowed entMsg ewp w :
  ∃ w' b, forwardEntityCheck entMsg (Some ewp) w = (w', Ok b) ∧ w_db w' = w_db w ∧
    (b = true → may_forward (w_db w) entMsg ewp = true) ∧
    (w_faults w = [] → b = may_forward (w_db w) entMsg ewp).
Proof.
  destruct (forwardEntityCheck_run entMsg ewp w) as (w' & b & Hrun & Hd & Hok & Hfree).
  exists w', b. split_and!; [done..|]. by intros [_ ?]%Hfree.
Qed.

(** A repository that was archived is never deleted again.  The check that
    keeps archived repositories from being evaluated is also run on the way to a
    deletion: when the provider reports that such a repository is gone, the
    message is dropped without an error, and neither the tables nor the queue of
    deletions change. *)
Theorem archived_deletion_dropped entMsg ewp msg w
    (Hf : w_faults w = []) (Hmsg : ToEntityRefreshAndDo msg = Ok entMsg)
    (Hfound : of_entity (hm_Entity entMsg) (hm_Hint entMsg) w = (w, Ok ewp))
    (Hrepo : em_Type (ewp_Entity ewp) = Entity_ENTITY_REPOSITORIES)
    (Harch : GetBool (GetProperty (ewp_Properties ewp) RepoPropertyIsArchived) = true) :
  handleRefreshEntityAndDo NewGetEntityAndDeleteHandler msg w = (w, Ok tt).
Proof.
  unfold handleRefreshEntityAndDo. rewrite Hmsg. simpl refreshEntity.
  assert (Hget : getEntityByUpstreamID entMsg w = (w, Ok (Some ewp))).
  { unfold getEntityByUpstreamID. by rewrite (prog_bind_run _ _ _ _ _ Hfound). }
  unfold mbind, prog_bind, try. rewrite Hget.
  destruct (forwardEntityCheck_run entMsg ewp w) as (w' & b & Hrun & _ & _ & Hfree).
  destruct (Hfree Hf) as [-> ->]. rewrite Hrun. unfold may_forward.
  rewrite Harch, bool_decide_eq_true_2 by done. simpl. by rewrite !andb_false_r.
Qed.

(** *** From the message to the event *)

(** A provider that answers: it tells of the properties [f], which can be
    stored, and makes a message of an entity that can be sent. *)
Record provider_answers (prov : ProviderOps) (t : Entity) (f : gmap string Value) : Prop := {
  pa_fetch : ∀ lookup model w, w_faults w = [] →
    FetchAllProperties prov lookup t model w = (w, Ok (Some f));
  pa_storable : map_Forall (λ _ v, storable v) f;
  pa_message : ∀ props, ∃ pm s, PropertiesToProtoMessage prov t (Some props) = Ok pm ∧
    pm_kind pm = kind_of_type t ∧ protojson_Marshal pm = inl s;
}.

Lemma refreshProperties_runs prov t f id lookup model opts w :
  w_faults w = [] → provider_answers prov t f → id ≠ uuid_Nil →
  is_Some (entity_instances (w_db w) !! id) → ro_transaction opts = true →
  ∃ w', refreshProperties prov id lookup t model opts w = (w', Ok (Some f)) ∧
    w_faults w' = [] ∧ w_published w' = w_published w ∧ touches id w w' ∧ stored (w_db w') id f.
Proof.
  intros Hf Hp Hid He Htx. unfold refreshProperties, mbind, prog_bind, try.
  rewrite (pa_fetch _ _ _ Hp) by done. rewrite (proj2 (N.eqb_neq _ _)) by done.
  rewrite Htx. unfold ReplaceAllProperties, wrapf.
  destruct (replaceAll_runs id f w Hf He (pa_storable _ _ _ Hp)) as (w' & Hrun & Hf').
  destruct (replaceAll_Ok _ _ _ _ Hrun) as (m & [= <-] & Ht & Hst).
  rewrite Hrun. exists w'. split_and!; [done|done| |done|done].
  pose proof (replaceAll_messages (w_published w) id f w eq_refl) as Hm. by rewrite Hrun in Hm.
Qed.

(** A refresh reads the rows of the entity while they are all fresh, and replaces
    them with the answer of the provider otherwise: the properties it gives. *)
Definition refresh_options : ReadOptions :=
  {| ro_transaction := true; ro_tolerateStaleData := false |}.

Definition rows_fresh (entityTimeout : Z) (id : UUID) (w : World) : bool :=
  cache_valid entityTimeout (w_now w) (cached_rows (w_db w) id) refresh_options.

Definition refreshed_props (entityTimeout : Z) (id : UUID) (m f : gmap string Value) (w : World)
    : gmap string Value :=
  if rows_fresh entityTimeout id w
  then filter (λ kv, Strings.HasPrefix kv.1 internalPrefix = false) m else f.

Definition refreshed_rows (entityTimeout : Z) (id : UUID) (f : gmap string Value) (w w' : World)
    : Prop :=
  if rows_fresh entityTimeout id w then w_db w' = w_db w
  else touches id w w' ∧ stored (w_db w') id f.

Lemma refreshed_rows_touches entityTimeout id f w w' :
  refreshed_rows entityTimeout id f w w' → touches id w w'.
Proof. unfold refreshed_rows. destruct (rows_fresh _ _ _); [apply touches_refl|by intros [? _]]. Qed.

Lemma retrieve_runs entityTimeout prov t f id m lookup w :
  w_faults w = [] → provider_answers prov t f → id ≠ uuid_Nil →
  is_Some (entity_instances (w_db w) !! id) →
  stored (w_db w) id m → map_Forall (λ _ v, storable v) m →
  ∃ w', retrieveAllPropertiesForEntity entityTimeout prov id lookup t refresh_options w
      = (w', Ok (Some (refreshed_props entityTimeout id m f w))) ∧
    w_faults w' = [] ∧ w_published w' = w_published w ∧ refreshed_rows entityTimeout id f w w'.
Proof.
  intros Hf Hp Hid He Hst Hm.
  unfold retrieveAllPropertiesForEntity, refreshed_props, refreshed_rows, rows_fresh, cache_valid.
  destruct (cached_read id w) as (fs & r0 & Hr0 & _ & Hread).
  destruct (Hr0 Hf) as [-> ->].
  assert (Hset : set_faults [] w = w) by (destruct w; simpl in *; by rewrite Hf).
  rewrite Hset in Hread. rewrite (prog_bind_run _ _ _ _ _ Hread).
  unfold cached_rows. rewrite (proj2 (N.eqb_neq _ _)) by done.
  pose proof (stored_read _ _ _ Hst Hm) as Hmodel.
  assert (Hfetch : ∀ model, ∃ w', refreshProperties prov id lookup t model refresh_options w
      = (w', Ok (Some f)) ∧ w_faults w' = [] ∧ w_published w' = w_published w ∧
        touches id w w' ∧ stored (w_db w') id f).
  { intros model. by apply refreshProperties_runs. }
  destruct (properties_of (w_db w) id) as [|row rows].
  { apply Hfetch. }
  unfold mbind, prog_bind, wrapf, lift, gets. rewrite Hmodel. simpl wrapf_res. cbv iota beta.
  destruct (areDatabasePropertiesValid _ _ _ _); [|apply Hfetch].
  by exists w.
Qed.

Lemma refreshEntityByID_runs entityTimeout id ent m f prov entMsg w :
  w_faults w = [] → tp_EntityID (hm_Entity entMsg) = id → id ≠ uuid_Nil →
  entity_instances (w_db w) !! id = Some ent →
  stored (w_db w) id m → map_Forall (λ _ v, storable v) m →
  utf8_ValidString (ei_Name ent) = true →
  (∀ w, w_faults w = [] → InstantiateFromID (ei_ProviderID ent) w = (w, Ok prov)) →
  provider_answers prov (EntityTypeFromDB (ei_EntityType ent)) f →
  ∃ w', refreshEntityByID entityTimeout entMsg w
      = (w', Ok (Some (NewEntityWithProperties id ent
                         (Some (refreshed_props entityTimeout id m f w))))) ∧
    w_faults w' = [] ∧ w_published w' = w_published w ∧ refreshed_rows entityTimeout id f w w'.
Proof.
  intros Hf Hmsg Hid He Hst Hm Hname Hprov Hans. unfold refreshEntityByID. rewrite Hmsg.
  rewrite (proj2 (N.eqb_neq _ _)) by done.
  pose proof (read_entity id ent m w Hf He Hst Hm Hname) as Hread.
  set (ewp := NewEntityWithProperties id ent (Some (read_back_props m (ei_Name ent)))) in *.
  destruct (retrieve_runs entityTimeout prov (EntityTypeFromDB (ei_EntityType ent)) f id m
    (ewp_Properties ewp) w)
    as (w' & Hrun & Hf' & Hpub & Ht); try done.
  exists w'. split_and!; [|done..].
  assert (Htx : refresh_in_transaction entityTimeout "error retrieving properties for entity: "
      (service_EntityWithPropertiesByID id) w
    = (w', Ok (NewEntityWithProperties id ent (Some (refreshed_props entityTimeout id m f w))))).
  { unfold refresh_in_transaction.
    rewrite (prog_bind_run _ _ _ _ _ (proj2 (wrapf_Ok _ _ _ _ _) Hread)). apply wrapf_Ok.
    unfold RetrieveAllPropertiesForEntity.
    rewrite (prog_bind_run _ _ _ _ _ (proj2 (wrapf_Ok _ _ _ _ _) (Hprov w Hf))).
    by rewrite (prog_bind_run _ _ _ _ _ (proj2 (wrapf_Ok _ _ _ _ _) Hrun)). }
  by rewrite (prog_bind_run _ _ _ _ _ (proj2 (wrapf_Ok _ _ _ _ _)
    (WithTransaction_runs _ _ _ _ Hf Htx Hf'))).
Qed.

Lemma toEntityInfoWrapper_runs id ent props prov f w :
  w_faults w = [] → id ≠ uuid_Nil → ei_ProjectID ent ≠ uuid_Nil → ei_ProviderID ent ≠ uuid_Nil →
  IsValid (EntityTypeFromDB (ei_EntityType ent)) = true →
  (∀ w, w_faults w = [] → InstantiateFromID (ei_ProviderID ent) w = (w, Ok prov)) →
  provider_answers prov (EntityTypeFromDB (ei_EntityType ent)) f →
  ∃ w' m out pm, toEntityInfoWrapper (Some (NewEntityWithProperties id ent (Some props))) w
      = (w', Ok (Some m)) ∧ w_faults w' = [] ∧ w_db w' = w_db w ∧ w_published w' = w_published w ∧
    ParseEntityEvent m = Ok out ∧ GetID (Some out) = Ok id ∧ eiw_ProjectID out = ei_ProjectID ent ∧
    eiw_ProviderID out = ei_ProviderID ent ∧ eiw_Type out = EntityTypeFromDB (ei_EntityType ent) ∧
    PropertiesToProtoMessage prov (EntityTypeFromDB (ei_EntityType ent)) (Some props) = Ok pm ∧
    eiw_Entity out = Some pm.
Proof.
  intros Hf Hid Hproj Hpid Hvalid Hprov Hans.
  destruct (pa_message _ _ _ Hans props) as (pm & s & Hpm & Hkind & Hs).
  assert (Hproto : service_EntityWithPropertiesAsProto
      (NewEntityWithProperties id ent (Some props)) w = (w, Ok pm)).
  { unfold service_EntityWithPropertiesAsProto.
    rewrite (prog_bind_run _ _ _ _ _ (proj2 (wrapf_Ok _ _ _ _ _) (Hprov w Hf))).
    unfold lift. simpl. by rewrite Hpm. }
  unfold toEntityInfoWrapper.
  rewrite (prog_bind_run _ _ _ _ _ (proj2 (wrapf_Ok _ _ _ _ _) Hproto)).
  unfold mbind, prog_bind, NewMessage. simpl ewp_Entity. simpl em_ID.
  match goal with |- context [ToMessage ?e ?m0] =>
    destruct (ToMessage_roundtrip e m0 pm s) as (m & Hm & Hparse & Hget & _); [done..|] end.
  rewrite Hm. eexists _, m, _, pm.
  split_and!; [reflexivity|done|done|done|exact Hparse|exact Hget|..]; done.
Qed.

(** C24: an entity that is to be looked at again is looked at.  With a working
    connection and a provider that answers, the request that a reminder, a
    reconciliation or a new profile publishes reads the properties of the entity
    while its rows are fresh, and replaces its rows, and no others, with the
    answer of the provider when they are not.  If the entity with these
    properties may be passed on, exactly one event is published, to the
    executor: it is read back as that entity, with its project, its provider and
    its type, and with the message the provider makes of these properties.  An
    archived repository, and a private one the project may not have, is not
    passed on, and then nothing is published. *)
Theorem refresh_delivers_event entityTimeout id ent m f prov msg w
    (Hf : w_faults w = [])
    (Hmsg : ToEntityRefreshAndDo msg = Ok (WithEntityID id NewEntityRefreshAndDoMessage))
    (Hid : id ≠ uuid_Nil) (He : entity_instances (w_db w) !! id = Some ent)
    (Hproj : ei_ProjectID ent ≠ uuid_Nil) (Hpid : ei_ProviderID ent ≠ uuid_Nil)
    (Hvalid : IsValid (EntityTypeFromDB (ei_EntityType ent)) = true)
    (Hst : stored (w_db w) id m) (Hm : map_Forall (λ _ v, storable v) m)
    (Hname : utf8_ValidString (ei_Name ent) = true)
    (Hprov : ∀ w, w_faults w = [] → InstantiateFromID (ei_ProviderID ent) w = (w, Ok prov))
    (Hans : provider_answers prov (EntityTypeFromDB (ei_EntityType ent)) f) :
  let props := refreshed_props entityTimeout id m f w in
  let t := EntityTypeFromDB (ei_EntityType ent) in
  ∃ w', handleRefreshEntityAndDo (NewRefreshByIDAndEvaluateHandler entityTimeout) msg w
      = (w', Ok tt) ∧ refreshed_rows entityTimeout id f w w' ∧
    if may_forward (w_db w) (WithEntityID id NewEntityRefreshAndDoMessage)
         (NewEntityWithProperties id ent (Some props))
    then ∃ event out pm, w_published w' = (w_published w ++ [(TopicQueueEntityEvaluate, event)])%list ∧
      ParseEntityEvent event = Ok out ∧ GetID (Some out) = Ok id ∧
      eiw_ProjectID out = ei_ProjectID ent ∧ eiw_ProviderID out = ei_ProviderID ent ∧
      eiw_Type out = t ∧ PropertiesToProtoMessage prov t (Some props) = Ok pm ∧
      eiw_Entity out = Some pm
    else w_published w' = w_published w.
Proof.
  intros props t.
  destruct (refreshEntityByID_runs entityTimeout id ent m f prov
    (WithEntityID id NewEntityRefreshAndDoMessage) w Hf eq_refl Hid He Hst Hm Hname Hprov Hans)
    as (w1 & Hrun & Hf1 & Hpub1 & Hrows). fold props in Hrun.
  pose proof (refreshed_rows_touches _ _ _ _ _ Hrows) as Ht.
  set (entMsg := WithEntityID id NewEntityRefreshAndDoMessage) in *.
  set (ewp := NewEntityWithProperties id ent (Some props)) in *.
  unfold handleRefreshEntityAndDo. rewrite Hmsg. simpl refreshEntity.
  unfold mbind at 1, prog_bind at 1, try at 1. rewrite Hrun. cbv iota beta.
  destruct (forwardEntityCheck_run entMsg ewp w1) as (w2 & b & Hcheck & _ & _ & Hfree).
  destruct (Hfree Hf1) as [-> ->]. unfold mbind at 1, prog_bind at 1, try at 1. rewrite Hcheck.
  assert (Hsame : may_forward (w_db w1) entMsg ewp = may_forward (w_db w) entMsg ewp).
  { destruct Ht as (t' & -> & _). done. }
  rewrite Hsame. destruct (may_forward (w_db w) entMsg ewp) eqn:Hmay.
  2:{ by exists w1. }
  destruct (toEntityInfoWrapper_runs id ent props prov f w1 Hf1 Hid Hproj Hpid Hvalid Hprov Hans)
    as (w2 & event & out & pm & Hev & Hf2 & Hd2 & Hpub2 & Hparse).
  fold ewp in Hev. cbn [createMessage NewRefreshByIDAndEvaluateHandler forwardHandlerName].
  unfold mbind at 1, prog_bind at 1, try at 1. rewrite Hev. unfold mbind, prog_bind, try.
  unfold Publish. rewrite query_ok by done. eexists. split_and!; [reflexivity| |].
  - unfold refreshed_rows, touches in *. cbn. by rewrite Hd2.
  - exists event, out, pm. split; [|exact Hparse]. simpl. by rewrite Hpub2, Hpub1.
Qed.
End lemmas.

(** ** Witnesses *)

Definition ex_archived : gmap string Value :=
  {["is_archived" := BoolValue true; "upstream_id" := StringValue "42"]}.

Lemma ex_archived_storable : map_Forall (λ _ v, @storable ex_structpb v) ex_archived.
Proof. unfold ex_archived. apply map_Forall_insert_2; [done|]. by apply map_Forall_singleton. Qed.

Section witnesses.
#[local] Existing Instance decimal_uuid.
#[local] Existing Instance counter_uuid.
#[local] Existing Instance plain_protojson.
#[local] Existing Instance ex_structpb.
#[local] Existing Instance ex_message_json.
#[local] Existing Instance ex_property_json.
#[local] Instance ex_public_manager : ProviderManager := ex_manager ex_public.

(** The repository of the id 42 is gone. *)
Definition ex_gone : HandleEntityAndDoMessage :=
  WithProviderImplementsHint "github"
    (WithEntity Entity_ENTITY_REPOSITORIES
       (Some {["upstream_id" := StringValue "42"]}) NewEntityRefreshAndDoMessage).

Lemma ex_gone_found :
  of_entity (hm_Entity ex_gone) (hm_Hint ex_gone) (ex_with ex_archived)
  = (ex_with ex_archived, Ok (NewEntityWithProperties 7%N ex_app
       (Some (read_back_props ex_archived "acme/app")))).
Proof.
  destruct (ex_with_stored ex_archived ex_archived_storable) as (Hf & Hst & _).
  unfold of_entity, getEntityInner. apply wrapf_Ok.
  change (default ∅ (tp_GetByProps (hm_Entity ex_gone)))
    with (AsInterface <$> ({["upstream_id" := StringValue "42"]} : gmap string Value)).
  assert (Hmap : map_Forall (λ _ v, @storable ex_structpb v)
      ({["upstream_id" := StringValue "42"]} : gmap string Value)).
  { apply map_Forall_singleton. done. }
  rewrite (NewProperties_storable _ false Hmap).
  apply read_by_hint; [exact Hf|done| | |exact Hst|exact ex_archived_storable|done].
  - apply map_Forall_lookup_2. intros k v [Hv _]%map_lookup_filter_Some.
    apply lookup_singleton_Some in Hv as [_ <-]. done.
  - vm_compute. reflexivity.
Qed.

Lemma archived_deletion_dropped_witness :
  ∃ s, handleRefreshEntityAndDo NewGetEntityAndDeleteHandler
      {| msg_UUID := "1"; msg_Metadata := ∅; msg_Payload := s |} (ex_with ex_archived)
    = (ex_with ex_archived, Ok tt).
Proof.
  destruct (do_json_roundtrip ex_gone) as (s & _ & Hs).
  { repeat split; unfold ex_gone in *; simpl in *;
      apply lookup_fmap_Some in H as (x' & <- & Hx');
      change (({["upstream_id" := StringValue "42"]} : gmap string Value) !! i = Some x') in Hx';
      apply lookup_singleton_Some in Hx' as [<- <-]; done. }
  exists s. apply (archived_deletion_dropped ex_gone (NewEntityWithProperties 7%N ex_app
       (Some (read_back_props ex_archived "acme/app")))).
  - exact (proj1 (ex_with_stored ex_archived ex_archived_storable)).
  - unfold ToEntityRefreshAndDo. cbn [msg_Payload]. rewrite Hs. reflexivity.
  - exact ex_gone_found.
  - reflexivity.
  - reflexivity.
Defined.

(** The entity 7 is refreshed and evaluated: it is a public repository. *)
Lemma ex_public_storable : map_Forall (λ _ v, storable v) ex_public.
Proof.
  unfold ex_public. do 2 (apply map_Forall_insert_2; [done|]). by apply map_Forall_singleton.
Qed.

Lemma ex_hooked_answers : provider_answers (ex_hooked ex_public) Entity_ENTITY_REPOSITORIES ex_public.
Proof.
  split; [done|exact ex_public_storable|]. intros props. by eexists _, "repo".
Qed.

(** An hour later its rows are old: they are replaced, and the event is published. *)
Definition ex_later : World :=
  let w := ex_with ex_public in
  {| w_db := w_db w; w_now := w_now w + 3600; w_fresh := w_fresh w; w_faults := w_faults w;
     w_published := w_published w |}.

Lemma refresh_delivers_event_witness :
  ∃ s w', handleRefreshEntityAndDo (NewRefreshByIDAndEvaluateHandler 60)
      {| msg_UUID := "1"; msg_Metadata := ∅; msg_Payload := s |} ex_later
      = (w', Ok tt) ∧
    rows_fresh 60 7%N ex_later = false ∧ stored (w_db w') 7%N ex_public ∧
    ∃ event out, w_published w' = [(TopicQueueEntityEvaluate, event)] ∧
      ParseEntityEvent event = Ok out ∧ GetID (Some out) = Ok 7%N.
Proof.
  destruct (do_json_roundtrip (WithEntityID 7%N NewEntityRefreshAndDoMessage)) as (s & _ & Hs);
    [by repeat split|].
  destruct (ex_with_stored ex_public ex_public_storable) as (Hf & Hst & _).
  set (msg := {| msg_UUID := "1"; msg_Metadata := ∅; msg_Payload := s |}).
  assert (Hmsg : ToEntityRefreshAndDo msg = Ok (WithEntityID 7%N NewEntityRefreshAndDoMessage)).
  { unfold ToEntityRefreshAndDo, msg. cbn [msg_Payload]. rewrite Hs. reflexivity. }
  assert (Hold : rows_fresh 60 7%N ex_later = false) by (by vm_compute).
  destruct (refresh_delivers_event 60 7%N ex_app ex_public ex_public (ex_hooked ex_public) msg
    ex_later Hf Hmsg) as (w' & Hrun & Hrows & Hev).
  - discriminate.
  - reflexivity.
  - discriminate.
  - discriminate.
  - reflexivity.
  - exact Hst.
  - exact ex_public_storable.
  - reflexivity.
  - done.
  - exact ex_hooked_answers.
  - exists s, w'. split; [exact Hrun|]. split; [exact Hold|].
    unfold refreshed_rows in Hrows. unfold refreshed_props in Hev. rewrite Hold in Hrows, Hev.
    split; [exact (proj2 Hrows)|].
    assert (Hmay : may_forward (w_db ex_later) (WithEntityID 7%N NewEntityRefreshAndDoMessage)
      (NewEntityWithProperties 7%N ex_app (Some ex_public)) = true) by (by vm_compute).
    rewrite Hmay in Hev. destruct Hev as (event & out & pm & Hpub & Hparse & Hget & _).
    exists event, out. exact (conj Hpub (conj Hparse Hget)).
Defined.
End witnesses.
