(* ===== verification/HistoryPurge.v ===== *)
(** * Purging old evaluations: cmd/server/app/history_purge.go

    The statuses older than a threshold that are not the latest of their rule
    entity are listed once and deleted in batches, one transaction each.  The
    loop runs on fuel, one unit per batch. *)

From S2P Require Import Prelude GoErrors GoMonad Uuid DbTypes Database HistoryDb HistoryStore.

(** [Size: int32(4000000)] *)
Definition purge_limit : Z := 4000000%Z.

Definition delete_batch (ids : list UUID) : prog World Z :=
  wrapf "error while deleting old evaluations: "
    (WithTransaction (DeleteEvaluationHistoryByIDs ids)).

(** [batchSize] is unsigned; it shrinks to the number of records left. *)
Definition next_batch (batchSize : nat) (records : list StaleRow) : nat :=
  if (length records <? batchSize)%nat then length records else batchSize.

Fixpoint delete_loop (fuel batchSize : nat) (records : list StaleRow) (deleted : Z)
    (w : World) : option (World * res Z) :=
  match records with
  | [] => Some (w, Ok deleted)
  | _ :: _ =>
      match fuel with
      | O => None
      | S fuel =>
          let n := next_batch batchSize records in
          match delete_batch (sr_ID <$> take n records) w with
          | (w', Ok partial) => delete_loop fuel n (drop n records) (deleted + partial)%Z w'
          | (w', Err e) => Some (w', Err e)
          | (w', Panic m) => Some (w', Panic m)
          end
      end
  end.

Definition deleteEvaluationHistory (fuel : nat) (records : list StaleRow) (batchSize : nat)
    : World → option (World * res Z) :=
  delete_loop fuel batchSize records 0.

(** The number of deleted records is logged. *)
Definition purgeLoop (fuel : nat) (threshold : Z) (batchSize : nat) (dryRun : bool)
    (w : World) : option (World * res Z) :=
  match wrapf "error purging evaluation history: "
          (ListEvaluationHistoryStaleRecords threshold purge_limit) w with
  | (w1, Ok records) =>
      match records with
      | [] => Some (w1, Ok 0%Z)
      | _ => if dryRun then Some (w1, Ok 0%Z)
             else deleteEvaluationHistory fuel records batchSize w1
      end
  | (w1, Err e) => Some (w1, Err e)
  | (w1, Panic m) => Some (w1, Panic m)
  end.

(** ** Lemmas *)

Lemma filter_not_in_nil (l : list ActionEvent) : filter (λ e, ev_EvaluationID e ∉ []) l = l.
Proof.
  induction l as [|x l IH]; [done|]. rewrite filter_cons_True by apply not_elem_of_nil.
  by rewrite IH.
Qed.

Lemma filter_not_in_app ids1 ids2 (l : list ActionEvent) :
  filter (λ e, ev_EvaluationID e ∉ ids2) (filter (λ e, ev_EvaluationID e ∉ ids1) l)
  = filter (λ e, ev_EvaluationID e ∉ (ids1 ++ ids2)%list) l.
Proof.
  rewrite list_filter_filter. apply list_filter_iff. intros x. rewrite elem_of_app. tauto.
Qed.

Lemma delete_statuses_nil h : delete_statuses [] h = h.
Proof.
  destruct h. unfold delete_statuses. simpl. rewrite !filter_not_in_nil. f_equal;
    apply map_filter_id; intros i x _; apply not_elem_of_nil.
Qed.

Lemma delete_statuses_app ids1 ids2 h :
  delete_statuses ids2 (delete_statuses ids1 h) = delete_statuses (ids1 ++ ids2) h.
Proof.
  unfold delete_statuses. simpl. rewrite !filter_not_in_app. f_equal;
    rewrite map_filter_filter; apply map_filter_ext; intros i x _; simpl;
    rewrite elem_of_app; tauto.
Qed.

Lemma delete_statuses_lookup ids h id s :
  h_statuses (delete_statuses ids h) !! id = Some s ↔ h_statuses h !! id = Some s ∧ id ∉ ids.
Proof. simpl. by rewrite map_lookup_filter_Some. Qed.

(** Deleting statuses no latest row points to keeps the tables well formed. *)
Lemma delete_statuses_wf ids h :
  history_wf h → (∀ re l, h_latest h !! re = Some l → la_EvaluationHistoryID l ∉ ids) →
  history_wf (delete_statuses ids h).
Proof.
  intros Hwf Hl. split.
  - intros re l Hla. destruct (wf_latest _ Hwf re l Hla) as (s & Hs & ?). exists s.
    rewrite delete_statuses_lookup. split; [|done]. split; [done|by eapply Hl].
  - intros id s [Hs _]%delete_statuses_lookup. exact (wf_status _ Hwf _ _ Hs).
  - apply Hwf.
  - apply Hwf.
  - intros id o Ho. simpl in Ho. apply map_lookup_filter_Some in Ho as [Ho Hid].
    destruct (wf_outputs _ Hwf _ _ Ho) as [s Hs]. exists s. by apply delete_statuses_lookup.
  - intros e He. simpl in He. apply list_elem_of_filter in He as [Hid He].
    destruct (wf_remediations _ Hwf _ He) as [s Hs]. exists s. by apply delete_statuses_lookup.
  - intros e He. simpl in He. apply list_elem_of_filter in He as [Hid He].
    destruct (wf_alerts _ Hwf _ He) as [s Hs]. exists s. by apply delete_statuses_lookup.
Qed.

Lemma DeleteEvaluationHistoryByIDs_Ok ids w w' n :
  DeleteEvaluationHistoryByIDs ids w = (w', Ok n) →
  history (w_db w') = delete_statuses ids (history (w_db w)) ∧
  n = Z.of_nat (size (filter (λ p, p.1 ∈ ids) (h_statuses (history (w_db w))))) ∧
  same_but_history w w'.
Proof.
  intros (fs & Hq)%query_Ok. simpl in Hq. case_bool_decide; [done|].
  injection Hq as <- <-. rewrite history_upd. split_and!; [done|done|].
  apply same_but_history_upd'.
Qed.

(** One batch: its statuses are gone, or nothing happened. *)
Lemma delete_batch_cases ids w w' r :
  delete_batch ids w = (w', r) →
  (is_ok r = true ∧ history (w_db w') = delete_statuses ids (history (w_db w))) ∨
  (is_ok r = false ∧ history (w_db w') = history (w_db w)).
Proof.
  unfold delete_batch, wrapf. destruct (WithTransaction _ w) as [w1 r1] eqn:Ht.
  intros [= <- <-]. apply WithTransaction_cases in Ht as [(n & fs & w2 & -> & _ & Hd & Hdb & _)|[Hr Hdb]].
  - left. apply DeleteEvaluationHistoryByIDs_Ok in Hd as (Hh & _). by rewrite Hdb.
  - right. rewrite Hdb. by destruct r1.
Qed.

(** Whatever the batches do, some of the listed statuses are gone and nothing
    else has changed. *)
Lemma delete_loop_deletes fuel batchSize records deleted w w' r :
  delete_loop fuel batchSize records deleted w = Some (w', r) →
  ∃ ids, (∀ id, id ∈ ids → id ∈ sr_ID <$> records) ∧
    history (w_db w') = delete_statuses ids (history (w_db w)).
Proof.
  revert batchSize records deleted w.
  induction fuel as [|fuel IH]; intros batchSize records deleted w; destruct records as [|x records];
    cbn [delete_loop]; try done;
    try (intros [= <- <-]; exists []; split; [by intros id ?%not_elem_of_nil|];
         by rewrite delete_statuses_nil).
  set (l := x :: records). set (n := next_batch batchSize l).
  destruct (delete_batch (sr_ID <$> take n l) w) as [w1 r1] eqn:Hb.
  apply delete_batch_cases in Hb as [[Hr Hh]|[Hr Hh]].
  - destruct r1 as [partial|e|m]; [|done..]. intros Hrun.
    apply IH in Hrun as (ids & Hids & Hh'). exists ((sr_ID <$> take n l) ++ ids)%list. split.
    + intros id [Hi|Hi]%elem_of_app.
      * rewrite fmap_take in Hi. by eapply elem_of_take in Hi as (i & Hi%list_elem_of_lookup_2 & _).
      * apply Hids in Hi. rewrite fmap_drop in Hi.
        apply (subseteq_drop n) in Hi. done.
    + by rewrite Hh', Hh, delete_statuses_app.
  - assert (Hno : ∃ ids, (∀ id, id ∈ ids → id ∈ sr_ID <$> l) ∧
      history (w_db w1) = delete_statuses ids (history (w_db w))).
    { exists []. split; [by intros id ?%not_elem_of_nil|]. by rewrite delete_statuses_nil. }
    destruct r1 as [partial|e|m]; [done| |]; by intros [= <- <-].
Qed.

(** *** The listed records are stale *)

Definition stale (d : Db) (threshold : Z) (id : UUID) : Prop :=
  ∃ s, h_statuses (history d) !! id = Some s ∧ (es_EvaluationTime s < threshold)%Z ∧
       is_latest d id s = false.

Definition stale_rows (d : Db) (threshold : Z) : list StaleRow :=
  merge_sort stale_le (omap (stale_row d threshold) (map_to_list (evaluation_statuses d))).

Lemma stale_rows_elem d threshold r :
  r ∈ stale_rows d threshold ↔
  ∃ s, evaluation_statuses d !! sr_ID r = Some s ∧ stale_row d threshold (sr_ID r, s) = Some r.
Proof.
  unfold stale_rows. rewrite merge_sort_Permutation, list_elem_of_omap. split.
  - intros ([id s] & Hin%elem_of_map_to_list & Hr). exists s.
    assert (sr_ID r = id) as ->; [|done]. unfold stale_row in Hr.
    apply bind_Some in Hr as (ere & _ & Hr). by case_match; simplify_eq.
  - intros (s & Hs & Hr). exists (sr_ID r, s). by rewrite elem_of_map_to_list.
Qed.

Lemma stale_rows_stale d threshold r :
  r ∈ stale_rows d threshold → stale d threshold (sr_ID r).
Proof.
  intros (s & Hs & Hr)%stale_rows_elem. exists s. split; [done|]. unfold stale_row in Hr.
  apply bind_Some in Hr as (ere & _ & Hr).
  destruct ((es_EvaluationTime s <? threshold)%Z && _) eqn:Hc; [|done].
  apply andb_true_iff in Hc as [Ht%Z.ltb_lt Hl%negb_true_iff]. done.
Qed.

(** A stale status is no latest one, whatever the rule entity. *)
Lemma stale_not_latest d threshold id :
  history_wf (history d) → stale d threshold id →
  ∀ re l, h_latest (history d) !! re = Some l → la_EvaluationHistoryID l ≠ id.
Proof.
  intros Hwf (s & Hs & _ & Hn) re l Hl <-. destruct (wf_latest _ Hwf re l Hl) as (s' & Hs' & Hre).
  assert (s' = s) as -> by congruence. unfold is_latest in Hn.
  change (latest_evaluation_statuses d) with (h_latest (history d)) in Hn. subst re.
  rewrite Hl in Hn. by apply bool_decide_eq_false in Hn.
Qed.

Lemma purgeLoop_deletes fuel threshold batchSize dryRun w w' r :
  purgeLoop fuel threshold batchSize dryRun w = Some (w', r) →
  ∃ ids, (∀ id, id ∈ ids → stale (w_db w) threshold id ∧ dryRun = false) ∧
    history (w_db w') = delete_statuses ids (history (w_db w)).
Proof.
  unfold purgeLoop, ListEvaluationHistoryStaleRecords, wrapf.
  match goal with |- context [select ?f w] =>
    destruct (query_cases (λ w, (w, f w)) w) as [(e & fs & Hq)|(fs & Hq)]; unfold select;
    rewrite Hq; clear Hq; simpl end.
  { intros [= <- <-]. exists []. rewrite delete_statuses_nil.
    split; [by intros id ?%not_elem_of_nil|done]. }
  fold (stale_rows (w_db w) threshold).
  destruct (take (Z.to_nat purge_limit) (stale_rows (w_db w) threshold)) as [|x l] eqn:Hrec.
  { intros [= <- <-]. exists []. rewrite delete_statuses_nil.
    split; [by intros id ?%not_elem_of_nil|done]. }
  rewrite <-Hrec. destruct dryRun.
  { intros [= <- <-]. exists []. rewrite delete_statuses_nil.
    split; [by intros id ?%not_elem_of_nil|done]. }
  intros (ids & Hids & Hh)%delete_loop_deletes. exists ids. split; [|done].
  intros id Hid. split; [|done]. apply Hids in Hid. apply list_elem_of_fmap in Hid as (r0 & -> & Hr).
  apply stale_rows_stale. by eapply subseteq_take.
Qed.

(** C13: purging never loses what is current.  Under the invariant, however the
    purge ends (done, a failed batch in the middle, a dry run), the invariant
    holds, the latest statuses and the rule entities are untouched and the
    status each latest row points to is still there; a status that is gone was
    older than the threshold and the latest of no rule entity, no status is new
    or changed, and a dry run removes none. *)
Theorem purge_keeps_latest fuel threshold batchSize dryRun w w' r
    (Hwf : history_wf (history (w_db w)))
    (Hrun : purgeLoop fuel threshold batchSize dryRun w = Some (w', r)) :
  let h := history (w_db w) in let h' := history (w_db w') in
  history_wf h' ∧ h_latest h' = h_latest h ∧ h_entities h' = h_entities h ∧
  (∀ re l, h_latest h !! re = Some l →
     h_statuses h' !! la_EvaluationHistoryID l = h_statuses h !! la_EvaluationHistoryID l) ∧
  (∀ id s, h_statuses h' !! id = Some s → h_statuses h !! id = Some s) ∧
  (∀ id s, h_statuses h !! id = Some s → h_statuses h' !! id = None →
     dryRun = false ∧ (es_EvaluationTime s < threshold)%Z ∧
     ∀ re l, h_latest h !! re = Some l → la_EvaluationHistoryID l ≠ id).
Proof.
  cbv zeta. destruct (purgeLoop_deletes _ _ _ _ _ _ _ Hrun) as (ids & Hids & ->).
  assert (Hl : ∀ re l, h_latest (history (w_db w)) !! re = Some l →
    la_EvaluationHistoryID l ∉ ids).
  { intros re l Hl Hin. destruct (Hids _ Hin) as [Hs _].
    by eapply stale_not_latest. }
  split_and!; [by apply delete_statuses_wf|done|done| | |].
  - intros re l Hla. destruct (wf_latest _ Hwf re l Hla) as (s & Hs & _). rewrite Hs.
    apply delete_statuses_lookup. split; [done|by eapply Hl].
  - by intros id s [? _]%delete_statuses_lookup.
  - intros id s Hs Hn. destruct (decide (id ∈ ids)) as [Hin|Hin].
    + destruct (Hids id Hin) as [Hst Hdry]. split; [done|].
      pose proof Hst as (s' & Hs' & Ht & _). assert (s' = s) as -> by congruence.
      split; [done|]. by eapply stale_not_latest.
    + assert (h_statuses (delete_statuses ids (history (w_db w))) !! id = Some s) as Hx
        by (by apply delete_statuses_lookup). congruence.
Qed.

(** *** With a working connection *)

Lemma size_filter_split {V} (m : gmap UUID V) (ids : list UUID) :
  size m = (size (filter (λ p, p.1 ∈ ids) m) + size (filter (λ p, p.1 ∉ ids) m))%nat.
Proof.
  rewrite <-map_size_disj_union by apply map_disjoint_filter_complement.
  by rewrite map_filter_union_complement.
Qed.

Definition rows (h : History) : Z := Z.of_nat (size (h_statuses h)).

Lemma delete_batch_ok ids w :
  w_faults w = [] →
  (∀ re l, h_latest (history (w_db w)) !! re = Some l → la_EvaluationHistoryID l ∉ ids) →
  ∃ w' n, delete_batch ids w = (w', Ok n) ∧ w_faults w' = [] ∧
    history (w_db w') = delete_statuses ids (history (w_db w)) ∧
    n = (rows (history (w_db w)) - rows (history (w_db w')))%Z.
Proof.
  intros Hf Hl. unfold delete_batch.
  assert (Hrun : ∃ n, DeleteEvaluationHistoryByIDs ids w
    = (upd_history (delete_statuses ids) w, Ok n)).
  { unfold DeleteEvaluationHistoryByIDs. rewrite query_ok by done. simpl.
    rewrite bool_decide_eq_false_2; [by eexists|].
    intros (re & l & Hla & Hin). apply list_elem_of_fmap in Hin as ([id s] & Heq & Hin).
    apply elem_of_map_to_list, map_lookup_filter_Some in Hin as [_ Hid]. simpl in *. subst.
    by eapply Hl. }
  destruct Hrun as [n Hrun]. eexists _, n.
  rewrite (proj2 (wrapf_Ok _ _ _ _ _) (WithTransaction_runs _ _ _ _ Hf Hrun Hf)).
  apply DeleteEvaluationHistoryByIDs_Ok in Hrun as (Hh & -> & _).
  split_and!; [done|done|done|]. rewrite Hh. unfold rows.
  rewrite (size_filter_split (h_statuses (history (w_db w))) ids). simpl. lia.
Qed.

Lemma delete_loop_completes fuel batchSize records deleted w :
  w_faults w = [] → 0 < batchSize → length records ≤ fuel →
  (∀ re l, h_latest (history (w_db w)) !! re = Some l →
     la_EvaluationHistoryID l ∉ sr_ID <$> records) →
  ∃ w' n, delete_loop fuel batchSize records deleted w = Some (w', Ok n) ∧ w_faults w' = [] ∧
    history (w_db w') = delete_statuses (sr_ID <$> records) (history (w_db w)) ∧
    n = (deleted + (rows (history (w_db w)) - rows (history (w_db w'))))%Z.
Proof.
  revert batchSize records deleted w.
  induction fuel as [|fuel IH]; intros batchSize records deleted w Hf Hb Hlen Hl;
    destruct records as [|x records]; cbn [delete_loop].
  1,3: exists w, deleted; rewrite delete_statuses_nil; split_and!; [done..|lia].
  { simpl in Hlen. lia. }
  set (l := x :: records) in *. set (n := next_batch batchSize l).
  assert (Hn : 0 < n).
  { unfold n, next_batch. destruct (Nat.ltb_spec (length l) batchSize); [simpl; lia|done]. }
  destruct (delete_batch_ok (sr_ID <$> take n l) w Hf) as (w1 & m & -> & Hf1 & Hh1 & Hm).
  { intros re la Hla Hin. apply (Hl re la Hla). rewrite fmap_take in Hin.
    by eapply subseteq_take. }
  destruct (IH n (drop n l) (deleted + m)%Z w1 Hf1 Hn) as (w2 & k & -> & Hf2 & Hh2 & Hk).
  - rewrite length_drop. simpl in *. lia.
  - rewrite Hh1. intros re la Hla Hin. apply (Hl re la Hla). rewrite fmap_drop in Hin.
    by eapply subseteq_drop.
  - exists w2, k. split_and!; [done|done| |lia].
    rewrite Hh2, Hh1, delete_statuses_app. by rewrite <-fmap_app, take_drop.
Qed.

(** Listing the stale records, the connection working. *)
Lemma list_stale_run threshold w :
  w_faults w = [] →
  ListEvaluationHistoryStaleRecords threshold purge_limit w =
    (w, Ok (take (Z.to_nat purge_limit) (stale_rows (w_db w) threshold))).
Proof. intros Hf. unfold ListEvaluationHistoryStaleRecords. by rewrite select_ok. Qed.

(** Nothing is stale once the stale records are gone. *)
Lemma stale_rows_purged d d' threshold :
  history d' = delete_statuses (sr_ID <$> stale_rows d threshold) (history d) →
  stale_rows d' threshold = [].
Proof.
  intros Hh. apply elem_of_nil_inv. intros r (s & Hs & Hr)%stale_rows_elem.
  change (evaluation_statuses d') with (h_statuses (history d')) in Hs. rewrite Hh in Hs.
  apply delete_statuses_lookup in Hs as [Hs Hnot]. apply Hnot, list_elem_of_fmap.
  exists r. split; [done|]. apply stale_rows_elem. exists s. split; [done|].
  rewrite <-Hr. unfold stale_row, is_latest.
  change (evaluation_rule_entities d') with (h_entities (history d')).
  change (latest_evaluation_statuses d') with (h_latest (history d')). by rewrite Hh.
Qed.

(** C37: purging finishes and leaves nothing stale.  With a working connection,
    a batch size that is not zero and no more stale records than one listing
    returns, the loop ends after at most one batch per record, reports as many
    deletions as there are fewer statuses, and a second listing is empty. *)
Theorem purge_complete fuel threshold batchSize w
    (Hwf : history_wf (history (w_db w))) (Hf : w_faults w = []) (Hb : 0 < batchSize)
    (Hlimit : (Z.of_nat (length (stale_rows (w_db w) threshold)) ≤ purge_limit)%Z)
    (Hfuel : length (stale_rows (w_db w) threshold) ≤ fuel) :
  ∃ w' n, purgeLoop fuel threshold batchSize false w = Some (w', Ok n) ∧
    n = (rows (history (w_db w)) - rows (history (w_db w')))%Z ∧
    (ListEvaluationHistoryStaleRecords threshold purge_limit w').2 = Ok [].
Proof.
  unfold purgeLoop, wrapf. rewrite list_stale_run by done. simpl.
  rewrite take_ge by (apply Nat2Z.inj_le; rewrite Z2Nat.id; [done|unfold purge_limit; lia]).
  destruct (stale_rows (w_db w) threshold) as [|x l] eqn:Hr.
  { exists w, 0%Z. split_and!; [done|lia|]. rewrite list_stale_run, Hr by done.
    by rewrite take_nil. }
  rewrite <-Hr in *. unfold deleteEvaluationHistory.
  destruct (delete_loop_completes fuel batchSize (stale_rows (w_db w) threshold) 0 w)
    as (w' & n & -> & Hf' & Hh & Hn); [done..| |].
  - intros re la Hla Hin. apply list_elem_of_fmap in Hin as (r & Heq & Hin).
    apply stale_rows_stale in Hin. by apply (stale_not_latest _ _ _ Hwf Hin re la Hla).
  - exists w', n. split_and!; [done|lia|]. rewrite list_stale_run by done.
    rewrite (stale_rows_purged _ _ _ Hh). by rewrite take_nil.
Qed.

(** A batch size of zero makes the purge run for ever.  If there is a stale
    record and the connection works, no number of batches is enough: each one
    deletes nothing and leaves the list as long as it was. *)
Theorem purge_zero_batch_diverges threshold w
    (Hwf : history_wf (history (w_db w))) (Hf : w_faults w = [])
    (Hstale : stale_rows (w_db w) threshold ≠ []) :
  ∀ fuel, purgeLoop fuel threshold 0 false w = None.
Proof.
  assert (Hloop : ∀ fuel x l deleted w, w_faults w = [] →
    delete_loop fuel 0 (x :: l) deleted w = None).
  { clear. induction fuel as [|fuel IH]; intros x l deleted w Hf; [done|].
    cbn [delete_loop]. unfold next_batch. simpl.
    destruct (delete_batch_ok [] w Hf) as (w1 & n & Hrun & Hf1 & _).
    { intros re la _. apply not_elem_of_nil. }
    change (take 0 (x :: l)) with ([] : list StaleRow). simpl. rewrite Hrun. by apply IH. }
  intros fuel. unfold purgeLoop, wrapf. rewrite list_stale_run by done. simpl.
  destruct (stale_rows (w_db w) threshold) as [|x l] eqn:Hr; [done|].
  destruct (Z.to_nat purge_limit) as [|k] eqn:Hk; [unfold purge_limit in Hk; lia|].
  simpl. by apply Hloop.
Qed.

(** *** Witnesses: one rule entity with an old status and a latest one *)

Definition ex_status (t : Z) : EvaluationStatus :=
  {| es_RuleEntityID := 60%N; es_Status := EvalStatusTypesSuccess; es_Details := "";
     es_EvaluationTime := t; es_Checkpoint := "{}" |}.

Definition ex_history : History :=
  {| h_entities := {[60%N := {| ere_RuleID := 20%N; ere_EntityType := EntitiesRepository;
                                ere_EntityInstanceID := 7%N |}]};
     h_statuses := {[50%N := ex_status 10; 51%N := ex_status 20]};
     h_latest := {[60%N := {| la_EvaluationHistoryID := 51%N; la_ProfileID := 40%N |}]};
     h_outputs := ∅; h_remediations := []; h_alerts := [] |}.

Lemma ex_history_ok : history_wf ex_history.
Proof.
  split; unfold ex_history; simpl.
  - intros re l [<- <-]%lookup_singleton_Some. by exists (ex_status 20).
  - intros id s [[_ <-]|[_ [_ <-]%lookup_singleton_Some]]%lookup_insert_Some; by eexists.
  - intros re row [<- _]%lookup_singleton_Some. by eexists.
  - by intros re1 re2 r1 r2 [<- _]%lookup_singleton_Some [<- _]%lookup_singleton_Some.
  - intros id o. by rewrite lookup_empty.
  - by intros e ?%not_elem_of_nil.
  - by intros e ?%not_elem_of_nil.
Qed.

Definition ex_purge_world : World := ex_world (set_history ex_history ex_db) [].

Example purge_keeps_latest_witness :
  ∃ w' r, purgeLoop 5 100 1 false ex_purge_world = Some (w', r) ∧
    history_wf (history (w_db w')).
Proof.
  destruct (purgeLoop 5 100 1 false ex_purge_world) as [[w' r]|] eqn:Hrun.
  - exists w', r. split; [done|].
    exact (proj1 (purge_keeps_latest 5 100 1 false ex_purge_world w' r ex_history_ok Hrun)).
  - exfalso. vm_compute in Hrun. discriminate.
Defined.

Example purge_complete_witness :
  ∃ w' n, purgeLoop 5 100 1 false ex_purge_world = Some (w', Ok n) ∧
    (ListEvaluationHistoryStaleRecords 100 purge_limit w').2 = Ok [].
Proof.
  destruct (purge_complete 5 100 1 ex_purge_world ex_history_ok eq_refl) as (w' & n & H1 & _ & H2).
  - lia.
  - by vm_compute.
  - vm_compute. lia.
  - by exists w', n.
Defined.

Example purge_zero_batch_diverges_witness : purgeLoop 1000 100 0 false ex_purge_world = None.
Proof.
  apply (purge_zero_batch_diverges 100 ex_purge_world ex_history_ok eq_refl). by vm_compute.
Defined.
