(* ===== verification/HistoryList.v ===== *)
(** * Listing the evaluation history

    The query ListEvaluationHistory of internal/db/eval_history.sql.go, the
    service of internal/history/service.go and the handlers of
    internal/controlplane/handlers_evalstatus.go. *)

From S2P Require Import Prelude GoErrors GoMonad GoStrings GoBase64 Uuid DbTypes.
From S2P Require Import HistoryFilter Database Properties EntityModels HistoryDb.
Local Open Scope string_scope.

(** ** The query *)

(** The inclusion and the exclusion array of a column; a nil slice is a null. *)
Record sides := { sd_in : option (list string); sd_not : option (list string) }.

Record ListEvaluationHistoryParams := {
  lh_IncludeOutputs : bool;
  lh_Next : option Time.t;
  lh_Prev : option Time.t;
  lh_Entitytypes : sides;
  lh_Entitynames : sides;
  lh_Profilenames : sides;
  lh_Remediations : sides;
  lh_Alerts : sides;
  lh_Statuses : sides;
  lh_Fromts : option Time.t;
  lh_Tots : option Time.t;
  lh_Projectid : UUID;
  lh_Labels : sides;
  lh_Size : Z;
}.

Record ListEvaluationHistoryRow := {
  hr_EvaluationID : UUID;
  hr_EvaluatedAt : Time.t;
  hr_EntityType : Entities;
  hr_EntityID : UUID;
  hr_EntityName : string;
  hr_ProjectID : UUID;
  hr_RuleType : string;
  hr_RuleName : string;
  hr_RuleSeverity : string;
  hr_ProfileName : string;
  hr_ProfileLabels : list string;
  hr_EvaluationStatus : EvalStatusTypes;
  hr_EvaluationDetails : string;
  hr_RemediationStatus : option RemediationStatusTypes;
  hr_RemediationDetails : option string;
  hr_AlertStatus : option AlertStatusTypes;
  hr_AlertDetails : option string;
  hr_EvalOutput : option string;
}.

(** [($n IS NULL OR col = ANY($n)) AND ($m IS NULL OR col != ALL($m))]: a null
    column is neither in nor outside of a list that is not empty. *)
Definition any_of (arr : option (list string)) (col : option string) : bool :=
  match arr, col with
  | None, _ => true
  | Some l, Some v => bool_decide (v ∈ l)
  | Some _, None => false
  end.
Definition none_of (arr : option (list string)) (col : option string) : bool :=
  match arr, col with
  | None, _ | Some [], _ => true
  | Some l, Some v => bool_decide (v ∉ l)
  | Some _, None => false
  end.
Definition sides_match (s : sides) (col : option string) : bool :=
  any_of (sd_in s) col && none_of (sd_not s) col.

(** [a && b] on arrays *)
Definition overlap (a b : list string) : bool := existsb (λ x, bool_decide (x ∈ b)) a.

Definition labels_match (s : sides) (labels : list string) : bool :=
  match sd_in s with
  | None => bool_decide (labels = [])
  | Some l => bool_decide (l = ["*"]) || overlap labels l
  end &&
  match sd_not s with
  | None => true
  | Some l => negb (overlap labels l)
  end.

(** [$n IS NULL OR $n > t], and the other bounds. *)
Definition before (bound : option Time.t) (t : Time.t) : bool :=
  match bound with None => true | Some b => (t <? b)%Z end.
Definition after (bound : option Time.t) (t : Time.t) : bool :=
  match bound with None => true | Some b => (b <? t)%Z end.
Definition at_least (bound : option Time.t) (t : Time.t) : bool :=
  match bound with None => true | Some b => (b <=? t)%Z end.

(** The [WHERE] clause without the two cursors. *)
Definition filter_matches (p : ListEvaluationHistoryParams) (r : ListEvaluationHistoryRow) : bool :=
  sides_match (lh_Entitytypes p) (Some (hr_EntityType r)) &&
  sides_match (lh_Entitynames p) (Some (hr_EntityName r)) &&
  sides_match (lh_Profilenames p) (Some (hr_ProfileName r)) &&
  sides_match (lh_Remediations p) (hr_RemediationStatus r) &&
  sides_match (lh_Alerts p) (hr_AlertStatus r) &&
  sides_match (lh_Statuses p) (Some (hr_EvaluationStatus r)) &&
  at_least (lh_Fromts p) (hr_EvaluatedAt r) && before (lh_Tots p) (hr_EvaluatedAt r) &&
  bool_decide (hr_ProjectID r = lh_Projectid p) &&
  labels_match (lh_Labels p) (hr_ProfileLabels r).

Definition cursor_matches (p : ListEvaluationHistoryParams) (r : ListEvaluationHistoryRow) : bool :=
  before (lh_Next p) (hr_EvaluatedAt r) && after (lh_Prev p) (hr_EvaluatedAt r).

(** A [LEFT JOIN] on the events of a status. *)
Definition left_join (evs : list ActionEvent) (id : UUID) : list (option ActionEvent) :=
  match events_of evs id with
  | [] => [None]
  | l => Some <$> l
  end.

Definition history_row (d : Db) (includeOutputs : bool) (id : UUID) (s : EvaluationStatus)
    (ere : EvaluationRuleEntity) (ri : dbRuleInstance) (rt : dbRuleType) (p : dbProfile)
    (ei : EntityInstance) (re ae : option ActionEvent) : ListEvaluationHistoryRow :=
  {| hr_EvaluationID := id; hr_EvaluatedAt := es_EvaluationTime s;
     hr_EntityType := ere_EntityType ere; hr_EntityID := ere_EntityInstanceID ere;
     hr_EntityName := ei_Name ei; hr_ProjectID := ei_ProjectID ei;
     hr_RuleType := rty_Name rt; hr_RuleName := rin_Name ri; hr_RuleSeverity := rty_Severity rt;
     hr_ProfileName := dpr_Name p; hr_ProfileLabels := dpr_Labels p;
     hr_EvaluationStatus := es_Status s; hr_EvaluationDetails := es_Details s;
     hr_RemediationStatus := ev_Status <$> re; hr_RemediationDetails := ev_Details <$> re;
     hr_AlertStatus := ev_Status <$> ae; hr_AlertDetails := ev_Details <$> ae;
     hr_EvalOutput := if includeOutputs then evaluation_outputs d !! id ≫= eo_Output else None |}.

(** The joins of one status. *)
Definition joined (d : Db) (includeOutputs : bool) (q : UUID * EvaluationStatus)
    : list ListEvaluationHistoryRow :=
  let '(id, s) := q in
  default [] (
    ere ← evaluation_rule_entities d !! es_RuleEntityID s;
    ri ← rule_instances d !! ere_RuleID ere;
    rt ← rule_types d !! rin_RuleTypeID ri;
    p ← profiles d !! rin_ProfileID ri;
    ei ← entity_instances d !! ere_EntityInstanceID ere;
    if bool_decide (ei_ProjectID ei ∈ projects d) then
      Some (re ← left_join (remediation_events d) id;
            ae ← left_join (alert_events d) id;
            [history_row d includeOutputs id s ere ri rt p ei re ae])
    else None).

Definition all_rows (d : Db) (includeOutputs : bool) : list ListEvaluationHistoryRow :=
  map_to_list (evaluation_statuses d) ≫= joined d includeOutputs.

(** [ORDER BY CASE WHEN $next IS NULL THEN time END ASC,
              CASE WHEN $prev IS NULL THEN time END DESC]: a case that does not
    apply is null for every row, and so does not order. *)
Definition row_order (p : ListEvaluationHistoryParams) (a b : ListEvaluationHistoryRow) : Prop :=
  match lh_Next p, lh_Prev p with
  | None, _ => (hr_EvaluatedAt a ≤ hr_EvaluatedAt b)%Z
  | Some _, None => (hr_EvaluatedAt b ≤ hr_EvaluatedAt a)%Z
  | Some _, Some _ => True
  end.

#[export] Instance row_order_dec p a b : Decision (row_order p a b).
Proof. unfold row_order. repeat case_match; apply _. Defined.

Definition select_rows (d : Db) (p : ListEvaluationHistoryParams)
    : list ListEvaluationHistoryRow :=
  take (Z.to_nat (lh_Size p))
    (merge_sort (row_order p)
       (filter (λ r, Is_true (cursor_matches p r && filter_matches p r))
          (all_rows d (lh_IncludeOutputs p)))).

Definition ListEvaluationHistory_query (p : ListEvaluationHistoryParams)
    : prog World (list ListEvaluationHistoryRow) :=
  select (λ w, Ok (select_rows (w_db w) p)).

(** ** service.go *)

Definition toSQLCursor (cursor : option ListEvaluationCursor)
    : res (option Time.t * option Time.t) :=
  match cursor with
  | None => Ok (None, None)
  | Some c =>
      if String.eqb (cur_Direction c) Next then Ok (Some (cur_Time c), None)
      else if String.eqb (cur_Direction c) Prev then Ok (None, Some (cur_Time c))
      else Err (EText ("invalid cursor direction: " +:+ cur_Direction c))
  end.

Fixpoint convert (mapf : string → res string) (values : list string) : res (list string) :=
  match values with
  | [] => Ok []
  | v :: values => dbObj ← mapf v; converted ← convert mapf values; Ok (dbObj :: converted)
  end.

(** A [switch] on the values of an enum. *)
Definition map_enum (what : string) (allowed : list string) (value : string) : res string :=
  if bool_decide (value ∈ allowed) then Ok value
  else Err (EText ("invalid " +:+ what +:+ ": " +:+ value)).

Definition mapEntities : string → res Entities :=
  map_enum "entity" [EntitiesRepository; EntitiesBuildEnvironment; EntitiesArtifact;
                     EntitiesPullRequest].
Definition mapRemediationStatusTypes : string → res RemediationStatusTypes :=
  map_enum "remediation status" remediation_status_types.
Definition mapAlertStatusTypes : string → res AlertStatusTypes :=
  map_enum "alert status" alert_status_types.
Definition mapEvalStatusTypes : string → res EvalStatusTypes :=
  map_enum "evaluation status" eval_status_types.

(** An empty list leaves the parameter null. *)
Definition convert_side (wrap : string) (mapf : string → res string) (values : list string)
    : res (option (list string)) :=
  match values with
  | [] => Ok None
  | _ => match convert mapf values with
         | Ok l => Ok (Some l)
         | Err e => Err (if String.eqb wrap "" then e else EWrap wrap e "")
         | Panic m => Panic m
         end
  end.

Definition convert_sides (wrapIn wrapNot : string) (mapf : string → res string)
    (i : inclusion) : res sides :=
  inc ← convert_side wrapIn mapf (included i);
  exc ← convert_side wrapNot mapf (excluded i);
  Ok {| sd_in := inc; sd_not := exc |}.

Definition paramsFromEntityTypeFilter : inclusion → res sides :=
  convert_sides "" "error filtering entity types: " mapEntities.
Definition paramsFromRemediationFilter : inclusion → res sides :=
  convert_sides "" "" mapRemediationStatusTypes.
Definition paramsFromAlertFilter : inclusion → res sides :=
  convert_sides "error filtering alerts: " "" mapAlertStatusTypes.
Definition paramsFromStatusFilter : inclusion → res sides :=
  convert_sides "" "" mapEvalStatusTypes.
(** Names and labels are taken as they are. *)
Definition paramsFromNames : inclusion → res sides := convert_sides "" "" Ok.

Definition paramsFromLabelFilter (f : listEvaluationFilter) : res sides :=
  paramsFromNames {| included := IncludedLabels f; excluded := excluded (f_labels f) |}.

Definition no_sides : sides := {| sd_in := None; sd_not := None |}.

Definition toSQLFilter (filter : option listEvaluationFilter)
    (params : ListEvaluationHistoryParams) : res ListEvaluationHistoryParams :=
  match filter with
  | None => Ok params
  | Some f =>
      entityTypes ← paramsFromEntityTypeFilter (f_entityTypes f);
      entityNames ← paramsFromNames (f_entityNames f);
      profileNames ← paramsFromNames (f_profileNames f);
      labels ← paramsFromLabelFilter f;
      remediations ← paramsFromRemediationFilter (f_remediations f);
      alerts ← paramsFromAlertFilter (f_alerts f);
      statuses ← paramsFromStatusFilter (f_statuses f);
      Ok {| lh_IncludeOutputs := lh_IncludeOutputs params;
            lh_Next := lh_Next params; lh_Prev := lh_Prev params;
            lh_Entitytypes := entityTypes; lh_Entitynames := entityNames;
            lh_Profilenames := profileNames; lh_Remediations := remediations;
            lh_Alerts := alerts; lh_Statuses := statuses;
            lh_Fromts := f_from f; lh_Tots := f_to f;
            lh_Projectid := f_projectID f; lh_Labels := labels; lh_Size := lh_Size params |}
  end.

(** The parameters of a listing. *)
Definition list_params (cursor : option ListEvaluationCursor) (size : Z)
    (filter : option listEvaluationFilter) (includeOutputs : bool)
    : res ListEvaluationHistoryParams :=
  '(next, prev) ← toSQLCursor cursor;
  toSQLFilter filter
    {| lh_IncludeOutputs := includeOutputs; lh_Next := next; lh_Prev := prev;
       lh_Entitytypes := no_sides; lh_Entitynames := no_sides; lh_Profilenames := no_sides;
       lh_Remediations := no_sides; lh_Alerts := no_sides; lh_Statuses := no_sides;
       lh_Fromts := None; lh_Tots := None; lh_Projectid := uuid_Nil; lh_Labels := no_sides;
       lh_Size := size |}.

(** The loading of properties the listing may trigger; the entity is reloaded
    in place. *)
Class EntityLoading := {
  RetrieveAllPropertiesForEntity : EntityWithProperties → prog World EntityWithProperties;
}.

Record ListEvaluationHistoryResult := {
  lr_Data : list (option EntityWithProperties * ListEvaluationHistoryRow);
  lr_Next : option string;
  lr_Prev : option string;
}.

Section service.
Context `{PropertiesService} `{EntityLoading}.

(** The cache of the listing: every row of an entity holds the same object. *)
Definition load_row (cache : gmap UUID EntityWithProperties) (row : ListEvaluationHistoryRow)
    : prog World (gmap UUID EntityWithProperties) :=
  ewp ← (match cache !! hr_EntityID row with
         | Some ewp => mret ewp
         | None => wrapf "error fetching entity for properties: "
                     (EntityWithPropertiesByID (hr_EntityID row))
         end : prog World EntityWithProperties);
  ewp ← (if NeedsPropertyLoad ewp
         then wrapf "error fetching properties for entity: " (RetrieveAllPropertiesForEntity ewp)
         else mret ewp);
  mret (<[hr_EntityID row := ewp]> cache).

Fixpoint load_rows (cache : gmap UUID EntityWithProperties)
    (rows : list ListEvaluationHistoryRow) : prog World (gmap UUID EntityWithProperties) :=
  match rows with
  | [] => mret cache
  | row :: rows => cache ← load_row cache row; load_rows cache rows
  end.

Definition is_prev (cursor : option ListEvaluationCursor) : bool :=
  match cursor with Some c => String.eqb (cur_Direction c) Prev | None => false end.

Definition page_cursors (rows : list ListEvaluationHistoryRow) : option string * option string :=
  match rows, last rows with
  | newest :: _, Some oldest =>
      (Some (next_cursor (hr_EvaluatedAt oldest)), Some (prev_cursor (hr_EvaluatedAt newest)))
  | _, _ => (None, None)
  end.

Definition ListEvaluationHistory (cursor : option ListEvaluationCursor) (size : Z)
    (filter : option listEvaluationFilter) (includeOutputs : bool)
    : prog World ListEvaluationHistoryResult :=
  params ← lift (list_params cursor size filter includeOutputs);
  rows ← wrapf "error listing history: " (ListEvaluationHistory_query params);
  let rows := if is_prev cursor then reverse rows else rows in
  cache ← load_rows ∅ rows;
  let '(next, prev) := page_cursors rows in
  mret {| lr_Data := (λ row, (cache !! hr_EntityID row, row)) <$> rows;
          lr_Next := next; lr_Prev := prev |}.
End service.

(** ** handlers_evalstatus.go *)

Definition defaultPageSize : Z := 25.
Definition maxPageSize : Z := 25.

(** The enum [Severity_Value] by the names of its values; the unspecified one
    has none. *)
Definition severity_values : list (string * Z) :=
  [("", 0%Z); ("unknown", 1%Z); ("info", 2%Z); ("low", 3%Z); ("medium", 4%Z);
   ("high", 5%Z); ("critical", 6%Z)].

Definition dbSeverityToSeverity (dbSev : string) : res Z :=
  match map_get severity_values dbSev with
  | Some v => Ok v
  | None => Err (EText ("unknown severity value: " +:+ dbSev))
  end.

Definition dbEntityToEntity (dbEnt : Entities) : Entity := EntityTypeFromDB dbEnt.

(** A status with its details; no status, no message. *)
Definition getRemediation (status : option RemediationStatusTypes) (details : option string)
    : option (string * string) :=
  (λ s, (s, default "" details)) <$> status.
Definition getAlert (status : option AlertStatusTypes) (details : option string)
    : option (string * string) :=
  (λ s, (s, default "" details)) <$> status.

(** [protojson.Unmarshal] into a [structpb.Value], and its zero value. *)
Class ValueJSON := { value_Unmarshal : string → any + gerr; value_zero : any }.

(** [minderv1.EvaluationHistory] *)
Record EvaluationHistory := {
  eh_Id : string;
  eh_EvaluatedAt : Time.t;
  eh_EntityId : string;
  eh_EntityType : Entity;
  eh_EntityName : string;
  eh_RuleName : string;
  eh_RuleType : string;
  eh_Severity : Z;
  eh_Profile : string;
  eh_Status : string;
  eh_Details : string;
  eh_Output : option any;
  eh_Alert : option (string * string);
  eh_Remediation : option (string * string);
}.

(** A page of the response; a cursor with its size. *)
Record ListEvaluationHistoryResponse := {
  rs_Data : list EvaluationHistory;
  rs_Page : option (option (string * Z) * option (string * Z));
}.

Record ListEvaluationHistoryRequest := {
  rq_Cursor : option (string * Z);
  rq_EntityType : list string;
  rq_EntityName : list string;
  rq_ProfileName : list string;
  rq_LabelFilter : list string;
  rq_Status : list string;
  rq_Remediation : list string;
  rq_Alert : list string;
  rq_From : option Time.t;
  rq_To : option Time.t;
  rq_IncludeOutputs : bool;
}.

Section handlers.
Context `{UuidLib} `{PropertiesService} `{EntityLoading} `{ValueJSON}.

(** A nil entity panics. *)
Definition fromEvaluationHistoryRow (r : option EntityWithProperties * ListEvaluationHistoryRow)
    : res EvaluationHistory :=
  let '(entity, row) := r in
  match entity with
  | None => Panic "invalid memory address or nil pointer dereference"
  | Some e =>
      severity ← dbSeverityToSeverity (hr_RuleSeverity row);
      let output :=
        (λ raw, match value_Unmarshal raw with inl v => v | inr _ => value_zero end)
          <$> hr_EvalOutput row in
      Ok {| eh_Id := uuid_String (hr_EvaluationID row); eh_EvaluatedAt := hr_EvaluatedAt row;
            eh_EntityId := uuid_String (ewp_ID e); eh_EntityType := em_Type (ewp_Entity e);
            eh_EntityName := em_Name (ewp_Entity e); eh_RuleName := hr_RuleName row;
            eh_RuleType := hr_RuleType row; eh_Severity := severity;
            eh_Profile := hr_ProfileName row; eh_Status := hr_EvaluationStatus row;
            eh_Details := hr_EvaluationDetails row; eh_Output := output;
            eh_Alert := getAlert (hr_AlertStatus row) (hr_AlertDetails row);
            eh_Remediation := getRemediation (hr_RemediationStatus row)
                                (hr_RemediationDetails row) |}
  end.

Fixpoint fromEvaluationHistoryRows
    (rows : list (option EntityWithProperties * ListEvaluationHistoryRow))
    : res (list EvaluationHistory) :=
  match rows with
  | [] => Ok []
  | r :: rows => x ← fromEvaluationHistoryRow r; l ← fromEvaluationHistoryRows rows; Ok (x :: l)
  end.

(** The cursor and the size of a request, and the guard on the size. *)
Definition request_cursor (c : option (string * Z)) : res (ListEvaluationCursor * Z) :=
  '(cursor, size) ←
    match c with
    | None => Ok (DefaultCursor, defaultPageSize)
    | Some (payload, size) =>
        match ParseListEvaluationCursor payload with
        | Ok cursor => Ok (cursor, size)
        | Err e => Err (status_error "InvalidArgument" ("invalid cursor: " +:+ Error e))
        | Panic m => Panic m
        end
    end;
  if (maxPageSize <? size)%Z
  then Err (status_error "InvalidArgument"
         ("requested page size was " +:+ Strconv.FormatInt size +:+ ", max is "
          +:+ Strconv.FormatInt maxPageSize))
  else Ok (cursor, size).

Definition request_filter (rq : ListEvaluationHistoryRequest) (project : UUID)
    : res listEvaluationFilter :=
  let opts :=
    (FilterOptsFromStrings (rq_EntityType rq) WithEntityType ++
     FilterOptsFromStrings (rq_EntityName rq) WithEntityName ++
     FilterOptsFromStrings (rq_ProfileName rq) WithProfileName ++
     FilterOptsFromStrings (rq_LabelFilter rq) WithLabel ++
     FilterOptsFromStrings (rq_Status rq) WithStatus ++
     FilterOptsFromStrings (rq_Remediation rq) WithRemediation ++
     FilterOptsFromStrings (rq_Alert rq) WithAlert ++
     match rq_From rq with Some t => [WithFrom t] | None => [] end ++
     match rq_To rq with Some t => [WithTo t] | None => [] end ++
     [WithProjectID project])%list in
  match NewListEvaluationFilter opts with
  | Err e => Err (status_error "InvalidArgument" ("invalid filter: " +:+ Error e))
  | r => r
  end.

Definition evalErrMsg : string := "error retrieving evaluation history".

Definition internal {A} (m : prog World A) : prog World A := λ w,
  let '(w', r) := m w in
  (w', match r with Err _ => Err (status_error "Internal" evalErrMsg) | r => r end).

(** The transaction is rolled back on every path that does not commit it, and
    its queries only read; a failed commit is logged. *)
Definition ListEvaluationHistory_handler (project : UUID) (rq : ListEvaluationHistoryRequest)
    : prog World ListEvaluationHistoryResponse :=
  '(cursor, size) ← lift (request_cursor (rq_Cursor rq));
  filter ← lift (request_filter rq project);
  internal BeginTransaction;;
  result ← internal (ListEvaluationHistory (Some cursor) size (Some filter)
                       (rq_IncludeOutputs rq));
  data ← lift (fromEvaluationHistoryRows (lr_Data result));
  try Commit;;
  match data with
  | [] => mret {| rs_Data := []; rs_Page := None |}
  | _ => mret {| rs_Data := data;
                 rs_Page := Some ((λ c, (makeCursor c, size)) <$> lr_Next result,
                                  (λ c, (makeCursor c, size)) <$> lr_Prev result) |}
  end.

(** *** One entry *)

(** The query of one status, in the project of the caller. *)
Definition GetEvaluationHistory_query (evaluation project : UUID)
    : prog World ListEvaluationHistoryRow :=
  select (λ w,
    let d := w_db w in
    let rows := default [] (
      s ← evaluation_statuses d !! evaluation; Some (joined d false (evaluation, s))) in
    match filter (λ r, hr_ProjectID r = project) rows with
    | r :: _ => Ok r
    | [] => Err ErrNoRows
    end).

Definition GetEvaluationHistory_handler (project : UUID) (id : string) (includeOutputs : bool)
    : prog World EvaluationHistory :=
  match uuid_Parse id with
  | Panic m => lift (Panic m)
  | Err _ => throw (status_error "InvalidArgument" ("invalid evaluation id: " +:+ id))
  | Ok evalID =>
      ev ← try (GetEvaluationHistory_query evalID project);
      match ev with
      | inr e =>
          if is_in e ErrNoRows then throw (status_error "NotFound" "evaluation not found")
          else throw (status_error "Internal" evalErrMsg)
      | inl row =>
          severity ← internal (lift (dbSeverityToSeverity (hr_RuleSeverity row)));
          output ← (if includeOutputs then
                      o ← try (GetEvaluationOutput (hr_EvaluationID row));
                      mret match o with
                           | inl o =>
                               raw ← eo_Output o;
                               match value_Unmarshal raw with
                               | inl v => Some v
                               | inr _ => None
                               end
                           | inr _ => None
                           end
                    else mret None);
          mret {| eh_Id := uuid_String (hr_EvaluationID row); eh_EvaluatedAt := hr_EvaluatedAt row;
                  eh_EntityId := uuid_String (hr_EntityID row);
                  eh_EntityType := dbEntityToEntity (hr_EntityType row);
                  eh_EntityName := hr_EntityName row; eh_RuleName := hr_RuleName row;
                  eh_RuleType := hr_RuleType row; eh_Severity := severity;
                  eh_Profile := hr_ProfileName row; eh_Status := hr_EvaluationStatus row;
                  eh_Details := hr_EvaluationDetails row; eh_Output := output;
                  eh_Alert := getAlert (hr_AlertStatus row) (hr_AlertDetails row);
                  eh_Remediation := getRemediation (hr_RemediationStatus row)
                                      (hr_RemediationDetails row) |}
      end
  end.
End handlers.
