(* ===== verification/HistoryPages.v ===== *)
(** * The pages of the evaluation history

    What the listing of HistoryList shows: the rows a filter asks for, the
    content and the order of a page, the walk along the next cursors, and the
    entry of one evaluation. *)

From S2P Require Import Prelude GoErrors GoMonad GoStrings GoBase64 Uuid DbTypes HistoryFilter.
From S2P Require Import Database EntityModels Eea HistoryDb HistoryList.
Local Open Scope string_scope.

(** ** The rows a filter asks for *)

(** A value passes a field of the filter: it is one of the included values, if
    there are any, and none of the excluded ones. *)
Definition asked (i : inclusion) (v : string) : Prop :=
  (included i = [] ∨ v ∈ included i) ∧ v ∉ excluded i.

(** A column that may be null passes a field that asks for nothing. *)
Definition asked_opt (i : inclusion) (v : option string) : Prop :=
  match v with
  | Some v => asked i v
  | None => included i = [] ∧ excluded i = []
  end.

(** With no label included, only the profiles without labels are listed; the
    star stands for all of them. *)
Definition labels_asked (i : inclusion) (labels : list string) : Prop :=
  match included i with
  | [] => labels = []
  | l => "*" ∈ l ∨ ∃ x, x ∈ labels ∧ x ∈ l
  end ∧ ∀ x, x ∈ labels → x ∉ excluded i.

Definition row_wanted (f : listEvaluationFilter) (r : ListEvaluationHistoryRow) : Prop :=
  asked (f_entityTypes f) (hr_EntityType r) ∧
  asked (f_entityNames f) (hr_EntityName r) ∧
  asked (f_profileNames f) (hr_ProfileName r) ∧
  asked_opt (f_remediations f) (hr_RemediationStatus r) ∧
  asked_opt (f_alerts f) (hr_AlertStatus r) ∧
  asked (f_statuses f) (hr_EvaluationStatus r) ∧
  (∀ from, f_from f = Some from → (from ≤ hr_EvaluatedAt r)%Z) ∧
  (∀ to, f_to f = Some to → (hr_EvaluatedAt r < to)%Z) ∧
  hr_ProjectID r = f_projectID f ∧
  labels_asked (f_labels f) (hr_ProfileLabels r).

(** The times a cursor leaves. *)
Definition within (c : ListEvaluationCursor) (t : Time.t) : Prop :=
  (cur_Direction c = Next → (t < cur_Time c)%Z) ∧
  (cur_Direction c = Prev → (cur_Time c < t)%Z).

Definition newer_first (a b : ListEvaluationHistoryRow) : Prop :=
  (hr_EvaluatedAt b ≤ hr_EvaluatedAt a)%Z.

#[export] Instance newer_first_dec a b : Decision (newer_first a b) := Z.le_dec _ _.
#[export] Instance newer_first_total : Total newer_first.
Proof. intros a b. unfold newer_first. lia. Qed.
#[export] Instance newer_first_trans : Transitive newer_first.
Proof. intros a b c. unfold newer_first. lia. Qed.

(** ** The parameters of the query *)

Definition values_of (l : list string) : option (list string) :=
  match l with [] => None | _ => Some l end.
Definition sides_of (i : inclusion) : sides :=
  {| sd_in := values_of (included i); sd_not := values_of (excluded i) |}.

Definition filter_params (next prev : option Time.t) (size : Z) (f : listEvaluationFilter)
    (includeOutputs : bool) : ListEvaluationHistoryParams :=
  {| lh_IncludeOutputs := includeOutputs; lh_Next := next; lh_Prev := prev;
     lh_Entitytypes := sides_of (f_entityTypes f); lh_Entitynames := sides_of (f_entityNames f);
     lh_Profilenames := sides_of (f_profileNames f);
     lh_Remediations := sides_of (f_remediations f); lh_Alerts := sides_of (f_alerts f);
     lh_Statuses := sides_of (f_statuses f); lh_Fromts := f_from f; lh_Tots := f_to f;
     lh_Projectid := f_projectID f;
     lh_Labels := sides_of {| included := IncludedLabels f; excluded := excluded (f_labels f) |};
     lh_Size := size |}.

Lemma convert_id mapf l : (∀ v, v ∈ l → mapf v = Ok v) → convert mapf l = Ok l.
Proof.
  induction l as [|v l IH]; intros Hm; [done|]. cbn [convert]. rewrite Hm by set_solver.
  unfold mbind, res_bind. by rewrite IH by set_solver.
Qed.

Lemma convert_sides_id wi wn mapf i :
  (∀ v, v ∈ (included i ++ excluded i)%list → mapf v = Ok v) →
  convert_sides wi wn mapf i = Ok (sides_of i).
Proof.
  intros Hm.
  assert (Hside : ∀ w l, (∀ v, v ∈ l → mapf v = Ok v) →
    convert_side w mapf l = Ok (values_of l)).
  { intros w [|v l] Hl; [done|]. unfold convert_side. by rewrite convert_id. }
  unfold convert_sides, mbind, res_bind.
  rewrite !Hside; [done| |]; intros v Hv; apply Hm; rewrite elem_of_app; auto.
Qed.

Lemma convert_sides_enum wi wn what l allowed i :
  inclusion_ok (Some allowed) i → (∀ v, v ∈ allowed → v ∈ l) →
  convert_sides wi wn (map_enum what l) i = Ok (sides_of i).
Proof.
  intros [Ha _] Hl. apply convert_sides_id. intros v Hv. unfold map_enum.
  rewrite bool_decide_eq_true_2; [done|]. eauto.
Qed.

Lemma toSQLFilter_Ok f params :
  filter_fields_ok f →
  toSQLFilter (Some f) params =
    Ok (filter_params (lh_Next params) (lh_Prev params) (lh_Size params) f
          (lh_IncludeOutputs params)).
Proof.
  intros (He & _ & _ & Hs & Hr & Ha). unfold toSQLFilter.
  unfold paramsFromEntityTypeFilter, paramsFromNames, paramsFromLabelFilter, paramsFromNames,
    paramsFromRemediationFilter, paramsFromAlertFilter, paramsFromStatusFilter,
    mapEntities, mapRemediationStatusTypes, mapAlertStatusTypes, mapEvalStatusTypes.
  rewrite !(convert_sides_id _ _ Ok) by done.
  rewrite (convert_sides_enum _ _ _ _ _ _ He), (convert_sides_enum _ _ _ _ _ _ Hs),
    (convert_sides_enum _ _ _ _ _ _ Hr), (convert_sides_enum _ _ _ _ _ _ Ha);
    [done| intros v Hv; exact Hv..].
Qed.

(** The bounds a cursor gives the query. *)
Definition cursor_next (c : ListEvaluationCursor) : option Time.t :=
  if String.eqb (cur_Direction c) Next then Some (cur_Time c) else None.
Definition cursor_prev (c : ListEvaluationCursor) : option Time.t :=
  if String.eqb (cur_Direction c) Next then None else Some (cur_Time c).

Definition direction_ok (c : ListEvaluationCursor) : Prop :=
  cur_Direction c = Next ∨ cur_Direction c = Prev.

Lemma list_params_Ok c size f io :
  filter_fields_ok f → direction_ok c →
  list_params (Some c) size (Some f) io
    = Ok (filter_params (cursor_next c) (cursor_prev c) size f io).
Proof.
  intros Hf Hc. unfold list_params, toSQLCursor, cursor_next, cursor_prev.
  destruct Hc as [Hc|Hc]; rewrite Hc; unfold mbind, res_bind; cbn -[toSQLFilter];
    by rewrite toSQLFilter_Ok.
Qed.

(** ** The [WHERE] clause is what the filter asks for *)

Lemma sides_match_opt i v :
  sides_match (sides_of i) v = true ↔ asked_opt i v.
Proof.
  unfold sides_match, sides_of, any_of, none_of, asked_opt, asked, values_of. simpl.
  destruct (included i) as [|a l]; destruct (excluded i) as [|b l'], v as [v|]; simpl;
    rewrite ?andb_true_iff, ?bool_decide_eq_true; try set_solver; naive_solver.
Qed.

Lemma sides_match_asked i v :
  sides_match (sides_of i) (Some v) = true ↔ asked i v.
Proof. apply sides_match_opt. Qed.

Lemma overlap_true a b : overlap a b = true ↔ ∃ x, x ∈ a ∧ x ∈ b.
Proof.
  unfold overlap. rewrite existsb_exists. split.
  - intros (x & Hx & Hb%bool_decide_eq_true). exists x. by rewrite list_elem_of_In.
  - intros (x & Hx & Hb). exists x. rewrite list_elem_of_In in Hx.
    by rewrite bool_decide_eq_true.
Qed.

Lemma overlap_false a b : overlap a b = false ↔ ∀ x, x ∈ a → x ∉ b.
Proof.
  split.
  - intros Ho x Ha Hb. assert (overlap a b = true) by (apply overlap_true; eauto). congruence.
  - intros Hn. destruct (overlap a b) eqn:Ho; [|done].
    apply overlap_true in Ho as (x & Ha & Hb). by destruct (Hn x Ha).
Qed.

Lemma labels_match_asked f labels :
  labels_match (sides_of {| included := IncludedLabels f; excluded := excluded (f_labels f) |})
    labels = true ↔ labels_asked (f_labels f) labels.
Proof.
  unfold labels_match, labels_asked, sides_of, values_of. simpl.
  rewrite andb_true_iff. apply Morphisms_Prop.and_iff_morphism.
  - unfold IncludedLabels. destruct (included (f_labels f)) as [|a l] eqn:Hi.
    + rewrite bool_decide_eq_false_2 by apply not_elem_of_nil. by rewrite bool_decide_eq_true.
    + case_bool_decide as Hs.
      * split; [by left|done].
      * rewrite bool_decide_eq_false_2 by (intros [= -> ->]; apply Hs; left).
        simpl. rewrite overlap_true. naive_solver.
  - destruct (excluded (f_labels f)) as [|b l'].
    + split; [|done]. intros _ x _. apply not_elem_of_nil.
    + by rewrite negb_true_iff, overlap_false.
Qed.

Lemma bounds_match from to t :
  (at_least from t = true ↔ ∀ b, from = Some b → (b ≤ t)%Z) ∧
  (before to t = true ↔ ∀ b, to = Some b → (t < b)%Z).
Proof.
  unfold at_least, before. split.
  - destruct from as [b|]; [rewrite Z.leb_le|]; naive_solver.
  - destruct to as [b|]; [rewrite Z.ltb_lt|]; naive_solver.
Qed.

Lemma filter_matches_wanted next prev size f io r :
  filter_matches (filter_params next prev size f io) r = true ↔ row_wanted f r.
Proof.
  unfold filter_matches, row_wanted. simpl. rewrite !andb_true_iff.
  rewrite !sides_match_asked, !sides_match_opt, labels_match_asked, bool_decide_eq_true.
  destruct (bounds_match (f_from f) (f_to f) (hr_EvaluatedAt r)) as [-> ->]. tauto.
Qed.

Lemma cursor_matches_within c size f io r :
  direction_ok c →
  cursor_matches (filter_params (cursor_next c) (cursor_prev c) size f io) r = true
  ↔ within c (hr_EvaluatedAt r).
Proof.
  unfold cursor_matches, within, cursor_next, cursor_prev, before, after. simpl.
  assert (Next ≠ Prev) by done.
  intros [Hc|Hc]; rewrite Hc; simpl; rewrite ?andb_true_r, ?Z.ltb_lt; naive_solver.
Qed.

(** ** A page *)

Definition candidates (d : Db) (c : ListEvaluationCursor) (size : Z) (f : listEvaluationFilter)
    (io : bool) : list ListEvaluationHistoryRow :=
  let p := filter_params (cursor_next c) (cursor_prev c) size f io in
  filter (λ r, Is_true (cursor_matches p r && filter_matches p r)) (all_rows d io).

Definition page_rows (d : Db) (c : ListEvaluationCursor) (size : Z) (f : listEvaluationFilter)
    (io : bool) : list ListEvaluationHistoryRow :=
  let rows := select_rows d (filter_params (cursor_next c) (cursor_prev c) size f io) in
  if is_prev (Some c) then reverse rows else rows.

Lemma candidates_elem d c size f io r :
  direction_ok c →
  r ∈ candidates d c size f io ↔ r ∈ all_rows d io ∧ row_wanted f r ∧ within c (hr_EvaluatedAt r).
Proof.
  intros Hc. unfold candidates. rewrite list_elem_of_filter, Is_true_true, andb_true_iff.
  rewrite cursor_matches_within, filter_matches_wanted by done. tauto.
Qed.

Lemma StronglySorted_reverse {A} (R : A → A → Prop) l :
  StronglySorted R l → StronglySorted (flip R) (reverse l).
Proof.
  induction 1 as [|x l Hl IH Hx]; [constructor|]. rewrite reverse_cons.
  apply StronglySorted_app_2; [|done|by repeat constructor].
  intros y z Hy ->%list_elem_of_singleton. rewrite elem_of_reverse in Hy.
  by eapply Forall_forall in Hx.
Qed.

Lemma StronglySorted_mono {A} (R R' : A → A → Prop) l :
  (∀ x y, R x y → R' x y) → StronglySorted R l → StronglySorted R' l.
Proof.
  intros HR. induction 1 as [|x l _ IH Hx]; constructor; [done|].
  by eapply Forall_impl; [exact Hx|eauto].
Qed.

(** Before the cut, and after it. *)
Lemma StronglySorted_take_drop {A} (R : A → A → Prop) n l :
  StronglySorted R l →
  StronglySorted R (take n l) ∧ StronglySorted R (drop n l) ∧
  ∀ x y, x ∈ take n l → y ∈ drop n l → R x y.
Proof.
  intros Hs. rewrite <-(take_drop n l) in Hs. apply StronglySorted_app in Hs as (?&?&?).
  naive_solver.
Qed.

(** The order of the query is that of the direction. *)
Lemma row_order_direction c size f io :
  direction_ok c →
  (cur_Direction c = Next ∧
   row_order (filter_params (cursor_next c) (cursor_prev c) size f io) = newer_first) ∨
  (cur_Direction c = Prev ∧
   row_order (filter_params (cursor_next c) (cursor_prev c) size f io) = flip newer_first).
Proof.
  unfold cursor_next, cursor_prev. intros [Hc|Hc]; rewrite Hc; [left|right]; done.
Qed.

Lemma order_sorted (R : ListEvaluationHistoryRow → ListEvaluationHistoryRow → Prop)
    `{∀ a b, Decision (R a b)} l :
  R = newer_first ∨ R = flip newer_first → StronglySorted R (merge_sort R l).
Proof.
  intros HR.
  assert (Total R) by (intros a b; destruct HR as [-> | ->]; apply newer_first_total).
  assert (Transitive R).
  { intros a b c. destruct HR as [-> | ->]; [apply newer_first_trans|].
    intros H1 H2. by eapply newer_first_trans. }
  apply StronglySorted_merge_sort; done.
Qed.

(** A page is the part of the candidates next to the cursor, newest first. *)
Lemma page_rows_spec d c size f io :
  direction_ok c →
  ∃ rest, page_rows d c size f io ++ rest ≡ₚ candidates d c size f io ∧
    StronglySorted newer_first (page_rows d c size f io) ∧
    length (page_rows d c size f io)
      = Nat.min (Z.to_nat size) (length (candidates d c size f io)) ∧
    ∀ r r', r ∈ page_rows d c size f io → r' ∈ rest →
      (cur_Direction c = Next → newer_first r r') ∧ (cur_Direction c = Prev → newer_first r' r).
Proof.
  intros Hc. unfold page_rows, select_rows. cbn [lh_Size lh_IncludeOutputs filter_params].
  set (p := filter_params _ _ _ _ _). set (R := row_order p).
  set (l := merge_sort R _).
  assert (Hl : l ≡ₚ candidates d c size f io) by apply merge_sort_Permutation.
  assert (HR : R = newer_first ∨ R = flip newer_first)
    by (destruct (row_order_direction c size f io Hc) as [[_ ?]|[_ ?]]; auto).
  assert (Hs : StronglySorted R l) by (by apply order_sorted).
  destruct (StronglySorted_take_drop _ (Z.to_nat size) _ Hs) as (Ht & _ & Htd).
  exists (drop (Z.to_nat size) l). unfold is_prev.
  destruct (row_order_direction c size f io Hc) as [[Hd HRd]|[Hd HRd]];
    fold p in HRd; fold R in HRd; rewrite Hd; simpl; rewrite HRd in Ht, Htd.
  - split_and!.
    + by rewrite take_drop.
    + done.
    + by rewrite length_take, (Permutation_length Hl).
    + intros r r' H1 H2. split; [eauto|done].
  - split_and!.
    + by rewrite reverse_Permutation, take_drop.
    + by apply StronglySorted_reverse in Ht.
    + by rewrite length_reverse, length_take, (Permutation_length Hl).
    + intros r r' H1 H2. rewrite elem_of_reverse in H1. split; [done|].
      intros _. exact (Htd r r' H1 H2).
Qed.

(** ** The service *)

Section service_lemmas.
Context `{PropertiesService} `{EntityLoading}.

Lemma load_row_cache cache row w w' cache' :
  load_row cache row w = (w', Ok cache') →
  ∃ ewp, cache' = <[hr_EntityID row := ewp]> cache.
Proof.
  unfold load_row. intros (w1 & ewp1 & _ & H1)%prog_bind_Ok.
  apply prog_bind_Ok in H1 as (w2 & ewp2 & _ & H2). injection H2 as _ <-. by exists ewp2.
Qed.

Lemma load_rows_cache rows cache w w' cache' :
  load_rows cache rows w = (w', Ok cache') →
  (∀ id, is_Some (cache !! id) → is_Some (cache' !! id)) ∧
  ∀ row, row ∈ rows → is_Some (cache' !! hr_EntityID row).
Proof.
  revert cache w. induction rows as [|row rows IH]; intros cache w; cbn [load_rows].
  { intros [= _ <-]. split; [done|]. by intros row ?%not_elem_of_nil. }
  intros (w1 & cache1 & (ewp & ->)%load_row_cache & Hl)%prog_bind_Ok.
  apply IH in Hl as [Hk Hr]. split.
  - intros id Hid. apply Hk. by apply lookup_insert_is_Some'; auto.
  - intros row' [->|Hin]%elem_of_cons; [|by apply Hr]. apply Hk.
    rewrite lookup_insert_eq. by eexists.
Qed.

(** What a successful listing returns. *)
Lemma ListEvaluationHistory_Ok c size f io w w' result :
  filter_fields_ok f → direction_ok c →
  ListEvaluationHistory (Some c) size (Some f) io w = (w', Ok result) →
  (lr_Data result).*2 = page_rows (w_db w) c size f io ∧
  (lr_Next result, lr_Prev result) = page_cursors (lr_Data result).*2 ∧
  ∀ x, x ∈ lr_Data result → is_Some x.1.
Proof.
  intros Hf Hc. unfold ListEvaluationHistory. rewrite list_params_Ok by done.
  intros (w0 & p & [= <- <-] & Hrun)%prog_bind_Ok.
  apply prog_bind_Ok in Hrun as (w1 & rows & Hq & Hrun). apply wrapf_Ok in Hq.
  unfold ListEvaluationHistory_query, select in Hq.
  match goal with H : query ?g w = _ |- _ =>
    destruct (query_cases g w) as [(e & fs & E)|(fs & E)]; rewrite E in H; [done|] end.
  injection Hq as <- <-. simpl (w_db _) in Hrun.
  apply prog_bind_Ok in Hrun as (w2 & cache & Hl & Hrun).
  fold (page_rows (w_db w) c size f io) in Hl, Hrun.
  apply load_rows_cache in Hl as [_ Hl].
  destruct (page_cursors _) as [next prev] eqn:Hcur. injection Hrun as _ <-. simpl.
  rewrite <-list_fmap_compose, list_fmap_id. split_and!; [done|done|].
  intros x (row & -> & Hrow)%list_elem_of_fmap. by apply Hl.
Qed.
End service_lemmas.

(** C5: a page of the history is what it says.  For a filter the API accepts
    and a cursor of either direction, a page holds at most as many rows as were
    asked for, newest first, each of them one the filter asks for on the
    cursor's side, and each with the entity it is about; it leaves out a row
    the filter asks for on that side only if it is full and the row is not
    nearer to the cursor than any row of the page. *)
Theorem history_page_sound `{PropertiesService} `{EntityLoading} `{UuidLib} os f c size io w w'
    result
    (Hf : NewListEvaluationFilter (opt_of <$> os) = Ok f) (Hc : direction_ok c)
    (Hrun : ListEvaluationHistory (Some c) size (Some f) io w = (w', Ok result)) :
  let rows := (lr_Data result).*2 in
  (length rows ≤ Z.to_nat size)%nat ∧ StronglySorted newer_first rows ∧
  (∀ r, r ∈ rows → r ∈ all_rows (w_db w) io ∧ row_wanted f r ∧ within c (hr_EvaluatedAt r)) ∧
  (∀ x, x ∈ lr_Data result → is_Some x.1) ∧
  (∀ r, r ∈ all_rows (w_db w) io → row_wanted f r → within c (hr_EvaluatedAt r) → r ∉ rows →
     length rows = Z.to_nat size ∧
     ∀ r', r' ∈ rows →
       if is_prev (Some c) then newer_first r r' else newer_first r' r).
Proof.
  cbv zeta. apply accepted_fields in Hf.
  destruct (ListEvaluationHistory_Ok _ _ _ _ _ _ _ Hf Hc Hrun) as (-> & _ & Hents).
  destruct (page_rows_spec (w_db w) c size f io Hc) as (rest & Hp & Hs & Hlen & Hrest).
  assert (Hin : ∀ r, r ∈ all_rows (w_db w) io ∧ row_wanted f r ∧ within c (hr_EvaluatedAt r) ↔
                     r ∈ page_rows (w_db w) c size f io ∨ r ∈ rest).
  { intros r. rewrite <-candidates_elem by done. by rewrite <-Hp, elem_of_app. }
  split_and!; [lia|done| |done|].
  - intros r Hr. apply Hin. by left.
  - intros r Ha Hw Hwi Hn. assert (r ∈ rest) as Hr by (by destruct (proj1 (Hin r))).
    split.
    + pose proof (Permutation_length Hp) as Hl. rewrite length_app in Hl.
      destruct rest; [by apply not_elem_of_nil in Hr|]. simpl in Hl. lia.
    + intros r' Hr'. destruct (Hrest r' r Hr' Hr) as [Hnx Hpv]. unfold is_prev.
      destruct Hc as [Hc|Hc]; rewrite Hc in *; simpl; eauto.
Qed.

(** ** Walking along the next cursors *)

Section walk.
Context `{PropertiesService} `{EntityLoading}.
Context (size : Z) (f : listEvaluationFilter) (io : bool).

(** What a client does that wants it all: it asks for the first page, then for
    the page of the next cursor it got, until a page has none. *)
Fixpoint walk (fuel : nat) (c : ListEvaluationCursor)
    : prog World (list ListEvaluationHistoryRow) :=
  match fuel with
  | O => throw (EText "out of fuel")
  | S fuel =>
      result ← ListEvaluationHistory (Some c) size (Some f) io;
      match lr_Next result with
      | None => mret (lr_Data result).*2
      | Some next =>
          c ← lift (ParseListEvaluationCursor (makeCursor next));
          rows ← walk fuel c;
          mret ((lr_Data result).*2 ++ rows)%list
      end
  end.
End walk.

(** The properties service answers, and only reads the tables. *)
Definition answers {A} (m : prog World A) : Prop :=
  ∀ w, w_faults w = [] → ∃ w' a, m w = (w', Ok a) ∧ w_faults w' = [] ∧ w_db w' = w_db w.

Definition properties_answer `{PropertiesService} `{EntityLoading} : Prop :=
  (∀ id, answers (EntityWithPropertiesByID id)) ∧
  (∀ ewp, answers (RetrieveAllPropertiesForEntity ewp)).

Lemma answers_bind {A B} (m : prog World A) (k : A → prog World B) :
  answers m → (∀ a, answers (k a)) → answers (m ≫= k).
Proof.
  intros Hm Hk w Hw. destruct (Hm w Hw) as (w1 & a & H1 & Hf1 & Hd1).
  destruct (Hk a w1 Hf1) as (w2 & b & H2 & Hf2 & Hd2). exists w2, b.
  rewrite (prog_bind_run _ _ _ _ _ H1). split_and!; [done|done|congruence].
Qed.

Lemma answers_ret {A} (a : A) : answers (mret a).
Proof. intros w Hw. by exists w, a. Qed.

Lemma answers_wrapf {A} pre (m : prog World A) : answers m → answers (wrapf pre m).
Proof.
  intros Hm w Hw. destruct (Hm w Hw) as (w1 & a & H1 & ?). exists w1, a.
  by rewrite wrapf_Ok.
Qed.

Lemma answers_select {A} (g : World → A) : answers (select (λ w, Ok (g w))).
Proof. intros w Hw. rewrite select_ok by done. by exists w, (g w). Qed.

Section listing_answers.
Context `{PropertiesService} `{EntityLoading}.
Context (Hprops : properties_answer).

Lemma load_row_answers cache row : answers (load_row cache row).
Proof using Hprops.
  unfold load_row. apply answers_bind.
  - destruct (cache !! _); [apply answers_ret|]. apply answers_wrapf, Hprops.
  - intros ewp. apply answers_bind; [|intros; apply answers_ret].
    destruct (NeedsPropertyLoad ewp); [apply answers_wrapf, Hprops|apply answers_ret].
Qed.

Lemma load_rows_answers rows cache : answers (load_rows cache rows).
Proof using Hprops.
  revert cache. induction rows as [|row rows IH]; intros cache; [apply answers_ret|].
  apply answers_bind; [apply load_row_answers|apply IH].
Qed.

Lemma ListEvaluationHistory_answers c size f io :
  filter_fields_ok f → direction_ok c →
  answers (ListEvaluationHistory (Some c) size (Some f) io).
Proof using Hprops.
  intros Hf Hc. unfold ListEvaluationHistory. rewrite list_params_Ok by done.
  apply answers_bind; [intros w Hw; by eexists w, _|intros p].
  apply answers_bind; [apply answers_wrapf, answers_select|intros rows].
  apply answers_bind; [apply load_rows_answers|intros cache].
  destruct (page_cursors _). apply answers_ret.
Qed.
End listing_answers.

(** ** The rows left after a page *)

Lemma sorted_last l o :
  StronglySorted newer_first l → last l = Some o → ∀ r, r ∈ l → newer_first r o.
Proof.
  intros Hs Ho. apply last_Some in Ho as [l' ->].
  apply StronglySorted_app in Hs as (Hl & _ & _). intros r [Hr|Hr]%elem_of_app.
  - apply Hl; [done|by left].
  - apply list_elem_of_singleton in Hr as ->. unfold newer_first. lia.
Qed.

Definition from_next (t : Time.t) : ListEvaluationCursor :=
  {| cur_Time := t; cur_Direction := Next |}.

Lemma candidates_next d size f io t t' :
  (t' ≤ t)%Z →
  candidates d (from_next t') size f io
    = filter (λ r, (hr_EvaluatedAt r < t')%Z) (candidates d (from_next t) size f io).
Proof.
  intros Ht. unfold candidates. rewrite list_filter_filter. apply list_filter_iff. intros r.
  rewrite !Is_true_true, !andb_true_iff, !filter_matches_wanted, !cursor_matches_within by (by left).
  unfold within. simpl. assert (Next ≠ Prev) by done. intuition lia.
Qed.

Lemma rest_after_page d size f io t page rest o :
  page ++ rest ≡ₚ candidates d (from_next t) size f io →
  StronglySorted newer_first page → last page = Some o →
  (∀ r r', r ∈ page → r' ∈ rest → newer_first r r') →
  NoDup (hr_EvaluatedAt <$> candidates d (from_next t) size f io) →
  candidates d (from_next (hr_EvaluatedAt o)) size f io ≡ₚ rest.
Proof.
  intros Hp Hs Ho Hrest Hnd.
  assert (Hin : o ∈ page) by (by apply last_Some_elem_of).
  assert (Ho' : within (from_next t) (hr_EvaluatedAt o)).
  { apply (candidates_elem d _ size f io o); [by left|]. rewrite <-Hp, elem_of_app. by left. }
  rewrite (candidates_next d size f io t) by (apply Z.lt_le_incl; by apply Ho').
  rewrite <-Hp in Hnd |- *. rewrite filter_app, list_filter_none, list_filter_all; [done| |].
  - intros r Hr. pose proof (Hrest o r Hin Hr) as Hle. unfold newer_first in Hle.
    rewrite fmap_app in Hnd. apply NoDup_app in Hnd as (_ & Hdis & _).
    destruct (decide (hr_EvaluatedAt r = hr_EvaluatedAt o)) as [Heq|]; [|lia].
    exfalso. apply (Hdis (hr_EvaluatedAt o)).
    + apply list_elem_of_fmap. by exists o.
    + apply list_elem_of_fmap. by exists r.
  - intros r Hr. pose proof (sorted_last _ _ Hs Ho r Hr) as Hle. unfold newer_first in Hle. lia.
Qed.

(** A timestamp of the database: whole microseconds, since 1970 and before the
    time of the default cursor. *)
Definition timestamp_ok (t : Time.t) : Prop :=
  (1000 | t)%Z ∧ (0 ≤ t < cur_Time DefaultCursor)%Z.

Lemma timestamp_int64 t : timestamp_ok t → Strconv.is_int64 (t / 1000).
Proof.
  intros [_ [H0 H1]].
  assert (H2 : (cur_Time DefaultCursor < 1000 * Strconv.int64_max)%Z) by by vm_compute.
  assert (H3 : (Strconv.int64_min ≤ 0)%Z) by by vm_compute.
  unfold Strconv.is_int64. split; [pose proof (Z.div_pos t 1000 H0); lia|].
  apply Z.div_le_upper_bound; lia.
Qed.

Section walk_lemmas.
Context `{PropertiesService} `{EntityLoading}.
Context (Hprops : properties_answer).
Context (size : Z) (f : listEvaluationFilter) (io : bool).
Context (Hsize : (0 < size)%Z) (Hf : filter_fields_ok f).

Lemma walk_complete d fuel t w :
  w_faults w = [] → w_db w = d →
  NoDup (hr_EvaluatedAt <$> candidates d (from_next t) size f io) →
  (∀ r, r ∈ candidates d (from_next t) size f io → timestamp_ok (hr_EvaluatedAt r)) →
  (length (candidates d (from_next t) size f io) < fuel)%nat →
  ∃ w' rows, walk size f io fuel (from_next t) w = (w', Ok rows) ∧
    rows ≡ₚ candidates d (from_next t) size f io ∧ StronglySorted newer_first rows.
Proof using All.
  revert t w. induction fuel as [|fuel IH]; intros t w Hw Hd Hnd Hts Hlen; [lia|].
  cbn [walk].
  assert (Hdir : direction_ok (from_next t)) by by left.
  destruct (ListEvaluationHistory_answers Hprops (from_next t) size f io Hf Hdir w Hw)
    as (w1 & result & Hrun & Hf1 & Hd1).
  destruct (ListEvaluationHistory_Ok _ _ _ _ _ _ _ Hf Hdir Hrun) as (Hrows & Hcur & _).
  destruct (page_rows_spec d (from_next t) size f io Hdir) as (rest & Hp & Hs & Hl & Hrest).
  rewrite (prog_bind_run _ _ _ _ _ Hrun). rewrite Hrows, Hd in *.
  destruct (page_rows d (from_next t) size f io) as [|r page] eqn:Hpage.
  - injection Hcur as -> _. exists w1, [].
    destruct (candidates d (from_next t) size f io); [by repeat constructor|].
    simpl in Hl. lia.
  - destruct (last (r :: page)) as [o|] eqn:Ho; [|by apply last_None in Ho].
    cbn [page_cursors] in Hcur. rewrite Ho in Hcur. injection Hcur as -> _.
    assert (Hino : o ∈ candidates d (from_next t) size f io).
    { rewrite <-Hp, elem_of_app. left. by apply last_Some_elem_of. }
    assert (Hperm : candidates d (from_next (hr_EvaluatedAt o)) size f io ≡ₚ rest).
    { eapply rest_after_page; [exact Hp|done..| |done]. intros x y Hx Hy. exact (proj1 (Hrest x y Hx Hy) eq_refl). }
    destruct (Hts o Hino) as [Hus _].
    destruct (IH (hr_EvaluatedAt o) w1) as (w2 & rows & Hrun2 & Hp2 & Hs2); [done|congruence|..].
    { rewrite Hperm. rewrite <-Hp, fmap_app in Hnd. by apply NoDup_app in Hnd as (_ & _ & ?). }
    { intros x Hx. apply Hts. rewrite <-Hp, elem_of_app. right. by rewrite <-Hperm. }
    { rewrite (Permutation_length Hperm). apply Permutation_length in Hp.
      rewrite length_app in Hp. simpl in Hp. lia. }
    exists w2, ((r :: page) ++ rows)%list.
    rewrite (prog_bind_run _ _ _ w1 (from_next (hr_EvaluatedAt o)))
      by (unfold lift; by rewrite parse_next_cursor by auto using timestamp_int64).
    rewrite (prog_bind_run _ _ _ _ _ Hrun2). split_and!; [done| |].
    + by rewrite Hp2, Hperm.
    + apply StronglySorted_app_2; [|done|done]. intros x y Hx Hy.
      rewrite Hp2, Hperm in Hy. exact (proj1 (Hrest x y Hx Hy) eq_refl).
Qed.
End walk_lemmas.

#[export] Instance row_wanted_dec f r : Decision (row_wanted f r).
Proof.
  destruct (filter_matches (filter_params None None 0 f false) r) eqn:E; [left|right].
  - exact (proj1 (filter_matches_wanted _ _ _ _ _ _) E).
  - intros H%(filter_matches_wanted None None 0 f false). congruence.
Defined.

(** The default cursor leaves every row out of nothing. *)
Lemma candidates_default d size f io :
  (∀ r, r ∈ all_rows d io → row_wanted f r → timestamp_ok (hr_EvaluatedAt r)) →
  candidates d DefaultCursor size f io = filter (row_wanted f) (all_rows d io).
Proof.
  intros Hts. unfold candidates. induction (all_rows d io) as [|r l IH]; [done|].
  specialize (IH (λ x Hx, Hts x (list_elem_of_further _ _ _ Hx))).
  specialize (Hts r (list_elem_of_here _ _)).
  destruct (decide (row_wanted f r)) as [Hr|Hr].
  - rewrite !filter_cons_True; [by rewrite IH|done|].
    rewrite Is_true_true, andb_true_iff, filter_matches_wanted, cursor_matches_within by (by left).
    split; [|done]. destruct (Hts Hr) as [_ ?]. split; [intros _; lia|done].
  - rewrite !filter_cons_False; [done|done|].
    rewrite Is_true_true, andb_true_iff, filter_matches_wanted. by intros [_ ?].
Qed.

(** C31: following the next cursors gives the whole history.  With a working
    connection and a properties service that answers, a page size above zero
    and rows whose times are distinct timestamps, a client that starts without
    a cursor and follows the next cursors comes to an end and has then seen
    every row its filter asks for exactly once, newest first. *)
Theorem history_pages_complete `{PropertiesService} `{EntityLoading} `{UuidLib} os f size io w fuel
    (Hprops : properties_answer) (Hf : NewListEvaluationFilter (opt_of <$> os) = Ok f)
    (Hw : w_faults w = []) (Hsize : (0 < size)%Z)
    (Hts : ∀ r, r ∈ all_rows (w_db w) io → row_wanted f r → timestamp_ok (hr_EvaluatedAt r))
    (Hnd : NoDup (hr_EvaluatedAt <$> filter (row_wanted f) (all_rows (w_db w) io)))
    (Hfuel : (length (filter (row_wanted f) (all_rows (w_db w) io)) < fuel)%nat) :
  ∃ w' rows, walk size f io fuel DefaultCursor w = (w', Ok rows) ∧
    rows ≡ₚ filter (row_wanted f) (all_rows (w_db w) io) ∧ StronglySorted newer_first rows.
Proof.
  apply accepted_fields in Hf. pose proof (candidates_default (w_db w) size f io Hts) as Hc.
  change DefaultCursor with (from_next (cur_Time DefaultCursor)) in *.
  rewrite <-Hc in *. apply walk_complete; [done..| |done].
  intros r (Ha & Hr & _)%candidates_elem; [by apply Hts|by left].
Qed.

(** What the walk has behind it does not come again. *)
Lemma walk_within `{PropertiesService} `{EntityLoading} size f io fuel c w w' rows :
  properties_answer → filter_fields_ok f → cur_Direction c = Next → w_faults w = [] →
  (∀ r, r ∈ all_rows (w_db w) io → row_wanted f r → timestamp_ok (hr_EvaluatedAt r)) →
  walk size f io fuel c w = (w', Ok rows) →
  ∀ r, r ∈ rows → (hr_EvaluatedAt r < cur_Time c)%Z.
Proof.
  intros Hprops Hf. revert c w w' rows.
  induction fuel as [|fuel IH]; intros c w w' rows Hc Hw Hts; cbn [walk]; [done|].
  intros (w1 & result & Hrun & Hk)%prog_bind_Ok.
  assert (Hdir : direction_ok c) by by left.
  destruct (ListEvaluationHistory_answers Hprops c size f io Hf Hdir w Hw)
    as (w1' & result' & Hrun' & Hf1 & Hd1).
  rewrite Hrun in Hrun'. injection Hrun' as <- <-.
  destruct (ListEvaluationHistory_Ok _ _ _ _ _ _ _ Hf Hdir Hrun) as (Hrows & Hcur & _).
  assert (Hpage : ∀ r, r ∈ (lr_Data result).*2 → r ∈ candidates (w_db w) c size f io).
  { intros r Hr. rewrite Hrows in Hr.
    destruct (page_rows_spec (w_db w) c size f io Hdir) as (rest & Hp & _).
    rewrite <-Hp, elem_of_app. by left. }
  assert (Hlt : ∀ r, r ∈ (lr_Data result).*2 → (hr_EvaluatedAt r < cur_Time c)%Z).
  { intros r (_ & _ & Hwi)%Hpage%candidates_elem; [|done]. by apply Hwi. }
  unfold page_cursors in Hcur.
  destruct ((lr_Data result).*2) as [|newest page] eqn:Hdata.
  - injection Hcur as Hn _. rewrite Hn in Hk. injection Hk as _ <-.
    by intros r ?%not_elem_of_nil.
  - destruct (last (newest :: page)) as [o|] eqn:Ho; [|by apply last_None in Ho].
    injection Hcur as Hn _. rewrite Hn in Hk.
    assert (Hin : o ∈ newest :: page) by by apply last_Some_elem_of.
    pose proof (Hlt o Hin) as Hol.
    apply Hpage, candidates_elem in Hin as (Ha & Hwo & _); [|done].
    pose proof (Hts o Ha Hwo) as Hto.
    apply prog_bind_Ok in Hk as (w2 & c2 & Hp & Hk). unfold lift in Hp.
    rewrite parse_next_cursor in Hp by (try apply Hto; by apply timestamp_int64).
    injection Hp as <- <-. apply prog_bind_Ok in Hk as (w3 & rows' & Hk & [= _ <-]).
    change (newest :: page ++ rows')%list with ((newest :: page) ++ rows')%list.
    intros r [Hr|Hr]%elem_of_app; [by apply Hlt|].
    rewrite <-Hd1 in Hts. specialize (IH (from_next (hr_EvaluatedAt o)) _ _ _ eq_refl Hf1 Hts Hk r Hr). simpl in IH. lia.
Qed.

(** A row as old as the oldest row of a page, that did not fit into the
    page, is in no later page: the next cursor is the time of the oldest row,
    and the next page starts strictly before it. *)
Theorem equal_times_skipped `{PropertiesService} `{EntityLoading} `{UuidLib} os f size io c c' next
    w w1 w2 result fuel rows oldest r
    (Hprops : properties_answer) (Hf : NewListEvaluationFilter (opt_of <$> os) = Ok f)
    (Hw : w_faults w = []) (Hc : cur_Direction c = Next)
    (Hts : ∀ r, r ∈ all_rows (w_db w) io → row_wanted f r → timestamp_ok (hr_EvaluatedAt r))
    (Hrun : ListEvaluationHistory (Some c) size (Some f) io w = (w1, Ok result))
    (Hold : last (lr_Data result).*2 = Some oldest)
    (Hr : r ∈ all_rows (w_db w) io ∧ row_wanted f r ∧ hr_EvaluatedAt r = hr_EvaluatedAt oldest)
    (Hout : r ∉ (lr_Data result).*2)
    (Hnext : lr_Next result = Some next)
    (Hc' : ParseListEvaluationCursor (makeCursor next) = Ok c')
    (Hwalk : walk size f io fuel c' w1 = (w2, Ok rows)) :
  r ∉ ((lr_Data result).*2 ++ rows)%list.
Proof.
  apply accepted_fields in Hf. assert (Hdir : direction_ok c) by by left.
  destruct (ListEvaluationHistory_answers Hprops c size f io Hf Hdir w Hw)
    as (w1' & result' & Hrun' & Hf1 & Hd1).
  rewrite Hrun in Hrun'. injection Hrun' as <- <-.
  destruct (ListEvaluationHistory_Ok _ _ _ _ _ _ _ Hf Hdir Hrun) as (_ & Hcur & _).
  destruct ((lr_Data result).*2) as [|newest page]; [done|].
  cbn [page_cursors] in Hcur. rewrite Hold in Hcur. injection Hcur as Hn _.
  rewrite Hnext in Hn. injection Hn as ->. destruct Hr as (Ha & Hwr & Heq). rewrite <-Heq in Hc'.
  pose proof (Hts r Ha Hwr) as Ht.
  rewrite parse_next_cursor in Hc' by (try apply Ht; by apply timestamp_int64).
  injection Hc' as <-. intros [Hin|Hin]%elem_of_app; [done|]. rewrite <-Hd1 in Hts.
  pose proof (walk_within size f io fuel (from_next (hr_EvaluatedAt r)) w1 w2 rows
    Hprops Hf eq_refl Hf1 Hts Hwalk r Hin) as Hlt.
  simpl in Hlt. lia.
Qed.

(** ** The handlers *)

Lemma list_params_size c size f io p : list_params c size f io = Ok p → lh_Size p = size.
Proof.
  unfold list_params, mbind, res_bind. destruct (toSQLCursor c) as [[n pv]|e|m]; [|done..].
  unfold toSQLFilter, mbind, res_bind. destruct f as [f|]; [|by intros [= <-]].
  repeat (case_match; try done). by intros [= <-].
Qed.

Lemma internal_Ok {A} (m : prog World A) w w' a :
  internal m w = (w', Ok a) → m w = (w', Ok a).
Proof. unfold internal. destruct (m w) as [w1 [x|e|s]]; [|done..]. by intros [= <- <-]. Qed.

Lemma query_Ok_run {A} (g : World → res A) w w' a :
  select g w = (w', Ok a) → ∃ fs, w' = set_faults fs w ∧ g w' = Ok a.
Proof.
  unfold select. destruct (query_cases (λ w, (w, g w)) w) as [(e & fs & ->)|(fs & ->)]; [done|].
  intros [= <- Hg]. by exists fs.
Qed.

Lemma listing_of_nothing `{PropertiesService} `{EntityLoading} c f io w w' result :
  ListEvaluationHistory c 0 f io w = (w', Ok result) → lr_Data result = [].
Proof.
  unfold ListEvaluationHistory. intros (w1 & p & Hp & Hrun)%prog_bind_Ok.
  injection Hp as <- Hp. apply list_params_size in Hp.
  apply prog_bind_Ok in Hrun as (w2 & rows & Hq & Hrun). apply wrapf_Ok in Hq.
  apply query_Ok_run in Hq as (fs & -> & Hq). injection Hq as <-.
  unfold select_rows in Hrun. rewrite Hp in Hrun. simpl in Hrun.
  replace (if is_prev c then _ else _) with (@nil ListEvaluationHistoryRow) in Hrun
    by (by destruct (is_prev c)).
  by injection Hrun as _ <-.
Qed.

(** A page size of zero lists nothing: with a cursor of size zero, which
    the API documents as asking for the default size, a successful answer is
    the empty page whatever the history holds; only a request without a cursor
    gets the default size. *)
Theorem zero_size_page_empty `{UuidLib} `{PropertiesService} `{EntityLoading}
    `{ValueJSON} project rq payload w w' resp
    (Hrq : rq_Cursor rq = Some (payload, 0%Z))
    (Hrun : ListEvaluationHistory_handler project rq w = (w', Ok resp)) :
  resp = {| rs_Data := []; rs_Page := None |} ∧
  request_cursor None = Ok (DefaultCursor, defaultPageSize).
Proof.
  split; [|done]. unfold ListEvaluationHistory_handler in Hrun. rewrite Hrq in Hrun.
  apply prog_bind_Ok in Hrun as (w1 & [c size] & Hc & Hrun).
  injection Hc as <- Hc. unfold request_cursor, mbind, res_bind in Hc.
  assert (size = 0%Z) as ->.
  { destruct (ParseListEvaluationCursor payload); [|done..]. by injection Hc as _ <-. }
  apply prog_bind_Ok in Hrun as (w2 & f & _ & Hrun).
  apply prog_bind_Ok in Hrun as (w3 & [] & _ & Hrun).
  apply prog_bind_Ok in Hrun as (w4 & result & Hl & Hrun).
  apply internal_Ok, listing_of_nothing in Hl.
  apply prog_bind_Ok in Hrun as (w5 & data & Hd & Hrun). rewrite Hl in Hd. injection Hd as _ <-.
  apply prog_bind_Ok in Hrun as (w6 & x & _ & Hrun). by injection Hrun as _ <-.
Qed.

Lemma joined_id d io id s r :
  r ∈ joined d io (id, s) → hr_EvaluationID r = id.
Proof.
  unfold joined. intros Hr.
  assert (∀ (x : option (list ListEvaluationHistoryRow)) l, x = Some l → default [] x = l)
    as Hdef by by intros x l ->.
  destruct (evaluation_rule_entities d !! _) as [ere|]; [simpl in Hr|by apply not_elem_of_nil in Hr].
  destruct (rule_instances d !! _) as [ri|]; [simpl in Hr|by apply not_elem_of_nil in Hr].
  destruct (rule_types d !! _) as [rt|]; [simpl in Hr|by apply not_elem_of_nil in Hr].
  destruct (profiles d !! _) as [p|]; [simpl in Hr|by apply not_elem_of_nil in Hr].
  destruct (entity_instances d !! _) as [ei|]; [simpl in Hr|by apply not_elem_of_nil in Hr].
  case_bool_decide; [simpl in Hr|by apply not_elem_of_nil in Hr].
  apply list_elem_of_bind in Hr as (re & Hr & _).
  apply list_elem_of_bind in Hr as (ae & Hr & _).
  by apply list_elem_of_singleton in Hr as ->.
Qed.

(** The rows of one evaluation. *)
Definition entry_rows (d : Db) (id : UUID) : list ListEvaluationHistoryRow :=
  default [] (s ← evaluation_statuses d !! id; Some (joined d false (id, s))).

Lemma entry_rows_id d id r : r ∈ entry_rows d id → hr_EvaluationID r = id.
Proof.
  unfold entry_rows. destruct (evaluation_statuses d !! id) as [s|];
    [apply joined_id|by intros ?%not_elem_of_nil].
Qed.

Definition entries_of (d : Db) (id project : UUID) : list ListEvaluationHistoryRow :=
  filter (λ r, hr_ProjectID r = project) (entry_rows d id).

Lemma GetEvaluationHistory_query_eq id project :
  GetEvaluationHistory_query id project =
    select (λ w, match entries_of (w_db w) id project with
                 | r :: _ => Ok r
                 | [] => Err ErrNoRows
                 end).
Proof. reflexivity. Qed.

Lemma GetEvaluationHistory_query_Ok id project w w' r :
  GetEvaluationHistory_query id project w = (w', Ok r) →
  r ∈ entry_rows (w_db w) id ∧ hr_ProjectID r = project ∧ hr_EvaluationID r = id.
Proof.
  rewrite GetEvaluationHistory_query_eq. intros (fs & -> & Hq)%query_Ok_run. simpl in Hq.
  destruct (entries_of (w_db w) id project) as [|x l] eqn:Hfil; [done|]. injection Hq as ->.
  assert (Hin : r ∈ entries_of (w_db w) id project) by (rewrite Hfil; by left).
  apply list_elem_of_filter in Hin as [Hp Hin]. split_and!; [done|done|].
  by apply entry_rows_id in Hin.
Qed.

(** What an entry tells of its row. *)
Definition shows `{UuidLib} (h : EvaluationHistory) (r : ListEvaluationHistoryRow) : Prop :=
  eh_Id h = uuid_String (hr_EvaluationID r) ∧ eh_EvaluatedAt h = hr_EvaluatedAt r ∧
  eh_EntityId h = uuid_String (hr_EntityID r) ∧ eh_EntityName h = hr_EntityName r ∧
  eh_RuleName h = hr_RuleName r ∧ eh_RuleType h = hr_RuleType r ∧
  eh_Profile h = hr_ProfileName r ∧ eh_Status h = hr_EvaluationStatus r ∧
  eh_Details h = hr_EvaluationDetails r ∧
  eh_Alert h = getAlert (hr_AlertStatus r) (hr_AlertDetails r) ∧
  eh_Remediation h = getRemediation (hr_RemediationStatus r) (hr_RemediationDetails r).

(** The output of an evaluation, where it is asked for and can be decoded. *)
Definition output_shown `{ValueJSON} (d : Db) (io : bool) (id : UUID) : option any :=
  if io then
    o ← evaluation_outputs d !! id;
    raw ← eo_Output o;
    match value_Unmarshal raw with inl v => Some v | inr _ => None end
  else None.

(** C32: an entry of the history is shown to its own project, and to no other.
    Whatever fails, an answer of the handler is a row of the evaluation asked
    for about an entity of the caller's project.  With a working connection, an
    evaluation with such a row, of a severity the program knows, is answered
    with it; one that has none is reported as not found, the evaluation of
    another project exactly as one that does not exist. *)
Theorem history_entry_project_scoped `{UuidLib} `{ValueJSON} project id io w evalID
    (Hid : uuid_Parse id = Ok evalID) :
  (∀ w' h, GetEvaluationHistory_handler project id io w = (w', Ok h) →
     ∃ r, r ∈ entry_rows (w_db w) evalID ∧ hr_ProjectID r = project ∧
       hr_EvaluationID r = evalID ∧ shows h r) ∧
  (w_faults w = [] →
     match entries_of (w_db w) evalID project with
     | r :: _ => is_ok (dbSeverityToSeverity (hr_RuleSeverity r)) = true →
         ∃ h, GetEvaluationHistory_handler project id io w = (w, Ok h) ∧ shows h r ∧
                eh_Output h = output_shown (w_db w) io evalID
     | [] => GetEvaluationHistory_handler project id io w
               = (w, Err (status_error "NotFound" "evaluation not found"))
     end).
Proof.
  unfold GetEvaluationHistory_handler. rewrite Hid. split.
  - intros w' h (w1 & ev & Htry & Hrun)%prog_bind_Ok. unfold try in Htry.
    destruct (GetEvaluationHistory_query evalID project w) as [w2 [row|e|m]] eqn:Hq;
      [injection Htry as <- <-|injection Htry as <- <-; by destruct (is_in e ErrNoRows)|done].
    apply GetEvaluationHistory_query_Ok in Hq as (Hin & Hp & Hrid).
    apply prog_bind_Ok in Hrun as (w3 & severity & Hsev & Hrun).
    apply prog_bind_Ok in Hrun as (w4 & output & _ & Hrun). injection Hrun as _ <-.
    exists row. unfold shows. cbn. by split_and!.
  - intros Hw.
    assert (Hq : GetEvaluationHistory_query evalID project w
      = (w, match entries_of (w_db w) evalID project with r :: _ => Ok r | [] => Err ErrNoRows end))
      by (by rewrite GetEvaluationHistory_query_eq, select_ok).
    destruct (entries_of (w_db w) evalID project) as [|r l] eqn:He.
    { unfold mbind, prog_bind, try. by rewrite Hq. }
    intros Hsev. destruct (dbSeverityToSeverity _) as [sev|?|?] eqn:Hs; [|done..].
    assert (Hrid : hr_EvaluationID r = evalID).
    { assert (Hin : r ∈ entries_of (w_db w) evalID project) by (rewrite He; by left).
      apply list_elem_of_filter in Hin as [_ Hin]. by apply entry_rows_id in Hin. }
    unfold mbind, prog_bind, try, internal, lift. rewrite Hq. cbn. rewrite Hs. cbn.
    unfold output_shown, shows. rewrite Hrid.
    destruct io; [unfold GetEvaluationOutput; rewrite select_ok by done;
      destruct (evaluation_outputs (w_db w) !! evalID)|];
      eexists; (split; [reflexivity|]); cbn; rewrite ?Hrid; by split_and!.
Qed.

(** ** A small history: one rule on one repository, evaluated at the given times *)

Definition ex_status (t : Time.t) : EvaluationStatus :=
  {| es_RuleEntityID := 50%N; es_Status := EvalStatusTypesSuccess; es_Details := "";
     es_EvaluationTime := t; es_Checkpoint := "" |}.

Definition ex_history_world (times : list (UUID * Time.t)) : World :=
  ex_world (set_history
    {| h_entities := {[50%N := {| ere_RuleID := 20%N; ere_EntityType := "repository";
                                  ere_EntityInstanceID := 7%N |}]};
       h_statuses := list_to_map (prod_map id ex_status <$> times);
       h_latest := ∅; h_outputs := ∅; h_remediations := []; h_alerts := [] |} ex_db) [].

Definition ex_listing_properties : PropertiesService :=
  {| EntityWithPropertiesByID id :=
       mret (ex_entity id);
     EntityWithPropertiesAsProto ewp := throw ErrEntityNotFound |}.
Definition ex_loading : EntityLoading :=
  {| RetrieveAllPropertiesForEntity ewp := mret ewp |}.
Definition ex_value_json : ValueJSON :=
  {| value_Unmarshal _ := inr (EText "no output"); value_zero := Any "null" |}.

Lemma ex_properties_answer : @properties_answer ex_listing_properties ex_loading.
Proof. split; intros x; apply answers_ret. Qed.

(** The filter of the project 2. *)
Definition ex_filter : listEvaluationFilter :=
  match NewListEvaluationFilter (@opt_of decimal_uuid <$> [OProject 2%N]) with
  | Ok f => f
  | _ => empty_filter
  end.

(** Three evaluations, two of them at the same time. *)
Definition ex_times : list (UUID * Time.t) := [(61%N, 1000%Z); (62%N, 3000%Z); (63%N, 2000%Z)].
Definition ex_tied_times : list (UUID * Time.t) := [(61%N, 1000%Z); (62%N, 1000%Z)].

Lemma ex_rows_timestamps times :
  forallb (λ r, (Z.eqb (hr_EvaluatedAt r mod 1000) 0) && (0 <=? hr_EvaluatedAt r)%Z &&
                (hr_EvaluatedAt r <? cur_Time DefaultCursor)%Z)
    (all_rows (w_db (ex_history_world times)) false) = true →
  ∀ r, r ∈ all_rows (w_db (ex_history_world times)) false → row_wanted ex_filter r →
    timestamp_ok (hr_EvaluatedAt r).
Proof.
  intros Hall r Hr%list_elem_of_In _. rewrite forallb_forall in Hall.
  apply Hall in Hr. rewrite !andb_true_iff in Hr. destruct Hr as [[H1 H2] H3].
  split; [|lia]. apply Z.mod_divide; lia.
Qed.

Lemma history_page_sound_witness :
  match @ListEvaluationHistory ex_listing_properties ex_loading (Some DefaultCursor) 2
          (Some ex_filter) false (ex_history_world ex_times) with
  | (_, Ok result) =>
      (length (lr_Data result).*2 ≤ 2)%nat ∧ StronglySorted newer_first (lr_Data result).*2
  | _ => False
  end.
Proof.
  destruct (@ListEvaluationHistory _ _ _ _ _ _ _) as [w' [result|e|m]] eqn:Hrun;
    [|by vm_compute in Hrun..].
  destruct (@history_page_sound ex_listing_properties ex_loading decimal_uuid [OProject 2%N]
    ex_filter DefaultCursor 2 false _ w' result eq_refl (or_introl eq_refl) Hrun)
    as (H1 & H2 & _). split; [exact H1|exact H2].
Defined.

Lemma history_pages_complete_witness :
  ∃ w' rows, @walk ex_listing_properties ex_loading 1 ex_filter false 4 DefaultCursor
      (ex_history_world ex_times) = (w', Ok rows) ∧ length rows = 3 ∧
    StronglySorted newer_first rows.
Proof.
  destruct (@history_pages_complete ex_listing_properties ex_loading decimal_uuid [OProject 2%N]
    ex_filter 1 false (ex_history_world ex_times) 4 ex_properties_answer eq_refl eq_refl)
    as (w' & rows & Hrun & Hp & Hs).
  - lia.
  - apply ex_rows_timestamps. by vm_compute.
  - apply (bool_decide_unpack _). by vm_compute.
  - apply Nat.ltb_lt. by vm_compute.
  - exists w', rows. split_and!; [exact Hrun| |exact Hs].
    rewrite (Permutation_length Hp). by vm_compute.
Defined.

(** The rows of the tied history, and the first page of one row. *)
Definition ex_tied_world : World := ex_history_world ex_tied_times.
Definition ex_tied_page : World * res ListEvaluationHistoryResult :=
  @ListEvaluationHistory ex_listing_properties ex_loading (Some DefaultCursor) 1
    (Some ex_filter) false ex_tied_world.
Definition ex_tied_row (i : nat) : option ListEvaluationHistoryRow :=
  all_rows (w_db ex_tied_world) false !! i.

Lemma equal_times_skipped_witness :
  match ex_tied_page, ex_tied_row 1 with
  | (w1, Ok result), Some r =>
      match @walk ex_listing_properties ex_loading 1 ex_filter false 3
              (from_next 1000%Z) w1 with
      | (_, Ok rows) => row_wanted ex_filter r ∧ r ∉ ((lr_Data result).*2 ++ rows)%list
      | _ => False
      end
  | _, _ => False
  end.
Proof.
  destruct ex_tied_page as [w1 [result|e|m]] eqn:Hrun; [|by vm_compute in Hrun..].
  destruct (ex_tied_row 1) as [r|] eqn:Hr; [|by vm_compute in Hr].
  destruct (walk _ _ _ _ _ _) as [w2 [rows|e|m]] eqn:Hwalk;
    [|vm_compute in Hrun; injection Hrun as <- <-; by vm_compute in Hwalk..].
  assert (Hw : row_wanted ex_filter r).
  { vm_compute in Hr. injection Hr as <-. apply (bool_decide_unpack _). by vm_compute. }
  split; [exact Hw|].
  assert (Hold : ∃ oldest, last (lr_Data result).*2 = Some oldest ∧
    hr_EvaluatedAt r = hr_EvaluatedAt oldest ∧ (r ∉ (lr_Data result).*2) ∧
    lr_Next result = Some (next_cursor 1000%Z)).
  { vm_compute in Hrun. injection Hrun as _ <-. vm_compute in Hr. injection Hr as <-.
    eexists. split_and!; [by vm_compute|done| |by vm_compute].
    simpl. rewrite list_elem_of_singleton. intros [=]. }
  destruct Hold as (oldest & Hold & Heq & Hout & Hnext).
  refine (@equal_times_skipped ex_listing_properties ex_loading decimal_uuid [OProject 2%N]
    ex_filter 1 false DefaultCursor (from_next 1000%Z) _ ex_tied_world w1 w2 result 3 rows oldest r
    ex_properties_answer eq_refl eq_refl eq_refl _ Hrun Hold _ Hout Hnext _ Hwalk).
  - apply ex_rows_timestamps. by vm_compute.
  - split_and!; [|exact Hw|exact Heq]. by eapply list_elem_of_lookup_2.
  - by vm_compute.
Defined.

Definition ex_request : ListEvaluationHistoryRequest :=
  {| rq_Cursor := Some ("", 0%Z); rq_EntityType := []; rq_EntityName := []; rq_ProfileName := [];
     rq_LabelFilter := []; rq_Status := []; rq_Remediation := []; rq_Alert := [];
     rq_From := None; rq_To := None; rq_IncludeOutputs := false |}.

(** Three evaluations match, and the answer holds none. *)
Lemma zero_size_page_empty_witness :
  length (all_rows (w_db (ex_history_world ex_times)) false) = 3 ∧
  match @ListEvaluationHistory_handler decimal_uuid ex_listing_properties ex_loading
          ex_value_json 2%N ex_request (ex_history_world ex_times) with
  | (_, Ok resp) => resp = {| rs_Data := []; rs_Page := None |}
  | _ => False
  end.
Proof.
  split; [by vm_compute|].
  destruct (@ListEvaluationHistory_handler _ _ _ _ _ _ _) as [w' [resp|e|m]] eqn:Hrun;
    [|by vm_compute in Hrun..].
  exact (proj1 (@zero_size_page_empty decimal_uuid ex_listing_properties ex_loading
    ex_value_json 2%N ex_request "" _ w' resp eq_refl Hrun)).
Defined.

(** The evaluation 61 of the project 2, asked for by the project 3. *)
Lemma history_entry_project_scoped_witness :
  @GetEvaluationHistory_handler decimal_uuid ex_value_json 3%N "61" false
    (ex_history_world ex_times)
  = (ex_history_world ex_times, Err (status_error "NotFound" "evaluation not found")) ∧
  ∃ h, @GetEvaluationHistory_handler decimal_uuid ex_value_json 2%N "61" false
         (ex_history_world ex_times) = (ex_history_world ex_times, Ok h) ∧
    eh_Id h = "61" ∧ eh_Status h = EvalStatusTypesSuccess.
Proof.
  pose proof (λ project, proj2 (@history_entry_project_scoped decimal_uuid ex_value_json project
    "61" false (ex_history_world ex_times) 61%N eq_refl) eq_refl) as Hall.
  split.
  - specialize (Hall 3%N).
    replace (entries_of (w_db (ex_history_world ex_times)) 61%N 3%N)
      with (@nil ListEvaluationHistoryRow) in Hall by (by vm_compute). exact Hall.
  - specialize (Hall 2%N).
    destruct (entries_of _ 61%N 2%N) as [|r l] eqn:He; [by vm_compute in He|].
    vm_compute in He. injection He as <- <-.
    destruct (Hall eq_refl) as (h & Hrun & (Hid & _ & _ & _ & _ & _ & _ & Hs & _) & _).
    exists h. split; [exact Hrun|]. split; [exact Hid|exact Hs].
Defined.
