(* ===== verification/RuleEval.v ===== *)
(** * Evaluating one rule: pkg/engine/v1/rtengine/engine.go

    [RuleTypeEngine.Eval] and the ingest cache of internal/engine/ingestcache/.
    The ingester, the evaluator and the schema validation of a rule type are
    interfaces of the code; the world [X] they act on is theirs.  The cache is
    shared by the rule type engines of one entity evaluation. *)

From Stdlib Require Import Ascii.
From S2P Require Import Prelude GoErrors GoMonad GoStrings EngineErrors EntityEvent ProfileModels.
Local Open Scope string_scope.

(** [interfaces.Ingester]: the configuration is nil, or a message with what
    [protojson.Marshal] gives for it. *)
Record Ingester (X : Type) := {
  ing_GetType : string;
  ing_GetConfig : option (string + gerr);
  ing_Ingest : option ProtoMessage → option any → prog X (option Ingested);
}.
Arguments ing_GetType {X} _.
Arguments ing_GetConfig {X} _.
Arguments ing_Ingest {X} _ _ _.

(** The validator fills the defaults of the map it is given in place. *)
Record RuleTypeEngine (X : Type) := {
  rte_ValidateRuleDef : any → any * error;
  rte_ValidateParams : any → any * error;
  rte_ingester : Ingester X;
  rte_evaluator : option any → option ProtoMessage → option Ingested →
                  prog X (option EvaluationResult * error);
}.
Arguments rte_ValidateRuleDef {X} _ _.
Arguments rte_ValidateParams {X} _ _.
Arguments rte_ingester {X} _.
Arguments rte_evaluator {X} _ _ _ _.

(** [sha512], and the marshalling of an entity and of the parameters. *)
Class CacheKeys := {
  sha512_sum : string → string;
  marshal_entity : option ProtoMessage → string + gerr;
  marshal_params : any → string + gerr;
}.

Definition ErrBuildingCacheKey : gerr :=
  ENew "ingestcache.ErrBuildingCacheKey" "error building cache key".

(** [None] is the [NoopCache]. *)
Abbreviation IngestCache := (option (gmap string (option Ingested))).
Definition NewCache : IngestCache := Some ∅.
Definition NewNoopCache : IngestCache := None.

Record EvalState (X : Type) := {
  evs_ext : X;
  evs_cache : IngestCache;
  evs_params : EvalStatusParams;
}.
Arguments evs_ext {X} _.
Arguments evs_cache {X} _.
Arguments evs_params {X} _.

Definition marshalled (what : string) (m : string + gerr) : res string :=
  match m with
  | inl s => Ok s
  | inr _ => Err (EWrap "" ErrBuildingCacheKey (": couldn't marshal " +:+ what))
  end.

Section eval.
Context {X : Type} `{CacheKeys}.

(** The checksum is written piece by piece, without separators. *)
Definition buildCacheKey (ingester : Ingester X) (entity : option ProtoMessage)
    (ruleparams : option any) : res string :=
  cfg ← match ing_GetConfig ingester with
        | Some c => marshalled "config" c
        | None => Ok ""
        end;
  ent ← marshalled "entity" (marshal_entity entity);
  prm ← match ruleparams with
        | Some p => marshalled "rule params" (marshal_params p)
        | None => Ok ""
        end;
  Ok (sha512_sum (ing_GetType ingester +:+ cfg +:+ ent +:+ prm)).

Definition Cache_Get (c : IngestCache) (ingester : Ingester X)
    (entity : option ProtoMessage) (ruleparams : option any) : option (option Ingested) :=
  m ← c;
  match buildCacheKey ingester entity ruleparams with
  | Ok key => m !! key
  | _ => None
  end.

Definition Cache_Set (c : IngestCache) (ingester : Ingester X)
    (entity : option ProtoMessage) (ruleparams : option any) (result : option Ingested)
    : IngestCache :=
  match c with
  | None => None
  | Some m => match buildCacheKey ingester entity ruleparams with
              | Ok key => Some (<[key := result]> m)
              | _ => Some m
              end
  end.

(** An action of the ingester or the evaluator. *)
Definition on_ext {A} (m : prog X A) : prog (EvalState X) A := λ s,
  let '(x, r) := m (evs_ext s) in
  ({| evs_ext := x; evs_cache := evs_cache s; evs_params := evs_params s |}, r).

Definition set_params (f : EvalStatusParams → EvalStatusParams) : prog (EvalState X) unit :=
  modify (λ s, {| evs_ext := evs_ext s; evs_cache := evs_cache s;
                  evs_params := f (evs_params s) |}).

Definition set_cache (c : IngestCache) : prog (EvalState X) unit :=
  modify (λ s, {| evs_ext := evs_ext s; evs_cache := c; evs_params := evs_params s |}).

(** The rule's definition and parameters are the maps of the parameters' rule. *)
Definition validate (what : string) (check : any → any * error) (m : option any)
    (put : option any → EvalStatusParams → EvalStatusParams) : prog (EvalState X) unit :=
  match m with
  | None => mret tt
  | Some a =>
      let '(a', err) := check a in
      set_params (put (Some a'));;
      match err with
      | Some e => throw (EWrap ("rule " +:+ what +:+ " validation failed: ") e "")
      | None => mret tt
      end
  end.

Definition put_Def (def : option any) (e : EvalStatusParams) : EvalStatusParams :=
  SetRuleMaps def (ri_Params (esp_Rule e)) e.
Definition put_Params (prm : option any) (e : EvalStatusParams) : EvalStatusParams :=
  SetRuleMaps (ri_Def (esp_Rule e)) prm e.

Definition rule_now : prog (EvalState X) RuleInstance :=
  gets (λ s, esp_Rule (evs_params s)).

(** The data from the cache, or from the ingester and into the cache. *)
Definition ingest (r : RuleTypeEngine X) (entity : option ProtoMessage)
    (ruleParams : option any) : prog (EvalState X) (option Ingested) :=
  c ← gets evs_cache;
  match Cache_Get c (rte_ingester r) entity ruleParams with
  | Some data => mret data
  | None =>
      data ← wrapf "error ingesting data: "
               (on_ext (ing_Ingest (rte_ingester r) entity ruleParams));
      set_cache (Cache_Set c (rte_ingester r) entity ruleParams data);;
      mret data
  end.

Definition eval_body (r : RuleTypeEngine X) (entity : option ProtoMessage)
    : prog (EvalState X) (option EvaluationResult * error) :=
  rule ← rule_now;
  validate "definition" (rte_ValidateRuleDef r) (ri_Def rule) put_Def;;
  validate "parameters" (rte_ValidateParams r) (ri_Params rule) put_Params;;
  rule ← rule_now;
  data ← ingest r entity (ri_Params rule);
  set_params (SetIngestResult data);;
  on_ext (rte_evaluator r (ri_Def rule) entity data).

(** The deferred function recovers a panic into the named error; the named
    result keeps its zero value. *)
Definition Eval (r : RuleTypeEngine X) (entity : option ProtoMessage)
    : prog (EvalState X) (option EvaluationResult * error) := λ s,
  match eval_body r entity s with
  | (s', Ok v) => (s', Ok v)
  | (s', Err e) => (s', Ok (None, Some e))
  | (s', Panic _) => (s', Ok (None, Some ErrInternal))
  end.
End eval.

(** ** Lemmas *)

Definition with_cache {X} (c : IngestCache) (s : EvalState X) : EvalState X :=
  {| evs_ext := evs_ext s; evs_cache := c; evs_params := evs_params s |}.

Section eval_lemmas.
Context {X : Type} `{CacheKeys}.

Lemma validate_cases what check m put (s : EvalState X) :
  ∃ f r, ∀ c, validate what check m put (with_cache c s) =
    ({| evs_ext := evs_ext s; evs_cache := c; evs_params := f (evs_params s) |}, r).
Proof.
  unfold validate. destruct m as [a|].
  - destruct (check a) as [a' [e|]] eqn:Hc; eexists (put (Some a')), _; intros c; done.
  - by exists (λ p, p), (Ok tt).
Qed.

(** A recovered panic is the only difference between [Eval] and its body. *)
Lemma Eval_run (r : RuleTypeEngine X) entity s s' res :
  Eval r entity s = (s', res) → is_ok res = true.
Proof.
  unfold Eval. destruct (eval_body r entity s) as [s1 [v|e|m]]; by intros [= _ <-].
Qed.

Lemma Cache_Get_Set c (i : Ingester X) entity prm key data :
  buildCacheKey i entity prm = Ok key → c ≠ NewNoopCache →
  Cache_Get (Cache_Set c i entity prm data) i entity prm = Some data.
Proof.
  intros Hk Hc. destruct c as [m|]; [|done]. unfold Cache_Set, Cache_Get. rewrite Hk.
  simpl. by rewrite lookup_insert_eq.
Qed.

(** ** JSON objects end where they end

    [skip_object] reads an object off the front of a text: braces are counted
    outside of strings, in which a backslash takes the next character along. *)
Inductive json_place := JOutside | JString | JEscaped.

Fixpoint skip_object (place : json_place) (depth : nat) (s : string) : option string :=
  match s with
  | "" => None
  | String c s =>
      match place with
      | JEscaped => skip_object JString depth s
      | JString =>
          if Ascii.eqb c "\"%char then skip_object JEscaped depth s
          else if Ascii.eqb c "034"%char then skip_object JOutside depth s
          else skip_object JString depth s
      | JOutside =>
          if Ascii.eqb c "{"%char then skip_object JOutside (S depth) s
          else if Ascii.eqb c "}"%char then
            match depth with
            | O => None
            | S O => Some s
            | S depth => skip_object JOutside depth s
            end
          else match depth with
               | O => None
               | S _ => if Ascii.eqb c "034"%char then skip_object JString depth s
                        else skip_object JOutside depth s
               end
      end
  end.

Definition json_object (s : string) : Prop := skip_object JOutside 0 s = Some "".

Lemma skip_object_app s : ∀ place depth rest t,
  skip_object place depth s = Some rest →
  skip_object place depth (s +:+ t) = Some (rest +:+ t).
Proof.
  induction s as [|c s IH]; intros place depth rest t; [done|]. rewrite append_cons. cbn [skip_object].
  destruct place; repeat case_match; try done; try apply IH. by intros [= ->].
Qed.

Lemma append_inj_r a b x : a +:+ x = b +:+ x → a = b.
Proof.
  intros Heq. assert (Hl : String.length a = String.length b)
    by (apply (f_equal String.length) in Heq; rewrite !length_append in Heq; lia).
  revert b Hl Heq. induction a as [|c a IH]; intros [|d b] Hl Heq; try done.
  rewrite !append_cons in Heq. injection Heq as -> Heq. f_equal. apply IH; [by injection Hl|done].
Qed.

(** What follows an object does not matter. *)
Lemma json_object_app_inj a b x y :
  json_object a → json_object b → a +:+ x = b +:+ y → a = b ∧ x = y.
Proof.
  intros Ha Hb Heq.
  assert (x = y) as <-.
  { apply (skip_object_app _ _ _ _ x) in Ha. apply (skip_object_app _ _ _ _ y) in Hb.
    rewrite Heq, Hb in Ha. by injection Ha. }
  split; [|done]. by apply append_inj_r in Heq.
Qed.

Section transparent.
(** The engines of one entity evaluation.  Their ingesters read: an answer, or an
    error, depends on the type and the configuration of the ingester and on the
    entity and the parameters, as they are marshalled. *)
Context (engines : list (RuleTypeEngine X)).
Context (answer : string → option (string + gerr) → string + gerr → option (string + gerr) →
                  res (option Ingested)).

Definition answer_of (i : Ingester X) (entity : option ProtoMessage) (prm : option any)
    : res (option Ingested) :=
  answer (ing_GetType i) (ing_GetConfig i) (marshal_entity entity) (marshal_params <$> prm).

Record ingesters_ok := {
  (** the checksums of two texts differ *)
  io_sum : ∀ a b, sha512_sum a = sha512_sum b → a = b;
  (** messages and maps are marshalled as JSON objects *)
  io_entity : ∀ e t, marshal_entity e = inl t → json_object t;
  io_params : ∀ p t, marshal_params p = inl t → json_object t;
  io_config : ∀ r t, r ∈ engines → ing_GetConfig (rte_ingester r) = Some (inl t) → json_object t;
  (** a type is a word, and says whether there is a configuration *)
  io_type : ∀ r, r ∈ engines → Strings.Contains (ing_GetType (rte_ingester r)) "{" = false;
  io_configured : ∀ r1 r2, r1 ∈ engines → r2 ∈ engines →
    ing_GetType (rte_ingester r1) = ing_GetType (rte_ingester r2) →
    (ing_GetConfig (rte_ingester r1) = None ↔ ing_GetConfig (rte_ingester r2) = None);
  io_reads : ∀ r entity prm x, r ∈ engines →
    ing_Ingest (rte_ingester r) entity prm x = (x, answer_of (rte_ingester r) entity prm);
}.

Hypothesis Hio : ingesters_ok.

Lemma marshalled_Ok what m s : marshalled what m = Ok s → m = inl s.
Proof. by destruct m; intros [= ->]. Qed.

Lemma type_split a b x y :
  Strings.Contains a "{" = false → Strings.Contains b "{" = false →
  json_object x → json_object y → ∀ u v,
  a +:+ (x +:+ u) = b +:+ (y +:+ v) → a = b ∧ x +:+ u = y +:+ v.
Proof.
  intros Ha Hb Hx Hy u v. revert b Hb.
  assert (Hbrace : ∀ z w c t, json_object z → z +:+ w = String c t → c = "{"%char).
  { intros z w c t Hz. destruct z as [|c' z]; [done|]. rewrite append_cons. intros [= -> _].
    unfold json_object in Hz. cbn in Hz. destruct (Ascii.eqb_spec c "{"%char); [done|].
    by destruct (Ascii.eqb c "}"%char). }
  induction a as [|c a IH]; intros [|d b] Hb Heq; [done| | |].
  - assert (d = "{"%char) as -> by (by eapply (Hbrace x u), Heq). done.
  - assert (c = "{"%char) as -> by (by eapply (Hbrace y v); [|symmetry; exact Heq]). done.
  - rewrite !append_cons in Heq. injection Heq as -> Heq. cbn in Ha, Hb.
    apply orb_false_iff in Ha as [_ Ha], Hb as [_ Hb].
    by destruct (IH Ha b Hb Heq) as [-> ->].
Qed.

(** The parts of the text whose checksum is the key. *)
Lemma buildCacheKey_parts (i : Ingester X) entity prm key :
  buildCacheKey i entity prm = Ok key → ∃ cfg ent p,
    key = sha512_sum (ing_GetType i +:+ cfg +:+ ent +:+ p) ∧ marshal_entity entity = inl ent ∧
    match ing_GetConfig i with Some c => c = inl cfg | None => cfg = "" end ∧
    match prm with Some a => marshal_params a = inl p | None => p = "" end.
Proof.
  unfold buildCacheKey, mbind, res_bind.
  destruct (ing_GetConfig i) as [c|]; cbn;
    [destruct (marshalled "config" c) as [cfg|?|?] eqn:Hc; [apply marshalled_Ok in Hc|done..]|];
    (destruct (marshalled "entity" _) as [ent|?|?] eqn:He; [apply marshalled_Ok in He|done..]);
    (destruct prm as [a|]; cbn;
      [destruct (marshalled "rule params" _) as [p|?|?] eqn:Hp; [apply marshalled_Ok in Hp|done..]|]);
    intros [= <-]; eauto 10.
Qed.

(** Requests with the same key are answered the same. *)
Lemma same_key_same_answer r1 r2 e1 e2 p1 p2 key :
  r1 ∈ engines → r2 ∈ engines →
  buildCacheKey (rte_ingester r1) e1 p1 = Ok key →
  buildCacheKey (rte_ingester r2) e2 p2 = Ok key →
  answer_of (rte_ingester r1) e1 p1 = answer_of (rte_ingester r2) e2 p2.
Proof using Hio.
  intros Hr1 Hr2 (c1 & t1 & q1 & -> & He1 & Hc1 & Hp1)%buildCacheKey_parts
    (c2 & t2 & q2 & Hsum & He2 & Hc2 & Hp2)%buildCacheKey_parts.
  apply (io_sum Hio) in Hsum. unfold answer_of. rewrite He1, He2.
  pose proof (io_entity Hio _ _ He1) as Ho1. pose proof (io_entity Hio _ _ He2) as Ho2.
  pose proof (io_configured Hio _ _ Hr1 Hr2) as Hconf.
  pose proof (io_config Hio _ c1 Hr1) as Hj1. pose proof (io_config Hio _ c2 Hr2) as Hj2.
  assert (Hrest : ∀ u v, t1 +:+ u = t2 +:+ v → t1 = t2 ∧ u = v)
    by (intros u v; by apply json_object_app_inj).
  assert (Hty : ∀ a b u v, json_object a → json_object b →
    ing_GetType (rte_ingester r1) +:+ (a +:+ u) = ing_GetType (rte_ingester r2) +:+ (b +:+ v) →
    ing_GetType (rte_ingester r1) = ing_GetType (rte_ingester r2) ∧ a +:+ u = b +:+ v)
    by (intros a b u v ??; apply type_split; try done; by apply (io_type Hio)).
  assert (Htail : t1 = t2 ∧ q1 = q2 ∧ ing_GetType (rte_ingester r1) = ing_GetType (rte_ingester r2) ∧
                  ing_GetConfig (rte_ingester r1) = ing_GetConfig (rte_ingester r2)).
  { destruct (ing_GetConfig (rte_ingester r1)) as [cfg1|], (ing_GetConfig (rte_ingester r2)) as [cfg2|];
      subst.
    - apply Hty in Hsum as [Ht Hsum]; [|by auto..].
      apply json_object_app_inj in Hsum as [-> Hsum]; [|by auto..].
      by apply Hrest in Hsum as [-> ->].
    - apply (Hty _ t2 _ q2) in Hsum as [Ht _]; [|by auto..]. by pose proof (proj2 (Hconf Ht) eq_refl).
    - apply (Hty t1 _ q1 _) in Hsum as [Ht _]; [|by auto..]. by pose proof (proj1 (Hconf Ht) eq_refl).
    - apply (Hty t1 t2 q1 q2) in Hsum as [Ht Hsum]; [|done..].
      by apply Hrest in Hsum as [-> ->]. }
  destruct Htail as (-> & -> & -> & ->). f_equal.
  destruct p1 as [a1|], p2 as [a2|]; cbn; [by rewrite Hp1, Hp2| | |done]; subst.
  - by apply (io_params Hio) in Hp1.
  - by apply (io_params Hio) in Hp2.
Qed.

(** What is in the cache is what the ingester would answer. *)
Definition cache_ok (c : IngestCache) : Prop :=
  ∀ r e p data, r ∈ engines → Cache_Get c (rte_ingester r) e p = Some data →
    answer_of (rte_ingester r) e p = Ok data.

Lemma cache_ok_new : cache_ok NewCache.
Proof.
  intros r e p data _. unfold Cache_Get, NewCache. cbn.
  destruct (buildCacheKey _ _ _); [|done..]. by rewrite lookup_empty.
Qed.

Lemma cache_ok_set c r e p data :
  r ∈ engines → answer_of (rte_ingester r) e p = Ok data → cache_ok c →
  cache_ok (Cache_Set c (rte_ingester r) e p data).
Proof using Hio.
  intros Hr Ha Hok r' e' p' data' Hr'. unfold Cache_Set. destruct c as [m|]; [|done].
  destruct (buildCacheKey (rte_ingester r) e p) as [key|?|?] eqn:Hk; [|by apply Hok..].
  unfold Cache_Get. cbn.
  destruct (buildCacheKey (rte_ingester r') e' p') as [key'|?|?] eqn:Hk'; [|done..].
  intros [[<- <-]|[_ Hd]]%lookup_insert_Some.
  - rewrite <-Ha. by eapply same_key_same_answer.
  - apply Hok; [done|]. unfold Cache_Get. cbn. by rewrite Hk'.
Qed.

(** Data comes as if there was no cache. *)
Lemma ingest_answer r entity prm s :
  r ∈ engines → cache_ok (evs_cache s) → ∃ c, cache_ok c ∧
  ingest r entity prm s =
    (with_cache c s, match answer_of (rte_ingester r) entity prm with
                     | Ok d => Ok d
                     | Err e => Err (EWrap "error ingesting data: " e "")
                     | Panic m => Panic m
                     end).
Proof using Hio.
  intros Hr Hok. unfold ingest, mbind, prog_bind, gets. cbn.
  destruct (Cache_Get _ _ _ _) as [data|] eqn:Hg.
  - exists (evs_cache s). split; [done|]. rewrite (Hok _ _ _ _ Hr Hg). by destruct s.
  - unfold wrapf, on_ext. rewrite (io_reads Hio) by done. cbn.
    destruct (answer_of _ _ _) as [d|e|m] eqn:Ha; cbn; (eexists; split; [|reflexivity]); [|done..].
    by apply cache_ok_set.
Qed.

Lemma ingest_uncached r entity prm s :
  r ∈ engines → evs_cache s = NewNoopCache → (ingest r entity prm s).1 = s.
Proof using Hio.
  intros Hr Hc. unfold ingest, mbind, prog_bind, gets, wrapf, on_ext. cbn. rewrite Hc. cbn.
  rewrite (io_reads Hio) by done. destruct s as [x c p]. cbn in *. subst c.
  by destruct (answer_of _ _ _).
Qed.

Lemma eval_body_transparent r entity x0 c0 p0 :
  r ∈ engines → cache_ok c0 →
  ∃ c x p res,
    eval_body r entity {| evs_ext := x0; evs_cache := c0; evs_params := p0 |}
      = ({| evs_ext := x; evs_cache := c; evs_params := p |}, res) ∧
    eval_body r entity {| evs_ext := x0; evs_cache := NewNoopCache; evs_params := p0 |}
      = ({| evs_ext := x; evs_cache := NewNoopCache; evs_params := p |}, res) ∧
    cache_ok c.
Proof using Hio.
  intros Hr Hok. unfold eval_body. cbn.
  unfold mbind, prog_bind, rule_now, gets. cbn.
  destruct (validate_cases "definition" (rte_ValidateRuleDef r) (ri_Def (esp_Rule p0)) put_Def
    {| evs_ext := x0; evs_cache := c0; evs_params := p0 |}) as (f1 & r1 & H1).
  unfold with_cache in H1. cbn in H1. rewrite (H1 c0), (H1 NewNoopCache).
  destruct r1 as [[]|e|m]; [|by exists c0; eauto 10..].
  destruct (validate_cases "parameters" (rte_ValidateParams r) (ri_Params (esp_Rule p0)) put_Params
    {| evs_ext := x0; evs_cache := c0; evs_params := f1 p0 |}) as (f2 & r2 & H2).
  unfold with_cache in H2. cbn in H2. rewrite (H2 c0), (H2 NewNoopCache).
  destruct r2 as [[]|e|m]; [|by exists c0; eauto 10..].
  set (p2 := f2 (f1 p0)).
  destruct (ingest_answer r entity (ri_Params (esp_Rule p2))
    {| evs_ext := x0; evs_cache := c0; evs_params := p2 |} Hr Hok) as (c1 & Hc1 & E1).
  destruct (ingest_answer r entity (ri_Params (esp_Rule p2))
    {| evs_ext := x0; evs_cache := NewNoopCache; evs_params := p2 |} Hr) as (c2 & _ & E2); [done|].
  pose proof (ingest_uncached r entity (ri_Params (esp_Rule p2))
    {| evs_ext := x0; evs_cache := NewNoopCache; evs_params := p2 |} Hr eq_refl) as E3.
  rewrite E2 in E3. unfold with_cache in *. cbn in *. rewrite E1, E2.
  injection E3 as ->.
  destruct (answer_of _ _ _) as [d|e|m]; [|by exists c1; eauto 10..].
  unfold set_params, modify, on_ext. cbn.
  destruct (rte_evaluator _ _ _ _ _) as [x' res]. by eauto 10.
Qed.
End transparent.

(** The rules of an entity, evaluated one after the other over one cache.  With
    each outcome [between] is done: the actions, the recording. *)
Fixpoint rules_evaluated
    (between : EvalStatusParams → res (option EvaluationResult * error) → X → X)
    (rules : list (RuleTypeEngine X * option ProtoMessage * EvalStatusParams))
    (c : IngestCache) (x : X)
    : X * list (EvalStatusParams * res (option EvaluationResult * error)) :=
  match rules with
  | [] => (x, [])
  | (r, entity, params) :: rules =>
      let '(s, v) := Eval r entity {| evs_ext := x; evs_cache := c; evs_params := params |} in
      let '(x', outcomes) :=
        rules_evaluated between rules (evs_cache s) (between (evs_params s) v (evs_ext s)) in
      (x', (evs_params s, v) :: outcomes)
  end.

Lemma rules_evaluated_transparent engines answer between rules :
  ingesters_ok engines answer → (∀ q, q ∈ rules → q.1.1 ∈ engines) →
  ∀ c x, cache_ok engines answer c →
  rules_evaluated between rules c x = rules_evaluated between rules NewNoopCache x ∧
  Forall (λ o, is_ok o.2 = true) (rules_evaluated between rules c x).2.
Proof.
  intros Hio. induction rules as [|[[r entity] params] rules IH]; intros Hin c x Hc; [done|].
  cbn [rules_evaluated].
  destruct (eval_body_transparent engines answer Hio r entity x c params)
    as (c1 & x1 & p1 & out & E1 & E2 & Hc1); [by apply (Hin (r, entity, params)); left|done|].
  unfold Eval. rewrite E1, E2.
  destruct (IH (λ q Hq, Hin q (list_elem_of_further _ _ _ Hq)) c1
    (between p1 (match out with Ok v => Ok v | Err e => Ok (None, Some e)
                 | Panic _ => Ok (None, Some ErrInternal) end) x1) Hc1) as [Heq Hall].
  destruct out as [v|e|m]; cbn in *; rewrite <-Heq;
    (destruct (rules_evaluated _ _ _ _) as [x' outs]); (split; [done|]); by constructor.
Qed.
End eval_lemmas.

(** C36: the ingest cache changes nothing but the number of requests.  Let the
    rules of an entity be evaluated one after the other, from a new cache, with
    anything done between them, and let their ingesters answer, with data or
    with an error, as their type, their configuration, the entity and the
    parameters are marshalled (as JSON objects; the checksum tells texts apart).
    Then every evaluation has the outcome and the recorded data, and the series
    has the effects, it would have without a cache: no rule gets the data of
    another configuration, entity or other parameters.  A panic never leaves
    [Eval]. *)
Theorem ingest_cache_transparent {X} `{CacheKeys} answer between
    (rules : list (RuleTypeEngine X * option ProtoMessage * EvalStatusParams)) x
    (Hio : ingesters_ok rules.*1.*1 answer) :
  rules_evaluated between rules NewCache x = rules_evaluated between rules NewNoopCache x ∧
  Forall (λ o, is_ok o.2 = true) (rules_evaluated between rules NewCache x).2.
Proof.
  apply (rules_evaluated_transparent rules.*1.*1 answer); [done| |apply cache_ok_new].
  intros q Hq. apply list_elem_of_fmap. exists q.1. split; [done|]. apply list_elem_of_fmap. eauto.
Qed.

(** Within one entity evaluation the same data is fetched once.  After a
    request whose cache key can be built has been answered, the same request
    (of this or another engine with the same type and configuration) is
    answered with the same data and reaches no ingester. *)
Theorem ingest_once {X} `{CacheKeys} (r r' : RuleTypeEngine X) entity prm key s s1 data
    (Hkey : buildCacheKey (rte_ingester r) entity prm = Ok key)
    (Hkey' : buildCacheKey (rte_ingester r') entity prm = Ok key)
    (Hcache : evs_cache s ≠ NewNoopCache)
    (Hfirst : ingest r entity prm s = (s1, Ok data)) :
  ∀ x p, ingest r' entity prm {| evs_ext := x; evs_cache := evs_cache s1; evs_params := p |}
         = ({| evs_ext := x; evs_cache := evs_cache s1; evs_params := p |}, Ok data).
Proof.
  intros x p. assert (Hg : Cache_Get (evs_cache s1) (rte_ingester r) entity prm = Some data).
  { unfold ingest, mbind, prog_bind, gets in Hfirst.
    destruct (Cache_Get (evs_cache s) _ _ _) as [d|] eqn:Hg.
    - injection Hfirst as <- <-. done.
    - destruct (wrapf _ _ s) as [s2 [d|e|m]] eqn:Hw; [|done|done].
      injection Hfirst as <- <-. simpl. by eapply Cache_Get_Set. }
  unfold Cache_Get in Hg. rewrite Hkey in Hg.
  unfold ingest, mbind, prog_bind, gets, Cache_Get. simpl. rewrite Hkey'.
  destruct (evs_cache s1) as [m|]; [|done]. simpl in *. by rewrite Hg.
Qed.

(** *** Witnesses: one engine whose ingester answers the name of the entity *)

Definition ex_keys : CacheKeys :=
  {| sha512_sum := λ s, s; marshal_entity := λ _, inl "{}"; marshal_params := λ _, inl "{}" |}.

Definition ex_data : option Ingested :=
  Some {| ing_Object := Any "data"; ing_Checkpoint := None |}.

Definition ex_engine : RuleTypeEngine nat :=
  {| rte_ValidateRuleDef := λ a, (a, None); rte_ValidateParams := λ a, (a, None);
     rte_ingester := {| ing_GetType := "git"; ing_GetConfig := None;
                        ing_Ingest := λ _ _, mret ex_data |};
     rte_evaluator := λ _ _ _, mret (None, Some ErrEvaluationFailed) |}.

Definition ex_eval_params : EvalStatusParams :=
  {| esp_Result := None;
     esp_Profile := {| pa_ID := 40%N; pa_Name := "profile";
                       pa_ActionConfig := {| ac_Remediate := ActionOptOn; ac_Alert := ActionOptOn |};
                       pa_Rules := []; pa_Selectors := [] |};
     esp_Rule := {| ri_ID := 20%N; ri_Name := "rule"; ri_Def := None; ri_Params := None;
                    ri_RuleTypeID := 30%N |};
     esp_ProjectID := 2%N; esp_EntityType := "repository"; esp_EntityID := 7%N;
     esp_EvalStatusFromDb := None; esp_evalErr := None; esp_evalResult := None;
     esp_actionsErr := ActionsError_zero; esp_ExecutionID := 9%N |}.

(** Two rule types with configurations of their own; each answers with its own. *)
Definition ex_reader (cfg : string) : RuleTypeEngine nat :=
  {| rte_ValidateRuleDef := λ a, (a, None); rte_ValidateParams := λ a, (a, None);
     rte_ingester := {| ing_GetType := "rest"; ing_GetConfig := Some (inl cfg);
                        ing_Ingest := λ _ _, mret (Some {| ing_Object := Any cfg;
                                                           ing_Checkpoint := None |}) |};
     rte_evaluator := λ _ _ _ x, (S x, Ok (None, Some ErrEvaluationFailed)) |}.

Definition ex_rules : list (RuleTypeEngine nat * option ProtoMessage * EvalStatusParams) :=
  [(ex_reader "{1}", None, ex_eval_params); (ex_reader "{2}", None, ex_eval_params);
   (ex_reader "{1}", None, ex_eval_params)].

Definition ex_answer (_ : string) (cfg : option (string + gerr)) (_ : string + gerr)
    (_ : option (string + gerr)) : res (option Ingested) :=
  match cfg with
  | Some (inl cfg) => Ok (Some {| ing_Object := Any cfg; ing_Checkpoint := None |})
  | _ => Ok None
  end.

Lemma ex_rules_ok : @ingesters_ok nat ex_keys ex_rules.*1.*1 ex_answer.
Proof.
  assert (Hr : ∀ r, r ∈ ex_rules.*1.*1 → r = ex_reader "{1}" ∨ r = ex_reader "{2}").
  { intros r Hr. cbn in Hr. list_cases Hr; auto. }
  split; [done|by intros ? ? [= <-]..| | | |].
  - intros r t Hin. destruct (Hr r Hin) as [-> | ->]; by intros [= <-].
  - intros r Hin. by destruct (Hr r Hin) as [-> | ->].
  - intros r1 r2 H1 H2 _. by destruct (Hr r1 H1) as [-> | ->], (Hr r2 H2) as [-> | ->].
  - intros r e p x Hin. by destruct (Hr r Hin) as [-> | ->].
Qed.

(** The third rule is answered from the cache. *)
Lemma ingest_cache_transparent_witness :
  @rules_evaluated nat ex_keys (λ _ _ x, x) ex_rules NewCache 0
    = @rules_evaluated nat ex_keys (λ _ _ x, x) ex_rules NewNoopCache 0 ∧
  (λ o, esp_Result o.1) <$> (@rules_evaluated nat ex_keys (λ _ _ x, x) ex_rules NewCache 0).2
    = [Some {| ing_Object := Any "{1}"; ing_Checkpoint := None |};
       Some {| ing_Object := Any "{2}"; ing_Checkpoint := None |};
       Some {| ing_Object := Any "{1}"; ing_Checkpoint := None |}] ∧
  @Cache_Get nat ex_keys (evs_cache (@Eval nat ex_keys (ex_reader "{1}") None
      {| evs_ext := 0; evs_cache := NewCache; evs_params := ex_eval_params |}).1)
    (rte_ingester (ex_reader "{1}")) None None
    = Some (Some {| ing_Object := Any "{1}"; ing_Checkpoint := None |}).
Proof.
  split; [|split; [by vm_compute|by vm_compute]].
  exact (proj1 (@ingest_cache_transparent nat ex_keys ex_answer (λ _ _ x, x) ex_rules 0 ex_rules_ok)).
Defined.

(** The answer is the one in the cache. *)
Lemma ingest_once_witness :
  @ingest nat ex_keys ex_engine None None
    {| evs_ext := 1; evs_cache := Some {["git{}" := ex_data]}; evs_params := ex_eval_params |}
  = ({| evs_ext := 1; evs_cache := Some {["git{}" := ex_data]}; evs_params := ex_eval_params |},
     Ok ex_data).
Proof.
  refine (@ingest_once nat ex_keys ex_engine ex_engine None None "git{}"
    {| evs_ext := 0; evs_cache := NewCache; evs_params := ex_eval_params |}
    {| evs_ext := 0; evs_cache := Some {["git{}" := ex_data]}; evs_params := ex_eval_params |}
    ex_data _ _ _ _ 1 ex_eval_params); by vm_compute.
Defined.
