(* ===== verification/Executor.v ===== *)
(** * The executor: internal/engine/executor.go, eval_status.go, handler.go and
    internal/engine/rtengine/cache.go

    One entity event is evaluated against every rule of every profile; each
    evaluation is stored in one transaction, the lease of the lock renewed after
    it and the lock released at the end.  The state is the world of the server,
    the external services [X] the providers talk to, and the caches of the
    evaluation; the provider manager, the profile store, the selectors and the
    properties service are interfaces of the code. *)

From S2P Require Import Prelude GoErrors GoMonad GoStrings EngineErrors Uuid DbTypes.
From S2P Require Import StatusAdapter ProfileModels Actions EntityEvent Database EntityModels ExecLock Eea.
From S2P Require Import Reevaluation HistoryDb HistoryStore RuleEval.
Local Open Scope string_scope.

(** ** Interfaces *)

(** A rule type of the database with what [cacheRuleEngine] builds from it:
    [RuleTypePBFromDB], the data source registry and [NewRuleTypeEngine]. *)
Class RuleTypes (X P : Type) := {
  RuleTypeRow : Type;
  rtr_ID : RuleTypeRow → UUID;
  rtr_Def : RuleTypeRow → RuleTypeDef;
  GetParentProjects : UUID → prog World (list UUID);
  GetRuleTypesByEntityInHierarchy : Entities → list UUID → prog World (list RuleTypeRow);
  GetRuleTypeByID : UUID → prog World RuleTypeRow;
  newRuleEngine : RuleTypeRow → P → prog World (RuleTypeEngine X);
}.

Class ProviderManager (P : Type) := { InstantiateFromID : UUID → prog World P }.

Class ProfileStore := {
  GetProfilesForEvaluation : UUID → Entities → prog World (list ProfileAggregate);
}.

(** pkg/engine/selectors and the conversion of an entity for them. *)
Class Selectors := {
  Selection : Type;
  SelectorEntity : Type;
  NewSelectionFromProfile : Entity → list ProfileSelector → res Selection;
  EntityToSelectorEntity : Entity → EntityWithProperties → prog World (option SelectorEntity);
  Select : Selection → SelectorEntity → res (bool * string);
}.

(** [ToJSON] of a checkpoint. *)
Class Checkpoints := { checkpoint_ToJSON : any → string + gerr }.

Definition ToJSONorDefault `{Checkpoints} (c : option any) (def : option string)
    : option string * error :=
  match c with
  | None => (def, None)
  | Some c => match checkpoint_ToJSON c with
              | inl js => (Some js, None)
              | inr e => (def, Some e)
              end
  end.

(** A rule type engine in the cache, with the definition [GetRuleType] gives. *)
Record CachedEngine (X : Type) := { ce_ruletype : RuleTypeDef; ce_engine : RuleTypeEngine X }.
Arguments ce_ruletype {X} _.
Arguments ce_engine {X} _.

(** The state of one [EvalEntityEvent]. *)
Record ExecState (X : Type) := {
  st_world : World;
  st_ext : X;
  st_ingest : IngestCache;
  st_engines : gmap UUID (CachedEngine X);
}.
Arguments st_world {X} _.
Arguments st_ext {X} _.
Arguments st_ingest {X} _.
Arguments st_engines {X} _.

Definition nil_dereference : string := "invalid memory address or nil pointer dereference".

Definition deref {A} (p : option A) : res A :=
  match p with Some a => Ok a | None => Panic nil_dereference end.

Section executor.
Context `{UuidLib} `{RandomUuid} `{TemplateEngine} `{JsonAny} `{PgText} `{Checkpoints}.
Context `{ProtoJSON} `{PropertiesService} `{ProfileStore} `{Selectors} `{CacheKeys}.
Context {X P E : Type} `{ActionProviders X E P} `{RuleTypes X P} `{ProviderManager P}.
(** The entity as the action engines look at it. *)
Context (entity_of : option ProtoMessage → E).

Definition on_db {A} (m : prog World A) : prog (ExecState X) A := λ s,
  let '(w, r) := m (st_world s) in
  ({| st_world := w; st_ext := st_ext s; st_ingest := st_ingest s;
      st_engines := st_engines s |}, r).

Definition on_actions {A} (m : prog X A) : prog (ExecState X) A := λ s,
  let '(x, r) := m (st_ext s) in
  ({| st_world := st_world s; st_ext := x; st_ingest := st_ingest s;
      st_engines := st_engines s |}, r).

(** Run a rule type engine on the parameters, with the ingest cache. *)
Definition on_eval {A} (m : prog (EvalState X) A) (params : EvalStatusParams)
    : prog (ExecState X) (EvalStatusParams * A) := λ s,
  let '(e, r) := m {| evs_ext := st_ext s; evs_cache := st_ingest s; evs_params := params |} in
  ({| st_world := st_world s; st_ext := evs_ext e; st_ingest := evs_cache e;
      st_engines := st_engines s |}, pair (evs_params e) <$> r).

Definition set_engines (t : gmap UUID (CachedEngine X)) : prog (ExecState X) unit :=
  modify (λ s, {| st_world := st_world s; st_ext := st_ext s; st_ingest := st_ingest s;
                  st_engines := t |}).

(** ** cache.go *)

Definition cacheRuleEngine (provider : P) (ruleType : RuleTypeRow)
    : prog (ExecState X) (CachedEngine X) :=
  eng ← on_db (newRuleEngine ruleType provider);
  let c := {| ce_ruletype := rtr_Def ruleType; ce_engine := eng |} in
  engines ← gets st_engines;
  set_engines (<[rtr_ID ruleType := c]> engines);;
  mret c.

Definition NewRuleEngineCache (entityType : Entities) (projectID : UUID) (provider : P)
    : prog (ExecState X) unit :=
  hierarchy ← wrapf "error getting parent projects: " (on_db (GetParentProjects projectID));
  ruleTypes ← wrapf "error while retrieving rule types from db: "
                (on_db (GetRuleTypesByEntityInHierarchy entityType hierarchy));
  foreach (λ rt, cacheRuleEngine provider rt;; mret tt) ruleTypes.

Definition GetRuleEngine (provider : P) (ruleTypeID : UUID)
    : prog (ExecState X) (CachedEngine X) :=
  engines ← gets st_engines;
  match engines !! ruleTypeID with
  | Some c => mret c
  | None =>
      rt ← try (on_db (GetRuleTypeByID ruleTypeID));
      match rt with
      | inl ruleType =>
          wrapf "error while caching rule type engine: " (cacheRuleEngine provider ruleType)
      | inr err =>
          if errors_Is (Some err) ErrNoRows
          then throw (EText ("unknown rule type with ID: " +:+ uuid_String ruleTypeID))
          else throw (EText ("error creating rule type engine: " +:+ uuid_String ruleTypeID))
      end
  end.

(** ** eval_status.go *)

Definition createEvalStatusParams (inf : EntityInfoWrapper) (profile : ProfileAggregate)
    (rule : RuleInstance) : prog World EvalStatusParams :=
  id ← try (lift (GetID (Some inf)));
  match id with
  | inr _ => throw (EText "error getting ID from entity info wrapper")
  | inl eID =>
      executionID ← lift (deref (eiw_ExecutionID inf));
      ruleTypeName ← wrapf "error while retrieving rule type name: "
                       (GetRuleTypeNameByID (ri_RuleTypeID rule));
      evalStatus ← wrapf "error getting rule evaluation status from db: "
        (GetRuleEvaluationByProfileIdAndRuleType (pa_ID profile) (Some (ri_Name rule)) eID
           (Some ruleTypeName));
      mret {| esp_Result := None; esp_Profile := profile; esp_Rule := rule;
              esp_ProjectID := eiw_ProjectID inf;
              esp_EntityType := EntityTypeToDB (eiw_Type inf); esp_EntityID := eID;
              esp_EvalStatusFromDb := evalStatus; esp_evalErr := None;
              esp_evalResult := None; esp_actionsErr := ActionsError_zero;
              esp_ExecutionID := executionID |}
  end.

(** The body of the transaction. *)
Definition store_results (p : EvalStatusParams) (chkpjs : option string) : prog World unit :=
  let a := esp_actionsErr p in
  evalID ← StoreEvaluationStatus (ri_ID (esp_Rule p)) (pa_ID (esp_Profile p))
             (esp_EntityType p) (esp_EntityID p) (esp_evalErr p) chkpjs
             (esp_evalResult p ≫= er_Output);
  InsertRemediationEvent
    {| iev_EvaluationID := evalID; iev_Status := ErrorAsRemediationStatus (RemediateErr a);
       iev_Details := errorAsActionDetails (RemediateErr a);
       iev_Metadata := RemediateMeta a |};;
  InsertAlertEvent
    {| iev_EvaluationID := evalID; iev_Status := ErrorAsAlertStatus (AlertErr a);
       iev_Details := errorAsActionDetails (AlertErr a);
       iev_Metadata := AlertMeta a |}.

(** [DecorateLogger] reads the parameters before they are compared with nil. *)
Definition createOrUpdateEvalStatus (params : option EvalStatusParams) : prog World unit :=
  p ← lift (deref params);
  if bool_decide (params = None)
  then throw (EText "createEvalStatusParams cannot be nil")
  else if errors_Is (esp_evalErr p) ErrEvaluationSkipSilently then mret tt
  else
    let '(chkpjs, _) := ToJSONorDefault (GetCheckpoint (esp_Result p)) (Some empty_json) in
    WithTransactionErr (store_results p chkpjs).

(** ** executor.go *)

(** A failed step of the selection is itself the profile's status. *)
Definition step {A} (pre : string) (m : prog World A) (k : A → prog World error)
    : prog World error :=
  r ← try m;
  match r with
  | inl a => k a
  | inr e => mret (Some (EWrap pre e ""))
  end.

Definition profileEvalStatus (eiw : EntityInfoWrapper) (aggregate : ProfileAggregate)
    : prog World error :=
  match pa_Selectors aggregate with
  | [] => mret None
  | _ =>
      step "error creating selection from profile: "
        (lift (NewSelectionFromProfile (eiw_Type eiw) (pa_Selectors aggregate))) (λ selection,
      step "error getting entity id: " (lift (GetID (Some eiw))) (λ entityID,
      step "error getting entity with properties: "
        (EntityWithPropertiesByID entityID) (λ ewp,
      selEnt ← EntityToSelectorEntity (eiw_Type eiw) ewp;
      match selEnt with
      | None => mret (Some (EText "error converting entity to selector entity"))
      | Some selEnt =>
          step "error selecting entity: " (lift (Select selection selEnt)) (λ '(selected, matched),
          if negb selected
          then mret (Some (NewErrEvaluationSkipped
                 ("entity not applicable due to profile selector " +:+ matched)))
          else mret None)
      end)))
  end.

(** A failed renewal is logged. *)
Definition updateLockLease (executionID : UUID) (params : EvalStatusParams)
    : prog World unit :=
  try (UpdateLease {| ul_EntityInstanceID := esp_EntityID params;
                      ul_LockedBy := executionID |});;
  mret tt.

Definition releaseLockAndFlush (inf : EntityInfoWrapper) : prog World unit :=
  id ← try (lift (GetID (Some inf)));
  match id with
  | inr _ => mret tt
  | inl eID =>
      executionID ← lift (deref (eiw_ExecutionID inf));
      try (ReleaseLock {| rl_EntityInstanceID := eID; rl_LockedBy := executionID |});;
      mret tt
  end.

(** The evaluation of a rule whose engines are ready; the lease is renewed
    whatever happens. *)
Definition evaluate_with (inf : EntityInfoWrapper) (eng : CachedEngine X)
    (acts : RuleActionsEngine X E) (profileStatus : error) (evalParams : EvalStatusParams)
    : prog (ExecState X) unit :=
  evaluated ←
    (match profileStatus with
     | Some e => mret (evalParams, Some e)
     | None =>
         '(evalParams, (result, evalErr)) ← on_eval (Eval (ce_engine eng) (eiw_Entity inf)) evalParams;
         mret (SetEvalResult result evalParams, evalErr)
     end : prog (ExecState X) (EvalStatusParams * error));
  let evalParams := SetEvalErr evaluated.2 evaluated.1 in
  actionsErr ← on_actions (DoActions acts (entity_of (eiw_Entity inf)) evalParams);
  on_db (createOrUpdateEvalStatus (Some (SetActionsErr actionsErr evalParams))).

Definition evaluateRule (inf : EntityInfoWrapper) (provider : P) (profile : ProfileAggregate)
    (rule : RuleInstance) (profileStatus : error) : prog (ExecState X) unit :=
  evalParams ← wrapf "error creating eval status params: "
                 (on_db (createEvalStatusParams inf profile rule));
  ruleEngine ← wrapf "error creating rule type engine: "
                 (GetRuleEngine provider (ri_RuleTypeID rule));
  actionEngine ← wrapf "cannot create rule actions engine: "
    (lift (NewRuleActions (ce_ruletype ruleEngine) provider (pa_ActionConfig profile)));
  executionID ← lift (deref (eiw_ExecutionID inf));
  defer (on_db (updateLockLease executionID evalParams))
    (evaluate_with inf ruleEngine actionEngine profileStatus evalParams).

Definition evaluate_profile (inf : EntityInfoWrapper) (provider : P)
    (profile : ProfileAggregate) : prog (ExecState X) unit :=
  status ← on_db (profileEvalStatus inf profile);
  foreach (λ rule, wrapf "error evaluating entity event: "
                     (evaluateRule inf provider profile rule status)) (pa_Rules profile).

(** What runs after the release of the lock is deferred. *)
Definition evaluate_entity (inf : EntityInfoWrapper) (provider : P)
    : prog (ExecState X) unit :=
  let entityType := EntityTypeToDB (eiw_Type inf) in
  wrapf "unable to fetch rule type instances for project: "
    (NewRuleEngineCache entityType (eiw_ProjectID inf) provider);;
  profileAggregates ← wrapf "error while retrieving profiles and rule instances: "
    (on_db (GetProfilesForEvaluation (eiw_ProjectID inf) entityType));
  foreach (evaluate_profile inf provider) profileAggregates.

Definition ingest_cache_for (t : Entity) : IngestCache :=
  if bool_decide (t = Entity_ENTITY_ARTIFACTS) then NewNoopCache else NewCache.

(** The caches are local to the call.  The logger needs the execution id. *)
Definition EvalEntityEvent (inf : EntityInfoWrapper) : prog (World * X) unit := λ '(w, x),
  let s := {| st_world := w; st_ext := x; st_ingest := ingest_cache_for (eiw_Type inf);
              st_engines := ∅ |} in
  let '(s', r) :=
    (lift (deref (eiw_ExecutionID inf));;
     provider ← wrapf "could not instantiate provider: "
                  (on_db (InstantiateFromID (eiw_ProviderID inf)));
     defer (on_db (releaseLockAndFlush inf)) (evaluate_entity inf provider)) s in
  ((st_world s', st_ext s'), r).

(** ** handler.go: the goroutine of one event *)

Definition on_server {A} (m : prog World A) : prog (World * X) A := λ '(w, x),
  let '(w', r) := m w in ((w', x), r).

Definition handle_evaluation (msg : message) (inf : EntityInfoWrapper)
    : prog (World * X) unit :=
  match WithExecutionIDFromMessage msg inf with
  | Panic m => lift (Panic m)
  | Err _ => mret tt
  | Ok inf =>
      try (EvalEntityEvent inf);;
      built ← on_server (try (build_message inf));
      match built with
      | inr _ => mret tt
      | inl msg => on_server (try (Publish TopicQueueEntityFlush msg);; mret tt)
      end
  end.
End executor.

(** ** Lemmas *)

#[local] Arguments StoreEvaluationStatus : simpl never.
#[local] Arguments InsertRemediationEvent : simpl never.
#[local] Arguments InsertAlertEvent : simpl never.

Lemma wf_append_events h es1 es2 :
  history_wf h →
  (∀ e, e ∈ (es1 ++ es2)%list → is_Some (h_statuses h !! ev_EvaluationID e)) →
  history_wf (upd_alerts (λ l, (l ++ es2)%list) (upd_remediations (λ l, (l ++ es1)%list) h)).
Proof.
  intros Hwf He. destruct Hwf. split; hist_simpl; try done.
  - intros e [?|?]%elem_of_app; [eauto|]. apply He. apply elem_of_app. by left.
  - intros e [?|?]%elem_of_app; [eauto|]. apply He. apply elem_of_app. by right.
Qed.

Section recorded.
Context `{UuidLib} `{RandomUuid} `{TemplateEngine} `{JsonAny} `{PgText} `{Checkpoints}.

(** The events of one evaluation. *)
Definition remediation_event (a : ActionsError) (id : UUID) (m : string) (now : Z) : ActionEvent :=
  {| ev_EvaluationID := id; ev_Status := ErrorAsRemediationStatus (RemediateErr a);
     ev_Details := errorAsActionDetails (RemediateErr a); ev_Metadata := m;
     ev_CreatedAt := now |}.
Definition alert_event (a : ActionsError) (id : UUID) (m : string) (now : Z) : ActionEvent :=
  {| ev_EvaluationID := id; ev_Status := ErrorAsAlertStatus (AlertErr a);
     ev_Details := errorAsActionDetails (AlertErr a); ev_Metadata := m;
     ev_CreatedAt := now |}.

(** An evaluation is recorded: a new status, the latest of its rule entity,
    with one remediation event and one alert event of its own. *)
Definition recorded (h h' : History) (p : EvalStatusParams) (now : Z) (id : UUID) : Prop :=
  ∃ re c h1 rm am,
    RemediateMeta (esp_actionsErr p) = Some rm ∧ AlertMeta (esp_actionsErr p) = Some am ∧
    stored h h1 (ri_ID (esp_Rule p)) (esp_EntityID p) (pa_ID (esp_Profile p))
      (esp_EntityType p) (new_status re (esp_evalErr p) c now) id
      (output_row (esp_evalResult p ≫= er_Output)) ∧
    h' = upd_alerts (λ l, (l ++ [alert_event (esp_actionsErr p) id am now])%list)
           (upd_remediations (λ l, (l ++ [remediation_event (esp_actionsErr p) id rm now])%list) h1).

Lemma recorded_wf h h' p now id : history_wf h → recorded h h' p now id → history_wf h'.
Proof.
  intros Hwf (re & c & h1 & rm & am & _ & _ & Hs & ->).
  apply (wf_append_events _ [_] [_]); [by eapply stored_wf|].
  destruct Hs as (re' & p' & _ & _ & _ & -> & _).
  intros e He. rewrite lookup_insert_is_Some'. left.
  apply elem_of_app in He as [He|He]; by apply list_elem_of_singleton in He as ->.
Qed.

Lemma store_results_Ok p cp w w' :
  history_wf (history (w_db w)) → honest_faults w →
  store_results p cp w = (w', Ok tt) →
  ∃ id, recorded (history (w_db w)) (history (w_db w')) p (w_now w) id ∧
        same_but_history w w'.
Proof.
  intros Hwf Hh Hrun. unfold store_results in Hrun.
  apply prog_bind_Ok in Hrun as (w1 & id & Hst & Hrun).
  apply prog_bind_Ok in Hrun as (w2 & [] & Hrm & Hal).
  apply StoreEvaluationStatus_Ok in Hst as (re & c & _ & Hst & Hs1); [|done..].
  apply insert_event_Ok in Hrm as (rm & Hrm & _ & Hh2 & Hs2).
  apply insert_event_Ok in Hal as (am & Ham & _ & Hh3 & Hs3).
  assert (Hn1 : w_now w1 = w_now w) by apply Hs1.
  assert (Hn2 : w_now w2 = w_now w1) by apply Hs2.
  exists id. split; [|eauto using same_but_history_trans].
  exists re, c, (history (w_db w1)), rm, am. split_and!; [done..|].
  rewrite Hh3, Hh2, Hn2, Hn1. done.
Qed.

(** C2: an evaluation is recorded entirely or not at all, and the tables stay
    well formed.  Under the invariant of the history tables, recording the
    parameters of an evaluation that ended in a silent skip changes nothing;
    otherwise, if it succeeds, there is one new status with the evaluation's
    status, details and time, it is the latest of the only rule entity of the
    rule and the entity, and it has exactly the remediation event and the alert
    event of the actions; if it fails, whichever statement failed, no table has
    changed.  In every case the invariant holds afterwards. *)
Theorem evaluation_recorded p w w' r
    (Hwf : history_wf (history (w_db w))) (Hh : honest_faults w)
    (Hrun : createOrUpdateEvalStatus (Some p) w = (w', r)) :
  history_wf (history (w_db w')) ∧
  (if errors_Is (esp_evalErr p) ErrEvaluationSkipSilently then w' = w ∧ r = Ok tt
   else match r with
        | Ok _ => ∃ id, recorded (history (w_db w)) (history (w_db w')) p (w_now w) id
        | _ => w_db w' = w_db w
        end).
Proof.
  unfold createOrUpdateEvalStatus in Hrun. unfold mbind, prog_bind, lift in Hrun. simpl in Hrun.
  destruct (errors_Is _ _); [by injection Hrun as <- <-|].
  destruct (ToJSONorDefault _ _) as [cp err].
  destruct (WithTransactionErr_cases _ _ _ _ Hrun)
    as [[-> (fs & w2 & Hfs & Hfn & Hdb & _)]|[Hr Hdb]].
  - apply store_results_Ok in Hfn as (id & Hrec & _); [|done|by apply honest_faults_sub].
    rewrite Hdb. split; [by eapply recorded_wf|]. by exists id.
  - rewrite Hdb. split; [done|]. by destruct r as [[]|e|m].
Qed.

(** The rule, its type and the entity are in the tables, and within the profile
    no other rule has the same name up to case and the same type. *)
Record rule_known (d : Db) (rule : RuleInstance) (profile ent : UUID) (rt : dbRuleType)
    : Prop := {
  rk_rule : ∃ rin, rule_instances d !! ri_ID rule = Some rin ∧ rin_Name rin = ri_Name rule ∧
                   rin_RuleTypeID rin = ri_RuleTypeID rule;
  rk_type : rule_types d !! ri_RuleTypeID rule = Some rt;
  rk_entity : ∃ ei, entity_instances d !! ent = Some ei ∧ is_Some (providers d !! ei_ProviderID ei);
  rk_profile : ∀ re l, rule_entity_of (history d) (ri_ID rule) ent re →
    h_latest (history d) !! re = Some l → la_ProfileID l = profile;
  rk_only : ∀ re l row rin rt', h_latest (history d) !! re = Some l → la_ProfileID l = profile →
    h_entities (history d) !! re = Some row → ere_EntityInstanceID row = ent →
    rule_instances d !! ere_RuleID row = Some rin → rule_types d !! rin_RuleTypeID rin = Some rt' →
    pg_lower (rin_Name rin) = pg_lower (ri_Name rule) → rty_Name rt' = rty_Name rt →
    ere_RuleID row = ri_ID rule;
}.

Lemma bind_single {A B} (f : A → list B) (l : list A) x y :
  NoDup l → x ∈ l → f x = [y] → (∀ z, z ∈ l → z ≠ x → f z = []) → l ≫= f = [y].
Proof.
  induction 1 as [|z l Hz Hnd IH]; intros Hx Hf Hno; [by apply not_elem_of_nil in Hx|].
  apply elem_of_cons in Hx as [->|Hx]; rewrite bind_cons.
  - rewrite Hf. assert (l ≫= f = []) as ->; [|done].
    assert (Hall : ∀ z', z' ∈ l → f z' = []).
    { intros z' Hz'. apply Hno; [by right|]. intros ->. done. }
    clear -Hall. induction l as [|a l IH]; [done|].
    rewrite bind_cons, (Hall a) by left. apply IH. intros z' Hz'. apply Hall. by right.
  - rewrite (Hno z); [|by left|intros ->; done]. apply IH; [done..|].
    intros z' Hz'. apply Hno. by right.
Qed.

(** A new status has the events that were appended for it, and no other. *)
Lemma events_of_new evs id e (h : gmap UUID EvaluationStatus) :
  (∀ x, x ∈ evs → is_Some (h !! ev_EvaluationID x)) → h !! id = None →
  ev_EvaluationID e = id → events_of (evs ++ [e])%list id = [e].
Proof.
  intros Hev Hn He. unfold events_of. induction evs as [|x evs IH]; cbn [app].
  - by rewrite filter_cons_True.
  - rewrite filter_cons_False; [apply IH; intros y Hy; apply Hev; by right|].
    intros Heq. destruct (Hev x) as [y Hy]; [by left|]. congruence.
Qed.

Section read_back.
Context (d d' : Db) (p : EvalStatusParams) (now : Z) (id : UUID) (rt : dbRuleType).
Hypothesis Hwf : history_wf (history d).
Hypothesis Hrec : recorded (history d) (history d') p now id.
Hypothesis Hd' : d' = set_history (history d') d.
Hypothesis Hknown :
  rule_known d (esp_Rule p) (pa_ID (esp_Profile p)) (esp_EntityID p) rt.

Definition reading : ListRuleEvaluationsByProfileIdParams :=
  {| lre_ProfileID := pa_ID (esp_Profile p); lre_EntityID := Some (esp_EntityID p);
     lre_EntityName := None; lre_RuleTypeName := Some (rty_Name rt);
     lre_RuleName := Some (ri_Name (esp_Rule p)) |}.

(** The row of the rule entity that was recorded. *)
Lemma recorded_row :
  ∃ re l, h_latest (history d') = <[re := l]> (h_latest (history d)) ∧
    rule_entity_of (history d') (ri_ID (esp_Rule p)) (esp_EntityID p) re ∧
    (∀ re', re' ≠ re → h_entities (history d') !! re' = h_entities (history d) !! re' ∧
       ¬ rule_entity_of (history d) (ri_ID (esp_Rule p)) (esp_EntityID p) re') ∧
    rule_evaluation_rows d' reading (re, l) = [stored_row (esp_actionsErr p)].
Proof using All.
  destruct Hrec as (re0 & c & h1 & rm & am & Hrm & Ham & Hst & Hh').
  destruct Hst as (re & pr & _ & Hid & Hent & Hs & Hla & _ & Hrms & Hals).
  exists re, {| la_EvaluationHistoryID := id; la_ProfileID := pr |}.
  assert (Hl : h_latest (history d') = h_latest h1) by (by rewrite Hh').
  assert (He : h_entities (history d') = h_entities h1) by (by rewrite Hh').
  assert (Hre : rule_entity_of (history d') (ri_ID (esp_Rule p)) (esp_EntityID p) re).
  { destruct Hent as [((row & Hr & ? & ?) & _ & Heq)|(_ & _ & _ & _ & Heq)];
      unfold rule_entity_of; rewrite He, Heq; [by eauto|].
    eexists. by rewrite lookup_insert_eq. }
  assert (Hpr : pr = pa_ID (esp_Profile p)).
  { destruct Hent as [(Hr & (l & Hl' & ->) & _)|(_ & _ & -> & _)]; [|done].
    by eapply rk_profile. }
  split_and!; [by rewrite Hl|done| |].
  - intros re' Hne. rewrite He. split.
    + destruct Hent as [(_ & _ & ->)|(_ & _ & _ & _ & ->)]; [done|].
      by rewrite lookup_insert_ne.
    + destruct Hent as [((row & Hr & Hru & Hen) & _)|(_ & _ & _ & Hno & _)]; [|apply Hno].
      intros (row' & Hr' & Hru' & Hen'). apply Hne.
      apply (wf_unique _ Hwf re' re row' row); congruence.
  - destruct Hre as (row & Hrow & Hrule & Hen).
    destruct (rk_rule _ _ _ _ _ Hknown) as (rin & Hri & Hname & Hty).
    pose proof (rk_type _ _ _ _ _ Hknown) as Hrt.
    destruct (rk_entity _ _ _ _ _ Hknown) as (ei & Hei & prov & Hprov).
    unfold rule_evaluation_rows. cbn [la_EvaluationHistoryID la_ProfileID].
    change (evaluation_rule_entities d') with (h_entities (history d')). rewrite Hrow. simpl.
    change (evaluation_statuses d') with (h_statuses (history d')).
    assert (Hsd : h_statuses (history d') !! id = Some (new_status re0 (esp_evalErr p) c now)).
    { rewrite Hh'. hist_simpl. by rewrite Hs, lookup_insert_eq. }
    rewrite Hsd. simpl. rewrite Hd'. cbn [rule_instances rule_types entity_instances providers set_history].
    rewrite Hrule, Hri. simpl. rewrite Hty, Hrt. simpl. rewrite Hen, Hei. simpl. rewrite Hprov. simpl.
    rewrite !bool_decide_eq_true_2 by (by rewrite ?Hname). simpl.
    change (remediation_events d') with (h_remediations (history d')).
    change (alert_events d') with (h_alerts (history d')).
    rewrite Hh'. hist_simpl. rewrite Hrms, Hals.
    rewrite (events_of_new _ id _ (h_statuses (history d))); [|apply Hwf|done|done]. simpl.
    rewrite (events_of_new _ id _ (h_statuses (history d))); [|apply Hwf|done|done]. simpl.
    unfold stored_row. by rewrite Hrm, Ham.
Qed.

Lemma recorded_read_back :
  map_to_list (latest_evaluation_statuses d') ≫= rule_evaluation_rows d' reading
  = [stored_row (esp_actionsErr p)].
Proof using All.
  destruct recorded_row as (re & l & Hla & _ & Hother & Hrow).
  change (latest_evaluation_statuses d') with (h_latest (history d')).
  apply (bind_single _ _ (re, l)); [apply NoDup_map_to_list| |done|].
  { apply elem_of_map_to_list. by rewrite Hla, lookup_insert_eq. }
  intros [re' l'] Hin Hne. apply elem_of_map_to_list in Hin. rewrite Hla in Hin.
  destruct (decide (re' = re)) as [->|Hre].
  { rewrite lookup_insert_eq in Hin. congruence. }
  rewrite lookup_insert_ne in Hin by done. destruct (Hother re' Hre) as [Hents Hnot].
  unfold rule_evaluation_rows.
  change (evaluation_rule_entities d') with (h_entities (history d')). rewrite Hents.
  destruct (h_entities (history d) !! re') as [row|] eqn:Hr; simpl; [|done].
  destruct (evaluation_statuses d' !! _); simpl; [|done].
  rewrite Hd'. cbn [rule_instances rule_types entity_instances providers set_history].
  destruct (rule_instances d !! ere_RuleID row) as [rin|] eqn:Hri; simpl; [|done].
  destruct (rule_types d !! rin_RuleTypeID rin) as [rt'|] eqn:Hrt; simpl; [|done].
  destruct (entity_instances d !! _); simpl; [|done].
  destruct (providers d !! _); simpl; [|done].
  destruct (_ && _) eqn:Hc; [|done]. exfalso. rewrite !andb_true_iff in Hc.
  destruct Hc as ((((Hp & He) & _) & Ht) & Hn).
  apply bool_decide_eq_true in Hp, He, Ht, Hn. apply Hnot. exists row. split_and!; [done| |done].
  by eapply (rk_only _ _ _ _ _ Hknown re' l' row rin rt').
Qed.
End read_back.
End recorded.

(** C30: what is recorded is what the next evaluation starts from.  After an
    evaluation has been recorded, the parameters of the next one of the same
    rule, profile and entity carry exactly the remediation and alert statuses
    and metadata that the actions of the recorded one ended with, whether or not
    the rule had been evaluated before. *)
Theorem next_evaluation_reads_stored `{UuidLib} `{RandomUuid} `{TemplateEngine} `{JsonAny}
    `{PgText} `{Checkpoints} p w w' inf executionID rt
    (Hwf : history_wf (history (w_db w))) (Hh : honest_faults w)
    (Hskip : errors_Is (esp_evalErr p) ErrEvaluationSkipSilently = false)
    (Hrun : createOrUpdateEvalStatus (Some p) w = (w', Ok tt))
    (Hfaults : w_faults w' = [])
    (Hknown : rule_known (w_db w) (esp_Rule p) (pa_ID (esp_Profile p)) (esp_EntityID p) rt)
    (Hid : GetID (Some inf) = Ok (esp_EntityID p))
    (Hexec : eiw_ExecutionID inf = Some executionID) :
  ∃ p', createEvalStatusParams inf (esp_Profile p) (esp_Rule p) w' = (w', Ok p') ∧
    esp_EvalStatusFromDb p' = Some (stored_row (esp_actionsErr p)) ∧
    esp_Rule p' = esp_Rule p ∧ esp_Profile p' = esp_Profile p ∧
    esp_EntityID p' = esp_EntityID p ∧ esp_ExecutionID p' = executionID.
Proof.
  unfold createOrUpdateEvalStatus in Hrun. unfold mbind, prog_bind, lift in Hrun. simpl in Hrun.
  rewrite Hskip in Hrun. destruct (ToJSONorDefault _ _) as [cp err].
  destruct (WithTransactionErr_cases _ _ _ _ Hrun)
    as [[_ (fs & w2 & Hfs & Hfn & Hdb & _)]|[Hr _]]; [|done].
  apply store_results_Ok in Hfn as (id & Hrec & Hd & _); [|done|by apply honest_faults_sub].
  simpl in Hd, Hrec. rewrite <-Hdb in Hd, Hrec.
  pose proof (recorded_read_back _ _ _ _ _ rt Hwf Hrec Hd Hknown) as Hread.
  assert (Hrt : rule_types (w_db w') !! ri_RuleTypeID (esp_Rule p) = Some rt)
    by (rewrite Hd; apply (rk_type _ _ _ _ _ Hknown)).
  unfold createEvalStatusParams, GetRuleTypeNameByID, GetRuleEvaluationByProfileIdAndRuleType,
    ListRuleEvaluationsByProfileId, mbind, prog_bind, wrapf, try, lift.
  rewrite Hid. simpl. rewrite Hexec. simpl. rewrite select_ok by done. rewrite Hrt. simpl.
  rewrite select_ok by done. unfold reading in Hread. unfold mbind in Hread. rewrite Hread. simpl. by eexists.
Qed.

(** ** The lock of the entity *)

Section lock_of_the_entity.
Context `{UuidLib} `{RandomUuid} `{TemplateEngine} `{JsonAny} `{PgText} `{Checkpoints}.
Context `{ProtoJSON} `{PropertiesService} `{ProfileStore} `{Selectors} `{CacheKeys}.
Context {X P E : Type} `{ActionProviders X E P} `{RuleTypes X P} `{ProviderManager P}.
Context (entity_of : option ProtoMessage → E).

Lemma releaseLockAndFlush_releases inf w eID executionID :
  GetID (Some inf) = Ok eID → eiw_ExecutionID inf = Some executionID →
  w_faults w = [] → held_by (w_db (releaseLockAndFlush inf w).1) eID executionID = false.
Proof.
  intros Hid He Hf. unfold releaseLockAndFlush, mbind, prog_bind, try, lift.
  rewrite Hid. simpl. rewrite He. simpl. unfold ReleaseLock. rewrite query_ok by done. simpl.
  destruct (held_by (w_db w) eID executionID) eqn:Hheld; simpl; [|done].
  unfold held_by. simpl. by rewrite lookup_delete_eq.
Qed.

(** Once the provider is there, everything that is left runs before the release. *)
Lemma EvalEntityEvent_release inf w x executionID w1 provider :
  eiw_ExecutionID inf = Some executionID →
  InstantiateFromID (eiw_ProviderID inf) w = (w1, Ok provider) →
  ∃ w2, (EvalEntityEvent entity_of inf (w, x)).1.1 = (releaseLockAndFlush inf w2).1.
Proof.
  intros He Hp. unfold EvalEntityEvent. unfold mbind, prog_bind, lift, wrapf, on_db at 1.
  rewrite He. simpl. rewrite Hp. simpl. unfold defer.
  match goal with |- context [evaluate_entity entity_of inf provider ?s] =>
    destruct (evaluate_entity entity_of inf provider s) as [s2 r] end.
  exists (st_world s2). unfold on_db.
  destruct (releaseLockAndFlush inf (st_world s2)) as [w3 [[]|e|m]]; done.
Qed.
End lock_of_the_entity.

(** C29: the lock does not outlive the evaluation.  Once the provider of the
    event is instantiated, whatever happens next (an error of any step, a panic,
    a failed statement), the last thing the evaluation does is to give the lock
    of the entity back; if that statement reaches the database, the execution
    does not hold the lock any more. *)
Theorem lock_released `{UuidLib} `{RandomUuid} `{TemplateEngine} `{JsonAny} `{PgText}
    `{Checkpoints} `{PropertiesService} `{ProfileStore} `{Selectors} `{CacheKeys}
    {X P E} `{ActionProviders X E P} `{RuleTypes X P} `{ProviderManager P}
    (entity_of : option ProtoMessage → E) inf w x w1 provider eID executionID
    (Hexec : eiw_ExecutionID inf = Some executionID)
    (Hid : GetID (Some inf) = Ok eID)
    (Hprov : InstantiateFromID (eiw_ProviderID inf) w = (w1, Ok provider)) :
  ∃ w2, (EvalEntityEvent entity_of inf (w, x)).1.1 = (releaseLockAndFlush inf w2).1 ∧
    (w_faults w2 = [] →
     held_by (w_db (EvalEntityEvent entity_of inf (w, x)).1.1) eID executionID = false).
Proof.
  destruct (EvalEntityEvent_release entity_of inf w x _ _ _ Hexec Hprov) as [w2 Hw2].
  exists w2. split; [done|]. intros Hf. rewrite Hw2.
  by apply releaseLockAndFlush_releases.
Qed.

(** A provider that cannot be instantiated leaves the entity locked.  The
    release is only deferred after the provider is there, so when instantiating
    it fails the evaluation returns the error with the lock still held by an
    execution that is over, and until the lock is older than the interval no
    other event of the entity can take it. *)
Theorem provider_failure_keeps_lock `{UuidLib} `{RandomUuid} `{TemplateEngine} `{JsonAny}
    `{PgText} `{Checkpoints} `{PropertiesService} `{ProfileStore} `{Selectors} `{CacheKeys}
    {X P E} `{ActionProviders X E P} `{RuleTypes X P} `{ProviderManager P}
    (entity_of : option ProtoMessage → E) inf w x w1 err eID executionID l
    (Hexec : eiw_ExecutionID inf = Some executionID)
    (Hprov : InstantiateFromID (eiw_ProviderID inf) w = (w1, Err err))
    (Hread : w_db w1 = w_db w)
    (Hlock : entity_execution_lock (w_db w) !! eID = Some l) :
  EvalEntityEvent entity_of inf (w, x)
    = ((w1, x), Err (EWrap "could not instantiate provider: " err "")) ∧
  entity_execution_lock (w_db w1) !! eID = Some l ∧
  (∀ w' t proj interval, w_db w' = w_db w1 → w_faults w' = [] →
     (w_now w' - seconds interval ≤ lk_LastLockTime l)%Z →
     LockIfThresholdNotExceeded {| lp_Entity := t; lp_ProjectID := proj;
       lp_EntityInstanceID := eID; lp_Interval := interval |} w' = (w', Err ErrNoRows)).
Proof.
  split_and!.
  - unfold EvalEntityEvent, mbind, prog_bind, lift, wrapf, on_db. rewrite Hexec. simpl.
    by rewrite Hprov.
  - by rewrite Hread.
  - intros w' t proj interval Hd Hf Ht. unfold LockIfThresholdNotExceeded.
    rewrite query_ok by done. simpl. rewrite Hd, Hread, Hlock.
    destruct (Z.ltb_spec (lk_LastLockTime l) (w_now w' - seconds interval)); [lia|done].
Qed.

(** ** The history over a whole evaluation *)

(** The invariant of a world between transactions. *)
Definition world_ok (w : World) : Prop := history_wf (history (w_db w)) ∧ honest_faults w.

Definition faults_within (F : list (option gerr)) (w : World) : Prop :=
  ∀ x, x ∈ w_faults w → x ∈ F.

Lemma preserves_query_faults {A} F (f : World → World * res A) :
  (∀ w, w_faults (f w).1 = w_faults w) → preserves (faults_within F) (query f).
Proof.
  intros Hf w Hw. unfold query. destruct (w_faults w) as [|[e|] fs] eqn:Hfs; simpl.
  - unfold faults_within. rewrite Hf, Hfs. by intros x Hx%not_elem_of_nil.
  - intros x Hx. apply Hw. rewrite Hfs. by right.
  - unfold faults_within. rewrite Hf. intros x Hx. apply Hw. rewrite Hfs. by right.
Qed.

Lemma preserves_select_faults {A} F (f : World → res A) : preserves (faults_within F) (select f).
Proof. by apply preserves_query_faults. Qed.

(** A statement that keeps the tables well formed and draws from the failures. *)
Lemma world_ok_of {A} (m : prog World A) :
  (∀ w, history_wf (history (w_db w)) → honest_faults w → history_wf (history (w_db (m w).1))) →
  (∀ F, preserves (faults_within F) m) → preserves world_ok m.
Proof.
  intros Hm HF w [Hwf Hh]. split; [by apply Hm|].
  intros e He. apply Hh. exact (HF (w_faults w) w (λ x Hx, Hx) _ He).
Qed.

Section statements_faults.
Context `{RandomUuid} (F : list (option gerr)).

Ltac faults := apply preserves_query_faults; intros w; cbv zeta; repeat case_goal; done.

Lemma InsertEvaluationRuleEntity_faults arg :
  preserves (faults_within F) (InsertEvaluationRuleEntity arg).
Proof. faults. Qed.
Lemma InsertEvaluationStatus_faults arg : preserves (faults_within F) (InsertEvaluationStatus arg).
Proof. faults. Qed.
Lemma UpsertLatest_faults arg : preserves (faults_within F) (UpsertLatestEvaluationStatus arg).
Proof. faults. Qed.
Lemma insert_event_faults upd arg : preserves (faults_within F) (insert_event upd arg).
Proof. faults. Qed.
Lemma UpsertEvaluationOutput_faults arg : preserves (faults_within F) (UpsertEvaluationOutput arg).
Proof. faults. Qed.
Lemma ReleaseLock_faults arg : preserves (faults_within F) (ReleaseLock arg).
Proof. faults. Qed.
Lemma UpdateLease_faults arg : preserves (faults_within F) (UpdateLease arg).
Proof. faults. Qed.
Lemma WithTransactionErr_faults fn :
  preserves (faults_within F) fn → preserves (faults_within F) (WithTransactionErr fn).
Proof.
  intros Hfn w Hw. unfold WithTransactionErr.
  pose proof (preserves_select_faults F (λ _, Ok tt) w Hw) as H1. fold BeginTransaction in H1.
  destruct (BeginTransaction w) as [w1 [[]|e|m]]; simpl in *; [|done|done].
  specialize (Hfn w1 H1). destruct (fn w1) as [w2 [[]|e|m]]; simpl in *; [|done|done].
  pose proof (preserves_select_faults F (λ _, Ok tt) w2 Hfn) as H2. fold Commit in H2.
  by destruct (Commit w2) as [w3 [[]|e|m]].
Qed.
End statements_faults.

#[export] Hint Resolve InsertEvaluationRuleEntity_faults InsertEvaluationStatus_faults
  UpsertLatest_faults insert_event_faults UpsertEvaluationOutput_faults ReleaseLock_faults
  UpdateLease_faults WithTransactionErr_faults preserves_select_faults : preserves.

(** [preserves] goals, through the matches of the program. *)
Ltac preserves_step :=
  lazymatch goal with
  | |- preserves _ (mbind _ _) => apply preserves_bind; [|intros]
  | |- preserves _ (wrapf _ _) => apply preserves_wrapf
  | |- preserves _ (try _) => apply preserves_try
  | |- preserves _ (defer _ _) => apply preserves_defer
  | |- preserves _ (foreach _ _) => apply preserves_foreach; intros
  | |- preserves _ (WithTransactionErr _) => apply WithTransactionErr_faults
  | |- preserves _ (match ?x with _ => _ end) => destruct x
  | |- _ => solve [eauto with preserves]
  end.
Ltac preserves_tac := repeat preserves_step.

Section executor_history.
Context `{UuidLib} `{RandomUuid} `{TemplateEngine} `{JsonAny} `{PgText} `{Checkpoints}.
Context `{ProtoJSON} `{PropertiesService} `{ProfileStore} `{Selectors} `{CacheKeys}.
Context {X P E : Type} `{ActionProviders X E P} `{RuleTypes X P} `{ProviderManager P}.
Context (entity_of : option ProtoMessage → E).

Lemma createOrUpdate_faults F params :
  preserves (faults_within F) (createOrUpdateEvalStatus params).
Proof.
  unfold createOrUpdateEvalStatus, store_results, StoreEvaluationStatus, find_rule_entity,
    createNewStatus, store_output, GetLatestEvalStateForRuleEntity. cbv zeta.
  preserves_tac.
Qed.

Lemma createOrUpdate_wf params w :
  history_wf (history (w_db w)) → honest_faults w →
  history_wf (history (w_db (createOrUpdateEvalStatus params w).1)).
Proof.
  intros Hwf Hh. unfold createOrUpdateEvalStatus, mbind, prog_bind, lift, deref.
  destruct params as [p|]; simpl; [|done].
  destruct (errors_Is _ _); [done|]. destruct (ToJSONorDefault _ _) as [cp err].
  destruct (WithTransactionErr _ w) as [w' r] eqn:Hrun.
  destruct (WithTransactionErr_cases _ _ _ _ Hrun)
    as [[_ (fs & w2 & Hfs & Hfn & Hdb & _)]|[_ Hdb]]; simpl; rewrite Hdb; [|done].
  apply store_results_Ok in Hfn as (id & Hrec & _); [|done|by apply honest_faults_sub].
  by eapply recorded_wf.
Qed.

Lemma createOrUpdate_ok params : preserves world_ok (createOrUpdateEvalStatus params).
Proof. apply world_ok_of; [apply createOrUpdate_wf|intros F; apply createOrUpdate_faults]. Qed.

Lemma select_ok_world {A} (f : World → res A) : preserves world_ok (select f).
Proof.
  apply world_ok_of; [|intros F; apply preserves_select_faults].
  intros w Hwf _. by rewrite query_select_db.
Qed.

(** A statement on the locks leaves the history. *)
Lemma lock_statement_ok {A} (f : World → World * res A) :
  (∀ w, history (w_db (f w).1) = history (w_db w)) → (∀ w, w_faults (f w).1 = w_faults w) →
  preserves world_ok (query f).
Proof.
  intros Hd Hf. apply world_ok_of; [|intros F; by apply preserves_query_faults].
  intros w Hwf _. apply (query_db f (λ d, history_wf (history d))); [|done].
  intros w' Hw' _ _. by rewrite Hd, Hw'.
Qed.

Lemma ReleaseLock_ok arg : preserves world_ok (ReleaseLock arg).
Proof. apply lock_statement_ok; intros w; cbv zeta; by case_goal. Qed.
Lemma UpdateLease_ok arg : preserves world_ok (UpdateLease arg).
Proof. apply lock_statement_ok; intros w; cbv zeta; repeat case_goal; done. Qed.

(** The interfaces of the executor keep the tables well formed. *)
Record interfaces_ok : Prop := {
  io_provider : ∀ id, preserves world_ok (InstantiateFromID id);
  io_parents : ∀ id, preserves world_ok (GetParentProjects id);
  io_types : ∀ t l, preserves world_ok (GetRuleTypesByEntityInHierarchy t l);
  io_type : ∀ id, preserves world_ok (GetRuleTypeByID id);
  io_engine : ∀ rt p, preserves world_ok (newRuleEngine rt p);
  io_profiles : ∀ id t, preserves world_ok (GetProfilesForEvaluation id t);
  io_entity : ∀ id, preserves world_ok (EntityWithPropertiesByID id);
  io_selector : ∀ t e, preserves world_ok (EntityToSelectorEntity t e);
}.

Definition exec_ok (s : ExecState X) : Prop := world_ok (st_world s).

Lemma on_db_ok {A} (m : prog World A) : preserves world_ok m → preserves exec_ok (on_db m).
Proof.
  intros Hm s Hs. unfold on_db. specialize (Hm _ Hs). by destruct (m (st_world s)).
Qed.
Lemma on_actions_ok {A} (m : prog X A) : preserves exec_ok (on_actions m).
Proof. intros s Hs. unfold on_actions. by destruct (m (st_ext s)). Qed.
Lemma on_eval_ok {A} (m : prog (EvalState X) A) p : preserves exec_ok (on_eval m p).
Proof. intros s Hs. unfold on_eval. by destruct (m _). Qed.
Lemma set_engines_ok t : preserves exec_ok (set_engines t).
Proof. by intros s Hs. Qed.
Lemma step_ok {A} pre (m : prog World A) k :
  preserves world_ok m → (∀ a, preserves world_ok (k a)) → preserves world_ok (step pre m k).
Proof.
  intros Hm Hk. unfold step. apply preserves_bind; [by apply preserves_try|].
  intros [a|e]; [apply Hk|apply preserves_ret].
Qed.

Hint Resolve createOrUpdate_ok select_ok_world ReleaseLock_ok UpdateLease_ok on_db_ok
  on_actions_ok on_eval_ok set_engines_ok io_provider io_parents io_types io_type io_engine
  io_profiles io_entity io_selector : preserves.

Lemma evaluate_entity_ok inf provider :
  interfaces_ok → preserves exec_ok (evaluate_entity entity_of inf provider).
Proof.
  intros Hio. unfold evaluate_entity, NewRuleEngineCache, cacheRuleEngine. cbv zeta.
  preserves_tac.
  unfold evaluate_profile. apply preserves_bind.
  - apply on_db_ok. unfold profileEvalStatus. preserves_tac.
    apply step_ok; [eauto with preserves|intros selection].
    apply step_ok; [eauto with preserves|intros entityID].
    apply step_ok; [eauto with preserves|intros ewp]. preserves_tac.
    apply step_ok; [eauto with preserves|intros [selected matched]]. preserves_tac.
  - intros status. apply preserves_foreach. intros rule. apply preserves_wrapf.
    unfold evaluateRule, GetRuleEngine, cacheRuleEngine, evaluate_with. cbv zeta.
    preserves_tac; apply on_db_ok; unfold createEvalStatusParams, GetRuleTypeNameByID,
      GetRuleEvaluationByProfileIdAndRuleType, ListRuleEvaluationsByProfileId, updateLockLease;
      preserves_tac.
Qed.
End executor_history.

(** C35: a whole evaluation keeps the history well formed.  Provided the
    interfaces the executor calls do, whatever the rules and the actions do and
    whichever statements fail, evaluating an entity event leaves every latest
    status pointing at a status of its rule entity, one rule entity per rule
    and entity, and no event or output without its status. *)
Theorem evaluation_keeps_history `{UuidLib} `{RandomUuid} `{TemplateEngine} `{JsonAny}
    `{PgText} `{Checkpoints} `{PropertiesService} `{ProfileStore} `{Selectors} `{CacheKeys}
    {X P E} `{ActionProviders X E P} `{RuleTypes X P} `{ProviderManager P}
    (entity_of : option ProtoMessage → E) inf w x
    (Hio : interfaces_ok (X := X) (P := P)) (Hw : world_ok w) :
  world_ok (EvalEntityEvent entity_of inf (w, x)).1.1.
Proof.
  unfold EvalEntityEvent.
  match goal with |- context [let '(s', r) := ?m ?s in _] =>
    assert (Hm : preserves exec_ok m); [|specialize (Hm s Hw); by destruct (m s)] end.
  preserves_tac; try apply on_db_ok.
  - apply Hio.
  - unfold releaseLockAndFlush. preserves_tac. apply ReleaseLock_ok.
  - by apply evaluate_entity_ok.
Qed.

(** An entity the profile's selectors leave out is not evaluated.  The rule
    is recorded as skipped, without the rule type engine being run and without
    any action: the external services and the ingest cache are left alone. *)
Theorem unselected_entity_is_skipped `{UuidLib} `{RandomUuid} `{TemplateEngine} `{JsonAny}
    `{PgText} `{Checkpoints} `{CacheKeys}
    {X P E} `{ActionProviders X E P} (entity_of : option ProtoMessage → E)
    inf eng (acts : RuleActionsEngine X E) e params s
    (Hskip : is_in e ErrEvaluationSkipped = true)
    (Hstates : ∀ t a, rae_actions acts !! t = Some a →
       act_GetOnOffState a ∈ [ActionOptOn; ActionOptOff; ActionOptDryRun; ActionOptUnknown]) :
  ∃ a p, evaluate_with entity_of inf eng acts (Some e) params s
         = on_db (createOrUpdateEvalStatus (Some p)) s ∧
    p = SetActionsErr a (SetEvalErr (Some e) params) ∧
    ErrorAsEvalStatus (esp_evalErr p) =
      (if is_in e ErrEvaluationFailed then EvalStatusTypesFailure else EvalStatusTypesSkipped) ∧
    RemediateErr a ≠ None ∧ IsActionInformativeError (RemediateErr a) = true ∧
    AlertErr a ≠ None ∧ IsActionInformativeError (AlertErr a) = true.
Proof.
  assert (Hsk : ∀ t, isSkippable acts t (Some e) = true).
  { intros t. unfold isSkippable. destruct (rae_actions acts !! t) as [a|] eqn:Ha; [|done].
    specialize (Hstates t a Ha). simpl. rewrite Hskip.
    list_cases Hstates; rewrite Hcase || rewrite Hcase0 || rewrite Hcase1 || rewrite Hcase2; done. }
  unfold evaluate_with, mbind, prog_bind, on_actions. simpl.
  unfold DoActions. simpl. rewrite !Hsk.
  destruct (rae_actions acts !! remediate_ActionType), (rae_actions acts !! alert_ActionType);
    simpl; rewrite ?Hskip.
  all: destruct s; eexists _, _; split; [reflexivity|]; split; [reflexivity|].
  all: unfold ErrorAsEvalStatus; simpl; rewrite ?Hskip; split_and!; done.
Qed.

(** ** Witnesses: one profile with one rule, on the small database *)

Definition ex_json : JsonAny := {| json_Marshal := λ a, inl (any_repr a) |}.
Definition ex_pg : PgText := {| pg_lower := Strings.ToLower |}.
Definition ex_checkpoints : Checkpoints := {| checkpoint_ToJSON := λ a, inl (any_repr a) |}.
Definition ex_rule : RuleInstance := esp_Rule ex_eval_params.
Definition ex_profile : ProfileAggregate :=
  {| pa_ID := 40%N; pa_Name := "profile";
     pa_ActionConfig := {| ac_Remediate := ActionOptOn; ac_Alert := ActionOptOn |};
     pa_Rules := [ex_rule]; pa_Selectors := [] |}.
Definition ex_store : ProfileStore :=
  {| GetProfilesForEvaluation := λ _ _, mret [ex_profile] |}.
Definition ex_selectors : Selectors :=
  {| Selection := unit; SelectorEntity := unit; NewSelectionFromProfile := λ _ _, Ok tt;
     EntityToSelectorEntity := λ _ _, mret (Some tt); Select := λ _ _, Ok (true, "") |}.
Definition ex_failing_engine : RuleTypeEngine (list string) :=
  {| rte_ValidateRuleDef := λ a, (a, None); rte_ValidateParams := λ a, (a, None);
     rte_ingester := {| ing_GetType := "git"; ing_GetConfig := None;
                        ing_Ingest := λ _ _, mret ex_data |};
     rte_evaluator := λ _ _ _ x, ("eval" :: x, Ok (None, Some (NewErrEvaluationFailed "f"))) |}.
Definition ex_rule_types : RuleTypes (list string) unit :=
  {| RuleTypeRow := unit; rtr_ID := λ _, 30%N; rtr_Def := λ _, ex_rule_type;
     GetParentProjects := λ p, mret [p];
     GetRuleTypesByEntityInHierarchy := λ _ _, mret [tt];
     GetRuleTypeByID := λ _, mret tt; newRuleEngine := λ _ _, mret ex_failing_engine |}.
Definition ex_manager : ProviderManager unit := {| InstantiateFromID := λ _, mret tt |}.
Definition ex_manager_down : ProviderManager unit :=
  {| InstantiateFromID := λ _, throw (EText "no such provider") |}.

(** The event of an execution that holds the lock of its entity. *)
Definition ex_execution : EntityInfoWrapper := WithExecutionID 9%N ex_inf.
Definition ex_locked : World :=
  ex_world (set_locks {[7%N := ex_lock 9%N 1000%Z]} ex_db) [].

Lemma ex_history_wf : history_wf (history ex_db).
Proof.
  split; intros *; simpl; rewrite ?lookup_empty; try done; by intros ?%not_elem_of_nil.
Qed.

Lemma ex_world_ok d fs : history_wf (history d) → (∀ e, Some e ∉ fs) → world_ok (ex_world d fs).
Proof. intros Hd Hf. split; [done|]. intros e He. by apply Hf in He. Qed.

Section witnesses.
#[local] Existing Instance decimal_uuid.
#[local] Existing Instance counter_uuid.
#[local] Existing Instance echo_engine.
#[local] Existing Instance plain_protojson.
#[local] Existing Instance ex_service.
#[local] Existing Instance ex_keys.
#[local] Existing Instance log_providers.
#[local] Existing Instance ex_json.
#[local] Existing Instance ex_pg.
#[local] Existing Instance ex_checkpoints.
#[local] Existing Instance ex_store.
#[local] Existing Instance ex_selectors.
#[local] Existing Instance ex_rule_types.

(** What the executor hands over after a failed evaluation. *)
Definition ex_results : EvalStatusParams :=
  SetActionsErr getDefaultResult (SetEvalErr (Some (NewErrEvaluationFailed "f")) ex_eval_params).

Example evaluation_recorded_witness :
  (createOrUpdateEvalStatus (Some ex_results) (ex_world ex_db [])).2 = Ok tt ∧
  history_wf (history (w_db (createOrUpdateEvalStatus (Some ex_results) (ex_world ex_db [])).1)).
Proof.
  split; [by vm_compute|].
  refine (proj1 (evaluation_recorded ex_results (ex_world ex_db []) _ _ ex_history_wf _
    (surjective_pairing _))).
  by intros e ?%not_elem_of_nil.
Defined.

Example next_evaluation_reads_stored_witness :
  let w' := (createOrUpdateEvalStatus (Some ex_results) (ex_world ex_db [])).1 in
  ∃ p', createEvalStatusParams ex_execution (esp_Profile ex_results) (esp_Rule ex_results) w'
        = (w', Ok p') ∧
    esp_EvalStatusFromDb p' = Some (stored_row (esp_actionsErr ex_results)).
Proof.
  intros w'.
  destruct (next_evaluation_reads_stored ex_results (ex_world ex_db []) w' ex_execution 9%N
    ex_type_row) as (p' & Hp & Hrow & _).
  - exact ex_history_wf.
  - by intros e ?%not_elem_of_nil.
  - by vm_compute.
  - by vm_compute.
  - by vm_compute.
  - split.
    + eexists. by vm_compute.
    + by vm_compute.
    + eexists. split; [by vm_compute|]. eexists. by vm_compute.
    + intros re l (row & Hrow & _). by vm_compute in Hrow.
    + intros re l row rin rt' Hl. by vm_compute in Hl.
  - by vm_compute.
  - by vm_compute.
  - by exists p'.
Defined.

Example lock_released_witness :
  held_by (w_db ex_locked) 7%N 9%N = true ∧
  ∃ w2, (@EvalEntityEvent _ _ _ _ _ _ _ _ _ _ (list string) unit unit _ _ ex_manager
           (λ _, tt) ex_execution (ex_locked, [])).1.1 = (releaseLockAndFlush ex_execution w2).1.
Proof.
  split; [by vm_compute|].
  destruct (@lock_released _ _ _ _ _ _ _ _ _ _ (list string) unit unit _ _ ex_manager
    (λ _, tt) ex_execution ex_locked [] ex_locked tt 7%N 9%N) as (w2 & Hw2 & _);
    [by vm_compute..|]. by exists w2.
Defined.

Example provider_failure_keeps_lock_witness :
  entity_execution_lock (w_db (@EvalEntityEvent _ _ _ _ _ _ _ _ _ _ (list string) unit unit _ _
    ex_manager_down (λ _, tt) ex_execution (ex_locked, [])).1.1) !! 7%N = Some (ex_lock 9%N 1000%Z).
Proof.
  destruct (@provider_failure_keeps_lock _ _ _ _ _ _ _ _ _ _ (list string) unit unit _ _
    ex_manager_down (λ _, tt) ex_execution ex_locked [] ex_locked (EText "no such provider")
    7%N 9%N (ex_lock 9%N 1000%Z)) as (-> & Hl & _); [by vm_compute..|]. exact Hl.
Defined.

Example evaluation_keeps_history_witness :
  world_ok (@EvalEntityEvent _ _ _ _ _ _ _ _ _ _ (list string) unit unit _ _ ex_manager
    (λ _, tt) ex_execution (ex_locked, [])).1.1.
Proof.
  apply (@evaluation_keeps_history _ _ _ _ _ _ _ _ _ _ (list string) unit unit _ _ ex_manager).
  - split; intros; apply preserves_ret.
  - apply ex_world_ok; [exact ex_history_wf|]. by intros e ?%not_elem_of_nil.
Defined.

Example unselected_entity_is_skipped_witness :
  ∃ a p, evaluate_with (λ _, tt) ex_execution
      {| ce_ruletype := ex_rule_type; ce_engine := ex_failing_engine |} ex_rae
      (Some (NewErrEvaluationSkipped "selector")) ex_eval_params
      {| st_world := ex_locked; st_ext := ["x"]; st_ingest := NewCache; st_engines := ∅ |}
    = on_db (createOrUpdateEvalStatus (Some p))
      {| st_world := ex_locked; st_ext := ["x"]; st_ingest := NewCache; st_engines := ∅ |} ∧
    p = SetActionsErr a (SetEvalErr (Some (NewErrEvaluationSkipped "selector")) ex_eval_params).
Proof.
  destruct (unselected_entity_is_skipped (λ _, tt) ex_execution
    {| ce_ruletype := ex_rule_type; ce_engine := ex_failing_engine |} ex_rae
    (NewErrEvaluationSkipped "selector") ex_eval_params
    {| st_world := ex_locked; st_ext := ["x"]; st_ingest := NewCache; st_engines := ∅ |})
    as (a & p & Hrun & Hp & _).
  - by vm_compute.
  - intros t a Ha. assert (Forall (λ q, act_GetOnOffState q.2 = ActionOptOn)
              (map_to_list (rae_actions ex_rae))) as Hall.
    { vm_compute. repeat constructor. }
    rewrite Forall_forall in Hall. apply elem_of_map_to_list in Ha. apply Hall in Ha.
    simpl in Ha. rewrite Ha. by left.
  - by exists a, p.
Defined.
End witnesses.
