(* ===== verification/ProfileStore.v ===== *)
(** * The profile store: what the executor evaluates

    pkg/profiles/store.go and the conversions of rule instances of
    pkg/profiles/models/models.go.  The executor reads the rule instances of the
    tables, the users of the API the rules stored as JSON: while both are in step
    ([ProfileSync]) the executor evaluates exactly the rules the users see. *)

From S2P Require Import Prelude GoErrors GoMonad GoStrings Uuid DbTypes ProfileModels Properties.
From S2P Require Import ApiTypes Validators Database HistoryDb SelectorScan ProfileDb ProfileRules.
From S2P Require Import ProfileTyping ProfileMerge ProfileService ProfileSync Executor.
Local Open Scope string_scope.

(** [AsMap] of a struct, and [json.Unmarshal] into a map, of which nil reads
    [null].  What a struct is marshalled to is read back as its map. *)
Class RuleMaps `{RulesJSON} := {
  struct_AsMap : Struct → any;
  map_Unmarshal : string → option any + gerr;
  map_Unmarshal_struct : ∀ s t, struct_Marshal s = inl t →
    map_Unmarshal t = inl (struct_AsMap <$> s);
}.

Section store.
Context `{UuidLib} `{PgText} `{RuleMaps} `{RecordOutput}.

(** ** models.go *)

Definition RuleFromPB (ruleTypeID : UUID) (pbRule : Profile_Rule) : RuleInstance :=
  {| ri_ID := uuid_Nil; ri_Name := rule_Name pbRule;
     ri_Def := Some (struct_AsMap (default ∅ (rule_Def pbRule)));
     ri_Params := Some (struct_AsMap (default ∅ (rule_Params pbRule)));
     ri_RuleTypeID := ruleTypeID |}.

Definition unmarshal_map (what text : string) : res (option any) :=
  match map_Unmarshal text with
  | inl m => Ok m
  | inr e => Err (EWrap ("unable to deserialize rule " +:+ what +:+ ": ") e "")
  end.

Definition RuleFromDB (rule : UUID * dbRuleInstance) : res RuleInstance :=
  def ← unmarshal_map "def" (rin_Def rule.2);
  params ← unmarshal_map "params" (rin_Params rule.2);
  mret {| ri_ID := rule.1; ri_Name := rin_Name rule.2; ri_Def := def; ri_Params := params;
          ri_RuleTypeID := rin_RuleTypeID rule.2 |}.

(** ** store.go *)

(** The rules by the id of their profile.  The error names the id of the rule
    that could not be made, which is nil. *)
Fixpoint group_rules (rulesByProfileID : gmap UUID (list RuleInstance))
    (rules : list (UUID * dbRuleInstance)) : res (gmap UUID (list RuleInstance)) :=
  match rules with
  | [] => Ok rulesByProfileID
  | dbRule :: rules =>
      rule ← wrapf_res ("error while procesing rule instance " +:+ uuid_String uuid_Nil +:+ ": ")
               (RuleFromDB dbRule);
      let ruleList := default [] (rulesByProfileID !! rin_ProfileID dbRule.2) in
      group_rules (<[rin_ProfileID dbRule.2 := (ruleList ++ [rule])%list]> rulesByProfileID) rules
  end.

Definition new_aggregate (id : UUID) (profile : dbProfile) (profileRules : list RuleInstance)
    (selectors : list dbProfileSelector) : ProfileAggregate :=
  {| pa_ID := id; pa_Name := dpr_Name profile;
     pa_ActionConfig := {| ac_Remediate := ActionOptFromDB (dpr_Remediate profile);
                           ac_Alert := ActionOptFromDB (dpr_Alert profile) |};
     pa_Rules := profileRules; pa_Selectors := SelectorSliceFromDB selectors |}.

(** The zero value. *)
Definition no_aggregate : ProfileAggregate :=
  {| pa_ID := uuid_Nil; pa_Name := "";
     pa_ActionConfig := {| ac_Remediate := ActionOptOn; ac_Alert := ActionOptOn |};
     pa_Rules := []; pa_Selectors := [] |}.

Fixpoint append_aggregates (rulesByProfileID : gmap UUID (list RuleInstance))
    (aggregates : list ProfileAggregate)
    (profiles : list (UUID * dbProfile * list dbProfileSelector)) : res (list ProfileAggregate) :=
  match profiles with
  | [] => Ok aggregates
  | (id, profile, selectors) :: profiles =>
      match rulesByProfileID !! id with
      | None => Err (EText ("could not find rule instances for profile " +:+ uuid_String id +:+
                            ": %!w(<nil>)"))
      | Some profileRules =>
          append_aggregates rulesByProfileID
            (aggregates ++ [new_aggregate id profile profileRules selectors])%list profiles
      end
  end.

(** The aggregates are appended to as many empty ones. *)
Definition store_GetProfilesForEvaluation (projectID : UUID) (entityType : Entities)
    : prog World (list ProfileAggregate) :=
  projects ← wrapf "error while querying project hierarchy: " (ProfileDb.GetParentProjects projectID);
  rules ← wrapf "error while querying rule instances to use in evaluation: "
            (GetRuleInstancesEntityInProjects entityType projects);
  rulesByProfileID ← lift (group_rules ∅ rules);
  profiles ← wrapf "error while querying profiles to use in evaluation: "
               (BulkGetProfilesByID (map_to_list rulesByProfileID).*1);
  lift (append_aggregates rulesByProfileID (replicate (length profiles) no_aggregate) profiles).

#[export] Instance db_profile_store : ProfileStore :=
  {| GetProfilesForEvaluation := store_GetProfilesForEvaluation |}.

(** ** What is evaluated *)

(** A rule of the executor is that of a profile. *)
Record rule_of (d : Db) (rule : RuleInstance) (pb : Profile_Rule) : Prop := {
  ro_name : same_name (ri_Name rule) (rule_Name pb);
  ro_type : type_id d (rule_Type pb) (ri_RuleTypeID rule);
  ro_def : ri_Def rule = struct_AsMap <$> rule_Def pb;
  ro_params : ri_Params rule = struct_AsMap <$> rule_Params pb;
}.

(** The aggregates hold, for the entity, the rules the users see of the profiles
    of the hierarchy, each profile once. *)
Record evaluates (d : Db) (projectID : UUID) (e : Entities) (aggs : list ProfileAggregate)
    : Prop := {
  ev_sound : ∀ a rule, a ∈ aggs → rule ∈ pa_Rules a → ∃ p pb,
    profiles d !! pa_ID a = Some p ∧ dpr_ProjectID p ∈ ancestors d projectID ∧
    pa_Name a = dpr_Name p ∧
    pa_ActionConfig a = {| ac_Remediate := ActionOptFromDB (dpr_Remediate p);
                           ac_Alert := ActionOptFromDB (dpr_Alert p) |} ∧
    pb ∈ rules_at d (pa_ID a) e ∧ rule_of d rule pb;
  ev_complete : ∀ id p pb, profiles d !! id = Some p → dpr_ProjectID p ∈ ancestors d projectID →
    pb ∈ rules_at d id e → ∃ a rule, a ∈ aggs ∧ pa_ID a = id ∧ rule ∈ pa_Rules a ∧
      same_name (ri_Name rule) (rule_Name pb);
  ev_once : NoDup (pa_ID <$> filter (λ a, pa_Rules a ≠ []) aggs) ∧
    ∀ a, a ∈ aggs → NoDup (ri_ID <$> pa_Rules a);
}.

(** ** Lemmas *)

Definition decoded (rules : list (UUID * dbRuleInstance)) : list RuleInstance :=
  omap (λ p, match RuleFromDB p with Ok r => Some r | _ => None end) rules.

Definition of_profile (id : UUID) (rules : list (UUID * dbRuleInstance))
    : list (UUID * dbRuleInstance) :=
  filter (λ p, rin_ProfileID p.2 = id) rules.

(** What [RuleFromDB] makes of a copy of a rule. *)
Lemma RuleFromDB_copy d iid r pb :
  copy_of d r pb → ∃ rule, RuleFromDB (iid, r) = Ok rule ∧ ri_ID rule = iid ∧
    ri_Name rule = rin_Name r ∧ rule_of d rule pb.
Proof.
  intros [Hn Ht Hd Hp]. unfold RuleFromDB, unmarshal_map. cbn.
  rewrite (map_Unmarshal_struct _ _ Hd), (map_Unmarshal_struct _ _ Hp). cbn.
  by eexists.
Qed.

Lemma group_rules_Ok rules : ∀ m0,
  (∀ p, p ∈ rules → ∃ rule, RuleFromDB p = Ok rule ∧ ri_ID rule = p.1) →
  ∃ m, group_rules m0 rules = Ok m ∧ ∀ id,
    default [] (m !! id) = (default [] (m0 !! id) ++ decoded (of_profile id rules))%list ∧
    (is_Some (m !! id) ↔ is_Some (m0 !! id) ∨ of_profile id rules ≠ []).
Proof.
  induction rules as [|[iid r] rules IH]; intros m0 Hall.
  { exists m0. cbn. split; [done|]. intros id. rewrite app_nil_r. split; [done|]. split; [by left|]. by intros [?|[]]. }
  destruct (Hall (iid, r)) as (rule & Hr & _); [by left|]. cbn [group_rules]. rewrite Hr. cbn.
  edestruct IH as (m & Hm & Hspec); [intros p Hp; apply Hall; by right|].
  exists m. split; [exact Hm|]. intros id. destruct (Hspec id) as [Hl Hs]. rewrite Hl, Hs. clear Hl Hs.
  unfold of_profile. cbn [filter list_filter snd].
  destruct (decide (rin_ProfileID r = id)) as [<-|Hne].
  - rewrite lookup_insert_eq. cbn. rewrite Hr, <-app_assoc. cbn. split; [done|]. split; [by right|by left].
  - by rewrite lookup_insert_ne.
Qed.

Lemma append_aggregates_Ok m l : ∀ aggs,
  (∀ x, x ∈ l → is_Some (m !! x.1.1)) →
  append_aggregates m aggs l =
    Ok (aggs ++ ((λ x, new_aggregate x.1.1 x.1.2 (default [] (m !! x.1.1)) x.2) <$> l))%list.
Proof.
  induction l as [|[[id p] sels] l IH]; intros aggs Hall; cbn; [by rewrite app_nil_r|].
  destruct (Hall (id, p, sels)) as [rules Hm]; [by left|]. cbn in Hm. rewrite Hm. cbn.
  rewrite IH by (intros x Hx; apply Hall; by right). by rewrite <-app_assoc.
Qed.

(** The profiles with their selectors; a selector that cannot be read fails. *)
Definition with_selectors (d : Db) (p : UUID * dbProfile)
    : res (UUID * dbProfile * list dbProfileSelector) :=
  selectors ← selectors_of d p.1; mret (p, selectors).

Lemma with_selectors_cases d l :
  match mapM (with_selectors d) l with
  | Ok rows => rows.*1 = l
  | _ => ∃ id, is_ok (selectors_of d id) = false
  end.
Proof.
  induction l as [|p l IH]; cbn [mapM]; [done|].
  assert (Hp : match with_selectors d p with
               | Ok x => x.1 = p
               | _ => ∃ id, is_ok (selectors_of d id) = false
               end).
  { unfold with_selectors. destruct (selectors_of d p.1) eqn:Hs; cbn; [done|..];
      exists p.1; by rewrite Hs. }
  destruct (with_selectors d p) as [x|e|m]; cbn; [|done..].
  destruct (mapM _ l) as [rows|e|m]; cbn; [|done..]. by subst.
Qed.

(** The instances of an entity in the hierarchy. *)
Definition instances_for (d : Db) (projectID : UUID) (e : Entities) : list (UUID * dbRuleInstance) :=
  filter (λ p, rin_EntityType p.2 = e ∧ rin_ProjectID p.2 ∈ ancestors d projectID)
    (map_to_list (rule_instances d)).

Lemma instances_for_spec d projectID e iid r :
  (iid, r) ∈ instances_for d projectID e ↔
  rule_instances d !! iid = Some r ∧ rin_EntityType r = e ∧ rin_ProjectID r ∈ ancestors d projectID.
Proof. unfold instances_for. rewrite list_elem_of_filter, elem_of_map_to_list. cbn. tauto. Qed.

Lemma instances_decode d projectID e p :
  in_step d → p ∈ instances_for d projectID e →
  ∃ rule, RuleFromDB p = Ok rule ∧ ri_ID rule = p.1 ∧ ri_Name rule = rin_Name p.2 ∧
    ∃ pb, pb ∈ rules_at d (rin_ProfileID p.2) e ∧ rule_of d rule pb.
Proof.
  intros Hin Hp. destruct p as [iid r]. apply instances_for_spec in Hp as (Hl & He & _).
  destruct (is_copies d Hin iid r Hl) as (pb & Hpb & Hc). rewrite He in Hpb.
  destruct (RuleFromDB_copy d iid r pb Hc) as (rule & Hr & Hid & Hn & Hro). by eauto 8.
Qed.

Definition aggregate_of (rules : list (UUID * dbRuleInstance))
    (x : UUID * dbProfile * list dbProfileSelector) : ProfileAggregate :=
  new_aggregate x.1.1 x.1.2 (decoded (of_profile x.1.1 rules)) x.2.

(** The answer, for tables in step on a working connection. *)
Lemma store_run projectID e w :
  w_faults w = [] → in_step (w_db w) →
  let rules := instances_for (w_db w) projectID e in
  ∃ r, store_GetProfilesForEvaluation projectID e w = (w, r) ∧
    match r with
    | Ok aggs => ∃ rows, aggs = (replicate (length rows) no_aggregate ++ (aggregate_of rules <$> rows))%list ∧
        rows.*1 = filter (λ p, of_profile p.1 rules ≠ []) (map_to_list (profiles (w_db w)))
    | _ => ∃ id, is_ok (selectors_of (w_db w) id) = false
    end.
Proof.
  intros Hw Hin rules. unfold store_GetProfilesForEvaluation.
  rewrite (prog_bind_run _ _ w w (ancestors (w_db w) projectID)) by
    (unfold wrapf, ProfileDb.GetParentProjects; by rewrite select_ok).
  rewrite (prog_bind_run _ _ w w rules) by
    (unfold wrapf, GetRuleInstancesEntityInProjects; by rewrite select_ok).
  destruct (group_rules_Ok rules ∅) as (m & Hm & Hspec).
  { intros p Hp. destruct (instances_decode _ _ _ _ Hin Hp) as (rule & Hr & Hid & _). eauto. }
  rewrite (prog_bind_run _ _ w w m) by (unfold lift; by rewrite Hm).
  pose proof (with_selectors_cases (w_db w)
    (filter (λ p, p.1 ∈ (map_to_list m).*1) (map_to_list (profiles (w_db w))))) as Hsel.
  assert (Hb : BulkGetProfilesByID (map_to_list m).*1 w = (w, mapM (with_selectors (w_db w))
    (filter (λ p, p.1 ∈ (map_to_list m).*1) (map_to_list (profiles (w_db w)))))).
  { unfold BulkGetProfilesByID. by rewrite select_ok. }
  assert (Hkeys : ∀ id, id ∈ (map_to_list m).*1 ↔ of_profile id rules ≠ []).
  { intros id. destruct (Hspec id) as [_ Hs]. rewrite lookup_empty in Hs.
    assert (Hs' : is_Some (m !! id) ↔ of_profile id rules ≠ []).
    { rewrite Hs. split; [by intros [[]|]|by right]. }
    rewrite <-Hs', list_elem_of_fmap. split.
    - intros ([i l] & -> & Hi%elem_of_map_to_list). by exists l.
    - intros [l Hl]. exists (id, l). by rewrite elem_of_map_to_list. }
  destruct (mapM _ _) as [rows|x|x] eqn:Hrows.
  - eexists. split; [rewrite (prog_bind_run _ _ w w rows) by (unfold wrapf; by rewrite Hb);
      unfold lift; reflexivity|].
    assert (Hs : ∀ x, x ∈ rows → is_Some (m !! x.1.1)).
    { intros x Hx. apply (list_elem_of_fmap_2 fst) in Hx. rewrite Hsel in Hx.
      apply list_elem_of_filter in Hx as [Hx _]. apply list_elem_of_fmap in Hx as ([i l] & Hi & Hx).
      apply elem_of_map_to_list in Hx. rewrite Hi. by exists l. }
    rewrite append_aggregates_Ok by done. exists rows. split.
    + f_equal. apply list_fmap_ext. intros i x _. unfold aggregate_of. f_equal.
      destruct (Hspec x.1.1) as [-> _]. by rewrite lookup_empty.
    + rewrite Hsel. apply list_filter_ext_in. intros x _. apply Hkeys.
  - exists (Err (EWrap "error while querying profiles to use in evaluation: " x "")).
    split; [|done]. unfold mbind, prog_bind, wrapf. by rewrite Hb.
  - exists (Panic x). split; [|done]. unfold mbind, prog_bind, wrapf. by rewrite Hb.
Qed.

Lemma elem_of_decoded rule l : rule ∈ decoded l ↔ ∃ p, p ∈ l ∧ RuleFromDB p = Ok rule.
Proof.
  unfold decoded. rewrite list_elem_of_omap. split; intros (p & Hp & Hr); exists p; (split; [done|]).
  - destruct (RuleFromDB p); congruence.
  - by rewrite Hr.
Qed.

Lemma decoded_ids l :
  (∀ p, p ∈ l → ∃ rule, RuleFromDB p = Ok rule ∧ ri_ID rule = p.1) → ri_ID <$> decoded l = l.*1.
Proof.
  induction l as [|p l IH]; intros Hall; [done|].
  destruct (Hall p) as (rule & Hr & Hid); [by left|]. cbn. rewrite Hr. cbn. rewrite Hid. f_equal.
  apply IH. intros q Hq. apply Hall. by right.
Qed.

Lemma NoDup_fst_filter {K V} (P : K * V → Prop) `{∀ x, Decision (P x)} (l : list (K * V)) :
  NoDup l.*1 → NoDup (filter P l).*1.
Proof. intros Hl. eapply sublist_NoDup; [exact Hl|]. apply fmap_sublist, sublist_filter. Qed.

Lemma evaluates_rows d projectID e rows :
  in_step d →
  rows.*1 = filter (λ p, of_profile p.1 (instances_for d projectID e) ≠ []) (map_to_list (profiles d)) →
  evaluates d projectID e (replicate (length rows) no_aggregate ++
                           (aggregate_of (instances_for d projectID e) <$> rows)).
Proof.
  intros Hin Hrows. set (rules := instances_for d projectID e) in *.
  assert (Hrow : ∀ x, x ∈ rows → profiles d !! x.1.1 = Some x.1.2).
  { intros x Hx. apply (list_elem_of_fmap_2 fst) in Hx. rewrite Hrows in Hx.
    apply list_elem_of_filter in Hx as [_ Hx]. destruct x as [[i p] sels].
    by apply elem_of_map_to_list in Hx. }
  assert (Hempty : ∀ a, a ∈ replicate (length rows) no_aggregate → pa_Rules a = []).
  { by intros a [-> _]%elem_of_replicate. }
  split.
  - intros a rule [Ha|(x & -> & Hx)%list_elem_of_fmap]%elem_of_app Hr.
    { rewrite Hempty in Hr by done. by apply not_elem_of_nil in Hr. }
    cbn in Hr |- *. apply elem_of_decoded in Hr as ([iid r] & [Hp Hi]%list_elem_of_filter & Hdec).
    cbn in Hp. destruct (instances_decode _ _ _ _ Hin Hi) as (rule' & Hdec' & _ & _ & pb & Hpb & Hro).
    assert (rule' = rule) as -> by congruence. cbn in Hpb. apply instances_for_spec in Hi as (Hl & _ & Hanc).
    destruct (is_instances d Hin iid r Hl) as (p & Hlp & Hproj). rewrite Hp in Hlp, Hpb.
    rewrite (Hrow x Hx) in Hlp. injection Hlp as <-. rewrite Hproj in Hanc. exists x.1.2, pb. split; [by apply Hrow|]. done.
  - intros id p pb Hp Hanc Hpb.
    destruct (in_step_named d id e pb Hin Hpb) as (iid & r & Hl & [Hpid Het] & Hn).
    destruct (is_instances d Hin iid r Hl) as (p' & Hlp & Hproj). rewrite Hpid in Hlp.
    assert (p' = p) as -> by congruence.
    assert (Hi : (iid, r) ∈ of_profile id rules).
    { apply list_elem_of_filter. split; [done|]. apply instances_for_spec. by rewrite Hproj. }
    assert (Hx : (id, p) ∈ rows.*1).
    { rewrite Hrows. apply list_elem_of_filter. rewrite elem_of_map_to_list. split; [|done].
      intros Hno. cbn in Hno. rewrite Hno in Hi. by apply not_elem_of_nil in Hi. }
    apply list_elem_of_fmap in Hx as (x & Hxp & Hx).
    assert (Hi' : (iid, r) ∈ rules) by (by apply list_elem_of_filter in Hi as [_ Hi]).
    destruct (instances_decode _ _ _ _ Hin Hi') as (rule & Hdec & _ & Hname & _).
    exists (aggregate_of rules x), rule. rewrite elem_of_app, list_elem_of_fmap. cbn. rewrite <-Hxp. cbn.
    split_and!; [right; by exists x|done|apply elem_of_decoded; by exists (iid, r)|by rewrite Hname].
  - split.
    + rewrite filter_app, fmap_app. rewrite list_filter_none by (intros a Ha; rewrite Hempty; tauto).
      cbn. apply (sublist_NoDup _ (pa_ID <$> (aggregate_of rules <$> rows)));
        [|apply fmap_sublist, sublist_filter].
      rewrite <-list_fmap_compose. change (pa_ID ∘ aggregate_of rules)
        with (λ x : UUID * dbProfile * list dbProfileSelector, x.1.1).
      replace ((λ x : UUID * dbProfile * list dbProfileSelector, x.1.1) <$> rows) with rows.*1.*1
        by (by rewrite <-list_fmap_compose).
      rewrite Hrows. apply NoDup_fst_filter, NoDup_fst_map_to_list.
    + intros a [Ha|(x & -> & Hx)%list_elem_of_fmap]%elem_of_app.
      { rewrite Hempty by done. apply NoDup_nil_2. }
      cbn. rewrite decoded_ids; [do 2 apply NoDup_fst_filter; apply NoDup_fst_map_to_list|].
      intros p [_ Hp]%list_elem_of_filter.
      destruct (instances_decode _ _ _ _ Hin Hp) as (rule & Hr & Hid & _). eauto.
Qed.

Lemma reads_store projectID e : reads (store_GetProfilesForEvaluation projectID e).
Proof.
  unfold store_GetProfilesForEvaluation. apply reads_bind; [apply reads_wrapf|intros projects].
  { apply (reads_select (λ d, Ok (ancestors d projectID))). }
  apply reads_bind; [apply reads_wrapf|intros rules].
  { apply (reads_select (λ d, Ok (filter (λ p, rin_EntityType p.2 = e ∧ rin_ProjectID p.2 ∈ projects)
                                    (map_to_list (rule_instances d))))). }
  apply reads_bind; [apply reads_lift|intros m].
  apply reads_bind; [apply reads_wrapf|intros ps; apply reads_lift].
  apply (reads_select (λ d, mapM (with_selectors d)
    (filter (λ p, p.1 ∈ (map_to_list m).*1) (map_to_list (profiles d))))).
Qed.
End store.

(** The store discharges what the executor asks of it. *)
Lemma db_profile_store_ok `{UuidLib} `{PgText} `{RuleMaps} `{RecordOutput} projectID e :
  preserves world_ok (GetProfilesForEvaluation projectID e).
Proof.
  intros w [Hwf Hh]. destruct (reads_store projectID e w Hh) as (_ & fs & r & Hrun & Hfs & _).
  cbn. rewrite Hrun. cbn. split; [done|]. by apply honest_faults_sub.
Qed.

(** C21: the executor evaluates the rules the users see.  While the rule
    instances are in step with the rules stored for the API, the store changes
    nothing, and what it gives the executor for an entity of a project are the
    rules of exactly the profiles of the project and its ancestors, with the
    names, rule types, definitions and parameters the API reads for that entity,
    every profile and every instance once; it fails only when a statement fails
    or when the selectors of a profile cannot be read. *)
Theorem api_rules_evaluated `{UuidLib} `{PgText} `{RuleMaps} `{RecordOutput} projectID e w w' r
    (Hh : honest_faults w) (Hin : in_step (w_db w))
    (Hrun : store_GetProfilesForEvaluation projectID e w = (w', r)) :
  w_db w' = w_db w ∧
  match r with
  | Ok aggs => evaluates (w_db w) projectID e aggs
  | _ => w_faults w ≠ [] ∨ ∃ id, is_ok (selectors_of (w_db w) id) = false
  end.
Proof.
  destruct (reads_store projectID e w Hh) as (_ & fs & r0 & Hw & _ & Hr).
  rewrite Hrun in Hw. injection Hw as -> <-. split; [done|].
  destruct (store_run projectID e (clean w) eq_refl Hin) as (r1 & Hc & Hspec).
  rewrite Hc in Hr. cbn in Hr, Hspec. destruct Hr as [->|[Hno Hf]].
  - destruct r1 as [aggs|x|x]; [|by right..]. destruct Hspec as (rows & -> & Hrows).
    by apply evaluates_rows.
  - destruct r; [done|by left..].
Qed.

(** ** A profile with one rule *)

Section witness.
#[local] Existing Instance decimal_uuid.
#[local] Existing Instance ex_lower.
#[local] Existing Instance plain_rules.
#[local] Existing Instance ex_record.

Definition plain_maps : RuleMaps.
Proof.
  refine {| struct_AsMap := λ _, Any "map";
            map_Unmarshal := λ s, inl (if String.eqb s "null" then None else Some (Any "map")) |}.
  intros [|] t; cbn; by intros [= <-].
Defined.
#[local] Existing Instance plain_maps.

Definition ex_stored_rule : Profile_Rule := plain_rule ("Rule_Type", "Rule type").

Definition ex_ruleset : string :=
  match plain_Marshal [ex_stored_rule] with inl s => s | inr _ => "" end.

Definition ex_instance : dbRuleInstance :=
  {| rin_Name := "Rule type"; rin_RuleTypeID := 30%N; rin_ProfileID := 40%N;
     rin_EntityType := "repository"; rin_Def := "null"; rin_Params := "null"; rin_ProjectID := 2%N |}.

Definition ex_stored_db : Db :=
  set_policies {| p_rules := {[21%N := ex_instance]}; p_profiles := {[40%N := ex_profile_row]};
                  p_entities := {[(40%N, "repository") := ex_ruleset]}; p_selectors := [] |} ex_db.

Lemma ex_rules_at id e rule :
  rule ∈ rules_at ex_stored_db id e ↔ id = 40%N ∧ e = "repository" ∧ rule = ex_stored_rule.
Proof.
  unfold rules_at. change (entity_profiles ex_stored_db)
    with ({[(40%N, "repository") := ex_ruleset]} : gmap (UUID * Entities) string).
  destruct (decide ((40%N, "repository") = (id, e))) as [[= <- <-]|Hne].
  - rewrite lookup_singleton_eq. change (rules_Unmarshal ex_ruleset) with (plain_Unmarshal ex_ruleset).
    rewrite (plain_roundtrip [ex_stored_rule]) by reflexivity. rewrite list_elem_of_singleton. naive_solver.
  - rewrite lookup_singleton_ne by done. split; [by intros ?%not_elem_of_nil|naive_solver].
Qed.

Lemma ex_stored_in_step : in_step ex_stored_db.
Proof.
  assert (Hi : ∀ iid r, rule_instances ex_stored_db !! iid = Some r → iid = 21%N ∧ r = ex_instance).
  { intros iid r Hl. change (({[21%N := ex_instance]} : gmap UUID dbRuleInstance) !! iid = Some r) in Hl.
    by apply lookup_singleton_Some in Hl as [<- <-]. }
  split.
  - intros iid r [-> ->]%Hi. exists ex_profile_row. split; vm_compute; reflexivity.
  - intros id e s Hl. change (({[(40%N, "repository") := ex_ruleset]} : gmap (UUID * Entities) string)
      !! (id, e) = Some s) in Hl. apply lookup_singleton_Some in Hl as [[= <- <-] _].
    exists ex_profile_row. reflexivity.
  - intros id e rule (before & after & Heq & _).
    assert (Hin : rule ∈ rules_at ex_stored_db id e) by (rewrite Heq; apply elem_of_app; right; by left).
    clear Heq. apply ex_rules_at in Hin as (-> & -> & ->). exists 21%N, ex_instance.
    split_and!; [done..|]. split; [done| |done..]. by exists ex_type_row.
  - intros iid r [-> ->]%Hi. exists ex_stored_rule. split; [by apply ex_rules_at|].
    split; [done| |done..]. by exists ex_type_row.
  - intros i1 i2 r1 r2 [-> _]%Hi [-> _]%Hi _. done.
Qed.

(** The executor is given an empty aggregate, and the one of the profile. *)
Lemma api_rules_evaluated_witness :
  ∃ aggs, store_GetProfilesForEvaluation 2%N "repository" (ex_world ex_stored_db []) =
    (ex_world ex_stored_db [], Ok aggs) ∧ pa_Name <$> aggs = [""; "profile"] ∧
    evaluates ex_stored_db 2%N "repository" aggs.
Proof.
  assert (Hh : honest_faults (ex_world ex_stored_db [])) by (intros e; cbn; by intros ?%not_elem_of_nil).
  eexists. split; [vm_compute; reflexivity|]. split; [reflexivity|].
  refine (proj2 (api_rules_evaluated 2%N "repository" (ex_world ex_stored_db [])
                   (ex_world ex_stored_db []) (Ok _) Hh ex_stored_in_step _)).
  vm_compute. reflexivity.
Defined.
End witness.
