(* ===== verification/Crypto.v ===== *)
(** * Encryption of secrets

    internal/crypto/engine.go and models.go, internal/crypto/algorithms/ and
    internal/crypto/keystores/keystore.go.  The block cipher, the authenticated
    mode, the key derivation and the random source are parameters; the CFB mode
    of crypto/cipher is modelled over the block cipher. *)

From S2P Require Import Prelude GoErrors GoMonad GoStrings GoBase64 Database.
From Stdlib Require Import Ascii.
Local Open Scope string_scope.

(** A [[]byte]. *)
Abbreviation bytes := (list ascii).

Definition bytes_of (s : string) : bytes := String.list_ascii_of_string s.
Definition string_of (b : bytes) : string := String.string_of_list_ascii b.

(** crypto/rand *)
Class RandomRead := {
  rand_Read : nat → nat → bytes + gerr;
  rand_length : ∀ i n b, rand_Read i n = inl b → length b = n;
}.

Definition random_bytes `{RandomRead} (n : nat) : prog World bytes := λ w,
  (set_fresh (S (w_fresh w)) w,
   match rand_Read (w_fresh w) n with inl b => Ok b | inr e => Err e end).

(** crypto/aes, the GCM of crypto/cipher and argon2. *)
Class Ciphers := {
  ciphers_random :: RandomRead;
  aes_Encrypt : bytes → bytes → bytes;
  (** a block is 16 bytes *)
  aes_Encrypt_length : ∀ k b, length (aes_Encrypt k b) = 16;
  gcm_Seal : bytes → bytes → bytes → bytes;
  gcm_Open : bytes → bytes → bytes → bytes + gerr;
  (** [Open] authenticates and decrypts what [Seal] gives *)
  gcm_Open_Seal : ∀ k nonce p, gcm_Open k nonce (gcm_Seal k nonce p) = inl p;
  argon2_IDKey : bytes → bytes → bytes;
  (** a key of the 32 bytes asked for *)
  argon2_length : ∀ pw salt, length (argon2_IDKey pw salt) = 32;
}.

Definition ErrDecrypt : gerr := ENew "crypto.ErrDecrypt" "unable to decrypt".
Definition ErrEncrypt : gerr := ENew "crypto.ErrEncrypt" "unable to encrypt".
Definition ErrUnknownAlgorithm : gerr :=
  ENew "algorithms.ErrUnknownAlgorithm" "unexpected encryption algorithm".
Definition ErrExceedsMaxSize : gerr :=
  ENew "algorithms.ErrExceedsMaxSize" "plaintext is too large, limited to 32MiB".
Definition ErrUnknownKeyID : gerr := ENew "keystores.ErrUnknownKeyID" "unknown key id".

(** ** The CFB mode *)

Definition xor_byte (a b : ascii) : ascii :=
  let '(Ascii a0 a1 a2 a3 a4 a5 a6 a7) := a in
  let '(Ascii b0 b1 b2 b3 b4 b5 b6 b7) := b in
  Ascii (xorb a0 b0) (xorb a1 b1) (xorb a2 b2) (xorb a3 b3)
        (xorb a4 b4) (xorb a5 b5) (xorb a6 b6) (xorb a7 b7).

Definition BlockSize : nat := 16.

(** [XORKeyStream]: each block of the source is combined with the encryption of
    the block of ciphertext before it, the first one with that of the IV.  The
    fuel is a bound of the length of the source. *)
Fixpoint XORKeyStream (E : bytes → bytes) (decrypt : bool) (fuel : nat) (next src : bytes)
    : bytes :=
  match fuel, src with
  | S fuel, _ :: _ =>
      let chunk := take BlockSize src in
      let dst := zip_with xor_byte chunk (E next) in
      (dst ++ XORKeyStream E decrypt fuel (if decrypt then chunk else dst)
                (drop BlockSize src))%list
  | _, _ => []
  end.

(** ** The algorithms *)

Definition maxPlaintextSize : Z := 32 * 1024 * 1024.

Definition len (b : bytes) : Z := Z.of_nat (length b).

(** [aes.NewCipher]: the block cipher of a key, whose size is checked. *)
Definition aes_NewCipher (key : bytes) : res bytes :=
  if bool_decide (length key ∈ [16; 24; 32]) then Ok key
  else Err (EText "crypto/aes: invalid key size").

Section crypto.
Context `{Ciphers}.

Definition of_sum {A} (r : A + gerr) : res A :=
  match r with inl a => Ok a | inr e => Err e end.

(** *** aes256cfb.go *)

Definition legacySalt : bytes := bytes_of "somesalt".

Definition deriveKey (key : bytes) : bytes := argon2_IDKey key legacySalt.

Definition CFB_Encrypt (plaintext key : bytes) : prog World bytes :=
  if (maxPlaintextSize <? len plaintext)%Z then throw ErrExceedsMaxSize
  else
    block ← wrapf "failed to create cipher: " (lift (aes_NewCipher (deriveKey key)));
    iv ← wrapf "failed to read random bytes: " (random_bytes BlockSize);
    mret (iv ++ XORKeyStream (aes_Encrypt block) false (length plaintext) iv plaintext)%list.

Definition CFB_Decrypt (ciphertext key : bytes) : res bytes :=
  block ← wrapf_res "failed to create cipher: " (aes_NewCipher (deriveKey key));
  if (len ciphertext <? Z.of_nat BlockSize)%Z
  then Err (EText "ciphertext too short to decrypt")
  else
    let iv := take BlockSize ciphertext in
    let ciphertext := drop BlockSize ciphertext in
    Ok (XORKeyStream (aes_Encrypt block) true (length ciphertext) iv ciphertext).

(** *** aes256gcm.go *)

Definition NonceSize : nat := 12.

Definition decodeKey (key : bytes) : res bytes :=
  match Base64.DecodeString (string_of key) with
  | Some k => Ok (bytes_of k)
  | None => Err (EWrap "unable to base64 decode the encryption key: "
                   (EText "illegal base64 data") "")
  end.

Definition GCM_Encrypt (plaintext key : bytes) : prog World bytes :=
  if (maxPlaintextSize <? len plaintext)%Z then throw ErrExceedsMaxSize
  else
    decodedKey ← lift (decodeKey key);
    block ← lift (aes_NewCipher decodedKey);
    nonce ← random_bytes NonceSize;
    mret (nonce ++ gcm_Seal block nonce plaintext)%list.

Definition GCM_Decrypt (ciphertext key : bytes) : res bytes :=
  decodedKey ← decodeKey key;
  block ← aes_NewCipher decodedKey;
  if (len ciphertext <? Z.of_nat NonceSize)%Z then Err (EText "malformed ciphertext")
  else of_sum (gcm_Open block (take NonceSize ciphertext) (drop NonceSize ciphertext)).

(** *** algorithm.go *)

Record EncryptionAlgorithm := {
  alg_Encrypt : bytes → bytes → prog World bytes;
  alg_Decrypt : bytes → bytes → res bytes;
}.

Definition Aes256Cfb : string := "aes-256-cfb".
Definition Aes256Gcm : string := "aes-256-gcm".

Definition TypeFromString (name : string) : res string :=
  if String.eqb name Aes256Cfb then Ok Aes256Cfb
  else if String.eqb name Aes256Gcm then Ok Aes256Gcm
  else Err (EWrap "" ErrUnknownAlgorithm (": " +:+ name)).

Definition NewFromType (algoType : string) : res EncryptionAlgorithm :=
  if String.eqb algoType Aes256Cfb
  then Ok {| alg_Encrypt := CFB_Encrypt; alg_Decrypt := CFB_Decrypt |}
  else if String.eqb algoType Aes256Gcm
  then Ok {| alg_Encrypt := GCM_Encrypt; alg_Decrypt := GCM_Decrypt |}
  else Err (EWrap "" ErrUnknownAlgorithm (": " +:+ algoType)).
End crypto.

(** ** keystore.go *)

Definition LocalKeyStore : string := "local".

(** [serverconfig.CryptoConfig] *)
Record CryptoConfig := {
  cc_KeyStoreType : string;
  cc_KeyDir : string;
  cc_DefaultKeyID : string;
  cc_FallbackKeyID : string;
}.

Record localFileKeyStore := { ks_keys : gmap string bytes; ks_fallbackKeyID : string }.

(** [os.ReadFile] of a file of a directory, and the directory and name of the
    absolute form of a path. *)
Class KeyFiles := {
  ReadFile : string → string → bytes + gerr;
  split_path : string → (string * string) + gerr;
}.

Definition readKey `{KeyFiles} (keyDir keyFilename : string) : res bytes :=
  match ReadFile keyDir keyFilename with
  | inl key => Ok key
  | inr e => Err (EWrap "failed to read key: " e "")
  end.

Fixpoint read_keys `{KeyFiles} (dir : string) (keyIDs : list string) (keys : gmap string bytes)
    : res (gmap string bytes) :=
  match keyIDs with
  | [] => Ok keys
  | keyID :: keyIDs =>
      key ← wrapf_res ("unable to read key " +:+ keyID +:+ ": ") (readKey dir keyID);
      read_keys dir keyIDs (<[keyID := key]> keys)
  end.

Definition NewKeyStoreFromConfig `{KeyFiles} (config : CryptoConfig) : res localFileKeyStore :=
  if negb (String.eqb (cc_KeyStoreType config) LocalKeyStore)
  then Err (EText ("unexpected keystore type: " +:+ cc_KeyStoreType config))
  else if String.eqb (cc_KeyDir config) ""
  then Err (EText "key directory not defined in keystore config")
  else
    let keyIDs :=
      cc_DefaultKeyID config ::
        (if String.eqb (cc_FallbackKeyID config) "" then [] else [cc_FallbackKeyID config]) in
    keys ← read_keys (cc_KeyDir config) keyIDs ∅;
    Ok {| ks_keys := keys; ks_fallbackKeyID := cc_FallbackKeyID config |}.

Definition GetKey (l : localFileKeyStore) (id : string) : res bytes :=
  id ← (if String.eqb id "" then
          if String.eqb (ks_fallbackKeyID l) ""
          then Err (EText "empty key ID with no config defined")
          else Ok (ks_fallbackKeyID l)
        else Ok id);
  match ks_keys l !! id with
  | Some key => Ok key
  | None => Err (EWrap "" ErrUnknownKeyID (": " +:+ id))
  end.

(** ** models.go *)

Record EncryptedData := { Algorithm : string; EncodedData : string; KeyVersion : string }.

Definition NewBackwardsCompatibleEncryptedData (encryptedData : string) : EncryptedData :=
  {| Algorithm := Aes256Cfb; EncodedData := encryptedData; KeyVersion := "" |}.

(** ** engine.go *)

Section engine.
Context `{Ciphers}.

Record engine := {
  keystore : localFileKeyStore;
  supportedAlgorithms : gmap string EncryptionAlgorithm;
  defaultKeyID : string;
  defaultAlgorithm : string;
}.

Definition DefaultAlgorithm : string := Aes256Gcm.
Definition FallbackAlgorithm : string := Aes256Cfb.

(** [serverconfig.Config], as far as it is read: the crypto part and the old
    [Auth.TokenKey]. *)
Record Config := { cfg_Crypto : CryptoConfig; cfg_TokenKey : string }.

Definition convertToCryptoConfig `{KeyFiles} (tokenKey : string) : res CryptoConfig :=
  match split_path tokenKey with
  | inr e => Err (EWrap "could not get absolute path: " e "")
  | inl (dir, name) =>
      Ok {| cc_KeyStoreType := LocalKeyStore; cc_KeyDir := dir; cc_DefaultKeyID := name;
            cc_FallbackKeyID := "" |}
  end.

Fixpoint new_algorithms (types : list string) (m : gmap string EncryptionAlgorithm)
    : res (gmap string EncryptionAlgorithm) :=
  match types with
  | [] => Ok m
  | t :: types => algorithm ← NewFromType t; new_algorithms types (<[t := algorithm]> m)
  end.

Definition NewEngineFromConfig `{KeyFiles} (config : Config) : res engine :=
  cryptoCfg ←
    (if negb (String.eqb (cc_DefaultKeyID (cfg_Crypto config)) "") then Ok (cfg_Crypto config)
     else if negb (String.eqb (cfg_TokenKey config) "")
     then wrapf_res "unable to load fallback config: " (convertToCryptoConfig (cfg_TokenKey config))
     else Err (EText "no encryption keys configured"));
  match NewKeyStoreFromConfig cryptoCfg with
  | Err e => Err (EText ("unable to create keystore: " +:+ Error e))
  | Panic m => Panic m
  | Ok keystore =>
      algorithms ← new_algorithms [DefaultAlgorithm; FallbackAlgorithm] ∅;
      Ok {| keystore := keystore; supportedAlgorithms := algorithms;
            defaultAlgorithm := DefaultAlgorithm; defaultKeyID := cc_DefaultKeyID cryptoCfg |}
  end.

Definition encrypt (e : engine) (plaintext : bytes) : prog World EncryptedData :=
  match supportedAlgorithms e !! defaultAlgorithm e with
  | None => throw (EText ("unable to find preferred algorithm: " +:+ defaultAlgorithm e))
  | Some algorithm =>
      match GetKey (keystore e) (defaultKeyID e) with
      | Panic m => lift (Panic m)
      | Err _ => throw (EText ("unable to find preferred key with ID: " +:+ defaultKeyID e))
      | Ok key =>
          encrypted ← try (alg_Encrypt algorithm plaintext key);
          match encrypted with
          | inr err => throw (errors_Join ErrEncrypt err)
          | inl encrypted =>
              mret {| Algorithm := defaultAlgorithm e;
                      EncodedData := Base64.EncodeToString (string_of encrypted);
                      KeyVersion := defaultKeyID e |}
          end
      end
  end.

Definition decrypt (e : engine) (data : EncryptedData) : res bytes :=
  if String.eqb (EncodedData data) "" then Err (EText "cannot decrypt empty data")
  else
    match supportedAlgorithms e !! Algorithm data with
    | None => Err (EWrap "" ErrUnknownAlgorithm (": " +:+ defaultAlgorithm e))
    | Some algorithm =>
        key ← GetKey (keystore e) (KeyVersion data);
        match Base64.DecodeString (EncodedData data) with
        | None => Err (EWrap "error decoding secret: " (EText "illegal base64 data") "")
        | Some encrypted =>
            match alg_Decrypt algorithm (bytes_of encrypted) key with
            | Err err => Err (errors_Join ErrDecrypt err)
            | r => r
            end
        end
    end.

Definition EncryptString (e : engine) (data : string) : prog World EncryptedData :=
  encrypt e (bytes_of data).

Definition DecryptString (e : engine) (encryptedString : EncryptedData) : res string :=
  string_of <$> decrypt e encryptedString.
End engine.

(** [json.Marshal] and [json.Unmarshal] of an [oauth2.Token]: the encoding of
    a token that was decoded is decoded to it again. *)
Class TokenJSON := {
  OAuthToken : Type;
  token_Marshal : OAuthToken → string + gerr;
  token_Unmarshal : string → OAuthToken + gerr;
  token_Marshal_decoded : ∀ s t, token_Unmarshal s = inl t → ∃ s', token_Marshal t = inl s' ∧
    token_Unmarshal s' = inl t;
}.

Section tokens.
Context `{Ciphers} `{TokenJSON}.

Definition EncryptOAuthToken (e : engine) (token : OAuthToken) : prog World EncryptedData :=
  match token_Marshal token with
  | inr err => throw (EWrap "unable to marshal token to json: " err "")
  | inl jsonData => encrypt e (bytes_of jsonData)
  end.

Definition DecryptOAuthToken (e : engine) (encryptedToken : EncryptedData) : res OAuthToken :=
  token ← decrypt e encryptedToken;
  of_sum (token_Unmarshal (string_of token)).
End tokens.

(** ** Lemmas *)

Lemma bytes_of_string_of b : bytes_of (string_of b) = b.
Proof. apply String.list_ascii_of_string_of_list_ascii. Qed.
Lemma string_of_bytes_of s : string_of (bytes_of s) = s.
Proof. apply String.string_of_list_ascii_of_string. Qed.

(** *** The CFB mode *)

Lemma xor_byte_cancel a b : xor_byte (xor_byte a b) b = a.
Proof.
  destruct a as [a0 a1 a2 a3 a4 a5 a6 a7], b as [b0 b1 b2 b3 b4 b5 b6 b7]. simpl.
  by rewrite !xorb_assoc, !xorb_nilpotent, !xorb_false_r.
Qed.

Lemma zip_xor_cancel a k :
  (length a ≤ length k)%nat → zip_with xor_byte (zip_with xor_byte a k) k = a.
Proof.
  revert k. induction a as [|x a IH]; intros [|y k] Hl; simpl in *; [done|done|lia|].
  rewrite xor_byte_cancel, IH by lia. done.
Qed.

Section cfb.
Context (E : bytes → bytes) (HE : ∀ b, length (E b) = BlockSize).

Lemma XORKeyStream_length decrypt fuel next src :
  (length src ≤ fuel)%nat → length (XORKeyStream E decrypt fuel next src) = length src.
Proof using HE.
  revert next src. induction fuel as [|fuel IH]; intros next [|c src] Hl; simpl in Hl;
    [done|lia|done|].
  cbn [XORKeyStream]. rewrite length_app, length_zip_with, length_take, HE.
  rewrite IH; rewrite length_drop; simpl length; unfold BlockSize in *; lia.
Qed.

(** The fuel is only a bound. *)
Lemma XORKeyStream_fuel decrypt fuel fuel' next src :
  (length src ≤ fuel)%nat → (length src ≤ fuel')%nat →
  XORKeyStream E decrypt fuel next src = XORKeyStream E decrypt fuel' next src.
Proof using Type.
  revert fuel' next src. induction fuel as [|fuel IH]; intros [|fuel'] next [|c src] Hl Hl';
    simpl in Hl, Hl'; [done|lia|done|lia|done|lia|done|].
  cbn [XORKeyStream]. f_equal. apply IH; rewrite length_drop; simpl; unfold BlockSize; lia.
Qed.

(** Decrypting with the IV gives back what was encrypted with it. *)
Lemma XORKeyStream_roundtrip fuel next src :
  (length src ≤ fuel)%nat →
  XORKeyStream E true fuel next (XORKeyStream E false fuel next src) = src.
Proof using HE.
  revert next src. induction fuel as [|fuel IH]; intros next [|c src] Hl; simpl in Hl;
    [done|lia|done|].
  cbn [XORKeyStream]. set (chunk := take BlockSize (c :: src)).
  set (dst := zip_with xor_byte chunk (E next)).
  set (rest := XORKeyStream E false fuel dst (drop BlockSize (c :: src))).
  assert (Hc : (length chunk ≤ BlockSize)%nat) by (unfold chunk; rewrite length_take; lia).
  assert (Hd : length dst = length chunk)
    by (unfold dst; rewrite length_zip_with, HE; lia).
  assert (Hr : length rest = length (drop BlockSize (c :: src))).
  { apply XORKeyStream_length. rewrite length_drop. simpl. unfold BlockSize. lia. }
  assert (Hcut : take BlockSize (dst ++ rest) = dst ∧ drop BlockSize (dst ++ rest) = rest).
  { destruct (decide (length chunk = BlockSize)) as [Heq|Hne].
    - rewrite take_app_length', drop_app_length' by congruence. done.
    - assert (rest = []) as ->.
      { apply length_zero_iff_nil. rewrite Hr, length_drop. unfold chunk in Hne, Hc.
        rewrite length_take in Hne. lia. }
      rewrite app_nil_r. split; [by rewrite take_ge by lia|by rewrite drop_ge by lia]. }
  destruct Hcut as [Ht Hdr].
  destruct (dst ++ rest)%list as [|x l] eqn:Happ.
  { apply app_eq_nil in Happ as [-> _]. unfold chunk in Hd. by rewrite length_take in Hd. }
  rewrite <-Happ in Ht, Hdr |- *. rewrite Ht, Hdr. unfold rest at 1.
  rewrite IH by (rewrite length_drop; simpl; unfold BlockSize; lia).
  unfold dst at 1. rewrite zip_xor_cancel by (rewrite HE; lia).
  unfold chunk. by rewrite take_drop.
Qed.
End cfb.

(** *** The algorithms *)

Section algorithms.
Context `{Ciphers}.

(** An algorithm that reads back what it wrote, and writes something. *)
Definition round_trips (a : EncryptionAlgorithm) : Prop :=
  ∀ p key w w' c, alg_Encrypt a p key w = (w', Ok c) →
    alg_Decrypt a c key = Ok p ∧ c ≠ [] ∧ w_db w' = w_db w.

Lemma random_bytes_Ok n w w' b :
  random_bytes n w = (w', Ok b) → w' = set_fresh (S (w_fresh w)) w ∧ length b = n.
Proof.
  unfold random_bytes. destruct (rand_Read _ _) as [r|e] eqn:Hr; intros [= <- ->] || done.
  split; [done|]. by eapply rand_length.
Qed.

Lemma CFB_roundtrip p key w w' c :
  CFB_Encrypt p key w = (w', Ok c) →
  CFB_Decrypt c key = Ok p ∧ c ≠ [] ∧ w_db w' = w_db w.
Proof.
  unfold CFB_Encrypt, CFB_Decrypt. destruct (maxPlaintextSize <? len p)%Z; [done|].
  unfold aes_NewCipher.
  rewrite bool_decide_eq_true_2 by (unfold deriveKey; rewrite argon2_length; set_solver).
  intros (w1 & block & [= <- <-] & Hc)%prog_bind_Ok.
  apply prog_bind_Ok in Hc as (w2 & iv & Hiv & [= <- <-]).
  apply wrapf_Ok, random_bytes_Ok in Hiv as [-> Hiv].
  set (E := aes_Encrypt (deriveKey key)).
  assert (HE : ∀ b, length (E b) = BlockSize) by (intros b; apply aes_Encrypt_length).
  unfold mbind, res_bind, wrapf_res.
  rewrite take_app_length', drop_app_length' by done.
  destruct (Z.ltb_spec (len (iv ++ XORKeyStream E false (length p) iv p)) (Z.of_nat BlockSize))
    as [Hlt|_]; [unfold len in Hlt; rewrite length_app in Hlt; lia|].
  rewrite XORKeyStream_length by done. split_and!; [|by destruct iv|done].
  by rewrite XORKeyStream_roundtrip.
Qed.

Lemma GCM_roundtrip p key w w' c :
  GCM_Encrypt p key w = (w', Ok c) →
  GCM_Decrypt c key = Ok p ∧ c ≠ [] ∧ w_db w' = w_db w.
Proof.
  unfold GCM_Encrypt, GCM_Decrypt. destruct (maxPlaintextSize <? len p)%Z; [done|].
  intros (w1 & k & Hk & Hc)%prog_bind_Ok. injection Hk as <- Hk. rewrite Hk.
  apply prog_bind_Ok in Hc as (w2 & block & Hb & Hc). injection Hb as <- Hb.
  apply prog_bind_Ok in Hc as (w3 & nonce & Hn & [= <- <-]).
  apply random_bytes_Ok in Hn as [-> Hn]. cbn [mbind res_bind]. rewrite Hb. cbn [mbind res_bind].
  rewrite take_app_length', drop_app_length' by done. rewrite gcm_Open_Seal.
  destruct (Z.ltb_spec (len (nonce ++ gcm_Seal block nonce p)) (Z.of_nat NonceSize))
    as [Hlt|_]; [unfold len in Hlt; rewrite length_app in Hlt; lia|].
  split_and!; [done|by destruct nonce|done].
Qed.

Lemma NewFromType_round_trips t a : NewFromType t = Ok a → round_trips a.
Proof.
  unfold NewFromType. repeat case_match; intros [= <-]; intros p key w w' c;
    [apply CFB_roundtrip|apply GCM_roundtrip].
Qed.

(** What [NewEngineFromConfig] builds: both algorithms, the newer one the
    default, and the key the configuration names. *)
Lemma engine_from_config `{KeyFiles} cfg e :
  NewEngineFromConfig cfg = Ok e →
  defaultAlgorithm e = Aes256Gcm ∧
  supportedAlgorithms e !! Aes256Gcm
    = Some {| alg_Encrypt := GCM_Encrypt; alg_Decrypt := GCM_Decrypt |} ∧
  supportedAlgorithms e !! Aes256Cfb
    = Some {| alg_Encrypt := CFB_Encrypt; alg_Decrypt := CFB_Decrypt |} ∧
  ∃ cryptoCfg, NewKeyStoreFromConfig cryptoCfg = Ok (keystore e) ∧
    defaultKeyID e = cc_DefaultKeyID cryptoCfg ∧
    ((cc_DefaultKeyID (cfg_Crypto cfg) ≠ "" ∧ cryptoCfg = cfg_Crypto cfg) ∨
     (cc_DefaultKeyID (cfg_Crypto cfg) = "" ∧ cfg_TokenKey cfg ≠ "" ∧
      convertToCryptoConfig (cfg_TokenKey cfg) = Ok cryptoCfg)).
Proof.
  unfold NewEngineFromConfig. intros He.
  match type of He with (?m ≫= _) = _ => destruct m as [c|e'|s] eqn:Hc; [|done..] end.
  cbn [mbind res_bind] in He. destruct (NewKeyStoreFromConfig c) as [ks|e'|s] eqn:Hks; [|done..].
  injection He as <-. simpl. split_and!; [done|done|done|]. exists c. split_and!; [done|done|].
  destruct (String.eqb_spec (cc_DefaultKeyID (cfg_Crypto cfg)) "") as [Hd|Hd]; simpl in Hc.
  - right. destruct (String.eqb_spec (cfg_TokenKey cfg) "") as [Ht|Ht]; simpl in Hc; [done|].
    split_and!; [done|done|]. unfold wrapf_res in Hc.
    destruct (convertToCryptoConfig (cfg_TokenKey cfg)); [done|done|done].
  - left. split; [done|]. congruence.
Qed.
End algorithms.

Lemma encrypt_Ok `{Ciphers} e p w w' d :
  encrypt e p w = (w', Ok d) →
  ∃ algorithm key c, supportedAlgorithms e !! defaultAlgorithm e = Some algorithm ∧
    GetKey (keystore e) (defaultKeyID e) = Ok key ∧
    alg_Encrypt algorithm p key w = (w', Ok c) ∧
    d = {| Algorithm := defaultAlgorithm e;
           EncodedData := Base64.EncodeToString (string_of c); KeyVersion := defaultKeyID e |}.
Proof.
  unfold encrypt. destruct (supportedAlgorithms e !! _) as [a|] eqn:Ha; [|done].
  destruct (GetKey _ _) as [key|err|m] eqn:Hk; [|done..].
  intros (w1 & r & Htry & Hrun)%prog_bind_Ok. unfold try in Htry.
  destruct (alg_Encrypt a p key w) as [w2 [c|err|m]] eqn:Hc;
    [injection Htry as <- <-|injection Htry as <- <-; done|done].
  injection Hrun as <- <-. by exists a, key, c.
Qed.

Lemma encoded_nonempty c : c ≠ [] → Base64.EncodeToString (string_of c) ≠ "".
Proof.
  intros Hc Heq. pose proof (Base64.DecodeString_EncodeToString (string_of c)) as Hd.
  rewrite Heq in Hd. simpl in Hd. injection Hd as Hd. apply (f_equal bytes_of) in Hd.
  rewrite bytes_of_string_of in Hd. by destruct Hc.
Qed.

(** What an engine made from a configuration decrypts. *)
Lemma decrypt_run `{Ciphers} e a key c t kv :
  supportedAlgorithms e !! t = Some a → GetKey (keystore e) kv = Ok key → c ≠ [] →
  decrypt e {| Algorithm := t; EncodedData := Base64.EncodeToString (string_of c);
               KeyVersion := kv |}
  = match alg_Decrypt a c key with Err err => Err (errors_Join ErrDecrypt err) | r => r end.
Proof.
  intros Ha Hk Hc. unfold decrypt. simpl.
  rewrite (proj2 (String.eqb_neq _ _)) by by apply encoded_nonempty.
  rewrite Ha, Hk. cbn [mbind res_bind].
  rewrite Base64.DecodeString_EncodeToString, bytes_of_string_of. done.
Qed.

(** C27: what was encrypted is decrypted.  A secret that an engine made from a
    configuration encrypts is at most 32 MiB long, is marked with the newer
    algorithm and the key of the configuration, and is given back by every
    engine made from a configuration that still has that key, whatever its own
    default key is; a longer one is refused. *)
Theorem secret_roundtrip `{Ciphers} `{KeyFiles} cfg cfg' e e' p w w' r
    (He : NewEngineFromConfig cfg = Ok e) (He' : NewEngineFromConfig cfg' = Ok e')
    (Hkey : GetKey (keystore e') (defaultKeyID e) = GetKey (keystore e) (defaultKeyID e))
    (Hrun : encrypt e p w = (w', r)) :
  (∀ d, r = Ok d →
     Algorithm d = DefaultAlgorithm ∧ KeyVersion d = defaultKeyID e ∧
     (len p ≤ maxPlaintextSize)%Z ∧ decrypt e' d = Ok p) ∧
  ((maxPlaintextSize < len p)%Z → is_ok (GetKey (keystore e) (defaultKeyID e)) = true →
     r = Err (errors_Join ErrEncrypt ErrExceedsMaxSize)).
Proof.
  destruct (engine_from_config _ _ He) as (Hd & Hg & _ & _).
  destruct (engine_from_config _ _ He') as (_ & Hg' & _ & _). split.
  - intros d ->. apply encrypt_Ok in Hrun as (a & key & c & Ha & Hk & Hc & ->). simpl.
    rewrite Hd in Ha |- *. rewrite Hg in Ha. injection Ha as <-. simpl in Hc.
    pose proof (GCM_roundtrip _ _ _ _ _ Hc) as (Hdec & Hne & _).
    split_and!; [done|done| |].
    + unfold GCM_Encrypt in Hc. destruct (Z.ltb_spec maxPlaintextSize (len p)); [done|lia].
    + rewrite (decrypt_run e' _ key c _ _ Hg') by (congruence || done). simpl. by rewrite Hdec.
  - intros Hlen Hk. unfold encrypt in Hrun. rewrite Hd, Hg in Hrun.
    destruct (GetKey (keystore e) (defaultKeyID e)) as [key|e0|m]; [|done..].
    simpl in Hrun. unfold GCM_Encrypt in Hrun. rewrite (proj2 (Z.ltb_lt _ _) Hlen) in Hrun. by injection Hrun as _ <-.
Qed.

(** *** Secrets from before the key versions *)

Lemma keystore_from_config `{KeyFiles} c ks :
  NewKeyStoreFromConfig c = Ok ks →
  ks_fallbackKeyID ks = cc_FallbackKeyID c ∧
  (cc_FallbackKeyID c ≠ "" → ∃ key, ReadFile (cc_KeyDir c) (cc_FallbackKeyID c) = inl key ∧
     ks_keys ks !! cc_FallbackKeyID c = Some key) ∧
  ∃ key, ReadFile (cc_KeyDir c) (cc_DefaultKeyID c) = inl key ∧
    ks_keys ks !! cc_DefaultKeyID c = Some key.
Proof.
  unfold NewKeyStoreFromConfig. case_match; [done|]. case_match; [done|].
  destruct (String.eqb_spec (cc_FallbackKeyID c) "") as [Hf|Hf];
    cbn [read_keys]; unfold readKey, mbind, res_bind, wrapf_res.
  - destruct (ReadFile _ (cc_DefaultKeyID c)) as [k|e] eqn:Hk; [|done]. intros [= <-]. simpl.
    split_and!; [done|done|]. exists k. by rewrite lookup_insert_eq.
  - destruct (ReadFile _ (cc_DefaultKeyID c)) as [k|e] eqn:Hk; [|done].
    destruct (ReadFile _ (cc_FallbackKeyID c)) as [k'|e] eqn:Hk'; [|done]. intros [= <-]. simpl.
    split_and!; [done| |].
    + intros _. exists k'. by rewrite lookup_insert_eq.
    + exists k. split; [done|]. destruct (decide (cc_FallbackKeyID c = cc_DefaultKeyID c)) as [Heq|].
      * rewrite Heq in *. rewrite lookup_insert_eq. congruence.
      * by rewrite lookup_insert_ne, lookup_insert_eq.
Qed.

(** A secret from before the key versions is read with the fallback key,
    and only with it.  An engine made from the crypto configuration decrypts
    what was encrypted with the old algorithm under its fallback key; an engine
    made from the old configuration, which only names the token key, refuses
    every such secret, since no fallback key is set for it, even one it had
    encrypted with that very key. *)
Theorem legacy_secrets `{Ciphers} `{KeyFiles} cfg e
    (He : NewEngineFromConfig cfg = Ok e) :
  (cc_DefaultKeyID (cfg_Crypto cfg) ≠ "" → cc_FallbackKeyID (cfg_Crypto cfg) ≠ "" →
   ∃ key, ReadFile (cc_KeyDir (cfg_Crypto cfg)) (cc_FallbackKeyID (cfg_Crypto cfg)) = inl key ∧
     ∀ p w w' c, CFB_Encrypt p key w = (w', Ok c) →
       decrypt e (NewBackwardsCompatibleEncryptedData (Base64.EncodeToString (string_of c)))
         = Ok p) ∧
  (cc_DefaultKeyID (cfg_Crypto cfg) = "" →
   ∀ s, is_ok (decrypt e (NewBackwardsCompatibleEncryptedData s)) = false).
Proof.
  destruct (engine_from_config _ _ He) as (_ & _ & Hcfb & c & Hks & _ & Hcfg).
  destruct (keystore_from_config _ _ Hks) as (Hfb & Hkey & _).
  split.
  - intros Hd Hf. destruct Hcfg as [[_ ->]|[? _]]; [|done].
    destruct (Hkey Hf) as (key & Hread & Hlook). exists key. split; [done|].
    intros p w w' ct Hct. destruct (CFB_roundtrip _ _ _ _ _ Hct) as (Hdec & Hne & _).
    unfold NewBackwardsCompatibleEncryptedData. rewrite (decrypt_run e _ key ct _ _ Hcfb).
    + simpl. by rewrite Hdec.
    + unfold GetKey. simpl. rewrite Hfb, (proj2 (String.eqb_neq _ _) Hf).
      cbn [mbind res_bind]. by rewrite Hlook.
    + done.
  - intros Hd s. destruct Hcfg as [[? _]|(_ & _ & Hconv)]; [done|].
    unfold convertToCryptoConfig in Hconv. destruct (split_path _) as [[dir name]|err]; [|done].
    injection Hconv as <-. simpl in Hfb. unfold decrypt. simpl.
    destruct (String.eqb s ""); [done|]. rewrite Hcfb. unfold GetKey. simpl. by rewrite Hfb.
Qed.

(** ** Small instances, for the witnesses *)

Definition ex_open (c : bytes) : bytes + gerr :=
  match c with
  | tag :: p => if bool_decide (tag = "t"%char) then inl p
                else inr (EText "cipher: message authentication failed")
  | [] => inr (EText "cipher: message authentication failed")
  end.

Lemma ex_rand_length (i n : nat) b :
  inl (replicate n "r"%char) =@{bytes + gerr} inl b → length b = n.
Proof. intros [= <-]. apply length_replicate. Qed.

Definition ex_random : RandomRead :=
  {| rand_Read _ n := inl (replicate n "r"%char); rand_length := ex_rand_length |}.

Definition ex_ciphers : Ciphers :=
  {| ciphers_random := ex_random; aes_Encrypt _ _ := replicate 16 "k"%char; aes_Encrypt_length _ _ := eq_refl;
     gcm_Seal _ _ p := "t"%char :: p; gcm_Open _ _ := ex_open; gcm_Open_Seal _ _ _ := eq_refl;
     argon2_IDKey _ _ := replicate 32 "d"%char; argon2_length _ _ := eq_refl |}.

(** Every file holds the encoding of 32 bytes. *)
Definition ex_files : KeyFiles :=
  {| ReadFile _ _ := inl (bytes_of (Base64.EncodeToString (string_of (replicate 32 "A"%char))));
     split_path _ := inl ("/keys", "token_key") |}.

Definition ex_crypto_config (key fallback : string) : CryptoConfig :=
  {| cc_KeyStoreType := "local"; cc_KeyDir := "/keys"; cc_DefaultKeyID := key;
     cc_FallbackKeyID := fallback |}.

(** Before and after the rotation of the default key. *)
Definition ex_config : Config := {| cfg_Crypto := ex_crypto_config "key1" ""; cfg_TokenKey := "" |}.
Definition ex_config' : Config :=
  {| cfg_Crypto := ex_crypto_config "key2" "key1"; cfg_TokenKey := "" |}.
Definition ex_old_config : Config :=
  {| cfg_Crypto := ex_crypto_config "" ""; cfg_TokenKey := "./token_key" |}.

Definition ex_engine_of (cfg : Config) : res (@engine) :=
  @NewEngineFromConfig ex_ciphers ex_files cfg.

Lemma ex_engines_ok :
  is_ok (ex_engine_of ex_config) = true ∧ is_ok (ex_engine_of ex_config') = true ∧
  is_ok (ex_engine_of ex_old_config) = true.
Proof. by vm_compute. Qed.

(** The engine after the rotation has the key of the one before it. *)
Lemma ex_engines_key :
  match ex_engine_of ex_config, ex_engine_of ex_config' with
  | Ok e, Ok e' =>
      GetKey (keystore e') (defaultKeyID e) = GetKey (keystore e) (defaultKeyID e) ∧
      defaultKeyID e = "key1" ∧
      is_ok (encrypt e (bytes_of "secret") (ex_world ex_db [])).2 = true
  | _, _ => False
  end.
Proof. by vm_compute. Qed.

Lemma secret_roundtrip_witness :
  ∃ e e' w' d, ex_engine_of ex_config = Ok e ∧ ex_engine_of ex_config' = Ok e' ∧
    encrypt e (bytes_of "secret") (ex_world ex_db []) = (w', Ok d) ∧
    KeyVersion d = "key1" ∧ @decrypt e' d = Ok (bytes_of "secret").
Proof.
  pose proof ex_engines_key as Hk.
  destruct (ex_engine_of ex_config) as [e|err|m] eqn:He; [|destruct Hk..].
  destruct (ex_engine_of ex_config') as [e'|err|m] eqn:He'; [|destruct Hk..].
  destruct Hk as (Hkey & Hid & Hok).
  destruct (encrypt e (bytes_of "secret") (ex_world ex_db [])) as [w' r] eqn:Hrun.
  destruct r as [d|err|m]; [|done..].
  destruct (proj1 (@secret_roundtrip ex_ciphers ex_files ex_config ex_config' e e'
    (bytes_of "secret") (ex_world ex_db []) w' (Ok d) He He' Hkey Hrun) d eq_refl)
    as (_ & Hkv & _ & Hdec).
  exists e, e', w', d. split_and!; [done..|congruence|exact Hdec].
Defined.

Lemma legacy_secrets_witness :
  ∃ e old, ex_engine_of ex_config' = Ok e ∧ ex_engine_of ex_old_config = Ok old ∧
    (∃ key, ∀ p w w' c, @CFB_Encrypt ex_ciphers p key w = (w', Ok c) →
       decrypt e (NewBackwardsCompatibleEncryptedData (Base64.EncodeToString (string_of c)))
         = Ok p) ∧
    is_ok (decrypt old (NewBackwardsCompatibleEncryptedData "c2VjcmV0")) = false.
Proof.
  destruct ex_engines_ok as (_ & H1 & H2).
  destruct (ex_engine_of ex_config') as [e|err|m] eqn:He; [|done..].
  destruct (ex_engine_of ex_old_config) as [old|err|m] eqn:Hold; [|done..].
  exists e, old. split_and!; [done|done| |].
  - destruct (proj1 (@legacy_secrets ex_ciphers ex_files ex_config' e He)) as (key & _ & Hk);
      [done|done|]. by exists key.
  - by apply (proj2 (@legacy_secrets ex_ciphers ex_files ex_old_config old Hold)).
Defined.
