(* ===== verification/TokenRotation.v ===== *)
(** * Rotation of the provider tokens

    cmd/server/app/encryption_rotate.go and the queries of
    internal/db/provider_access_tokens.sql.go it uses: every token that is not
    encrypted with the default algorithm and key is decrypted and encrypted
    again, in batches, in one transaction. *)

From S2P Require Import Prelude GoErrors GoMonad GoStrings GoBase64 Database Crypto.
From Stdlib Require Import Ascii.
Local Open Scope string_scope.

(** ** The queries *)

(** Printable ASCII, which JSON and [JSONB] keep as it is. *)
Definition printable (s : string) : bool :=
  forallb (λ c, (32 <=? N_of_ascii c)%N && (N_of_ascii c <=? 126)%N) (bytes_of s).

(** [json.Marshal] of an [EncryptedData], the cast to [JSONB] and back to text,
    [json.Unmarshal], and the operator [->>]. *)
Class EncryptedJSON := {
  data_Marshal : EncryptedData → string;
  jsonb : string → string;
  data_Unmarshal : string → EncryptedData + gerr;
  jsonb_text : string → string → option string;
  data_roundtrip : ∀ d,
    printable (Algorithm d) && printable (EncodedData d) && printable (KeyVersion d) = true →
    data_Unmarshal (jsonb (data_Marshal d)) = inl d ∧
    jsonb_text (jsonb (data_Marshal d)) "Algorithm" = Some (Algorithm d) ∧
    jsonb_text (jsonb (data_Marshal d)) "KeyVersion" = Some (KeyVersion d);
}.

Section queries.
Context `{EncryptedJSON}.

(** [a <> b], which is not true of a null. *)
Definition differs (a : option string) (b : string) : bool :=
  match a with Some a => negb (String.eqb a b) | None => false end.

Definition to_migrate (algorithm keyVersion : string) (row : ProviderAccessToken) : bool :=
  match pat_EncryptedAccessToken row with
  | None => true
  | Some js => differs (jsonb_text js "Algorithm") algorithm ||
               differs (jsonb_text js "KeyVersion") keyVersion
  end.

Record ListTokensToMigrateParams := {
  tm_DefaultAlgorithm : string; tm_DefaultKeyVersion : string;
  tm_BatchOffset : Z; tm_BatchSize : Z;
}.

(** The query names no order: the rows come in the order of the map, which the
    theorems do not use. *)
Definition ListTokensToMigrate (arg : ListTokensToMigrateParams)
    : prog World (list (Z * ProviderAccessToken)) :=
  select (λ w, Ok (
    take (Z.to_nat (tm_BatchSize arg)) (drop (Z.to_nat (tm_BatchOffset arg))
      (map_to_list (filter
        (λ p, Is_true (to_migrate (tm_DefaultAlgorithm arg) (tm_DefaultKeyVersion arg) p.2))
        (provider_access_tokens (w_db w))))))).

(** An id without a row updates nothing. *)
Definition UpdateEncryptedSecret (id : Z) (secret : string) : prog World unit :=
  query (λ w,
    let d := w_db w in
    let put row := {| pat_ProjectID := pat_ProjectID row; pat_Provider := pat_Provider row;
                      pat_EncryptedToken := pat_EncryptedToken row;
                      pat_EncryptedAccessToken := Some (jsonb secret) |} in
    (set_db (set_tokens (alter put id (provider_access_tokens d)) d) w, Ok tt)).
End queries.

(** ** encryption_rotate.go *)

Definition batchSize : Z := 100.

Definition errCancelRotation : gerr :=
  ENew "app.errCancelRotation" "cancelling rotation process".

Section rotation.
Context `{Ciphers} `{TokenJSON} `{EncryptedJSON}.
Context (e : @engine) (cfg : CryptoConfig).

Definition tokenError (tokenID : Z) (action : string) (err : gerr) : gerr :=
  EText ("unable to re-encrypt provider token " +:+ Strconv.FormatInt tokenID +:+ " during "
         +:+ action +:+ ": " +:+ Error err).

(** A call whose error becomes a token error. *)
Definition during {A} (tokenID : Z) (action : string) (m : prog World A) : prog World A := λ w,
  let '(w', r) := m w in
  (w', match r with Err err => Err (tokenError tokenID action err) | r => r end).

Definition oldSecret (token : ProviderAccessToken) : res EncryptedData :=
  match pat_EncryptedAccessToken token, pat_EncryptedToken token with
  | Some js, _ =>
      match data_Unmarshal js with
      | inl d => Ok d
      | inr err => Err (EWrap "unable to deserialize data: " err "")
      end
  | None, Some s => Ok (NewBackwardsCompatibleEncryptedData s)
  | None, None => Err (EText "no encrypted secret found")
  end.

Definition rotate_token (token : Z * ProviderAccessToken) : prog World unit :=
  let '(id, row) := token in
  old ← during id (match pat_EncryptedAccessToken row with
                   | Some _ => "secret deserialization"
                   | None => "secret retrieval"
                   end) (lift (oldSecret row));
  decrypted ← during id "decryption" (lift (DecryptOAuthToken e old));
  encrypted ← during id "encryption" (EncryptOAuthToken e decrypted);
  during id "secret update in database" (UpdateEncryptedSecret id (data_Marshal encrypted)).

Definition runRotationBatch (offset : Z) : prog World Z :=
  batch ← ListTokensToMigrate
            {| tm_DefaultAlgorithm := DefaultAlgorithm;
               tm_DefaultKeyVersion := cc_DefaultKeyID cfg;
               tm_BatchOffset := offset; tm_BatchSize := batchSize |};
  foreach rotate_token batch;;
  mret (Z.of_nat (length batch)).

(** The loop, with the number of batches it may run. *)
Fixpoint rotation_loop (fuel : nat) (rotated : Z) : prog World Z :=
  match fuel with
  | O => throw (EText "out of fuel")
  | S fuel =>
      updated ← runRotationBatch rotated;
      if (updated =? 0)%Z then mret rotated else rotation_loop fuel (rotated + updated)%Z
  end.

(** [yes] is the answer to the last question before the commit. *)
Definition rotateSecrets (fuel : nat) (yes : bool) : prog World Z :=
  WithTransaction (
    rotated ← rotation_loop fuel 0;
    if (rotated =? 0)%Z then throw errCancelRotation
    else if negb yes then throw errCancelRotation
    else mret rotated).
End rotation.

(** ** Lemmas *)

Section rotation_lemmas.
Context `{Ciphers} `{KeyFiles} `{TokenJSON} `{EncryptedJSON}.
Context (config : Config) (e : @engine).
Context (He : NewEngineFromConfig config = Ok e).
Let cfg := cfg_Crypto config.
(** The command checks that the default key is named; the name is text. *)
Context (Hid : cc_DefaultKeyID cfg ≠ "") (Htext : printable (cc_DefaultKeyID cfg) = true).

Abbreviation tokens w := (provider_access_tokens (w_db w)).
Abbreviation stale_token := (to_migrate DefaultAlgorithm (cc_DefaultKeyID cfg)).

(** The token a row keeps. *)
Definition keeps (row : ProviderAccessToken) (t : OAuthToken) : Prop :=
  ∃ old, oldSecret row = Ok old ∧ DecryptOAuthToken e old = Ok t.

(** A row that was encrypted again keeps its token, under the default key. *)
Definition rotated_row (row row' : ProviderAccessToken) : Prop :=
  (∃ t, keeps row t ∧ keeps row' t) ∧ stale_token row' = false ∧
  pat_EncryptedToken row' = pat_EncryptedToken row.

Definition carried_row (row row' : ProviderAccessToken) : Prop :=
  row' = row ∨ rotated_row row row'.

Lemma carried_row_trans r1 r2 r3 : carried_row r1 r2 → carried_row r2 r3 → carried_row r1 r3.
Proof.
  intros [->|H12] [->|H23]; unfold carried_row; [by left|by right|by right|].
  right. destruct H12 as ((t & Hk1 & old & Ho & Hd) & _ & Hc1).
  destruct H23 as ((t' & (old' & Ho' & Hd') & Hk3) & Hs & Hc2).
  split_and!; [|done|congruence]. exists t. split; [done|].
  assert (t' = t) as -> by congruence. done.
Qed.

(** Every row is the same as before, or it was encrypted again. *)
Definition carried (t t' : gmap Z ProviderAccessToken) : Prop :=
  dom t' = dom t ∧ ∀ id row row', t !! id = Some row → t' !! id = Some row' → carried_row row row'.

Lemma carried_refl t : carried t t.
Proof. split; [done|]. intros id row row' Hr Hr'. left. congruence. Qed.

Lemma carried_trans t1 t2 t3 : carried t1 t2 → carried t2 t3 → carried t1 t3.
Proof.
  intros [Hd12 H12] [Hd23 H23]. split; [congruence|]. intros id r1 r3 Hr1 Hr3.
  destruct (t2 !! id) as [r2|] eqn:Hr2; [eauto using carried_row_trans|].
  apply not_elem_of_dom in Hr2. rewrite Hd12 in Hr2. apply elem_of_dom_2 in Hr1. done.
Qed.

(** One update of a row that is there. *)
Lemma carried_alter t id row row' :
  t !! id = Some row → rotated_row row row' → carried t (alter (λ _, row') id t).
Proof.
  intros Hrow Hrot. split; [by rewrite dom_alter_L|]. intros id' r r' Hr Hr'.
  destruct (decide (id = id')) as [->|Hne].
  - rewrite lookup_alter_eq, Hr in Hr'. injection Hr' as <-. right. congruence.
  - rewrite lookup_alter_ne in Hr' by done. left. congruence.
Qed.

Lemma during_Ok {A} id action (m : prog World A) w w' a :
  during id action m w = (w', Ok a) ↔ m w = (w', Ok a).
Proof. unfold during. destruct (m w) as [w1 [x|err|s]]; naive_solver. Qed.

Lemma printable_encoded s : printable (Base64.EncodeToString s) = true.
Proof.
  unfold printable, bytes_of, Base64.EncodeToString.
  rewrite String.list_ascii_of_string_of_list_ascii, forallb_forall.
  intros x Hx%list_elem_of_In. revert x Hx. rewrite <-Forall_forall.
  apply Base64.encode_Forall; [done|]. intros n Hn.
  exact (Base64.all64_spec (λ n, let c := Base64.enc n in
    (32 <=? N_of_ascii c)%N && (N_of_ascii c <=? 126)%N) n eq_refl Hn).
Qed.

(** What the engine encrypts is a row that is up to date. *)
Lemma encrypted_row p w w' d row :
  encrypt e p w = (w', Ok d) →
  let row' := {| pat_ProjectID := pat_ProjectID row; pat_Provider := pat_Provider row;
                 pat_EncryptedToken := pat_EncryptedToken row;
                 pat_EncryptedAccessToken := Some (jsonb (data_Marshal d)) |} in
  oldSecret row' = Ok d ∧ stale_token row' = false ∧ decrypt e d = Ok p.
Proof using He Hid Htext cfg.
  intros Henc. cbv zeta. destruct (engine_from_config _ _ He) as (Hd & Hg & _ & c & _ & Hkey & Hcfg).
  destruct Hcfg as [[_ ->]|[? _]]; [|done]. fold cfg in Hkey.
  apply encrypt_Ok in Henc as (a & key & ct & Ha & Hk & Hct & ->).
  rewrite Hd in Ha |- *. rewrite Hg in Ha. injection Ha as <-. simpl in Hct.
  destruct (GCM_roundtrip _ _ _ _ _ Hct) as (Hdec & Hne & _).
  destruct (data_roundtrip {| Algorithm := Aes256Gcm;
    EncodedData := Base64.EncodeToString (string_of ct); KeyVersion := defaultKeyID e |})
    as (Hun & Halg & Hkv).
  { simpl. by rewrite printable_encoded, Hkey, Htext. }
  split_and!.
  - unfold oldSecret. simpl. by rewrite Hun.
  - unfold to_migrate. simpl. rewrite Halg, Hkv, Hkey. simpl. by rewrite String.eqb_refl.
  - rewrite (decrypt_run e _ key ct _ _ Hg Hk Hne). simpl. by rewrite Hdec.
Qed.
(** The tokens that are not up to date. *)
Definition stale_tokens (t : gmap Z ProviderAccessToken) : gmap Z ProviderAccessToken :=
  filter (λ p, Is_true (stale_token p.2)) t.

Lemma stale_tokens_lookup t id row :
  stale_tokens t !! id = Some row ↔ t !! id = Some row ∧ stale_token row = true.
Proof. unfold stale_tokens. rewrite map_lookup_filter_Some. simpl. by rewrite Is_true_true. Qed.

Lemma stale_tokens_insert t id row' :
  stale_token row' = false → stale_tokens (<[id := row']> t) = delete id (stale_tokens t).
Proof.
  intros Hs. unfold stale_tokens. rewrite map_filter_insert_False, map_filter_delete; [done|].
  simpl. rewrite Hs. by intros [].
Qed.

(** [n] rows were encrypted again, and nothing else has changed. *)
Definition rotated_by (d d' : Db) (n : nat) : Prop :=
  d' = set_tokens (provider_access_tokens d') d ∧
  carried (provider_access_tokens d) (provider_access_tokens d') ∧
  size (stale_tokens (provider_access_tokens d))
    = (size (stale_tokens (provider_access_tokens d')) + n)%nat.

Lemma rotated_by_refl d : rotated_by d d 0.
Proof. split_and!; [by destruct d|apply carried_refl|lia]. Qed.

Lemma rotated_by_trans d1 d2 d3 n m :
  rotated_by d1 d2 n → rotated_by d2 d3 m → rotated_by d1 d3 (n + m).
Proof.
  intros (Hd12 & Hc12 & Hs12) (Hd23 & Hc23 & Hs23). split_and!.
  - rewrite Hd23 at 1. by rewrite Hd12.
  - by eapply carried_trans.
  - lia.
Qed.

Lemma rotated_by_insert d id row row' :
  provider_access_tokens d !! id = Some row → stale_token row = true → rotated_row row row' →
  rotated_by d (set_tokens (<[id := row']> (provider_access_tokens d)) d) 1.
Proof.
  intros Hrow Hst Hrot. split_and!; [done| |].
  - simpl. split.
    + rewrite dom_insert_L. apply elem_of_dom_2 in Hrow. set_solver.
    + intros id' r r' Hr Hr'. destruct (decide (id = id')) as [->|Hne].
      * rewrite lookup_insert_eq in Hr'. injection Hr' as <-. right. congruence.
      * rewrite lookup_insert_ne in Hr' by done. left. congruence.
  - simpl. destruct Hrot as (_ & Hst' & _). rewrite stale_tokens_insert by done.
    assert (Hl : stale_tokens (provider_access_tokens d) !! id = Some row)
      by by apply stale_tokens_lookup.
    rewrite map_size_delete_Some by by eexists.
    assert (size (stale_tokens (provider_access_tokens d)) ≠ 0%nat); [|lia].
    apply map_size_non_empty_iff. intros Hz. by rewrite Hz in Hl.
Qed.

Lemma alter_of_row (t : gmap Z ProviderAccessToken) id row f :
  t !! id = Some row → alter f id t = <[id := f row]> t.
Proof.
  intros Hrow. apply map_eq. intros i. destruct (decide (id = i)) as [->|Hne].
  - by rewrite lookup_alter_eq, lookup_insert_eq, Hrow.
  - by rewrite lookup_alter_ne, lookup_insert_ne.
Qed.

Lemma rotate_token_Ok id row w w' :
  provider_access_tokens (w_db w) !! id = Some row → stale_token row = true →
  rotate_token e (id, row) w = (w', Ok tt) →
  rotated_by (w_db w) (w_db w') 1 ∧
  (∀ id', id' ≠ id → provider_access_tokens (w_db w') !! id' = provider_access_tokens (w_db w) !! id').
Proof using He Hid Htext cfg.
  intros Hrow Hst (w1 & old & Hold & Hrun)%prog_bind_Ok. apply during_Ok in Hold.
  injection Hold as <- Hold.
  apply prog_bind_Ok in Hrun as (w2 & t & Ht & Hrun). apply during_Ok in Ht. injection Ht as <- Ht.
  apply prog_bind_Ok in Hrun as (w3 & d & Hd & Hrun). apply during_Ok in Hd, Hrun.
  unfold EncryptOAuthToken in Hd. destruct (token_Marshal t) as [s|err] eqn:Hm; [|done].
  destruct (encrypted_row _ _ _ _ row Hd) as (Hold' & Hst' & Hdec).
  apply encrypt_Ok in Hd as (a & key & c & Ha & _ & Hc & _).
  assert (Hdb : w_db w3 = w_db w).
  { destruct (engine_from_config _ _ He) as (Hda & Hg & _). rewrite Hda, Hg in Ha.
    injection Ha as <-. by apply GCM_roundtrip in Hc as (_ & _ & ?). }
  assert (Htok : token_Unmarshal s = inl t).
  { unfold DecryptOAuthToken in Ht. destruct (decrypt e old) as [b|err|m]; [|done..].
    cbn [mbind res_bind of_sum] in Ht. destruct (token_Unmarshal (string_of b)) as [t'|] eqn:Hu;
      [|done]. injection Ht as ->. apply token_Marshal_decoded in Hu as (s' & Hs' & Hu'). congruence. }
  unfold UpdateEncryptedSecret in Hrun.
  match type of Hrun with query ?g w3 = _ =>
    destruct (query_cases g w3) as [(err & fs & Hq)|(fs & Hq)]; rewrite Hq in Hrun; [done|] end.
  injection Hrun as <-. simpl. rewrite Hdb. split.
  2: { intros id' Hne. by rewrite lookup_alter_ne. }
  rewrite (alter_of_row _ _ _ _ Hrow).
  apply rotated_by_insert with row; [done|done|].
  split_and!; [|done|done]. exists t. split; [by exists old|]. exists d. split; [done|].
  unfold DecryptOAuthToken. rewrite Hdec. cbn [mbind res_bind].
  by rewrite string_of_bytes_of, Htok.
Qed.
(** *** A batch *)

Lemma rotate_batch_Ok batch w w' :
  NoDup batch.*1 →
  (∀ id row, (id, row) ∈ batch →
     provider_access_tokens (w_db w) !! id = Some row ∧ stale_token row = true) →
  foreach (rotate_token e) batch w = (w', Ok tt) →
  rotated_by (w_db w) (w_db w') (length batch).
Proof using He Hid Htext cfg.
  revert w. induction batch as [|[id row] batch IH]; intros w Hnd Hrows; cbn [foreach].
  { intros [= <-]. apply rotated_by_refl. }
  intros (w1 & [] & Ht & Hrun)%prog_bind_Ok. apply NoDup_cons in Hnd as [Hni Hnd].
  destruct (Hrows id row) as [Hrow Hst]; [by left|].
  destruct (rotate_token_Ok _ _ _ _ Hrow Hst Ht) as [Hone Hother].
  apply (rotated_by_trans _ _ _ 1 _ Hone). apply IH; [done| |done].
  intros id' row' Hin. destruct (Hrows id' row') as [Hrow' Hst']; [by right|].
  rewrite Hother; [done|]. intros ->. apply Hni. apply list_elem_of_fmap. by exists (id, row').
Qed.

Lemma NoDup_window {A} n m (l : list A) : NoDup l → NoDup (take n (drop m l)).
Proof.
  intros Hl. rewrite <-(take_drop m l) in Hl. apply NoDup_app in Hl as (_ & _ & Hl).
  rewrite <-(take_drop n (drop m l)) in Hl. by apply NoDup_app in Hl as (Hl & _).
Qed.

Lemma elem_of_window {A} n m (l : list A) x : x ∈ take n (drop m l) → x ∈ l.
Proof. intros Hx. apply (subseteq_drop m). by apply (subseteq_take n). Qed.

(** The batch at an offset. *)
Definition batch_at (offset : Z) (t : gmap Z ProviderAccessToken)
    : list (Z * ProviderAccessToken) :=
  take (Z.to_nat batchSize) (drop (Z.to_nat offset) (map_to_list (stale_tokens t))).

Lemma batch_at_rows offset t :
  NoDup (batch_at offset t).*1 ∧
  (∀ id row, (id, row) ∈ batch_at offset t → t !! id = Some row ∧ stale_token row = true) ∧
  length (batch_at offset t)
    = Nat.min (Z.to_nat batchSize) (size (stale_tokens t) - Z.to_nat offset).
Proof.
  unfold batch_at. split_and!.
  - rewrite fmap_take, fmap_drop. apply NoDup_window, NoDup_fst_map_to_list.
  - intros id row Hin%elem_of_window. apply elem_of_map_to_list in Hin.
    by apply stale_tokens_lookup in Hin.
  - by rewrite length_take, length_drop, length_map_to_list.
Qed.

Lemma ListTokensToMigrate_Ok offset w w' batch :
  ListTokensToMigrate {| tm_DefaultAlgorithm := DefaultAlgorithm;
    tm_DefaultKeyVersion := cc_DefaultKeyID cfg; tm_BatchOffset := offset;
    tm_BatchSize := batchSize |} w = (w', Ok batch) →
  w_db w' = w_db w ∧ batch = batch_at offset (provider_access_tokens (w_db w)).
Proof.
  unfold ListTokensToMigrate, select.
  match goal with |- query ?g w = _ → _ =>
    destruct (query_cases g w) as [(err & fs & Hq)|(fs & Hq)]; rewrite Hq; [done|] end.
  by intros [= <- <-].
Qed.

Lemma runRotationBatch_Ok offset w w' n :
  (0 ≤ offset)%Z →
  runRotationBatch e cfg offset w = (w', Ok n) →
  rotated_by (w_db w) (w_db w') (Z.to_nat n) ∧
  n = Z.min batchSize
        (Z.max 0 (Z.of_nat (size (stale_tokens (provider_access_tokens (w_db w)))) - offset)).
Proof using He Hid Htext cfg.
  intros Ho (w1 & batch & Hl & Hrun)%prog_bind_Ok.
  apply ListTokensToMigrate_Ok in Hl as [Hdb ->].
  apply prog_bind_Ok in Hrun as (w2 & [] & Hrun & [= <- <-]).
  destruct (batch_at_rows offset (provider_access_tokens (w_db w))) as (Hnd & Hrows & Hlen).
  pose proof (rotate_batch_Ok _ w1 w2 Hnd) as Hbatch. rewrite Hdb in Hbatch. split.
  - rewrite Nat2Z.id. by apply Hbatch.
  - rewrite Hlen. unfold batchSize. lia.
Qed.

(** What the loop rotates, from [m] tokens that are not up to date. *)
Lemma rotation_loop_Ok fuel r w w' r' :
  (0 ≤ r)%Z → rotation_loop e cfg fuel r w = (w', Ok r') →
  let m := Z.of_nat (size (stale_tokens (provider_access_tokens (w_db w)))) in
  ∃ k, (r' = r + Z.of_nat k)%Z ∧ rotated_by (w_db w) (w_db w') k ∧
    (2 * r' ≤ Z.max (2 * r) (r + m + batchSize))%Z ∧
    ((m ≤ r)%Z → r' = r) ∧ ((r < m)%Z → (r < r')%Z) ∧ ((r = 0 ∧ m ≤ batchSize)%Z → r' = m).
Proof using He Hid Htext cfg.
  cbv zeta. revert r w. induction fuel as [|fuel IH]; intros r w Hr; cbn [rotation_loop]; [done|].
  intros (w1 & n & Hb & Hrun)%prog_bind_Ok.
  apply runRotationBatch_Ok in Hb as [Hby Hn]; [|done].
  destruct (Z.eqb_spec n 0) as [Hz|Hz].
  - injection Hrun as <- <-. exists 0%nat. rewrite Hz in Hby. simpl in Hby.
    unfold batchSize in *. split_and!; [lia|done|lia|done|lia|lia].
  - apply IH in Hrun as (k & Hk & Hby' & Hbound & Hdone & _ & _); [|unfold batchSize in *; lia].
    exists (Z.to_nat n + k)%nat. pose proof (rotated_by_trans _ _ _ _ _ Hby Hby') as Hall.
    destruct Hby as (_ & _ & Hsize). unfold batchSize in *.
    split_and!; [lia|done|lia|lia|lia|lia].
Qed.
(** *** With a working connection *)

(** A row whose token can be read and is not too long to be written. *)
Definition rotatable (row : ProviderAccessToken) : Prop :=
  ∃ t s, keeps row t ∧ token_Marshal t = inl s ∧ (len (bytes_of s) ≤ maxPlaintextSize)%Z.

Definition can_encrypt : Prop :=
  ∀ p w, (len p ≤ maxPlaintextSize)%Z → w_faults w = [] →
    ∃ w' d, encrypt e p w = (w', Ok d) ∧ w_faults w' = [].

Lemma rotate_token_runs id row w :
  can_encrypt → rotatable row → w_faults w = [] →
  ∃ w', rotate_token e (id, row) w = (w', Ok tt) ∧ w_faults w' = [].
Proof.
  intros Hcan (t & s & (old & Ho & Hd) & Hm & Hlen) Hw.
  destruct (Hcan _ w Hlen Hw) as (w1 & d & Henc & Hw1).
  eexists. unfold rotate_token. rewrite (prog_bind_run _ _ w w old)
    by by (unfold during, lift; rewrite Ho).
  rewrite (prog_bind_run _ _ w w t) by by (unfold during, lift; rewrite Hd).
  rewrite (prog_bind_run _ _ w w1 d) by by (unfold during, EncryptOAuthToken; rewrite Hm, Henc).
  unfold during, UpdateEncryptedSecret. rewrite query_ok by done. by split.
Qed.

Lemma rotate_batch_runs batch w :
  can_encrypt → (∀ id row, (id, row) ∈ batch → rotatable row) → w_faults w = [] →
  ∃ w', foreach (rotate_token e) batch w = (w', Ok tt) ∧ w_faults w' = [].
Proof.
  intros Hcan. revert w. induction batch as [|[id row] batch IH]; intros w Hrot Hw;
    cbn [foreach]; [by exists w|].
  destruct (rotate_token_runs id row w Hcan) as (w1 & Hrun & Hw1); [apply (Hrot id); by left|done|].
  rewrite (prog_bind_run _ _ _ _ _ Hrun). apply IH; [|done].
  intros id' row' Hin. apply (Hrot id'). by right.
Qed.

Lemma carried_stale t t' id row :
  carried t t' → t' !! id = Some row → stale_token row = true → t !! id = Some row.
Proof.
  intros [Hdom Hc] Hrow Hst. destruct (t !! id) as [r|] eqn:Hr.
  - destruct (Hc _ _ _ Hr Hrow) as [->|(_ & Hf & _)]; [done|congruence].
  - apply not_elem_of_dom in Hr. rewrite <-Hdom in Hr. apply elem_of_dom_2 in Hrow. done.
Qed.

Lemma rotation_loop_runs fuel r w :
  can_encrypt → w_faults w = [] → (0 ≤ r)%Z →
  (∀ id row, provider_access_tokens (w_db w) !! id = Some row → stale_token row = true →
     rotatable row) →
  (size (stale_tokens (provider_access_tokens (w_db w))) < fuel)%nat →
  ∃ w' r', rotation_loop e cfg fuel r w = (w', Ok r') ∧ w_faults w' = [].
Proof using He Hid Htext cfg.
  intros Hcan. revert r w. induction fuel as [|fuel IH]; intros r w Hw Hr Hrot Hfuel; [lia|].
  cbn [rotation_loop].
  destruct (batch_at_rows r (provider_access_tokens (w_db w))) as (_ & Hrows & _).
  destruct (rotate_batch_runs (batch_at r (provider_access_tokens (w_db w))) w Hcan)
    as (w1 & Hb & Hw1); [|done|].
  { intros id row [Hrow Hst]%Hrows. by eapply Hrot. }
  assert (Hrun : runRotationBatch e cfg r w
    = (w1, Ok (Z.of_nat (length (batch_at r (provider_access_tokens (w_db w))))))).
  { unfold runRotationBatch. rewrite (prog_bind_run _ _ w w (batch_at r (provider_access_tokens (w_db w))))
      by by (unfold ListTokensToMigrate; rewrite select_ok).
    by rewrite (prog_bind_run _ _ _ _ _ Hb). }
  rewrite (prog_bind_run _ _ _ _ _ Hrun).
  destruct (Z.eqb_spec (Z.of_nat (length (batch_at r (provider_access_tokens (w_db w))))) 0)
    as [Hz|Hz]; [by eexists w1, _|].
  apply runRotationBatch_Ok in Hrun as [(Hdb & Hc & Hsize) _]; [|done].
  apply IH; [done|lia| |lia].
  intros id row Hrow Hst. eapply Hrot; [|done]. by eapply carried_stale.
Qed.

(** With a working connection and tokens that can be read, the rotation commits
    what its loop did, unless there was nothing to do. *)
Lemma rotateSecrets_runs fuel w :
  can_encrypt → w_faults w = [] →
  (∀ id row, provider_access_tokens (w_db w) !! id = Some row → stale_token row = true →
     rotatable row) →
  stale_tokens (provider_access_tokens (w_db w)) ≠ ∅ →
  (size (stale_tokens (provider_access_tokens (w_db w))) < fuel)%nat →
  ∃ w' n, rotateSecrets e cfg fuel true w = (w', Ok n) ∧
    rotation_loop e cfg fuel 0 w = (w', Ok n).
Proof using He Hid Htext cfg.
  intros Hcan Hw Hrot Hsome Hfuel.
  destruct (rotation_loop_runs fuel 0 w Hcan Hw) as (w' & n & Hloop & Hw'); [done..|].
  pose proof Hloop as Hby.
  apply rotation_loop_Ok in Hby as (k & Hn & Hby & Hbound & _ & Hpos & Hall); [|done].
  assert (Hm : size (stale_tokens (provider_access_tokens (w_db w))) ≠ 0%nat)
    by by apply map_size_non_empty_iff.
  exists w', n. split; [|done]. unfold rotateSecrets. apply WithTransaction_runs; [done| |done].
  rewrite (prog_bind_run _ _ _ _ _ Hloop). unfold batchSize in *.
  destruct (Z.eqb_spec n 0); [lia|done].
Qed.

(** C28: rotating the keys loses no token.  However the rotation ends, every
    table but that of the tokens is as before; if it reports a number, exactly
    that many tokens that were not encrypted with the default algorithm and key
    now are, each gives back the same token as before, every other row is
    unchanged, and the operator agreed; if it fails or is cancelled no row has
    changed. *)
Theorem rotation_keeps_tokens fuel yes w w' r
    (Hrun : rotateSecrets e cfg fuel yes w = (w', r)) :
  match r with
  | Ok n => (0 < n)%Z ∧ yes = true ∧ rotated_by (w_db w) (w_db w') (Z.to_nat n)
  | _ => w_db w' = w_db w
  end.
Proof using He Hid Htext cfg.
  unfold rotateSecrets in Hrun.
  apply WithTransaction_cases in Hrun as [(n & fs & w2 & -> & _ & Hfn & Hdb & _)|[Hr Hdb]];
    [|by destruct r].
  apply prog_bind_Ok in Hfn as (w3 & n' & Hloop & Hfn).
  destruct (Z.eqb_spec n' 0) as [|Hn]; [done|]. destruct yes; [|done].
  injection Hfn as <- <-. apply rotation_loop_Ok in Hloop as (k & -> & Hby & _); [|done].
  simpl (w_db (set_faults _ _)) in Hby. rewrite Hdb. split_and!; [lia|done|].
  by replace (Z.to_nat (0 + Z.of_nat k)) with k by lia.
Qed.

(** A rotation of more than one batch reports success with tokens left.
    Each batch is read at the offset of what was already rotated, of a list the
    rotation itself has made shorter by as much: with a working connection and
    tokens that can all be read, up to a hundred tokens are all rotated, but of
    [m] tokens more than a hundred the successful rotation leaves at least
    [(m - 100) / 2] under the old key. *)
Theorem rotation_skips_tokens fuel w
    (Hcan : can_encrypt) (Hw : w_faults w = [])
    (Hrot : ∀ id row, provider_access_tokens (w_db w) !! id = Some row →
       stale_token row = true → rotatable row)
    (Hsome : stale_tokens (provider_access_tokens (w_db w)) ≠ ∅)
    (Hfuel : (size (stale_tokens (provider_access_tokens (w_db w))) < fuel)%nat) :
  let m := Z.of_nat (size (stale_tokens (provider_access_tokens (w_db w)))) in
  ∃ w' n, rotateSecrets e cfg fuel true w = (w', Ok n) ∧
    let left := Z.of_nat (size (stale_tokens (provider_access_tokens (w_db w')))) in
    (left = m - n)%Z ∧ ((m ≤ batchSize)%Z → left = 0%Z) ∧
    ((batchSize < m)%Z → (m - batchSize ≤ 2 * left)%Z).
Proof using He Hid Htext cfg.
  cbv zeta. destruct (rotateSecrets_runs fuel w Hcan Hw) as (w' & n & Hrun & Hloop);
    [done..|].
  apply rotation_loop_Ok in Hloop as (k & Hn & Hby & Hbound & _ & Hpos & Hall); [|done].
  destruct Hby as (_ & _ & Hsize). unfold batchSize in *.
  exists w', n. split; [done|lia].
Qed.
End rotation_lemmas.

(** An engine whose random source works and whose default key is a key of the
    cipher can encrypt. *)
Lemma can_encrypt_config `{Ciphers} `{KeyFiles} config (e : @engine) key k :
  NewEngineFromConfig config = Ok e → (∀ i n, ∃ b, rand_Read i n = inl b) →
  GetKey (keystore e) (defaultKeyID e) = Ok key → decodeKey key = Ok k →
  length k ∈ [16; 24; 32] → can_encrypt e.
Proof.
  intros He Hrand Hkey Hdec Hlen p w Hp Hw.
  destruct (engine_from_config _ _ He) as (Hd & Hg & _). unfold encrypt.
  rewrite Hd, Hg, Hkey.
  assert (Henc : ∃ c, GCM_Encrypt p key w = (set_fresh (S (w_fresh w)) w, Ok c)).
  { assert (Haes : aes_NewCipher k = Ok k)
      by by unfold aes_NewCipher; rewrite bool_decide_eq_true_2 by done.
    unfold GCM_Encrypt. rewrite (proj2 (Z.ltb_ge _ _) Hp), Hdec.
    rewrite (prog_bind_run (lift (Ok k)) _ w w k) by done.
    rewrite (prog_bind_run (lift (aes_NewCipher k)) _ w w k) by by unfold lift; rewrite Haes.
    unfold mbind, prog_bind, random_bytes.
    destruct (Hrand (w_fresh w) NonceSize) as [b ->]. by eexists. }
  destruct Henc as [c Henc].
  rewrite (prog_bind_run _ _ w (set_fresh (S (w_fresh w)) w) (inl c)); [by eexists _, _|].
  unfold try. simpl. by rewrite Henc.
Qed.

(** ** Small instances, for the witnesses *)

Definition newline : ascii := "010"%char.

Lemma printable_no_newline s : printable s = true → Strings.Contains s newline = false.
Proof.
  unfold printable, bytes_of. induction s as [|c s IH]; simpl; [done|].
  intros [Hc Hs]%andb_true_iff. rewrite IH by done. rewrite orb_false_r.
  apply bool_decide_eq_false_2. intros ->. by vm_compute in Hc.
Qed.

(** The three fields on a line each. *)
Definition ex_marshal (d : EncryptedData) : string :=
  Algorithm d +:+ String newline (EncodedData d +:+ String newline (KeyVersion d)).
Definition ex_unmarshal (s : string) : EncryptedData + gerr :=
  match Strings.Split s newline with
  | [a; c; k] => inl {| Algorithm := a; EncodedData := c; KeyVersion := k |}
  | _ => inr (EText "invalid JSON")
  end.
Definition ex_text (s field : string) : option string :=
  match ex_unmarshal s with
  | inl d => if String.eqb field "Algorithm" then Some (Algorithm d)
             else if String.eqb field "KeyVersion" then Some (KeyVersion d) else None
  | inr _ => None
  end.

Lemma ex_data_roundtrip d :
  printable (Algorithm d) && printable (EncodedData d) && printable (KeyVersion d) = true →
  ex_unmarshal (id (ex_marshal d)) = inl d ∧
  ex_text (id (ex_marshal d)) "Algorithm" = Some (Algorithm d) ∧
  ex_text (id (ex_marshal d)) "KeyVersion" = Some (KeyVersion d).
Proof.
  intros [[Ha Hc]%andb_true_iff Hk]%andb_true_iff.
  assert (Hun : ex_unmarshal (ex_marshal d) = inl d).
  { unfold ex_unmarshal, ex_marshal. rewrite !Strings.Split_app by by apply printable_no_newline.
    rewrite Strings.Split_no_sep by by apply printable_no_newline. by destruct d. }
  unfold id, ex_text. by rewrite Hun.
Qed.

Definition ex_encrypted_json : EncryptedJSON :=
  {| data_Marshal := ex_marshal; jsonb := id; data_Unmarshal := ex_unmarshal;
     jsonb_text := ex_text; data_roundtrip := ex_data_roundtrip |}.

Lemma ex_token_roundtrip (s t : string) :
  inl s =@{string + gerr} inl t → ∃ s', inl t =@{string + gerr} inl s' ∧ inl s' =@{string + gerr} inl t.
Proof. intros _. by exists t. Qed.

Definition ex_token_json : TokenJSON :=
  {| token_Marshal := inl; token_Unmarshal := inl; token_Marshal_decoded := ex_token_roundtrip |}.

(** A token from before the key versions, under the key [key1]. *)
Definition ex_old_token : ProviderAccessToken :=
  {| pat_ProjectID := 2%N; pat_Provider := "github";
     pat_EncryptedToken :=
       match ReadFile (KeyFiles := ex_files) "/keys" "key1" with
       | inl key =>
           match @CFB_Encrypt ex_ciphers (bytes_of "token") key (ex_world ex_db []) with
           | (_, Ok c) => Some (Base64.EncodeToString (string_of c))
           | _ => None
           end
       | inr _ => None
       end;
     pat_EncryptedAccessToken := None |}.

Definition ex_tokens (n : Z) : gmap Z ProviderAccessToken :=
  list_to_map ((λ i, (i, ex_old_token)) <$> seqZ 1 n).

Definition ex_token_world (n : Z) : World := ex_world (set_tokens (ex_tokens n) ex_db) [].

Lemma ex_tokens_row n id row : ex_tokens n !! id = Some row → row = ex_old_token.
Proof.
  intros Hrow%elem_of_list_to_map_2. by apply list_elem_of_fmap in Hrow as (i & [= _ ->] & _).
Qed.

Lemma ex_rotation_engine :
  match ex_engine_of ex_config' with
  | Ok e => GetKey (keystore e) (defaultKeyID e)
              = Ok (bytes_of (Base64.EncodeToString (string_of (replicate 32 "A"%char)))) ∧
      match @oldSecret ex_encrypted_json ex_old_token with
      | Ok old => @DecryptOAuthToken ex_token_json e old = Ok "token"
      | _ => False
      end
  | _ => False
  end.
Proof. by vm_compute. Qed.

Lemma ex_rotation_ready :
  ∃ e, ex_engine_of ex_config' = Ok e ∧ can_encrypt e ∧
    @rotatable ex_token_json ex_encrypted_json e ex_old_token.
Proof.
  pose proof ex_rotation_engine as He. destruct (ex_engine_of ex_config') as [e|err|m] eqn:Hrun;
    [|destruct He..]. destruct He as [Hkey Hold]. exists e. split_and!; [done| |].
  - apply (@can_encrypt_config ex_ciphers ex_files ex_config' e
      (bytes_of (Base64.EncodeToString (string_of (replicate 32 "A"%char))))
      (replicate 32 "A"%char) Hrun).
    + intros i n. by eexists.
    + exact Hkey.
    + unfold decodeKey. rewrite string_of_bytes_of, Base64.DecodeString_EncodeToString.
      by rewrite bytes_of_string_of.
    + by vm_compute; do 2 right; left.
  - destruct (@oldSecret ex_encrypted_json ex_old_token) as [old|err|m] eqn:Ho; [|destruct Hold..].
    exists "token", "token". split_and!; [|done|by vm_compute]. by exists old.
Qed.

(** Of 150 tokens, a rotation that succeeds leaves at least 25. *)
Lemma rotation_skips_tokens_witness :
  ∃ e w' n, ex_engine_of ex_config' = Ok e ∧
    @rotateSecrets ex_token_json ex_encrypted_json e (cfg_Crypto ex_config') 200 true
      (ex_token_world 150) = (w', Ok n) ∧ (n ≤ 125)%Z.
Proof.
  destruct ex_rotation_ready as (e & He & Hcan & Hrot).
  assert (Hsize : size (@stale_tokens ex_encrypted_json ex_config'
    (provider_access_tokens (w_db (ex_token_world 150)))) = 150%nat) by by vm_compute.
  destruct (@rotation_skips_tokens ex_ciphers ex_files ex_token_json ex_encrypted_json ex_config' e
    He ltac:(done) eq_refl 200 (ex_token_world 150) Hcan eq_refl) as (w' & n & Hrun & Hleft & _ & Hskip).
  - intros id row Hrow _. apply ex_tokens_row in Hrow as ->. exact Hrot.
  - apply map_size_non_empty_iff. rewrite Hsize. lia.
  - rewrite Hsize. lia.
  - exists e, w', n. split_and!; [exact He|exact Hrun|]. rewrite Hsize in Hleft, Hskip.
    unfold batchSize in Hskip. lia.
Defined.

Lemma ex_tokens_stale :
  size (@stale_tokens ex_encrypted_json ex_config'
    (provider_access_tokens (w_db (ex_token_world 2)))) = 2%nat.
Proof. by vm_compute. Qed.

(** Of two tokens, the rotation changes some and loses none. *)
Lemma rotation_keeps_tokens_witness :
  ∃ e w' n, ex_engine_of ex_config' = Ok e ∧
    @rotateSecrets ex_token_json ex_encrypted_json e (cfg_Crypto ex_config') 200 true
      (ex_token_world 2) = (w', Ok n) ∧ (0 < n)%Z ∧
    @rotated_by ex_token_json ex_encrypted_json ex_config' e
      (w_db (ex_token_world 2)) (w_db w') (Z.to_nat n).
Proof.
  destruct ex_rotation_ready as (e & He & Hcan & Hrot).
  destruct (@rotateSecrets_runs ex_ciphers ex_files ex_token_json ex_encrypted_json ex_config' e
    He ltac:(done) eq_refl 200 (ex_token_world 2) Hcan eq_refl) as (w' & n & Hrun & _).
  - intros id row Hrow _. apply ex_tokens_row in Hrow as ->. exact Hrot.
  - apply map_size_non_empty_iff. rewrite ex_tokens_stale. lia.
  - rewrite ex_tokens_stale. lia.
  - exists e, w', n. split; [exact He|]. split; [exact Hrun|].
    pose proof (@rotation_keeps_tokens ex_ciphers ex_files ex_token_json ex_encrypted_json
      ex_config' e He ltac:(done) eq_refl 200 true (ex_token_world 2) w' (Ok n) Hrun)
      as (Hn & _ & Hby).
    exact (conj Hn Hby).
Defined.
