(* ===== verification/Authz.v ===== *)
(** * Authorization: identities, roles and the tuples of OpenFGA

    internal/authz/interface.go and authz.go over an interface of the OpenFGA
    client, and the identities of internal/auth/interface.go.  A tuple says that
    a user has a relation to an object. *)

From S2P Require Import Prelude GoErrors GoMonad GoStrings Uuid.
Local Open Scope string_scope.

(** ** auth/interface.go *)

(** The provider by its name, which is empty for the primary one. *)
Record Identity := {
  id_UserID : string; id_HumanName : string; id_Provider : string; id_FirstName : string;
  id_LastName : string;
}.

Definition Identity_String (i : option Identity) : string :=
  match i with
  | None => ""
  | Some i => if String.eqb (id_Provider i) "" then id_UserID i
              else id_Provider i +:+ "/" +:+ id_UserID i
  end.

Definition Identity_Human (i : option Identity) : string :=
  match i with
  | None => "<unknown>"
  | Some i => if String.eqb (id_Provider i) "" then id_HumanName i
              else id_Provider i +:+ "/" +:+ id_HumanName i
  end.

(** ** authz/interface.go *)

Definition ErrNotAuthorized : gerr := ENew "authz.ErrNotAuthorized" "not authorized".

Abbreviation Role := string.

Definition RoleAdmin : Role := "admin".
Definition RoleEditor : Role := "editor".
Definition RoleViewer : Role := "viewer".
Definition RolePolicyWriter : Role := "policy_writer".
Definition RolePermissionsManager : Role := "permissions_manager".

(** The keys of [AllRolesDescriptions] too. *)
Definition AllRolesSorted : list Role :=
  [RoleAdmin; RoleEditor; RoleViewer; RolePolicyWriter; RolePermissionsManager].

Definition ParseRole (r : string) : res Role :=
  if String.eqb r "" then Err (EText "role cannot be empty")
  else if bool_decide (r ∈ AllRolesSorted) then Ok r
  else Err (EText ("invalid role " +:+ r)).

(** ** authz.go *)

Record RoleAssignment := {
  ra_Subject : string; ra_Role : string; ra_Project : option string; ra_DisplayName : string;
  ra_FirstName : string; ra_LastName : string;
}.

(** User, relation and object. *)
Abbreviation Tuple := (string * string * string)%type.

(** The tuples of an object, if given, of a user, if given; an object that ends
    in a colon stands for a type. *)
Record ReadRequest := { rr_User : option string; rr_Object : option string }.

(** The client of OpenFGA, on a state of its own: [fga_tuples] are the tuples of
    the store, [fga_rest] what reading goes on with at a continuation token, and
    [fga_pages] how many pages that takes. *)
Class OpenFGA (X : Type) := {
  fga_Check : Tuple → prog X (option bool);
  fga_WriteTuples : Tuple → prog X (list (option gerr));
  fga_DeleteTuples : Tuple → prog X (list (option gerr));
  fga_Read : ReadRequest → Z → option string → prog X (list Tuple * string);
  fga_ListObjects : string → string → string → prog X (list string);
  fga_tuples : X → gset Tuple;
  fga_rest : X → ReadRequest → option string → list Tuple;
  fga_pages : X → ReadRequest → option string → nat;
}.

(** [strings.Contains] *)
Definition has_text (s text : string) : bool :=
  match String.index 0 text s with Some _ => true | None => false end.

Definition getUserForTuple (user : string) : string := "user:" +:+ user.
Definition getUserFromTuple (user : string) : string := Strings.TrimPrefix user "user:".

Section client.
Context `{UuidLib} {X : Type} `{OpenFGA X}.

Definition getProjectForTuple (project : UUID) : string := "project:" +:+ uuid_String project.
Definition getProjectFromTuple (project : string) : string := Strings.TrimPrefix project "project:".

Definition Check_action (id : option Identity) (action : string) (project : UUID) : prog X unit :=
  if String.eqb (Identity_String id) "" then throw (EText "no user token found in context")
  else
    let userString := getUserForTuple (Identity_String id) in
    result ← wrapf ("OpenFGA error for " +:+ userString +:+ ": ")
               (fga_Check (userString, action, getProjectForTuple project));
    match result with
    | Some true => mret tt
    | _ => throw ErrNotAuthorized
    end.

(** The first error among the results of the single tuples. *)
Definition first_failure (pre : string) (results : list (option gerr)) : prog X unit :=
  match omap id results with
  | [] => mret tt
  | err :: _ => throw (EWrap pre err "")
  end.

Definition write (t : Tuple) : prog X unit :=
  resp ← try (fga_WriteTuples t);
  match resp with
  | inr err => if has_text (Error err) "already exists" then mret tt
               else throw (EWrap "unable to persist authorization tuple: " err "")
  | inl writes => first_failure "unable to persist authorization tuple: " writes
  end.

Definition Write (user : string) (role : Role) (project : UUID) : prog X unit :=
  write (getUserForTuple user, role, getProjectForTuple project).

Definition Adopt (parent child : UUID) : prog X unit :=
  write (getProjectForTuple parent, "parent", getProjectForTuple child).

Definition doDelete (user role project : string) : prog X unit :=
  resp ← try (fga_DeleteTuples (user, role, project));
  match resp with
  | inr err => if has_text (Error err) "cannot delete a tuple which does not exist"
               then mret tt
               else throw (EWrap "unable to remove authorization tuple: " err "")
  | inl deletes => first_failure "unable to remove authorization tuple: " deletes
  end.

Definition Delete (user : string) (role : Role) (project : UUID) : prog X unit :=
  doDelete (getUserForTuple user) role (getProjectForTuple project).

Definition Orphan (parent child : UUID) : prog X unit :=
  doDelete (getProjectForTuple parent) "parent" (getProjectForTuple child).

Definition DeleteUser_tuples (user : string) : prog X unit :=
  foreach (λ role,
    objects ← wrapf "unable to list authorization tuples: "
                (fga_ListObjects "project" role (getUserForTuple user));
    foreach (doDelete (getUserForTuple user) role) objects) AllRolesSorted.

Definition pagesize : Z := 50.

(** All pages of a read. *)
Fixpoint read_pages (fuel : nat) (req : ReadRequest) (contTok : option string)
    (tuples : list Tuple) : prog X (list Tuple) :=
  match fuel with
  | O => lift (Panic "out of fuel")
  | S fuel =>
      resp ← wrapf "unable to read authorization tuples: " (fga_Read req pagesize contTok);
      let '(page, token) := resp in
      let tuples := (tuples ++ page)%list in
      if String.eqb token "" then mret tuples else read_pages fuel req (Some token) tuples
  end.

Definition read_all (req : ReadRequest) : prog X (list Tuple) :=
  λ x, read_pages (S (fga_pages x req None)) req None [] x.

(** A tuple whose relation is no role is only logged. *)
Definition assignment_of (prjStr : string) (t : Tuple) : option RoleAssignment :=
  match ParseRole t.1.2 with
  | Ok r => Some {| ra_Subject := getUserFromTuple t.1.1; ra_Role := r; ra_Project := Some prjStr;
                    ra_DisplayName := ""; ra_FirstName := ""; ra_LastName := "" |}
  | _ => None
  end.

Definition AssignmentsToProject (project : UUID) : prog X (list RoleAssignment) :=
  tuples ← read_all {| rr_User := None; rr_Object := Some (getProjectForTuple project) |};
  mret (omap (assignment_of (uuid_String project)) tuples).

Definition projects_of (objects : list string) : list UUID :=
  omap (λ o, match uuid_Parse (getProjectFromTuple o) with Ok u => Some u | _ => None end) objects.

Definition children_of (parent : UUID) : prog X (list UUID) :=
  objects ← wrapf "unable to read authorization tuples: "
              (fga_ListObjects "project" "parent" (getProjectForTuple parent));
  mret (projects_of objects).

(** Depth first; the depth of the hierarchy bounds the recursion. *)
Fixpoint traverseProjectsForParent (depth : nat) (parent : UUID) : prog X (list UUID) :=
  match depth with
  | O => lift (Panic "out of fuel")
  | S depth =>
      projects ← children_of parent;
      (fix below (l : list UUID) (projects : list UUID) : prog X (list UUID) :=
         match l with
         | [] => mret projects
         | proj :: l =>
             children ← traverseProjectsForParent depth proj;
             below l (projects ++ children)%list
         end) projects projects
  end.

Definition ProjectsForUser (depth : nat) (sub : string) : prog X (list UUID) :=
  tuples ← read_all {| rr_User := Some (getUserForTuple sub); rr_Object := Some "project:" |};
  (fix each (l : list UUID) (out : list UUID) : prog X (list UUID) :=
     match l with
     | [] => mret out
     | u :: l =>
         children ← traverseProjectsForParent depth u;
         each l (out ++ u :: children)%list
     end) (projects_of (elements (list_to_set (C := gset string) (snd <$> tuples)))) [].

(** ** What is documented of OpenFGA

    A write and a deletion of one tuple is done or fails without effect; to write
    a tuple that is there and to delete one that is not are errors.  A read
    changes nothing, and its pages list the matching tuples once each. *)

Definition all_done (results : list (option gerr)) : Prop := ∀ e, Some e ∉ results.

Definition matches (req : ReadRequest) (t : Tuple) : Prop :=
  (∀ u, rr_User req = Some u → t.1.1 = u) ∧
  (∀ o, rr_Object req = Some o → t.2 = o ∨ o = "project:" ∧ Strings.HasPrefix t.2 o = true).

Record fga_laws : Prop := {
  fl_check : ∀ t x x' r, fga_Check t x = (x', r) → fga_tuples x' = fga_tuples x;
  fl_list : ∀ type rel user x x' r, fga_ListObjects type rel user x = (x', r) →
    fga_tuples x' = fga_tuples x;
  fl_write : ∀ t x x' r, fga_WriteTuples t x = (x', r) →
    match r with
    | Ok rs => (all_done rs → fga_tuples x' = {[t]} ∪ fga_tuples x) ∧
               (¬ all_done rs → fga_tuples x' = fga_tuples x)
    | Err e => fga_tuples x' = fga_tuples x ∧
               (has_text (Error e) "already exists" = true → t ∈ fga_tuples x)
    | Panic _ => False
    end;
  fl_delete : ∀ t x x' r, fga_DeleteTuples t x = (x', r) →
    match r with
    | Ok rs => (all_done rs → fga_tuples x' = fga_tuples x ∖ {[t]}) ∧
               (¬ all_done rs → fga_tuples x' = fga_tuples x)
    | Err e => fga_tuples x' = fga_tuples x ∧
        (has_text (Error e) "cannot delete a tuple which does not exist" = true →
         t ∉ fga_tuples x)
    | Panic _ => False
    end;
  fl_read : ∀ req n tok x x' r, fga_Read req n tok x = (x', r) →
    fga_tuples x' = fga_tuples x ∧ (∀ req tok, fga_rest x' req tok = fga_rest x req tok) ∧
    (∀ req tok, fga_pages x' req tok = fga_pages x req tok) ∧
    match r with
    | Ok (page, token) =>
        if String.eqb token "" then fga_rest x req tok = page
        else fga_rest x req tok = (page ++ fga_rest x req (Some token))%list ∧
             fga_pages x req (Some token) < fga_pages x req tok
    | Err _ => True
    | Panic _ => False
    end;
  fl_rest : ∀ x req, NoDup (fga_rest x req None) ∧
    ∀ t, t ∈ fga_rest x req None ↔ t ∈ fga_tuples x ∧ matches req t;
}.

(** ** Lemmas *)

Lemma getUserFromTuple_ForTuple u : getUserFromTuple (getUserForTuple u) = u.
Proof. unfold getUserFromTuple, getUserForTuple, Strings.TrimPrefix. cbn. by destruct u. Qed.

Lemma ParseRole_Ok r role : ParseRole r = Ok role ↔ r = role ∧ r ∈ AllRolesSorted.
Proof.
  unfold ParseRole. destruct (String.eqb_spec r "") as [->|Hne].
  - split; [done|]. intros [<- Hin]. list_cases Hin; done.
  - case_bool_decide; split; [by intros [= ->]|by intros [-> _]|done|by intros [_ ?]].
Qed.

Lemma getProjectForTuple_inj p q : getProjectForTuple p = getProjectForTuple q → p = q.
Proof.
  unfold getProjectForTuple. intros Heq.
  assert (Hs : uuid_String p = uuid_String q) by (by injection Heq).
  pose proof (uuid_Parse_String p) as Hp. rewrite Hs, uuid_Parse_String in Hp. congruence.
Qed.

Lemma project_object_matches project t :
  matches {| rr_User := None; rr_Object := Some (getProjectForTuple project) |} t →
  t.2 = getProjectForTuple project.
Proof.
  intros [_ Hm]. destruct (Hm _ eq_refl) as [Heq|[Heq _]]; [done|].
  exfalso. apply (uuid_String_nonempty project). unfold getProjectForTuple in Heq.
  by injection Heq.
Qed.

Section laws.
Context (L : fga_laws).

Lemma first_failure_cases pre results x :
  (all_done results ∧ first_failure pre results x = (x, Ok tt)) ∨
  (¬ all_done results ∧ ∃ e, first_failure pre results x = (x, Err e)).
Proof.
  unfold first_failure. destruct (omap id results) as [|e l] eqn:Ho.
  - left. split; [|done]. intros e He.
    assert (Hin : e ∈ omap id results) by (apply list_elem_of_omap; by exists (Some e)).
    rewrite Ho in Hin. by apply not_elem_of_nil in Hin.
  - right. split; [|eauto]. intros Hall. apply (Hall e).
    assert (Hin : e ∈ omap id results) by (rewrite Ho; by left).
    apply list_elem_of_omap in Hin as ([e'|] & Hin & Heq); [|done]. cbn in Heq. congruence.
Qed.

(** The tuple is there afterwards, and nothing else has changed; or it failed. *)
Lemma write_effect t x x' r :
  write t x = (x', r) →
  match r with
  | Ok _ => fga_tuples x' = {[t]} ∪ fga_tuples x
  | Err _ => fga_tuples x' = fga_tuples x
  | Panic _ => False
  end.
Proof.
  unfold write, mbind, prog_bind, try.
  destruct (fga_WriteTuples t x) as [x1 r1] eqn:Hw. pose proof (fl_write L _ _ _ _ Hw) as Hl.
  destruct r1 as [rs|e|m]; [| |done].
  - destruct (first_failure_cases "unable to persist authorization tuple: " rs x1)
      as [[Hd ->]|(Hd & e & ->)]; intros [= <- <-]; by apply Hl.
  - destruct Hl as [Hsame Hthere]. destruct (has_text (Error e) "already exists");
      intros [= <- <-]; [|done]. specialize (Hthere eq_refl). set_solver.
Qed.

Lemma Write_effect user role project x x' r :
  Write user role project x = (x', r) →
  match r with
  | Ok _ => fga_tuples x' =
      {[(getUserForTuple user, role, getProjectForTuple project)]} ∪ fga_tuples x
  | Err _ => fga_tuples x' = fga_tuples x
  | Panic _ => False
  end.
Proof. apply write_effect. Qed.

Lemma doDelete_effect user role project x x' r :
  doDelete user role project x = (x', r) →
  match r with
  | Ok _ => fga_tuples x' = fga_tuples x ∖ {[(user, role, project)]}
  | Err _ => fga_tuples x' = fga_tuples x
  | Panic _ => False
  end.
Proof.
  unfold doDelete, mbind, prog_bind, try.
  destruct (fga_DeleteTuples (user, role, project) x) as [x1 r1] eqn:Hw.
  pose proof (fl_delete L _ _ _ _ Hw) as Hl. destruct r1 as [rs|e|m]; [| |done].
  - destruct (first_failure_cases "unable to remove authorization tuple: " rs x1)
      as [[Hd ->]|(Hd & e & ->)]; intros [= <- <-]; by apply Hl.
  - destruct Hl as [Hsame Hgone].
    destruct (has_text (Error e) _); intros [= <- <-]; [|done].
    specialize (Hgone eq_refl). set_solver.
Qed.

(** Deleted at most the tuple. *)
Lemma Delete_effect user role project x x' r :
  Delete user role project x = (x', r) →
  match r with
  | Ok _ => fga_tuples x' = fga_tuples x ∖
      {[(getUserForTuple user, role, getProjectForTuple project)]}
  | Err _ => fga_tuples x' = fga_tuples x
  | Panic _ => False
  end.
Proof. apply doDelete_effect. Qed.

Lemma read_pages_spec req fuel : ∀ tok tuples x x' r,
  fga_pages x req tok < fuel → read_pages fuel req tok tuples x = (x', r) →
  fga_tuples x' = fga_tuples x ∧
  match r with
  | Ok l => l = (tuples ++ fga_rest x req tok)%list
  | Err _ => True
  | Panic _ => False
  end.
Proof.
  induction fuel as [|fuel IH]; intros tok tuples x x' r Hfuel; [lia|]. cbn [read_pages].
  unfold mbind at 1, prog_bind, wrapf.
  destruct (fga_Read req pagesize tok x) as [x1 r1] eqn:Hr.
  destruct (fl_read L _ _ _ _ _ _ Hr) as (Ht & Hrest & Hpages & Hcase).
  destruct r1 as [[page token]|e|m]; [|by intros [= <- <-]|done].
  cbn [wrapf_res]. destruct (String.eqb token "").
  { intros [= <- <-]. split; [done|]. by rewrite Hcase. }
  destruct Hcase as [Hcat Hlt]. intros Hrun. apply IH in Hrun; [|rewrite Hpages; lia].
  destruct Hrun as [Ht' Hl]. split; [congruence|]. destruct r; try done.
  by rewrite Hl, Hrest, Hcat, <-app_assoc.
Qed.

(** The assignments of a project are those of the tuples of its object. *)
Lemma AssignmentsToProject_spec project x x' r :
  AssignmentsToProject project x = (x', r) →
  fga_tuples x' = fga_tuples x ∧
  match r with
  | Ok l => ∃ tuples, l = omap (assignment_of (uuid_String project)) tuples ∧ NoDup tuples ∧
      ∀ t, t ∈ tuples ↔ t ∈ fga_tuples x ∧
        matches {| rr_User := None; rr_Object := Some (getProjectForTuple project) |} t
  | Err _ => True
  | Panic _ => False
  end.
Proof.
  unfold AssignmentsToProject. unfold mbind at 1, prog_bind. unfold read_all.
  set (req := {| rr_User := None; rr_Object := Some (getProjectForTuple project) |}).
  destruct (read_pages _ req None [] x) as [x1 r1] eqn:Hr.
  apply read_pages_spec in Hr as [Ht Hl]; [|lia].
  destruct r1 as [l|e|m]; intros [= <- <-]; [|done..]. split; [done|].
  destruct (fl_rest L x req) as [Hnd Hin]. exists l. subst l. cbn [app]. done.
Qed.

(** The roles that users have on the project are among its assignments. *)
Lemma AssignmentsToProject_complete project x x' l user role :
  AssignmentsToProject project x = (x', Ok l) → role ∈ AllRolesSorted →
  (getUserForTuple user, role, getProjectForTuple project) ∈ fga_tuples x →
  ∃ a, a ∈ l ∧ ra_Subject a = user ∧ ra_Role a = role.
Proof.
  intros [_ (tuples & -> & _ & Hin)]%AssignmentsToProject_spec Hrole Ht.
  set (t := (_, _, _)) in Ht.
  assert (Hp : ParseRole role = Ok role) by (by apply ParseRole_Ok).
  eexists. split; [|split].
  - apply list_elem_of_omap. exists t. split.
    + apply Hin. split; [done|]. split; [done|]. intros o [= <-]. by left.
    + unfold assignment_of, t. cbn [fst snd]. rewrite Hp. reflexivity.
  - apply getUserFromTuple_ForTuple.
  - done.
Qed.
End laws.
End client.

(** ** A small store, for the witnesses: the tuples, and which calls fail *)

Record ex_store := { xs_tuples : gset Tuple; xs_down : list bool }.

Definition ex_call {A} (f : gset Tuple → gset Tuple * A) : prog ex_store A := λ x,
  if default false (head (xs_down x))
  then ({| xs_tuples := xs_tuples x; xs_down := tail (xs_down x) |}, Err (EText "unavailable"))
  else let '(t, a) := f (xs_tuples x) in ({| xs_tuples := t; xs_down := tail (xs_down x) |}, Ok a).

Definition ex_matches (req : ReadRequest) (t : Tuple) : bool :=
  match rr_User req with Some u => bool_decide (t.1.1 = u) | None => true end &&
  match rr_Object req with
  | Some o => bool_decide (t.2 = o) || bool_decide (o = "project:") && Strings.HasPrefix t.2 o
  | None => true
  end.

Definition ex_found (x : gset Tuple) (req : ReadRequest) : list Tuple :=
  filter (λ t, ex_matches req t = true) (elements x).

#[export] Instance ex_openfga : OpenFGA ex_store := {|
  fga_Check t := ex_call (λ x, (x, Some (bool_decide (t ∈ x))));
  fga_WriteTuples t := ex_call (λ x, ({[t]} ∪ x, [None]));
  fga_DeleteTuples t := ex_call (λ x, (x ∖ {[t]}, [None]));
  fga_Read req _ _ := ex_call (λ x, (x, (ex_found x req, "")));
  fga_ListObjects _ rel user := ex_call (λ x, (x,
    (filter (λ t, t.1.1 = user ∧ t.1.2 = rel) (elements x)).*2));
  fga_tuples := xs_tuples;
  fga_rest x req _ := ex_found (xs_tuples x) req;
  fga_pages _ _ _ := 0;
|}.

Lemma ex_matches_spec req t : ex_matches req t = true ↔ matches req t.
Proof.
  unfold ex_matches, matches. rewrite andb_true_iff.
  destruct (rr_User req) as [u|], (rr_Object req) as [o|];
    rewrite ?orb_true_iff, ?andb_true_iff, ?bool_decide_eq_true; naive_solver.
Qed.

Lemma ex_fga_laws : fga_laws (X := ex_store).
Proof.
  assert (Hdone : all_done [None]) by (intros e He; by list_cases He).
  split; cbn; unfold ex_call.
  - intros t x x' r. by destruct (default _ _); intros [= <- <-].
  - intros type rel user x x' r. by destruct (default _ _); intros [= <- <-].
  - intros t x x' r. destruct (default _ _); intros [= <- <-]; cbn; [done|]. done.
  - intros t x x' r. destruct (default _ _); intros [= <- <-]; cbn; [done|]. done.
  - intros req n tok x x' r. destruct (default _ _); intros [= <- <-]; cbn; done.
  - intros x req. split.
    + apply NoDup_filter, NoDup_elements.
    + intros t. unfold ex_found. rewrite list_elem_of_filter, elem_of_elements, ex_matches_spec. tauto.
Qed.
