(* ===== verification/Accounts.v ===== *)
(** * Users and invitations in the database

    The tables users and user_invites with the queries of
    internal/db/users.sql.go and invitations.sql.go, the state of a server with
    its authorization store, and its transactions, which the authorization store
    does not take part in. *)

From S2P Require Import Prelude GoErrors GoMonad GoStrings Uuid Database HistoryDb EntityEvent Eea Authz.
Local Open Scope string_scope.

Record UserInvite := {
  ui_Code : string; ui_Email : string; ui_Role : string; ui_Project : UUID; ui_Sponsor : Z;
  ui_CreatedAt : Z; ui_UpdatedAt : Z;
}.

Record ProjectRow := {
  prj_Name : string; prj_Metadata : string; prj_CreatedAt : Z; prj_UpdatedAt : Z;
}.

(** A row of [projects] as statements return it. *)
Record dbProject := { dp_ID : UUID; dp_ParentID : option UUID; dp_Row : ProjectRow }.

(** [provider_github_app_installations], by the id of the installation. *)
Record Installation := {
  gi_ProviderID : option UUID; gi_EnrollingUserID : option string; gi_ProjectID : option UUID;
}.

(** [users], by id, of which only the subject is of interest; [user_invites],
    by code; the columns of [projects] that [Db] leaves out; the installations. *)
Record Accounts := {
  ac_users : gmap Z string;
  ac_invites : gmap string UserInvite;
  ac_projects : gmap UUID ProjectRow;
  ac_installs : gmap Z Installation;
}.

Definition set_users (u : gmap Z string) (a : Accounts) : Accounts :=
  {| ac_users := u; ac_invites := ac_invites a; ac_projects := ac_projects a;
     ac_installs := ac_installs a |}.
Definition set_invites (i : gmap string UserInvite) (a : Accounts) : Accounts :=
  {| ac_users := ac_users a; ac_invites := i; ac_projects := ac_projects a;
     ac_installs := ac_installs a |}.

Definition set_project_rows (p : gmap UUID ProjectRow) (a : Accounts) : Accounts :=
  {| ac_users := ac_users a; ac_invites := ac_invites a; ac_projects := p;
     ac_installs := ac_installs a |}.

(** The server: its database, the sequence of the user ids, which no transaction
    rolls back, and the authorization store. *)
Record AuthState (X : Type) := {
  as_world : World; as_accounts : Accounts; as_seq : Z; as_fga : X;
}.
Arguments as_world {X} _.
Arguments as_accounts {X} _.
Arguments as_seq {X} _.
Arguments as_fga {X} _.

Section state.
Context {X : Type}.

Definition with_world (w : World) (s : AuthState X) : AuthState X :=
  {| as_world := w; as_accounts := as_accounts s; as_seq := as_seq s; as_fga := as_fga s |}.
Definition with_accounts (a : Accounts) (s : AuthState X) : AuthState X :=
  {| as_world := as_world s; as_accounts := a; as_seq := as_seq s; as_fga := as_fga s |}.
Definition with_seq (n : Z) (s : AuthState X) : AuthState X :=
  {| as_world := as_world s; as_accounts := as_accounts s; as_seq := n; as_fga := as_fga s |}.
Definition with_fga (x : X) (s : AuthState X) : AuthState X :=
  {| as_world := as_world s; as_accounts := as_accounts s; as_seq := as_seq s; as_fga := x |}.

Definition on_world {A} (m : prog World A) : prog (AuthState X) A := λ s,
  let '(w, r) := m (as_world s) in (with_world w s, r).

Definition on_fga {A} (m : prog X A) : prog (AuthState X) A := λ s,
  let '(x, r) := m (as_fga s) in (with_fga x s, r).

(** A statement on the accounts, which fails with the connection. *)
Definition statement {A} (f : AuthState X → AuthState X * res A) : prog (AuthState X) A := λ s,
  let '(w, r) := BeginTransaction (as_world s) in
  match r with
  | Ok _ => f (with_world w s)
  | Err e => (with_world w s, Err e)
  | Panic m => (with_world w s, Panic m)
  end.

(** [f] reads the accounts and the clock. *)
Definition account_select {A} (f : AuthState X → res A) : prog (AuthState X) A :=
  statement (λ s, (s, f s)).

(** A transaction of the database around statements of both; [fb] and [fc] say
    how a failure to begin and to commit is handed on. *)
Definition transaction {A} (fb fc : gerr → gerr) (fn : prog (AuthState X) A)
    : prog (AuthState X) A := λ s0,
  let undo (s1 s : AuthState X) :=
    with_accounts (as_accounts s1) (with_world (set_db (w_db (as_world s1)) (as_world s)) s) in
  let '(w1, b) := BeginTransaction (as_world s0) in
  let s1 := with_world w1 s0 in
  match b with
  | Ok _ =>
      match fn s1 with
      | (s2, Ok a) =>
          let '(w3, c) := Commit (as_world s2) in
          match c with
          | Ok _ => (with_world w3 s2, Ok a)
          | Err e => (undo s1 (with_world w3 s2), Err (fc e))
          | Panic m => (undo s1 (with_world w3 s2), Panic m)
          end
      | (s2, Err e) => (undo s1 s2, Err e)
      | (s2, Panic m) => (undo s1 s2, Panic m)
      end
  | Err e => (s1, Err (fb e))
  | Panic m => (s1, Panic m)
  end.

Definition in_transaction {A} (fn : prog (AuthState X) A) : prog (AuthState X) A :=
  transaction id id fn.

(** ** users.sql.go *)

Definition GetUserBySubject (subject : string) : prog (AuthState X) Z :=
  account_select (λ s,
    match filter (λ p, p.2 = subject) (map_to_list (ac_users (as_accounts s))) with
    | (id, _) :: _ => Ok id
    | [] => Err ErrNoRows
    end).

(** The subject is unique. *)
Definition CreateUser (subject : string) : prog (AuthState X) Z :=
  statement (λ s,
    let a := as_accounts s in
    let s' := with_seq (as_seq s + 1)%Z s in
    match filter (λ p, p.2 = subject) (map_to_list (ac_users a)) with
    | _ :: _ => (s', Err UniqueViolation)
    | [] => (with_accounts (set_users (<[as_seq s := subject]> (ac_users a)) a) s', Ok (as_seq s))
    end).

(** ** projects.sql.go *)

Definition GetProjectRow (id : UUID) : prog (AuthState X) ProjectRow :=
  account_select (λ s,
    let d := w_db (as_world s) in
    match ac_projects (as_accounts s) !! id with
    | Some row => if bool_decide (id ∈ projects d ∧ id ∉ organizations d) then Ok row
                  else Err ErrNoRows
    | None => Err ErrNoRows
    end).

(** The [lower] of the database is a parameter. *)
Definition GetProjectByName `{PgText} (name : string) : prog (AuthState X) UUID :=
  account_select (λ s,
    let d := w_db (as_world s) in
    match filter (λ p, pg_lower (prj_Name p.2) = pg_lower name ∧
                       p.1 ∈ projects d ∧ p.1 ∉ organizations d)
            (map_to_list (ac_projects (as_accounts s))) with
    | (id, _) :: _ => Ok id
    | [] => Err ErrNoRows
    end).

(** ** provider_github_app_installations.sql.go *)

Definition GetUnclaimedInstallationsByUser (ghID : string) : prog (AuthState X) (list Z) :=
  account_select (λ s, Ok ((filter (λ p, gi_EnrollingUserID p.2 = Some ghID ∧
                                         gi_ProviderID p.2 = None)
                              (map_to_list (ac_installs (as_accounts s)))).*1)).

(** ** invitations.sql.go *)

(** The code, the address, the role and the project exist, and so does the
    sponsor. *)
Definition CreateInvitation (code email role : string) (project : UUID) (sponsor : Z)
    : prog (AuthState X) UserInvite :=
  statement (λ s,
    let a := as_accounts s in
    let now := w_now (as_world s) in
    let row := {| ui_Code := code; ui_Email := email; ui_Role := role; ui_Project := project;
                  ui_Sponsor := sponsor; ui_CreatedAt := now; ui_UpdatedAt := now |} in
    if bool_decide (is_Some (ac_invites a !! code)) then (s, Err UniqueViolation)
    else if bool_decide (project ∈ projects (w_db (as_world s)) ∧ is_Some (ac_users a !! sponsor))
    then (with_accounts (set_invites (<[code := row]> (ac_invites a)) a) s, Ok row)
    else (s, Err ForeignKeyViolation)).

Definition DeleteInvitation (code : string) : prog (AuthState X) UserInvite :=
  statement (λ s,
    let a := as_accounts s in
    match ac_invites a !! code with
    | Some row => (with_accounts (set_invites (delete code (ac_invites a)) a) s, Ok row)
    | None => (s, Err ErrNoRows)
    end).

(** Joined with the subject of the sponsor. *)
Definition sponsored (a : Accounts) (i : UserInvite) : option (UserInvite * string) :=
  pair i <$> ac_users a !! ui_Sponsor i.

Definition GetInvitationByCode (code : string) : prog (AuthState X) (UserInvite * string) :=
  account_select (λ s,
    match ac_invites (as_accounts s) !! code ≫= sponsored (as_accounts s) with
    | Some row => Ok row
    | None => Err ErrNoRows
    end).

Definition invitations_where (P : UserInvite → Prop) `{∀ i, Decision (P i)} (a : Accounts)
    : list (UserInvite * string) :=
  omap (sponsored a) (filter P (map_to_list (ac_invites a)).*2).

Definition GetInvitationsByEmail (email : string) : prog (AuthState X) (list (UserInvite * string)) :=
  account_select (λ s, Ok (invitations_where (λ i, ui_Email i = email) (as_accounts s))).

Definition GetInvitationsByEmailAndProject (email : string) (project : UUID)
    : prog (AuthState X) (list (UserInvite * string)) :=
  account_select (λ s, Ok (invitations_where (λ i, ui_Email i = email ∧ ui_Project i = project)
                             (as_accounts s))).

Definition ListInvitationsForProject_query (project : UUID)
    : prog (AuthState X) (list (UserInvite * string)) :=
  account_select (λ s, Ok (invitations_where (λ i, ui_Project i = project) (as_accounts s))).

Definition UpdateInvitationRole (code role : string) : prog (AuthState X) UserInvite :=
  statement (λ s,
    let a := as_accounts s in
    match ac_invites a !! code with
    | Some i =>
        let row := {| ui_Code := ui_Code i; ui_Email := ui_Email i; ui_Role := role;
                      ui_Project := ui_Project i; ui_Sponsor := ui_Sponsor i;
                      ui_CreatedAt := ui_CreatedAt i; ui_UpdatedAt := w_now (as_world s) |} in
        (with_accounts (set_invites (<[code := row]> (ac_invites a)) a) s, Ok row)
    | None => (s, Err ErrNoRows)
    end).
End state.

(** ** Lemmas *)

Section lemmas.
Context {X : Type}.
Implicit Types s : AuthState X.

(** Nothing but a failure of the connection has been used up. *)
Definition same (s s' : AuthState X) : Prop :=
  as_accounts s' = as_accounts s ∧ as_fga s' = as_fga s ∧
  ∃ fs, as_world s' = set_faults fs (as_world s) ∧ ∀ x, x ∈ fs → x ∈ w_faults (as_world s).

Lemma same_refl s : same s s.
Proof. split_and!; [done..|]. exists (w_faults (as_world s)). by rewrite set_faults_same. Qed.

Lemma same_trans s1 s2 s3 : same s1 s2 → same s2 s3 → same s1 s3.
Proof.
  intros (Ha & Hf & fs & Hw & Hs) (Ha' & Hf' & fs' & Hw' & Hs'). split_and!; [congruence..|].
  exists fs'. rewrite Hw', Hw in *. split; [done|]. intros x Hx. by apply Hs, Hs'.
Qed.

Lemma same_db s s' : same s s' → w_db (as_world s') = w_db (as_world s).
Proof. intros (_ & _ & fs & -> & _). done. Qed.

Lemma same_now s s' : same s s' → w_now (as_world s') = w_now (as_world s).
Proof. intros (_ & _ & fs & -> & _). done. Qed.

Lemma same_honest s s' : same s s' → honest_faults (as_world s) → honest_faults (as_world s').
Proof. intros (_ & _ & fs & -> & Hs) Hh. by apply honest_faults_sub. Qed.

(** A statement fails with the connection, or does its work. *)
Lemma statement_cases {A} (f : AuthState X → AuthState X * res A) s s' r :
  statement f s = (s', r) →
  (same s s' ∧ is_ok r = false) ∨ ∃ s1, same s s1 ∧ f s1 = (s', r).
Proof.
  unfold statement. destruct (select_run (λ _, Ok tt) (as_world s)) as (fs & r1 & Hb & Hsub).
  fold BeginTransaction in Hb. rewrite Hb.
  assert (Hsame : same s (with_world (set_faults fs (as_world s)) s)) by (split_and!; eauto).
  destruct r1 as [[]|e|m]; [|intros [= <- <-]; by left..]. intros Hf. right. eauto.
Qed.

Lemma account_select_cases {A} (f : AuthState X → res A) s s' r :
  account_select f s = (s', r) → same s s' ∧ (is_ok r = true → r = f s').
Proof.
  intros [[Hs Hr]|(s1 & Hs & [= <- <-])]%statement_cases; [|done]. split; [done|].
  rewrite Hr. done.
Qed.

(** The driver does not answer a statement that fails with a missing row. *)
Lemma account_select_no_rows {A} (f : AuthState X → res A) s s' e :
  honest_faults (as_world s) → account_select f s = (s', Err e) → is_in e ErrNoRows = true →
  f s' = Err e.
Proof.
  intros Hh. unfold account_select, statement, BeginTransaction, select.
  destruct (query_honest (λ w, (w, Ok tt)) (as_world s) Hh) as [(e' & fs & Hq & He & _)|(fs & Hq & _)];
    rewrite Hq; intros [= <- ?]; congruence.
Qed.

Lemma account_select_Ok {A} (f : AuthState X → res A) s s' a :
  account_select f s = (s', Ok a) → same s s' ∧ f s' = Ok a.
Proof. intros [Hs Hr]%account_select_cases. split; [done|]. symmetry. by apply Hr. Qed.

(** A transaction keeps what its function did, or gives the accounts and the
    tables back; what happened to the authorization store stays. *)
Lemma transaction_cases {A} fb fc (fn : prog (AuthState X) A) s s' r :
  transaction fb fc fn s = (s', r) →
  (∃ a s1 s2, r = Ok a ∧ same s s1 ∧ fn s1 = (s2, Ok a) ∧ same s2 s') ∨
  (is_ok r = false ∧ as_accounts s' = as_accounts s ∧
   w_db (as_world s') = w_db (as_world s) ∧
   (as_fga s' = as_fga s ∨ ∃ s1 r1, same s s1 ∧ as_fga s' = as_fga (fn s1).1 ∧ (fn s1).2 = r1)).
Proof.
  unfold transaction.
  destruct (select_run (λ _, Ok tt) (as_world s)) as (fs & r1 & Hb & Hsub).
  fold BeginTransaction in Hb. rewrite Hb. cbn zeta.
  set (s1 := with_world (set_faults fs (as_world s)) s).
  assert (Hsame : same s s1) by (split_and!; eauto).
  destruct r1 as [[]|e|m]; [|intros [= <- <-]; right; split_and!; by auto..].
  destruct (fn s1) as [s2 [a|e|m]] eqn:Hfn.
  2-3: intros [= <- <-]; right; split_and!; [done..|]; right; exists s1; rewrite Hfn; eauto.
  destruct (select_run (λ _, Ok tt) (as_world s2)) as (fs2 & r2 & Hc & Hsub2).
  fold Commit in Hc. rewrite Hc. destruct r2 as [[]|e|m]; intros [= <- <-].
  - left. exists a, s1, s2. split_and!; [done..|]. split_and!; eauto.
  - right. split_and!; [done..|]. right. exists s1. rewrite Hfn. eauto.
  - right. split_and!; [done..|]. right. exists s1. rewrite Hfn. eauto.
Qed.

(** *** What programs keep *)

(** A predicate on the accounts and one on the authorization store. *)
Definition kept (Pa : Accounts → Prop) (Pf : X → Prop) (s : AuthState X) : Prop :=
  Pa (as_accounts s) ∧ Pf (as_fga s).

(** A predicate that a failure of the connection does not touch. *)
Class Framed (I : AuthState X → Prop) := framed s s' : same s s' → I s → I s'.

#[export] Instance kept_framed Pa Pf : Framed (kept Pa Pf).
Proof. intros s s' (Ha & Hf & _). unfold kept. by rewrite Ha, Hf. Qed.

Lemma kept_same Pa Pf s s' : same s s' → kept Pa Pf s → kept Pa Pf s'.
Proof. apply framed. Qed.

Lemma preserves_on_world {A} Pa Pf (m : prog World A) : preserves (kept Pa Pf) (on_world m).
Proof. intros s Hs. unfold on_world. by destruct (m (as_world s)). Qed.

Lemma preserves_on_fga {A} Pa (Pf : X → Prop) (m : prog X A) :
  preserves Pf m → preserves (kept Pa Pf) (on_fga m).
Proof.
  intros Hm s [Ha Hf]. unfold on_fga. specialize (Hm _ Hf). by destruct (m (as_fga s)).
Qed.

Lemma framed_account_select {A} I `{!Framed I} (f : AuthState X → res A) :
  preserves I (account_select f).
Proof.
  intros s Hs. destruct (account_select f s) as [s' r] eqn:Hr.
  apply account_select_cases in Hr as [Hsame _]. by apply (framed s).
Qed.

Lemma framed_statement {A} I `{!Framed I} (f : AuthState X → AuthState X * res A) :
  preserves I f → preserves I (statement f).
Proof.
  intros Hf s Hs. destruct (statement f s) as [s' r] eqn:Hr.
  apply statement_cases in Hr as [[Hsame _]|(s1 & Hsame & Hr)]; [by apply (framed s)|].
  specialize (Hf s1 (framed _ _ Hsame Hs)). by rewrite Hr in Hf.
Qed.

Lemma preserves_account_select {A} Pa Pf (f : AuthState X → res A) :
  preserves (kept Pa Pf) (account_select f).
Proof. exact (framed_account_select _ f). Qed.

Lemma preserves_statement {A} Pa Pf (f : AuthState X → AuthState X * res A) :
  preserves (kept Pa Pf) f → preserves (kept Pa Pf) (statement f).
Proof. exact (framed_statement _ f). Qed.

Lemma preserves_transaction {A} Pa Pf fb fc (fn : prog (AuthState X) A) :
  preserves (kept Pa Pf) fn → preserves (kept Pa Pf) (transaction fb fc fn).
Proof.
  intros Hfn s Hs. destruct (transaction fb fc fn s) as [s' r] eqn:Hr.
  apply transaction_cases in Hr as
    [(a & s1 & s2 & _ & H1 & Hrun & H2)|(_ & Ha & _ & [Hf|(s1 & r1 & H1 & Hf & _)])].
  - specialize (Hfn s1 (kept_same _ _ _ _ H1 Hs)). rewrite Hrun in Hfn. by eapply kept_same.
  - destruct Hs. split; cbn; congruence.
  - specialize (Hfn s1 (kept_same _ _ _ _ H1 Hs)). split; cbn.
    + rewrite Ha. apply Hs.
    + rewrite Hf. apply Hfn.
Qed.
End lemmas.

#[export] Hint Resolve preserves_on_world preserves_transaction : preserves.
#[export] Hint Extern 2 (preserves (kept _ _) _) => apply preserves_account_select : preserves.
#[export] Hint Extern 3 (preserves _ (account_select _)) =>
  apply framed_account_select; apply _ : preserves.
