(* ===== verification/Email.v ===== *)
(** * The invitation mails: internal/email/email.go

    The data of the templates, the check of its fields against the escaping of
    html/template and text/template, and the message that is published. *)

From S2P Require Import Prelude GoErrors GoMonad GoStrings EngineErrors Uuid SafeTemplate.
From S2P Require Import EntityEvent Database HistoryDb EntityModels ExecLock Eea Authz.
From Stdlib Require Import Ascii.
Local Open Scope string_scope.

(** ** The escaping of the standard library *)

Module template.
Definition html_special (c : ascii) : option string :=
  match N_of_ascii c with
  | 34%N => Some "&#34;"
  | 39%N => Some "&#39;"
  | 38%N => Some "&amp;"
  | 60%N => Some "&lt;"
  | 62%N => Some "&gt;"
  | 0%N => Some (String "239" (String "191" (String "189" "")))
  | _ => None
  end.

Fixpoint HTMLEscapeString (s : string) : string :=
  match s with
  | EmptyString => EmptyString
  | String c s => match html_special c with
                  | Some t => t +:+ HTMLEscapeString s
                  | None => String c (HTMLEscapeString s)
                  end
  end.

(** The first rune of a string that starts with a byte from 128 up: its bytes,
    and whether [unicode.IsPrint] holds of it; else how it is written. *)
Class Unicode := {
  first_rune : string → nat;
  first_rune_pos : ∀ s, 0 < first_rune s;
  not_printable : string → option string;
}.

Definition hex_digit (n : N) : ascii :=
  if bool_decide (n < 10)%N then ascii_of_N (48 + n) else ascii_of_N (55 + n).

(** Of the bytes below 128; the two digits of [%02X] after [\u00]. *)
Definition js_special (c : ascii) : option string :=
  let n := N_of_ascii c in
  if bool_decide (n = 92 ∨ n = 39 ∨ n = 34)%N then Some (String backslash (String c ""))
  else if bool_decide (n < 32 ∨ n = 60 ∨ n = 62 ∨ n = 38 ∨ n = 61)%N
  then Some (String backslash ("u00" +:+ String (hex_digit (n / 16))
                                           (String (hex_digit (n mod 16)) "")))
  else None.

Fixpoint JSEscape `{Unicode} (fuel : nat) (s : string) : string :=
  match fuel, s with
  | S fuel, String c rest =>
      if bool_decide (N_of_ascii c < 128)%N then
        match js_special c with
        | Some t => t +:+ JSEscape fuel rest
        | None => String c (JSEscape fuel rest)
        end
      else
        let n := first_rune s in
        default (String.substring 0 n s) (not_printable s) +:+ JSEscape fuel (Strings.drop n s)
  | _, _ => EmptyString
  end.

(** The length is fuel enough: every rune has a byte. *)
Definition JSEscaper `{Unicode} (s : string) : string := JSEscape (String.length s) s.
End template.

(** ** email.go *)

Definition ErrValidationFailed : gerr := ENew "email.ErrValidationFailed" "validation failed".

Definition NewErrValidationFailed (fieldName fieldValue : string) (err : gerr) : gerr :=
  EWrap2 "" ErrValidationFailed
    (": field " +:+ fieldName +:+ " failed validation " +:+ fieldValue +:+ ": ") err "".

Definition TopicQueueInviteEmail : string := "invite.email.event".
Definition BodyMaxLength : Z := 10000.
Definition MaxFieldLength : Z := 200.
Definition DefaultMinderTermsURL : string := "https://stacklok.com/stacklok-terms-of-service".
Definition DefaultMinderPrivacyURL : string := "https://stacklok.com/privacy-policy/".

Definition isValidField `{template.Unicode} (str : string) : error :=
  if (MaxFieldLength <? len str)%Z
  then Some (EText ("field value " +:+ str +:+ " is more than 200 characters"))
  else if negb (String.eqb (template.HTMLEscapeString str) str)
  then Some (EText ("string " +:+ str +:+ " contains HTML injection"))
  else if negb (String.eqb (template.JSEscaper str) str)
  then Some (EText ("string " +:+ str +:+ " contains JavaScript injection"))
  else None.

Record bodyData := {
  AdminName : string; OrganizationName : string; OrganizationId : UUID; InvitationCode : string;
  InvitationURL : string; RecipientEmail : string; MinderURL : string; TermsURL : string;
  PrivacyURL : string; SignInURL : string; RoleName : string; RoleVerb : string;
}.

(** The fields that are strings, in their order; the id is not looked at. *)
Definition string_fields (b : bodyData) : list (string * string) :=
  [("AdminName", AdminName b); ("OrganizationName", OrganizationName b);
   ("InvitationCode", InvitationCode b); ("InvitationURL", InvitationURL b);
   ("RecipientEmail", RecipientEmail b); ("MinderURL", MinderURL b); ("TermsURL", TermsURL b);
   ("PrivacyURL", PrivacyURL b); ("SignInURL", SignInURL b); ("RoleName", RoleName b);
   ("RoleVerb", RoleVerb b)].

Fixpoint validate_fields `{template.Unicode} (fields : list (string * string)) : error :=
  match fields with
  | [] => None
  | (name, value) :: fields =>
      match isValidField value with
      | Some err => Some (NewErrValidationFailed name value err)
      | None => validate_fields fields
      end
  end.

Definition Validate `{template.Unicode} (b : bodyData) : error := validate_fields (string_fields b).

(** [AllRolesVerbs] of internal/authz/interface.go; no role has no verb. *)
Definition AllRolesVerbs (r : Role) : string :=
  if String.eqb r RoleAdmin then "administer"
  else if String.eqb r RoleEditor then "edit"
  else if String.eqb r RoleViewer then "view"
  else if String.eqb r RolePolicyWriter then "write policies for"
  else if String.eqb r RolePermissionsManager then "manage permissions for"
  else "".

Record MailEventPayload := {
  Address : string; Subject : string; BodyHTML : string; BodyText : string;
}.

(** The templates' files and encoding/json. *)
Class MailLib `{TextTemplates bodyData} := {
  mail_unicode :: template.Unicode;
  template_file : string → string + gerr;
  payload_Marshal : MailEventPayload → string;
}.

Section email.
Context `{MailLib} `{RandomUuid}.

(** [templateInit], which is done once and keeps its errors. *)
Definition templateInit (new : option string → res (SafeTemplate bodyData)) (file : string)
    : res (SafeTemplate bodyData) :=
  match template_file file with
  | inl content => new (Some content)
  | inr e => Err e
  end.

Definition GetEmailBodyHTML (b : bodyData) : res string :=
  bodyHTML ← templateInit NewSafeHTMLTemplate "invite-email.html.tmpl";
  Render bodyHTML b BodyMaxLength.

Definition GetEmailBodyText (b : bodyData) : res string :=
  bodyText ← templateInit NewSafeTextTemplate "invite-email.txt.tmpl";
  Render bodyText b BodyMaxLength.

Definition GetEmailSubject (b : bodyData) : res string :=
  match isValidField (OrganizationName b) with
  | Some err => Err err
  | None => Ok ("You have been invited to join the " +:+ OrganizationName b
                +:+ " organization in Minder")
  end.

Definition NewMessage `{UuidLib} (inviteeEmail inviteCode inviteURL minderURLBase role : string)
    (projectId : UUID) (projectDisplay sponsorDisplay : string) : prog World message :=
  id ← NewUUID;
  let data := {|
    AdminName := sponsorDisplay; OrganizationId := projectId; OrganizationName := projectDisplay;
    InvitationCode := inviteCode; InvitationURL := inviteURL; RecipientEmail := inviteeEmail;
    MinderURL := minderURLBase; TermsURL := DefaultMinderTermsURL;
    PrivacyURL := DefaultMinderPrivacyURL; SignInURL := minderURLBase; RoleName := role;
    RoleVerb := AllRolesVerbs role |} in
  match Validate data with
  | Some err => throw err
  | None =>
      strBodyHTML ← lift (GetEmailBodyHTML data);
      strBodyText ← lift (GetEmailBodyText data);
      strSubject ← lift (GetEmailSubject data);
      mret {| msg_UUID := uuid_String id; msg_Metadata := ∅;
              msg_Payload := payload_Marshal {|
                Address := inviteeEmail; Subject := strSubject; BodyHTML := strBodyHTML;
                BodyText := strBodyText |} |}
  end.
End email.

(** ** Lemmas *)

Definition chars (s : string) : list ascii := String.list_ascii_of_string s.

Lemma length_chars s : String.length s = length (chars s).
Proof. induction s as [|c s IH]; cbn; [done|]. by rewrite IH. Qed.

(** A byte that the templates write as it is. *)
Definition plain (c : ascii) : Prop :=
  template.html_special c = None ∧ template.js_special c = None.

Definition is_ascii (s : string) : Prop := ∀ c, c ∈ chars s → (N_of_ascii c < 128)%N.

Lemma length_cons c s : String.length (String c s) = S (String.length s).
Proof. done. Qed.

Lemma html_special_long c t : template.html_special c = Some t → 1 < String.length t.
Proof. destruct c as [[][][][][][][][]]; cbn; intros [=]; subst; cbn; lia. Qed.

Lemma js_special_long c t : template.js_special c = Some t → 1 < String.length t.
Proof.
  unfold template.js_special. repeat case_bool_decide; intros Ht; simplify_eq;
    cbn -[template.hex_digit]; rewrite ?length_append; cbn; lia.
Qed.

Lemma HTMLEscapeString_long s :
  (String.length s ≤ String.length (template.HTMLEscapeString s))%nat.
Proof.
  induction s as [|c s IH]; cbn [template.HTMLEscapeString]; [done|].
  destruct (template.html_special c) as [t|] eqn:Ht; rewrite length_cons; [|rewrite length_cons; lia].
  apply html_special_long in Ht. rewrite length_append. lia.
Qed.

(** Escaping leaves a text as it is when it leaves each of its bytes. *)
Lemma HTMLEscapeString_id s :
  template.HTMLEscapeString s = s ↔ ∀ c, c ∈ chars s → template.html_special c = None.
Proof.
  induction s as [|c s IH]; cbn.
  { split; [|done]. intros _ c Hc. by apply not_elem_of_nil in Hc. }
  destruct (template.html_special c) as [t|] eqn:Ht; split.
  - intros Heq. apply (f_equal String.length) in Heq. rewrite length_append, length_cons in Heq.
    apply html_special_long in Ht. pose proof (HTMLEscapeString_long s). lia.
  - intros Hall. rewrite (Hall c) in Ht by left. done.
  - intros [= Heq] c' [->|Hc]%elem_of_cons; [done|]. by apply IH.
  - intros Hall. f_equal. apply IH. intros c' Hc. apply Hall. by right.
Qed.

Section js.
Context `{template.Unicode}.

Lemma JSEscape_long fuel s : is_ascii s → (String.length s ≤ fuel)%nat →
  (String.length s ≤ String.length (template.JSEscape fuel s))%nat.
Proof.
  revert s. induction fuel as [|fuel IH]; intros [|c s] Ha Hf;
    [done|cbn in Hf; lia|done|]. cbn [template.JSEscape]. rewrite length_cons in *.
  assert (Hs : (String.length s ≤ String.length (template.JSEscape fuel s))%nat).
  { apply IH; [intros c' Hc; apply Ha; by right|lia]. }
  rewrite bool_decide_eq_true_2 by (apply Ha; left).
  destruct (template.js_special c) as [t|] eqn:Ht; [|rewrite length_cons; lia].
  apply js_special_long in Ht. rewrite length_append. lia.
Qed.

Lemma JSEscape_id fuel s : is_ascii s → (String.length s ≤ fuel)%nat →
  template.JSEscape fuel s = s ↔ ∀ c, c ∈ chars s → template.js_special c = None.
Proof.
  revert s. induction fuel as [|fuel IH]; intros [|c s] Ha Hf; [| | |].
  1, 3: split; [|done]; intros _ c Hc; by apply not_elem_of_nil in Hc.
  { cbn in Hf. lia. }
  cbn [template.JSEscape chars String.list_ascii_of_string]. rewrite length_cons in Hf.
  assert (Ha' : is_ascii s) by (intros c' Hc; apply Ha; by right).
  rewrite bool_decide_eq_true_2 by (apply Ha; left).
  destruct (template.js_special c) as [t|] eqn:Ht; split.
  - intros Heq. apply (f_equal String.length) in Heq. rewrite length_append, length_cons in Heq.
    apply js_special_long in Ht. pose proof (JSEscape_long fuel s Ha'). lia.
  - intros Hall. rewrite (Hall c) in Ht by left. done.
  - intros [= Heq] c' [->|Hc]%elem_of_cons; [done|].
    by apply (proj1 (IH s Ha' ltac:(lia)) Heq).
  - intros Hall. f_equal. apply IH; [done|lia|]. intros c' Hc. apply Hall. by right.
Qed.

(** What the check of a field lets through.  Of ASCII texts exactly those of
    at most 200 bytes pass that hold no byte html/template or text/template
    would escape: no quotes, angle brackets, ampersands, equals signs or
    backslashes, and no control characters. *)
Theorem isValidField_ascii s : is_ascii s →
  isValidField s = None ↔
  (len s ≤ MaxFieldLength)%Z ∧ ∀ c, c ∈ chars s → plain c.
Proof.
  intros Ha. unfold isValidField, plain.
  destruct (Z.ltb_spec MaxFieldLength (len s)) as [Hl|Hl]; [split; [done|intros [? _]; lia]|].
  destruct (String.eqb_spec (template.HTMLEscapeString s) s) as [Hh|Hh]; cbn [negb].
  - rewrite HTMLEscapeString_id in Hh.
    destruct (String.eqb_spec (template.JSEscaper s) s) as [Hj|Hj]; cbn [negb];
      unfold template.JSEscaper in Hj; rewrite JSEscape_id in Hj by done.
    + split; [|done]. intros _. split; [done|]. intros c Hc. split; [by apply Hh|by apply Hj].
    + split; [done|]. intros [_ Hp]. destruct Hj. intros c Hc. by apply Hp.
  - split; [done|]. intros [_ Hp]. destruct Hh. apply HTMLEscapeString_id. intros c Hc. by apply Hp.
Qed.
End js.

Lemma isValidField_ascii_witness :
  is_ascii "bob@example.com" ∧
  (@isValidField {| template.first_rune _ := 1; template.first_rune_pos _ := le_n 1;
                    template.not_printable _ := None |} "bob@example.com" = None ↔
   (len "bob@example.com" ≤ MaxFieldLength)%Z ∧ ∀ c, c ∈ chars "bob@example.com" → plain c).
Proof.
  assert (Ha : is_ascii "bob@example.com").
  { intros c Hc. cbn in Hc. list_cases Hc; done. }
  split; [exact Ha|]. by apply isValidField_ascii.
Defined.
