(* ===== verification/Invites.v ===== *)
(** * Invitations to projects: internal/invites/invite.go and service.go

    The operations of the invitation service, each in the transaction of its
    caller. *)

From S2P Require Import Prelude GoErrors GoMonad GoStrings GoBase64 Uuid SafeTemplate EntityEvent.
From S2P Require Import Database HistoryDb EntityModels ExecLock Eea Crypto Authz Accounts Email.
From Stdlib Require Import Ascii.
Local Open Scope string_scope.

(** ** invite.go *)

Definition codeByteLength : nat := 48.

Definition expireIn7Days : Z := 7 * 24 * 3600 * 1000000000.

(** The alphabet of [base64.URLEncoding]. *)
Definition url_byte (c : ascii) : ascii :=
  if bool_decide (c = "+"%char) then "-"%char
  else if bool_decide (c = "/"%char) then "_"%char else c.

Definition URLEncodeToString (b : bytes) : string :=
  String.string_of_list_ascii (url_byte <$> Base64.encode b).

(** The empty string when there are no random bytes. *)
Definition GenerateCode `{RandomRead} : prog World string :=
  b ← try (random_bytes codeByteLength);
  match b with
  | inl b => mret (URLEncodeToString b)
  | inr _ => mret ""
  end.

Definition GetExpireIn7Days (t : Z) : Z := t + expireIn7Days.

(** At the time [now]. *)
Definition IsExpired (now t : Z) : bool := (t + expireIn7Days <? now)%Z.

(** ** internal/projects/meta.go *)

Record PublicMetadataV1 := { pm_Description : string; pm_DisplayName : string }.

Record Metadata := {
  meta_Version : string; meta_SelfEnrolled : bool; meta_Description : string;
  meta_Public : PublicMetadataV1;
}.

(** encoding/json on the metadata, and net/url on the address of an
    invitation. *)
Class InviteLib := {
  meta_Unmarshal : string → Metadata + gerr;
  url_Parse : string → string + gerr;
  url_JoinPath : string → string → string → string + gerr;
}.

Definition ParseMetadata `{InviteLib} (proj : ProjectRow) : res Metadata :=
  match meta_Unmarshal (prj_Metadata proj) with
  | inr err => Err err
  | inl meta =>
      Ok {| meta_Version := meta_Version meta; meta_SelfEnrolled := meta_SelfEnrolled meta;
            meta_Description := meta_Description meta;
            meta_Public := {|
              pm_Description := pm_Description (meta_Public meta);
              pm_DisplayName := if String.eqb (pm_DisplayName (meta_Public meta)) ""
                                then prj_Name proj else pm_DisplayName (meta_Public meta) |} |}
  end.

(** ** service.go *)

(** The [minder.Invitation] of the answers. *)
Record Invitation := {
  inv_Role : string; inv_Email : string; inv_Project : string; inv_ProjectDisplay : string;
  inv_Code : string; inv_InviteUrl : string; inv_Sponsor : string; inv_SponsorDisplay : string;
  inv_CreatedAt : Z; inv_ExpiresAt : Z; inv_Expired : bool; inv_EmailSkipped : bool;
}.

(** Of the context of a request: the identity of the caller, and the address and
    the GitHub id of the token. *)
Record Caller := {
  cl_Identity : option Identity; cl_Email : res string; cl_ghId : option string;
}.

(** What the identity providers answer. *)
Class Resolver := { Resolve : string → res Identity }.

Definition one_day : Z := 24 * 3600 * 1000000000.

Section service.
Context `{UuidLib} `{RandomUuid} `{RandomRead} `{InviteLib} `{MailLib} `{Resolver}.
Context {X : Type}.
(** [emailConfig.MinderURLBase] *)
Context (MinderURLBase : string).

Definition time_Now : prog (AuthState X) Z := gets (λ s, w_now (as_world s)).

Definition getInviteUrl (userInvite : UserInvite) : res string :=
  if String.eqb MinderURLBase "" then Ok ""
  else match url_Parse MinderURLBase with
       | inr err => Err (EWrap "error parsing base URL: " err "")
       | inl baseUrl =>
           match url_JoinPath baseUrl "join" (ui_Code userInvite) with
           | inl u => Ok u
           | inr err => Err (EWrap "error joining URL path: " err "")
           end
       end.

Definition project_metadata (prj : ProjectRow) : prog (AuthState X) Metadata :=
  or_throw (failing "Internal" "error parsing project metadata: ") (lift (ParseMetadata prj)).

(** The mail of an invitation, sent in the transaction. *)
Definition send_invite (userInvite : UserInvite) (inviteURL : string) (prj : UUID)
    (display human : string) : prog (AuthState X) unit :=
  msg ← or_throw (λ err, failing (if is_in err ErrValidationFailed then "InvalidArgument"
                                  else "Internal") "error creating email message: " err)
          (on_world (NewMessage (ui_Email userInvite) (ui_Code userInvite) inviteURL MinderURLBase
                       (ui_Role userInvite) prj display human));
  or_throw (failing "Internal" "error publishing event: ")
    (on_world (Publish TopicQueueInviteEmail msg)).

Definition invitation_answer (userInvite : UserInvite) (inviteURL display : string)
    (identity : option Identity) (emailSkipped : bool) (now : Z) : Invitation :=
  {| inv_Role := ui_Role userInvite; inv_Email := ui_Email userInvite;
     inv_Project := uuid_String (ui_Project userInvite); inv_ProjectDisplay := display;
     inv_Code := ui_Code userInvite; inv_InviteUrl := inviteURL;
     inv_Sponsor := Identity_String identity; inv_SponsorDisplay := Identity_Human identity;
     inv_CreatedAt := ui_CreatedAt userInvite; inv_ExpiresAt := GetExpireIn7Days (ui_UpdatedAt userInvite);
     inv_Expired := IsExpired now (ui_UpdatedAt userInvite); inv_EmailSkipped := emailSkipped |}.

Definition UpdateInvite (ctx : Caller) (targetProject : UUID) (authzRole : Role)
    (inviteeEmail : string) : prog (AuthState X) Invitation :=
  let identity := cl_Identity ctx in
  if String.eqb (Identity_String identity) ""
  then throw (status_error "Internal" "failed to get user")
  else
    existingInvites ← or_throw (failing "Internal" "error getting invitations: ")
      (GetInvitationsByEmailAndProject inviteeEmail targetProject);
    match existingInvites with
    | [] => throw (status_error "NotFound" "no invitations found for this email and project")
    | (existing, _) :: [] =>
        userInvite ← or_throw (failing "Internal" "error updating invitation: ")
          (UpdateInvitationRole (ui_Code existing) authzRole);
        prj ← or_throw (failing "Internal" "failed to get project: ")
          (GetProjectRow (ui_Project userInvite));
        meta ← project_metadata prj;
        inviteURL ← wrapf "error getting invite URL: " (lift (getInviteUrl userInvite));
        let sent := negb (String.eqb (ui_Role existing) authzRole)
                    || (one_day <? ui_UpdatedAt userInvite - ui_UpdatedAt existing)%Z in
        (if sent
         then send_invite userInvite inviteURL (ui_Project userInvite)
                (pm_DisplayName (meta_Public meta)) (Identity_Human identity)
         else mret tt);;
        now ← time_Now;
        mret (invitation_answer userInvite inviteURL (prj_Name prj) identity (negb sent) now)
    | _ => throw (status_error "Internal" "multiple invitations found for this email and project")
    end.

Definition RemoveInvite (code : string) : prog (AuthState X) unit :=
  or_throw (failing "Internal" "error deleting invitation: ") (DeleteInvitation code);; mret tt.

Definition CreateInvite (ctx : Caller) (targetProject : UUID) (authzRole : Role)
    (inviteeEmail : string) : prog (AuthState X) Invitation :=
  match cl_Identity ctx with
  | Some identity =>
      if negb (String.eqb (Identity_String (Some identity)) (id_UserID identity))
      then throw (status_error "PermissionDenied" "only human users can create invites")
      else
        currentUser ← or_throw (failing "Internal" "failed to get user: ")
          (GetUserBySubject (Identity_String (Some identity)));
        existingInvites ← or_throw (failing "Internal" "error getting invitations: ")
          (GetInvitationsByEmailAndProject inviteeEmail targetProject);
        if negb (bool_decide (existingInvites = []))
        then throw (status_error "AlreadyExists"
               "invitation for this email and project already exists, use update instead")
        else
          prj ← or_throw (failing "Internal" "failed to get target project: ")
            (GetProjectRow targetProject);
          meta ← project_metadata prj;
          code ← on_world GenerateCode;
          userInvite ← or_throw (failing "Internal" "error creating invitation: ")
            (CreateInvitation code inviteeEmail authzRole targetProject currentUser);
          inviteURL ← wrapf "error getting invite URL: " (lift (getInviteUrl userInvite));
          send_invite userInvite inviteURL targetProject (pm_DisplayName (meta_Public meta))
            (Identity_Human (Some identity));;
          now ← time_Now;
          mret (invitation_answer userInvite inviteURL (prj_Name prj) (Some identity) false now)
  | None => throw (status_error "PermissionDenied" "only human users can create invites")
  end.

(** An invitation with the subject of its sponsor. *)
Definition invitation_of (i : UserInvite) (project code : string) (sponsor : string) (now : Z)
    : Invitation :=
  {| inv_Role := ui_Role i; inv_Email := ui_Email i; inv_Project := project;
     inv_ProjectDisplay := ""; inv_Code := code; inv_InviteUrl := ""; inv_Sponsor := sponsor;
     inv_SponsorDisplay := ""; inv_CreatedAt := ui_CreatedAt i;
     inv_ExpiresAt := GetExpireIn7Days (ui_UpdatedAt i);
     inv_Expired := IsExpired now (ui_UpdatedAt i); inv_EmailSkipped := false |}.

Fixpoint invites_for_self (userInvites : list (UserInvite * string))
    : prog (AuthState X) (list Invitation) :=
  match userInvites with
  | [] => mret []
  | (i, subject) :: userInvites =>
      identity ← or_throw (λ _, status_error "NotFound"
          ("could not find identity " +:+ String dquote (subject +:+ String dquote "")))
        (lift (Resolve subject));
      targetProject ← or_throw (failing "Internal" "failed to get project: ")
        (GetProjectRow (ui_Project i));
      meta ← project_metadata targetProject;
      now ← time_Now;
      let invitation := {|
        inv_Role := ui_Role i; inv_Email := ui_Email i; inv_Project := uuid_String (ui_Project i);
        inv_ProjectDisplay := pm_DisplayName (meta_Public meta); inv_Code := ui_Code i;
        inv_InviteUrl := ""; inv_Sponsor := Identity_String (Some identity);
        inv_SponsorDisplay := Identity_Human (Some identity); inv_CreatedAt := ui_CreatedAt i;
        inv_ExpiresAt := GetExpireIn7Days (ui_UpdatedAt i);
        inv_Expired := IsExpired now (ui_UpdatedAt i); inv_EmailSkipped := false |} in
      invitations ← invites_for_self userInvites;
      mret (invitation :: invitations)
  end.

Definition GetInvitesForSelf (ctx : Caller) : prog (AuthState X) (list Invitation) :=
  tokenEmail ← or_throw (failing "Internal" "failed to get user email: ") (lift (cl_Email ctx));
  userInvites ← or_throw (failing "Internal" "failed to get invitations: ")
    (GetInvitationsByEmail tokenEmail);
  invites_for_self userInvites.

Definition GetInvite (ctx : Caller) (code : string) : prog (AuthState X) Invitation :=
  row ← or_throw (λ err, if is_in err ErrNoRows
                         then status_error "NotFound" "invitation not found or already used"
                         else failing "Internal" "failed to get invitation: " err)
          (GetInvitationByCode code);
  let '(userInvite, sponsor) := row in
  let invoker := cl_Identity ctx in
  match invoker with
  | Some id =>
      if String.eqb (Identity_String invoker) ""
         || negb (String.eqb (Identity_String invoker) (id_UserID id))
      then throw (status_error "FailedPrecondition" "this type of user cannot use invitations")
      else
        user ← try (GetUserBySubject (Identity_String invoker));
        (match user with
         | inl user => if Z.eqb user (ui_Sponsor userInvite)
                       then throw (status_error "InvalidArgument"
                                     "users cannot accept their own invitations")
                       else mret tt
         | inr err => if is_in err ErrNoRows then mret tt
                      else throw (failing "Internal" "failed to get user: " err)
         end);;
        now ← time_Now;
        if IsExpired now (ui_UpdatedAt userInvite)
        then throw (status_error "PermissionDenied" "invitation expired")
        else mret (invitation_of userInvite (uuid_String (ui_Project userInvite)) code sponsor now)
  | None => throw (status_error "FailedPrecondition" "this type of user cannot use invitations")
  end.

Definition GetInvitesForEmail (targetProject : UUID) (inviteeEmail : string)
    : prog (AuthState X) (list Invitation) :=
  candidates ← or_throw (failing "Internal" "error getting invitation: ")
    (GetInvitationsByEmailAndProject inviteeEmail targetProject);
  now ← time_Now;
  mret ((λ row, invitation_of row.1 (uuid_String (ui_Project row.1)) (ui_Code row.1) row.2 now)
          <$> candidates).

(** For the administrators of the project, without the codes. *)
Definition ListInvitationsForProject (targetProject : UUID)
    : prog (AuthState X) (list Invitation) :=
  rows ← or_throw (failing "Internal" "error listing invitations: ")
    (ListInvitationsForProject_query targetProject);
  now ← time_Now;
  mret ((λ row, invitation_of row.1 (uuid_String targetProject) "" row.2 now) <$> rows).
End service.

(** ** The codes *)

(** Whole groups of three bytes are four letters of the alphabet each. *)
Lemma encode_groups n : ∀ l : bytes, length l = (3 * n)%nat →
  length (Base64.encode l) = (4 * n)%nat ∧
  ∀ c, c ∈ Base64.encode l → ∃ k, (0 ≤ k < 64)%Z ∧ c = Base64.enc k.
Proof.
  induction n as [|n IH]; intros [|a [|b [|c l]]] Hl; cbn [length] in Hl; try lia.
  { split; [done|]. intros c Hc. by apply not_elem_of_nil in Hc. }
  cbn [Base64.encode length]. destruct (IH l) as [Hlen Hin]; [lia|]. split; [lia|].
  intros d Hd. repeat (apply elem_of_cons in Hd as [->|Hd];
    [eexists; split; [|reflexivity]; Base64.bounds_then Base64.sextet|]). by apply Hin.
Qed.

(** The letters of a code, none of which needs to be escaped. *)
Definition code_letter (c : ascii) : Prop := (N_of_ascii c < 128)%N ∧ plain c.

#[export] Instance code_letter_dec c : Decision (code_letter c).
Proof. unfold code_letter, plain. apply _. Defined.

Lemma url_enc_letter k : (0 ≤ k < 64)%Z → code_letter (url_byte (Base64.enc k)).
Proof.
  intros Hk. apply (bool_decide_unpack (code_letter (url_byte (Base64.enc k)))), Is_true_true.
  refine (Base64.all64_spec (λ k, bool_decide (code_letter (url_byte (Base64.enc k)))) k _ Hk).
  by vm_compute.
Qed.

Lemma url_enc_inj j k : (0 ≤ j < 64)%Z → (0 ≤ k < 64)%Z →
  url_byte (Base64.enc j) = url_byte (Base64.enc k) → Base64.enc j = Base64.enc k.
Proof.
  intros Hj Hk.
  assert (Hall : Base64.all64 (λ j, Base64.all64 (λ k,
    bool_decide (url_byte (Base64.enc j) = url_byte (Base64.enc k) → Base64.enc j = Base64.enc k)))
    = true) by (by vm_compute).
  pose proof (Base64.all64_spec _ j Hall Hj) as Hall'. cbn beta in Hall'.
  pose proof (Base64.all64_spec _ k Hall' Hk) as Hjk. cbn beta in Hjk.
  exact (bool_decide_eq_true_1 _ Hjk).
Qed.

Lemma chars_string_of (b : bytes) : chars (String.string_of_list_ascii b) = b.
Proof. apply String.list_ascii_of_string_of_list_ascii. Qed.

Lemma url_encode_inj (l1 l2 : list ascii) :
  (∀ c, c ∈ l1 → ∃ k, (0 ≤ k < 64)%Z ∧ c = Base64.enc k) →
  (∀ c, c ∈ l2 → ∃ k, (0 ≤ k < 64)%Z ∧ c = Base64.enc k) →
  url_byte <$> l1 = url_byte <$> l2 → l1 = l2.
Proof.
  revert l2. induction l1 as [|c l1 IH]; intros [|d l2] H1 H2; [done..|]. cbn.
  intros [= Hc Hl]. f_equal.
  - destruct (H1 c) as (j & Hj & ->); [by left|]. destruct (H2 d) as (k & Hk & ->); [by left|].
    by apply url_enc_inj.
  - apply IH; [intros x Hx; apply H1; by right|intros x Hx; apply H2; by right|done].
Qed.

(** The code of 48 random bytes: different bytes, different codes; 64 letters,
    which a mail may hold. *)
Lemma code_inj (b1 b2 : bytes) :
  length b1 = codeByteLength → length b2 = codeByteLength →
  URLEncodeToString b1 = URLEncodeToString b2 → b1 = b2.
Proof.
  intros Hl1 Hl2 Heq. apply (f_equal chars) in Heq. unfold URLEncodeToString in Heq.
  rewrite !chars_string_of in Heq.
  apply url_encode_inj in Heq; [|by apply (encode_groups 16)..].
  apply (f_equal Base64.decode_quanta) in Heq. rewrite !Base64.decode_encode in Heq. congruence.
Qed.

Lemma code_valid `{template.Unicode} (b : bytes) :
  length b = codeByteLength →
  String.length (URLEncodeToString b) = 64%nat ∧ isValidField (URLEncodeToString b) = None.
Proof.
  intros Hl. destruct (encode_groups 16 b Hl) as [Hlen Hin].
  assert (Hletters : ∀ c, c ∈ chars (URLEncodeToString b) → code_letter c).
  { unfold URLEncodeToString. rewrite chars_string_of.
    intros c (d & -> & (k & Hk & ->)%Hin)%list_elem_of_fmap. by apply url_enc_letter. }
  assert (Hlength : String.length (URLEncodeToString b) = 64%nat).
  { rewrite length_chars. unfold URLEncodeToString. rewrite chars_string_of, length_fmap. exact Hlen. }
  split; [done|]. apply isValidField_ascii; [intros c Hc; by apply Hletters|]. split.
  - unfold EngineErrors.len, MaxFieldLength. rewrite Hlength. lia.
  - intros c Hc. by apply Hletters.
Qed.

(** The codes of invitations.  A code made while there are random bytes has
    64 letters, all of which the check of the mails lets through, and no two
    draws of different bytes give the same code. *)
Theorem GenerateCode_codes `{RandomRead} `{template.Unicode} w1 w2 :
  (∀ i, ∃ b, rand_Read i codeByteLength = inl b) →
  ∃ w1' w2' c1 c2, GenerateCode w1 = (w1', Ok c1) ∧ GenerateCode w2 = (w2', Ok c2) ∧
    String.length c1 = 64%nat ∧ isValidField c1 = None ∧
    (rand_Read (w_fresh w1) codeByteLength ≠ rand_Read (w_fresh w2) codeByteLength → c1 ≠ c2).
Proof.
  intros Hr. destruct (Hr (w_fresh w1)) as [b1 Hb1], (Hr (w_fresh w2)) as [b2 Hb2].
  pose proof (rand_length _ _ _ Hb1) as Hl1. pose proof (rand_length _ _ _ Hb2) as Hl2.
  unfold GenerateCode, mbind, prog_bind, try, random_bytes. rewrite Hb1, Hb2.
  eexists _, _, _, _. split; [reflexivity|]. split; [reflexivity|].
  destruct (code_valid b1 Hl1) as [Hlen Hval]. split; [done|]. split; [done|].
  intros Hne Heq. apply Hne. f_equal. by apply code_inj.
Qed.

Lemma GenerateCode_codes_witness :
  ∃ w c, @GenerateCode ex_random (ex_world ex_db []) = (w, Ok c) ∧ String.length c = 64%nat.
Proof.
  destruct (@GenerateCode_codes ex_random {| template.first_rune _ := 1;
      template.first_rune_pos _ := le_n 1; template.not_printable _ := None |}
    (ex_world ex_db []) (ex_world ex_db []) (λ i, ex_intro _ _ eq_refl))
    as (w & _ & c & _ & Hc & _ & Hlen & _).
  exists w, c. split; [exact Hc|exact Hlen].
Defined.

(** Without random bytes every code is empty. *)
Lemma GenerateCode_empty `{RandomRead} w e :
  rand_Read (w_fresh w) codeByteLength = inr e → (GenerateCode w).2 = Ok "".
Proof. intros Hr. unfold GenerateCode, mbind, prog_bind, try, random_bytes. by rewrite Hr. Qed.
