(* ===== verification/Roles.v ===== *)
(** * Roles in projects: internal/roles/service.go and the handlers

    Role assignments live in the authorization store alone; a handler of
    handlers_authz.go or handlers_user.go runs its statements in a transaction
    that the store does not take part in. *)

From S2P Require Import Prelude GoErrors GoMonad GoStrings GoBase64 Uuid SafeTemplate EntityEvent.
From S2P Require Import Database HistoryDb EntityModels ExecLock Eea Crypto Authz Accounts Email.
From S2P Require Import Invites.
Local Open Scope string_scope.

Definition role_answer (role : Role) (subject project : string) : RoleAssignment :=
  {| ra_Subject := subject; ra_Role := role; ra_Project := Some project; ra_DisplayName := "";
     ra_FirstName := ""; ra_LastName := "" |}.

Definition quote (s : string) : string := String dquote (s +:+ String dquote "").

(** [GitHubProviderService] of internal/providers/github/service: a project for
    an installation, if the user is known. *)
Class GitHubProviders (X : Type) := {
  CreateGitHubAppWithoutInvitation : Z → Z → prog (AuthState X) (option dbProject);
}.

Section roles.
Context `{UuidLib} `{RandomUuid} `{RandomRead} `{InviteLib} `{MailLib} `{Resolver}.
Context {X : Type} `{!OpenFGA X} `{!GitHubProviders X}.
Context (MinderURLBase : string).

(** ** roles/service.go *)

(** Humans are users of the database. *)
Definition user_exists (identity : Identity) : prog (AuthState X) unit :=
  if String.eqb (id_Provider identity) ""
  then or_throw (λ err, if is_in err ErrNoRows then status_error "NotFound" "User not found"
                        else failing "Internal" "error getting user: " err)
         (GetUserBySubject (Identity_String (Some identity)));; mret tt
  else mret tt.

Definition role_assignments (targetProject : UUID) : prog (AuthState X) (list RoleAssignment) :=
  or_throw (failing "Internal" "error getting role assignments: ")
    (on_fga (AssignmentsToProject targetProject)).

Definition write_role (subject : string) (authzRole : Role) (targetProject : UUID)
    : prog (AuthState X) unit :=
  or_throw (failing "Internal" "error writing role assignment: ")
    (on_fga (Write subject authzRole targetProject)).

Definition CreateRoleAssignment (targetProject : UUID) (identity : Identity) (authzRole : Role)
    : prog (AuthState X) RoleAssignment :=
  user_exists identity;;
  assigned ← role_assignments targetProject;
  if existsb (λ a, String.eqb (ra_Subject a) (Identity_String (Some identity))) assigned
  then throw (status_error "AlreadyExists"
         "role assignment for this user already exists, use update instead")
  else
    write_role (Identity_String (Some identity)) authzRole targetProject;;
    mret (role_answer authzRole (Identity_Human (Some identity)) (uuid_String targetProject)).

Definition resolve (sub : string) : prog (AuthState X) Identity :=
  or_throw (λ _, status_error "NotFound" ("could not find identity " +:+ quote sub))
    (lift (Resolve sub)).

Definition UpdateRoleAssignment (targetProject : UUID) (sub : string) (authzRole : Role)
    : prog (AuthState X) RoleAssignment :=
  identity ← resolve sub;
  let subject := Identity_String (Some identity) in
  user_exists identity;;
  assigned ← role_assignments targetProject;
  foreach (λ a,
    if String.eqb (ra_Subject a) subject then
      roleToDelete ← or_throw (failing "Internal" "") (lift (ParseRole (ra_Role a)));
      or_throw (failing "Internal" "error deleting previous role assignment: ")
        (on_fga (Delete subject roleToDelete targetProject))
    else mret tt) assigned;;
  write_role subject authzRole targetProject;;
  mret (role_answer authzRole (id_UserID identity) (uuid_String targetProject)).

Definition RemoveRoleAssignment (targetProject : UUID) (sub : string) (roleToRemove : Role)
    : prog (AuthState X) RoleAssignment :=
  identity ← resolve sub;
  let subject := Identity_String (Some identity) in
  user_exists identity;;
  assigned ← role_assignments targetProject;
  let found := existsb (λ a, String.eqb (ra_Subject a) subject
                             && String.eqb (ra_Role a) roleToRemove) assigned in
  let adminRolesCnt := length (filter (λ a, ra_Role a = RoleAdmin) assigned) in
  if negb found
  then throw (status_error "NotFound" "role assignment for this user does not exist")
  else if String.eqb roleToRemove RoleAdmin && bool_decide (adminRolesCnt ≤ 1)%nat
  then throw (status_error "FailedPrecondition" "cannot remove the last admin from the project")
  else
    or_throw (failing "Internal" "error writing role assignment: ")
      (on_fga (Delete subject roleToRemove targetProject));;
    mret (role_answer roleToRemove (Identity_Human (Some identity)) (uuid_String targetProject)).

(** ** handlers_authz.go *)

(** The role, the subject and the address of a request. *)
Record RoleRequest := { rq_Role : string; rq_Subject : string; rq_Email : string }.

Definition isUserSelfUpdating (ctx : Caller) (subject inviteeEmail : string)
    : prog (AuthState X) unit :=
  if negb (String.eqb subject "") && String.eqb (Identity_String (cl_Identity ctx)) subject
  then throw (status_error "InvalidArgument" "cannot update your own role")
  else if negb (String.eqb inviteeEmail "") then
    tokenEmail ← or_throw (failing "Internal" "error getting user email from token: ")
                   (lift (cl_Email ctx));
    if String.eqb tokenEmail inviteeEmail
    then throw (status_error "InvalidArgument" "cannot update your own role")
    else mret tt
  else mret tt.

Definition parse_role (role : string) : prog (AuthState X) Role :=
  or_throw (failing "InvalidArgument" "") (lift (ParseRole role)).

Definition AssignRole (ctx : Caller) (targetProject : UUID) (req : RoleRequest)
    : prog (AuthState X) (Invitation + RoleAssignment) :=
  let sub := rq_Subject req in
  let inviteeEmail := rq_Email req in
  isUserSelfUpdating ctx sub inviteeEmail;;
  authzRole ← parse_role (rq_Role req);
  or_throw (λ err, if is_in err ErrNoRows
                   then status_error "InvalidArgument"
                          ("target project with ID " +:+ uuid_String targetProject +:+ " not found")
                   else failing "Internal" "error getting project: " err)
    (GetProjectRow targetProject);;
  if String.eqb sub "" && negb (String.eqb inviteeEmail "") then
    invitation ← in_transaction (CreateInvite MinderURLBase ctx targetProject authzRole inviteeEmail);
    mret (inl invitation)
  else if negb (String.eqb sub "") && String.eqb inviteeEmail "" then
    identity ← resolve sub;
    if String.eqb (id_Provider identity) ""
    then throw (status_error "Unimplemented" "human users may only be added by invitation")
    else
      assignment ← in_transaction (CreateRoleAssignment targetProject identity authzRole);
      mret (inr assignment)
  else throw (status_error "InvalidArgument" "one of subject or email must be specified").

Fixpoint remove_invitation (authzRole : Role) (missing : gerr) (invites : list Invitation)
    : prog (AuthState X) Invitation :=
  match invites with
  | [] => throw missing
  | i :: invites =>
      if String.eqb (inv_Role i) authzRole
      then RemoveInvite (inv_Code i);; mret i
      else remove_invitation authzRole missing invites
  end.

Definition RemoveRole (targetProject : UUID) (req : RoleRequest)
    : prog (AuthState X) (Invitation + RoleAssignment) :=
  let sub := rq_Subject req in
  let inviteeEmail := rq_Email req in
  authzRole ← parse_role (rq_Role req);
  if String.eqb sub "" && negb (String.eqb inviteeEmail "") then
    deleted ← in_transaction (
      invites ← GetInvitesForEmail targetProject inviteeEmail;
      remove_invitation authzRole
        (status_error "NotFound" ("no invitation found for email " +:+ inviteeEmail +:+
           " with role " +:+ authzRole +:+ " in project " +:+ uuid_String targetProject))
        invites);
    mret (inl deleted)
  else if negb (String.eqb sub "") && String.eqb inviteeEmail "" then
    deleted ← in_transaction (RemoveRoleAssignment targetProject sub authzRole);
    mret (inr deleted)
  else throw (status_error "InvalidArgument" "one of subject or email must be specified").

Definition UpdateRole (ctx : Caller) (targetProject : UUID) (roles : list string)
    (sub inviteeEmail : string) : prog (AuthState X) (Invitation + RoleAssignment) :=
  match roles with
  | [role] =>
      isUserSelfUpdating ctx sub inviteeEmail;;
      authzRole ← parse_role role;
      if String.eqb sub "" && negb (String.eqb inviteeEmail "") then
        updated ← in_transaction
          (UpdateInvite MinderURLBase ctx targetProject authzRole inviteeEmail);
        mret (inl updated)
      else if negb (String.eqb sub "") && String.eqb inviteeEmail "" then
        updated ← in_transaction (UpdateRoleAssignment targetProject sub authzRole);
        mret (inr updated)
      else throw (status_error "InvalidArgument" "one of subject or email must be specified")
  | _ => throw (status_error "InvalidArgument" "only one role can be updated at a time")
  end.

(** Each assignment with its names, and the names of the subjects so far. *)
Fixpoint name_subjects (assigned : list RoleAssignment) (mapIdToDisplay : gmap string string)
    : list RoleAssignment * gmap string string :=
  match assigned with
  | [] => ([], mapIdToDisplay)
  | a :: assigned =>
      let '(display, first, last) :=
        match Resolve (ra_Subject a) with
        | Ok identity => (Identity_Human (Some identity), id_FirstName identity, id_LastName identity)
        | _ => (ra_Subject a, ra_FirstName a, ra_LastName a)
        end in
      let m := if String.eqb (default "" (mapIdToDisplay !! ra_Subject a)) ""
               then <[ra_Subject a := display]> mapIdToDisplay else mapIdToDisplay in
      let '(named, m) := name_subjects assigned m in
      ({| ra_Subject := ra_Subject a; ra_Role := ra_Role a; ra_Project := ra_Project a;
          ra_DisplayName := display; ra_FirstName := first; ra_LastName := last |} :: named, m)
  end.

Definition with_sponsor_display (display : string) (i : Invitation) : Invitation :=
  {| inv_Role := inv_Role i; inv_Email := inv_Email i; inv_Project := inv_Project i;
     inv_ProjectDisplay := inv_ProjectDisplay i; inv_Code := inv_Code i;
     inv_InviteUrl := inv_InviteUrl i; inv_Sponsor := inv_Sponsor i; inv_SponsorDisplay := display;
     inv_CreatedAt := inv_CreatedAt i; inv_ExpiresAt := inv_ExpiresAt i;
     inv_Expired := inv_Expired i; inv_EmailSkipped := inv_EmailSkipped i |}.

(** The invitations are left out when they cannot be read. *)
Definition ListRoleAssignments (targetProject : UUID)
    : prog (AuthState X) (list RoleAssignment * list Invitation) :=
  assigned ← role_assignments targetProject;
  let '(named, mapIdToDisplay) := name_subjects assigned ∅ in
  projectInvites ← try (ListInvitationsForProject targetProject);
  mret (named, match projectInvites with
               | inl l => (λ i, with_sponsor_display (default "" (mapIdToDisplay !! inv_Sponsor i)) i)
                            <$> l
               | inr _ => []
               end).

(** ** handlers_user.go *)

Definition ListInvitations (ctx : Caller) : prog (AuthState X) (list Invitation) :=
  GetInvitesForSelf ctx.

Fixpoint claim_installs (userID : Z) (installs : list Z) : prog (AuthState X) (list dbProject) :=
  match installs with
  | [] => mret []
  | i :: installs =>
      proj ← try (CreateGitHubAppWithoutInvitation userID i);
      userProjects ← claim_installs userID installs;
      mret (match proj with inl (Some p) => p :: userProjects | _ => userProjects end)
  end.

(** Its errors are only logged. *)
Definition claimGitHubInstalls (ctx : Caller) : prog (AuthState X) (list dbProject) :=
  match cl_ghId ctx with
  | Some ghId =>
      if String.eqb ghId "" then mret []
      else
        installs ← try (GetUnclaimedInstallationsByUser ghId);
        match installs, Strconv.ParseInt ghId with
        | inl installs, Some userID => claim_installs userID installs
        | _, _ => mret []
        end
  | None => mret []
  end.

Definition ensureUser (ctx : Caller) : prog (AuthState X) Z :=
  let sub := Identity_String (cl_Identity ctx) in
  if String.eqb sub "" then throw (status_error "Internal" "failed to get user subject")
  else
    user ← try (GetUserBySubject sub);
    match user with
    | inl user => mret user
    | inr err =>
        if is_in err ErrNoRows then
          user ← or_throw (failing "Internal" "failed to create user: ") (CreateUser sub);
          claimGitHubInstalls ctx;;
          mret user
        else throw err
    end.

(** The assignments of the user go, one by one. *)
Fixpoint revoke_roles (currentUser role : string) (assigned : list RoleAssignment)
    : prog (AuthState X) unit :=
  match assigned with
  | [] => mret tt
  | existing :: assigned =>
      if String.eqb (ra_Subject existing) currentUser then
        if String.eqb (ra_Role existing) role
        then throw (status_error "AlreadyExists" "user already has the same role in the project")
        else
          existingRole ← or_throw (failing "Internal" "failed to parse existing role: ")
            (lift (ParseRole (ra_Role existing)));
          existingProject ← or_throw (failing "Internal" "failed to parse existing project: ")
            (lift match ra_Project existing with
                  | Some p => uuid_Parse p
                  | None => Panic "nil pointer dereference"
                  end);
          or_throw (failing "Internal" "error writing role assignment: ")
            (on_fga (Delete currentUser existingRole existingProject));;
          revoke_roles currentUser role assigned
      else revoke_roles currentUser role assigned
  end.

Definition acceptInvitation (ctx : Caller) (projectID : UUID) (userInvite : Invitation)
    : prog (AuthState X) unit :=
  assigned ← role_assignments projectID;
  let currentUser := Identity_String (cl_Identity ctx) in
  revoke_roles currentUser (inv_Role userInvite) assigned;;
  authzRole ← or_throw (failing "Internal" "failed to parse invitation role: ")
    (lift (ParseRole (inv_Role userInvite)));
  write_role currentUser authzRole projectID.

Record ResolveInvitationResponse := {
  ri_Role : string; ri_Project : string; ri_ProjectDisplay : string; ri_Email : string;
  ri_IsAccepted : bool;
}.

Definition ResolveInvitation (ctx : Caller) (code : string) (accept : bool)
    : prog (AuthState X) ResolveInvitationResponse :=
  resolved ← transaction (λ _, status_error "Internal" "failed to begin transaction")
    (failing "Internal" "failed to commit transaction: ")
    (invite ← GetInvite ctx code;
     project ← or_throw (failing "Internal" "failed to parse project ID: ")
       (lift (uuid_Parse (inv_Project invite)));
     (if accept : bool then
        or_throw (failing "Internal" "failed to get or create user: ") (ensureUser ctx);;
        acceptInvitation ctx project invite
      else mret tt);;
     or_throw (failing "Internal" "failed to delete invitation: ") (RemoveInvite code);;
     targetProject ← or_throw (failing "Internal" "failed to get project: ")
       (GetProjectRow project);
     mret (invite, targetProject));
  let '(invite, targetProject) := resolved in
  meta ← project_metadata targetProject;
  mret {| ri_Role := inv_Role invite; ri_Project := inv_Project invite;
          ri_ProjectDisplay := pm_DisplayName (meta_Public meta); ri_Email := inv_Email invite;
          ri_IsAccepted := accept |}.
End roles.
