(* ===== verification/Membership.v ===== *)
(** * What the requests on members and invitations do

    The requests of Roles.v as steps of a server, next to whatever the rest of
    the server does to its database in between. *)

From S2P Require Import Prelude GoErrors GoMonad GoStrings GoBase64 Uuid SafeTemplate EntityEvent.
From S2P Require Import Database HistoryDb EntityModels ExecLock Eea Crypto Authz Accounts Email.
From S2P Require Import Invites Roles.
Local Open Scope string_scope.

(** ** The requests *)

Inductive request :=
| AssignRoleRequest (ctx : Caller) (project : UUID) (req : RoleRequest)
| RemoveRoleRequest (project : UUID) (req : RoleRequest)
| UpdateRoleRequest (ctx : Caller) (project : UUID) (roles : list string) (sub email : string)
| ListRoleAssignmentsRequest (project : UUID)
| ListInvitationsRequest (ctx : Caller)
| ResolveInvitationRequest (ctx : Caller) (code : string) (accept : bool).

(** A role is changed in place: by an update, or by accepting an invitation. *)
Definition replaces_role (q : request) : Prop :=
  match q with
  | UpdateRoleRequest _ _ _ sub _ => sub ≠ ""
  | ResolveInvitationRequest _ _ accept => accept = true
  | _ => False
  end.

Section membership.
Context `{UuidLib} `{RandomUuid} `{RandomRead} `{InviteLib} `{MailLib} `{Resolver}.
Context {X : Type} `{!OpenFGA X} `{!GitHubProviders X}.
Context (MinderURLBase : string).
Implicit Types s : AuthState X.

Definition ignore {A} (m : prog (AuthState X) A) : prog (AuthState X) unit := m;; mret tt.

Definition handle (q : request) : prog (AuthState X) unit :=
  match q with
  | AssignRoleRequest ctx project req => ignore (AssignRole MinderURLBase ctx project req)
  | RemoveRoleRequest project req => ignore (RemoveRole project req)
  | UpdateRoleRequest ctx project roles sub email =>
      ignore (UpdateRole MinderURLBase ctx project roles sub email)
  | ListRoleAssignmentsRequest project => ignore (ListRoleAssignments project)
  | ListInvitationsRequest ctx => ignore (ListInvitations ctx)
  | ResolveInvitationRequest ctx code accept => ignore (ResolveInvitation ctx code accept)
  end.

(** A request that satisfies [P] has been answered, well or not; or the database
    and the clock have moved on. *)
Inductive step (P : request → Prop) s : AuthState X → Prop :=
| step_request q : P q → step P s (handle q s).1
| step_other w : step P s (with_world w s).

(** Someone administrates the project. *)
Definition has_admin (project : UUID) (x : X) : Prop :=
  ∃ user, (user, RoleAdmin, getProjectForTuple project) ∈ fga_tuples x.

(** Every invitation is in the table under its code, its sponsor is a user, and
    there is one at most for an address and a project. *)
Definition invitations_wf (a : Accounts) : Prop :=
  (∀ code i, ac_invites a !! code = Some i →
     ui_Code i = code ∧ is_Some (ac_users a !! ui_Sponsor i)) ∧
  ∀ code1 code2 i1 i2, ac_invites a !! code1 = Some i1 → ac_invites a !! code2 = Some i2 →
    ui_Email i1 = ui_Email i2 → ui_Project i1 = ui_Project i2 → code1 = code2.

(** A project for an installation leaves the users and the invitations alone;
    the roles it gives are in projects that are new. *)
Record github_laws : Prop := {
  gh_accounts : ∀ user install s,
    let s' := (CreateGitHubAppWithoutInvitation user install s).1 in
    ac_invites (as_accounts s') = ac_invites (as_accounts s) ∧
    ac_users (as_accounts s') = ac_users (as_accounts s);
  gh_projects : ∀ user install s,
    projects (w_db (as_world s))
      ⊆ projects (w_db (as_world (CreateGitHubAppWithoutInvitation user install s).1));
  gh_tuples : ∀ user install s project u role,
    project ∈ projects (w_db (as_world s)) →
    (u, role, getProjectForTuple project)
      ∈ fga_tuples (as_fga (CreateGitHubAppWithoutInvitation user install s).1) ↔
    (u, role, getProjectForTuple project) ∈ fga_tuples (as_fga s);
}.

(** [keeps] goes through a program whose parts are known to keep the predicate. *)
Ltac keeps :=
  repeat (intros; first
    [ progress (eauto with preserves nocore)
    | apply preserves_bind | apply preserves_or_throw | apply preserves_wrapf
    | apply preserves_try | apply preserves_foreach | apply preserves_transaction
    | case_match; simplify_eq ]).

(** The loops of the handlers keep what their steps keep. *)
Section loops.
Context (I : AuthState X → Prop).

Lemma preserves_remove_invitation role missing invites :
  (∀ code, preserves I (DeleteInvitation code)) →
  preserves I (remove_invitation role missing invites).
Proof. intros Hd. induction invites; cbn; unfold RemoveInvite; keeps. Qed.

Lemma preserves_claim_installs user installs :
  (∀ install, preserves I (CreateGitHubAppWithoutInvitation user install)) →
  preserves I (claim_installs user installs).
Proof. intros Hd. induction installs; cbn; keeps. Qed.

Lemma preserves_invites_for_self rows :
  (∀ id, preserves I (GetProjectRow id)) → preserves I (invites_for_self rows).
Proof.
  intros Hd. induction rows as [|[i sub] rows IH]; cbn; unfold project_metadata, time_Now; keeps.
Qed.

Lemma preserves_revoke_roles user role assigned :
  (∀ r p, preserves I (on_fga (Delete user r p))) → preserves I (revoke_roles user role assigned).
Proof. intros Hd. induction assigned; cbn; keeps. Qed.
End loops.
#[local] Hint Resolve preserves_remove_invitation preserves_claim_installs
  preserves_invites_for_self preserves_revoke_roles : preserves.

Ltac open_handlers :=
  unfold handle, ignore, AssignRole, RemoveRole, UpdateRole, ListRoleAssignments,
    ListInvitations, ResolveInvitation, isUserSelfUpdating, parse_role, in_transaction,
    CreateRoleAssignment, RemoveRoleAssignment, UpdateInvite, UpdateRoleAssignment, user_exists,
    role_assignments, write_role, resolve, send_invite, project_metadata, time_Now,
    GetInvitesForEmail, ListInvitationsForProject, GetInvitesForSelf, GetInvite, RemoveInvite,
    ensureUser, acceptInvitation, claimGitHubInstalls.

Section invitations.
Context (G : github_laws).

(** ** Invitations are unique *)

Lemma invitations_wf_users a u :
  (∀ id, is_Some (ac_users a !! id) → is_Some (u !! id)) →
  invitations_wf a → invitations_wf (set_users u a).
Proof.
  intros Hu [Hi Hone]. split; [|exact Hone]. intros code i Hc. cbn in Hc.
  destruct (Hi _ _ Hc) as [Hcode Hs]. split; [done|]. by apply Hu.
Qed.

Lemma invitations_wf_delete a code :
  invitations_wf a → invitations_wf (set_invites (delete code (ac_invites a)) a).
Proof.
  intros [Hi Hone]. split; cbn.
  - intros c i [_ Hc]%lookup_delete_Some. by apply Hi.
  - intros c1 c2 i1 i2 [_ Hi1]%lookup_delete_Some [_ Hi2]%lookup_delete_Some. by apply Hone.
Qed.

(** A row that replaces the one of its code keeps the address and the project;
    a new one has an address and a project of its own. *)
Lemma invitations_wf_insert a code row :
  ui_Code row = code → is_Some (ac_users a !! ui_Sponsor row) →
  (∀ c i, ac_invites a !! c = Some i → ui_Email i = ui_Email row →
     ui_Project i = ui_Project row → c = code) →
  invitations_wf a → invitations_wf (set_invites (<[code := row]> (ac_invites a)) a).
Proof.
  intros Hcode Hs Hnew [Hi Hone]. split; cbn.
  - intros c i [[<- <-]|[_ Hc]]%lookup_insert_Some; [done|]. by apply Hi.
  - intros c1 c2 i1 i2 [[<- <-]|[_ Hi1]]%lookup_insert_Some [[<- <-]|[_ Hi2]]%lookup_insert_Some
      He Hp; [done|..].
    + symmetry. by apply (Hnew c2 i2).
    + by apply (Hnew c1 i1).
    + by apply (Hone c1 c2 i1 i2).
Qed.

Abbreviation wf := (kept invitations_wf (λ _ : X, True)).

Lemma any_preserves {A} (m : prog X A) : preserves (λ _ : X, True) m.
Proof. done. Qed.

Lemma on_fga_wf {A} (m : prog X A) : preserves wf (on_fga m).
Proof. apply preserves_on_fga, any_preserves. Qed.

Lemma CreateUser_wf subject : preserves wf (CreateUser subject).
Proof.
  apply preserves_statement. intros s [Hs _]. cbn zeta. case_match; [|done]. cbn.
  split; [|done]. apply invitations_wf_users; [|done]. intros id Hid.
  destruct (decide (as_seq s = id)) as [<-|Hne].
  - rewrite lookup_insert_eq. by eexists.
  - by rewrite lookup_insert_ne.
Qed.

Lemma DeleteInvitation_wf code : preserves wf (DeleteInvitation code).
Proof.
  apply preserves_statement. intros s [Hs _]. cbn zeta. case_match; [|done].
  split; [|done]. by apply invitations_wf_delete.
Qed.

Lemma UpdateInvitationRole_wf code role : preserves wf (UpdateInvitationRole code role).
Proof.
  apply preserves_statement. intros s [Hs _]. cbn zeta. case_match eqn:Hi; [|done].
  split; [|done]. destruct (proj1 Hs _ _ Hi) as [Hc Hsp]. cbn.
  apply invitations_wf_insert; [done..| |done]. cbn. intros c j Hj He Hp.
  by apply (proj2 Hs _ _ _ _ Hj Hi).
Qed.

Lemma CreateGitHubApp_wf user install :
  preserves wf (CreateGitHubAppWithoutInvitation user install).
Proof.
  intros s [[Hi Hone] _]. destruct (gh_accounts G user install s) as [Ei Eu].
  split; [|done]. split; rewrite Ei, ?Eu; [exact Hi|exact Hone].
Qed.

#[local] Hint Resolve on_fga_wf CreateUser_wf DeleteInvitation_wf UpdateInvitationRole_wf
  CreateGitHubApp_wf : preserves.

(** There is no invitation of the address to the project. *)
Definition none_for (email : string) (project : UUID) (a : Accounts) : Prop :=
  ∀ c i, ac_invites a !! c = Some i → ui_Email i = email → ui_Project i = project → False.

Abbreviation invited_not email project :=
  (kept (λ a, invitations_wf a ∧ none_for email project a) (λ _ : X, True)).

(** Before an invitation is made there is none for its address and project. *)
Lemma CreateInvitation_wf code email role project sponsor s :
  invited_not email project s → wf (CreateInvitation code email role project sponsor s).1.
Proof.
  intros [[Hs Hnew] _]. destruct (CreateInvitation _ _ _ _ _ s) as [s' r] eqn:Hr.
  apply statement_cases in Hr as [[Hsame _]|(s1 & Hsame & Hr)];
    [by apply (kept_same _ _ _ _ Hsame)|].
  destruct Hsame as (Ha & _ & _). rewrite Ha in Hr. cbn zeta in Hr.
  revert Hr. case_bool_decide; [intros [= <- _]; split; [cbn; by rewrite Ha|done]|].
  case_bool_decide as Hfk; intros [= <- _]; split; cbn; rewrite ?Ha; try done.
  apply invitations_wf_insert; [done|apply Hfk| |done]. intros c i Hc He Hp.
  by destruct (Hnew c i).
Qed.

(** The invitations an address has to a project are seen, since their sponsors
    are users. *)
Lemma no_invitations a email project :
  invitations_wf a →
  invitations_where (λ i, ui_Email i = email ∧ ui_Project i = project) a = [] →
  none_for email project a.
Proof.
  intros [Hi _] Hnone c i Hc He Hp. destruct (Hi _ _ Hc) as [_ [sub Hsub]].
  cut ((i, sub) ∈ @nil (UserInvite * string)); [apply not_elem_of_nil|]. rewrite <-Hnone.
  apply list_elem_of_omap. exists i. unfold sponsored. rewrite Hsub. split; [|done].
  apply list_elem_of_filter. split; [done|]. apply list_elem_of_fmap. exists (c, i).
  by rewrite elem_of_map_to_list.
Qed.

Lemma invited_not_wf email project s : invited_not email project s → wf s.
Proof. by intros [[? _] _]. Qed.

(** The rest of [CreateInvite], once there is no such invitation. *)
Lemma create_invite_wf {A} email project role user (pre : prog (AuthState X) A) code
    (k : A → string → UserInvite → prog (AuthState X) Invitation) s :
  preserves (invited_not email project) pre → (∀ a c i, preserves wf (k a c i)) →
  preserves (invited_not email project) code → invited_not email project s →
  wf ((a ← pre; c ← code;
       i ← or_throw (failing "Internal" "error creating invitation: ")
             (CreateInvitation c email role project user);
       k a c i) s).1.
Proof.
  intros Hpre Hk Hcode Hnew.
  apply (preserves_then _ (invited_not email project)); [done|apply invited_not_wf| |done].
  clear s Hnew. intros a s Hnew.
  apply (preserves_then _ (invited_not email project)); [done|apply invited_not_wf| |done].
  clear s Hnew. intros c s Hnew. apply preserves_after; [|by intros i; apply Hk].
  rewrite or_throw_state. by apply CreateInvitation_wf.
Qed.

Lemma CreateInvite_wf ctx project role email :
  preserves wf (CreateInvite MinderURLBase ctx project role email).
Proof.
  unfold CreateInvite. case_match; [|by keeps]. case_match; [by keeps|].
  apply preserves_bind; [unfold GetUserBySubject; by keeps|]. intros user s Hs.
  match goal with |- wf (?m s).1 => destruct (m s) as [s' r] eqn:Hrun end. cbn.
  apply prog_bind_inv in Hrun as
    [(s1 & rows & [Hs1 Hrows]%or_throw_Ok%account_select_Ok & Hrun)|(_ & r1 & Hrun & _)].
  2: { apply (f_equal fst) in Hrun. rewrite or_throw_state in Hrun. cbn in Hrun. subst s'.
       by apply (preserves_account_select _ _ _ s). }
  apply (kept_same _ _ _ _ Hs1) in Hs. injection Hrows as Hrows. revert Hrun.
  case_bool_decide as Hnone; cbn [negb]; [|by intros [= <- _]]. subst rows.
  intros Hrun. apply (f_equal fst) in Hrun. cbn in Hrun. subst s'.
  assert (Hnew : invited_not email project s1).
  { split; [|done]. split; [apply Hs|]. apply no_invitations; [apply Hs|done]. }
  apply (preserves_then _ (invited_not email project));
    [unfold GetProjectRow; by keeps|apply invited_not_wf| |done].
  intros prj s2 Hnew2. apply create_invite_wf; [unfold project_metadata; by keeps| |by keeps|done].
  intros meta code inv. unfold send_invite, time_Now. keeps.
Qed.

#[local] Hint Resolve CreateInvite_wf : preserves.

(** Every request keeps the invitations well formed. *)
Lemma handle_wf q : preserves wf (handle q).
Proof. destruct q; open_handlers; keeps. Qed.

(** C9: an address is invited to a project at most once.  Through any requests,
    answered or failed, and whatever else the server does to its database in
    between, every invitation stays in the table under its own code with a
    sponsor that is a user, and no two are for the same address and project. *)
Theorem invitations_unique s s' :
  rtc (step (λ _, True)) s s' →
  invitations_wf (as_accounts s) → invitations_wf (as_accounts s').
Proof.
  induction 1 as [s|s s1 s2 Hstep _ IH]; [done|]. intros Hwf. apply IH.
  destruct Hstep as [q _|w]; [|done]. by apply (handle_wf q s).
Qed.

End invitations.

(** ** Somebody administrates *)

Section administrators.
Context (L : fga_laws).

Abbreviation administrated p := (kept (λ _, True) (has_admin p)).

Lemma has_admin_more p x x' : fga_tuples x ⊆ fga_tuples x' → has_admin p x → has_admin p x'.
Proof. intros Hsub [u Hu]. exists u. by apply Hsub. Qed.

Lemma Write_keeps_admin p user role project :
  preserves (administrated p) (on_fga (Write user role project)).
Proof.
  apply preserves_on_fga. intros x Hx. destruct (Write user role project x) as [x' r] eqn:Hw.
  apply (Write_effect L) in Hw. cbn. apply (has_admin_more _ x); [|done].
  destruct r; [rewrite Hw; set_solver|by rewrite Hw|done].
Qed.

Lemma AssignmentsToProject_keeps_admin p project :
  preserves (administrated p) (on_fga (AssignmentsToProject project)).
Proof.
  apply preserves_on_fga. intros x Hx. destruct (AssignmentsToProject project x) as [x' r] eqn:Hw.
  apply (AssignmentsToProject_spec L) in Hw as [Hw _]. cbn.
  apply (has_admin_more _ x); [by rewrite Hw|done].
Qed.

Lemma statement_keeps_admin {A} p (f : AuthState X → AuthState X * res A) :
  (∀ s, as_fga (f s).1 = as_fga s) → preserves (administrated p) (statement f).
Proof.
  intros Hf. apply preserves_statement. intros s [_ Hs]. split; [done|]. cbn. by rewrite Hf.
Qed.

Ltac accounts_only := apply statement_keeps_admin; intros s; cbn; repeat case_match; done.

Lemma CreateInvitation_keeps_admin p code email role project sponsor :
  preserves (administrated p) (CreateInvitation code email role project sponsor).
Proof. accounts_only. Qed.
Lemma UpdateInvitationRole_keeps_admin p code role :
  preserves (administrated p) (UpdateInvitationRole code role).
Proof. accounts_only. Qed.
Lemma DeleteInvitation_keeps_admin p code : preserves (administrated p) (DeleteInvitation code).
Proof. accounts_only. Qed.

#[local] Hint Resolve Write_keeps_admin AssignmentsToProject_keeps_admin
  CreateInvitation_keeps_admin UpdateInvitationRole_keeps_admin DeleteInvitation_keeps_admin
  : preserves.

(** Of two administrators at least one is not the one whose role goes. *)
Lemma two_admins (tuples : list Tuple) project t :
  NoDup tuples →
  (1 < length (filter (λ a, ra_Role a = RoleAdmin) (omap (assignment_of project) tuples)))%nat →
  ∃ t', t' ∈ tuples ∧ t' ≠ t ∧ t'.1.2 = RoleAdmin.
Proof.
  intros Hnd Hlen.
  assert (Hadm : ∃ ts, NoDup ts ∧ (1 < length ts)%nat ∧ ∀ t', t' ∈ ts → t' ∈ tuples ∧ t'.1.2 = RoleAdmin).
  { exists (filter (λ t', t'.1.2 = RoleAdmin) tuples). split_and!.
    - by apply NoDup_filter.
    - eapply Nat.lt_le_trans; [exact Hlen|]. clear Hnd Hlen. induction tuples as [|[[u r] o] l IH]; [done|].
      cbn [omap list_omap]. unfold assignment_of at 1. cbn [fst snd].
      unfold ParseRole. destruct (String.eqb_spec r ""); [subst; rewrite filter_cons_False; done|].
      case_bool_decide; rewrite !filter_cons; cbn.
      + destruct (decide (r = RoleAdmin)); cbn; lia.
      + destruct (decide (r = RoleAdmin)); cbn; lia.
    - intros t' [? ?]%list_elem_of_filter. done. }
  destruct Hadm as ([|t1 [|t2 ts]] & Hnd' & Hlen' & Hin); cbn in Hlen'; [lia..|].
  apply NoDup_cons in Hnd' as [Hne _].
  destruct (decide (t1 = t)) as [->|Ht1].
  - destruct (Hin t2) as [? ?]; [right; left|]. exists t2. split_and!; [done| |done].
    intros ->. apply Hne. by left.
  - destruct (Hin t1) as [? ?]; [left|]. by exists t1.
Qed.

(** The assignments that are read are the tuples of the project. *)
Lemma role_assignments_Ok project s s' assigned :
  role_assignments project s = (s', Ok assigned) →
  as_accounts s' = as_accounts s ∧ as_world s' = as_world s ∧
  fga_tuples (as_fga s') = fga_tuples (as_fga s) ∧
  ∃ tuples, assigned = omap (assignment_of (uuid_String project)) tuples ∧ NoDup tuples ∧
    (∀ t, t ∈ tuples → t ∈ fga_tuples (as_fga s) ∧ t.2 = getProjectForTuple project) ∧
    (∀ u r, (u, r, getProjectForTuple project) ∈ fga_tuples (as_fga s) →
            (u, r, getProjectForTuple project) ∈ tuples).
Proof.
  unfold role_assignments. rewrite or_throw_Ok. unfold on_fga.
  destruct (AssignmentsToProject project (as_fga s)) as [x r] eqn:Hr. intros [= <- ->].
  apply (AssignmentsToProject_spec L) in Hr as (Ht & tuples & -> & Hnd & Hin).
  split_and!; [done..|]. exists tuples. split_and!; [done..| |].
  - intros t [Ht' Hm]%Hin. split; [done|]. by apply project_object_matches.
  - intros u r Hu. apply Hin. split; [done|]. split; [done|]. cbn. intros o [= <-]. by left.
Qed.

Lemma RemoveRoleAssignment_keeps_admin p project sub role :
  preserves (administrated p) (RemoveRoleAssignment project sub role).
Proof.
  unfold RemoveRoleAssignment. apply preserves_bind; [unfold resolve; by keeps|]. intros identity.
  apply preserves_bind; [unfold user_exists; by keeps|]. intros _ s Hs.
  match goal with |- context [(?m s).1] => destruct (m s) as [s' r] eqn:Hrun end. cbn [fst].
  apply prog_bind_inv in Hrun as [(s1 & assigned & Hr & Hrun)|(_ & r1 & Hr & _)].
  2: { apply (f_equal fst) in Hr. cbn in Hr. subst s'.
       assert (Hp : preserves (administrated p) (role_assignments project))
         by (unfold role_assignments; keeps).
       by apply Hp. }
  apply role_assignments_Ok in Hr as (_ & _ & Ht & tuples & -> & Hnd & Hin & _).
  assert (Hs1 : administrated p s1).
  { split; [done|]. destruct Hs as [_ [u Hu]]. exists u. by rewrite Ht. }
  revert Hrun. case_match; [by intros [= <- _]|]. case_match eqn:Hlast; [by intros [= <- _]|].
  intros Hrun. apply (f_equal fst) in Hrun. cbn in Hrun. subst s'.
  apply preserves_after; [|keeps]. rewrite or_throw_state. unfold on_fga.
  destruct (Delete _ role project (as_fga s1)) as [x r1] eqn:Hd. apply (Delete_effect L) in Hd.
  split; [done|]. cbn. destruct r1 as [[]|e|m]; [|by apply (has_admin_more _ (as_fga s1));
    [by rewrite Hd|apply Hs1]|done].
  destruct Hs1 as [_ [u Hu]]. set (t := (_, role, _)) in Hd.
  destruct (decide ((u, RoleAdmin, getProjectForTuple p) = t)) as [Heq|Hne].
  2: { exists u. rewrite Hd. set_solver. }
  apply pair_equal_spec in Heq as [[-> <-]%pair_equal_spec ->%getProjectForTuple_inj].
  cbn in Hlast.
  apply bool_decide_eq_false in Hlast.
  destruct (two_admins tuples (uuid_String project) t Hnd) as (t' & Ht' & Hne & Hadm); [lia|].
  destruct (Hin _ Ht') as [Hin' Hobj]. destruct t' as [[u' r'] o']. cbn in Hadm, Hobj. subst.
  exists u'. rewrite Hd, Ht. set_solver.
Qed.
#[local] Hint Resolve RemoveRoleAssignment_keeps_admin : preserves.

Lemma handle_keeps_admin p q : ¬ replaces_role q → preserves (administrated p) (handle q).
Proof.
  intros Hq. destruct q as [| |ctx project roles sub email| | |ctx code []]; cbn in Hq;
    [..|by destruct Hq|]; try (assert (sub = "") as -> by (by destruct (decide (sub = "")))).
  all: unfold handle, ignore, AssignRole, RemoveRole, UpdateRole, ListRoleAssignments,
    ListInvitations, ResolveInvitation, isUserSelfUpdating, parse_role, in_transaction,
    CreateInvite, CreateRoleAssignment, UpdateInvite, user_exists,
    role_assignments, write_role, resolve, send_invite, project_metadata, time_Now,
    GetInvitesForEmail, ListInvitationsForProject, GetInvitesForSelf, GetInvite, RemoveInvite,
    ensureUser, acceptInvitation, claimGitHubInstalls; cbn [String.eqb negb andb].
  all: keeps.
Qed.

(** C6: a project that has an administrator keeps one.  Requests to assign, to
    remove and to list roles, and those on invitations, never leave a project
    without an administrator, whatever they answer and whichever statement
    fails: the last one cannot be removed.  Left out are the two requests that
    replace a role: the update of a member's role, and the acceptance of an
    invitation. *)
Theorem last_admin_kept project s s' :
  rtc (step (λ q, ¬ replaces_role q)) s s' →
  has_admin project (as_fga s) → has_admin project (as_fga s').
Proof.
  induction 1 as [s|s s1 s2 Hstep _ IH]; [done|]. intros Hs. apply IH.
  destruct Hstep as [q Hq|w]; [|done]. by apply (handle_keeps_admin project q Hq s).
Qed.
End administrators.
End membership.
