(* ===== verification/InviteResolution.v ===== *)
(** * The resolution of an invitation

    What [ResolveInvitation] does when it succeeds, and what is left of a
    resolution that fails. *)

From S2P Require Import Prelude GoErrors GoMonad GoStrings GoBase64 Uuid SafeTemplate EntityEvent.
From S2P Require Import Database HistoryDb EntityModels ExecLock Eea Crypto Authz Accounts Email.
From S2P Require Import Invites Roles Membership.
Local Open Scope string_scope.

Section resolution.
Context `{UuidLib} `{InviteLib} {X : Type} `{!OpenFGA X} `{!GitHubProviders X}.
Context (L : fga_laws) (G : github_laws).
Implicit Types s : AuthState X.

Abbreviation tuples s := (fga_tuples (as_fga s)).

(** Only roles of the user in the project may have changed. *)
Definition only_roles (user : string) (project : UUID) s s' : Prop :=
  ∀ u r o, u ≠ getUserForTuple user ∨ o ≠ getProjectForTuple project →
    (u, r, o) ∈ tuples s' ↔ (u, r, o) ∈ tuples s.

Lemma only_roles_refl user project s s' : tuples s' = tuples s → only_roles user project s s'.
Proof. intros Heq u r o _. by rewrite Heq. Qed.

Lemma only_roles_trans user project s1 s2 s3 :
  only_roles user project s1 s2 → only_roles user project s2 s3 → only_roles user project s1 s3.
Proof. intros H12 H23 u r o Hne. by rewrite (H23 u r o Hne), (H12 u r o Hne). Qed.

(** *** Accepting *)

Lemma delete_role_effect user role project f s s' r :
  or_throw f (on_fga (Delete user role project)) s = (s', r) →
  as_accounts s' = as_accounts s ∧ as_world s' = as_world s ∧
  tuples s' ⊆ tuples s ∧ only_roles user project s s' ∧
  (is_ok r = true → (getUserForTuple user, role, getProjectForTuple project) ∉ tuples s').
Proof.
  intros Hrun. unfold or_throw, mbind, prog_bind, try, on_fga in Hrun.
  destruct (Delete user role project (as_fga s)) as [x r1] eqn:Hd.
  apply (Delete_effect L) in Hd. destruct r1 as [[]|e|m]; injection Hrun as <- <-; [..|done];
    (split_and!; [done..| | |]); cbn; try rewrite Hd; try done.
  - set_solver.
  - intros u r o Hne. cbn. rewrite Hd. split; [set_solver|]. intros Hin.
    apply elem_of_difference. split; [done|]. rewrite elem_of_singleton.
    intros [[-> _]%pair_equal_spec ->]%pair_equal_spec. by destruct Hne.
  - set_solver.
  - by apply only_roles_refl.
Qed.

Lemma revoke_roles_effect user role project assigned : ∀ s s' r,
  (∀ a, a ∈ assigned → ra_Project a = Some (uuid_String project)) →
  revoke_roles user role assigned s = (s', r) →
  as_accounts s' = as_accounts s ∧ as_world s' = as_world s ∧
  tuples s' ⊆ tuples s ∧ only_roles user project s s' ∧
  (is_ok r = true → ∀ a, a ∈ assigned → ra_Subject a = user →
     (getUserForTuple user, ra_Role a, getProjectForTuple project) ∉ tuples s').
Proof.
  induction assigned as [|a assigned IH]; intros s s' r Hp; cbn [revoke_roles].
  { intros [= <- <-]. split_and!; [done..|by apply only_roles_refl|]. intros _ a Ha.
    by apply not_elem_of_nil in Ha. }
  assert (Hp' : ∀ a, a ∈ assigned → ra_Project a = Some (uuid_String project))
    by (intros b Hb; apply Hp; by right).
  destruct (String.eqb_spec (ra_Subject a) user) as [Hu|Hu].
  2: { intros Hrun. destruct (IH _ _ _ Hp' Hrun) as (Ha & Hw & Hsub & Hor & Hgone).
       split_and!; [done..|]. intros Hr b [->|Hb]%elem_of_cons; [done|]. by apply Hgone. }
  destruct (String.eqb_spec (ra_Role a) role) as [|Hne].
  { intros [= <- <-]. split_and!; [done..|by apply only_roles_refl|done]. }
  unfold or_throw at 1. unfold mbind at 1 2, prog_bind at 1 2, try, lift.
  destruct (ParseRole (ra_Role a)) as [er|e|m] eqn:Her.
  2-3: intros [= <- <-]; split_and!; [done..|by apply only_roles_refl|done].
  apply ParseRole_Ok in Her as [<- _]. cbn [mret prog_ret].
  unfold or_throw at 1. unfold mbind at 1 2, prog_bind at 1 2, try, lift.
  rewrite (Hp a) by left. rewrite uuid_Parse_String. cbn [mret prog_ret].
  intros [(s1 & [] & Hd & Hrun)|(Hr & r1 & Hd & _)]%prog_bind_inv.
  2: { destruct (delete_role_effect _ _ _ _ _ _ _ Hd) as (? & ? & ? & ? & _).
       split_and!; [done..|]. by rewrite Hr. }
  destruct (delete_role_effect _ _ _ _ _ _ _ Hd) as (Ha1 & Hw1 & Hsub1 & Hor1 & Hgone1).
  destruct (IH _ _ _ Hp' Hrun) as (Ha2 & Hw2 & Hsub2 & Hor2 & Hgone2).
  split_and!; [congruence..|by etrans|by eapply only_roles_trans|].
  intros Hr b [->|Hb]%elem_of_cons Hbu; [|by apply Hgone2].
  intros Hin. by apply (Hgone1 eq_refl), Hsub2.
Qed.

(** Having accepted, the user has the role of the invitation and no other. *)
Definition only_role (user : string) (project : UUID) (role : Role) s : Prop :=
  role ∈ AllRolesSorted ∧
  ∀ r, r ∈ AllRolesSorted →
    (getUserForTuple user, r, getProjectForTuple project) ∈ tuples s ↔ r = role.

Lemma write_role_effect user role project s s' r :
  write_role user role project s = (s', r) →
  as_accounts s' = as_accounts s ∧ as_world s' = as_world s ∧ only_roles user project s s' ∧
  (is_ok r = true →
   tuples s' = {[(getUserForTuple user, role, getProjectForTuple project)]} ∪ tuples s).
Proof.
  unfold write_role, or_throw, mbind, prog_bind, try, on_fga.
  destruct (Write user role project (as_fga s)) as [x r1] eqn:Hw. apply (Write_effect L) in Hw.
  destruct r1 as [[]|e|m]; intros [= <- <-]; [..|done]; split_and!; try done.
  - intros u q o Hne. cbn. rewrite Hw, elem_of_union, elem_of_singleton. split; [|by right].
    intros [[[-> _]%pair_equal_spec ->]%pair_equal_spec|]; [by destruct Hne|done].
  - by apply only_roles_refl.
Qed.

Lemma role_assignments_state project s s' r :
  role_assignments project s = (s', r) →
  as_accounts s' = as_accounts s ∧ as_world s' = as_world s ∧ tuples s' = tuples s.
Proof.
  unfold role_assignments, or_throw, mbind, prog_bind, try, on_fga.
  destruct (AssignmentsToProject project (as_fga s)) as [x r1] eqn:Hr.
  apply (AssignmentsToProject_spec L) in Hr as [Ht _].
  by destruct r1; intros [= <- <-]; split_and!.
Qed.

Lemma acceptInvitation_effect ctx project invite s s' r :
  acceptInvitation ctx project invite s = (s', r) →
  as_accounts s' = as_accounts s ∧ as_world s' = as_world s ∧
  only_roles (Identity_String (cl_Identity ctx)) project s s' ∧
  (is_ok r = true → only_role (Identity_String (cl_Identity ctx)) project (inv_Role invite) s').
Proof.
  unfold acceptInvitation. set (me := Identity_String (cl_Identity ctx)).
  intros [(s1 & assigned & Has & Hrun)|(Hr & r1 & Has & _)]%prog_bind_inv.
  2: { apply role_assignments_state in Has as (Ha & Hw & Ht).
       split_and!; [done..|by apply only_roles_refl|by rewrite Hr]. }
  apply (role_assignments_Ok L) in Has as (Ha1 & Hw1 & Ht1 & ts & -> & _ & Hin & Hall).
  assert (Hp : ∀ a, a ∈ omap (assignment_of (uuid_String project)) ts →
            ra_Project a = Some (uuid_String project)).
  { intros a (t & _ & Hat)%list_elem_of_omap. unfold assignment_of in Hat.
    destruct (ParseRole t.1.2); [by injection Hat as <-|done..]. }
  apply prog_bind_inv in Hrun as [(s2 & [] & Hrev & Hrun)|(Hr & r1 & Hrev & _)];
    apply (revoke_roles_effect _ _ _ _ _ _ _ Hp) in Hrev as (Ha2 & Hw2 & Hsub2 & Hor2 & Hgone).
  2: { split_and!; [congruence..| |by rewrite Hr].
       by eapply only_roles_trans; [apply only_roles_refl|]. }
  assert (Hor : only_roles me project s s2)
    by (by eapply only_roles_trans; [apply only_roles_refl|]).
  unfold or_throw at 1, mbind at 1 2, prog_bind at 1 2, try, lift in Hrun.
  destruct (ParseRole (inv_Role invite)) as [role|e|m] eqn:Hrole.
  2-3: injection Hrun as <- <-; split_and!; [congruence..|done|done].
  apply ParseRole_Ok in Hrole as [<- Hin']. cbn [mret prog_ret] in Hrun.
  apply write_role_effect in Hrun as (Ha3 & Hw3 & Hor3 & Ht3).
  split_and!; [congruence..|by eapply only_roles_trans|]. intros Hr.
  split; [done|]. intros role Hrole. rewrite (Ht3 Hr), elem_of_union, elem_of_singleton.
  split; [|by intros ->; left]. intros [Heq|Hold]; [by simplify_eq|]. exfalso.
  assert (Hs : (getUserForTuple me, role, getProjectForTuple project) ∈ tuples s)
    by (rewrite <-Ht1; by apply Hsub2).
  refine (Hgone eq_refl (role_answer role me (uuid_String project)) _ _ _); [|done|exact Hold].
  apply list_elem_of_omap. eexists. split; [by apply Hall|]. unfold assignment_of. cbn [fst snd].
  rewrite (proj2 (ParseRole_Ok role role) (conj eq_refl Hrole)), getUserFromTuple_ForTuple. done.
Qed.

(** *** The user *)

(** New users and their projects: the invitations and the roles in the projects
    that exist are as they were. *)
Record registered s s' : Prop := {
  rg_invites : ac_invites (as_accounts s') = ac_invites (as_accounts s);
  rg_projects : projects (w_db (as_world s)) ⊆ projects (w_db (as_world s'));
  rg_tuples : ∀ project u r, project ∈ projects (w_db (as_world s)) →
    (u, r, getProjectForTuple project) ∈ tuples s' ↔ (u, r, getProjectForTuple project) ∈ tuples s;
}.

Lemma registered_refl s s' : same s s' → registered s s'.
Proof.
  intros Hs. pose proof (same_db _ _ Hs) as Hdb. destruct Hs as (Ha & Hf & _).
  split; [by rewrite Ha|by rewrite Hdb|by rewrite Hf].
Qed.

Lemma registered_trans s1 s2 s3 : registered s1 s2 → registered s2 s3 → registered s1 s3.
Proof.
  intros [Hi Hp Ht] [Hi' Hp' Ht']. split; [congruence|by etrans|].
  intros project u r Hin. rewrite Ht' by (by apply Hp). by apply Ht.
Qed.

Lemma claim_installs_effect user installs : ∀ s s' r,
  claim_installs user installs s = (s', r) →
  registered s s' ∧ ac_users (as_accounts s') = ac_users (as_accounts s).
Proof.
  induction installs as [|i installs IH]; intros s s' r; cbn [claim_installs].
  { intros [= <- _]. split; [by apply registered_refl, same_refl|done]. }
  unfold mbind at 1, prog_bind at 1, try.
  assert (Hgh : registered s (CreateGitHubAppWithoutInvitation user i s).1 ∧
      ac_users (as_accounts (CreateGitHubAppWithoutInvitation user i s).1)
        = ac_users (as_accounts s)).
  { destruct (gh_accounts G user i s) as [Hi Hu]. split; [|done]. split; [done|..].
    - apply (gh_projects G).
    - intros project u role. apply (gh_tuples G). }
  destruct (CreateGitHubAppWithoutInvitation user i s) as [s1 r1]. cbn [fst] in Hgh.
  destruct Hgh as [Hreg Hu].
  destruct r1 as [p|e|m]; [| |by intros [= <- _]];
    (intros [(s2 & ps & Hcl & [= <- <-])|(_ & r2 & Hcl & _)]%prog_bind_inv;
     apply IH in Hcl as [Hreg2 Hu2]; (split; [by eapply registered_trans|congruence])).
Qed.

Lemma claimGitHubInstalls_effect ctx s s' r :
  claimGitHubInstalls ctx s = (s', r) →
  registered s s' ∧ ac_users (as_accounts s') = ac_users (as_accounts s).
Proof.
  assert (Hnone : ∀ s, registered s s ∧ ac_users (as_accounts s) = ac_users (as_accounts s))
    by (intros; split; [by apply registered_refl, same_refl|done]).
  unfold claimGitHubInstalls. destruct (cl_ghId ctx) as [gh|]; [|by intros [= <- _]].
  destruct (String.eqb gh ""); [by intros [= <- _]|].
  unfold mbind at 1, prog_bind at 1, try, GetUnclaimedInstallationsByUser.
  destruct (account_select _ s) as [s1 r1] eqn:Hq. apply account_select_cases in Hq as [Hs _].
  assert (Hs1 : registered s s1 ∧ ac_users (as_accounts s1) = ac_users (as_accounts s)).
  { split; [by apply registered_refl|]. by destruct Hs as (-> & _). }
  destruct r1 as [l|e|m]; [|by intros [= <- _]..].
  destruct (Strconv.ParseInt gh) as [user|]; [|by intros [= <- _]].
  intros [Hreg Hu]%claim_installs_effect. split.
  - eapply registered_trans; [apply Hs1|done].
  - rewrite Hu. apply Hs1.
Qed.

Lemma ensureUser_effect ctx s s' r :
  ensureUser ctx s = (s', r) →
  registered s s' ∧
  (is_ok r = true →
   ∃ id, ac_users (as_accounts s') !! id = Some (Identity_String (cl_Identity ctx))).
Proof.
  unfold ensureUser. set (me := Identity_String (cl_Identity ctx)).
  destruct (String.eqb me ""); [intros [= <- <-]; split; [by apply registered_refl, same_refl|done]|].
  unfold mbind at 1, prog_bind at 1, try.
  destruct (GetUserBySubject me s) as [s1 r1] eqn:Hq. apply account_select_cases in Hq as [Hs Hr].
  pose proof (registered_refl _ _ Hs) as Hreg. destruct r1 as [id|e|m]; [| |by intros [= <- <-]].
  { intros [= <- <-]. split; [done|]. intros _. specialize (Hr eq_refl).
    destruct (filter _ _) as [|[id' sub] l] eqn:Hf; simplify_eq. exists id'.
    assert (Hin : (id', sub) ∈ filter (λ p : Z * string, p.2 = me)
                    (map_to_list (ac_users (as_accounts s1)))) by (rewrite Hf; by left).
    apply list_elem_of_filter in Hin as [Hsub Hin]. cbn in Hsub. subst.
    by apply elem_of_map_to_list in Hin. }
  clear Hr. destruct (is_in e ErrNoRows); [|by intros [= <- <-]].
  assert (Hcreate : ∀ s2 r2, CreateUser me s1 = (s2, r2) → registered s s2 ∧
      (is_ok r2 = true → ∃ id, ac_users (as_accounts s2) !! id = Some me)).
  { intros s2 r2 [[Hs2 Hr2]|(s3 & Hs3 & Hrun)]%statement_cases.
    - split; [by eapply registered_trans, registered_refl|by rewrite Hr2].
    - pose proof (registered_trans _ _ _ Hreg (registered_refl _ _ Hs3)) as [Hi Hp Ht].
      cbn zeta in Hrun. destruct (filter _ _); injection Hrun as <- <-;
        (split; [by split|]); [|done]. intros _. eexists. cbn. apply lookup_insert_eq. }
  intros [(s2 & id & Hc%or_throw_Ok & Hrun)|(Hr & r2 & Hc & _)]%prog_bind_inv.
  2: { apply (f_equal fst) in Hc. rewrite or_throw_state in Hc. cbn in Hc.
       destruct (CreateUser me s1) as [s2 r3]. cbn in Hc. subst s2.
       by destruct (Hcreate _ _ eq_refl); rewrite Hr. }
  destruct (Hcreate _ _ Hc) as [Hreg2 Hid].
  apply prog_bind_inv in Hrun as [(s3 & ps & Hcl & [= <- <-])|(Hr & r3 & Hcl & _)];
    apply claimGitHubInstalls_effect in Hcl as [Hreg3 Hu];
    (split; [by eapply registered_trans|]); [|by rewrite Hr].
  intros _. rewrite Hu. by apply Hid.
Qed.

(** *** The invitation *)

(** The subject of a user is unique. *)
Definition subjects_unique (a : Accounts) : Prop :=
  ∀ id1 id2 sub, ac_users a !! id1 = Some sub → ac_users a !! id2 = Some sub → id1 = id2.

(** The invitation of a code may be used by the caller: a human other than its
    sponsor, within the seven days. *)
Record usable (ctx : Caller) (code : string) (inv : UserInvite) s : Prop := {
  us_invited : ac_invites (as_accounts s) !! code = Some inv;
  us_human : ∃ id, cl_Identity ctx = Some id ∧ Identity_String (Some id) = id_UserID id ∧
    id_UserID id ≠ "";
  us_not_sponsor :
    ac_users (as_accounts s) !! ui_Sponsor inv ≠ Some (Identity_String (cl_Identity ctx));
  us_in_time : (w_now (as_world s) ≤ ui_UpdatedAt inv + expireIn7Days)%Z;
}.

Lemma GetUserBySubject_sponsor sub sponsor s s' r :
  subjects_unique (as_accounts s) → honest_faults (as_world s) →
  ac_users (as_accounts s) !! sponsor = Some sub →
  GetUserBySubject sub s = (s', r) →
  match r with Ok id => id = sponsor | Err e => is_in e ErrNoRows = false | Panic _ => True end.
Proof.
  intros Hu Hh Hs Hq. pose proof (account_select_cases _ _ _ _ Hq) as [Hsame Hr].
  destruct Hsame as (Ha & _). rewrite Ha in Hr. destruct r as [id|e|m]; [| |done].
  - specialize (Hr eq_refl). destruct (filter _ _) as [|[id' sub'] l] eqn:Hf; simplify_eq.
    assert (Hin : (id', sub') ∈ filter (λ p : Z * string, p.2 = sub)
                    (map_to_list (ac_users (as_accounts s)))) by (rewrite Hf; by left).
    apply list_elem_of_filter in Hin as [Hsub Hin]. cbn in Hsub. subst.
    apply elem_of_map_to_list in Hin. by apply (Hu _ _ sub).
  - destruct (is_in e ErrNoRows) eqn:He; [|done]. exfalso.
    pose proof (account_select_no_rows _ _ _ _ Hh Hq He) as Hnone. cbn in Hnone. rewrite Ha in Hnone.
    destruct (filter _ _) as [|[]] eqn:Hf; [|done].
    cut ((sponsor, sub) ∈ @nil (Z * string)); [apply not_elem_of_nil|]. rewrite <-Hf.
    apply list_elem_of_filter. split; [done|]. by apply elem_of_map_to_list.
Qed.

Lemma GetInvite_state ctx code s s' r : GetInvite ctx code s = (s', r) → same s s'.
Proof.
  assert (Hp : preserves (same s) (GetInvite ctx code)).
  { assert (Framed (same s)) by (intros s1 s2 H12 H1; by apply (same_trans _ s1)).
    unfold GetInvite, GetInvitationByCode, GetUserBySubject, time_Now.
    repeat (intros; first [progress eauto with preserves nocore | apply preserves_bind
      | apply preserves_or_throw | apply preserves_try | case_match]). }
  intros Hrun. specialize (Hp s (same_refl s)). by rewrite Hrun in Hp.
Qed.

Lemma GetInvite_Ok ctx code s s' invite :
  subjects_unique (as_accounts s) → honest_faults (as_world s) →
  GetInvite ctx code s = (s', Ok invite) →
  ∃ inv sponsor, usable ctx code inv s ∧
    invite = invitation_of inv (uuid_String (ui_Project inv)) code sponsor (w_now (as_world s)).
Proof.
  intros Hu Hh. unfold GetInvite.
  intros (s1 & [inv sponsor] & [Hs1 Hrow]%or_throw_Ok%account_select_Ok & Hrun)%prog_bind_Ok.
  pose proof (same_now _ _ Hs1) as Hnow1. pose proof (same_honest _ _ Hs1 Hh) as Hh1.
  assert (Ha1 : as_accounts s1 = as_accounts s) by apply Hs1.
  rewrite Ha1 in Hrow. unfold sponsored in Hrow.
  destruct (ac_invites (as_accounts s) !! code) as [i|] eqn:Hcode; [|done]. cbn in Hrow.
  destruct (ac_users (as_accounts s) !! ui_Sponsor i) as [sub|] eqn:Hsub; [|done].
  injection Hrow as -> ->. destruct (cl_Identity ctx) as [id|] eqn:Hid; [|done].
  set (me := Identity_String (Some id)) in Hrun.
  destruct (String.eqb_spec me "") as [|Hne]; [done|].
  destruct (String.eqb_spec me (id_UserID id)) as [Hme|]; [|done]. cbn [orb negb] in Hrun.
  apply prog_bind_Ok in Hrun as (s2 & user & Huser & Hrun).
  apply prog_bind_Ok in Hrun as (s3 & [] & Hcheck & Hrun).
  apply prog_bind_Ok in Hrun as (s4 & now & [= <- <-] & Hrun).
  unfold try in Huser. destruct (GetUserBySubject me s1) as [s2' r] eqn:Hq.
  assert (Hs2 : same s s2').
  { eapply same_trans; [done|]. by apply account_select_cases in Hq as [? _]. }
  assert (s2' = s2) as -> by (by destruct r; injection Huser).
  assert (s3 = s2) as -> by (unfold throw, lift, mret, prog_ret in Hcheck; destruct user as [u|e2];
    [destruct (Z.eqb u (ui_Sponsor inv))|destruct (is_in e2 ErrNoRows)]; congruence).
  rewrite (same_now _ _ Hs2) in Hrun.
  destruct (IsExpired _ _) eqn:Hexp; [done|]. injection Hrun as <- <-.
  exists inv, sponsor. split; [|done]. split; [done|..].
  - exists id. split_and!; [done..|congruence].
  - rewrite Hid. fold me. rewrite Hsub. intros [= ->].
    pose proof (GetUserBySubject_sponsor me (ui_Sponsor inv) s1 s2 r) as Hsp.
    rewrite Ha1 in Hsp. specialize (Hsp Hu Hh1 Hsub Hq).
    destruct r as [id'|e|m]; simplify_eq.
    + by rewrite Z.eqb_refl in Hcheck.
    + by rewrite Hsp in Hcheck.
  - unfold IsExpired in Hexp. apply Z.ltb_ge in Hexp. lia.
Qed.

(** *** The resolution *)

(** What a resolution has done. *)
Record resolved (ctx : Caller) (code : string) (accept : bool) (inv : UserInvite) s s' : Prop := {
  rs_usable : usable ctx code inv s;
  (** the invitation is used up, the others stay *)
  rs_invites : ac_invites (as_accounts s') = delete code (ac_invites (as_accounts s));
  (** who accepts is a user and has the role of the invitation, and no other *)
  rs_member : accept = true →
    (∃ id, ac_users (as_accounts s') !! id = Some (Identity_String (cl_Identity ctx))) ∧
    only_role (Identity_String (cl_Identity ctx)) (ui_Project inv) (ui_Role inv) s';
  (** who declines changes no role *)
  rs_declined : accept = false → tuples s' = tuples s;
  (** in the projects there are, nobody else's role changes, and none of the
      caller elsewhere *)
  rs_others : ∀ project u r, project ∈ projects (w_db (as_world s)) →
    u ≠ getUserForTuple (Identity_String (cl_Identity ctx)) ∨ project ≠ ui_Project inv →
    (u, r, getProjectForTuple project) ∈ tuples s' ↔ (u, r, getProjectForTuple project) ∈ tuples s;
}.

(** The function of the transaction of [ResolveInvitation]. *)
Definition resolution (ctx : Caller) (code : string) (accept : bool)
    : prog (AuthState X) (Invitation * ProjectRow) :=
  invite ← GetInvite ctx code;
  project ← or_throw (failing "Internal" "failed to parse project ID: ")
    (lift (uuid_Parse (inv_Project invite)));
  (if accept : bool then
     or_throw (failing "Internal" "failed to get or create user: ") (ensureUser ctx);;
     acceptInvitation ctx project invite
   else mret tt);;
  or_throw (failing "Internal" "failed to delete invitation: ") (RemoveInvite code);;
  targetProject ← or_throw (failing "Internal" "failed to get project: ")
    (GetProjectRow project);
  mret (invite, targetProject).

Lemma DeleteInvitation_effect code s s' r :
  DeleteInvitation code s = (s', r) →
  as_fga s' = as_fga s ∧ w_db (as_world s') = w_db (as_world s) ∧
  ac_users (as_accounts s') = ac_users (as_accounts s) ∧
  (is_ok r = true → ac_invites (as_accounts s') = delete code (ac_invites (as_accounts s))).
Proof.
  intros [[Hs Hr]|(s1 & Hs & Hd)]%statement_cases; pose proof (same_db _ _ Hs) as Hdb;
    destruct Hs as (Ha & Hf & _).
  - rewrite Ha, Hr. done.
  - cbn zeta in Hd. rewrite Ha in Hd. destruct (ac_invites (as_accounts s) !! code);
      injection Hd as <- <-; cbn; rewrite ?Ha; done.
Qed.

Lemma RemoveInvite_effect code s s' r :
  RemoveInvite code s = (s', r) →
  as_fga s' = as_fga s ∧ w_db (as_world s') = w_db (as_world s) ∧
  ac_users (as_accounts s') = ac_users (as_accounts s) ∧
  (is_ok r = true → ac_invites (as_accounts s') = delete code (ac_invites (as_accounts s))).
Proof.
  intros [(s1 & i & Hd%or_throw_Ok & [= <- <-])|(Hr & r1 & Hd & _)]%prog_bind_inv.
  - destruct (DeleteInvitation_effect _ _ _ _ Hd) as (? & ? & ? & Hi). auto.
  - apply (f_equal fst) in Hd. rewrite or_throw_state in Hd. cbn in Hd. subst s'.
    destruct (DeleteInvitation code s) as [s' r2] eqn:Hd. rewrite Hr.
    by destruct (DeleteInvitation_effect _ _ _ _ Hd) as (? & ? & ? & _).
Qed.

(** Nobody else's role changes, however the resolution ends. *)
Definition others_keep_roles (ctx : Caller) s s' : Prop :=
  ∀ project u r, project ∈ projects (w_db (as_world s)) →
    u ≠ getUserForTuple (Identity_String (cl_Identity ctx)) →
    (u, r, getProjectForTuple project) ∈ tuples s' ↔ (u, r, getProjectForTuple project) ∈ tuples s.

(** The part of an acceptance. *)
Definition accepting (ctx : Caller) (project : UUID) (invite : Invitation)
    : prog (AuthState X) unit :=
  or_throw (failing "Internal" "failed to get or create user: ") (ensureUser ctx);;
  acceptInvitation ctx project invite.

Lemma accepting_effect ctx project invite s s' r :
  let me := Identity_String (cl_Identity ctx) in
  accepting ctx project invite s = (s', r) →
  ac_invites (as_accounts s') = ac_invites (as_accounts s) ∧
  (∀ p u q, p ∈ projects (w_db (as_world s)) → u ≠ getUserForTuple me ∨ p ≠ project →
     (u, q, getProjectForTuple p) ∈ tuples s' ↔ (u, q, getProjectForTuple p) ∈ tuples s) ∧
  (is_ok r = true → (∃ id, ac_users (as_accounts s') !! id = Some me) ∧
     only_role me project (inv_Role invite) s').
Proof.
  intros me [(s1 & id & He%or_throw_Ok & Hacc)|(Hr & r1 & He & _)]%prog_bind_inv.
  - apply ensureUser_effect in He as [[Hi Hp Ht] Hid].
    apply acceptInvitation_effect in Hacc as (Ha & _ & Hor & Honly).
    rewrite Ha. split_and!; [done| |].
    + intros p u q Hin Hne. rewrite (Hor u q (getProjectForTuple p)); [by apply Ht|].
      destruct Hne as [Hne|Hne]; [by left|right]. by intros Heq%getProjectForTuple_inj.
    + intros Hr. split; [by apply Hid|by apply Honly].
  - apply (f_equal fst) in He. rewrite or_throw_state in He. cbn in He. subst s'.
    destruct (ensureUser ctx s) as [s' r2] eqn:He. apply ensureUser_effect in He as [[Hi Hp Ht] _].
    split_and!; [done|by intros; apply Ht|by rewrite Hr].
Qed.

Lemma resolution_others ctx code accept s s' r :
  resolution ctx code accept s = (s', r) →
  others_keep_roles ctx s s' ∧ (accept = false → tuples s' = tuples s).
Proof.
  assert (Hsame : ∀ s s', same s s' →
    others_keep_roles ctx s s' ∧ (accept = false → tuples s' = tuples s)).
  { intros ?? (_ & Hf & _). unfold others_keep_roles. by rewrite Hf. }
  intros [(s1 & invite & Hg%GetInvite_state & Hrun)|(_ & r1 & Hg%GetInvite_state & _)]%prog_bind_inv;
    [|by apply Hsame].
  assert (Hf1 : as_fga s1 = as_fga s) by apply Hg. pose proof (same_db _ _ Hg) as Hdb.
  unfold or_throw at 1, mbind at 1 2, prog_bind at 1 2, try, lift in Hrun.
  destruct (uuid_Parse (inv_Project invite)) as [project|e|m];
    [|injection Hrun as <- _; by apply Hsame..]. cbn [mret prog_ret] in Hrun.
  assert (Hacc : ∀ s2 r2, (if accept then accepting ctx project invite else mret tt) s1 = (s2, r2) →
    others_keep_roles ctx s s2 ∧ (accept = false → tuples s2 = tuples s)).
  { intros s2 r2 Ha. destruct accept.
    - apply accepting_effect in Ha as (_ & Ho & _). split; [|done].
      intros p u q Hp Hne. rewrite Ho by (rewrite ?Hdb; auto). by rewrite Hf1.
    - injection Ha as <- _. by apply Hsame. }
  apply prog_bind_inv in Hrun as [(s2 & [] & Ha & Hrun)|(_ & r2 & Ha & _)]; [|by eapply Hacc].
  apply Hacc in Ha.
  assert (Hrest : as_fga s' = as_fga s2).
  { change s' with (s', r).1. rewrite <-Hrun.
    refine (proj2 (_ : kept (λ _, True) (λ x, x = as_fga s2) _)).
    apply preserves_after; [|intros; unfold GetProjectRow; apply preserves_bind;
      eauto with preserves nocore].
    rewrite or_throw_state. destruct (RemoveInvite code s2) as [s3 r3] eqn:Hrm.
    by apply RemoveInvite_effect in Hrm as [Hf _]. }
  unfold others_keep_roles. rewrite Hrest. exact Ha.
Qed.

Lemma resolved_same ctx code accept inv s s1 s2 s' :
  same s s1 → resolved ctx code accept inv s1 s2 → same s2 s' →
  resolved ctx code accept inv s s'.
Proof.
  intros Hs1 [[Hi Hh Hns Ht] Hdel Hm Hd Ho] Hs2.
  pose proof (same_db _ _ Hs1) as Hdb. pose proof (same_now _ _ Hs1) as Hnow.
  destruct Hs1 as (Ha1 & Hf1 & _), Hs2 as (Ha2 & Hf2 & _).
  rewrite Ha1, Hnow in *. rewrite Hf1, Hdb in *. unfold only_role in Hm.
  split; rewrite ?Ha2; unfold only_role; rewrite ?Hf2; [by split|done..].
Qed.

Lemma resolution_Ok ctx code accept s s' invite row :
  subjects_unique (as_accounts s) → honest_faults (as_world s) →
  resolution ctx code accept s = (s', Ok (invite, row)) →
  ∃ inv, resolved ctx code accept inv s s' ∧ inv_Role invite = ui_Role inv ∧
    inv_Email invite = ui_Email inv ∧ inv_Project invite = uuid_String (ui_Project inv).
Proof.
  intros Hu Hh (s1 & i & Hg & Hrun)%prog_bind_Ok.
  pose proof (GetInvite_state _ _ _ _ _ Hg) as Hs1. pose proof (same_db _ _ Hs1) as Hdb.
  apply GetInvite_Ok in Hg as (inv & sponsor & Huse & Hi); [|done..].
  apply prog_bind_Ok in Hrun as (s1' & project & Hp%or_throw_Ok & Hrun).
  unfold lift in Hp. subst i. cbn [inv_Project invitation_of] in Hp.
  rewrite uuid_Parse_String in Hp. injection Hp as <- <-.
  apply prog_bind_Ok in Hrun as (s2 & [] & Hacc & Hrun).
  apply prog_bind_Ok in Hrun as (s3 & [] & Hrm%or_throw_Ok & Hrun).
  apply prog_bind_Ok in Hrun as (s4 & row' & [Hs4 _]%or_throw_Ok%account_select_Ok & [= <- <- <-]).
  apply RemoveInvite_effect in Hrm as (Hf3 & _ & Hu3 & Hi3). specialize (Hi3 eq_refl).
  destruct Hs1 as (Ha1 & Hf1 & _), Hs4 as (Ha4 & Hf4 & _).
  exists inv. split; [|done]. split; [done|..]; rewrite ?Ha4, ?Hi3, ?Hu3; unfold only_role;
    rewrite ?Hf4, ?Hf3.
  - f_equal. destruct accept; [|by injection Hacc as <-; rewrite Ha1].
    apply accepting_effect in Hacc as (Hi & _). by rewrite Hi, Ha1.
  - intros ->. apply accepting_effect in Hacc as (_ & _ & Hm). by apply Hm.
  - intros ->. injection Hacc as <-. by rewrite Hf1.
  - intros p u q Hp Hne. destruct accept; [|injection Hacc as <-; by rewrite Hf1].
    apply accepting_effect in Hacc as (_ & Ho & _). rewrite Ho by (by rewrite ?Hdb). by rewrite Hf1.
Qed.

(** C7: an invitation is used once, by whom it may be used by.  When a
    resolution succeeds there was an invitation of that code, not older than
    seven days, and the caller is a human other than its sponsor.  That
    invitation is gone and the others stay.  Who accepts is a user afterwards
    and has the role of the invitation in its project and no other role there;
    who declines changes no role; and in the projects there are no other role
    changes.  The answer tells the role, the project and the address of the
    invitation. *)
Theorem ResolveInvitation_success ctx code accept s s' resp :
  subjects_unique (as_accounts s) → honest_faults (as_world s) →
  ResolveInvitation ctx code accept s = (s', Ok resp) →
  ∃ inv, resolved ctx code accept inv s s' ∧ ri_Role resp = ui_Role inv ∧
    ri_Project resp = uuid_String (ui_Project inv) ∧ ri_Email resp = ui_Email inv ∧
    ri_IsAccepted resp = accept.
Proof.
  intros Hu Hh (s2 & [invite row] & Htx & Hrun)%prog_bind_Ok.
  apply transaction_cases in Htx as [(a & s0 & s1 & [= <-] & Hs0 & Hfn & Hs2)|[Hr _]]; [|done].
  apply prog_bind_Ok in Hrun as (s3 & meta & Hmeta%or_throw_Ok & [= <- <-]).
  unfold lift in Hmeta. injection Hmeta as <- _.
  destruct (resolution_Ok ctx code accept s0 s1 invite row) as (inv & Hres & Hrole & Hemail & Hproj).
  - by rewrite (proj1 Hs0).
  - by apply (same_honest _ _ Hs0).
  - exact Hfn.
  - exists inv. split; [by apply (resolved_same _ _ _ _ s s0 s1 s2)|]. done.
Qed.

(** C8: a resolution that fails leaves the invitation to be used again, and
    nobody but the caller with another role.  Whatever fails, the users and the
    invitations are what they were and nobody else's role in the projects there
    are has changed; who declines keeps the roles too.  The one exception: when
    the metadata of the project cannot be parsed, the answer is an error though
    the invitation has been resolved. *)
Theorem ResolveInvitation_failure ctx code accept s s' e :
  subjects_unique (as_accounts s) → honest_faults (as_world s) →
  ResolveInvitation ctx code accept s = (s', Err e) →
  (as_accounts s' = as_accounts s ∧ w_db (as_world s') = w_db (as_world s) ∧
   others_keep_roles ctx s s' ∧ (accept = false → tuples s' = tuples s)) ∨
  (∃ inv row err, resolved ctx code accept inv s s' ∧ ParseMetadata row = Err err ∧
     e = failing "Internal" "error parsing project metadata: " err).
Proof.
  intros Hu Hh [(s2 & [invite row] & Htx & Hrun)|(_ & r1 & Htx & Hr1)]%prog_bind_inv;
    apply transaction_cases in Htx.
  - right. destruct Htx as [(a & s0 & s1 & [= <-] & Hs0 & Hfn & Hs2)|[Hr _]]; [|done].
    destruct (resolution_Ok ctx code accept s0 s1 invite row) as (inv & Hres & _);
      [by rewrite (proj1 Hs0)|by apply (same_honest _ _ Hs0)|exact Hfn|].
    unfold project_metadata, or_throw, mbind, prog_bind, try, lift in Hrun.
    destruct (ParseMetadata row) as [meta|err|m] eqn:Hp; [done| |done].
    injection Hrun as <- <-. exists inv, row, err. split_and!; [|done..].
    by apply (resolved_same _ _ _ _ s s0 s1 s2).
  - left. destruct Htx as [(a & s0 & s1 & -> & _)|(_ & Ha & Hdb & Hf)]; [done|].
    split; [done|]. split; [done|]. unfold others_keep_roles.
    destruct Hf as [Hf|(s0 & r2 & Hs0 & Hf & _)]; [by rewrite Hf|].
    change (as_fga s' = as_fga (resolution ctx code accept s0).1) in Hf.
    destruct (resolution ctx code accept s0) as [s1 r3] eqn:Hfn.
    apply resolution_others in Hfn as [Ho Hd]. rewrite Hf. unfold others_keep_roles in Ho.
    rewrite (same_db _ _ Hs0) in Ho. destruct Hs0 as (_ & Hf0 & _). by rewrite Hf0 in *.
Qed.
End resolution.
