(* ===== verification/MembershipExamples.v ===== *)
(** * Members and invitations of a small server

    A server with two projects' worth of nothing but Alice, who administrates a
    project, Bob, who edits it, and an invitation of Bob: the witnesses of
    Membership.v and InviteResolution.v, and what the handlers do not prevent. *)

From S2P Require Import Prelude GoErrors GoMonad GoStrings GoBase64 Uuid SafeTemplate EntityEvent.
From S2P Require Import Database HistoryDb EntityModels ExecLock Eea Crypto Authz Accounts Email.
From S2P Require Import Invites Roles Membership InviteResolution.
Local Open Scope string_scope.

#[local] Existing Instances decimal_uuid counter_uuid ex_random.

#[local] Instance ex_templates : TextTemplates bodyData :=
  {| tmpl := string; tmpl_Parse s := Ok s; html_tmpl_Parse s := Ok s; tmpl_Execute t d := ([t; RoleVerb d], None) |}.

Definition ex_unicode : template.Unicode :=
  {| template.first_rune _ := 1; template.first_rune_pos _ := le_n 1; template.not_printable _ := None |}.

#[local] Instance ex_mail : MailLib :=
  {| mail_unicode := ex_unicode; template_file f := inl f;
     payload_Marshal p := BodyText p |}.

#[local] Instance ex_invite_lib : InviteLib :=
  {| meta_Unmarshal s :=
       if String.eqb s "{}"
       then inl {| meta_Version := ""; meta_SelfEnrolled := false; meta_Description := "";
                   meta_Public := {| pm_Description := ""; pm_DisplayName := "" |} |}
       else inr (EText "unexpected end of JSON input");
     url_Parse u := inl u;
     url_JoinPath base path code := inl (base +:+ "/" +:+ path +:+ "/" +:+ code) |}.

Definition ex_identity (sub : string) : Identity :=
  {| id_UserID := sub; id_HumanName := sub +:+ "@example.com"; id_Provider := "";
     id_FirstName := ""; id_LastName := "" |}.

(** Known by the id and by the name. *)
#[local] Instance ex_resolver : Resolver :=
  {| Resolve s := if bool_decide (s ∈ ["alice"; "alice@example.com"]) then Ok (ex_identity "alice")
                  else if bool_decide (s ∈ ["bob"; "bob@example.com"]) then Ok (ex_identity "bob")
                  else Err (ENew "auth.ErrNotFound" "user not found in identity store") |}.

#[local] Instance ex_github : GitHubProviders ex_store :=
  {| CreateGitHubAppWithoutInvitation _ _ := mret None |}.

Lemma ex_github_laws : @github_laws decimal_uuid ex_store ex_openfga ex_github.
Proof. by split. Qed.

Definition ex_caller (sub : string) : Caller :=
  {| cl_Identity := Some (ex_identity sub); cl_Email := Ok (sub +:+ "@example.com");
     cl_ghId := None |}.

Definition ex_invite (role : string) : UserInvite :=
  {| ui_Code := "code"; ui_Email := "bob@example.com"; ui_Role := role; ui_Project := 2%N;
     ui_Sponsor := 1; ui_CreatedAt := 0; ui_UpdatedAt := 0 |}.

Definition ex_accounts (role metadata : string) : Accounts :=
  {| ac_users := {[1%Z := "alice"; 2%Z := "bob"]}; ac_invites := {["code" := ex_invite role]};
     ac_projects := {[2%N := {| prj_Name := "acme"; prj_Metadata := metadata;
                            prj_CreatedAt := 0; prj_UpdatedAt := 0 |}]};
     ac_installs := ∅ |}.

Definition ex_member (sub role : string) : Tuple := ("user:" +:+ sub, role, "project:2").

(** With the failures of the database and of the authorization store to come. *)
Definition ex_server (role metadata : string) (faults : list (option gerr)) (down : list bool)
    : AuthState ex_store :=
  {| as_world := ex_world ex_db faults; as_accounts := ex_accounts role metadata; as_seq := 3;
     as_fga := {| xs_tuples := {[ex_member "alice" "admin"; ex_member "bob" "editor"]};
                  xs_down := down |} |}.

Definition members (s : AuthState ex_store) : list Tuple := elements (xs_tuples (as_fga s)).

Example ex_accepts :
  let '(s, r) := ResolveInvitation (ex_caller "bob") "code" true (ex_server "viewer" "{}" [] []) in
  r = Ok {| ri_Role := "viewer"; ri_Project := "2"; ri_ProjectDisplay := "acme";
            ri_Email := "bob@example.com"; ri_IsAccepted := true |} ∧
  members s = [ex_member "alice" "admin"; ex_member "bob" "viewer"] ∧
  ac_invites (as_accounts s) !! "code" = None.
Proof. by vm_compute. Qed.

(** ** Witnesses *)

Lemma ex_accounts_wf role metadata : invitations_wf (ex_accounts role metadata).
Proof.
  assert (Hi : ∀ code i, ac_invites (ex_accounts role metadata) !! code = Some i →
    "code" = code ∧ ex_invite role = i) by (intros code i; apply lookup_singleton_Some).
  split.
  - intros code i [<- <-]%Hi. split; [done|]. by exists "alice".
  - by intros c1 c2 i1 i2 [<- _]%Hi [<- _]%Hi.
Qed.

Lemma ex_subjects_unique role metadata : subjects_unique (ex_accounts role metadata).
Proof.
  assert (Hu : ∀ id sub, ac_users (ex_accounts role metadata) !! id = Some sub →
    id = (if String.eqb sub "alice" then 1 else 2)%Z).
  { intros id sub Hid. change (({[1%Z := "alice"; 2%Z := "bob"]} : gmap Z string) !! id = Some sub) in Hid.
    by apply lookup_insert_Some in Hid as [[<- <-]|[_ [<- <-]%lookup_singleton_Some]]. }
  intros id1 id2 sub H1 H2. by rewrite (Hu _ _ H1), (Hu _ _ H2).
Qed.

Lemma ex_honest role metadata faults down :
  faults = [] → honest_faults (as_world (ex_server role metadata faults down)).
Proof. intros -> e He. by apply not_elem_of_nil in He. Qed.

Lemma invitations_unique_witness :
  ∃ s', rtc (step "https://minder" (λ _, True)) (ex_server "viewer" "{}" [] []) s' ∧
    ac_invites (as_accounts s') !! "code" = None ∧ invitations_wf (as_accounts s').
Proof.
  set (q := ResolveInvitationRequest (ex_caller "bob") "code" true).
  assert (Hrun : rtc (step "https://minder" (λ _, True)) (ex_server "viewer" "{}" [] [])
                   (handle "https://minder" q (ex_server "viewer" "{}" [] [])).1)
    by (by apply rtc_once, step_request).
  eexists. split; [exact Hrun|]. split; [by vm_compute|].
  refine (@invitations_unique _ _ _ _ _ _ _ _ _ _ _ ex_github_laws _ _ Hrun _).
  apply ex_accounts_wf.
Defined.

(** The last administrator is not removed; once there is another, she is. *)
Lemma last_admin_kept_witness :
  ∃ s', rtc (step "https://minder" (λ q, ¬ replaces_role q)) (ex_server "viewer" "{}" [] []) s' ∧
    (RemoveRole 2%N {| rq_Role := "admin"; rq_Subject := "alice"; rq_Email := "" |}
       (ex_server "viewer" "{}" [] [])).2
      = Err (status_error "FailedPrecondition" "cannot remove the last admin from the project") ∧
    has_admin 2%N (as_fga s').
Proof.
  set (q := RemoveRoleRequest 2%N {| rq_Role := "admin"; rq_Subject := "alice"; rq_Email := "" |}).
  assert (Hrun : rtc (step "https://minder" (λ q, ¬ replaces_role q)) (ex_server "viewer" "{}" [] [])
                   (handle "https://minder" q (ex_server "viewer" "{}" [] [])).1)
    by (apply rtc_once, step_request; by intros []).
  eexists. split; [exact Hrun|]. split; [by vm_compute|].
  refine (@last_admin_kept _ _ _ _ _ _ _ _ _ _ _ ex_fga_laws 2%N _ _ Hrun _).
  exists "user:alice". cbn. set_solver.
Defined.

Lemma ResolveInvitation_success_witness :
  ∃ s' resp inv, ResolveInvitation (ex_caller "bob") "code" true (ex_server "viewer" "{}" [] [])
      = (s', Ok resp) ∧
    resolved (ex_caller "bob") "code" true inv (ex_server "viewer" "{}" [] []) s' ∧
    ri_Role resp = ui_Role inv.
Proof.
  destruct (ResolveInvitation (ex_caller "bob") "code" true (ex_server "viewer" "{}" [] []))
    as [s' [resp|e|m]] eqn:Hrun; [|by vm_compute in Hrun..].
  destruct (@ResolveInvitation_success _ _ _ _ _ ex_fga_laws ex_github_laws (ex_caller "bob") "code"
    true (ex_server "viewer" "{}" [] []) s' resp (ex_subjects_unique _ _) (ex_honest _ _ _ _ eq_refl) Hrun)
    as (inv & Hres & Hrole & _).
  exists s', resp, inv. split; [reflexivity|]. split; [exact Hres|exact Hrole].
Defined.

Lemma ex_unparsable :
  let '(s, r) := ResolveInvitation (ex_caller "bob") "code" false (ex_server "viewer" "" [] []) in
  match r with Err _ => True | _ => False end ∧ ac_invites (as_accounts s) !! "code" = None.
Proof. by vm_compute. Qed.

(** The invitation has been resolved, but the answer is an error. *)
Lemma ResolveInvitation_failure_witness :
  ∃ s' e, ResolveInvitation (ex_caller "bob") "code" false (ex_server "viewer" "" [] [])
      = (s', Err e) ∧
    ac_invites (as_accounts s') !! "code" = None ∧
    ((as_accounts s' = ex_accounts "viewer" "") ∨
     ∃ inv, resolved (ex_caller "bob") "code" false inv (ex_server "viewer" "" [] []) s').
Proof.
  pose proof ex_unparsable as Hout.
  destruct (ResolveInvitation (ex_caller "bob") "code" false (ex_server "viewer" "" [] []))
    as [s' [a|e|m]] eqn:Hrun; [by destruct Hout| |by destruct Hout].
  exists s', e. split; [reflexivity|]. split; [exact (proj2 Hout)|].
  destruct (@ResolveInvitation_failure _ _ _ _ _ ex_fga_laws ex_github_laws (ex_caller "bob") "code"
    false (ex_server "viewer" "" [] []) s' e (ex_subjects_unique _ _) (ex_honest _ _ _ _ eq_refl) Hrun)
    as [[Ha _]|(inv & _ & _ & Hres & _)];
    [left; exact Ha|right; exists inv; exact Hres].
Defined.

(** ** What the handlers do not prevent *)

(** The only administrator is made a viewer: by an update, *)
Example update_removes_last_admin :
  let '(s, r) := UpdateRole "https://minder" (ex_caller "bob") 2%N ["viewer"] "alice" ""
                   (ex_server "viewer" "{}" [] []) in
  is_ok r = true ∧ members s = [ex_member "bob" "editor"; ex_member "alice" "viewer"].
Proof. by vm_compute. Qed.

(** which she can do herself under her name, though not under her id. *)
Example self_update_by_name :
  let update sub := UpdateRole "https://minder" (ex_caller "alice") 2%N ["viewer"] sub ""
                      (ex_server "viewer" "{}" [] []) in
  (update "alice").2 = Err (status_error "InvalidArgument" "cannot update your own role") ∧
  is_ok (update "alice@example.com").2 = true ∧
  members (update "alice@example.com").1 = [ex_member "bob" "editor"; ex_member "alice" "viewer"].
Proof. by vm_compute. Qed.

(** When the new role cannot be written the old one is gone. *)
Example failed_update_loses_role :
  let '(s, r) := UpdateRole "https://minder" (ex_caller "alice") 2%N ["viewer"] "bob" ""
                   (ex_server "viewer" "{}" [] [false; false; true]) in
  is_ok r = false ∧ members s = [ex_member "alice" "admin"].
Proof. by vm_compute. Qed.

(** When the commit fails the role has been given and the invitation is still
    there; it is then refused, since the role is the same, and stays. *)
Example failed_commit_keeps_invitation :
  let failing_commit := [None; None; None; None; None; None; Some (EText "commit")] in
  let '(s, r) := ResolveInvitation (ex_caller "bob") "code" true
                   (ex_server "viewer" "{}" failing_commit []) in
  is_ok r = false ∧ members s = [ex_member "alice" "admin"; ex_member "bob" "viewer"] ∧
  ac_invites (as_accounts s) !! "code" = Some (ex_invite "viewer") ∧
  (ResolveInvitation (ex_caller "bob") "code" true s).2
    = Err (status_error "AlreadyExists" "user already has the same role in the project").
Proof. by vm_compute. Qed.

(** Anyone who knows the code may accept: the address is not compared. *)
Example accepted_by_another :
  let mallory := {| cl_Identity := Some (ex_identity "mallory");
                    cl_Email := Ok "mallory@example.org"; cl_ghId := None |} in
  let '(s, r) := ResolveInvitation mallory "code" true (ex_server "admin" "{}" [] []) in
  is_ok r = true ∧
  members s = [ex_member "bob" "editor"; ex_member "mallory" "admin"; ex_member "alice" "admin"].
Proof. by vm_compute. Qed.
