(* ===== verification/Identities.v ===== *)
(** * Identity providers

    The [IdentityClient] of internal/auth/interface.go, which spreads names and
    tokens over the providers; the providers of internal/auth/keycloak and
    internal/auth/githubactions; and the validation of a token by several
    validators (internal/auth/jwt). *)

From S2P Require Import Prelude GoErrors GoMonad GoStrings Uuid Authz.
From Stdlib Require Import Ascii.
Local Open Scope string_scope.

Definition ErrNotFound : gerr := ENew "auth.ErrNotFound" "user not found in identity store".

(** What an [openid.Token] holds, of what is asked for. *)
Record Token := {
  tok_Subject : string; tok_Issuer : string; tok_Email : string;
  tok_preferred_username : option string; tok_gh_id : option string;
}.

(** ** IdentityProvider *)

Record IdentityProvider := {
  ip_String : string;
  ip_URL : string;
  ip_Resolve : string → res Identity;
  ip_ResolveFederated : string → string → res Identity;
  ip_Validate : Token → res Identity;
}.

(** *** githubactions.go *)

(** [strings.ReplaceAll] of a byte by a byte. *)
Fixpoint replace_byte (a b : ascii) (s : string) : string :=
  match s with
  | EmptyString => EmptyString
  | String c s => String (if bool_decide (c = a) then b else c) (replace_byte a b s)
  end.

Definition colon : ascii := ":"%char.
Definition plus : ascii := "+"%char.

Definition ghIssuerUrl : string := "https://token.actions.githubusercontent.com".

Definition GitHubActions_String : string := "githubactions".

Definition GitHubActions_Resolve (id : string) : res Identity :=
  Ok {| id_UserID := replace_byte colon plus id; id_HumanName := replace_byte plus colon id;
        id_Provider := GitHubActions_String; id_FirstName := ""; id_LastName := "" |}.

Definition GitHubActions_Validate (token : Token) : res Identity :=
  if String.eqb (tok_Issuer token) ghIssuerUrl
  then Ok {| id_UserID := replace_byte colon plus (tok_Subject token);
             id_HumanName := tok_Subject token; id_Provider := GitHubActions_String;
             id_FirstName := ""; id_LastName := "" |}
  else Err (EText "token issuer is not the expected issuer").

Definition GitHubActions : IdentityProvider := {|
  ip_String := GitHubActions_String; ip_URL := ghIssuerUrl; ip_Resolve := GitHubActions_Resolve;
  ip_ResolveFederated _ _ := Err ErrNotFound; ip_Validate := GitHubActions_Validate;
|}.

(** *** keycloak.go *)

(** The representation of a user by the server. *)
Record UserRepresentation := {
  ur_Id : option string; ur_Username : string; ur_FirstName : option string;
  ur_LastName : option string; ur_Attributes : bool;
}.

(** The calls of the generated client: the body of an answer with status 200. *)
Class KeycloakClient := {
  kc_UserById : string → option UserRepresentation;
  kc_UsersByName : string → option (list UserRepresentation);
  kc_UsersByQuery : string → option (list UserRepresentation);
}.

Section keycloak.
Context `{KeycloakClient} (name url : string).

Definition userToIdentity (user : UserRepresentation) : option Identity :=
  match ur_Attributes user, ur_Id user with
  | true, Some id => Some {|
      id_UserID := id; id_HumanName := ur_Username user; id_Provider := name;
      id_FirstName := default "" (ur_FirstName user); id_LastName := default "" (ur_LastName user) |}
  | _, _ => None
  end.

Definition the_user (users : option (list UserRepresentation)) : option Identity :=
  match users with Some [user] => userToIdentity user | _ => None end.

Definition KeyCloak_Resolve (id : string) : res Identity :=
  match kc_UserById id ≫= userToIdentity with
  | Some i => Ok i
  | None => match the_user (kc_UsersByName id) with
            | Some i => Ok i
            | None => Err ErrNotFound
            end
  end.

Definition KeyCloak_ResolveFederated (federatedIdP id : string) : res Identity :=
  if String.eqb federatedIdP "github" then
    match the_user (kc_UsersByQuery ("gh_id:" +:+ id)) with
    | Some i => Ok i
    | None => Err ErrNotFound
    end
  else Err (EText ("unsupported federated identity provider " +:+ federatedIdP)).

Definition KeyCloak_Validate (token : Token) : res Identity :=
  match tok_preferred_username token with
  | Some humanStr => Ok {| id_UserID := tok_Subject token; id_HumanName := humanStr;
                           id_Provider := name; id_FirstName := ""; id_LastName := "" |}
  | None => Err (EText "preferred_username not found in token")
  end.

Definition KeyCloak : IdentityProvider := {|
  ip_String := name; ip_URL := url; ip_Resolve := KeyCloak_Resolve;
  ip_ResolveFederated := KeyCloak_ResolveFederated; ip_Validate := KeyCloak_Validate;
|}.
End keycloak.

(** ** IdentityClient *)

(** By name and by URL. *)
Abbreviation IdentityClient := (gmap string IdentityProvider).

Definition LoadOrStore (key : string) (p : IdentityProvider) (c : IdentityClient)
    : IdentityClient * bool :=
  match c !! key with
  | Some _ => (c, true)
  | None => (<[key := p]> c, false)
  end.

(** The client as it is left, and the error. *)
Definition Register (c : IdentityClient) (p : IdentityProvider) : IdentityClient * error :=
  match LoadOrStore (ip_String p) p c with
  | (c, true) => (c, Some (EText ("duplicate provider for " +:+ ip_String p)))
  | (c, false) =>
      match LoadOrStore (ip_URL p) p c with
      | (c, true) => (c, Some (EText ("duplicate provider for URL " +:+ ip_URL p)))
      | (c, false) => (c, None)
      end
  end.

Fixpoint register_all (providers : list IdentityProvider) (c : IdentityClient)
    : res IdentityClient :=
  match providers with
  | [] => Ok c
  | p :: providers =>
      match Register c p with
      | (_, Some err) => Err err
      | (c, None) => register_all providers c
      end
  end.

Definition NewIdentityClient (providers : list IdentityProvider) : res IdentityClient :=
  register_all providers ∅.

Definition RegisterAlias (c : IdentityClient) (aliasURL : string) (p : IdentityProvider)
    : IdentityClient * error :=
  match LoadOrStore aliasURL p c with
  | (c, true) => (c, Some (EText ("duplicate provider for alias URL " +:+ aliasURL)))
  | (c, false) => (c, None)
  end.

Definition slash : ascii := "/"%char.

(** Before and after the first slash, if there is one. *)
Fixpoint cut_slash (s : string) : option (string * string) :=
  match s with
  | EmptyString => None
  | String c s =>
      if bool_decide (c = slash) then Some ("", s)
      else match cut_slash s with
           | Some (before, after) => Some (String c before, after)
           | None => None
           end
  end.

Definition IdentityClient_Resolve (c : IdentityClient) (id : string) : res Identity :=
  let '(providerName, id) := default ("", id) (cut_slash id) in
  match c !! providerName with
  | Some provider => ip_Resolve provider id
  | None => Err (EText ("unknown provider " +:+ providerName))
  end.

Definition IdentityClient_ResolveFederated (c : IdentityClient) (federatedIdP id : string)
    : res Identity :=
  match c !! "" with
  | Some provider => ip_ResolveFederated provider federatedIdP id
  | None => Err (EText "no default identity provider configured")
  end.

Definition IdentityClient_Validate (c : IdentityClient) (token : Token) : res Identity :=
  if String.eqb (tok_Issuer token) "" then Err (EText "token has no issuer")
  else match c !! tok_Issuer token with
       | Some provider => ip_Validate provider token
       | None => Err (EText ("unknown provider " +:+ tok_Issuer token))
       end.

(** ** jwt/jwtauth.go and jwt/merged *)

(** The parser of JWTs, which checks signature, issuer and audience against a
    validator's configuration [V]. *)
Class JwtLib (V : Type) := { jwt_ParseString : V → string → res Token }.

Definition ParseAndValidate {V} `{JwtLib V} (v : V) (tokenString : string) : res Token :=
  token ← jwt_ParseString v tokenString;
  if String.eqb (tok_Subject token) ""
  then Err (EText "provided token is missing required subject claim")
  else Ok token.

Fixpoint merged_ParseAndValidate {V} `{JwtLib V} (validators : list V) (tokenString : string)
    : res Token :=
  match validators with
  | [] => Err (EText "no validator could parse and validate the token")
  | v :: validators =>
      match ParseAndValidate v tokenString with
      | Ok t => Ok t
      | Err _ => merged_ParseAndValidate validators tokenString
      | Panic m => Panic m
      end
  end.

(** ** Lemmas *)

Definition no_slash (s : string) : Prop := cut_slash s = None.

Lemma cut_slash_name name id : no_slash name → cut_slash (name +:+ "/" +:+ id) = Some (name, id).
Proof.
  unfold no_slash. induction name as [|c name IH]; [done|]. cbn [cut_slash].
  rewrite append_cons. cbn [cut_slash]. case_bool_decide; [done|].
  destruct (cut_slash name) as [[]|]; [done|]. intros _. by rewrite IH.
Qed.

Lemma replace_byte_idem a b s : a ≠ b → replace_byte a b (replace_byte a b s) = replace_byte a b s.
Proof.
  intros Hne. induction s as [|c s IH]; [done|]. cbn. rewrite IH. f_equal.
  repeat case_bool_decide; congruence.
Qed.

Lemma register_all_lookup providers : ∀ c c',
  register_all providers c = Ok c' →
  (∀ k p, c !! k = Some p → c' !! k = Some p) ∧
  ∀ p, p ∈ providers → c' !! ip_String p = Some p ∧ c' !! ip_URL p = Some p.
Proof.
  induction providers as [|p providers IH]; intros c c'; cbn.
  { intros [= <-]. split; [done|]. intros p Hp. by apply not_elem_of_nil in Hp. }
  unfold Register, LoadOrStore. destruct (c !! ip_String p) eqn:Hn; [done|].
  destruct (<[ip_String p := p]> c !! ip_URL p) eqn:Hu; [done|].
  intros [Hold Hnew]%IH. split.
  - intros k q Hk. apply Hold. apply lookup_insert_None in Hu as [Hu Hne].
    rewrite !lookup_insert_ne; [done|congruence..].
  - intros q [->|Hq]%elem_of_cons; [|by apply Hnew]. split; apply Hold.
    + rewrite lookup_insert_ne; [apply lookup_insert_eq|].
      intros Heq. rewrite Heq, lookup_insert_eq in Hu. done.
    + apply lookup_insert_eq.
Qed.

(** What a client maps to a provider is one of its two names. *)
Lemma register_all_inv providers : ∀ c c' k p,
  register_all providers c = Ok c' → c' !! k = Some p →
  c !! k = Some p ∨ p ∈ providers ∧ (k = ip_String p ∨ k = ip_URL p).
Proof.
  induction providers as [|q providers IH]; intros c c' k p; cbn; [intros [= ->]; by left|].
  unfold Register, LoadOrStore. destruct (c !! ip_String q); [done|].
  destruct (_ !! ip_URL q); [done|]. intros Hreg Hk.
  destruct (IH _ _ _ _ Hreg Hk) as [Hin|[Hin Hkey]]; [|right; split; [by right|done]].
  apply lookup_insert_Some in Hin as [[<- <-]|[_ Hin]]; [right; split; [left|by right]|].
  apply lookup_insert_Some in Hin as [[<- <-]|[_ Hin]]; [right; split; [left|by left]|by left].
Qed.

(** An identity is found again by the string it is stored as.  When the
    client of Keycloak, as the nameless provider, and of GitHub Actions has
    validated a token, the string of the identity is resolved to an identity of
    the same string.  An identity of GitHub Actions always is; one of Keycloak
    is while Keycloak answers for the subject of its token with a user of that
    id that has attributes, and its ids hold no slash. *)
Theorem stored_identity_resolves `{KeycloakClient} url c token id :
  NewIdentityClient [KeyCloak "" url; GitHubActions] = Ok c →
  (tok_Issuer token = url → no_slash (tok_Subject token) ∧
     ∃ user, kc_UserById (tok_Subject token) = Some user ∧
       ur_Id user = Some (tok_Subject token) ∧ ur_Attributes user = true) →
  IdentityClient_Validate c token = Ok id →
  ∃ id', IdentityClient_Resolve c (Identity_String (Some id)) = Ok id' ∧
    Identity_String (Some id') = Identity_String (Some id).
Proof.
  intros Hc Hknown. unfold IdentityClient_Validate.
  destruct (String.eqb_spec (tok_Issuer token) "") as [|Hiss]; [done|].
  destruct (c !! tok_Issuer token) as [p|] eqn:Hp; [|done].
  destruct (register_all_lookup _ _ _ Hc) as [_ Hall].
  destruct (register_all_inv _ _ _ _ _ Hc Hp) as [Hin|[Hin Hkey]]; [by rewrite lookup_empty in Hin|].
  list_cases Hin.
  - destruct Hkey as [Hkey|Hkey]; [done|]. destruct (Hknown Hkey) as (Hsub & user & Hu & Hid & Ha).
    cbn. unfold KeyCloak_Validate. destruct (tok_preferred_username token); [|done].
    intros [= <-]. cbn. unfold IdentityClient_Resolve. rewrite Hsub.
    destruct (Hall (KeyCloak "" url)) as [Hn _]; [by left|].
    change (c !! "" = Some (KeyCloak "" url)) in Hn. cbn -[lookup]. rewrite Hn. cbn.
    unfold KeyCloak_Resolve.
    rewrite Hu. cbn. unfold userToIdentity. rewrite Ha, Hid. by eexists.
  - cbn. unfold GitHubActions_Validate. destruct (String.eqb _ ghIssuerUrl); [|done].
    intros [= <-]. unfold IdentityClient_Resolve, Identity_String. cbn [id_Provider id_UserID].
    change (String.eqb GitHubActions_String "") with false. cbn iota.
    rewrite cut_slash_name by done. cbn [default from_option id].
    destruct (Hall GitHubActions) as [Hn _]; [right; left|].
    change (c !! GitHubActions_String = Some GitHubActions) in Hn. rewrite Hn. eexists. split; [reflexivity|].
    cbn [id_Provider id_UserID]. change (String.eqb GitHubActions_String "") with false.
    cbn iota. by rewrite replace_byte_idem.
Qed.

(** A Keycloak with one user, a token of theirs, and one of GitHub Actions. *)
Definition ex_user : UserRepresentation :=
  {| ur_Id := Some "5f2a"; ur_Username := "alice"; ur_FirstName := Some "Alice";
     ur_LastName := None; ur_Attributes := true |}.
Definition ex_keycloak : KeycloakClient :=
  {| kc_UserById id := if String.eqb id "5f2a" then Some ex_user else None;
     kc_UsersByName _ := None; kc_UsersByQuery _ := None |}.
Definition ex_providers : list IdentityProvider :=
  [@KeyCloak ex_keycloak "" "https://keycloak"; GitHubActions].
Definition ex_user_token : Token :=
  {| tok_Subject := "5f2a"; tok_Issuer := "https://keycloak"; tok_Email := "";
     tok_preferred_username := Some "alice"; tok_gh_id := None |}.
Definition ex_token : Token :=
  {| tok_Subject := "repo:acme/app:ref:refs/heads/main"; tok_Issuer := ghIssuerUrl;
     tok_Email := ""; tok_preferred_username := None; tok_gh_id := None |}.
Definition ex_subject : string := "githubactions/repo+acme/app+ref+refs/heads/main".

Definition ex_stored_as (token : Token) : option string :=
  match NewIdentityClient ex_providers with
  | Ok c => match IdentityClient_Validate c token with
            | Ok id => Some (Identity_String (Some id))
            | _ => None
            end
  | _ => None
  end.

Lemma stored_identity_resolves_witness :
  ∃ c, NewIdentityClient ex_providers = Ok c ∧
    (∃ id, IdentityClient_Resolve c "5f2a" = Ok id ∧ Identity_String (Some id) = "5f2a") ∧
    (∃ id, IdentityClient_Resolve c ex_subject = Ok id ∧ Identity_String (Some id) = ex_subject).
Proof.
  assert (Hu : ex_stored_as ex_user_token = Some "5f2a") by (by vm_compute).
  assert (Ht : ex_stored_as ex_token = Some ex_subject) by (by vm_compute).
  unfold ex_stored_as in Hu, Ht.
  destruct (NewIdentityClient ex_providers) as [c|e|m] eqn:Hc; [|done..].
  exists c. split; [reflexivity|]. split.
  - destruct (IdentityClient_Validate c ex_user_token) as [id|e|m] eqn:Hval; [|done..].
    injection Hu as Hu. rewrite <-Hu.
    apply (@stored_identity_resolves ex_keycloak "https://keycloak" c ex_user_token id Hc); [|exact Hval].
    intros _. split; [reflexivity|]. exists ex_user. split_and!; reflexivity.
  - destruct (IdentityClient_Validate c ex_token) as [id|e|m] eqn:Hval; [|done..].
    injection Ht as Ht. rewrite <-Ht.
    apply (@stored_identity_resolves ex_keycloak "https://keycloak" c ex_token id Hc); [|exact Hval].
    discriminate.
Defined.
