(* ===== verification/Access.v ===== *)
(** * Who may call a handler

    The interceptors around every handler: the validation of the token of
    internal/controlplane/handlers_token.go, the project of the request and the
    authorization of handlers_authz.go, in the order of server.go. *)

From S2P Require Import Prelude GoErrors GoMonad GoStrings Uuid EntityEvent Database HistoryDb.
From S2P Require Import EntityModels ExecLock Eea Crypto Authz Accounts Invites Identities.
Local Open Scope string_scope.

(** ** The options of a method: proto/minder/v1/minder.proto *)

Inductive TargetResource :=
| TARGET_RESOURCE_UNSPECIFIED
| TARGET_RESOURCE_NONE
| TARGET_RESOURCE_USER
| TARGET_RESOURCE_PROJECT.

#[export] Instance TargetResource_eq_dec : EqDecision TargetResource.
Proof. solve_decision. Defined.

(** A relation is its number; the names are an option of the enum's values, of
    which the first has none. *)
Abbreviation Relation := nat.

Definition relation_names : list string :=
  [""; "create"; "get"; "update"; "delete"; "role_list"; "role_assignment_list";
   "role_assignment_create"; "role_assignment_remove"; "repo_get"; "repo_create"; "repo_update";
   "repo_delete"; "artifact_get"; "artifact_create"; "artifact_update"; "artifact_delete";
   "pr_get"; "pr_create"; "pr_update"; "pr_delete"; "provider_get"; "provider_create";
   "provider_update"; "provider_delete"; "rule_type_get"; "rule_type_create";
   "rule_type_update"; "rule_type_delete"; "profile_get"; "profile_create"; "profile_update";
   "profile_delete"; "profile_status_get"; "remote_repo_get";
   "entity_reconciliation_task_create"; "entity_reconcile"; "role_assignment_update";
   "data_source_get"; "data_source_create"; "data_source_update"; "data_source_delete";
   "entity_get"; "entity_register"; "entity_update"; "entity_delete"].

Definition RelationAsName (relation : Relation) : string :=
  default "" (relation_names !! relation).

Record RpcOptions := { opt_TargetResource : TargetResource; opt_Relation : Relation }.

(** ** handlers_token.go *)

(** A call: the options of its method, the bearer token of its metadata, and the
    project and the provider its context names, if the request has one. *)
Record Call := {
  call_Options : res RpcOptions;
  call_Token : res string;
  call_Context : option (string * string);
}.

(** The context of a handler: the caller, and the project and the provider. *)
Record EntityContext := { ec_Project : UUID; ec_Provider : string }.

Definition anonymous : Caller :=
  {| cl_Identity := None; cl_Email := Err (EText "no user token in context"); cl_ghId := None |}.

Definition ErrNoProjectInContext : gerr :=
  ENew "controlplane.ErrNoProjectInContext" "no project found in context".

Section access.
Context `{UuidLib} `{PgText} {X V : Type} `{!OpenFGA X} `{!JwtLib V}.
(** The validators of tokens, the identity client, the configured administrators
    that may delete, and a bound of the depth of the projects. *)
Context (validators : list V) (idClient : IdentityClient) (AdminDeleters : list string) (depth : nat).

(** The identity and the token in the context. *)
Definition caller_of (id : Identity) (token : Token) : Caller :=
  {| cl_Identity := Some id; cl_Email := Ok (tok_Email token); cl_ghId := tok_gh_id token |}.

Definition authenticate (call : Call) : res Caller :=
  match call_Token call with
  | Err err => Err (failing "Unauthenticated" "no auth token: " err)
  | Panic m => Panic m
  | Ok token =>
      match merged_ParseAndValidate validators token with
      | Err err => Err (failing "Unauthenticated" "invalid auth token: " err)
      | Panic m => Panic m
      | Ok parsedToken =>
          match IdentityClient_Validate idClient parsedToken with
          | Err err => Err (failing "Unauthenticated" "invalid auth token: " err)
          | Panic m => Panic m
          | Ok id => Ok (caller_of id parsedToken)
          end
      end
  end.

Definition TokenValidationInterceptor {R} (call : Call)
    (handler : RpcOptions → Caller → prog (AuthState X) R) : prog (AuthState X) R :=
  opts ← or_throw (failing "Internal" "Error getting options for method: ")
           (lift (call_Options call));
  if bool_decide (opt_TargetResource opts = TARGET_RESOURCE_NONE) then handler opts anonymous
  else caller ← lift (authenticate call); handler opts caller.

(** ** handlers_authz.go *)

Definition getProjectIDFromRequest (call : Call) : prog (AuthState X) UUID :=
  match call_Context call with
  | None => throw (status_error "Internal" "Error extracting context from request")
  | Some (selectedProject, _) =>
      if String.eqb selectedProject "" || String.eqb selectedProject (uuid_String uuid_Nil)
      then throw ErrNoProjectInContext
      else match uuid_Parse selectedProject with
           | Ok id => mret id
           | _ =>
               or_throw (λ err, if is_in err ErrNoRows
                   then status_error "InvalidArgument"
                          ("project " +:+ String dquote (selectedProject +:+ String dquote " not found"))
                   else failing "Internal" "error getting project: " err)
                 (GetProjectByName selectedProject)
           end
  end.

Definition getProviderFromRequest (call : Call) : string :=
  match call_Context call with Some (_, provider) => provider | None => "" end.

Definition getDefaultProjectID (caller : Caller) : prog (AuthState X) UUID :=
  let userId := cl_Identity caller in
  (match userId with
   | Some id =>
       if String.eqb (Identity_String userId) (id_UserID id)
       then or_throw (λ _, status_error "NotFound" "user not found")
              (GetUserBySubject (Identity_String userId));; mret tt
       else mret tt
   | None => mret tt
   end);;
  prjs ← or_throw (failing "Internal" "cannot find projects for user: ")
           (on_fga (ProjectsForUser depth (Identity_String userId)));
  match prjs with
  | [] => throw (status_error "PermissionDenied"
      "user has no permissions in any projects.  Consider using CreateProject to create one.")
  | [prj] => mret prj
  | _ => throw (status_error "InvalidArgument"
      "Multiple projects found, cannot determine default project. Please explicitly set a project and run the command again.")
  end.

Definition populateEntityContext (call : Call) (caller : Caller)
    : prog (AuthState X) EntityContext :=
  projectID ← try (getProjectIDFromRequest call);
  projectID ← match projectID with
              | inl id => mret id
              | inr err => if is_in err ErrNoProjectInContext then getDefaultProjectID caller
                           else throw err
              end;
  mret {| ec_Project := projectID; ec_Provider := getProviderFromRequest call |}.

(** [EntityFromContext] gives the empty context when there is none. *)
Definition no_entity_context : EntityContext := {| ec_Project := uuid_Nil; ec_Provider := "" |}.

Definition EntityContextProjectInterceptor {R} (opts : RpcOptions) (call : Call) (caller : Caller)
    (handler : EntityContext → prog (AuthState X) R) : prog (AuthState X) R :=
  match opt_TargetResource opts with
  | TARGET_RESOURCE_UNSPECIFIED =>
      throw (status_error "Internal"
               "cannot perform authorization, because target resource is unspecified")
  | TARGET_RESOURCE_PROJECT => ctx ← populateEntityContext call caller; handler ctx
  | _ => handler no_entity_context
  end.

(** The numbers of the relations that delete. *)
Definition deleteOps : list Relation := [4; 8; 12; 16; 20; 24; 28; 32; 41; 45].

Definition allowedAdminDelete (caller : Caller) (relation : Relation) : bool :=
  bool_decide (Identity_String (cl_Identity caller) ∈ AdminDeleters) &&
  bool_decide (relation ∈ deleteOps).

Definition ProjectAuthorizationInterceptor {R} (opts : RpcOptions) (caller : Caller)
    (entityCtx : EntityContext) (handler : prog (AuthState X) R) : prog (AuthState X) R :=
  if negb (bool_decide (opt_TargetResource opts = TARGET_RESOURCE_PROJECT)) then handler
  else
    let relationName := RelationAsName (opt_Relation opts) in
    if String.eqb relationName ""
    then throw (status_error "Internal" "error getting name for requested relation")
    else
      checked ← try (on_fga (Check_action (cl_Identity caller) relationName (ec_Project entityCtx)));
      match checked with
      | inl _ => handler
      | inr err =>
          if is_in err ErrNotAuthorized && allowedAdminDelete caller (opt_Relation opts)
          then handler
          else throw (status_error "PermissionDenied"
                 ("user " +:+ String dquote (Identity_Human (cl_Identity caller) +:+ String dquote
                  (" is not authorized to perform this operation on project " +:+
                   String dquote (uuid_String (ec_Project entityCtx) +:+ String dquote "")))))
      end.

(** The chain of server.go, as far as it decides who may call. *)
Definition serve {R} (call : Call) (handler : Caller → EntityContext → prog (AuthState X) R)
    : prog (AuthState X) R :=
  TokenValidationInterceptor call (λ opts caller,
    EntityContextProjectInterceptor opts call caller (λ entityCtx,
      ProjectAuthorizationInterceptor opts caller entityCtx (handler caller entityCtx))).

(** ** What a handler can rely on *)

(** The store of the authorization has allowed the relation to the caller. *)
Definition allowed (caller : Caller) (relation : string) (project : UUID) (x : X) : Prop :=
  ∃ x', fga_Check (getUserForTuple (Identity_String (cl_Identity caller)), relation,
                   getProjectForTuple project) x = (x', Ok (Some true)).

(** The caller may call a handler on an entity context. *)
Inductive may_call (call : Call) (caller : Caller) (ectx : EntityContext) (x : X) : Prop :=
| may_call_none opts :
    call_Options call = Ok opts → opt_TargetResource opts = TARGET_RESOURCE_NONE →
    caller = anonymous → ectx = no_entity_context → may_call call caller ectx x
| may_call_user opts :
    call_Options call = Ok opts → opt_TargetResource opts = TARGET_RESOURCE_USER →
    authenticate call = Ok caller → ectx = no_entity_context → may_call call caller ectx x
| may_call_project opts :
    call_Options call = Ok opts → opt_TargetResource opts = TARGET_RESOURCE_PROJECT →
    authenticate call = Ok caller → RelationAsName (opt_Relation opts) ≠ "" →
    Identity_String (cl_Identity caller) ≠ "" →
    allowed caller (RelationAsName (opt_Relation opts)) (ec_Project ectx) x →
    may_call call caller ectx x
| may_call_admin opts :
    call_Options call = Ok opts → opt_TargetResource opts = TARGET_RESOURCE_PROJECT →
    authenticate call = Ok caller → opt_Relation opts ∈ deleteOps →
    Identity_String (cl_Identity caller) ∈ AdminDeleters →
    may_call call caller ectx x.

Lemma Check_action_Ok id action project x x' :
  Check_action id action project x = (x', Ok tt) →
  Identity_String id ≠ "" ∧
  fga_Check (getUserForTuple (Identity_String id), action, getProjectForTuple project) x
    = (x', Ok (Some true)).
Proof.
  unfold Check_action. destruct (String.eqb_spec (Identity_String id) "") as [|Hne]; [done|].
  intros (x1 & [[]|] & Hc%wrapf_Ok & Hr)%prog_bind_Ok; [|done..].
  by injection Hr as <-.
Qed.

(** The handler was called as it may be, or it was not called: the outcome is the
    same for every other handler. *)
Definition guarded {R} (call : Call) (m : (Caller → EntityContext → prog (AuthState X) R) → prog (AuthState X) R)
    (s : AuthState X) : Prop :=
  (∃ caller ectx x s1, may_call call caller ectx x ∧ as_accounts s1 = as_accounts s ∧
     w_db (as_world s1) = w_db (as_world s) ∧ ∀ h, m h s = h caller ectx s1) ∨
  (∃ s' r, is_ok r = false ∧ as_accounts s' = as_accounts s ∧
     w_db (as_world s') = w_db (as_world s) ∧ ∀ h, m h s = (s', r)).

(** A program before the handler that leaves the tables alone. *)
Definition untouched {A} (m : prog (AuthState X) A) : Prop :=
  ∀ s, as_accounts (m s).1 = as_accounts s ∧ w_db (as_world (m s).1) = w_db (as_world s).

Lemma untouched_bind {A B} (m : prog (AuthState X) A) (f : A → prog (AuthState X) B) :
  untouched m → (∀ a, untouched (f a)) → untouched (m ≫= f).
Proof.
  intros Hm Hf s. destruct (Hm s) as [Ha Hw]. unfold mbind, prog_bind.
  destruct (m s) as [s1 [a|e|msg]]; cbn in *; [|done..].
  destruct (Hf a s1) as [Ha' Hw']. by rewrite Ha', Hw'.
Qed.
Lemma untouched_lift {A} (r : res A) : untouched (lift r).
Proof. done. Qed.
Lemma untouched_ret {A} (a : A) : untouched (mret a).
Proof. done. Qed.
Lemma untouched_throw {A} e : untouched (throw e : prog (AuthState X) A).
Proof. done. Qed.
Lemma untouched_or_throw {A} f (m : prog (AuthState X) A) : untouched m → untouched (or_throw f m).
Proof. intros Hm s. rewrite or_throw_state. apply Hm. Qed.
Lemma untouched_try {A} (m : prog (AuthState X) A) : untouched m → untouched (try m).
Proof. intros Hm s. specialize (Hm s). unfold try. by destruct (m s) as [s1 []]. Qed.
Lemma untouched_fga {A} (m : prog X A) : untouched (on_fga m).
Proof. intros s. unfold on_fga. by destruct (m (as_fga s)). Qed.
Lemma untouched_select {A} (f : AuthState X → res A) : untouched (account_select f).
Proof.
  intros s. destruct (account_select f s) as [s' r] eqn:Hs.
  apply account_select_cases in Hs as [Hs _]. split; [apply Hs|by apply same_db].
Qed.
Create HintDb untouched.
#[local] Hint Resolve untouched_bind untouched_lift untouched_ret untouched_throw
  untouched_or_throw untouched_try untouched_fga untouched_select : untouched.

Lemma populateEntityContext_untouched call caller : untouched (populateEntityContext call caller).
Proof.
  unfold populateEntityContext, getProjectIDFromRequest, getDefaultProjectID, GetProjectByName,
    GetUserBySubject.
  repeat (intros; first [progress eauto with untouched nocore | apply untouched_bind
    | apply untouched_or_throw | apply untouched_try | case_match]).
Qed.

Lemma guarded_fails {R} call (m : (Caller → EntityContext → prog (AuthState X) R) →
    prog (AuthState X) R) s s' r :
  is_ok r = false → as_accounts s' = as_accounts s → w_db (as_world s') = w_db (as_world s) →
  (∀ h, m h s = (s', r)) → guarded call m s.
Proof. intros. right. by exists s', r. Qed.

Lemma guarded_after {R} call (m m1 : (Caller → EntityContext → prog (AuthState X) R) →
    prog (AuthState X) R) s s1 :
  as_accounts s1 = as_accounts s → w_db (as_world s1) = w_db (as_world s) →
  (∀ h, m h s = m1 h s1) → guarded call m1 s1 → guarded call m s.
Proof.
  intros Ha Hw Hrun [(caller & ectx & x & s2 & Hmay & Ha2 & Hw2 & Hh)|(s' & r & Hr & Ha2 & Hw2 & Hh)].
  - left. exists caller, ectx, x, s2. split_and!; [done|congruence..|]. intros h. by rewrite Hrun.
  - right. exists s', r. split_and!; [done|congruence..|]. intros h. by rewrite Hrun.
Qed.

Lemma guarded_authorization {R} call opts caller ectx s :
  call_Options call = Ok opts → opt_TargetResource opts = TARGET_RESOURCE_PROJECT →
  authenticate call = Ok caller →
  guarded (R := R) call
    (λ h, ProjectAuthorizationInterceptor opts caller ectx (h caller ectx)) s.
Proof.
  intros Hopts Htarget Hauth. unfold ProjectAuthorizationInterceptor. rewrite Htarget.
  rewrite bool_decide_eq_true_2 by done. cbn [negb].
  destruct (String.eqb_spec (RelationAsName (opt_Relation opts)) "") as [|Hname];
    [by eapply guarded_fails; [..|intros h; reflexivity]|].
  destruct (Check_action (cl_Identity caller) (RelationAsName (opt_Relation opts)) (ec_Project ectx)
    (as_fga s)) as [x' r] eqn:Hc.
  unfold mbind, prog_bind, try, on_fga.
  destruct r as [[]|e|m].
  - apply Check_action_Ok in Hc as Hc'. destruct Hc' as [Hne Hc']. left.
    exists caller, ectx, (as_fga s), (with_fga x' s).
    split; [eapply may_call_project; [done..|by exists x']|]. split_and!; [done..|].
    intros h. by rewrite Hc.
  - destruct (is_in e ErrNotAuthorized && allowedAdminDelete caller (opt_Relation opts)) eqn:Hadm.
    + pose proof Hadm as [_ [Hid Hop]%andb_prop]%andb_prop. apply bool_decide_eq_true in Hid, Hop.
      left. exists caller, ectx, (as_fga s), (with_fga x' s).
      split; [by eapply may_call_admin|]. split_and!; [done..|]. intros h. by rewrite Hc, Hadm.
    + by eapply guarded_fails; [..|intros h; rewrite Hc, Hadm; reflexivity].
  - by eapply guarded_fails; [..|intros h; rewrite Hc; reflexivity].
Qed.

Lemma guarded_project {R} call opts caller s :
  call_Options call = Ok opts → opt_TargetResource opts = TARGET_RESOURCE_PROJECT →
  authenticate call = Ok caller →
  guarded (R := R) call (λ h, entityCtx ← populateEntityContext call caller;
    ProjectAuthorizationInterceptor opts caller entityCtx (h caller entityCtx)) s.
Proof.
  intros Hopts Htarget Hauth. pose proof (populateEntityContext_untouched call caller s) as [Ha Hw].
  destruct (populateEntityContext call caller s) as [s1 [ectx|e|m]] eqn:Hp; cbn in Ha, Hw.
  2-3: by eapply guarded_fails; [..|intros h; unfold mbind, prog_bind; rewrite Hp; reflexivity].
  eapply guarded_after; [exact Ha|exact Hw| |by apply (guarded_authorization call opts caller ectx)].
  intros h. by rewrite (prog_bind_run _ _ _ _ _ Hp).
Qed.

(** C3: no handler is reached around the authorization.  Whatever the call, the
    handler runs once with a context it may be called with, or not at all: a
    handler of a project only for the caller a token was validated for, and when
    the store has allowed the method's relation to that caller on the very
    project of the context, or when the relation deletes and the caller is one
    of the configured administrators; a handler of the user's own data only with
    a validated token; without one only a handler that needs none.  Until then
    no table has changed. *)
Theorem handlers_guarded {R} call s :
  guarded call (λ h : Caller → EntityContext → prog (AuthState X) R, serve call h) s.
Proof.
  unfold serve, TokenValidationInterceptor.
  destruct (call_Options call) as [opts|e|m] eqn:Hopts;
    [|by eapply guarded_fails; [..|intros h; reflexivity]..].
  destruct (decide (opt_TargetResource opts = TARGET_RESOURCE_NONE)) as [Hnone|Hnone].
  { left. exists anonymous, no_entity_context, (as_fga s), s.
    split; [by eapply may_call_none|]. split; [done|]. split; [done|]. intros h.
    unfold or_throw, mbind, prog_bind, try, lift. cbn [mret prog_ret].
    rewrite bool_decide_eq_true_2 by done.
    unfold EntityContextProjectInterceptor, ProjectAuthorizationInterceptor. by rewrite Hnone. }
  unfold or_throw, mbind, prog_bind, try, lift. cbn [mret prog_ret].
  rewrite bool_decide_eq_false_2 by done.
  destruct (authenticate call) as [caller|e|m] eqn:Hauth;
    [|by eapply guarded_fails; [..|intros h; reflexivity]..].
  unfold EntityContextProjectInterceptor.
  destruct (opt_TargetResource opts) eqn:Ht; [|done| |].
  - by eapply guarded_fails; [..|intros h; reflexivity].
  - left. exists caller, no_entity_context, (as_fga s), s.
    split; [by eapply may_call_user|]. split; [done|]. split; [done|]. intros h.
    unfold ProjectAuthorizationInterceptor. by rewrite Ht.
  - by apply guarded_project.
Qed.
End access.
