(* ===== verification/SchemaUpdate.v ===== *)
(** * Updates of JSON schemas

    internal/util/schemaupdate/schemaupdate.go: a new schema must not break what
    was accepted under the old one.  The merge of mergo and the comparison of
    go-cmp are interfaces; the filters the comparison is given are the code's. *)

From S2P Require Import Prelude GoErrors GoMonad GoStrings Properties ApiTypes.
From Stdlib Require Import SpecFloat.
Local Open Scope string_scope.

Abbreviation schema := (gmap string goval).

(** [Struct.AsMap], of which a nil struct is empty. *)
Definition AsMap `{Structpb} (s : option Struct) : schema := AsInterface <$> default ∅ s.

(** ** Paths of a comparison *)

(** The last step of a path of go-cmp, when it goes into a map: the values on
    both sides the step before it stands for, the key, and the values at the
    key, which are not there if the map has no such key. *)
Record MapStep := {
  ms_parents : option goval * option goval; ms_key : string;
  ms_values : option goval * option goval;
}.

Definition isValueString (value : option goval) : bool :=
  match value with Some (GString _) => true | _ => false end.

Definition isMapWithKey (value : option goval) (key : string) : bool :=
  match value with Some (GMap m) => bool_decide (is_Some (m !! key)) | _ => false end.

Definition isScalarDescription (p : MapStep) : bool :=
  String.eqb (ms_key p) "description" && isValueString (ms_values p).1 && isValueString (ms_values p).2.

Definition hasTypeSibling (p : option goval * option goval) : bool :=
  isMapWithKey p.1 "type" && isMapWithKey p.2 "type".

Definition isDefaultValue (p : MapStep) : bool :=
  String.eqb (ms_key p) "default" && hasTypeSibling (ms_parents p).

(** What is found along the keys of nested maps. *)
Fixpoint at_path (path : list string) (v : goval) : option goval :=
  match path with
  | [] => Some v
  | k :: path => match v with GMap m => m !! k ≫= at_path path | _ => None end
  end.

(** One of the steps of the path is ignored by a filter. *)
Fixpoint ignored (filters : list (MapStep → bool)) (path : list string) (a b : option goval) : bool :=
  match path with
  | [] => false
  | k :: path =>
      let at_key v := match v with Some (GMap m) => m !! k | _ => None end in
      let values := (at_key a, at_key b) in
      existsb (λ f, f {| ms_parents := (a, b); ms_key := k; ms_values := values |}) filters
      || ignored filters path values.1 values.2
  end.

(** A value that is no map, no slice and not the zero of its type. *)
Definition nonzero (v : goval) : bool :=
  match v with
  | GNil | GBool false | GString "" => false
  | GInt z | GInt64 z | GUint64 z => negb (z =? 0)%Z
  | GFloat64 (S754_zero _) => false
  | GMap _ | GSlice _ => false
  | _ => true
  end.

(** [mergo.Merge] of its second argument into the first, with [WithOverride] and
    [WithSliceDeepCopy]: what is not empty overrides; [cmp.Equal] with the given
    filters ignored: values are equal where nothing is ignored. *)
Class SchemaLib := {
  mergo_Merge : schema → schema → schema + gerr;
  cmp_Equal : list (MapStep → bool) → schema → schema → bool;
  Merge_overrides dst src m path v :
    mergo_Merge dst src = inl m → at_path path (GMap src) = Some v → nonzero v = true →
    at_path path (GMap m) = Some v;
  Equal_scalar filters a b path v :
    cmp_Equal filters a b = true → at_path path (GMap a) = Some v → nonzero v = true →
    at_path path (GMap b) = Some v ∨ ignored filters path (Some (GMap a)) (Some (GMap b)) = true;
}.

(** ** schemaupdate.go *)

(** [==] of two interface values, which panics on what cannot be compared. *)
Definition hashable (v : goval) : bool :=
  match v with GMap _ | GSlice _ => false | _ => true end.

Definition interface_eqb (a b : goval) : bool :=
  match a, b with
  | GNil, GNil => true
  | GBool a, GBool b => Bool.eqb a b
  | GInt a, GInt b | GInt64 a, GInt64 b | GUint64 a, GUint64 b => (a =? b)%Z
  | GFloat64 a, GFloat64 b => SFeqb a b
  | GString a, GString b => String.eqb a b
  | _, _ => false
  end.

(** [reflect.DeepEqual]: maps of the same keys, slices of the same length. *)
Fixpoint DeepEqual (a b : goval) {struct a} : bool :=
  match a, b with
  | GMap m, GMap m' =>
      (size m =? size m')%nat &&
      map_fold (λ k x same,
        same && match m' !! k with Some y => DeepEqual x y | None => false end) true m
  | GSlice l, GSlice l' =>
      (fix go l l' {struct l} :=
         match l, l' with
         | [], [] => true
         | x :: l, y :: l' => DeepEqual x y && go l l'
         | _, _ => false
         end) l l'
  | _, _ => interface_eqb a b
  end.

(** The keys of the sets are interface values. *)
Definition requiredIsSuperset (oldRequired newRequired : list goval) : res bool :=
  if forallb hashable oldRequired && forallb hashable newRequired
  then Ok (forallb (λ n, existsb (interface_eqb n) oldRequired) newRequired)
  else Panic "runtime error: hash of unhashable type".

Definition cannot_require : res unit := Err (EText "cannot add required fields to rule schema").

Definition validateRequired (oldSchemaMap newSchemaMap : schema) : res unit :=
  match oldSchemaMap !! "required", newSchemaMap !! "required" with
  | _, None => Ok tt
  | None, Some _ => cannot_require
  | Some oldRequired, Some newRequired =>
      match oldRequired, newRequired with
      | GSlice oldRequiredSlice, GSlice newRequiredSlice =>
          superset ← requiredIsSuperset oldRequiredSlice newRequiredSlice;
          if superset : bool then Ok tt else cannot_require
      | GSlice _, _ => Err (EText "invalid new required field")
      | _, _ => Err (EText "invalid old required field")
      end
  end.

(** [fmt.Errorf(pre + "%v", err)] on the error of a pure call. *)
Definition textf_res {A} (pre : string) (r : res A) : res A :=
  match r with Err e => Err (EText (pre +:+ Error e)) | r => r end.

Definition validateItems (oldSchemaMap newSchemaMap : schema) : res unit :=
  match oldSchemaMap !! "items", newSchemaMap !! "items" with
  | Some oldItems, Some newItems =>
      match oldItems, newItems with
      | GMap oldItemsMap, GMap newItemsMap =>
          if DeepEqual (GMap newItemsMap) (GMap oldItemsMap) then Ok tt
          else Err (EText "cannot change items type of rule schema")
      | GMap _, _ => Err (EText "invalid new items field")
      | _, _ => Err (EText "invalid old items field")
      end
  | _, _ => Err (EText "cannot remove items from rule schema")
  end.

Definition validateArraySchemaUpdate (oldSchemaMap newSchemaMap : schema) : res unit :=
  textf_res "failed to validate items: " (validateItems oldSchemaMap newSchemaMap).

Definition getOrInferType (schemaMap : schema) : res string :=
  match schemaMap !! "type" with
  | None => Ok "object"
  | Some (GString typ) => Ok typ
  | Some _ => Err (EText "invalid type field")
  end.

Definition schemaIsNilOrEmpty (m : schema) : bool := bool_decide (m = ∅).

Section update.
Context `{SchemaLib}.

(** The options the comparison is given. *)
Definition ignoring : list (MapStep → bool) := [isScalarDescription; isDefaultValue].

Definition schemasAreEqual (a b : schema) : bool := cmp_Equal ignoring a b.

(** The merge works on a copy of the new properties. *)
Definition validateProperties (oldSchemaMap newSchemaMap : schema) : res unit :=
  match oldSchemaMap !! "properties", newSchemaMap !! "properties" with
  | Some oldProperties, Some newProperties =>
      match oldProperties, newProperties with
      | GMap oldPropertiesMap, GMap newPropertiesMap =>
          match mergo_Merge newPropertiesMap oldPropertiesMap with
          | inl mergedSchema =>
              if schemasAreEqual mergedSchema newPropertiesMap then Ok tt
              else Err (EText "cannot remove properties from rule schema")
          | inr err => Err (EText ("failed to merge old and new schema: " +:+ Error err))
          end
      | GMap _, _ => Err (EText "invalid new properties field")
      | _, _ => Err (EText "invalid old properties field")
      end
  | _, _ => Err (EText "cannot remove properties from object type rule schema")
  end.

Definition validateObjectSchemaUpdate (oldSchemaMap newSchemaMap : schema) : res unit :=
  textf_res "failed to validate required fields: " (validateRequired oldSchemaMap newSchemaMap) ≫= λ _,
  textf_res "failed to validate properties: " (validateProperties oldSchemaMap newSchemaMap).

Definition ValidateSchemaUpdateMap (oldSchemaMap newSchemaMap : schema) : res unit :=
  if schemaIsNilOrEmpty newSchemaMap then Ok tt
  else if schemaIsNilOrEmpty oldSchemaMap then
    if bool_decide (is_Some (newSchemaMap !! "required")) then cannot_require else Ok tt
  else
    oldTypeCast ← getOrInferType oldSchemaMap;
    newTypeCast ← getOrInferType newSchemaMap;
    if negb (String.eqb oldTypeCast newTypeCast)
    then Err (EText "cannot change type of rule schema")
    else if negb (String.eqb oldTypeCast "object") && negb (String.eqb oldTypeCast "array")
    then Ok tt
    else if String.eqb oldTypeCast "array"
    then validateArraySchemaUpdate oldSchemaMap newSchemaMap
    else validateObjectSchemaUpdate oldSchemaMap newSchemaMap.

Definition ValidateSchemaUpdate `{Structpb} (oldRuleSchema newRuleSchema : option Struct) : res unit :=
  ValidateSchemaUpdateMap (AsMap oldRuleSchema) (AsMap newRuleSchema).
End update.

(** ** What an accepted update keeps *)

(** Texts and defaults may change: a description that stays a text, and what is
    below a default next to a type. *)
Definition advisory (new : goval) (path : list string) : Prop :=
  (∃ pre s, path = (pre ++ ["description"])%list ∧ at_path path new = Some (GString s)) ∨
  (∃ pre suf m, path = (pre ++ "default" :: suf)%list ∧ at_path pre new = Some (GMap m) ∧
                is_Some (m !! "type")).

Lemma advisory_cons k m path y :
  m !! k = Some y → advisory y path → advisory (GMap m) (k :: path).
Proof.
  intros Hk [(pre & s & -> & Hs)|(pre & suf & m' & -> & Hm & Ht)].
  - left. exists (k :: pre), s. split; [done|]. simpl. by rewrite Hk.
  - right. exists (k :: pre), suf, m'. split_and!; [done| |done]. simpl. by rewrite Hk.
Qed.

Lemma isMapWithKey_inv v key : isMapWithKey v key = true →
  ∃ m, v = Some (GMap m) ∧ is_Some (m !! key).
Proof. destruct v as [[]|]; try done. intros ?%bool_decide_eq_true. eauto. Qed.

Lemma ignored_advisory path a b v :
  at_path path a = Some v → ignored ignoring path (Some a) b = true →
  ∃ b', b = Some b' ∧ advisory b' path.
Proof.
  revert a b. induction path as [|k path IH]; intros a b Ha; [done|]. cbn [ignored].
  destruct a as [| | | | | | |m| |]; try done. cbn [at_path] in Ha.
  apply bind_Some in Ha as (x & Hx & Ha). rewrite Hx.
  intros [Hf|Hi]%orb_true_iff.
  - cbn [existsb ignoring] in Hf. apply orb_true_iff in Hf as [Hd|Hd].
    + unfold isScalarDescription in Hd. cbn in Hd.
      apply andb_true_iff in Hd as [[->%String.eqb_eq Hl]%andb_true_iff Hr].
      destruct x; try done. destruct path as [|? ?]; [|done].
      destruct b as [[| | | | | | |m'| |]|]; try done. exists (GMap m'). split; [done|]. left.
      destruct (m' !! "description") as [[]|] eqn:Hd'; try done. exists [], s0.
      split; [done|]. simpl. by rewrite Hd'.
    + rewrite orb_false_r in Hd. unfold isDefaultValue, hasTypeSibling in Hd. cbn in Hd.
      apply andb_true_iff in Hd as [->%String.eqb_eq [_ Hm]%andb_true_iff].
      apply isMapWithKey_inv in Hm as (m' & -> & Ht). exists (GMap m'). split; [done|].
      right. by exists [], path, m'.
  - destruct (IH _ _ Ha Hi) as (y & Hy & Hadv).
    destruct b as [[| | | | | | |m'| |]|]; try done. exists (GMap m'). split; [done|].
    by eapply advisory_cons.
Qed.

(** An old value at a path of the properties is in the new ones, too. *)
Definition properties_kept (old new : schema) : Prop :=
  ∀ path v, at_path ("properties" :: path) (GMap old) = Some v → nonzero v = true →
  at_path ("properties" :: path) (GMap new) = Some v ∨
  ∃ p, new !! "properties" = Some p ∧ advisory p path.

(** What is required is nothing that was not. *)
Definition requires_less (old new : schema) : Prop :=
  ∀ l, new !! "required" = Some l → ∃ ns os, l = GSlice ns ∧ old !! "required" = Some (GSlice os) ∧
  ∀ n, n ∈ ns → ∃ o, o ∈ os ∧ interface_eqb n o = true.

Inductive compatible (old new : schema) : Prop :=
| compatible_removed : new = ∅ → compatible old new
| compatible_added : old = ∅ → new !! "required" = None → compatible old new
| compatible_changed t : getOrInferType old = Ok t → getOrInferType new = Ok t →
    (t = "object" → requires_less old new ∧ properties_kept old new) →
    (t = "array" → ∃ o n, old !! "items" = Some (GMap o) ∧ new !! "items" = Some (GMap n) ∧
                          DeepEqual (GMap n) (GMap o) = true) →
    compatible old new.

Lemma textf_Ok {A} pre (r : res A) a : textf_res pre r = Ok a ↔ r = Ok a.
Proof. by destruct r. Qed.

Lemma validateRequired_Ok old new : validateRequired old new = Ok tt → requires_less old new.
Proof.
  unfold validateRequired, requires_less, cannot_require. intros H l Hl. rewrite Hl in H.
  destruct (old !! "required") as [o|]; [|done].
  destruct o as [| | | | | | | |os|], l as [| | | | | | | |ns|]; try done.
  exists ns, os. split_and!; [done..|]. unfold requiredIsSuperset in H.
  destruct (forallb hashable os && forallb hashable ns); [|done]. cbn in H.
  destruct (forallb _ ns) eqn:Hs in H; [|done].
  intros n Hn. rewrite forallb_forall in Hs. specialize (Hs n (proj1 (list_elem_of_In _ _) Hn)).
  apply existsb_exists in Hs as (o & Ho & Heq). exists o. split; [by apply list_elem_of_In|done].
Qed.

Section compatibility.
Context `{SchemaLib}.

Lemma validateProperties_Ok old new : validateProperties old new = Ok tt → properties_kept old new.
Proof.
  unfold validateProperties, properties_kept, schemasAreEqual. intros Hv path v. cbn [at_path].
  destruct (old !! "properties") as [o|] eqn:Ho; [|done].
  destruct (new !! "properties") as [n|] eqn:Hn; [|done].
  destruct o as [| | | | | | |o| |], n as [| | | | | | |n| |]; try done.
  destruct (mergo_Merge n o) as [m|] eqn:Hm; [|done].
  destruct (cmp_Equal ignoring m n) eqn:He; [|done]. cbn. intros Hp Hz.
  pose proof (Merge_overrides _ _ _ _ _ Hm Hp Hz) as Hpm.
  destruct (Equal_scalar _ _ _ _ _ He Hpm Hz) as [Hk|Hi]; [by left|right].
  destruct (ignored_advisory _ _ _ _ Hpm Hi) as (b & [= <-] & Hadv). eauto.
Qed.

(** An update of a schema that is accepted breaks nothing that was accepted
    before: either the schema is dropped, or there was none and the new one
    requires nothing, or the type stays, an object requires no more than before
    and keeps every value of its properties apart from descriptions and
    defaults, and an array keeps its items. *)
Theorem schema_update_compatible old new :
  ValidateSchemaUpdateMap old new = Ok tt → compatible old new.
Proof.
  unfold ValidateSchemaUpdateMap, schemaIsNilOrEmpty. intros Hv.
  case_bool_decide; [by apply compatible_removed|].
  case_bool_decide.
  { case_bool_decide as Hr; [done|]. apply compatible_added; [done|]. by apply eq_None_not_Some. }
  destruct (getOrInferType old) as [t|e|s] eqn:Ho; try done.
  destruct (getOrInferType new) as [t'|e|s] eqn:Hn; try done. cbn in Hv.
  destruct (String.eqb_spec t t') as [<-|]; [|done]. cbn in Hv.
  apply (compatible_changed _ _ t); [done..| |].
  - intros ->. cbn in Hv. unfold validateObjectSchemaUpdate in Hv.
    destruct (textf_res _ (validateRequired old new)) as [[]|e|s] eqn:Hr; try done.
    apply textf_Ok in Hr. cbn in Hv. apply textf_Ok in Hv.
    split; [by apply validateRequired_Ok|by apply validateProperties_Ok].
  - intros ->. cbn in Hv. unfold validateArraySchemaUpdate in Hv. apply textf_Ok in Hv.
    unfold validateItems in Hv.
    destruct (old !! "items") as [o|], (new !! "items") as [n|]; try done.
    destruct o as [| | | | | | |o| |], n as [| | | | | | |n| |]; try done.
    destruct (DeepEqual (GMap n) (GMap o)) eqn:He; [|done]. eauto.
Qed.

(** An object without properties cannot be updated, not even to itself. *)
Theorem unchanged_object_refused s : s ≠ ∅ → getOrInferType s = Ok "object" →
  s !! "required" = None → s !! "properties" = None →
  ValidateSchemaUpdateMap s s =
    Err (EText "failed to validate properties: cannot remove properties from object type rule schema").
Proof.
  intros Hs Ht Hr Hp. unfold ValidateSchemaUpdateMap, schemaIsNilOrEmpty.
  rewrite !bool_decide_eq_false_2 by done. rewrite Ht. cbn.
  unfold validateObjectSchemaUpdate, validateRequired, validateProperties. by rewrite Hr, Hp.
Qed.
End compatibility.

(** ** A concrete merge and comparison *)

Definition is_empty (v : goval) : bool :=
  match v with
  | GMap m => bool_decide (m = ∅)
  | GSlice l => bool_decide (length l = 0)%nat
  | v => negb (nonzero v)
  end.

Definition override (mrg : schema → schema → schema) (d s : option goval) : option goval :=
  match d, s with
  | d, None => d
  | None, s => s
  | Some d, Some s =>
      if is_empty s then Some d
      else match d, s with
           | GMap d, GMap s => Some (GMap (mrg d s))
           | _, s => Some s
           end
  end.

Fixpoint ex_merge (n : nat) (dst src : schema) : schema :=
  match n with
  | O => src ∪ dst
  | S n => merge (override (ex_merge n)) dst src
  end.

Lemma empty_no_leaf x path v :
  is_empty x = true → at_path path x = Some v → nonzero v = true → False.
Proof.
  intros He Hp Hz. destruct path as [|k path]; cbn [at_path] in Hp.
  - injection Hp as ->. destruct v; cbn in *; try done; by rewrite Hz in He.
  - destruct x as [| | | | | | |m| |]; try done. cbn in He. apply bool_decide_eq_true in He as ->.
    by rewrite lookup_empty in Hp.
Qed.

Lemma ex_merge_overrides n dst src path v :
  at_path path (GMap src) = Some v → nonzero v = true →
  at_path path (GMap (ex_merge n dst src)) = Some v.
Proof.
  intros Hp Hz. revert n dst src Hp. induction path as [|k path IH]; intros n dst src Hp.
  { by injection Hp as <-. }
  cbn [at_path] in *. apply bind_Some in Hp as (x & Hx & Hp).
  destruct n as [|n]; cbn [ex_merge].
  { rewrite (lookup_union_l' _ _ _ (mk_is_Some _ _ Hx)). by rewrite Hx. }
  rewrite lookup_merge, Hx. destruct (dst !! k) as [d|]; [|exact Hp]. cbn [diag_None override].
  destruct (is_empty x) eqn:He; [by destruct (empty_no_leaf _ _ _ He Hp Hz)|].
  destruct d; try exact Hp. destruct x; try exact Hp. by apply IH.
Qed.

Fixpoint ex_equal (filters : list (MapStep → bool)) (n : nat) (a b : goval) : bool :=
  match n with
  | O => false
  | S n =>
      match a, b with
      | GMap m, GMap m' =>
          forallb (λ k,
            existsb (λ f, f {| ms_parents := (Some a, Some b); ms_key := k;
                               ms_values := (m !! k, m' !! k) |}) filters
            || match m !! k, m' !! k with
               | Some x, Some y => ex_equal filters n x y
               | _, _ => false
               end) (elements (dom m ∪ dom m'))
      | GSlice _, GSlice _ => DeepEqual a b
      | _, _ => interface_eqb a b
      end
  end.

Lemma SFeqb_eq f g : SFeqb f g = true → nonzero (GFloat64 f) = true → f = g.
Proof.
  destruct f as [[]|[]| |[] m e], g as [[]|[]| |[] m' e']; try done; cbn; intros Hf _.
  all: destruct (Z.compare_spec e e') as [->| |]; try done.
  all: change (Pos.compare_cont Eq m m') with (Pos.compare m m') in Hf.
  all: by destruct (Pos.compare_spec m m') as [->| |].
Qed.

Lemma interface_eqb_eq a b : interface_eqb a b = true → nonzero a = true → a = b.
Proof.
  destruct a, b; try done; cbn [interface_eqb].
  - by intros ->%Bool.eqb_prop.
  - by intros ->%Z.eqb_eq.
  - by intros ->%Z.eqb_eq.
  - by intros ->%Z.eqb_eq.
  - intros Hf Hz. by rewrite (SFeqb_eq _ _ Hf Hz).
  - by intros ->%String.eqb_eq.
Qed.

Lemma ex_equal_scalar filters n a b path v :
  ex_equal filters n a b = true → at_path path a = Some v → nonzero v = true →
  at_path path b = Some v ∨ ignored filters path (Some a) (Some b) = true.
Proof.
  intros He Hp Hz. revert n a b He Hp.
  induction path as [|k path IH]; intros [|n] a b He Hp; [done| |done|].
  - injection Hp as ->. left. cbn [at_path]. f_equal. symmetry.
    destruct v, b; done || by apply interface_eqb_eq.
  - cbn [at_path] in Hp. destruct a as [| | | | | | |m| |]; try done.
    apply bind_Some in Hp as (x & Hx & Hp). destruct b as [| | | | | | |m'| |]; try done.
    cbn [ex_equal] in He. rewrite forallb_forall in He.
    assert (Hk : k ∈ elements (dom m ∪ dom m')).
    { apply elem_of_elements, elem_of_union_l, elem_of_dom. eauto. }
    specialize (He k (proj1 (list_elem_of_In _ _) Hk)). cbn [ignored at_path]. rewrite Hx in *.
    apply orb_true_iff in He as [->|He]; [by right|].
    destruct (m' !! k) as [y|]; [|done]. cbn.
    destruct (IH n x y He Hp) as [?|?]; [by left|right]. by apply orb_true_iff; right.
Qed.

(** As deep as any schema of an example. *)
#[export] Instance ex_schemas : SchemaLib.
Proof.
  refine {| mergo_Merge := λ dst src, inl (ex_merge 8 dst src);
            cmp_Equal := λ filters a b, ex_equal filters 8 (GMap a) (GMap b) |}.
  - intros dst src m path v [= <-]. apply (ex_merge_overrides 8).
  - intros filters a b path v. apply (ex_equal_scalar filters 8).
Defined.

Definition ex_properties (description dflt : string) (extra : schema) : schema :=
  {["type" := GString "object"; "required" := GSlice [GString "branch"];
    "properties" := GMap (<["branch" := GMap {["type" := GString "string";
        "description" := GString description; "default" := GString dflt]}]> extra)]}.

Definition ex_schema : schema := ex_properties "the branch" "main" ∅.
Definition ex_schema_new : schema :=
  ex_properties "the branch to look at" "master" {["depth" := GMap {["type" := GString "integer"]}]}.

Lemma schema_update_compatible_witness : compatible ex_schema ex_schema_new.
Proof. apply schema_update_compatible. vm_compute. reflexivity. Defined.

(** A property is removed. *)
Example property_removed : is_ok (ValidateSchemaUpdateMap ex_schema_new ex_schema) = false.
Proof. vm_compute. reflexivity. Qed.

(** A requirement that is no text cannot be compared. *)
Example unhashable_requirement :
  ValidateSchemaUpdateMap {["required" := GSlice [GSlice []]]} {["required" := GSlice [GSlice []]]}
  = Panic "runtime error: hash of unhashable type".
Proof. vm_compute. reflexivity. Qed.
