(* ===== verification/DataSourceDb.v ===== *)
(** * Rule types and data sources in the database: statements

    The queries of internal/db/datasources.sql.go and rule_types.sql.go, with the
    references, the uniqueness and the cascades of database/migrations/. *)

From S2P Require Import Prelude GoErrors GoMonad GoStrings Uuid DbTypes ProfileModels.
From S2P Require Import Database HistoryDb EntityDb ProfileDb.
Local Open Scope string_scope.

Definition upd_sources (f : Sources → Sources) (w : World) : World :=
  set_db (set_sources (f (sources (w_db w))) (w_db w)) w.

Definition upd_source_rows (f : gmap UUID dbDataSource → gmap UUID dbDataSource) (s : Sources)
    : Sources :=
  {| s_sources := f (s_sources s); s_functions := s_functions s; s_references := s_references s |}.
Definition upd_functions (f : gmap UUID dbDataSourceFunction → gmap UUID dbDataSourceFunction)
    (s : Sources) : Sources :=
  {| s_sources := s_sources s; s_functions := f (s_functions s); s_references := s_references s |}.
Definition upd_references (f : gmap (UUID * UUID) UUID → gmap (UUID * UUID) UUID) (s : Sources)
    : Sources :=
  {| s_sources := s_sources s; s_functions := s_functions s; s_references := f (s_references s) |}.

Definition upd_rule_types (f : gmap UUID dbRuleType → gmap UUID dbRuleType) (w : World) : World :=
  set_db (set_rule_types (f (rule_types (w_db w))) (w_db w)) w.

(** ** Reading *)

Definition first_source (P : UUID * dbDataSource → Prop) `{∀ p, Decision (P p)} (d : Db)
    : res (UUID * dbDataSource) :=
  match filter P (map_to_list (s_sources (sources d))) with
  | row :: _ => Ok row
  | [] => Err ErrNoRows
  end.

Definition GetDataSource (id : UUID) (projects : list UUID) : prog World (UUID * dbDataSource) :=
  select (λ w, first_source (λ p, p.1 = id ∧ dso_ProjectID p.2 ∈ projects) (w_db w)).

(** The name is compared as it is written. *)
Definition source_named (d : Db) (name : string) (projects : list UUID)
    : res (UUID * dbDataSource) :=
  first_source (λ p, dso_Name p.2 = name ∧ dso_ProjectID p.2 ∈ projects) d.

Definition GetDataSourceByName_query (name : string) (projects : list UUID)
    : prog World (UUID * dbDataSource) :=
  select (λ w, source_named (w_db w) name projects).

Definition ListDataSources_query (projects : list UUID) : prog World (list (UUID * dbDataSource)) :=
  select (λ w, Ok (filter (λ p, dso_ProjectID p.2 ∈ projects)
                     (map_to_list (s_sources (sources (w_db w)))))).

Definition functions_of (d : Db) (id projectID : UUID) : list dbDataSourceFunction :=
  filter (λ f, dsf_DataSourceID f = id ∧ dsf_ProjectID f = projectID)
    (map_to_list (s_functions (sources d))).*2.

Definition ListDataSourceFunctions (id projectID : UUID) : prog World (list dbDataSourceFunction) :=
  select (λ w, Ok (functions_of (w_db w) id projectID)).

(** The rule types that refer to a data source. *)
Definition ListRuleTypesReferencesByDataSource (id : UUID) : prog World (list UUID) :=
  select (λ w, Ok ((filter (λ p, p.1.2 = id) (map_to_list (s_references (sources (w_db w))))).*1.*1)).

Definition GetRuleTypeByID (id : UUID) : prog World (UUID * dbRuleType) :=
  select (λ w, match rule_types (w_db w) !! id with
               | Some row => Ok (id, row)
               | None => Err ErrNoRows
               end).

Definition ListRuleTypesByProject (projectID : UUID) : prog World (list (UUID * dbRuleType)) :=
  select (λ w, Ok (filter (λ p, rty_ProjectID p.2 = projectID) (map_to_list (rule_types (w_db w))))).

(** The names of the profiles with a rule of the type, each once. *)
Definition profiles_instantiating (d : Db) (ruleTypeID : UUID) : list string :=
  remove_dups (omap (λ r, dpr_Name <$> profiles d !! rin_ProfileID r)
    (filter (λ r, rin_RuleTypeID r = ruleTypeID) (map_to_list (rule_instances d)).*2)).

Definition ListProfilesInstantiatingRuleType (ruleTypeID : UUID) : prog World (list string) :=
  select (λ w, Ok (profiles_instantiating (w_db w) ruleTypeID)).

(** ** Writing *)

Section statements.
Context `{RandomUuid} `{PgText}.

Definition source_key (s : dbDataSource) : UUID * string := (dso_ProjectID s, pg_lower (dso_Name s)).

Definition function_key (f : dbDataSourceFunction) : UUID * UUID * string :=
  (dsf_DataSourceID f, dsf_ProjectID f, pg_lower (dsf_Name f)).

Definition rule_type_key (r : dbRuleType) : UUID * string := (rty_ProjectID r, pg_lower (rty_Name r)).

(** The subscriptions are not modelled: the id of one is that of a row. *)
Definition CreateDataSource_query (row : dbDataSource) : prog World (UUID * dbDataSource) :=
  query (λ w,
    let d := w_db w in
    let id := gen_random_uuid (w_fresh w) in
    let w1 := set_fresh (S (w_fresh w)) w in
    if bool_decide (is_Some (s_sources (sources d) !! id) ∨
                    map_Exists (λ _ s, source_key s = source_key row) (s_sources (sources d)))
    then (w1, Err UniqueViolation)
    else if bool_decide (dso_ProjectID row ∈ projects d)
    then (upd_sources (upd_source_rows (insert id row)) w1, Ok (id, row))
    else (w1, Err ForeignKeyViolation)).

Definition AddDataSourceFunction (row : dbDataSourceFunction) : prog World unit :=
  query (λ w,
    let d := w_db w in
    let id := gen_random_uuid (w_fresh w) in
    let w1 := set_fresh (S (w_fresh w)) w in
    if bool_decide (is_Some (s_functions (sources d) !! id) ∨
                    map_Exists (λ _ f, function_key f = function_key row) (s_functions (sources d)))
    then (w1, Err UniqueViolation)
    else if bool_decide (is_Some (s_sources (sources d) !! dsf_DataSourceID row)) &&
            bool_decide (dsf_ProjectID row ∈ projects d)
    then (upd_sources (upd_functions (insert id row)) w1, Ok tt)
    else (w1, Err ForeignKeyViolation)).

Definition updated_source (displayName metadata : string) (s : dbDataSource) : dbDataSource :=
  {| dso_Name := dso_Name s; dso_DisplayName := displayName; dso_ProjectID := dso_ProjectID s;
     dso_SubscriptionID := dso_SubscriptionID s; dso_Metadata := Some metadata |}.

Definition UpdateDataSource_query (id projectID : UUID) (displayName metadata : string)
    : prog World unit :=
  query (λ w,
    match s_sources (sources (w_db w)) !! id with
    | Some s =>
        if bool_decide (dso_ProjectID s = projectID)
        then (upd_sources (upd_source_rows (insert id (updated_source displayName metadata s))) w, Ok tt)
        else (w, Err ErrNoRows)
    | None => (w, Err ErrNoRows)
    end).

Definition DeleteDataSourceFunctions (id projectID : UUID) : prog World unit :=
  query (λ w,
    (upd_sources (upd_functions
       (filter (λ p, ¬ (dsf_DataSourceID p.2 = id ∧ dsf_ProjectID p.2 = projectID)))) w, Ok tt)).

(** With a data source go its functions; a reference to it holds it. *)
Definition DeleteDataSource_query (id projectID : UUID) : prog World unit :=
  query (λ w,
    let s := sources (w_db w) in
    match s_sources s !! id with
    | Some row =>
        if bool_decide (dso_ProjectID row = projectID) then
          if bool_decide (map_Exists (λ k _, k.2 = id) (s_references s))
          then (w, Err ForeignKeyViolation)
          else (upd_sources (λ s, upd_functions (filter (λ p, dsf_DataSourceID p.2 ≠ id))
                                    (upd_source_rows (delete id) s)) w, Ok tt)
        else (w, Err ErrNoRows)
    | None => (w, Err ErrNoRows)
    end).

Definition AddRuleTypeDataSourceReference (ruleTypeID dataSourceID projectID : UUID)
    : prog World unit :=
  query (λ w,
    let d := w_db w in
    if bool_decide (is_Some (s_references (sources d) !! (ruleTypeID, dataSourceID)))
    then (w, Err UniqueViolation)
    else if bool_decide (is_Some (rule_types d !! ruleTypeID)) &&
            bool_decide (is_Some (s_sources (sources d) !! dataSourceID)) &&
            bool_decide (projectID ∈ projects d)
    then (upd_sources (upd_references (insert (ruleTypeID, dataSourceID) projectID)) w, Ok tt)
    else (w, Err ForeignKeyViolation)).

Definition DeleteRuleTypeDataSource (ruleTypeID projectID : UUID) : prog World unit :=
  query (λ w,
    (upd_sources (upd_references (filter (λ p, ¬ (p.1.1 = ruleTypeID ∧ p.2 = projectID)))) w, Ok tt)).

(** The enums of the table. *)
Definition severities : list string := ["unknown"; "info"; "low"; "medium"; "high"; "critical"].
Definition release_phases : list string := ["alpha"; "beta"; "ga"; "deprecated"].

Definition enums_ok (severity phase : string) : Prop :=
  severity ∈ severities ∧ phase ∈ release_phases.

#[export] Instance enums_ok_dec severity phase : Decision (enums_ok severity phase).
Proof. unfold enums_ok. apply _. Defined.

Definition InvalidEnum : gerr :=
  ENew "pq.invalid_text_representation" "invalid input value for enum".

Definition CreateRuleType_query (row : dbRuleType) : prog World (UUID * dbRuleType) :=
  query (λ w,
    let d := w_db w in
    let id := gen_random_uuid (w_fresh w) in
    let w1 := set_fresh (S (w_fresh w)) w in
    if bool_decide (enums_ok (rty_Severity row) (rty_ReleasePhase row)) then
      if bool_decide (is_Some (rule_types d !! id) ∨
                      map_Exists (λ _ r, rule_type_key r = rule_type_key row) (rule_types d))
      then (w1, Err UniqueViolation)
      else if bool_decide (rty_ProjectID row ∈ projects d)
      then (upd_rule_types (insert id row) w1, Ok (id, row))
      else (w1, Err ForeignKeyViolation)
    else (w, Err InvalidEnum)).

(** The name, the project, the guidance and the subscription stay. *)
Definition updated_rule_type (arg old : dbRuleType) : dbRuleType :=
  {| rty_Name := rty_Name old; rty_Severity := rty_Severity arg; rty_ProjectID := rty_ProjectID old;
     rty_Description := rty_Description arg; rty_Guidance := rty_Guidance old;
     rty_Definition := rty_Definition arg; rty_SubscriptionID := rty_SubscriptionID old;
     rty_DisplayName := rty_DisplayName arg; rty_ReleasePhase := rty_ReleasePhase arg;
     rty_ShortFailureMessage := rty_ShortFailureMessage arg; rty_RegoVersion := rty_RegoVersion arg |}.

Definition UpdateRuleType_query (id : UUID) (arg : dbRuleType) : prog World (UUID * dbRuleType) :=
  query (λ w,
    if bool_decide (enums_ok (rty_Severity arg) (rty_ReleasePhase arg)) then
      match rule_types (w_db w) !! id with
      | Some old => let row := updated_rule_type arg old in
                    (upd_rule_types (insert id row) w, Ok (id, row))
      | None => (w, Err ErrNoRows)
      end
    else (w, Err InvalidEnum)).

(** A rule of a profile holds a rule type; its references go with it. *)
Definition DeleteRuleType_query (id : UUID) : prog World unit :=
  query (λ w,
    if bool_decide (map_Exists (λ _ r, rin_RuleTypeID r = id) (rule_instances (w_db w)))
    then (w, Err ForeignKeyViolation)
    else (upd_sources (upd_references (filter (λ p, p.1.1 ≠ id))) (upd_rule_types (delete id) w), Ok tt)).
End statements.
