(* ===== verification/DataSources.v ===== *)
(** * Data sources: the functions they provide

    internal/datasources/ (the factory, the REST and the structured driver) and
    pkg/datasources/v1/registry.go.  Requests, files and decoders are
    interfaces; so is the retry of the backoff library. *)

From S2P Require Import Prelude GoErrors GoMonad GoStrings Uuid Properties ApiTypes.
From S2P Require Import Database HistoryDb ProfileDb ProfileRules SchemaUpdate.
From Stdlib Require Import Ascii.
Local Open Scope string_scope.

(** ** structured/handler.go *)

Inductive decoderType := jsonType | yamlType | tomlType.

#[export] Instance decoderType_eq_dec : EqDecision decoderType.
Proof. solve_decision. Defined.

Definition Extensions (t : decoderType) : list string :=
  match t with jsonType => ["json"] | yamlType => ["yaml"; "yml"] | tomlType => ["toml"] end.

(** The decoders, in any order: a map has none. *)
Definition decoders : list decoderType := [jsonType; yamlType; tomlType].

(** [path/filepath.Ext]: from the last dot of the last element of the path. *)
Fixpoint ext_from (s : string) (found : option string) : option string :=
  match s with
  | "" => found
  | String c s' =>
      ext_from s' (if Ascii.eqb c "/" then None else if Ascii.eqb c "." then Some s else found)
  end.

Definition filepath_Ext (name : string) : string := default "" (ext_from name None).

Definition ErrNotExist : gerr := ENew "os.ErrNotExist" "file does not exist".
Definition ErrorNoFileMatchInPath : gerr :=
  ENew "structured.ErrorNoFileMatchInPath" "no file matched through path specification".

(** A file of the ingested filesystem: its name and what it holds. *)
Record file := { file_Name : string; file_Content : string }.

(** The filesystem of go-billy and the decoders of JSON, YAML and TOML, each
    reading a whole file. *)
Class FileLib := {
  fs_Stat : string → bool + gerr;
  fs_Open : string → file + gerr;
  decoder_Parse : decoderType → string → goval + gerr;
}.

Section structured.
Context `{FileLib}.

Fixpoint open_first (paths : list string) : res file :=
  match paths with
  | [] => Err ErrorNoFileMatchInPath
  | p :: paths =>
      match fs_Stat p with
      | inr err => if is_in err ErrNotExist then open_first paths
                   else Err (EWrap "error checking path: " err "")
      | inl true => open_first paths
      | inl false => match fs_Open p with
                     | inl f => Ok f
                     | inr err => Err (EWrap "opening file: " err "")
                     end
      end
  end.

Definition openFirstAlternative (mainPath : string) (alternatives : list string) : res file :=
  if String.eqb mainPath "" && bool_decide (alternatives = [])
  then Err (EText "no file specified in data source definition")
  else open_first (if String.eqb mainPath "" then alternatives else mainPath :: alternatives).

(** The first loop: the decoders of the extension; it gives the result, or those
    that were tried. *)
Fixpoint by_extension (ext : string) (content : string) (order tried : list decoderType)
    : goval + list decoderType :=
  match order with
  | [] => inr tried
  | t :: order =>
      if bool_decide (Strings.ToLower ext ∈ Extensions t) then
        match decoder_Parse t content with
        | inl v => inl v
        | inr _ => by_extension ext content order (t :: tried)
        end
      else by_extension ext content order tried
  end.

Fixpoint first_decoder (content : string) (order tried : list decoderType) : res goval :=
  match order with
  | [] => Err (EText "unable to parse structured data with any of the available decoders")
  | t :: order =>
      if bool_decide (t ∈ tried) then first_decoder content order tried
      else match decoder_Parse t content with
           | inl v => Ok v
           | inr _ => first_decoder content order tried
           end
  end.

(** The orders in which the two loops visit the map. *)
Definition parseFile (order1 order2 : list decoderType) (f : file) : res goval :=
  match by_extension (filepath_Ext (file_Name f)) (file_Content f) order1 [] with
  | inl v => Ok v
  | inr tried => first_decoder (file_Content f) order2 tried
  end.

Definition parseFileAlternatives (order1 order2 : list decoderType) (mainPath : string)
    (alternatives : list string) : res goval :=
  match openFirstAlternative mainPath alternatives with
  | Ok f => parseFile order1 order2 f
  | Err err => if is_in err ErrorNoFileMatchInPath then Ok GNil else Err err
  | Panic s => Panic s
  end.

Record structHandler := { sh_Path : option StructDataSource_Path }.

Definition newStructHandlerFromDef (def : option StructDataSource_Def) : res structHandler :=
  match def with
  | None => Err (EText "data source handler definition is nil")
  | Some def => Ok {| sh_Path := sds_Path def |}
  end.

(** The filesystem is that of what was ingested, when there is one. *)
Definition struct_Call (has_fs : bool) (order1 order2 : list decoderType) (sh : structHandler)
    : res goval :=
  if negb has_fs then Err (EText "filesystem not found in execution context")
  else parseFileAlternatives order1 order2 (default "" (path_FileName <$> sh_Path sh))
         (default [] (path_Alternatives <$> sh_Path sh)).
End structured.

(** ** rest/handler.go *)

Definition MaxBytesLimit : nat := Z.to_nat (2 ^ 20).

Record request := {
  rq_Method : string; rq_URL : string; rq_Body : string; rq_Headers : list (string * string);
}.

Record response := { rsp_StatusCode : Z; rsp_Body : string }.

Record URL := { url_Scheme : string; url_Host : string; url_Path : string }.

(** The expansion of URI templates, net/url, encoding/json and the requests of
    the provider and of a client of the module's own, in the world [W]. *)
Class RestLib (W : Type) := {
  uritemplate_Expand : string → gmap string goval → string + gerr;
  url_Parse : string → URL + gerr;
  json_Marshal : goval → string + gerr;
  json_Decode : string → goval + gerr;
  bodyobj_Marshal : option Struct → string + gerr;
  http_NewRequest : string → string → error;
  client_Do : request → prog W response;
  provider_NewRequest : string → string → error;
  provider_Do : request → prog W response;
  provider_BaseURL : string;
  (** [backoff.Retry] of [WithMaxRetries], with the number of the retries *)
  backoff_Retry : ∀ A, nat → prog W A → prog W A;
}.

(** At most so many tries more; the last error is the one that is returned. *)
Fixpoint retry {W A} (n : nat) (op : prog W A) : prog W A :=
  match n with
  | O => op
  | S n => r ← try op; match r with inl a => mret a | inr _ => retry n op end
  end.

Section rest.
Context {W : Type} `{RestLib W} `{RuleTypeLib}.

(** The handler; the bool says whether the provider is passed along and makes
    requests. *)
Record restHandler := {
  rh_rawInputSchema : option Struct; rh_inputSchema : option json_schema; rh_endpointTmpl : string;
  rh_method : string; rh_body : string; rh_bodyFromInput : bool; rh_headers : gmap string string;
  rh_parse : string; rh_provider : bool;
}.

Definition parseRequestBodyConfig (def : RestDataSource_Def) : res (bool * string) :=
  match rds_Body def with
  | None => Ok (false, "")
  | Some (Bodyobj o) =>
      match bodyobj_Marshal o with inl s => Ok (false, s) | inr err => Err err end
  | Some (BodyFromField f) =>
      if String.eqb f "" then Err (EText "body_from_field is empty") else Ok (true, f)
  | Some (Bodystr s) => Ok (false, s)
  end.

Definition newRestHandlerFromDef (def : option RestDataSource_Def) (provider : bool)
    : res restHandler :=
  match def with
  | None => Err (EText "rest data source handler definition is nil")
  | Some def =>
      schema ← compile (rds_InputSchema def);
      '(bodyFromInput, body) ← parseRequestBodyConfig def;
      mret {| rh_rawInputSchema := rds_InputSchema def; rh_inputSchema := schema;
              rh_endpointTmpl := rds_Endpoint def;
              rh_method := Strings.ToUpper (if String.eqb (rds_Method def) "" then "GET"
                                            else rds_Method def);
              rh_body := body; rh_bodyFromInput := bodyFromInput; rh_headers := rds_Headers def;
              rh_parse := rds_Parse def; rh_provider := provider |}
  end.

Definition getBodyFromInput (h : restHandler) (args : gmap string goval) : res string :=
  if String.eqb (rh_body h) "" then Err (EText "body key is empty")
  else match args !! rh_body h with
       | None => Err (EText "body key not found in args")
       | Some (GString outb) => Ok outb
       | Some (GMap outb) =>
           match json_Marshal (GMap outb) with
           | inl serialized => Ok serialized
           | inr err => Err (EWrap "cannot marshal body object: " err "")
           end
       | Some _ => Err (EText "body key is not a string or object")
       end.

Definition getBody (h : restHandler) (args : gmap string goval) : res string :=
  if rh_bodyFromInput h then getBodyFromInput h args else Ok (rh_body h).

Definition parseResponseBody (h : restHandler) (body : string) : res goval :=
  let limited := String.substring 0 MaxBytesLimit body in
  if String.eqb (rh_parse h) "json" then
    match json_Decode limited with
    | inl data => Ok data
    | inr err => Err (EWrap "cannot decode json: " err "")
    end
  else Ok (GString limited).

Definition buildRestOutput (statusCode : Z) (body : goval) : goval :=
  GMap {["status_code" := GInt statusCode; "body" := body]}.

Definition StatusTooManyRequests : Z := 429.

Definition retriableDo (dofunc : request → prog W response) (req : request) : prog W response :=
  backoff_Retry _ 3 (
    resp ← dofunc req;
    if (rsp_StatusCode resp =? StatusTooManyRequests)%Z then throw (EText "rate limited")
    else mret resp).

Definition doRequest (h : restHandler) (dofunc : request → prog W response) (req : request)
    : prog W goval :=
  resp ← retriableDo dofunc req;
  bout ← lift (parseResponseBody h (rsp_Body resp));
  mret (buildRestOutput (rsp_StatusCode resp) bout).

Definition with_slash (path : string) : string := Strings.TrimSuffix path "/" +:+ "/".

Definition urlContains (base endpoint : string) : bool :=
  match url_Parse base, url_Parse endpoint with
  | inl baseURL, inl endpointURL =>
      String.eqb (url_Scheme baseURL) (url_Scheme endpointURL) &&
      String.eqb (url_Host baseURL) (url_Host endpointURL) &&
      Strings.HasPrefix (with_slash (url_Path endpointURL)) (with_slash (url_Path baseURL))
  | _, _ => false
  end.

Definition rest_Call (h : restHandler) (args : goval) : prog W goval :=
  match args with
  | GMap argsMap =>
      expandedEndpoint ← lift match uritemplate_Expand (rh_endpointTmpl h) argsMap with
                              | inl s => Ok s | inr err => Err err end;
      b ← lift (getBody h argsMap);
      let req := {| rq_Method := rh_method h; rq_URL := expandedEndpoint; rq_Body := b;
                    rq_Headers := map_to_list (rh_headers h) |} in
      if rh_provider h && urlContains provider_BaseURL expandedEndpoint then
        lift (of_error (provider_NewRequest (rh_method h) expandedEndpoint));;
        doRequest h provider_Do req
      else
        lift (of_error (http_NewRequest (rh_method h) expandedEndpoint));;
        doRequest h client_Do req
  | _ => throw (EText "args is not a map")
  end.

(** ** The functions of a data source *)

Inductive DataSourceFuncDef := RestFunc (h : restHandler) | StructFunc (h : structHandler).

Definition GetArgsSchema (f : DataSourceFuncDef) : option Struct :=
  match f with RestFunc h => rh_rawInputSchema h | StructFunc _ => None end.

(** What is wrong with the arguments, from the JSON schema. *)
Definition ValidateArgs (args_Validate : json_schema → gmap string goval → option string)
    (f : DataSourceFuncDef) (args : goval) : res unit :=
  match f with
  | StructFunc _ => Ok tt
  | RestFunc h =>
      match rh_inputSchema h, args with
      | None, _ => Err (EText "input schema cannot be nil")
      | Some schema, GMap mapobj =>
          match args_Validate schema mapobj with
          | Some problems => Err (EText ("invalid json schema: " +:+ problems))
          | None => Ok tt
          end
      | _, _ => Err (EText "args is not a map")
      end
  end.

Definition ValidateUpdate `{Structpb} `{SchemaLib} (f : DataSourceFuncDef)
    (argsSchema : option Struct) : res unit :=
  match f with
  | StructFunc _ => Ok tt
  | RestFunc h =>
      match argsSchema with
      | None => Err (EText "update schema cannot be nil")
      | Some _ =>
          wrapf_res "update validation failed due to invalid schema: " (compile argsSchema);;
          ValidateSchemaUpdate (rh_rawInputSchema h) argsSchema
      end
  end.

(** [GetFuncs] of a data source: its functions by their names. *)
Definition funcs : Type := gmap string DataSourceFuncDef.

(** The loop over the definitions; the first error is returned. *)
Definition build_all {D} (mk : D → res DataSourceFuncDef) (defs : gmap string D) : res funcs :=
  list_to_map <$> mapM (λ p, pair p.1 <$> mk p.2) (map_to_list defs).

Definition NewStructDataSource (sds : option StructDataSource) : res funcs :=
  match sds with
  | None => Err (EText "rest data source is nil")
  | Some sds =>
      if bool_decide (struct_Def sds = ∅) then Err (EText "rest data source definition is nil")
      else build_all (λ def, StructFunc <$> newStructHandlerFromDef def) (struct_Def sds)
  end.

(** The provider is passed along only if that is asked for. *)
Definition NewRestDataSource (rest : option RestDataSource) (provider : bool) : res funcs :=
  match rest with
  | None => Err (EText "rest data source is nil")
  | Some rest =>
      if bool_decide (rest_Def rest = ∅) then Err (EText "rest data source definition is nil")
      else build_all (λ def, RestFunc <$> newRestHandlerFromDef def (rest_ProviderAuth rest && provider))
             (rest_Def rest)
  end.

Definition BuildFromProtobuf (ds : DataSource) (provider : bool) : res funcs :=
  match ds_Driver ds with
  | None => Err (EText "data source driver is nil")
  | Some (DataSource_Structured structured) => NewStructDataSource structured
  | Some (DataSource_Rest rest) => NewRestDataSource rest provider
  end.

(** ** registry.go *)

Definition ErrDuplicateDataSourceFuncKey : gerr :=
  ENew "v1.ErrDuplicateDataSourceFuncKey" "duplicate data source function key".

Definition makeKey (name key : string) : string := name +:+ "." +:+ key.

(** The functions are stored only if none of their keys is taken. *)
Definition RegisterDataSource (name : string) (ds : funcs) (reg : funcs) : res funcs :=
  let keyed := (λ p, (makeKey name p.1, p.2)) <$> map_to_list ds in
  match filter (λ p, is_Some (reg !! p.1)) keyed with
  | (k, _) :: _ => Err (EWrap "" ErrDuplicateDataSourceFuncKey (": " +:+ k))
  | [] => Ok (list_to_map keyed ∪ reg)
  end.
End rest.
