(* ===== verification/DataSourceService.v ===== *)
(** * The data source service and its handlers

    internal/datasources/service/ and internal/controlplane/handlers_datasource.go.
    A call runs in a transaction of its own or in that of its caller; protojson
    and the JSON of the metadata are interfaces.  The functions of a data source
    are written in the order of the list of its map. *)

From S2P Require Import Prelude GoErrors GoMonad GoStrings Uuid DbTypes ProfileModels Properties.
From S2P Require Import ApiTypes Validators Database HistoryDb EntityMessage Eea ProfileDb ProfileRules.
From S2P Require Import ProfileService SchemaUpdate DataSourceDb DataSources.
Local Open Scope string_scope.

(** ** options.go *)

(** Whether there is a transaction of the caller, and the hierarchy to search. *)
Record ReadOptions := {
  ro_transaction : bool; ro_hierarchical : bool; ro_hierarchy : list UUID;
}.

Record Options := { op_transaction : bool; op_provider : bool }.

Definition ReadBuilder : ReadOptions :=
  {| ro_transaction := false; ro_hierarchical := false; ro_hierarchy := [] |}.

Definition WithTransaction_read (o : ReadOptions) : ReadOptions :=
  {| ro_transaction := true; ro_hierarchical := ro_hierarchical o; ro_hierarchy := ro_hierarchy o |}.

Definition withHierarchy (projs : list UUID) (o : ReadOptions) : ReadOptions :=
  {| ro_transaction := ro_transaction o; ro_hierarchical := ro_hierarchical o;
     ro_hierarchy := projs |}.

(** Of nil options there is neither. *)
Definition getTransaction (o : option Options) : bool := default false (op_transaction <$> o).
Definition getProvider (o : option Options) : bool := default false (op_provider <$> o).

(** ** tx.go *)

(** A transaction for reading is set to it by a statement. *)
Definition beginInternalTx (read_only : bool) : prog World unit :=
  BeginTransaction;; if read_only : bool then select (λ _, Ok tt) else mret tt.

(** What a function does between the beginning of a transaction and its commit,
    unless the caller has one. *)
Definition in_tx {A} (read_only external : bool) (fn : prog World A) : prog World A :=
  if external then fn
  else λ w0,
    match wrapf "failed to start transaction: " (beginInternalTx read_only) w0 with
    | (w1, Ok _) =>
        let d := w_db w1 in
        match (a ← fn; wrapf "failed to commit transaction: " Commit;; mret a) w1 with
        | (w2, Ok a) => (w2, Ok a)
        | (w2, r) => (set_db d w2, r)
        end
    | (w1, Err e) => (w1, Err e)
    | (w1, Panic m) => (w1, Panic m)
    end.

(** A transaction that is always rolled back. *)
Definition in_rolled_back_tx {A} (external : bool) (fn : prog World A) : prog World A :=
  if external then fn
  else λ w0,
    match wrapf "failed to start transaction: " (beginInternalTx false) w0 with
    | (w1, Ok _) => let '(w2, r) := fn w1 in (set_db (w_db w1) w2, r)
    | (w1, Err e) => (w1, Err e)
    | (w1, Panic m) => (w1, Panic m)
    end.

(** ** convert.go *)

Record DataSourceMetadata := { md_Type : string; md_ProviderAuth : bool }.

Definition DataSourceDriverStruct : string := "structured".
Definition DataSourceDriverRest : string := "rest".
Definition VersionV1 : string := "v1".
Definition DataSourceResource : string := "data-source".

(** protojson of the definitions of functions, encoding/json of the metadata. *)
Class DataSourceJSON := {
  rest_def_Marshal : option RestDataSource_Def → string + gerr;
  rest_def_Unmarshal : string → RestDataSource_Def + gerr;
  struct_def_Marshal : option StructDataSource_Def → string + gerr;
  struct_def_Unmarshal : string → StructDataSource_Def + gerr;
  metadata_Marshal : DataSourceMetadata → string;
  metadata_Unmarshal : string → DataSourceMetadata + gerr;
  rest_def_roundtrip def s : rest_def_Marshal (Some def) = inl s → rest_def_Unmarshal s = inl def;
  struct_def_roundtrip def s :
    struct_def_Marshal (Some def) = inl s → struct_def_Unmarshal s = inl def;
  metadata_roundtrip md : metadata_Unmarshal (metadata_Marshal md) = inl md;
}.

Definition ErrDataSourceAlreadyExists : gerr :=
  ENew "service.ErrDataSourceAlreadyExists" "data source already exists".

Definition set_ds_id (id : string) (ds : DataSource) : DataSource :=
  {| ds_Version := ds_Version ds; ds_Type := ds_Type ds; ds_Context := ds_Context ds;
     ds_Name := ds_Name ds; ds_Id := id; ds_Driver := ds_Driver ds |}.

(** [cmp.Or] *)
Definition cmp_Or (a b : string) : string := if String.eqb a "" then b else a.

Section convert.
Context `{UuidLib} `{DataSourceJSON}.

(** A function of the same name overwrites. *)
Fixpoint unmarshal_defs {D} (unmarshal : string → D + gerr) (defs : gmap string (option D))
    (dsfuncs : list dbDataSourceFunction) : res (gmap string (option D)) :=
  match dsfuncs with
  | [] => Ok defs
  | dsf :: dsfuncs =>
      match unmarshal (dsf_Definition dsf) with
      | inl def => unmarshal_defs unmarshal (<[dsf_Name dsf := Some def]> defs) dsfuncs
      | inr err => Err (EWrap ("failed to unmarshal data source definition for " +:+ dsf_Name dsf
                               +:+ ": ") err "")
      end
  end.

Definition dataSourceRestDBToProtobuf (providerAuth : bool) (dsfuncs : list dbDataSourceFunction)
    : res Driver :=
  defs ← unmarshal_defs rest_def_Unmarshal ∅ dsfuncs;
  mret (DataSource_Rest (Some {| rest_Def := defs; rest_ProviderAuth := providerAuth |})).

Definition dataSourceStructDBToProtobuf (dsfuncs : list dbDataSourceFunction) : res Driver :=
  defs ← unmarshal_defs struct_def_Unmarshal ∅ dsfuncs;
  mret (DataSource_Structured (Some {| struct_Def := defs |})).

Definition dataSourceDBToProtobuf (ds : UUID * dbDataSource) (dsfuncs : list dbDataSourceFunction)
    : res DataSource :=
  match dsfuncs with
  | [] => Err (EText "data source is invalid and has no defintions")
  | dsf :: _ =>
      metadata ← match dso_Metadata ds.2 with
                 | None => Ok {| md_Type := ""; md_ProviderAuth := false |}
                 | Some raw => match metadata_Unmarshal raw with
                               | inl md => Ok md
                               | inr err => Err (EWrap "unable to unmarshal metadata: " err "")
                               end
                 end;
      let dsfType := cmp_Or (md_Type metadata) (dsf_Type dsf) in
      driver ← if String.eqb dsfType DataSourceDriverStruct then dataSourceStructDBToProtobuf dsfuncs
               else if String.eqb dsfType DataSourceDriverRest
               then dataSourceRestDBToProtobuf (md_ProviderAuth metadata) dsfuncs
               else Err (EText ("unknown data source type: " +:+ dsfType));
      mret {| ds_Version := VersionV1; ds_Type := DataSourceResource;
              ds_Context := Some (uuid_String (dso_ProjectID ds.2)); ds_Name := dso_Name ds.2;
              ds_Id := uuid_String ds.1; ds_Driver := Some driver |}
  end.

Definition metadataForDataSource (ds : DataSource) : res string :=
  match ds_Driver ds with
  | Some (DataSource_Rest rest) =>
      Ok (metadata_Marshal {| md_Type := DataSourceDriverRest;
                              md_ProviderAuth := default false (rest_ProviderAuth <$> rest) |})
  | Some (DataSource_Structured _) =>
      Ok (metadata_Marshal {| md_Type := DataSourceDriverStruct; md_ProviderAuth := false |})
  | None => Err (EText "unknown datasource driver")
  end.
End convert.

(** ** helpers.go *)

Section service.
Context `{UuidLib} `{RandomUuid} `{PgText} `{RuleTypeLib} `{Structpb} `{SchemaLib}
  `{DataSourceJSON} `{RestLib World}.

Definition source_query : Type := list UUID → prog World (UUID * dbDataSource).

Definition getByNameQuery (name : string) : source_query := λ projs,
  or_throw (λ err,
      if is_in err ErrNoRows
      then status_error "NotFound" ("data source of name " +:+ name +:+ " not found")
      else EWrap "failed to get data source by name: " err "")
    (GetDataSourceByName_query name projs).

Definition getByIDQuery (id : UUID) : source_query := λ projs,
  or_throw (λ err,
      if is_in err ErrNoRows
      then status_error "NotFound" ("data source of id " +:+ uuid_String id +:+ " not found")
      else EWrap "failed to get data source by name: " err "")
    (GetDataSource id projs).

Definition listRelevantProjects (project : UUID) (hierarchical : bool) : prog World (list UUID) :=
  if hierarchical then GetParentProjects project else mret [project].

Definition getDataSourceFromDb (project : UUID) (opts : ReadOptions) (dbQuery : source_query)
    : prog World (UUID * dbDataSource) :=
  projs ← match ro_hierarchy opts with
          | [] => wrapf "failed to list relevant projects: "
                    (listRelevantProjects project (ro_hierarchical opts))
          | hierarchy => mret hierarchy
          end;
  wrapf "failed to get data source from DB: " (dbQuery projs).

Definition getDataSourceFunctions (ds : UUID * dbDataSource)
    : prog World (list dbDataSourceFunction) :=
  dsfuncs ← wrapf "failed to get data source functions: "
              (ListDataSourceFunctions ds.1 (dso_ProjectID ds.2));
  match dsfuncs with
  | [] => throw (EText "data source has no functions")
  | _ => mret dsfuncs
  end.

Definition getDataSourceSomehow (project : UUID) (opts : ReadOptions) (theSomehow : source_query)
    : prog World DataSource :=
  '(ds, dsfuncs) ← in_tx true (ro_transaction opts) (
    ds ← wrapf "failed to get data source from DB: " (getDataSourceFromDb project opts theSomehow);
    dsfuncs ← wrapf "failed to get data source functions: " (getDataSourceFunctions ds);
    mret (ds, dsfuncs));
  lift (dataSourceDBToProtobuf ds dsfuncs).

(** The functions are visited in the order of the list of the old ones. *)
Fixpoint validate_functions (newFuncs : funcs) (old : list (string * DataSourceFuncDef)) : res unit :=
  match old with
  | [] => Ok tt
  | (key, def) :: old =>
      match newFuncs !! key with
      | None => Err (status_error "InvalidArgument" ("function " +:+ key +:+ " is missing in the update"))
      | Some newFunc =>
          match ValidateUpdate def (GetArgsSchema newFunc) with
          | Err err => Err (failing "InvalidArgument" ("function " +:+ key +:+ " update is invalid: ") err)
          | Panic s => Panic s
          | Ok _ => validate_functions newFuncs old
          end
      end
  end.

Definition validateDataSourceFunctionsUpdate (existingDS : UUID * dbDataSource)
    (existingFunctions : list dbDataSourceFunction) (newDS : DataSource) : res unit :=
  existingDsProto ← wrapf_res "failed to convert data source to protobuf: "
                      (dataSourceDBToProtobuf existingDS existingFunctions);
  existingImpl ← wrapf_res "failed to build data source from protobuf: "
                   (BuildFromProtobuf existingDsProto false);
  updatedImpl ← wrapf_res "failed to build data source from protobuf: "
                  (BuildFromProtobuf newDS false);
  validate_functions updatedImpl (map_to_list existingImpl).

(** ** service.go *)

Definition GetByName (name : string) (project : UUID) (opts : ReadOptions) : prog World DataSource :=
  getDataSourceSomehow project opts (getByNameQuery name).

Definition GetByID (id project : UUID) (opts : ReadOptions) : prog World DataSource :=
  getDataSourceSomehow project opts (getByIDQuery id).

Fixpoint list_sources (dss : list (UUID * dbDataSource)) : prog World (list DataSource) :=
  match dss with
  | [] => mret []
  | ds :: dss =>
      dsfuncs ← wrapf "failed to list data source functions: "
                  (ListDataSourceFunctions ds.1 (dso_ProjectID ds.2));
      dsProtobuf ← wrapf "failed to convert data source to protobuf: "
                     (lift (dataSourceDBToProtobuf ds dsfuncs));
      out ← list_sources dss;
      mret (dsProtobuf :: out)
  end.

Definition ListDataSources (project : UUID) (opts : ReadOptions) : prog World (list DataSource) :=
  in_tx true (ro_transaction opts) (
    projs ← wrapf "failed to list relevant projects: "
              (listRelevantProjects project (ro_hierarchical opts));
    dss ← wrapf "failed to list data sources: " (ListDataSources_query projs);
    list_sources dss).

Definition add_functions {D} (type error : string) (marshal : option D → string + gerr)
    (dsID projectID : UUID) (defs : gmap string (option D)) : prog World unit :=
  foreach (λ p,
    defBytes ← wrapf error (lift match marshal p.2 with inl s => Ok s | inr err => Err err end);
    wrapf "failed to create data source function: "
      (AddDataSourceFunction
         {| dsf_Name := p.1; dsf_Type := type; dsf_DataSourceID := dsID;
            dsf_ProjectID := projectID; dsf_Definition := defBytes |})) (map_to_list defs).

Definition addDataSourceFunctions (ds : DataSource) (dsID projectID : UUID) : prog World unit :=
  match ds_Driver ds with
  | Some (DataSource_Structured structured) =>
      add_functions DataSourceDriverStruct "failed to marshal structured data definition: "
        struct_def_Marshal dsID projectID (default ∅ (struct_Def <$> structured))
  | Some (DataSource_Rest rest) =>
      add_functions DataSourceDriverRest "failed to marshal REST definition: "
        rest_def_Marshal dsID projectID (default ∅ (rest_Def <$> rest))
  | None => throw (EText "unsupported data source driver type")
  end.

(** A subscription that is not nil. *)
Definition NullUUID (id : UUID) : option UUID := if (id =? uuid_Nil)%N then None else Some id.

Definition validating : error → prog World unit :=
  checking (λ err, EWrap "data source validation failed: " err "").

(** Within its transaction; the id of the new row. *)
Definition create_in_tx (projectID subscriptionID : UUID) (ds : DataSource) : prog World UUID :=
  projs ← wrapf "failed to list relevant projects: " (listRelevantProjects projectID true);
  existing ← try (GetDataSourceByName_query (ds_Name ds) projs);
  match existing with
  | inl (id, _) => if (id =? uuid_Nil)%N then mret tt else throw ErrDataSourceAlreadyExists
  | inr err => if is_in err ErrNoRows then mret tt
               else throw (EWrap "failed to check for existing data source: " err "")
  end;;
  metadataBytes ← wrapf "failed to marshal metadata: " (lift (metadataForDataSource ds));
  dsRecord ← wrapf "failed to create data source: "
    (CreateDataSource_query
       {| dso_Name := ds_Name ds; dso_DisplayName := ds_Name ds; dso_ProjectID := projectID;
          dso_SubscriptionID := NullUUID subscriptionID; dso_Metadata := Some metadataBytes |});
  wrapf "failed to create data source functions: " (addDataSourceFunctions ds dsRecord.1 projectID);;
  mret dsRecord.1.

Definition Create (projectID subscriptionID : UUID) (ds : DataSource) (opts : option Options)
    : prog World DataSource :=
  validating (DataSource_Validate (Some ds));;
  validating (ValidateNamespacedNameRules (ds_Name ds) subscriptionID);;
  id ← in_tx false (getTransaction opts) (create_in_tx projectID subscriptionID ds);
  mret (set_ds_id (uuid_String id) ds).

Definition update_in_tx (projectID subscriptionID : UUID) (ds : DataSource) : prog World UUID :=
  existingDS ← wrapf "failed to get existing data source from DB: "
    (getDataSourceFromDb projectID (WithTransaction_read ReadBuilder) (getByNameQuery (ds_Name ds)));
  checking (λ err, EWrap "failed to update data source: " err "")
    (DoesSubscriptionIDMatch subscriptionID (dso_SubscriptionID existingDS.2));;
  existingFunctions ← wrapf "failed to get existing data source functions: "
                        (getDataSourceFunctions existingDS);
  lift (validateDataSourceFunctionsUpdate existingDS existingFunctions ds);;
  metadataBytes ← wrapf "failed to serialize metadata: " (lift (metadataForDataSource ds));
  wrapf "failed to update data source: "
    (UpdateDataSource_query existingDS.1 projectID (ds_Name ds) metadataBytes);;
  wrapf "failed to delete existing functions: " (DeleteDataSourceFunctions existingDS.1 projectID);;
  wrapf "failed to create data source functions: "
    (addDataSourceFunctions ds existingDS.1 projectID);;
  mret existingDS.1.

Definition Update (projectID subscriptionID : UUID) (ds : DataSource) (opts : option Options)
    : prog World DataSource :=
  validating (DataSource_Validate (Some ds));;
  id ← in_tx false (getTransaction opts) (update_in_tx projectID subscriptionID ds);
  mret (if String.eqb (ds_Id ds) "" then set_ds_id (uuid_String id) ds else ds).

(** Create, and if it exists, update. *)
Definition Upsert (projectID subscriptionID : UUID) (ds : DataSource) (opts : option Options)
    : prog World unit :=
  created ← try (Create projectID subscriptionID ds opts);
  match created with
  | inl _ => mret tt
  | inr err =>
      if is_in err ErrDataSourceAlreadyExists then
        wrapf "error while updating data source: " (Update projectID subscriptionID ds opts);; mret tt
      else throw (EWrap "error while creating data source: " err "")
  end.

Definition delete_in_tx (id project : UUID) : prog World unit :=
  ret ← wrapf "failed to list rule types referencing data source: "
          (ListRuleTypesReferencesByDataSource id);
  match ret with
  | _ :: _ => throw (status_error "FailedPrecondition"
                ("data source " +:+ uuid_String id +:+ " is in use by the following rule types: " +:+
                 String.concat " " (uuid_String <$> ret)))
  | [] =>
      existingDS ← wrapf "failed to get data source: "
        (getDataSourceFromDb project (WithTransaction_read ReadBuilder) (getByIDQuery id));
      match dso_SubscriptionID existingDS.2 with
      | Some _ => throw (status_error "FailedPrecondition"
                    ("data source " +:+ uuid_String id +:+
                     " cannot be deleted as it is part of a bundle"))
      | None =>
          or_throw (λ err,
              if is_in err ErrNoRows
              then status_error "NotFound" ("data source with id " +:+ uuid_String id +:+ " not found")
              else EWrap "failed to delete data source: " err "")
            (DeleteDataSource_query id project)
      end
  end.

Definition Delete (id project : UUID) (opts : option Options) : prog World unit :=
  in_tx false (getTransaction opts) (delete_in_tx id project).

Definition instantiateDataSource (ref : DataSourceReference) (projectHierarchy : list UUID)
    : prog World DataSource :=
  if String.eqb (dsr_Name ref) "" then throw (EText "data source name is empty")
  else wrapf "failed to get data source by name: "
         (GetByName (dsr_Name ref) uuid_Nil
            (WithTransaction_read (withHierarchy projectHierarchy ReadBuilder))).

Definition getDataSourceReferenceAlias (dsr : DataSourceReference) : string :=
  if String.eqb (dsr_Alias dsr) "" then dsr_Name dsr else dsr_Alias dsr.

Fixpoint register_all (provider : bool) (projectHierarchy : list UUID)
    (instantiations : list DataSourceReference) (reg : funcs) : prog World funcs :=
  match instantiations with
  | [] => mret reg
  | ref :: instantiations =>
      inst ← wrapf "failed to instantiate data source: " (instantiateDataSource ref projectHierarchy);
      impl ← wrapf "failed to build data source from protobuf: "
               (lift (BuildFromProtobuf inst provider));
      reg' ← wrapf "failed to register data source: "
               (lift (RegisterDataSource (getDataSourceReferenceAlias ref) impl reg));
      register_all provider projectHierarchy instantiations reg'
  end.

Definition data_sources_of (rt : RuleType) : list DataSourceReference :=
  default [] (ev_DataSources <$> (rt_Def rt ≫= def_Eval)).

Definition BuildDataSourceRegistry (rt : RuleType) (opts : option Options) : prog World funcs :=
  proj ← wrapf "failed to parse project UUID: "
           (lift (uuid_Parse (default "" (rt_Context rt ≫= ctx_Project))));
  match data_sources_of rt with
  | [] => mret ∅
  | instantiations =>
      in_rolled_back_tx (getTransaction opts) (
        projectHierarchy ← wrapf "failed to get project hierarchy: " (GetParentProjects proj);
        register_all (getProvider opts) projectHierarchy instantiations ∅)
  end.

(** ** handlers_datasource.go

    The project is that of the request's context. *)

Definition force_project (projectID : UUID) (ds : DataSource) : DataSource :=
  {| ds_Version := ds_Version ds; ds_Type := ds_Type ds;
     ds_Context := Some (uuid_String projectID);
     ds_Name := ds_Name ds; ds_Id := ds_Id ds; ds_Driver := ds_Driver ds |}.

Definition forceDataSourceProject (projectID : UUID) (ds : DataSource) : prog World DataSource :=
  ValidateProject projectID;; mret (force_project projectID ds).

Definition missing_ds : gerr := status_error "InvalidArgument" "missing data source".

Definition CreateDataSource (projectID : UUID) (dsReq : option DataSource) : prog World DataSource :=
  ValidateProject projectID;;
  match dsReq with
  | None => throw missing_ds
  | Some ds =>
      ds ← forceDataSourceProject projectID ds;
      Create projectID uuid_Nil ds None
  end.

Definition UpdateDataSource (projectID : UUID) (dsReq : option DataSource) : prog World DataSource :=
  ValidateProject projectID;;
  match dsReq with
  | None => throw missing_ds
  | Some ds =>
      ds ← forceDataSourceProject projectID ds;
      Update projectID uuid_Nil ds None
  end.

Definition parse_ds_id (id : string) : prog World UUID :=
  or_throw (failing "InvalidArgument" "invalid data source ID: ") (lift (uuid_Parse id)).

Definition GetDataSourceById (projectID : UUID) (id : string) : prog World DataSource :=
  if String.eqb id "" then throw (status_error "InvalidArgument" "missing data source ID")
  else
    dsID ← parse_ds_id id;
    ValidateProject projectID;;
    GetByID dsID projectID ReadBuilder.

Definition GetDataSourceByName (projectID : UUID) (name : string) : prog World DataSource :=
  if String.eqb name "" then throw (status_error "InvalidArgument" "missing data source name")
  else
    ValidateProject projectID;;
    GetByName name projectID ReadBuilder.

Definition handle_ListDataSources (projectID : UUID) : prog World (list DataSource) :=
  ValidateProject projectID;; ListDataSources projectID ReadBuilder.

Definition DeleteDataSourceById (projectID : UUID) (id : string) : prog World string :=
  if String.eqb id "" then throw (status_error "InvalidArgument" "missing data source ID")
  else
    dsID ← parse_ds_id id;
    ValidateProject projectID;;
    Delete dsID projectID None;;
    mret id.

Definition DeleteDataSourceByName (projectID : UUID) (name : string) : prog World string :=
  if String.eqb name "" then throw (status_error "InvalidArgument" "missing data source name")
  else
    ValidateProject projectID;;
    ds ← GetByName name projectID ReadBuilder;
    dsID ← parse_ds_id (ds_Id ds);
    Delete dsID projectID None;;
    mret name.
End service.
