(* ===== verification/RuleTypeService.v ===== *)
(** * The rule type service and its handlers

    pkg/ruletypes/service.go, the conversions of pkg/ruletypes/util.go and
    pkg/api/protobuf/go/minder/v1/rule_types.go it uses, and
    internal/controlplane/handlers_ruletype.go.  The querier of the service is
    the transaction of its caller.  OPA, the renderer and the sanitizer of
    markdown, and protojson are interfaces. *)

From S2P Require Import Prelude GoErrors GoMonad GoStrings Uuid DbTypes ProfileModels Properties.
From S2P Require Import ApiTypes Validators Database HistoryDb EntityMessage Eea ProfileDb ProfileRules.
From S2P Require Import ProfileService SchemaUpdate DataSourceDb DataSources DataSourceService.
From Stdlib Require Import Ascii.
Local Open Scope string_scope.

(** ** rule_types.go, util.go *)

(** A number that is no value of the enumeration has no name. *)
Definition Severity_InitializedStringValue (s : string) : string :=
  if String.eqb s "" then "unknown" else default "" (Severity_FromString s).

Definition ReleasePhase_InitializedStringValue (s : string) : res string :=
  if String.eqb s "" then Ok "ga"
  else match ReleasePhase_FromString s with
       | Some s => Ok s
       | None => Err (EText ("unknown rule type release phase value: " +:+ s))
       end.

Definition ErrRuleNotFound : gerr := ENew "ruletypes.ErrRuleNotFound" "rule type not found".
Definition ErrRuleAlreadyExists : gerr :=
  ENew "ruletypes.ErrRuleAlreadyExists" "rule type already exists".
Definition ErrRuleTypeInvalid : gerr :=
  ENew "ruletypes.ErrRuleTypeInvalid" "rule type validation failed".
Definition ErrDataSourceNotFound : gerr :=
  ENew "ruletypes.ErrDataSourceNotFound" "data source not found".

Definition invalid (err : gerr) : gerr := errors_Join ErrRuleTypeInvalid err.

(** The scan of a string does not fail. *)
Definition getRuleTypeSeverity (severity : string) : string :=
  Severity_InitializedStringValue severity.

Definition GetDBReleaseStatusFromPBReleasePhase (phase : string) : res string :=
  match ReleasePhase_InitializedStringValue phase with
  | Err err => Err (invalid err)
  | r => r
  end.

(** [^[[:alnum:]]{8}-([[:alnum:]]{4}-){3}[[:alnum:]]{12}$] *)
Definition uuidLike (s : string) : bool :=
  let parts := Strings.Split s "-" in
  bool_decide (String.length <$> parts = [8; 4; 4; 4; 12]%nat) &&
  forallb (λ p, forallb is_alnum (String.list_ascii_of_string p)) parts.

Definition with_texts (display short : string) (rt : RuleType) : RuleType :=
  {| rt_Id := rt_Id rt; rt_Name := rt_Name rt; rt_DisplayName := display;
     rt_ShortFailureMessage := short; rt_Context := rt_Context rt; rt_Def := rt_Def rt;
     rt_Description := rt_Description rt; rt_Guidance := rt_Guidance rt;
     rt_Severity := rt_Severity rt; rt_ReleasePhase := rt_ReleasePhase rt |}.

Definition WithDefaultDisplayName (rt : RuleType) : RuleType :=
  with_texts (cmp_Or (rt_DisplayName rt) (rt_Name rt)) (rt_ShortFailureMessage rt) rt.

Definition WithDefaultShortFailureMessage (rt : RuleType) : RuleType :=
  with_texts (rt_DisplayName rt)
    (cmp_Or (rt_ShortFailureMessage rt) ("Rule " +:+ rt_Name rt +:+ " evaluation failed")) rt.

(** ** service.go *)

(** The parser of OPA for one of its two dialects, the feature flag that refuses
    the older one, the markdown libraries, and protojson of a definition. *)
Class RuleTypeServiceLib `{RuleTypeLib} := {
  ast_ParseModule : forall v1 : bool, string → error;
  RegoV1RefuseV0 : bool;
  bluemonday_Sanitize : string → string;
  goldmark_Convert : string → error;
  definition_Marshal : RuleTypeDefinition → string + gerr;
  definition_roundtrip def s : definition_Marshal def = inl s → definition_Unmarshal s = inl def;
}.

Definition V0MigrationMessage : string :=
  "policy uses Rego V0 syntax; run 'opa fmt --v0-v1' to upgrade before creating or updating the rule type".

(** The policy, if there is one. *)
Definition rego_def (rt : RuleType) : string :=
  default "" ((rt_Def rt ≫= def_Eval) ≫= ev_Rego).

Section service.
Context (jq_Parse jq_Compile text_Parse html_Parse : string → error).
Context `{UuidLib} `{RandomUuid} `{PgText} `{RuleTypeServiceLib} `{Structpb} `{SchemaLib}.

Definition validateAndDetectRegoVersion (rt : RuleType) : res string :=
  let def := rego_def rt in
  if String.eqb def "" then Ok "v0"
  else
    let errV0 := if RegoV1RefuseV0 then Some (EText V0MigrationMessage)
                 else ast_ParseModule false def in
    match errV0, ast_ParseModule true def with
    | _, None => Ok "v1"
    | None, Some _ => Ok "v0"
    | Some errV0, Some _ => Err (EWrap "rego definition is invalid: " errV0 "")
    end.

Definition rule_schemas (rt : RuleType) : option Struct * option Struct :=
  (rt_Def rt ≫= def_RuleSchema, rt_Def rt ≫= def_ParamSchema).

(** A rejection of the comparison is one of the rule type. *)
Definition invalid_update (kind : string) (r : res unit) : res unit :=
  match r with
  | Err err => Err (EWrap2 "" ErrRuleTypeInvalid (": " +:+ kind +:+ " schema update is invalid: ") err "")
  | r => r
  end.

Definition validateRuleUpdate (existingRecord : UUID * dbRuleType) (newRuleType : RuleType) : res unit :=
  oldRuleType ← wrapf_res ("cannot convert rule type " +:+ rt_Name newRuleType +:+ " to pb: ")
                  (RuleTypePBFromDB existingRecord);
  let '(oldRule, oldParam) := rule_schemas oldRuleType in
  let '(newRule, newParam) := rule_schemas newRuleType in
  invalid_update "rule" (ValidateSchemaUpdate oldRule newRule);;
  invalid_update "parameter" (ValidateSchemaUpdate oldParam newParam).

Fixpoint getAvailableDataSources (requiredDataSources : list DataSourceReference)
    (projects : list UUID) : prog World (list UUID) :=
  match requiredDataSources with
  | [] => mret []
  | datasource :: requiredDataSources =>
      row ← or_throw (λ err,
          if is_in err ErrNoRows then EWrap "" ErrDataSourceNotFound (": " +:+ dsr_Name datasource)
          else EWrap "failed getting data sources: " err "")
        (GetDataSourceByName_query (dsr_Name datasource) projects);
      rest ← getAvailableDataSources requiredDataSources projects;
      mret (row.1 :: rest)
  end.

Definition processDataSources (ruleID : UUID) (ds : list DataSourceReference) (projectID : UUID)
    (projectHierarchy : list UUID) : prog World unit :=
  datasources ← getAvailableDataSources ds projectHierarchy;
  wrapf "error deleting references to data source: " (DeleteRuleTypeDataSource ruleID projectID);;
  foreach (λ id, wrapf "error adding references to data source: "
                   (AddRuleTypeDataSourceReference ruleID id projectID)) datasources.

(** What is written of a rule type. *)
Definition rule_type_row (projectID subscriptionID : UUID) (serializedRule phase regoVersion : string)
    (rt : RuleType) : dbRuleType :=
  {| rty_Name := rt_Name rt; rty_Severity := getRuleTypeSeverity (rt_Severity rt);
     rty_ProjectID := projectID; rty_Description := rt_Description rt;
     rty_Guidance := rt_Guidance rt; rty_Definition := serializedRule;
     rty_SubscriptionID := NullUUID subscriptionID; rty_DisplayName := rt_DisplayName rt;
     rty_ReleasePhase := phase; rty_ShortFailureMessage := rt_ShortFailureMessage rt;
     rty_RegoVersion := regoVersion |}.

Definition with_defaults (rt : RuleType) : RuleType :=
  WithDefaultShortFailureMessage (WithDefaultDisplayName rt).

(** [GetBytesFromProto] of the definition, of which a nil one is empty; after the
    validation there is one. *)
Definition serialize (rt : RuleType) : res string :=
  match rt_Def rt with
  | None => Ok "{}"
  | Some def => match definition_Marshal def with inl s => Ok s | inr err => Err err end
  end.

Definition validated (ruleType : RuleType) : prog World string :=
  checking invalid (RuleType_Validate jq_Parse jq_Compile text_Parse html_Parse (Some ruleType));;
  or_throw invalid (lift (validateAndDetectRegoVersion ruleType)).

Definition CreateRuleType (projectID subscriptionID : UUID) (ruleType : RuleType)
    : prog World RuleType :=
  regoVersion ← validated ruleType;
  checking invalid (if uuidLike (rt_Name ruleType)
                    then Some (EText "rule type name must not be UUID-like") else None);;
  checking invalid (ValidateNamespacedNameRules (rt_Name ruleType) subscriptionID);;
  projects ← wrapf "failed to get parent projects: " (GetParentProjects projectID);
  existing ← try (GetRuleTypeByName projects (rt_Name ruleType));
  match existing with
  | inl _ => throw ErrRuleAlreadyExists
  | inr err => if is_in err ErrNoRows then mret tt
               else throw (EWrap "failed to get rule type: " err "")
  end;;
  serializedRule ← wrapf "cannot convert rule definition to db: " (lift (serialize ruleType));
  releasePhase ← lift (GetDBReleaseStatusFromPBReleasePhase (rt_ReleasePhase ruleType));
  newDBRecord ← wrapf "failed to create rule type: "
    (CreateRuleType_query (rule_type_row projectID subscriptionID serializedRule releasePhase
                             regoVersion (with_defaults ruleType)));
  wrapf "failed adding references to data sources: "
    (processDataSources newDBRecord.1 (data_sources_of ruleType) projectID projects);;
  wrapf ("cannot convert rule type " +:+ rty_Name newDBRecord.2 +:+ " to pb: ")
    (lift (RuleTypePBFromDB newDBRecord)).

Definition UpdateRuleType (projectID subscriptionID : UUID) (ruleType : RuleType)
    : prog World RuleType :=
  regoVersion ← validated ruleType;
  oldRuleType ← or_throw (λ err,
      if is_in err ErrNoRows then ErrRuleNotFound else EWrap "failed to get rule type: " err "")
    (GetRuleTypeByName [projectID] (rt_Name ruleType));
  checking invalid (DoesSubscriptionIDMatch subscriptionID (rty_SubscriptionID oldRuleType.2));;
  lift (validateRuleUpdate oldRuleType ruleType);;
  serializedRule ← wrapf "cannot convert rule definition to db: " (lift (serialize ruleType));
  releasePhase ← lift (GetDBReleaseStatusFromPBReleasePhase (rt_ReleasePhase ruleType));
  updatedRuleType ← wrapf "failed to update rule type: "
    (UpdateRuleType_query oldRuleType.1
       (rule_type_row projectID subscriptionID serializedRule releasePhase regoVersion
          (with_defaults ruleType)));
  projects ← wrapf "failed to get parent projects: " (GetParentProjects projectID);
  wrapf "failed updating references to data sources: "
    (processDataSources oldRuleType.1 (data_sources_of ruleType) projectID projects);;
  wrapf ("cannot convert rule type " +:+ rty_Name oldRuleType.2 +:+ " to pb: ")
    (lift (RuleTypePBFromDB updatedRuleType)).

Definition UpsertRuleType (projectID subscriptionID : UUID) (ruleType : RuleType) : prog World unit :=
  created ← try (CreateRuleType projectID subscriptionID ruleType);
  match created with
  | inl _ => mret tt
  | inr err =>
      if is_in err ErrRuleAlreadyExists then
        wrapf "error while updating rule: " (UpdateRuleType projectID subscriptionID ruleType);; mret tt
      else throw (EWrap "error while creating rule: " err "")
  end.

(** ** handlers_ruletype.go

    The project is that of the request's context. *)

Definition maxReadableStringSize : nat := 3 * 1024.

Definition errInvalidRuleType : gerr := ENew "controlplane.errInvalidRuleType" "invalid rule type".

Definition validateSizeAndUTF8 (s : string) : error :=
  if (maxReadableStringSize <? String.length s)%nat then Some (EText "too long")
  else if utf8_ValidString s then None else Some (EText "not valid utf-8").

Definition without (l : list string) (s : string) : string :=
  foldl (λ s c, Strings.ReplaceAll s c "") s l.

Definition allowedPlainChars : list string := ["'"; String dquote ""].
Definition allowedEncodings : list string := ["&#39;"; "&#34;"].

(** The quotes are removed on both sides. *)
Definition sanitizeMarkdown (md : string) : error :=
  if String.eqb (without allowedEncodings (bluemonday_Sanitize md)) (without allowedPlainChars md)
  then None else Some (EWrap "" errInvalidRuleType ": value contains html").

Definition validateMarkdown (md : string) : error :=
  match goldmark_Convert md with
  | None => None
  | Some err => Some (EWrap "" errInvalidRuleType (": " +:+ Error err))
  end.

Definition check_guidance (md : string) : prog World unit :=
  checking (failing "InvalidArgument" "") (validateSizeAndUTF8 md);;
  checking (failing "InvalidArgument" "") (sanitizeMarkdown md);;
  checking (failing "InvalidArgument" "") (validateMarkdown md).

Definition regoV0DeprecationWarning : string :=
  "This rule type uses Rego V0 syntax. Please migrate to V1 using `opa fmt --v0-v1`. V0 support will be removed in a future release.".

Definition DetectRegoVersion_v1 (def : string) : bool :=
  match ast_ParseModule true def with None => true | Some _ => false end.

Definition regoVersionWarnings (rt : RuleType) : list string :=
  if negb (String.eqb (default "" (ev_Type <$> (rt_Def rt ≫= def_Eval))) "rego") ||
     String.eqb (rego_def rt) ""
  then []
  else if DetectRegoVersion_v1 (rego_def rt) then [] else [regoV0DeprecationWarning].

(** The message of the request is read without looking whether it is there. *)
Definition the_rule_type (rt : option RuleType) : prog World RuleType :=
  lift match rt with
       | None => Panic "runtime error: invalid memory address or nil pointer dereference"
       | Some rt => Ok rt
       end.

Definition handle_CreateRuleType (projectID : UUID) (req : option RuleType)
    : prog World (RuleType * list string) :=
  ValidateProject projectID;;
  ruleType ← the_rule_type req;
  check_guidance (rt_Guidance ruleType);;
  newRuleType ← or_throw (λ err,
      if is_in err ErrRuleTypeInvalid
      then failing "InvalidArgument" "invalid rule type definition: " err
      else if is_in err ErrRuleAlreadyExists
      then status_error "AlreadyExists" ("rule type " +:+ rt_Name ruleType +:+ " already exists")
      else if is_in err ErrDataSourceNotFound then failing "InvalidArgument" "" err
      else failing "Unknown" "failed to create rule type: " err)
    (WithTransaction (CreateRuleType projectID uuid_Nil ruleType));
  mret (newRuleType, regoVersionWarnings ruleType).

Definition handle_UpdateRuleType (projectID : UUID) (req : option RuleType)
    : prog World (RuleType * list string) :=
  ValidateProject projectID;;
  ruleType ← the_rule_type req;
  check_guidance (rt_Guidance ruleType);;
  updatedRuleType ← or_throw (λ err,
      if is_in err ErrRuleTypeInvalid
      then failing "InvalidArgument" "invalid rule type definition: " err
      else if is_in err ErrRuleNotFound
      then status_error "NotFound" ("rule type " +:+ rt_Name ruleType +:+ " not found")
      else failing "Unknown" "failed to update rule type: " err)
    (WithTransaction (UpdateRuleType projectID uuid_Nil ruleType));
  mret (updatedRuleType, regoVersionWarnings ruleType).

Definition converted (row : UUID * dbRuleType) : prog World RuleType :=
  or_throw (λ err, EText ("cannot convert rule type " +:+ rty_Name row.2 +:+ " to pb: " +:+ Error err))
    (lift (RuleTypePBFromDB row)).

Fixpoint convert_all (l : list (UUID * dbRuleType)) : prog World (list RuleType) :=
  match l with
  | [] => mret []
  | row :: l => rt ← converted row; rest ← convert_all l; mret (rt :: rest)
  end.

Definition ListRuleTypes (projectID : UUID) : prog World (list RuleType) :=
  ValidateProject projectID;;
  lrt ← or_throw (failing "Unknown" "failed to get rule types: ") (ListRuleTypesByProject projectID);
  convert_all lrt.

(** A row that is not there, or another failure. *)
Definition not_found_or (what id text : string) (err : gerr) : gerr :=
  if is_in err ErrNoRows then status_error "NotFound" (what +:+ " " +:+ id +:+ " not found")
  else failing "Unknown" text err.

Definition handle_GetRuleTypeByName (projectID : UUID) (name : string) : prog World RuleType :=
  ValidateProject projectID;;
  rtdb ← or_throw (not_found_or "rule type" name "failed to get rule type: ")
           (GetRuleTypeByName [projectID] name);
  converted rtdb.

Definition handle_GetRuleTypeById (projectID : UUID) (id : string) : prog World RuleType :=
  ValidateProject projectID;;
  parsedRuleTypeID ← or_throw (λ _, status_error "InvalidArgument" "invalid rule type ID")
                       (lift (uuid_Parse id));
  rtdb ← or_throw (not_found_or "rule type" id "failed to get rule type: ")
           (GetRuleTypeByID parsedRuleTypeID);
  converted rtdb.

(** By its id if it is one, else by its name. *)
Definition rule_type_to_delete (projectID : UUID) (id : string) : prog World (UUID * dbRuleType) :=
  match uuid_Parse id with
  | Ok parsedRuleTypeID =>
      rtdb ← or_throw (not_found_or "rule type" id "failed to get rule type: ")
               (GetRuleTypeByID parsedRuleTypeID);
      if (rty_ProjectID rtdb.2 =? projectID)%N then mret rtdb
      else throw (status_error "InvalidArgument"
             ("rule type " +:+ uuid_String rtdb.1 +:+ " does not belong to project " +:+
              uuid_String projectID))
  | _ =>
      or_throw (not_found_or "rule type" id "failed to get rule type: ")
        (GetRuleTypeByName [projectID] id)
  end.

Definition delete_rule_type (projectID : UUID) (id : string) : prog World unit :=
  rtdb ← rule_type_to_delete projectID id;
  match rty_SubscriptionID rtdb.2 with
  | Some _ => throw (status_error "InvalidArgument" "cannot delete rule type from bundle")
  | None =>
      profiles ← try (ListProfilesInstantiatingRuleType rtdb.1);
      match profiles with
      | inl [] => mret tt
      | inl l => throw (status_error "FailedPrecondition"
                   ("cannot delete: rule type " +:+ id +:+ " is used by profiles " +:+
                    String.concat ", " l))
      | inr err => if is_in err ErrNoRows then mret tt
                   else throw (failing "Unknown" "failed to get profiles: " err)
      end;;
      or_throw (not_found_or "rule type" id "failed to delete rule type: ")
        (DeleteRuleType_query rtdb.1)
  end.

Definition handle_DeleteRuleType (projectID : UUID) (id : string) : prog World unit :=
  ValidateProject projectID;;
  WithTransaction (delete_rule_type projectID id).
End service.
