(* ===== verification/RuleTypeSync.v ===== *)
(** * Rule types and the data sources they use

    The operations of RuleTypeService.v and DataSourceService.v keep the
    references of the database in step with the definitions of the rule types: a
    data source a rule type names cannot go away.  So the registry of its functions
    can be built. *)

From S2P Require Import Prelude GoErrors GoMonad GoStrings Uuid DbTypes ProfileModels.
From S2P Require Import Properties ApiTypes Validators Database HistoryDb EntityMessage.
From S2P Require Import Eea ProfileDb ProfileRules ProfileService SchemaUpdate.
From S2P Require Import DataSourceDb DataSources DataSourceService RuleTypeService.
From Stdlib Require Import Ascii.
Local Open Scope string_scope.

(** ** Programs that leave the tables alone *)

Definition at_db (d : Db) : Db → Prop := λ d', d' = d.

Definition quiet {A} (m : prog World A) : Prop := ∀ d, preserves (λ w, at_db d (w_db w)) m.

Lemma quiet_run {A} (m : prog World A) w w' r : quiet m → m w = (w', r) → w_db w' = w_db w.
Proof. intros Hm Hr. specialize (Hm (w_db w) w eq_refl). by rewrite Hr in Hm. Qed.

(** A program made of selects keeps whatever the tables satisfy. *)
Ltac selects :=
  unfold checking, the_rule_type, ValidateProject, forceDataSourceProject, parse_ds_id in *;
  repeat (intros; first
    [ progress (eauto with preserves nocore)
    | lazymatch goal with
      | |- preserves (λ w, ?I (w_db w)) (WithTransaction _) => apply (preserves_WithTransaction I)
      | |- preserves _ (in_tx _ _ _) => fail
      | _ => first
          [ apply preserves_select
          | apply preserves_bind | apply preserves_or_throw | apply preserves_wrapf
          | apply preserves_try | apply preserves_foreach | case_match; simplify_eq ]
      end ]).

Lemma preserved_run {A} (I : Db → Prop) (m : prog World A) w w' r :
  preserves (λ w, I (w_db w)) m → I (w_db w) → m w = (w', r) → I (w_db w').
Proof. intros Hm Hw Hr. specialize (Hm w Hw). by rewrite Hr in Hm. Qed.

Section transactions.
Context {A : Type} (I : Db → Prop).

(** A transaction keeps what its function keeps when it succeeds. *)
Lemma preserves_tx (m : prog World A) :
  (∀ w w' a, I (w_db w) → m w = (w', Ok a) → I (w_db w')) →
  preserves (λ w, I (w_db w)) (WithTransaction m).
Proof.
  intros Hm w Hw. destruct (WithTransaction m w) as [w' r] eqn:Hrun. cbn.
  destruct (WithTransaction_cases _ _ _ _ Hrun) as [(a & fs & w2 & -> & _ & Hf & -> & _)|[_ ->]];
    [|done]. exact (Hm (set_faults fs w) _ _ Hw Hf).
Qed.

Lemma beginInternalTx_quiet ro : quiet (beginInternalTx ro).
Proof. unfold quiet, beginInternalTx, BeginTransaction. selects. Qed.

Lemma in_tx_cases ro (m : prog World A) w w' r :
  in_tx ro false m w = (w', r) →
  (∃ a w1 w2, r = Ok a ∧ w_db w1 = w_db w ∧ m w1 = (w2, Ok a) ∧ w_db w' = w_db w2) ∨
  (is_ok r = false ∧ w_db w' = w_db w).
Proof.
  unfold in_tx. destruct (wrapf _ (beginInternalTx ro) w) as [w1 b] eqn:Hb.
  assert (Hw1 : w_db w1 = w_db w).
  { apply (quiet_run _ _ _ _ (λ d, preserves_wrapf _ _ _ (beginInternalTx_quiet ro d)) Hb). }
  destruct b as [[]|e|s]; [|intros [= <- <-]; by right..].
  destruct ((a ← m; _) w1) as [w2 x] eqn:Hm. destruct x as [a|e|s].
  - intros [= <- <-]. left. apply prog_bind_Ok in Hm as (w3 & a' & Hm & Hc).
    apply prog_bind_Ok in Hc as (w4 & [] & Hc & [= <- <-]).
    exists a', w1, w3. split_and!; [done..|]. apply wrapf_Ok in Hc.
    rewrite <-(query_select_db (λ _, Ok tt) w3). unfold Commit in Hc. by rewrite Hc.
  - intros [= <- <-]. right. by rewrite <-Hw1.
  - intros [= <- <-]. right. by rewrite <-Hw1.
Qed.

Lemma preserves_in_tx ro (m : prog World A) :
  (∀ w w' a, I (w_db w) → m w = (w', Ok a) → I (w_db w')) →
  preserves (λ w, I (w_db w)) (in_tx ro false m).
Proof.
  intros Hm w Hw. destruct (in_tx ro false m w) as [w' r] eqn:Hrun. cbn.
  destruct (in_tx_cases _ _ _ _ _ Hrun) as [(a & w1 & w2 & -> & Hw1 & Hf & ->)|[_ ->]]; [|done].
  apply (Hm w1 _ a); [by rewrite Hw1|done].
Qed.

Lemma preserves_read_tx ro (m : prog World A) :
  preserves (λ w, I (w_db w)) m → preserves (λ w, I (w_db w)) (in_tx ro false m).
Proof.
  intros Hm. apply preserves_in_tx. intros w w' a. by apply preserved_run.
Qed.
End transactions.

(** ** The references are in step *)

Section in_use.
Context (jq_Parse jq_Compile text_Parse html_Parse : string → error).
Context `{UuidLib} `{RandomUuid} `{PgText} `{RuleTypeServiceLib} `{Structpb} `{SchemaLib}
  `{DataSourceJSON} `{RestLib World}.

(** The names of the data sources a stored rule type refers to. *)
Definition names_of (row : dbRuleType) : list string :=
  match definition_Unmarshal (rty_Definition row) with
  | inl def => dsr_Name <$> default [] (ev_DataSources <$> def_Eval def)
  | inr _ => []
  end.

(** A data source of a name, that a project sees. *)
Definition sees (d : Db) (project : UUID) (n : string) (s : UUID) : Prop :=
  ∃ src, s_sources (sources d) !! s = Some src ∧ dso_Name src = n ∧
         dso_ProjectID src ∈ ancestors d project.

(** Every reference is one of the definition, in the project of the rule type;
    and every name of a definition has a reference, to a data source of that name
    in the hierarchy of the project. *)
Record in_use (d : Db) : Prop := {
  iu_rows : ∀ t s p, s_references (sources d) !! (t, s) = Some p →
    ∃ row, rule_types d !! t = Some row ∧ p = rty_ProjectID row ∧
           ∃ n, n ∈ names_of row ∧ sees d p n s;
  iu_names : ∀ t row n, rule_types d !! t = Some row → n ∈ names_of row →
    ∃ s, s_references (sources d) !! (t, s) = Some (rty_ProjectID row) ∧
         sees d (rty_ProjectID row) n s;
}.

Lemma ancestors_ext d d' p :
  projects d' = projects d → parent_projects d' = parent_projects d → ancestors d' p = ancestors d p.
Proof.
  intros Ep Epp. unfold ancestors. rewrite Ep. generalize (S (size (projects d))) as n.
  generalize (@nil UUID) as seen. intros seen n. revert p seen.
  induction n as [|n IH]; intros p seen; [done|]. cbn. rewrite Ep, Epp.
  destruct (bool_decide _); [|done]. destruct (parent_projects d !! p); [by rewrite IH|done].
Qed.

Lemma sees_ext d d' p n s :
  projects d' = projects d → parent_projects d' = parent_projects d →
  s_sources (sources d') = s_sources (sources d) → sees d' p n s ↔ sees d p n s.
Proof. intros Ep Epp Es. unfold sees. by rewrite Es, (ancestors_ext d d'). Qed.

(** What the references depend on. *)
Lemma in_use_ext d d' :
  in_use d → rule_types d' = rule_types d → projects d' = projects d →
  parent_projects d' = parent_projects d →
  s_references (sources d') = s_references (sources d) →
  (∀ t s p src, s_references (sources d) !! (t, s) = Some p →
     s_sources (sources d) !! s = Some src →
     ∃ src', s_sources (sources d') !! s = Some src' ∧ dso_Name src' = dso_Name src ∧
             dso_ProjectID src' = dso_ProjectID src) →
  in_use d'.
Proof.
  intros [Hr Hn] Et Ep Epp Er Hs.
  pose proof (λ p, ancestors_ext d d' p Ep Epp) as Ha.
  assert (Hsee : ∀ t s p n, s_references (sources d) !! (t, s) = Some p →
            ∀ q, sees d q n s → sees d' q n s).
  { intros t s p n Hts q (src & Hl & Hname & Hin).
    destruct (Hs _ _ _ _ Hts Hl) as (src' & Hl' & En & Epr). exists src'. split_and!; [done|congruence|].
    by rewrite Ha, Epr. }
  split; rewrite ?Et, ?Er.
  - intros t s p Hts. destruct (Hr _ _ _ Hts) as (row & Hrow & -> & n & Hin & Hsn).
    exists row. split_and!; [done..|]. exists n. split; [done|]. by eapply Hsee.
  - intros t row n Hrow Hin. destruct (Hn _ _ _ Hrow Hin) as (s & Hts & Hsn).
    exists s. split; [done|]. by eapply Hsee.
Qed.

(** *** Data sources *)

Lemma CreateDataSource_query_in_use row w w' x :
  in_use (w_db w) → CreateDataSource_query row w = (w', Ok x) → in_use (w_db w').
Proof.
  intros Hu (fs & Hrun)%query_Ok. cbn in Hrun.
  match type of Hrun with context [bool_decide ?P] =>
    destruct (bool_decide_reflect P) as [|Hnew]; [by injection Hrun|] end.
  destruct (bool_decide _) in Hrun; [|by injection Hrun]. injection Hrun as <- <-.
  apply (in_use_ext (w_db w)); [done..|]. cbn. intros t s p src _ Hl. exists src.
  rewrite lookup_insert_ne; [done|]. intros Heq. apply Hnew. left. rewrite Heq. eauto.
Qed.

Lemma AddDataSourceFunction_keeps row :
  preserves (λ w, in_use (w_db w)) (AddDataSourceFunction row).
Proof.
  apply preserves_query. intros w Hu. cbn zeta beta. case_bool_decide; [done|].
  match goal with |- context [if ?b then _ else _] => destruct b end; [|done].
  apply (in_use_ext (w_db w)); [done..|]. cbn. eauto.
Qed.

Lemma DeleteDataSourceFunctions_keeps id project :
  preserves (λ w, in_use (w_db w)) (DeleteDataSourceFunctions id project).
Proof.
  apply preserves_query. intros w Hu. apply (in_use_ext (w_db w)); [done..|]. cbn. eauto.
Qed.

(** The name and the project stay. *)
Lemma UpdateDataSource_query_keeps id project display metadata :
  preserves (λ w, in_use (w_db w)) (UpdateDataSource_query id project display metadata).
Proof.
  apply preserves_query. intros w Hu. cbn zeta.
  destruct (s_sources (sources (w_db w)) !! id) as [s|] eqn:Hs; [|done].
  destruct (bool_decide (dso_ProjectID s = project)); [|done]. apply (in_use_ext (w_db w)); [done..|]. cbn.
  intros t s' p src _ Hl. destruct (decide (id = s')) as [<-|Hne].
  - exists (updated_source display metadata s). rewrite lookup_insert_eq.
    assert (s = src) as -> by congruence. done.
  - exists src. by rewrite lookup_insert_ne.
Qed.

(** A reference holds the data source. *)
Lemma DeleteDataSource_query_keeps id project :
  preserves (λ w, in_use (w_db w)) (DeleteDataSource_query id project).
Proof.
  apply preserves_query. intros w Hu. cbn zeta.
  destruct (s_sources (sources (w_db w)) !! id) as [s|] eqn:Hs; [|done].
  destruct (bool_decide (dso_ProjectID s = project)); [|done]. case_bool_decide as Hno; [done|].
  apply (in_use_ext (w_db w)); [done..|]. cbn. intros t s' p src Hts Hl. exists src.
  rewrite lookup_delete_ne; [done|]. intros ->. apply Hno. exists (t, s'), p. done.
Qed.

Lemma addDataSourceFunctions_keeps ds id project :
  preserves (λ w, in_use (w_db w)) (addDataSourceFunctions ds id project).
Proof.
  pose proof AddDataSourceFunction_keeps. unfold addDataSourceFunctions, add_functions. selects.
Qed.

Lemma create_in_tx_keeps project sub ds w w' id :
  in_use (w_db w) → create_in_tx project sub ds w = (w', Ok id) → in_use (w_db w').
Proof.
  intros Hu. unfold create_in_tx. rewrite prog_bind_Ok. intros (w1 & projs & R1 & Hrun).
  apply prog_bind_Ok in Hrun as (w2 & ex & R2 & Hrun).
  apply prog_bind_Ok in Hrun as (w3 & [] & R3 & Hrun).
  apply prog_bind_Ok in Hrun as (w4 & md & R4 & Hrun).
  apply prog_bind_Ok in Hrun as (w5 & rec & R5%wrapf_Ok & Hrun).
  apply prog_bind_Ok in Hrun as (w6 & [] & R6 & [= <- <-]).
  apply quiet_run in R1; [|unfold quiet, listRelevantProjects, GetParentProjects; selects].
  apply quiet_run in R2; [|unfold quiet, GetDataSourceByName_query; selects].
  apply quiet_run in R3; [|unfold quiet; destruct ex as [[]|]; selects].
  apply quiet_run in R4; [|unfold quiet; selects].
  pose proof (preserves_wrapf _ "failed to create data source functions: " _
    (addDataSourceFunctions_keeps ds rec.1 project) w5) as Hf. rewrite R6 in Hf. apply Hf.
  eapply CreateDataSource_query_in_use; [|exact R5]. congruence.
Qed.

Lemma update_in_tx_keeps project sub ds :
  preserves (λ w, in_use (w_db w)) (update_in_tx project sub ds).
Proof.
  pose proof DeleteDataSourceFunctions_keeps. pose proof UpdateDataSource_query_keeps.
  pose proof addDataSourceFunctions_keeps.
  unfold update_in_tx, getDataSourceFromDb, listRelevantProjects, GetParentProjects, getByNameQuery,
    GetDataSourceByName_query, getDataSourceFunctions, ListDataSourceFunctions. selects.
Qed.

Lemma delete_in_tx_keeps id project :
  preserves (λ w, in_use (w_db w)) (delete_in_tx id project).
Proof.
  pose proof DeleteDataSource_query_keeps.
  unfold delete_in_tx, ListRuleTypesReferencesByDataSource, getDataSourceFromDb,
    listRelevantProjects, GetParentProjects, getByIDQuery, GetDataSource. selects.
Qed.


(** *** The references of a rule type *)

Definition named_source (d : Db) (projects : list UUID) (n : string) (s : UUID) : Prop :=
  ∃ src, s_sources (sources d) !! s = Some src ∧ dso_Name src = n ∧ dso_ProjectID src ∈ projects.

Lemma source_named_Ok d n projects row :
  source_named d n projects = Ok row → named_source d projects n row.1.
Proof.
  unfold source_named, first_source. destruct (filter _ _) as [|[s src] l] eqn:Hf; [done|].
  intros [= <-]. assert (Hin : (s, src) ∈ (s, src) :: l) by apply list_elem_of_here.
  rewrite <-Hf in Hin. apply list_elem_of_filter in Hin as [[Hn Hp] Hin%elem_of_map_to_list].
  by exists src.
Qed.

Lemma getAvailableDataSources_Ok refs projects w w' ids :
  getAvailableDataSources refs projects w = (w', Ok ids) →
  w_db w' = w_db w ∧
  Forall2 (named_source (w_db w) projects) (dsr_Name <$> refs) ids.
Proof.
  revert w ids. induction refs as [|ref refs IH]; intros w ids; cbn [getAvailableDataSources].
  { intros [= <- <-]. split; [done|constructor]. }
  rewrite prog_bind_Ok. intros (w1 & row & R1%or_throw_Ok & Hrun).
  apply prog_bind_Ok in Hrun as (w2 & rest & R2 & [= <- <-]).
  assert (Hw1 : w_db w1 = w_db w).
  { apply (quiet_run _ _ _ _ (λ d, preserves_select (at_db d) _) R1). }
  apply query_Ok in R1 as (fs & [= _ R1]). apply source_named_Ok in R1.
  destruct (IH _ _ R2) as [Hw2 Hall]. rewrite Hw1 in *. split; [done|]. by constructor.
Qed.

(** All the references depend on but themselves. *)
Definition same_tables (d d' : Db) : Prop :=
  rule_types d' = rule_types d ∧ projects d' = projects d ∧
  parent_projects d' = parent_projects d ∧ s_sources (sources d') = s_sources (sources d).

(** What adding the references of a rule type does. *)
Lemma add_references_Ok t p ids w w' :
  foreach (λ id, wrapf "error adding references to data source: "
                   (AddRuleTypeDataSourceReference t id p)) ids w = (w', Ok tt) →
  same_tables (w_db w) (w_db w') ∧
  ∀ k, s_references (sources (w_db w')) !! k =
    if bool_decide (k.1 = t ∧ k.2 ∈ ids) then Some p else s_references (sources (w_db w)) !! k.
Proof.
  revert w. induction ids as [|id ids IH]; intros w; cbn [foreach].
  { intros [= <-]. split; [done|]. intros k.
    rewrite bool_decide_eq_false_2; [done|]. by intros [_ ?%not_elem_of_nil]. }
  rewrite prog_bind_Ok. intros (w1 & [] & R1%wrapf_Ok & Hrun).
  destruct (IH _ Hrun) as [Hdb Hk]. clear IH Hrun.
  apply query_Ok in R1 as (fs & R1). cbn in R1.
  match type of R1 with context [bool_decide ?P] =>
    destruct (bool_decide_reflect P) as [|Hnew]; [by injection R1|] end.
  destruct (_ && _) in R1; [|by injection R1]. injection R1 as <-.
  split; [exact Hdb|]. intros k. rewrite Hk. cbn.
  destruct (decide (k = (t, id))) as [->|Hne].
  - rewrite lookup_insert_eq. cbn. by rewrite (bool_decide_eq_true_2 (t = t ∧ id ∈ id :: ids))
      by (split; [done|by left]); case_bool_decide.
  - rewrite lookup_insert_ne by done.
    rewrite (bool_decide_ext (k.1 = t ∧ k.2 ∈ ids) (k.1 = t ∧ k.2 ∈ id :: ids)); [done|].
    destruct k as [t' id']. cbn. rewrite elem_of_cons. naive_solver.
Qed.

(** The rule type [t] is written as [row], and its references are replaced. *)
Lemma references_replaced d0 d' t row ids :
  in_use d0 → rule_types d' = <[t := row]> (rule_types d0) → projects d' = projects d0 →
  parent_projects d' = parent_projects d0 → s_sources (sources d') = s_sources (sources d0) →
  (∀ old, rule_types d0 !! t = Some old → rty_ProjectID old = rty_ProjectID row) →
  Forall2 (named_source d0 (ancestors d0 (rty_ProjectID row))) (names_of row) ids →
  (∀ k, s_references (sources d') !! k =
     if bool_decide (k.1 = t ∧ k.2 ∈ ids) then Some (rty_ProjectID row)
     else filter (λ q, ¬ (q.1.1 = t ∧ q.2 = rty_ProjectID row)) (s_references (sources d0)) !! k) →
  in_use d'.
Proof.
  intros [Hr Hn] Et Ep Epp Es Hold Hids Hk.
  assert (Hsee : ∀ q n s, sees d' q n s ↔ named_source d0 (ancestors d0 q) n s).
  { intros q n s. unfold sees, named_source. by rewrite Es, (ancestors_ext d0 d'). }
  split.
  - intros t' s p. rewrite Hk, Et. cbn. case_bool_decide as Hin.
    + destruct Hin as [-> Hin]. intros [= <-]. exists row. rewrite lookup_insert_eq.
      split_and!; [done..|]. apply list_elem_of_lookup in Hin as (i & Hi).
      destruct (Forall2_lookup_r _ _ _ _ _ Hids Hi) as (n & Hni & Hsn). exists n.
      split; [by eapply list_elem_of_lookup_2|]. by apply Hsee.
    + rewrite map_lookup_filter_Some. cbn. intros [Hts Hne].
      destruct (Hr _ _ _ Hts) as (old & Hrow & -> & n & Hnin & Hsn).
      assert (t ≠ t') by (intros ->; apply Hne; split; [done|by apply Hold]).
      exists old. rewrite lookup_insert_ne by done. split_and!; [done..|]. exists n.
      split; [done|]. apply Hsee, Hsn.
  - intros t' row' n. rewrite Et. intros [[<- <-]|[Hne Hrow]]%lookup_insert_Some Hin.
    + apply list_elem_of_lookup in Hin as (i & Hi).
      destruct (Forall2_lookup_l _ _ _ _ _ Hids Hi) as (s & Hsi & Hsn). exists s.
      rewrite Hk. rewrite bool_decide_eq_true_2.
      * split; [done|]. by apply Hsee.
      * split; [done|]. by eapply list_elem_of_lookup_2.
    + destruct (Hn _ _ _ Hrow Hin) as (s & Hts & Hsn). exists s. split; [|by apply Hsee].
      rewrite Hk, bool_decide_eq_false_2 by (cbn; intros [? _]; congruence).
      apply map_lookup_filter_Some. split; [done|]. intros [? _]. cbn in *. congruence.
Qed.

Lemma processDataSources_Ok t refs p projects w w' :
  processDataSources t refs p projects w = (w', Ok tt) →
  ∃ ids, Forall2 (named_source (w_db w) projects) (dsr_Name <$> refs) ids ∧
  same_tables (w_db w) (w_db w') ∧
  ∀ k, s_references (sources (w_db w')) !! k =
    if bool_decide (k.1 = t ∧ k.2 ∈ ids) then Some p
    else filter (λ q, ¬ (q.1.1 = t ∧ q.2 = p)) (s_references (sources (w_db w))) !! k.
Proof.
  unfold processDataSources. rewrite prog_bind_Ok. intros (w1 & ids & R1 & Hrun).
  apply prog_bind_Ok in Hrun as (w2 & [] & R2%wrapf_Ok & R3).
  destruct (getAvailableDataSources_Ok _ _ _ _ _ R1) as [Hw1 Hids]. exists ids.
  apply query_Ok in R2 as (fs & [= <-]). destruct (add_references_Ok _ _ _ _ _ R3) as [Hdb Hk].
  split; [done|]. rewrite <-Hw1. split; [exact Hdb|exact Hk].
Qed.

(** *** Rule types *)

Lemma serialize_names rt s row :
  serialize rt = Ok s → rty_Definition row = s → is_Some (rt_Def rt) →
  names_of row = dsr_Name <$> data_sources_of rt.
Proof.
  intros Hs Hr [def Hd]. unfold serialize in Hs. rewrite Hd in Hs.
  destruct (definition_Marshal def) as [x|] eqn:Hm; [|done]. injection Hs as ->.
  unfold names_of, data_sources_of. by rewrite Hr, (definition_roundtrip _ _ Hm), Hd.
Qed.

Lemma checking_passed f err (w w' : World) : checking f err w = (w', Ok tt) → w' = w ∧ err = None.
Proof. destruct err; cbn; [done|]. by intros [= <-]. Qed.

Lemma validated_Ok rt w w' v :
  validated jq_Parse jq_Compile text_Parse html_Parse rt w = (w', Ok v) →
  w' = w ∧ rule_type_ok jq_Parse jq_Compile text_Parse html_Parse rt.
Proof.
  unfold validated. rewrite prog_bind_Ok. intros (w1 & [] & R1%checking_passed & R2%or_throw_Ok).
  destruct R1 as [-> Hv]. injection R2 as <- _. split; [done|]. by apply rule_type_validity in Hv as [].
Qed.

Lemma has_definition rt :
  rule_type_ok jq_Parse jq_Compile text_Parse html_Parse rt → is_Some (rt_Def rt).
Proof. intros [_ (def & -> & _)]. eauto. Qed.

Lemma CreateRuleType_in_use project sub rt w w' x :
  in_use (w_db w) →
  CreateRuleType jq_Parse jq_Compile text_Parse html_Parse project sub rt w = (w', Ok x) →
  in_use (w_db w').
Proof.
  intros Hu. unfold CreateRuleType. rewrite prog_bind_Ok. intros (w1 & v & R1%validated_Ok & Hrun).
  destruct R1 as [-> Hok%has_definition].
  apply prog_bind_Ok in Hrun as (w2 & [] & [-> _]%checking_passed & Hrun).
  apply prog_bind_Ok in Hrun as (w3 & [] & [-> _]%checking_passed & Hrun).
  apply prog_bind_Ok in Hrun as (w4 & projs & R4%wrapf_Ok & Hrun).
  apply prog_bind_Ok in Hrun as (w5 & ex & R5 & Hrun).
  apply prog_bind_Ok in Hrun as (w6 & [] & R6 & Hrun).
  apply prog_bind_Ok in Hrun as (w7 & ser & R7%wrapf_Ok & Hrun).
  apply prog_bind_Ok in Hrun as (w8 & ph & R8 & Hrun).
  apply prog_bind_Ok in Hrun as (w9 & rec & R9%wrapf_Ok & Hrun).
  apply prog_bind_Ok in Hrun as (w10 & [] & R10%wrapf_Ok & R11%wrapf_Ok).
  assert (Hdb4 : w_db w4 = w_db w).
  { apply (quiet_run _ _ _ _ (λ d, preserves_select (at_db d) _) R4). }
  apply query_Ok in R4 as (fs & [= _ R4]). cbn in R4.
  apply quiet_run in R5; [|unfold quiet, GetRuleTypeByName; selects].
  apply quiet_run in R6; [|unfold quiet; destruct ex as [[]|]; selects].
  injection R7 as <- R7. injection R8 as <- R8. injection R11 as <- _.
  apply query_Ok in R9 as (fs9 & R9). cbn in R9.
  destruct (bool_decide _) in R9; [|by injection R9].
  match type of R9 with context [bool_decide (?P ∨ ?Q)] =>
    destruct (bool_decide_reflect (P ∨ Q)) as [|Hnew]; [by injection R9|] end.
  destruct (bool_decide _) in R9; [|by injection R9]. injection R9 as <- <-.
  destruct (processDataSources_Ok _ _ _ _ _ _ R10) as (ids & Hids & Hdb & Hk). cbn in *.
  rewrite <-R6, R5, Hdb4 in *.
  destruct Hdb as (Et & Ep & Epp & Es).
  eapply (references_replaced (w_db w) _ _ _ ids Hu Et Ep Epp Es); [| |exact Hk].
  - intros old Hl. destruct Hnew. left. eauto.
  - erewrite serialize_names; [|exact R7|done|done]. by subst projs.
Qed.

Lemma rule_type_named_Ok d projects n row :
  rule_type_named d projects n = Ok row →
  rule_types d !! row.1 = Some row.2 ∧ rty_ProjectID row.2 ∈ projects.
Proof.
  unfold rule_type_named. destruct (filter _ _) as [|[t r] l] eqn:Hf; [done|]. intros [= <-].
  assert (Hin : (t, r) ∈ (t, r) :: l) by apply list_elem_of_here.
  rewrite <-Hf in Hin. apply list_elem_of_filter in Hin as [[Hp _] Hin%elem_of_map_to_list]. done.
Qed.

Lemma UpdateRuleType_in_use project sub rt w w' x :
  in_use (w_db w) →
  UpdateRuleType jq_Parse jq_Compile text_Parse html_Parse project sub rt w = (w', Ok x) →
  in_use (w_db w').
Proof.
  intros Hu. unfold UpdateRuleType. rewrite prog_bind_Ok. intros (w1 & v & R1%validated_Ok & Hrun).
  destruct R1 as [-> Hok%has_definition].
  apply prog_bind_Ok in Hrun as (w2 & old & R2%or_throw_Ok & Hrun).
  apply prog_bind_Ok in Hrun as (w3 & [] & [-> _]%checking_passed & Hrun).
  apply prog_bind_Ok in Hrun as (w4 & [] & R4 & Hrun).
  apply prog_bind_Ok in Hrun as (w5 & ser & R5%wrapf_Ok & Hrun).
  apply prog_bind_Ok in Hrun as (w6 & ph & R6 & Hrun).
  apply prog_bind_Ok in Hrun as (w7 & rec & R7%wrapf_Ok & Hrun).
  apply prog_bind_Ok in Hrun as (w8 & projs & R8%wrapf_Ok & Hrun).
  apply prog_bind_Ok in Hrun as (w9 & [] & R9%wrapf_Ok & R10%wrapf_Ok).
  assert (Hdb2 : w_db w2 = w_db w).
  { apply (quiet_run _ _ _ _ (λ d, preserves_select (at_db d) _) R2). }
  apply query_Ok in R2 as (fs & [= _ R2]). apply rule_type_named_Ok in R2 as [Hl Hp].
  apply list_elem_of_singleton in Hp. cbn in Hl.
  injection R4 as <- _. injection R5 as <- R5. injection R6 as <- R6. injection R10 as <- _.
  apply query_Ok in R7 as (fs7 & R7). cbn in R7.
  destruct (bool_decide _) in R7; [|by injection R7].
  rewrite Hdb2, Hl in R7. injection R7 as <- <-.
  assert (Hdb8 : w_db w8 = set_rule_types (<[old.1 := updated_rule_type
      (rule_type_row project sub ser ph v (with_defaults rt)) old.2]> (rule_types (w_db w))) (w_db w)).
  { rewrite (quiet_run _ _ _ _ (λ d, preserves_select (at_db d) _) R8). cbn. by rewrite Hdb2. }
  apply query_Ok in R8 as (fs8 & [= _ R8]).
  assert (Hanc : projs = ancestors (w_db w) project).
  { rewrite <-R8. apply ancestors_ext; cbn; by rewrite Hdb2. }
  destruct (processDataSources_Ok _ _ _ _ _ _ R9) as (ids & Hids & (Et & Ep & Epp & Es) & Hk).
  rewrite Hdb8 in *. cbn in Hids, Et, Ep, Epp, Es, Hk.
  eapply (references_replaced (w_db w) _ _ _ ids Hu Et Ep Epp Es).
  - intros old' Hl'. cbn. congruence.
  - erewrite serialize_names; [|exact R5|done|done]. 
    cbn [updated_rule_type rty_ProjectID]. rewrite Hp, <-Hanc. exact Hids.
  - cbn. by rewrite Hp.
Qed.

Lemma DeleteRuleType_query_keeps id : preserves (λ w, in_use (w_db w)) (DeleteRuleType_query id).
Proof.
  apply preserves_query. intros w Hu. case_bool_decide; [done|].
  destruct Hu as [Hr Hn]. split; cbn.
  - intros t s p. rewrite map_lookup_filter_Some. cbn. intros [Hts Hne].
    destruct (Hr _ _ _ Hts) as (row & Hrow & Hp & n & Hin & Hs). exists row.
    rewrite lookup_delete_ne by (intros ->; by apply Hne). split_and!; [done..|].
    exists n. split; [done|]. by apply (sees_ext (w_db w)).
  - intros t row n Hrow Hin. apply lookup_delete_Some in Hrow as [Hne Hrow].
    destruct (Hn _ _ _ Hrow Hin) as (s & Hts & Hs). exists s.
    split; [|by apply (sees_ext (w_db w))].
    apply map_lookup_filter_Some. split; [done|]. cbn. congruence.
Qed.

(** *** The requests *)

Inductive catalog_request :=
| QCreateRuleType (rt : option RuleType)
| QUpdateRuleType (rt : option RuleType)
| QDeleteRuleType (id : string)
| QCreateDataSource (ds : option DataSource)
| QUpdateDataSource (ds : option DataSource)
| QDeleteDataSourceById (id : string)
| QDeleteDataSourceByName (name : string).

Definition serve_catalog (project : UUID) (r : catalog_request) : prog World unit :=
  match r with
  | QCreateRuleType rt =>
      handle_CreateRuleType jq_Parse jq_Compile text_Parse html_Parse project rt;; mret tt
  | QUpdateRuleType rt =>
      handle_UpdateRuleType jq_Parse jq_Compile text_Parse html_Parse project rt;; mret tt
  | QDeleteRuleType id => handle_DeleteRuleType project id
  | QCreateDataSource ds => CreateDataSource project ds;; mret tt
  | QUpdateDataSource ds => UpdateDataSource project ds;; mret tt
  | QDeleteDataSourceById id => DeleteDataSourceById project id;; mret tt
  | QDeleteDataSourceByName name => DeleteDataSourceByName project name;; mret tt
  end.

(** C22: A data source a rule type uses stays.  Whatever is asked of rule types and
    data sources, and whichever statement fails, the references of the database
    are those of the definitions: every data source a rule type names is there,
    under its name, where the project of the rule type sees it, and no reference
    is left that no definition names. *)
Theorem data_sources_in_use project r :
  preserves (λ w, in_use (w_db w)) (serve_catalog project r).
Proof.
  pose proof (λ p s rt, preserves_tx _ _ (CreateRuleType_in_use p s rt)).
  pose proof (λ p s rt, preserves_tx _ _ (UpdateRuleType_in_use p s rt)).
  pose proof (λ p s ds, preserves_in_tx _ false _ (create_in_tx_keeps p s ds)).
  pose proof (λ p s ds, preserves_in_tx _ false _
    (λ w w' a, preserved_run in_use _ w w' (Ok a) (update_in_tx_keeps p s ds))).
  pose proof (λ id p, preserves_in_tx _ false _
    (λ w w' a, preserved_run in_use _ w w' (Ok a) (delete_in_tx_keeps id p))).
  pose proof DeleteRuleType_query_keeps.
  destruct r; cbn [serve_catalog];
    unfold handle_CreateRuleType, handle_UpdateRuleType, handle_DeleteRuleType, check_guidance,
      CreateDataSource, UpdateDataSource, DeleteDataSourceById, DeleteDataSourceByName,
      Create, Update, Delete, validating, delete_rule_type, rule_type_to_delete, GetProjectByID,
      ListProfilesInstantiatingRuleType, GetRuleTypeByName, GetRuleTypeByID, getTransaction.
  1-6: selects.
  unfold GetByName, getDataSourceSomehow, getDataSourceFromDb, getByNameQuery,
    GetDataSourceByName_query, getDataSourceFunctions, ListDataSourceFunctions, listRelevantProjects,
    GetParentProjects. selects.
  apply preserves_read_tx. selects.
Qed.
End in_use.

(** * The registry of the data sources of a rule type

    What the references of above are for: when a rule type is evaluated,
    the data sources it names are found and their functions registered under
    their aliases. *)

(** ** Keys *)

Lemma alias_no_dot a : dataSourceAlias a = true → Strings.Contains a "."%char = false.
Proof.
  unfold dataSourceAlias. destruct a as [|c a]; [done|]. cbn [String.list_ascii_of_string].
  intros [Hc Ha]%andb_true_iff. cbn [Strings.Contains]. apply orb_false_iff. split.
  - apply bool_decide_eq_false_2. by intros ->.
  - clear Hc. induction a as [|d a IH]; [done|]. cbn in *. apply andb_true_iff in Ha as [Hd Ha].
    rewrite (IH Ha), orb_false_r. apply bool_decide_eq_false_2. by intros ->.
Qed.

Lemma makeKey_inj a b k k' :
  Strings.Contains a "."%char = false → Strings.Contains b "."%char = false →
  makeKey a k = makeKey b k' → a = b ∧ k = k'.
Proof.
  unfold makeKey. intros Ha Hb Heq.
  assert (Hs : Strings.Split (a +:+ String "." k) "."%char = Strings.Split (b +:+ String "." k') "."%char)
    by (f_equal; exact Heq).
  rewrite !Strings.Split_app in Hs by done. injection Hs as -> _. split; [done|].
  change (b +:+ String "." k = b +:+ String "." k') in Heq. apply (inj (String.app b)) in Heq. congruence.
Qed.

#[export] Instance makeKey_Inj a : Inj (=) (=) (makeKey a).
Proof.
  intros k k' Heq. unfold makeKey in Heq. apply (inj (String.app a)) in Heq.
  change (String "." k = String "." k') in Heq. congruence.
Qed.

Section registry.
Context `{UuidLib} `{RandomUuid} `{PgText} `{RuleTypeServiceLib} `{Structpb} `{SchemaLib}
  `{DataSourceJSON} `{RestLib World}.

(** The keys of a registry are those of functions of the given aliases. *)
Definition keys_of (aliases : list string) (reg : funcs) : Prop :=
  ∀ x, is_Some (reg !! x) → ∃ a k, a ∈ aliases ∧ x = makeKey a k.

Lemma RegisterDataSource_fresh name ds aliases reg :
  keys_of aliases reg → Forall (λ a, Strings.Contains a "."%char = false) (name :: aliases) →
  name ∉ aliases →
  ∃ reg', RegisterDataSource name ds reg = Ok reg' ∧ keys_of (name :: aliases) reg' ∧
    (∀ k f, ds !! k = Some f → reg' !! makeKey name k = Some f) ∧
    (∀ a k f, a ∈ aliases → reg !! makeKey a k = Some f → reg' !! makeKey a k = Some f).
Proof.
  intros Hk [Hn Ha]%Forall_cons Hnew. rewrite Forall_forall in Ha.
  assert (Hfresh : ∀ k, reg !! makeKey name k = None).
  { intros k. apply eq_None_not_Some. intros (a & k' & Hin & Heq)%Hk.
    destruct (makeKey_inj _ _ _ _ Hn (Ha _ Hin) Heq) as [-> _]. done. }
  exists (kmap (makeKey name) ds ∪ reg). unfold RegisterDataSource, funcs in *. split_and!.
  - rewrite list_filter_none; [done|]. intros p Hp.
    apply list_elem_of_fmap in Hp as (q & -> & _). cbn. rewrite Hfresh. by intros [].
  - intros x [f Hx]. apply (lookup_union_Some_raw (M:=gmap string)) in Hx as [Hx|[_ Hx]].
    + apply lookup_kmap_Some in Hx as (k & -> & _); [|apply _]. exists name, k. split; [by left|done].
    + destruct (Hk x (mk_is_Some _ _ Hx)) as (a & k & Hin & ->). exists a, k. split; [by right|done].
  - intros k f Hf. apply lookup_union_Some_l. by rewrite lookup_kmap by apply _.
  - intros a k f Hin Hf. apply lookup_union_Some_raw. right. split; [|done].
    apply eq_None_not_Some. intros [g Hg].
    apply lookup_kmap_Some in Hg as (k' & Heq & _); [|apply _].
    destruct (makeKey_inj _ _ _ _ (Ha _ Hin) Hn Heq) as [-> _]. done.
Qed.

(** ** Finding *)

Lemma source_named_total d projects n s :
  named_source d projects n s → ∃ row, source_named d n projects = Ok row.
Proof.
  intros (src & Hl & Hn & Hp). unfold source_named, first_source.
  destruct (filter _ _) as [|row l] eqn:Hf; [|by exists row]. exfalso.
  assert (Hin : (s, src) ∈ filter (λ p : UUID * dbDataSource, dso_Name p.2 = n ∧ dso_ProjectID p.2 ∈ projects)
    (map_to_list (s_sources (sources d)))).
  { apply list_elem_of_filter. split; [done|]. by apply elem_of_map_to_list. }
  rewrite Hf in Hin. by apply not_elem_of_nil in Hin.
Qed.

(** A data source with its functions as the service builds it. *)
Definition provides (d : Db) (provider : bool) (s : UUID) (impl : funcs) : Prop :=
  ∃ src ds, s_sources (sources d) !! s = Some src ∧
    dataSourceDBToProtobuf (s, src) (functions_of d s (dso_ProjectID src)) = Ok ds ∧
    BuildFromProtobuf ds provider = Ok impl.

Lemma provides_functions d provider s impl src :
  provides d provider s impl → s_sources (sources d) !! s = Some src →
  functions_of d s (dso_ProjectID src) ≠ [].
Proof.
  intros (src' & ds & Hl & Hd & _) Hl'. assert (src' = src) as -> by congruence.
  by destruct (functions_of _ _ _).
Qed.

Lemma instantiate_run ref projects w provider s :
  w_faults w = [] → projects ≠ [] → dsr_Name ref ≠ "" →
  named_source (w_db w) projects (dsr_Name ref) s →
  (∀ s', named_source (w_db w) projects (dsr_Name ref) s' →
     ∃ impl, provides (w_db w) provider s' impl) →
  ∃ s' ds impl, named_source (w_db w) projects (dsr_Name ref) s' ∧
    provides (w_db w) provider s' impl ∧
    instantiateDataSource ref projects w = (w, Ok ds) ∧ BuildFromProtobuf ds provider = Ok impl.
Proof.
  intros Hf Hp Hne Hs Hall. destruct (source_named_total _ _ _ _ Hs) as ([s' src] & Hrow).
  pose proof (source_named_Ok _ _ _ _ Hrow) as Hnamed. cbn in Hnamed.
  destruct (Hall _ Hnamed) as (impl & Hprov).
  destruct Hnamed as (src' & Hl & Hn & Hin).
  pose proof (provides_functions _ _ _ _ _ Hprov Hl) as Hfun.
  assert (Hsrc : src = src').
  { unfold source_named, first_source in Hrow. destruct (filter _ _) as [|x l] eqn:Hfl; [done|].
    injection Hrow as ->. assert (Hx : (s', src) ∈ (s', src) :: l) by apply list_elem_of_here.
    rewrite <-Hfl in Hx. apply list_elem_of_filter in Hx as [_ Hx%elem_of_map_to_list]. congruence. }
  subst src'. pose proof Hprov as (src' & ds & Hl' & Hds & Hb).
  assert (src' = src) as -> by congruence.
  exists s', ds, impl. split_and!; [by exists src|done| |done].
  unfold instantiateDataSource. rewrite (proj2 (String.eqb_neq _ _) Hne).
  unfold GetByName, getDataSourceSomehow, in_tx, getDataSourceFromDb. cbn [withHierarchy
    WithTransaction_read ro_transaction ro_hierarchy ro_hierarchical ReadBuilder].
  destruct projects as [|p0 projects]; [done|].
  unfold getByNameQuery, GetDataSourceByName_query, getDataSourceFunctions, ListDataSourceFunctions.
  unfold wrapf, or_throw, try, lift, mbind, prog_bind, mret, prog_ret.
  rewrite select_ok by done. cbn [dsr_Name]. rewrite Hrow.
  cbn -[functions_of dataSourceDBToProtobuf select]. rewrite select_ok by done.
  cbn -[functions_of dataSourceDBToProtobuf].
  destruct (functions_of (w_db w) s' (dso_ProjectID src)) as [|f fs] eqn:Hfs; [done|].
  cbn -[dataSourceDBToProtobuf]. by rewrite Hds.
Qed.

Lemma register_all_run provider projects refs aliases reg w :
  w_faults w = [] → projects ≠ [] →
  Forall (λ ref, dsr_Name ref ≠ "" ∧ dataSourceAlias (getAliasWithDefault ref) = true) refs →
  NoDup (getAliasWithDefault <$> refs) →
  (∀ ref, ref ∈ refs → getAliasWithDefault ref ∉ aliases) →
  Forall (λ a, Strings.Contains a "."%char = false) aliases → keys_of aliases reg →
  (∀ ref, ref ∈ refs → (∃ s, named_source (w_db w) projects (dsr_Name ref) s) ∧
     ∀ s, named_source (w_db w) projects (dsr_Name ref) s →
     ∃ impl, provides (w_db w) provider s impl) →
  ∃ reg', register_all provider projects refs reg w = (w, Ok reg') ∧
    (∀ a k f, a ∈ aliases → reg !! makeKey a k = Some f → reg' !! makeKey a k = Some f) ∧
    ∀ ref, ref ∈ refs → ∃ s impl, named_source (w_db w) projects (dsr_Name ref) s ∧
      provides (w_db w) provider s impl ∧
      ∀ k f, impl !! k = Some f → reg' !! makeKey (getAliasWithDefault ref) k = Some f.
Proof.
  intros Hf Hp. revert aliases reg. induction refs as [|ref refs IH];
    intros aliases reg Hok Hnd Hnew Hdots Hkeys Hsrc; cbn [register_all].
  { exists reg. split_and!; [done..|]. by intros ref ?%not_elem_of_nil. }
  apply Forall_cons in Hok as [[Hne Ha] Hok]. apply NoDup_cons in Hnd as [Hni Hnd].
  destruct (Hsrc ref ltac:(by left)) as [[s0 Hs0] Hall].
  destruct (instantiate_run ref projects w provider s0 Hf Hp Hne Hs0 Hall)
    as (s & ds & impl & Hs & Hprov & Hrun & Hb).
  destruct (RegisterDataSource_fresh (getAliasWithDefault ref) impl aliases reg Hkeys)
    as (reg1 & Hreg & Hk1 & Hget & Hkeep).
  { apply Forall_cons. split; [by apply alias_no_dot|done]. }
  { apply Hnew. by left. }
  destruct (IH (getAliasWithDefault ref :: aliases) reg1) as (reg' & Hrest & Hold & Href); [done..| | |done| |].
  - intros r Hr [Heq|Hin]%elem_of_cons; [|by apply (Hnew r); [right|]].
    apply Hni, list_elem_of_fmap. by exists r.
  - apply Forall_cons. split; [by apply alias_no_dot|done].
  - intros r Hr. apply Hsrc. by right.
  - exists reg'. split_and!.
    + unfold wrapf, lift, mbind, prog_bind. rewrite Hrun. cbn [wrapf_res]. rewrite Hb. cbn [wrapf_res].
      change (getDataSourceReferenceAlias ref) with (getAliasWithDefault ref). rewrite Hreg.
      cbn [wrapf_res]. exact Hrest.
    + intros a k f Hin Hl. apply Hold; [by right|]. by apply Hkeep.
    + intros r [->|Hr]%elem_of_cons; [|by apply Href]. exists s, impl. split_and!; [done..|].
      intros k f Hl. apply Hold; [by left|]. by apply Hget.
Qed.

(** C23: Once a rule type is stored, its data sources can be called.  In tables that
    are in step, when every data source the project of the rule type sees can be
    built, the registry of a rule type whose references were validated is built:
    for each reference a data source of its name in the hierarchy, every function
    of which is registered under the alias of the reference. *)
Theorem registry_built w t row rt opts
    (Hf : w_faults w = []) (Hu : in_use (w_db w))
    (Hrow : rule_types (w_db w) !! t = Some row) (Hrt : RuleTypePBFromDB (t, row) = Ok rt)
    (Hv : dataSources_Validate 0 [] (data_sources_of rt) = None)
    (Hsrc : ∀ s src, s_sources (sources (w_db w)) !! s = Some src →
       dso_ProjectID src ∈ ancestors (w_db w) (rty_ProjectID row) →
       ∃ impl, provides (w_db w) (getProvider opts) s impl) :
  ∃ reg, BuildDataSourceRegistry rt opts w = (w, Ok reg) ∧
    ∀ ref, ref ∈ data_sources_of rt → ∃ s impl,
      sees (w_db w) (rty_ProjectID row) (dsr_Name ref) s ∧
      provides (w_db w) (getProvider opts) s impl ∧
      ∀ k f, impl !! k = Some f → reg !! makeKey (getAliasWithDefault ref) k = Some f.
Proof.
  assert (Hctx : default "" (rt_Context rt ≫= ctx_Project) = uuid_String (rty_ProjectID row) ∧
                 names_of row = dsr_Name <$> data_sources_of rt).
  { unfold RuleTypePBFromDB, RuleDefFromDB in Hrt. unfold names_of, data_sources_of. cbn in Hrt.
    destruct (definition_Unmarshal (rty_Definition row)) as [def|]; [|done]. by injection Hrt as <-. }
  destruct Hctx as [Hctx Hnames]. unfold BuildDataSourceRegistry. rewrite Hctx, uuid_Parse_String.
  apply dataSources_ok in Hv as (Hok & Hnd & _).
  destruct (data_sources_of rt) as [|ref0 refs0] eqn:Hrefs.
  { exists ∅. split; [done|]. by intros ref ?%not_elem_of_nil. }
  set (anc := ancestors (w_db w) (rty_ProjectID row)).
  assert (Hall : ∀ ref, ref ∈ ref0 :: refs0 → (∃ s, named_source (w_db w) anc (dsr_Name ref) s) ∧
     ∀ s, named_source (w_db w) anc (dsr_Name ref) s →
     ∃ impl, provides (w_db w) (getProvider opts) s impl).
  { intros ref Hin. split.
    - destruct (iu_names _ Hu t row (dsr_Name ref) Hrow) as (s & _ & Hs).
      + rewrite Hnames. by apply list_elem_of_fmap_2.
      + by exists s.
    - intros s (src & Hl & _ & Hp). by apply (Hsrc s src). }
  assert (Hne : anc ≠ []).
  { destruct (Hall ref0 ltac:(by left)) as [(s & src & _ & _ & Hp) _].
    intros Ha. rewrite Ha in Hp. by apply not_elem_of_nil in Hp. }
  destruct (register_all_run (getProvider opts) anc (ref0 :: refs0) [] ∅ w Hf Hne Hok Hnd)
    as (reg & Hrun & _ & Href); [by intros ? ? ?%not_elem_of_nil|done| |done|].
  { intros x [f Hx]. discriminate Hx. }
  exists reg. split; [|exact Href].
  unfold lift, wrapf, mbind, prog_bind. cbn [wrapf_res]. unfold in_rolled_back_tx, beginInternalTx.
  assert (Hbody : (projectHierarchy ← wrapf "failed to get project hierarchy: "
      (GetParentProjects (rty_ProjectID row));
    register_all (getProvider opts) projectHierarchy (ref0 :: refs0) ∅) w = (w, Ok reg)).
  { unfold GetParentProjects, wrapf, mbind, prog_bind. rewrite select_ok by done. exact Hrun. }
  destruct (getTransaction opts); [exact Hbody|].
  unfold BeginTransaction. unfold mbind, prog_bind, wrapf in *. rewrite select_ok by done.
  cbn -[register_all GetParentProjects]. rewrite Hbody. by destruct w.
Qed.
End registry.
