(* ===== verification/CatalogExamples.v ===== *)
(** * Rule types and data sources: examples

    A small project with one data source and a rule type that uses it, on
    concrete instances of the libraries; the witnesses of the theorems about
    them, and what the code does that it does not mean to. *)

From S2P Require Import Prelude GoErrors GoMonad GoStrings Uuid DbTypes ProfileModels.
From S2P Require Import Properties ApiTypes Validators Database HistoryDb EntityMessage.
From S2P Require Import Eea ProfileDb ProfileRules ProfileService SchemaUpdate.
From S2P Require Import DataSourceDb DataSources DataSourceService RuleTypeService.
From S2P Require Import RuleTypeSync.
From Stdlib Require Import Ascii.
Local Open Scope string_scope.

(** ** Libraries *)

(** A definition that only refers to data sources, of which at most one. *)
Definition plain_definition (refs : list DataSourceReference) : RuleTypeDefinition :=
  {| def_InEntity := "repository"; def_RuleSchema := Some ∅; def_ParamSchema := None;
     def_Ingest := Some {| ing_Type := "git"; ing_Rest := None; ing_Diff := None |};
     def_Eval := Some {| ev_Type := "vulncheck"; ev_Jq := []; ev_Rego := None;
                         ev_DataSources := refs |};
     def_Remediate := None; def_Alert := None |}.

Definition uses (n : string) : list DataSourceReference := [{| dsr_Name := n; dsr_Alias := "" |}].

Definition definition_text (def : RuleTypeDefinition) : string + gerr :=
  match def with
  | {| def_InEntity := entity; def_RuleSchema := Some s; def_ParamSchema := None;
       def_Ingest := Some {| ing_Type := ingest; ing_Rest := None; ing_Diff := None |};
       def_Eval := Some {| ev_Type := type; ev_Jq := []; ev_Rego := None;
                           ev_DataSources := [{| dsr_Name := n; dsr_Alias := a |}] |};
       def_Remediate := None; def_Alert := None |} =>
      if bool_decide (s = ∅) && String.eqb entity "repository" && String.eqb ingest "git" &&
         String.eqb type "vulncheck" && String.eqb a ""
      then inl n else inr (EText "not supported")
  | _ => inr (EText "not supported")
  end.

(** A schema that names itself broken does not compile. *)
Definition ex_rule_types : RuleTypeLib :=
  {| definition_Unmarshal := λ s, inl (plain_definition (uses s));
     json_schema := unit;
     schema_Compile := λ s, if bool_decide (is_Some (s !! "broken")) then inr (EText "broken") else inl tt;
     schema_Validate := λ _ _, None |}.

Lemma definition_text_roundtrip def s :
  definition_text def = inl s → inl (plain_definition (uses s)) = inl def :> RuleTypeDefinition + gerr.
Proof.
  unfold definition_text. repeat (case_match; try done).
  match goal with Hb : _ && _ = true |- _ =>
    repeat (apply andb_true_iff in Hb as [Hb ?]); apply bool_decide_eq_true in Hb end.
  repeat match goal with He : String.eqb _ _ = true |- _ => apply String.eqb_eq in He end.
  simplify_eq. intros [= ->]. reflexivity.
Qed.

Definition ex_rule_type_library : @RuleTypeServiceLib ex_rule_types.
Proof.
  refine {| ast_ParseModule := λ _ _, None; RegoV1RefuseV0 := false;
            bluemonday_Sanitize := λ s, s; goldmark_Convert := λ _, None;
            definition_Marshal := definition_text |}.
  exact definition_text_roundtrip.
Defined.

Definition plain_function (endpoint : string) (schema : Struct) : RestDataSource_Def :=
  {| rds_Endpoint := endpoint; rds_Method := ""; rds_Headers := ∅; rds_Body := None;
     rds_Parse := ""; rds_InputSchema := Some schema |}.

(** A schema that is empty, or broken. *)
Definition function_text (def : option RestDataSource_Def) : string + gerr :=
  match def with
  | Some {| rds_Endpoint := e; rds_Method := m; rds_Headers := h; rds_Body := None; rds_Parse := p;
            rds_InputSchema := Some s |} =>
      if bool_decide (h = ∅) && String.eqb m "" && String.eqb p "" then
        match map_to_list s with
        | [] => inl ("+" +:+ e)
        | [(k, NullValue)] => if String.eqb k "broken" then inl ("-" +:+ e)
                              else inr (EText "not supported")
        | _ => inr (EText "not supported")
        end
      else inr (EText "not supported")
  | _ => inr (EText "not supported")
  end.

Definition broken_schema : Struct := {["broken" := NullValue]}.

Definition function_of_text (s : string) : RestDataSource_Def + gerr :=
  match s with
  | String "+"%char e => inl (plain_function e ∅)
  | String "-"%char e => inl (plain_function e broken_schema)
  | _ => inr (EText "not supported")
  end.

Lemma function_text_roundtrip def s :
  function_text (Some def) = inl s → function_of_text s = inl def.
Proof.
  destruct def as [e m h [|] p [sch|]]; try done. cbn [function_text].
  match goal with |- context [if ?b then _ else _] => destruct b eqn:Hb; [|done] end.
  apply andb_true_iff in Hb as [[Hh%bool_decide_eq_true ->%String.eqb_eq]%andb_true_iff ->%String.eqb_eq].
  subst h. pose proof (list_to_map_to_list sch) as Hs.
  destruct (map_to_list sch) as [|[k v] l]; rewrite <-Hs.
  - by intros [= <-].
  - destruct v, l as [|? ?]; try done. destruct (String.eqb_spec k "broken") as [->|]; [|done].
    by intros [= <-].
Qed.

Definition ex_data_sources : DataSourceJSON.
Proof.
  refine {| rest_def_Marshal := function_text; rest_def_Unmarshal := function_of_text;
    struct_def_Marshal := λ def, match def with
      | Some {| sds_Path := Some {| path_FileName := f; path_Alternatives := [] |} |} => inl f
      | _ => inr (EText "not supported") end;
    struct_def_Unmarshal := λ f,
      inl {| sds_Path := Some {| path_FileName := f; path_Alternatives := [] |} |};
    metadata_Marshal := λ md, String (if md_ProviderAuth md then "+"%char else "-"%char) (md_Type md);
    metadata_Unmarshal := λ s, match s with
      | String "+"%char t => inl {| md_Type := t; md_ProviderAuth := true |}
      | String _ t => inl {| md_Type := t; md_ProviderAuth := false |}
      | "" => inr (EText "not supported") end |}.
  - exact function_text_roundtrip.
  - intros [[[f [|? ?]]|]] text; try done. by intros [= <-].
  - by intros [t []].
Defined.

(** Nothing is answered on the network. *)
Definition ex_rest : RestLib World :=
  {| uritemplate_Expand := λ t _, inl t;
     url_Parse := λ s, inl {| url_Scheme := "https"; url_Host := s; url_Path := "/" |};
     json_Marshal := λ _, inl "{}"; json_Decode := λ s, inl (GString s);
     bodyobj_Marshal := λ _, inl "{}"; http_NewRequest := λ _ _, None;
     client_Do := λ _, throw (EText "no network");
     provider_NewRequest := λ _ _, None; provider_Do := λ _, throw (EText "no network");
     provider_BaseURL := "https://api.github.com"; backoff_Retry := @retry World |}.

(** ** A project *)

Definition ex_source (n : string) (def : gmap string (option RestDataSource_Def)) : DataSource :=
  {| ds_Version := "v1"; ds_Type := "data-source"; ds_Context := None; ds_Name := n; ds_Id := "";
     ds_Driver := Some (DataSource_Rest (Some {| rest_Def := def; rest_ProviderAuth := false |})) |}.

Definition ghapi : DataSource := ex_source "ghapi" {["get" := Some (plain_function "https://x" ∅)]}.

Definition ex_using (n : string) : RuleType :=
  {| rt_Id := None; rt_Name := "uses-" +:+ n; rt_DisplayName := ""; rt_ShortFailureMessage := "";
     rt_Context := None; rt_Def := Some (plain_definition (uses n)); rt_Description := "";
     rt_Guidance := "look"; rt_Severity := "high"; rt_ReleasePhase := "" |}.

Definition ex_empty_db : Db := set_rule_types ∅ (set_policies
  {| p_rules := ∅; p_profiles := ∅; p_entities := ∅; p_selectors := [] |} ex_db).

Section instances.
#[local] Existing Instances decimal_uuid counter_uuid ex_rule_types ex_rule_type_library ex_structpb
  ex_data_sources ex_rest.
#[local] Instance ex_pg_text : PgText := {| pg_lower := Strings.ToLower |}.

Definition ex_serve (project : UUID) : catalog_request → prog World unit :=
  serve_catalog parses parses parses parses project.

(** The outcome of a program from the tables [d]. *)
Definition ex_run {A} (m : prog World A) (d : Db) : World * res A := m (ex_world d []).

Definition ex_used_row : dbRuleType :=
  {| rty_Name := "uses-ghapi"; rty_Severity := "high"; rty_ProjectID := 2%N;
     rty_Description := ""; rty_Guidance := "look"; rty_Definition := "ghapi";
     rty_SubscriptionID := None; rty_DisplayName := "uses-ghapi"; rty_ReleasePhase := "ga";
     rty_ShortFailureMessage := "Rule uses-ghapi evaluation failed"; rty_RegoVersion := "v0" |}.

Definition ex_source_row : dbDataSource :=
  {| dso_Name := "ghapi"; dso_DisplayName := "ghapi"; dso_ProjectID := 2%N;
     dso_SubscriptionID := None; dso_Metadata := Some "-rest" |}.

Definition ex_used_db : Db := set_rule_types {[31%N := ex_used_row]}
  (set_sources
     {| s_sources := {[50%N := ex_source_row]};
        s_functions := {[51%N := {| dsf_Name := "get"; dsf_Type := "rest"; dsf_DataSourceID := 50%N;
                                    dsf_ProjectID := 2%N; dsf_Definition := "+https://x" |}]};
        s_references := {[(31%N, 50%N) := 2%N]} |} ex_empty_db).

Definition ex_requests : prog World unit :=
  ex_serve 2%N (QCreateDataSource (Some ghapi));;
  ex_serve 2%N (QCreateRuleType (Some (ex_using "ghapi"))).

(** The tables above are what the two requests leave, up to the ids. *)
Example requests_accepted :
  let '(w, r) := ex_run ex_requests ex_empty_db in
  r = Ok tt ∧
  (map_to_list (rule_types (w_db w))).*2 = (map_to_list (rule_types ex_used_db)).*2 ∧
  (map_to_list (s_sources (sources (w_db w)))).*2 =
    (map_to_list (s_sources (sources ex_used_db))).*2.
Proof. vm_compute. done. Qed.

Lemma ex_rule_types_lookup t row :
  rule_types ex_used_db !! t = Some row → t = 31%N ∧ row = ex_used_row.
Proof.
  intros Hl. change (({[31%N := ex_used_row]} : gmap UUID dbRuleType) !! t = Some row) in Hl.
  by apply lookup_singleton_Some in Hl as [<- <-].
Qed.

Lemma ex_sources_lookup s src :
  s_sources (sources ex_used_db) !! s = Some src → s = 50%N ∧ src = ex_source_row.
Proof.
  intros Hl. change (({[50%N := ex_source_row]} : gmap UUID dbDataSource) !! s = Some src) in Hl.
  by apply lookup_singleton_Some in Hl as [<- <-].
Qed.

Lemma ex_used_in_step : in_use ex_used_db.
Proof.
  assert (Hs : sees ex_used_db 2%N "ghapi" 50%N).
  { exists ex_source_row. split_and!; [reflexivity|done|]. by left. }
  split.
  - intros t s p Hp.
    change (({[(31%N, 50%N) := 2%N]} : gmap (UUID * UUID) UUID) !! (t, s) = Some p) in Hp.
    apply lookup_singleton_Some in Hp as [[= <- <-] <-]. exists ex_used_row.
    split_and!; [reflexivity|done|]. exists "ghapi". split; [by left|exact Hs].
  - intros t row n [-> ->]%ex_rule_types_lookup Hn.
    apply list_elem_of_singleton in Hn as ->. exists 50%N. split; [reflexivity|exact Hs].
Qed.

(** The data source is asked to go. *)
Lemma data_sources_in_use_witness :
  let '(w, r) := ex_serve 2%N (QDeleteDataSourceByName "ghapi") (ex_world ex_used_db []) in
  is_ok r = false ∧ in_use (w_db w).
Proof.
  pose proof (data_sources_in_use parses parses parses parses 2%N (QDeleteDataSourceByName "ghapi")
    (ex_world ex_used_db []) ex_used_in_step) as Hu.
  assert (Hr : is_ok (ex_serve 2%N (QDeleteDataSourceByName "ghapi") (ex_world ex_used_db [])).2 = false)
    by (vm_compute; reflexivity).
  unfold ex_serve in *. destruct (serve_catalog _ _ _ _ _ _ _) as [w r]. split; [exact Hr|exact Hu].
Defined.

Lemma ex_provides s src :
  s_sources (sources ex_used_db) !! s = Some src → ∃ impl, provides ex_used_db false s impl.
Proof.
  intros [-> ->]%ex_sources_lookup. eexists _, ex_source_row, _.
  split; [reflexivity|]. split; reflexivity.
Qed.

Lemma registry_built_witness :
  ∃ rt reg, RuleTypePBFromDB (31%N, ex_used_row) = Ok rt ∧
    BuildDataSourceRegistry rt None (ex_world ex_used_db []) = (ex_world ex_used_db [], Ok reg) ∧
    ∀ ref, ref ∈ data_sources_of rt → ∃ s impl,
      sees ex_used_db 2%N (dsr_Name ref) s ∧ provides ex_used_db false s impl ∧
      ∀ k f, impl !! k = Some f → reg !! makeKey (getAliasWithDefault ref) k = Some f.
Proof.
  destruct (RuleTypePBFromDB (31%N, ex_used_row)) as [rt|e|m] eqn:Hrt; [|discriminate..].
  destruct (registry_built (ex_world ex_used_db []) 31%N ex_used_row rt None eq_refl ex_used_in_step
    eq_refl Hrt) as (reg & Hrun & Href).
  - injection Hrt as <-. reflexivity.
  - intros s src Hs _. exact (ex_provides s src Hs).
  - exists rt, reg. split; [reflexivity|]. split; [exact Hrun|exact Href].
Defined.

(** ** What the code does not mean to do *)

(** A structured data source without functions is accepted, and from then on the
    data sources of the project cannot be listed. *)
Example empty_source_hides_the_others :
  let empty := {| ds_Version := "v1"; ds_Type := "data-source"; ds_Context := None;
                  ds_Name := "empty"; ds_Id := "";
                  ds_Driver := Some (DataSource_Structured (Some {| struct_Def := ∅ |})) |} in
  is_ok (ex_run (handle_ListDataSources 2%N) ex_used_db).2 = true ∧
  let '(w, r) := ex_run (CreateDataSource 2%N (Some empty)) ex_used_db in
  is_ok r = true ∧ is_ok (handle_ListDataSources 2%N w).2 = false.
Proof. vm_compute. done. Qed.

(** A schema that does not compile is accepted with a new data source, which a
    rule type may then use; it cannot be repaired, nor deleted, and the registry
    of the rule type is never built. *)
Example broken_schema_is_stuck :
  let broken := ex_source "dep" {["get" := Some (plain_function "https://y" broken_schema)]} in
  let mended := ex_source "dep" {["get" := Some (plain_function "https://y" ∅)]} in
  let '(w, r) := ex_run (created ← CreateDataSource 2%N (Some broken);
                         rt ← handle_CreateRuleType parses parses parses parses 2%N
                                (Some (ex_using "dep"));
                         mret rt.1) ex_used_db in
  match r with
  | Ok rt => is_ok (UpdateDataSource 2%N (Some mended) w).2 = false ∧
             is_ok (DeleteDataSourceByName 2%N "dep" w).2 = false ∧
             is_ok (BuildDataSourceRegistry rt None w).2 = false
  | _ => False
  end.
Proof. vm_compute. done. Qed.

(** The guidance of an update is validated, and dropped. *)
Example guidance_not_updated :
  let update := {| rt_Id := None; rt_Name := "uses-ghapi"; rt_DisplayName := "";
                   rt_ShortFailureMessage := ""; rt_Context := None;
                   rt_Def := Some (plain_definition (uses "ghapi")); rt_Description := "new";
                   rt_Guidance := "look again"; rt_Severity := "low"; rt_ReleasePhase := "" |} in
  match (ex_run (handle_UpdateRuleType parses parses parses parses 2%N (Some update)) ex_used_db).2 with
  | Ok (rt, _) => rt_Description rt = "new" ∧ rt_Severity rt = "low" ∧ rt_Guidance rt = "look"
  | _ => False
  end.
Proof. vm_compute. done. Qed.

(** Any project reads a rule type by its id, not by its name. *)
Example rule_type_of_another_project :
  let d := {| entity_instances := ∅; entity_execution_lock := ∅; flush_cache := ∅;
              evaluation_rule_entities := ∅; evaluation_statuses := ∅;
              latest_evaluation_statuses := ∅; evaluation_outputs := ∅; remediation_events := [];
              alert_events := []; rule_instances := ∅; rule_types := {[31%N := ex_used_row]};
              profiles := ∅; projects := {[2%N; 3%N]}; providers := ∅; provider_access_tokens := ∅;
              properties := ∅; entitlements := ∅; parent_projects := ∅; entity_profiles := ∅;
              profile_selectors := []; organizations := ∅; sources := sources ex_used_db |} in
  is_ok (ex_run (handle_GetRuleTypeById 3%N (uuid_String 31%N)) d).2 = true ∧
  is_ok (ex_run (handle_GetRuleTypeByName 3%N "uses-ghapi") d).2 = false ∧
  is_ok (ex_run (handle_DeleteRuleType 3%N (uuid_String 31%N)) d).2 = false.
Proof. vm_compute. done. Qed.

(** A data source that is not there: the caller is told when a rule type is
    created, and gets an unknown error when it is updated. *)
Example missing_source_on_update :
  let missing n := {| rt_Id := None; rt_Name := n; rt_DisplayName := ""; rt_ShortFailureMessage := "";
                      rt_Context := None; rt_Def := Some (plain_definition (uses "nothing"));
                      rt_Description := ""; rt_Guidance := ""; rt_Severity := ""; rt_ReleasePhase := "" |} in
  match (ex_run (handle_CreateRuleType parses parses parses parses 2%N (Some (missing "new")))
           ex_used_db).2,
        (ex_run (handle_UpdateRuleType parses parses parses parses 2%N (Some (missing "uses-ghapi")))
           ex_used_db).2 with
  | Err e, Err e' => Strings.HasPrefix (Error e) "InvalidArgument" = true ∧
                     Strings.HasPrefix (Error e') "Unknown" = true
  | _, _ => False
  end.
Proof. vm_compute. done. Qed.

(** A request without a rule type panics. *)
Example missing_rule_type_panics :
  (ex_run (handle_CreateRuleType parses parses parses parses 2%N None) ex_used_db).2 =
  Panic "runtime error: invalid memory address or nil pointer dereference".
Proof. vm_compute. reflexivity. Qed.

(** Two aliases of one data source are validated, and cannot be stored. *)
Example two_aliases_not_stored :
  let refs := [{| dsr_Name := "ghapi"; dsr_Alias := "a" |}; {| dsr_Name := "ghapi"; dsr_Alias := "b" |}] in
  dataSources_Validate 0 [] refs = None ∧
  (ex_run (processDataSources 31%N refs 2%N [2%N]) ex_used_db).2 =
    Err (EWrap "error adding references to data source: " UniqueViolation "").
Proof. vm_compute. done. Qed.
End instances.

(** The extension of a file is looked up with its dot, and matches no decoder:
    which decoder is tried first is the order of the map. *)
Lemma ext_from_dot s found :
  (∀ e, found = Some e → Strings.HasPrefix e "." = true) →
  ∀ e, ext_from s found = Some e → Strings.HasPrefix e "." = true.
Proof.
  revert found. induction s as [|c s IH]; intros found Hf e; cbn; [apply Hf|].
  apply IH. intros e'. destruct (Ascii.eqb_spec c "/"); [done|].
  destruct (Ascii.eqb_spec c "."); [|apply Hf]. subst c. intros [= <-]. cbn. by destruct s.
Qed.

Lemma ToLower_dot s : Strings.ToLower (String "."%char s) = String "."%char (Strings.ToLower s).
Proof. destruct s as [|c2 [|c3 s]]; reflexivity. Qed.

Lemma HasPrefix_dot c e : Strings.HasPrefix (String c e) "." = true → c = "."%char.
Proof. destruct c as [[] [] [] [] [] [] [] []]; (reflexivity || discriminate). Qed.

Theorem extension_unused `{FileLib} order1 order2 f :
  parseFile order1 order2 f = first_decoder (file_Content f) order2 [].
Proof.
  unfold parseFile. assert (Hext : ∀ t, Strings.ToLower (filepath_Ext (file_Name f)) ∉ Extensions t).
  { intros t. unfold filepath_Ext. destruct (ext_from _ None) as [e|] eqn:He; cbn.
    - apply ext_from_dot in He; [|done]. destruct e as [|c e]; [done|].
      apply HasPrefix_dot in He as ->.
      rewrite ToLower_dot. generalize (Strings.ToLower e) as e'. intros e' Hin.
      destruct t; cbn in Hin; list_cases Hin; discriminate.
    - destruct t; cbn; intros Hin; list_cases Hin; discriminate. }
  generalize (@nil decoderType) as tried. induction order1 as [|t order1 IH]; intros tried; cbn; [done|].
  rewrite bool_decide_eq_false_2 by apply Hext. apply IH.
Qed.

(** TOML that YAML reads as a text: the result depends on the order. *)
Definition toml_file : file := {| file_Name := "Cargo.toml"; file_Content := "a = 1" |}.

Definition ex_files : FileLib :=
  {| fs_Stat := λ _, inl false; fs_Open := λ _, inl toml_file;
     decoder_Parse := λ t content, match t with
       | jsonType => inr (EText "invalid character")
       | yamlType => inl (GString content)
       | tomlType => inl (GMap {["a" := GInt64 1]}) end |}.

Example toml_read_as_yaml :
  @parseFile ex_files decoders [yamlType; tomlType; jsonType] toml_file = Ok (GString "a = 1") ∧
  @parseFile ex_files decoders [tomlType; yamlType; jsonType] toml_file =
    Ok (GMap {["a" := GInt64 1]}).
Proof. done. Qed.
