(* ===== verification/GoText.v ===== *)
(** * Regular expressions, runes, lines and paths

    What the code uses of regexp, unicode/utf8, bufio and path/filepath.  The
    part of package regexp the code uses: the syntax as a tree, the
    leftmost match in the order of preference of the backtracking matchers
    (which is that of RE2's leftmost-first mode), and the groups it records.
    The classes of the expressions of the code are of ASCII characters or leave
    some out, so that matching bytes and matching runes records the same text. *)

From S2P Require Import Prelude GoStrings.
From Stdlib Require Import Ascii.
Local Open Scope string_scope.

Inductive regexp :=
| RChar (p : ascii → bool)
| REmpty
| RCat (a b : regexp)
| RAlt (a b : regexp)
| RStar (greedy : bool) (a : regexp)
| RGroup (n : nat) (a : regexp)
| RBegin
| REnd.

(** What is left of the text, whether this is its beginning, and the groups
    recorded so far, the last first. *)
Record match_state := { ms_begin : bool; ms_rest : string; ms_groups : list (nat * string) }.

Definition step_char (p : ascii → bool) (s : match_state) : option match_state :=
  match ms_rest s with
  | String c rest =>
      if p c then Some {| ms_begin := false; ms_rest := rest; ms_groups := ms_groups s |} else None
  | EmptyString => None
  end.

(** What was read between two states. *)
Definition text_between (s s' : match_state) : string :=
  String.substring 0 (String.length (ms_rest s) - String.length (ms_rest s')) (ms_rest s).

Definition record (n : nat) (s s' : match_state) : match_state :=
  {| ms_begin := ms_begin s'; ms_rest := ms_rest s'; ms_groups := (n, text_between s s') :: ms_groups s' |}.

(** The first way, in the order of preference, to read [r] and go on with [k].  A
    repetition that reads nothing is not taken, so that there are no more of them
    than bytes. *)
Fixpoint run (r : regexp) (s : match_state) (k : match_state → option match_state)
    : option match_state :=
  match r with
  | RChar p => step_char p s ≫= k
  | REmpty => k s
  | RCat a b => run a s (λ s, run b s k)
  | RAlt a b => match run a s k with Some s' => Some s' | None => run b s k end
  | RStar greedy a =>
      (fix go (fuel : nat) (s : match_state) : option match_state :=
         match fuel with
         | O => k s
         | S fuel =>
             let more s := run a s (λ s',
               if (String.length (ms_rest s') <? String.length (ms_rest s))%nat then go fuel s' else None) in
             if greedy : bool
             then match more s with Some s' => Some s' | None => k s end
             else match k s with Some s' => Some s' | None => more s end
         end) (String.length (ms_rest s)) s
  | RGroup n a => run a s (λ s', k (record n s s'))
  | RBegin => if ms_begin s then k s else None
  | REnd => if String.eqb (ms_rest s) "" then k s else None
  end.

(** A match: where it begins, what it reads, and its groups. *)
Record regexp_match := { rm_index : nat; rm_text : string; rm_groups : list (nat * string) }.

Definition match_at (r : regexp) (i : nat) (s : match_state) : option regexp_match :=
  s' ← run r s Some;
  Some {| rm_index := i; rm_text := text_between s s'; rm_groups := ms_groups s' |}.

Fixpoint find_from (r : regexp) (i : nat) (begin : bool) (text : string) : option regexp_match :=
  match match_at r i {| ms_begin := begin; ms_rest := text; ms_groups := [] |} with
  | Some m => Some m
  | None => match text with
            | EmptyString => None
            | String _ rest => find_from r (S i) false rest
            end
  end.

(** [FindStringSubmatch] and [FindStringIndex]. *)
Definition regexp_find (r : regexp) (text : string) : option regexp_match := find_from r 0 true text.

Definition MatchString (r : regexp) (text : string) : bool := bool_decide (is_Some (regexp_find r text)).

(** A group that took no part is empty. *)
Definition group (m : regexp_match) (n : nat) : string :=
  default "" (snd <$> List.find (λ g, Nat.eqb g.1 n) (rm_groups m)).

(** [FindAllStringSubmatch(_, -1)] of an expression that matches no empty text. *)
Fixpoint find_all_from (fuel : nat) (r : regexp) (i : nat) (begin : bool) (text : string)
    : list regexp_match :=
  match fuel with
  | O => []
  | S fuel =>
      match find_from r i begin text with
      | None => []
      | Some m =>
          let next := (rm_index m + Nat.max 1 (String.length (rm_text m)))%nat in
          m :: find_all_from fuel r next false (Strings.drop (next - i) text)
      end
  end.

Definition find_all (r : regexp) (text : string) : list regexp_match :=
  find_all_from (S (String.length text)) r 0 true text.

(** ** Notation of the expressions *)

Fixpoint rtext (s : string) : regexp :=
  match s with
  | EmptyString => REmpty
  | String c s => RCat (RChar (Ascii.eqb c)) (rtext s)
  end.

Definition ropt (a : regexp) : regexp := RAlt a REmpty.
Definition rplus (a : regexp) : regexp := RCat a (RStar true a).

Fixpoint rcat (l : list regexp) : regexp :=
  match l with [] => REmpty | [a] => a | a :: l => RCat a (rcat l) end.

Fixpoint ralt (a : regexp) (l : list regexp) : regexp :=
  match l with [] => a | b :: l => RAlt a (ralt b l) end.

(** [{m}] and [{m,n}]. *)
Fixpoint rtimes (m : nat) (a : regexp) : regexp :=
  match m with O => REmpty | S m => RCat a (rtimes m a) end.
Fixpoint rupto (n : nat) (a : regexp) : regexp :=
  match n with O => REmpty | S n => ropt (RCat a (rupto n a)) end.

Definition is_digit (c : ascii) : bool :=
  let n := nat_of_ascii c in (48 <=? n)%nat && (n <=? 57)%nat.
Definition is_space (c : ascii) : bool :=
  existsb (Nat.eqb (nat_of_ascii c)) [9; 10; 12; 13; 32]%nat.

(** [\d] and [\s] *)
Definition rdigit : regexp := RChar is_digit.
Definition rspaces : regexp := RStar true (RChar is_space).

(** ** Lemmas *)

Definition all_chars (p : ascii → bool) (s : string) : Prop :=
  Forall (λ c, p c = true) (String.list_ascii_of_string s).

Lemma all_chars_cons p c s : all_chars p (String c s) ↔ p c = true ∧ all_chars p s.
Proof. unfold all_chars. cbn [String.list_ascii_of_string]. by rewrite Forall_cons. Qed.

(** Reading a literal text. *)
Lemma run_rtext t : ∀ b rest g k,
  run (rtext t) {| ms_begin := b; ms_rest := t +:+ rest; ms_groups := g |} k =
  k {| ms_begin := match t with EmptyString => b | _ => false end; ms_rest := rest; ms_groups := g |}.
Proof.
  induction t as [|c t IH]; intros b rest g k; [done|]. cbn [rtext run]. unfold step_char.
  rewrite append_cons. cbn [ms_rest ms_groups]. rewrite Ascii.eqb_refl. cbn [mbind option_bind].
  rewrite IH. by destruct t.
Qed.

Lemma HasPrefix_step c c' s t :
  Strings.HasPrefix (String c' s) (String c t) =
  if Ascii.eqb c c' then Strings.HasPrefix s t else false.
Proof.
  unfold Strings.HasPrefix. cbn [String.prefix]. destruct (ascii_dec c c') as [<-|Hne].
  - by rewrite Ascii.eqb_refl.
  - by rewrite (proj2 (Ascii.eqb_neq _ _) Hne).
Qed.

Lemma run_rtext_None t : ∀ b s g k, Strings.HasPrefix s t = false →
  run (rtext t) {| ms_begin := b; ms_rest := s; ms_groups := g |} k = None.
Proof.
  induction t as [|c t IH]; intros b s g k Hp; [by destruct s|].
  cbn [rtext run]. unfold step_char. cbn [ms_rest]. destruct s as [|c' s]; [done|].
  rewrite HasPrefix_step in Hp. destruct (Ascii.eqb c c'); [|done].
  cbn [mbind option_bind]. by apply IH.
Qed.

Lemma step_char_cons p b c rest g :
  step_char p {| ms_begin := b; ms_rest := String c rest; ms_groups := g |} =
  if p c then Some {| ms_begin := false; ms_rest := rest; ms_groups := g |} else None.
Proof. done. Qed.

(** A greedy repetition of a class reads all it can, when the rest then goes on. *)
Lemma run_star_class p t : ∀ b rest g k s', all_chars p t →
  k {| ms_begin := match t with EmptyString => b | _ => false end; ms_rest := rest;
       ms_groups := g |} = Some s' →
  match rest with EmptyString => True | String c _ => p c = false end →
  run (RStar true (RChar p)) {| ms_begin := b; ms_rest := t +:+ rest; ms_groups := g |} k = Some s'.
Proof.
  intros b rest g k s' Hall Hk Hrest. cbn [run ms_rest]. rewrite length_append.
  assert (Hgo : ∀ n b, (n = String.length t + String.length rest)%nat →
    k {| ms_begin := match t with EmptyString => b | _ => false end; ms_rest := rest;
         ms_groups := g |} = Some s' →
    (fix go (fuel : nat) (s : match_state) : option match_state :=
       match fuel with
       | O => k s
       | S fuel =>
           match step_char p s ≫= (λ s'0,
             if (String.length (ms_rest s'0) <? String.length (ms_rest s))%nat
             then go fuel s'0 else None) with
           | Some s' => Some s'
           | None => k s
           end
       end) n {| ms_begin := b; ms_rest := t +:+ rest; ms_groups := g |} = Some s'); [|by apply Hgo].
  clear Hk b. revert Hall. induction t as [|c t IH]; intros Hall n b Hn Hk.
  - cbn in Hn. change ("" +:+ rest) with rest. destruct n as [|n]; [done|].
    destruct rest as [|c' rest]; [done|]. rewrite step_char_cons, Hrest. done.
  - apply all_chars_cons in Hall as [Hc Hall]. destruct n as [|n]; [done|].
    rewrite append_cons, step_char_cons, Hc. cbn [mbind option_bind ms_rest].
    replace (_ <? _)%nat with true by (symmetry; apply Nat.ltb_lt; cbn [String.length]; lia).
    rewrite (IH Hall n false); [done| |by destruct t]. cbn in Hn. lia.
Qed.

(** * Runes, lines and paths

    The decoding of UTF-8 as [range] does it over a string, [strings.Fields], the
    lines of a [bufio.Scanner], and the functions of path/filepath the code uses,
    on a system whose separator is the slash. *)

(** ** unicode/utf8 *)

Module Utf8.
Definition RuneError : N := 65533.

Definition byte_in (lo hi : N) (c : ascii) : bool :=
  (lo <=? N_of_ascii c)%N && (N_of_ascii c <=? hi)%N.

(** The value of the six bits of a continuation byte. *)
Definition low6 (c : ascii) : N := (N_of_ascii c mod 64)%N.

(** What the second byte may be after the first, as RFC 3629 has it. *)
Definition second_ok (first second : ascii) : bool :=
  let b := N_of_ascii first in
  if (b =? 224)%N then byte_in 160 191 second
  else if (b =? 237)%N then byte_in 128 159 second
  else if (b =? 240)%N then byte_in 144 191 second
  else if (b =? 244)%N then byte_in 128 143 second
  else byte_in 128 191 second.

(** [DecodeRuneInString]: the rune and its width; a byte that begins no rune is
    an error of width one. *)
Definition DecodeRune (s : string) : N * nat :=
  match s with
  | EmptyString => (RuneError, 0%nat)
  | String a s =>
      let b := N_of_ascii a in
      if (b <? 128)%N then (b, 1%nat)
      else match s with
      | String c s =>
          if byte_in 194 223 a && second_ok a c then ((b mod 32) * 64 + low6 c, 2%nat)%N
          else match s with
          | String d s =>
              if byte_in 224 239 a && second_ok a c && byte_in 128 191 d
              then ((b mod 16) * 4096 + low6 c * 64 + low6 d, 3%nat)%N
              else match s with
              | String e _ =>
                  if byte_in 240 244 a && second_ok a c && byte_in 128 191 d && byte_in 128 191 e
                  then ((b mod 8) * 262144 + low6 c * 4096 + low6 d * 64 + low6 e, 4%nat)%N
                  else (RuneError, 1%nat)
              | EmptyString => (RuneError, 1%nat)
              end
          | EmptyString => (RuneError, 1%nat)
          end
      | EmptyString => (RuneError, 1%nat)
      end
  end.

(** [range] over a string: the offset and the rune. *)
Fixpoint range_from (fuel : nat) (i : nat) (s : string) : list (nat * N) :=
  match fuel, s with
  | S fuel, String _ _ =>
      let '(r, w) := DecodeRune s in
      (i, r) :: range_from fuel (i + w) (Strings.drop w s)
  | _, _ => []
  end.

Definition range (s : string) : list (nat * N) := range_from (String.length s) 0 s.

Definition runes (s : string) : list N := (range s).*2.
End Utf8.

(** ** strings.Fields and bufio.Scanner *)

Module Text.

(** [strings.Contains] *)
Definition Contains (s text : string) : bool :=
  match String.index 0 text s with Some _ => true | None => false end.

Lemma substring_prefix t rest : String.substring 0 (String.length t) (t +:+ rest) = t.
Proof.
  induction t as [|c t IH]; [by destruct rest|].
  rewrite append_cons. cbn [String.length String.substring]. by rewrite IH.
Qed.

Lemma substring_app a t : String.substring (String.length a) (String.length t) (a +:+ t) = t.
Proof.
  induction a as [|c a IH]; [|exact IH]. change ("" +:+ t) with t.
  rewrite <-(append_nil_r t) at 2. apply substring_prefix.
Qed.

Lemma Contains_app a t : t ≠ "" → Contains (a +:+ t) t = true.
Proof.
  intros Ht. unfold Contains. destruct (String.index 0 t (a +:+ t)) eqn:Hi; [done|].
  exfalso. apply (String.index_correct3 0 (String.length a) t (a +:+ t) Hi Ht); [lia|].
  apply substring_app.
Qed.

(** What is between the white space; [cur] is the field so far. *)
Fixpoint fields_from (fuel : nat) (cur s : string) : list string :=
  let emit rest := if String.eqb cur "" then rest else cur :: rest in
  match fuel, s with
  | S fuel, String c rest =>
      match filter (λ w, Strings.HasPrefix s w = true) Strings.white_space with
      | w :: _ => emit (fields_from fuel "" (Strings.TrimPrefix s w))
      | [] => fields_from fuel (cur +:+ String c "") rest
      end
  | _, _ => emit []
  end.

Definition Fields (s : string) : list string := fields_from (String.length s) "" s.

Definition newline : ascii := "010"%char.
Definition carriage_return : string := String "013"%char "".

(** A line of this many bytes does not fit into the buffer of a scanner. *)
Definition MaxScanTokenSize : N := 64 * 1024.

(** The lines before the first that is too long, without the carriage return at
    their end, and whether there is one. *)
Fixpoint scan (lines : list string) : list string * bool :=
  match lines with
  | [] => ([], false)
  | line :: lines =>
      if (MaxScanTokenSize <=? N.of_nat (String.length line))%N then ([], true)
      else let '(l, too_long) := scan lines in
           (Strings.TrimSuffix line carriage_return :: l, too_long)
  end.

(** What follows the last newline is a line if there is anything. *)
Definition lines_of (s : string) : list string :=
  let l := Strings.Split s newline in
  match last l with Some "" => removelast l | _ => l end.

(** [bufio.NewScanner] over a string, with [ScanLines]. *)
Definition ScanLines (s : string) : list string * bool := scan (lines_of s).
End Text.

(** ** path/filepath *)

Module Filepath.

(** The last element, without the slashes at the end. *)
Definition Base (path : string) : string :=
  if String.eqb path "" then "."
  else default "/" (last (filter (λ p, p ≠ "") (Strings.Split path "/"))).

(** The elements of a cleaned path, the last first. *)
Definition clean_step (rooted : bool) (out : list string) (element : string) : list string :=
  if String.eqb element "" || String.eqb element "." then out
  else if String.eqb element ".." then
    match out with
    | e :: out' => if String.eqb e ".." then element :: out else out'
    | [] => if rooted then [] else [element]
    end
  else element :: out.

Definition Clean (path : string) : string :=
  let rooted := Strings.HasPrefix path "/" in
  let out := reverse (foldl (clean_step rooted) [] (Strings.Split path "/")) in
  if rooted then "/" +:+ String.concat "/" out
  else match out with [] => "." | _ => String.concat "/" out end.

(** All but the last element. *)
Fixpoint up_to_slash (path : string) : string :=
  match path with
  | EmptyString => ""
  | String c rest => if Strings.Contains path "/" then String c (up_to_slash rest) else ""
  end.

Definition Dir (path : string) : string := Clean (up_to_slash path).

Definition Join (elements : list string) : string :=
  match filter (λ p, p ≠ "") elements with
  | [] => ""
  | elements => Clean (String.concat "/" elements)
  end.

(** A character of a class, which may be escaped. *)
Definition getEsc (chunk : string) : option (N * string) :=
  match chunk with
  | EmptyString => None
  | String c rest =>
      if Ascii.eqb c "-" || Ascii.eqb c "]" then None
      else
        let chunk := if Ascii.eqb c "\" then rest else chunk in
        if String.eqb chunk "" then None
        else
          let '(r, n) := Utf8.DecodeRune chunk in
          let rest := Strings.drop n chunk in
          if (r =? Utf8.RuneError)%N && (n =? 1)%nat || String.eqb rest "" then None
          else Some (r, rest)
  end.

(** The ranges of a class, of which there is at least one, and what follows it. *)
Fixpoint match_class (fuel : nat) (first : bool) (r : N) (chunk : string) : option (bool * string) :=
  match fuel with
  | O => None
  | S fuel =>
      match chunk with
      | String "]" rest => if first then None else Some (false, rest)
      | _ =>
          '(lo, rest) ← getEsc chunk;
          '(hi, rest) ← match rest with
                        | String "-" rest => getEsc rest
                        | _ => Some (lo, rest)
                        end;
          '(found, rest) ← match_class fuel false r rest;
          Some ((lo <=? r)%N && (r <=? hi)%N || found, rest)
      end
  end.

(** [filepath.Match], where a malformed pattern is no match. *)
Fixpoint match_from (fuel : nat) (pattern name : string) : bool :=
  match fuel with
  | O => false
  | S fuel =>
      match pattern with
      | EmptyString => String.eqb name ""
      | String "*" rest =>
          match_from fuel rest name ||
          match name with
          | String c name => negb (Ascii.eqb c "/") && match_from fuel pattern name
          | EmptyString => false
          end
      | String "?" rest =>
          match name with
          | EmptyString => false
          | String c _ => negb (Ascii.eqb c "/") &&
                          match_from fuel rest (Strings.drop (Utf8.DecodeRune name).2 name)
          end
      | String "[" rest =>
          match name with
          | EmptyString => false
          | String _ _ =>
              let '(r, n) := Utf8.DecodeRune name in
              let '(negated, rest) := match rest with
                                      | String "^" rest => (true, rest)
                                      | _ => (false, rest)
                                      end in
              match match_class (String.length rest) true r rest with
              | Some (found, rest) => negb (Bool.eqb found negated) &&
                                      match_from fuel rest (Strings.drop n name)
              | None => false
              end
          end
      | String c rest =>
          let literal c rest :=
            match name with
            | String c' name => Ascii.eqb c c' && match_from fuel rest name
            | EmptyString => false
            end in
          if Ascii.eqb c "\" then
            match rest with String c rest => literal c rest | EmptyString => false end
          else literal c rest
      end
  end.

Definition Match (pattern name : string) : bool :=
  match_from (S (String.length pattern + String.length name)) pattern name.
End Filepath.

Example clean_dots : Filepath.Clean "/a/./b//../c/.." = "/a" ∧ Filepath.Clean "../../x/.." = "../.." ∧
  Filepath.Dir "node_modules/@scope/name" = "node_modules/@scope" ∧ Filepath.Base "a/b/" = "b".
Proof. done. Qed.

Example glob_matches :
  Filepath.Match "requirements*.txt" "requirements-dev.txt" = true ∧
  Filepath.Match "[a-c]?\*" "bz*" = true ∧ Filepath.Match "[^a-c]" "b" = false ∧
  Filepath.Match "*" "a/b" = false ∧ Filepath.Match "[" "[" = false.
Proof. done. Qed.
