(* ===== verification/DiffIngest.v ===== *)
(** * What a pull request changes

    internal/engine/ingester/diff/: the dependencies a patch adds to the files of
    three ecosystems, the lines it adds with their numbers in the new version,
    and the dependencies of an inventory that are not in another.  The files of
    the pull request come from the provider, the inventories from scalibr.  The
    second part holds the theorems about the numbers of added lines and the
    differences of inventories. *)

From S2P Require Import Prelude GoErrors GoMonad GoStrings SelectorScan GoText.
From Stdlib Require Import Ascii DecimalString DecimalZ.
Local Open Scope string_scope.

(** ** Messages *)

Inductive DepEcosystem :=
| DEP_ECOSYSTEM_UNSPECIFIED | DEP_ECOSYSTEM_NPM | DEP_ECOSYSTEM_GO | DEP_ECOSYSTEM_PYPI.

Record Dependency := { dep_Ecosystem : DepEcosystem; dep_Name : string; dep_Version : string }.

#[export] Instance DepEcosystem_eq_dec : EqDecision DepEcosystem.
Proof. solve_decision. Defined.
#[export] Instance Dependency_eq_dec : EqDecision Dependency.
Proof. solve_decision. Defined.

(** A dependency with the file that adds it and the address of its patch. *)
Record ContextualDependency := { cd_Dep : Dependency; cd_File : string; cd_PatchUrl : string }.

Record PrContents_Line := { pl_Content : string; pl_LineNumber : Z }.

Record PrContents_File := {
  pf_Name : string; pf_FilePatchUrl : string; pf_PatchLines : list PrContents_Line;
}.

(** What of a pull request the ingester reads. *)
Record PullRequest := {
  pull_Number : Z; pull_RepoOwner : string; pull_RepoName : string;
  pull_BaseCloneUrl : string; pull_BaseRef : string;
  pull_TargetCloneUrl : string; pull_TargetRef : string;
}.

Inductive ingested_diff :=
| PrDependencies (pr : PullRequest) (deps : list ContextualDependency)
| PrContents (pr : PullRequest) (files : list PrContents_File).

(** [pb.DiffType]: the ecosystems by name and depfile. *)
Record DiffType := { dt_Type : string; dt_Ecosystems : list (string * string) }.

(** ** parse.go *)

Definition quote : regexp := RChar (Ascii.eqb dquote).

(** The version of a package that a line of a lock file adds. *)
Definition versionRegex : regexp :=
  rcat [RBegin; rtext "+"; rspaces; quote; rtext "version"; quote; rspaces; rtext ":"; rspaces;
    quote; RGroup 1 (RStar true (RChar (λ c, negb (Ascii.eqb c dquote || Ascii.eqb c Text.newline))));
    quote; rspaces; RAlt (rtext ",") REnd].

(** The key of an object. *)
Definition dependencyNameRegex : regexp :=
  rcat [rspaces; quote; RGroup 1 (rplus (RChar (λ c, negb (Ascii.eqb c dquote)))); quote; rspaces;
    rtext ":"; rspaces; rtext "{"; rspaces].

(** [>=|<=|==|>|<|!=], in util *)
Definition operators : regexp :=
  ralt (rtext ">=") [rtext "<="; rtext "=="; rtext ">"; rtext "<"; rtext "!="].

(** An operator and a version: numbers between dots, with a star at the end. *)
Definition PyRequestsVersionRegexp : regexp :=
  rcat [rspaces; RGroup 1 operators; rspaces;
    RGroup 2 (rcat [rplus rdigit; RStar true (RGroup 3 (RCat (rtext ".") (rplus rdigit)));
                    ropt (RGroup 4 (rtext "*"))])].

(** The operator after a name. *)
Definition PyRequestsNameRegexp : regexp := rcat [rspaces; RGroup 1 operators].

Definition pyReqNormalizeLine (line : string) : string :=
  if negb (Strings.HasPrefix line "+") then ""
  else Strings.TrimSpace (Strings.until (Strings.TrimPrefix line "+") "#").

Definition pyReqAddPkgName (pkgName version : string) : Dependency :=
  {| dep_Ecosystem := DEP_ECOSYSTEM_PYPI; dep_Name := pkgName; dep_Version := version |}.

(** The last version that is a lower bound or exact, else the first. *)
Definition lowest_version (matches : list regexp_match) : string :=
  let version := default "" (head (filter (λ v, v ≠ "") ((λ m, group m 2) <$> matches))) in
  let lowest := foldl (λ lowest m,
    let op := group m 1 in
    if String.eqb op ">" || String.eqb op ">=" || String.eqb op "==" then group m 2 else lowest)
    "" matches in
  if String.eqb lowest "" then version else lowest.

Definition requirement (text : string) : option Dependency :=
  let line := pyReqNormalizeLine (Strings.TrimSpace text) in
  if String.eqb line "" then None
  else
    match find_all PyRequestsVersionRegexp line with
    | [] => Some (pyReqAddPkgName line "")
    | matches =>
        nameMatch ← regexp_find PyRequestsNameRegexp line;
        Some (pyReqAddPkgName
                (Strings.TrimSpace (String.substring 0 (rm_index nameMatch) line))
                (lowest_version matches))
    end.

Definition ErrTooLong : gerr := EText "bufio.Scanner: token too long".

Definition requirementsParse (patch : string) : res (list Dependency) :=
  let '(lines, too_long) := Text.ScanLines patch in
  if too_long then Err ErrTooLong else Ok (omap requirement lines).

Definition extractGoDepFromPatchLine (line : string) : option Dependency :=
  let dep name version :=
    Some {| dep_Ecosystem := DEP_ECOSYSTEM_GO; dep_Name := name; dep_Version := version |} in
  if Strings.HasPrefix line "+" && negb (Strings.HasPrefix line "+++") &&
     negb (Text.Contains line "// indirect")
  then
    let lineContent := Strings.drop 1 line in
    match Text.Fields lineContent with
    | f0 :: f1 :: more =>
        if String.eqb f0 "require" && negb (String.eqb f1 "(") && bool_decide (more ≠ []) then
          dep f1 (default "" (more !! 0%nat))
        else if Strings.HasPrefix lineContent (String "009"%char "") then dep f0 f1
        else if String.eqb f0 "replace" && Text.Contains lineContent "=>" &&
                (3 <=? length more)%nat
        then dep (default "" (more !! 1%nat)) (default "" (more !! 2%nat))
        else None
    | _ => None
    end
  else None.

Definition go_step (deps : list Dependency) (line : string) : list Dependency :=
  match extractGoDepFromPatchLine line with
  | Some dep =>
      if existsb (λ n, String.eqb (dep_Name n) (dep_Name dep) &&
                       String.eqb (dep_Version n) (dep_Version dep)) deps
      then deps else (deps ++ [dep])%list
  | None => deps
  end.

Definition goParse (patch : string) : res (list Dependency) :=
  let '(lines, too_long) := Text.ScanLines patch in
  if too_long then Err ErrTooLong else Ok (foldl go_step [] lines).

(** The scope of a package is the directory it is in. *)
Definition getDependencyName (dependencyPath : string) : string :=
  let dependencyName := Filepath.Base dependencyPath in
  let scope := Filepath.Base (Filepath.Dir dependencyPath) in
  if Strings.HasPrefix scope "@" then Filepath.Join [scope; dependencyName] else dependencyName.

(** [before] are the lines before, the nearest first. *)
Fixpoint findDependencyName (before : list string) (closingBraces : nat) : string :=
  match before with
  | [] => ""
  | line :: before =>
      let closing := if Strings.Contains line "}" then S closingBraces else closingBraces in
      if Strings.Contains line "{" then
        match closing with
        | O => match regexp_find dependencyNameRegex line with
               | Some m => getDependencyName (group m 1)
               | None => ""
               end
        | S closing => findDependencyName before closing
        end
      else findDependencyName before closing
  end.

Fixpoint npm_lines (before lines : list string) : list Dependency :=
  match lines with
  | [] => []
  | line :: lines =>
      let rest := npm_lines (line :: before) lines in
      match regexp_find versionRegex line with
      | Some m =>
          let name := findDependencyName before 0 in
          if String.eqb name "" then rest
          else {| dep_Ecosystem := DEP_ECOSYSTEM_NPM; dep_Name := name;
                  dep_Version := group m 1 |} :: rest
      | None => rest
      end
  end.

Definition npmParse (patch : string) : res (list Dependency) :=
  Ok (npm_lines [] (Strings.Split patch Text.newline)).

Definition newEcosystemParser (eco : string) : option (string → res (list Dependency)) :=
  let eco := Strings.ToLower eco in
  if String.eqb eco "npm" then Some npmParse
  else if String.eqb eco "go" then Some goParse
  else if String.eqb eco "pypi" then Some requirementsParse
  else None.

(** ** diff.go *)

(** [int32] of an [int64], which wraps around. *)
Definition int32 (z : Z) : Z := (z + 2 ^ 31) mod 2 ^ 32 - 2 ^ 31.

(** [strconv.ParseInt(s, 10, 32)] *)
Definition ParseInt32 (s : string) : option Z :=
  z ← Strconv.ParseInt s; if (- 2 ^ 31 <=? z)%Z && (z <? 2 ^ 31)%Z then Some z else None.

(** [@@ -\d+,\d+ \+(\d+),\d+ @@] *)
Definition hunk_header : regexp :=
  rcat [rtext "@@ -"; rplus rdigit; rtext ","; rplus rdigit; rtext " +"; RGroup 1 (rplus rdigit);
    rtext ","; rplus rdigit; rtext " @@"].

(** The lines added, numbered from [currentLineNumber] on. *)
Fixpoint full_lines (currentLineNumber : Z) (lines : list string) : res (list PrContents_Line) :=
  match lines with
  | [] => Ok []
  | line :: lines =>
      match regexp_find hunk_header line with
      | Some m =>
          match ParseInt32 (group m 1) with
          | Some n => full_lines n lines
          | None => Err (EText "error parsing line number from the hunk header: value out of range")
          end
      | None =>
          if Strings.HasPrefix line "+" then
            result ← full_lines (currentLineNumber + 1) lines;
            mret ({| pl_Content := Strings.drop 1 line;
                     pl_LineNumber := int32 currentLineNumber |} :: result)
          else if negb (Strings.HasPrefix line "-") then full_lines (currentLineNumber + 1) lines
          else full_lines currentLineNumber lines
      end
  end.

Definition ingestFileForFullDiff (filename patch patchUrl : string) : res PrContents_File :=
  let '(lines, too_long) := Text.ScanLines patch in
  result ← full_lines 0 lines;
  if too_long : bool then Err (EWrap "error reading patch: " ErrTooLong "")
  else Ok {| pf_Name := filename; pf_FilePatchUrl := patchUrl; pf_PatchLines := result |}.

(** The first ecosystem whose depfile matches the name of the file. *)
Fixpoint ecosystem_of (ecosystems : list (string * string)) (lastComponent : string) : string :=
  match ecosystems with
  | [] => ""
  | (name, depfile) :: ecosystems =>
      if Filepath.Match depfile lastComponent then name else ecosystem_of ecosystems lastComponent
  end.

Definition getEcosystemForFile (cfg : DiffType) (filename : string) : string :=
  ecosystem_of (dt_Ecosystems cfg) (Filepath.Base filename).

Definition getParserForFile (cfg : DiffType) (filename : string)
    : option (string → res (list Dependency)) :=
  let eco := getEcosystemForFile cfg filename in
  if String.eqb eco "" then None else newEcosystemParser eco.

(** A changed file: its name, its patch and its raw address. *)
Record CommitFile := { cf_Filename : string; cf_Patch : string; cf_RawURL : string }.

Definition ingestFileForDepDiff (cfg : DiffType) (file : CommitFile) : res (list ContextualDependency) :=
  match getParserForFile cfg (cf_Filename file) with
  | None => Ok []
  | Some parser =>
      depBatch ← wrapf_res ("error parsing file " +:+ cf_Filename file +:+ ": ") (parser (cf_Patch file));
      mret ((λ dep, {| cd_Dep := dep; cd_File := cf_Filename file; cd_PatchUrl := cf_RawURL file |})
              <$> (depBatch : list Dependency))
  end.

(** A package of an inventory, with the files that name it and the type of its
    package URL. *)
Record Package := {
  pkg_Name : string; pkg_Version : string; pkg_Locations : list string; pkg_PURLType : string;
}.

Definition inventoryToEcosystem (inventory : Package) : DepEcosystem :=
  if String.eqb (pkg_PURLType inventory) "pypi" then DEP_ECOSYSTEM_PYPI
  else if String.eqb (pkg_PURLType inventory) "npm" then DEP_ECOSYSTEM_NPM
  else if String.eqb (pkg_PURLType inventory) "golang" then DEP_ECOSYSTEM_GO
  else DEP_ECOSYSTEM_UNSPECIFIED.

(** [cmp.Compare] of strings, by their bytes. *)
Definition Compare (a b : string) : comparison := String.compare a b.

Definition inventorySorter (a b : Package) : comparison :=
  let res := match Compare (pkg_Name a) (pkg_Name b) with
             | Eq => Compare (pkg_Version a) (pkg_Version b)
             | c => c
             end in
  match res with
  | Eq => Compare ("[" +:+ String.concat " " (pkg_Locations a) +:+ "]")
            ("[" +:+ String.concat " " (pkg_Locations b) +:+ "]")
  | c => c
  end.

Section difference.
Context {E : Type} (sorter : E → E → comparison).

(** The merge of two sorted slices. *)
Fixpoint difference (fuel : nat) (base updated : list E) : list E :=
  match fuel, base, updated with
  | S fuel, b :: base', u :: updated' =>
      match sorter b u with
      | Lt => difference fuel base' updated
      | Gt => u :: difference fuel base updated'
      | Eq => difference fuel base' updated'
      end
  | _, _, _ => updated
  end.

(** [slices.SortFunc] puts elements that compare equal in any order. *)
Context (SortFunc : list E → list E).

Definition setDifference (base updated : list E) : list E :=
  let base := SortFunc base in
  let updated := SortFunc updated in
  difference (length base + length updated) base updated.
End difference.

(** The pull request: its files by pages, of which zero is the first, and the
    inventory of a clone. *)
Record DiffProvider (X : Type) := {
  ListFiles : string → string → Z → Z → Z → prog X (list CommitFile * Z);
  cloneInventory : string → string → prog X (list Package);
}.
Arguments ListFiles {X}. Arguments cloneInventory {X}.

Definition prFilesPerPage : Z := 30.

Section ingest.
Context {X : Type} (cli : DiffProvider X) (cfg : DiffType)
  (SortFunc : list Package → list Package).

(** What each file of all pages gives, from [page] on. *)
Fixpoint each_file {A} (fuel : nat) (pr : PullRequest) (one : CommitFile → res (list A)) (page : Z)
    : prog X (list A) :=
  match fuel with
  | O => lift (Panic "out of fuel")
  | S fuel =>
      '(prFiles, nextPage) ← wrapf "error getting pull request files: "
        (ListFiles cli (pull_RepoOwner pr) (pull_RepoName pr) (pull_Number pr) prFilesPerPage page);
      found ← lift (mapM (λ file,
        wrapf_res ("error ingesting file " +:+ cf_Filename file +:+ ": ") (one file)) prFiles);
      if (nextPage =? 0)%Z then mret (concat found)
      else rest ← each_file fuel pr one nextPage; mret (concat found ++ rest)%list
  end.

Definition getDepTypeDiff (fuel : nat) (pr : PullRequest) : prog X ingested_diff :=
  deps ← each_file fuel pr (ingestFileForDepDiff cfg) 0%Z; mret (PrDependencies pr deps).

Definition getFullTypeDiff (fuel : nat) (pr : PullRequest) : prog X ingested_diff :=
  files ← each_file fuel pr (λ file,
      f ← ingestFileForFullDiff (cf_Filename file) (cf_Patch file) (cf_RawURL file); mret [f]) 0%Z;
  mret (PrContents pr files).

Definition scalibr_deps (inventory : Package) : list ContextualDependency :=
  (λ filename,
     {| cd_Dep := {| dep_Ecosystem := inventoryToEcosystem inventory;
                     dep_Name := pkg_Name inventory; dep_Version := pkg_Version inventory |};
        cd_File := filename; cd_PatchUrl := "" |}) <$> pkg_Locations inventory.

Definition getScalibrTypeDiff (pr : PullRequest) : prog X ingested_diff :=
  baseInventory ← wrapf ("failed to clone base from " +:+ pull_BaseCloneUrl pr +:+ ": ")
                    (cloneInventory cli (pull_BaseCloneUrl pr) (pull_BaseRef pr));
  newInventory ← wrapf ("failed to clone fork from " +:+ pull_TargetCloneUrl pr +:+ ": ")
                   (cloneInventory cli (pull_TargetCloneUrl pr) (pull_TargetRef pr));
  let newDeps := setDifference inventorySorter SortFunc baseInventory newInventory in
  mret (PrDependencies pr (concat (scalibr_deps <$> newDeps))).

Definition Ingest (fuel : nat) (ent : option PullRequest) : prog X ingested_diff :=
  match ent with
  | None => throw (EText "entity is not a pull request")
  | Some pr =>
      if (Strconv.int64_max <? pull_Number pr)%Z then throw (EText "pr number is too large")
      else if String.eqb (dt_Type cfg) "" || String.eqb (dt_Type cfg) "dep" then getDepTypeDiff fuel pr
      else if String.eqb (dt_Type cfg) "new-dep" then getScalibrTypeDiff pr
      else if String.eqb (dt_Type cfg) "full" then getFullTypeDiff fuel pr
      else throw (EText "unknown diff type")
  end.
End ingest.

(** * The ingested differences, against what they stand for

    The lines a patch adds are numbered as in the new version of the file; the
    difference of two inventories is the difference of their multisets; the
    files of a pull request are read page by page to the end. *)

(** ** Patches *)

Inductive diff_line :=
| Kept (s : string) | Added (s : string) | Removed (s : string) | NoNewline.

(** A part of a file: where it is in the old and in the new version, the text
    after the header, and its lines. *)
Record hunk := {
  h_OldStart : Z; h_OldCount : Z; h_NewStart : Z; h_NewCount : Z; h_Section : string;
  h_Lines : list diff_line;
}.

Definition line_text (l : diff_line) : string :=
  match l with
  | Kept s => " " +:+ s
  | Added s => "+" +:+ s
  | Removed s => "-" +:+ s
  | NoNewline => "\ No newline at end of file"
  end.

Definition header_text (h : hunk) : string :=
  "@@ -" +:+ (Strconv.FormatInt (h_OldStart h) +:+ ("," +:+ (Strconv.FormatInt (h_OldCount h) +:+
  (" +" +:+ (Strconv.FormatInt (h_NewStart h) +:+ ("," +:+ (Strconv.FormatInt (h_NewCount h) +:+
  (" @@" +:+ h_Section h)))))))).

Definition hunk_text (h : hunk) : list string := header_text h :: (line_text <$> h_Lines h).

Definition patch_text (hunks : list hunk) : string :=
  String.concat (String Text.newline "") (concat (hunk_text <$> hunks)).

(** The lines of the new version, and those of them that are added, with their
    places in the new version. *)
Fixpoint new_side (lines : list diff_line) : list string :=
  match lines with
  | (Kept s | Added s) :: lines => s :: new_side lines
  | _ :: lines => new_side lines
  | [] => []
  end.

Fixpoint added_at (n : Z) (lines : list diff_line) : list (string * Z) :=
  match lines with
  | Kept _ :: lines => added_at (n + 1) lines
  | Added s :: lines => (s, n) :: added_at (n + 1) lines
  | _ :: lines => added_at n lines
  | [] => []
  end.

Definition added (h : hunk) : list (string * Z) := added_at (h_NewStart h) (h_Lines h).

(** The new version has the lines of the hunk from its start on. *)
Definition fits (new : list string) (h : hunk) : Prop :=
  new_side (h_Lines h) = [] ∨ (0 < h_NewStart h)%Z ∧
  ∀ i s, new_side (h_Lines h) !! i = Some s → new !! (Z.to_nat (h_NewStart h - 1) + i)%nat = Some s.

(** A text that a scanner gives back as one line. *)
Definition one_line (s : string) : Prop :=
  Strings.Contains s Text.newline = false ∧ Strings.TrimSuffix s Text.carriage_return = s ∧
  (N.of_nat (String.length s) < Text.MaxScanTokenSize)%N.

(** A line of a hunk that does not look like a header; the end of a file without
    a newline is the end of what is new. *)
Fixpoint lines_ok (lines : list diff_line) : Prop :=
  match lines with
  | [] => True
  | l :: lines =>
      one_line (line_text l) ∧ MatchString hunk_header (line_text l) = false ∧
      (l = NoNewline → new_side lines = []) ∧ lines_ok lines
  end.

Definition hunk_ok (h : hunk) : Prop :=
  (0 ≤ h_OldStart h ∧ 0 ≤ h_OldCount h ∧ 0 ≤ h_NewStart h < 2 ^ 31 ∧ 0 ≤ h_NewCount h)%Z ∧
  one_line (header_text h) ∧ lines_ok (h_Lines h).

(** ** Reading a header *)

Lemma digits_of_uint u : all_chars is_digit (NilEmpty.string_of_uint u).
Proof. induction u; [constructor|cbn..]; apply all_chars_cons; (split; [done|exact IHu]). Qed.

Lemma FormatInt_digits z : (0 ≤ z)%Z →
  all_chars is_digit (Strconv.FormatInt z) ∧ Strconv.FormatInt z ≠ "".
Proof.
  intros Hz. unfold Strconv.FormatInt, NilZero.string_of_int.
  assert (Hp : ∃ u, Z.to_int z = Decimal.Pos u) by (destruct z; [eexists; done..|lia]).
  destruct Hp as [u ->].
  destruct u as [|u|u|u|u|u|u|u|u|u|u]; (split; [|done]); [repeat constructor|..];
    (apply all_chars_cons; split; [done|apply digits_of_uint]).
Qed.

(** A number between other text. *)
Lemma run_digits z b rest g k s' : (0 ≤ z)%Z →
  k {| ms_begin := false; ms_rest := rest; ms_groups := g |} = Some s' →
  match rest with EmptyString => True | String c _ => is_digit c = false end →
  run (rplus rdigit) {| ms_begin := b; ms_rest := Strconv.FormatInt z +:+ rest; ms_groups := g |} k
    = Some s'.
Proof.
  intros Hz Hk Hrest. destruct (FormatInt_digits z Hz) as [Hd Hne].
  destruct (Strconv.FormatInt z) as [|c t]; [done|]. apply all_chars_cons in Hd as [Hc Hd].
  unfold rplus, rdigit. cbn [run]. rewrite append_cons, step_char_cons, Hc. cbn [mbind option_bind].
  apply run_star_class; [done| |done]. by destruct t.
Qed.

Lemma text_between_app b b' t rest g g' :
  text_between {| ms_begin := b; ms_rest := t +:+ rest; ms_groups := g |}
    {| ms_begin := b'; ms_rest := rest; ms_groups := g' |} = t.
Proof.
  unfold text_between. cbn [ms_rest]. rewrite length_append.
  replace (String.length t + String.length rest - String.length rest)%nat with (String.length t) by lia.
  apply Text.substring_prefix.
Qed.

Lemma run_header h : hunk_ok h →
  run hunk_header {| ms_begin := true; ms_rest := header_text h; ms_groups := [] |} Some =
  Some {| ms_begin := false; ms_rest := h_Section h;
          ms_groups := [(1%nat, Strconv.FormatInt (h_NewStart h))] |}.
Proof.
  intros ((H1 & H2 & [H3 _] & H4) & _). unfold hunk_header, header_text. cbn [rcat run].
  rewrite run_rtext. apply run_digits; [done| |done]. rewrite run_rtext.
  apply run_digits; [done| |done]. rewrite run_rtext.
  apply run_digits; [done| |done]. unfold record. rewrite text_between_app. cbn [ms_begin ms_rest ms_groups].
  rewrite run_rtext. apply run_digits; [done| |done]. by rewrite run_rtext.
Qed.

Lemma find_at_start r text m :
  match_at r 0 {| ms_begin := true; ms_rest := text; ms_groups := [] |} = Some m →
  regexp_find r text = Some m.
Proof. unfold regexp_find. intros Hm. destruct text; cbn [find_from]; by rewrite Hm. Qed.

Lemma find_header h : hunk_ok h →
  ∃ m, regexp_find hunk_header (header_text h) = Some m ∧
       group m 1 = Strconv.FormatInt (h_NewStart h).
Proof.
  intros Hh. eexists. split; [apply find_at_start; unfold match_at; rewrite run_header by done;
    reflexivity|reflexivity].
Qed.

(** ** The lines of a patch *)

Lemma Split_concat sep ls : ls ≠ [] → Forall (λ l, Strings.Contains l sep = false) ls →
  Strings.Split (String.concat (String sep "") ls) sep = ls.
Proof.
  induction ls as [|l ls IH]; [done|]. intros _ [Hl Hls]%Forall_cons.
  destruct ls as [|l' ls]; [by apply Strings.Split_no_sep|].
  change (String.concat (String sep "") (l :: l' :: ls))
    with (l +:+ (String sep "" +:+ String.concat (String sep "") (l' :: ls))).
  rewrite append_cons. rewrite Strings.Split_app by done. f_equal. by apply IH.
Qed.

Lemma scan_one_lines ls : Forall one_line ls → Text.scan ls = (ls, false).
Proof.
  induction ls as [|l ls IH]; [done|]. intros [(H1 & H2 & H3) Hls]%Forall_cons. cbn [Text.scan].
  rewrite (proj2 (N.leb_gt _ _)) by done. by rewrite IH, H2.
Qed.

Lemma scan_concat ls : Forall one_line ls → Forall (λ l, l ≠ "") ls →
  Text.ScanLines (String.concat (String Text.newline "") ls) = (ls, false).
Proof.
  intros Hone Hne. destruct (decide (ls = [])) as [->|Hls]; [done|].
  unfold Text.ScanLines, Text.lines_of. rewrite Split_concat; [|done|].
  - assert (Hlast : last ls ≠ Some "").
    { intros Hl. rewrite Forall_forall in Hne. apply last_Some in Hl as [ls' ->].
      apply (Hne ""); [|done]. apply elem_of_app. right. by left. }
    destruct (last ls) as [[|]|]; [done|by apply scan_one_lines..].
  - eapply Forall_impl; [exact Hone|]. by intros l [? _].
Qed.

(** ** The numbers of the added lines *)

Definition numbered (l : string * Z) : PrContents_Line :=
  {| pl_Content := l.1; pl_LineNumber := l.2 |}.

Lemma nothing_added lines : new_side lines = [] → ∀ n, added_at n lines = [].
Proof. induction lines as [|[s|s|s|] lines IH]; intros Hn n; try done; by apply IH. Qed.

Lemma added_at_new (new : list string) lines : ∀ n, (0 < n)%Z →
  (∀ i s, new_side lines !! i = Some s → new !! (Z.to_nat (n - 1) + i)%nat = Some s) →
  Forall (λ l, (0 < l.2)%Z ∧ new !! Z.to_nat (l.2 - 1) = Some l.1) (added_at n lines).
Proof.
  induction lines as [|l lines IH]; intros n Hn Hnew; [constructor|].
  assert (Hnext : ∀ s, new_side (l :: lines) = s :: new_side lines →
    Forall (λ l, (0 < l.2)%Z ∧ new !! Z.to_nat (l.2 - 1) = Some l.1) (added_at (n + 1) lines)).
  { intros s Hs. apply IH; [lia|]. intros i s' Hi.
    replace (Z.to_nat (n + 1 - 1) + i)%nat with (Z.to_nat (n - 1) + S i)%nat by lia.
    apply Hnew. by rewrite Hs. }
  destruct l as [s|s|s|]; cbn [added_at]; [by apply (Hnext s)|constructor|by apply IH..].
  - split; [done|]. cbn. specialize (Hnew 0%nat s eq_refl). by rewrite Nat.add_0_r in Hnew.
  - by apply (Hnext s).
Qed.

Lemma added_new (new : list string) h : fits new h →
  Forall (λ l, (0 < l.2)%Z ∧ new !! Z.to_nat (l.2 - 1) = Some l.1) (added h).
Proof.
  intros [Hn|[Hn Hf]]; unfold added; [by rewrite nothing_added|by apply added_at_new].
Qed.

Lemma int32_id z : (0 < z < 2 ^ 31)%Z → int32 z = z.
Proof. intros Hz. unfold int32. rewrite Z.mod_small; lia. Qed.

Lemma no_header l : MatchString hunk_header (line_text l) = false →
  regexp_find hunk_header (line_text l) = None.
Proof. intros Hm. apply eq_None_not_Some. by apply bool_decide_eq_false_1 in Hm. Qed.

Lemma line_plus l :
  Strings.HasPrefix (line_text l) "+" = match l with Added _ => true | _ => false end.
Proof.
  destruct l as [s|s|s|]; cbn [line_text]; rewrite ?append_cons; [..|done];
    rewrite HasPrefix_step; cbn; by destruct s.
Qed.

Lemma line_minus l :
  Strings.HasPrefix (line_text l) "-" = match l with Removed _ => true | _ => false end.
Proof.
  destruct l as [s|s|s|]; cbn [line_text]; rewrite ?append_cons; [..|done];
    rewrite HasPrefix_step; cbn; by destruct s.
Qed.

Lemma full_lines_body rest lines : ∀ n, lines_ok lines →
  Forall (λ l : string * Z, 0 < l.2 < 2 ^ 31)%Z (added_at n lines) →
  ∃ n', full_lines n ((line_text <$> lines) ++ rest)%list =
    (r ← full_lines n' rest; Ok ((numbered <$> added_at n lines) ++ r)%list).
Proof.
  induction lines as [|l lines IH]; intros n Hok Hr.
  { exists n. cbn. by destruct (full_lines n rest). }
  destruct Hok as (_ & Hm & Hnn & Hok). apply no_header in Hm.
  rewrite fmap_cons. cbn [app full_lines]. rewrite Hm.
  rewrite line_plus, line_minus.
  destruct l as [s|s|s|]; cbn [added_at negb] in *; [by apply IH| |by apply IH|].
  - apply Forall_cons in Hr as [Hn Hr]. destruct (IH (n + 1)%Z Hok Hr) as [n' ->]. exists n'.
    destruct (full_lines n' rest); [|done..]. cbn [mbind res_bind mret line_text numbered].
    rewrite int32_id by done. done.
  - specialize (Hnn eq_refl). destruct (IH (n + 1)%Z Hok) as [n' Hrun].
    + by rewrite nothing_added.
    + exists n'. rewrite Hrun. by rewrite !nothing_added.
Qed.

Lemma full_lines_patch new hunks : ∀ n, Forall hunk_ok hunks → Forall (fits new) hunks →
  (Z.of_nat (length new) < 2 ^ 31)%Z →
  full_lines n (concat (hunk_text <$> hunks)) = Ok (numbered <$> concat (added <$> hunks)).
Proof.
  induction hunks as [|h hunks IH]; intros n Hok Hfit Hnew; [done|].
  apply Forall_cons in Hok as [Hh Hok], Hfit as [Hf Hfit].
  rewrite !fmap_cons. cbn [concat]. unfold hunk_text at 1. cbn [app full_lines].
  destruct (find_header h Hh) as (m & -> & ->). destruct Hh as ((_ & _ & Hns & _) & _ & Hl).
  unfold ParseInt32. rewrite Strconv.ParseInt_FormatInt
    by (unfold Strconv.is_int64, Strconv.int64_min, Strconv.int64_max; lia).
  cbn [mbind option_bind]. replace (_ && _) with true by (symmetry; apply andb_true_iff; lia).
  destruct (full_lines_body (concat (hunk_text <$> hunks)) (h_Lines h) (h_NewStart h) Hl)
    as [n' ->].
  { eapply Forall_impl; [by apply (added_new new)|]. intros [s z] [H1 H2]. cbn in *.
    apply lookup_lt_Some in H2. lia. }
  rewrite IH by done. cbn. by rewrite fmap_app.
Qed.

(** The lines a patch adds are those of the new version.  From the patch of a
    file, hunks that give what is kept, added and removed and say where they are,
    the ingestion yields exactly the added lines, in their order, each with the
    number it has in the new version. *)
Theorem added_lines_numbered filename patchUrl hunks (new : list string)
    (Hok : Forall hunk_ok hunks) (Hfit : Forall (fits new) hunks)
    (Hnew : (Z.of_nat (length new) < 2 ^ 31)%Z) :
  ∃ f, ingestFileForFullDiff filename (patch_text hunks) patchUrl = Ok f ∧
    pf_PatchLines f = numbered <$> concat (added <$> hunks) ∧
    Forall (λ l, new !! Z.to_nat (pl_LineNumber l - 1) = Some (pl_Content l)) (pf_PatchLines f).
Proof.
  unfold ingestFileForFullDiff, patch_text. rewrite scan_concat.
  - rewrite (full_lines_patch new) by done. eexists. split_and!; [reflexivity..|]. cbn.
    apply Forall_fmap. apply Forall_concat, Forall_fmap. eapply Forall_impl; [exact Hfit|].
    intros h Hh. eapply Forall_impl; [by apply (added_new new)|]. by intros [s n] [_ ?].
  - apply Forall_concat, Forall_fmap. eapply Forall_impl; [exact Hok|].
    intros h (_ & Hone & Hl). apply Forall_cons. split; [done|]. apply Forall_fmap.
    revert Hl. clear. induction (h_Lines h) as [|l lines IH]; [constructor|].
    intros (H1 & _ & _ & Hl). constructor; [done|]. by apply IH.
  - apply Forall_concat, Forall_fmap. eapply Forall_impl; [exact Hok|]. intros h _.
    apply Forall_cons. split; [done|]. apply Forall_fmap, Forall_true. by intros [s|s|s|].
Qed.

(** ** Orders *)

(** A comparison that is a total order up to what it calls equal. *)
Class Ordering {E} (cmp : E → E → comparison) : Prop := {
  ord_opp a b : cmp a b = CompOpp (cmp b a);
  ord_eq a b c : cmp a b = Eq → cmp a c = cmp b c;
  ord_lt a b c : cmp a b = Lt → cmp b c = Lt → cmp a c = Lt;
}.

#[export] Instance Compare_ordering : Ordering Compare.
Proof.
  split; unfold Compare.
  - apply String.compare_antisym.
  - by intros a b c ->%String.compare_eq_iff.
  - intros a b c. revert b c. induction a as [|x a IH]; intros [|y b] [|z c]; try done. cbn.
    unfold Ascii.compare. set (X := N_of_ascii x). set (Y := N_of_ascii y). set (Z := N_of_ascii z).
    destruct (N.compare_spec X Y) as [H1|H1|H1], (N.compare_spec Y Z) as [H2|H2|H2]; try done.
    + rewrite (proj2 (N.compare_eq_iff X Z)) by congruence. apply IH.
    + intros _ _. by rewrite (proj2 (N.compare_lt_iff X Z)) by lia.
    + intros _ _. by rewrite (proj2 (N.compare_lt_iff X Z)) by lia.
    + intros _ _. by rewrite (proj2 (N.compare_lt_iff X Z)) by lia.
Qed.

Definition lexicographic {E} (c1 c2 : E → E → comparison) (a b : E) : comparison :=
  match c1 a b with Eq => c2 a b | c => c end.

#[export] Instance lexicographic_ordering {E} (c1 c2 : E → E → comparison) :
  Ordering c1 → Ordering c2 → Ordering (lexicographic c1 c2).
Proof.
  intros O1 O2. unfold lexicographic. split.
  - intros a b. rewrite (ord_opp (cmp := c1) a b). destruct (c1 b a); [apply ord_opp|done..].
  - intros a b c. destruct (c1 a b) eqn:E1; try done. intros E2.
    rewrite (ord_eq (cmp := c1) a b c E1). destruct (c1 b c); [|done..]. by apply ord_eq.
  - intros a b c. destruct (c1 a b) eqn:E1; try done.
    + intros E2. rewrite (ord_eq (cmp := c1) a b c E1). destruct (c1 b c); [|done..].
      by apply ord_lt.
    + intros _. destruct (c1 b c) eqn:E2; [intros _|intros _|done].
      * assert (E3 : c1 a c = Lt); [|by rewrite E3].
        rewrite (ord_opp (cmp := c1)), (ord_eq (cmp := c1) c b), <-(ord_opp (cmp := c1)); [done|].
        by rewrite (ord_opp (cmp := c1)), E2.
      * by rewrite (ord_lt (cmp := c1) a b c).
Qed.

Lemma ordering_by {E F} (f : E → F) (cmp : F → F → comparison) :
  Ordering cmp → Ordering (λ a b, cmp (f a) (f b)).
Proof. intros O. split; intros *; [apply ord_opp|apply ord_eq|apply ord_lt]. Qed.

Lemma ordering_ext {E} (c1 c2 : E → E → comparison) :
  (∀ a b, c1 a b = c2 a b) → Ordering c1 → Ordering c2.
Proof.
  intros He O. split; intros *; rewrite <-!He; [apply ord_opp|apply ord_eq|apply ord_lt].
Qed.

#[export] Instance inventorySorter_ordering : Ordering inventorySorter.
Proof.
  apply (ordering_ext (lexicographic
    (lexicographic (λ a b, Compare (pkg_Name a) (pkg_Name b)) (λ a b, Compare (pkg_Version a) (pkg_Version b)))
    (λ a b, Compare ((λ p, "[" +:+ String.concat " " (pkg_Locations p) +:+ "]") a)
                    ((λ p, "[" +:+ String.concat " " (pkg_Locations p) +:+ "]") b)))).
  - intros a b. unfold lexicographic, inventorySorter. cbn.
    by destruct (Compare (pkg_Name a) (pkg_Name b)), (Compare (pkg_Version a) (pkg_Version b)).
  - repeat apply lexicographic_ordering; apply ordering_by, Compare_ordering.
Qed.

(** ** The difference of two inventories *)

Section difference.
Context {E : Type} (sorter : E → E → comparison) `{!Ordering sorter}.
Implicit Types l base updated : list E.

Definition ascending : list E → Prop := StronglySorted (λ a b, sorter a b ≠ Gt).

(** How many elements compare equal to [x]. *)
Definition count (x : E) (l : list E) : nat := length (filter (λ y, sorter x y = Eq) l).

Lemma count_cons x y l :
  count x (y :: l) = match sorter x y with Eq => S (count x l) | _ => count x l end.
Proof.
  unfold count. rewrite filter_cons. destruct (sorter x y) eqn:Hc;
    [by rewrite decide_True by done|by rewrite decide_False by done..].
Qed.

Lemma count_perm x l l' : l ≡ₚ l' → count x l = count x l'.
Proof. intros Hp. unfold count. by rewrite Hp. Qed.

Lemma count_none x l : Forall (λ y, sorter x y = Lt) l → count x l = 0%nat.
Proof.
  induction 1 as [|y l Hy _ IH]; [done|]. by rewrite count_cons, Hy.
Qed.

(** What is less than the head of a sorted list is in none of it. *)
Lemma below_all x y l : sorter x y = Lt → ascending (y :: l) → Forall (λ z, sorter x z = Lt) (y :: l).
Proof.
  intros Hx Hl. apply Forall_cons. split; [done|]. inversion Hl as [|? ? _ Hall]; subst.
  eapply Forall_impl; [exact Hall|]. intros z Hz. cbn in Hz.
  destruct (sorter y z) eqn:Hyz; [|by apply (ord_lt x y z)|done].
  rewrite (ord_opp x z), <-(ord_eq y z), <-ord_opp; done.
Qed.

Lemma ascending_tail y l : ascending (y :: l) → ascending l.
Proof. by inversion 1. Qed.

Lemma difference_count n : ∀ base updated x, (length base + length updated ≤ n)%nat →
  ascending base → ascending updated →
  count x (difference sorter n base updated) = (count x updated - count x base)%nat ∧
  ∀ y, y ∈ difference sorter n base updated → y ∈ updated.
Proof.
  induction n as [|n IH]; intros [|b base] [|u updated] x Hn Hb Hu; cbn [difference];
    try (split; [cbn; lia|done]); [cbn in Hn; lia|].
  cbn in Hn. destruct (sorter b u) eqn:Hbu.
  - destruct (IH base updated x) as [Hc Hin]; [lia|by eapply ascending_tail..|].
    rewrite Hc, !count_cons. split; [|intros y Hy; right; by apply Hin].
    rewrite (ord_opp x b), (ord_opp x u), (ord_eq b u x Hbu). by destruct (sorter u x).
  - destruct (IH base (u :: updated) x) as [Hc Hin]; [cbn; lia|by eapply ascending_tail|done|].
    split; [|exact Hin]. rewrite Hc, (count_cons x b). destruct (sorter x b) eqn:Hx; [|done..].
    rewrite (count_none x (u :: updated)); [done|]. apply below_all; [|done].
    by rewrite (ord_eq x b u Hx).
  - destruct (IH (b :: base) updated x) as [Hc Hin]; [cbn; lia|done|by eapply ascending_tail|].
    rewrite !(count_cons x u), Hc. split.
    + destruct (sorter x u) eqn:Hx; [|done..].
      rewrite (count_none x (b :: base)); [lia|]. apply below_all; [|done].
      rewrite (ord_eq x u b Hx), ord_opp, Hbu. done.
    + intros y [->|Hy]%elem_of_cons; [by left|right; by apply Hin].
Qed.

Context (SortFunc : list E → list E).
Context (SortFunc_perm : ∀ l, SortFunc l ≡ₚ l) (SortFunc_sorted : ∀ l, ascending (SortFunc l)).

(** The difference of two inventories is that of their multisets: of what
    compares equal it has as many as there are more in the updated one, and all
    of it is in the updated one. *)
Theorem setDifference_count base updated x :
  count x (setDifference sorter SortFunc base updated) = (count x updated - count x base)%nat ∧
  ∀ y, y ∈ setDifference sorter SortFunc base updated → y ∈ updated.
Proof.
  unfold setDifference.
  destruct (difference_count (length (SortFunc base) + length (SortFunc updated))
              (SortFunc base) (SortFunc updated) x) as [-> Hin]; [lia|apply SortFunc_sorted..|].
  rewrite !(count_perm x _ _ (SortFunc_perm _)). split; [done|].
  intros y Hy%Hin. by rewrite SortFunc_perm in Hy.
Qed.
End difference.

(** ** The files of a pull request *)

Section pages.
Context {X : Type} (cli : DiffProvider X) (pr : PullRequest) (x : X).

(** The pages from [page] on, each with the number of the next. *)
Fixpoint pages_from (page : Z) (pages : list (list CommitFile * Z)) : Prop :=
  match pages with
  | [] => False
  | (files, next) :: pages =>
      ListFiles cli (pull_RepoOwner pr) (pull_RepoName pr) (pull_Number pr) prFilesPerPage page x
        = (x, Ok (files, next)) ∧
      if (next =? 0)%Z then pages = [] else pages_from next pages
  end.

(** A provider that answers page after page up to a last one is read to the end,
    with as much fuel as there are pages. *)
Lemma each_file_all {A} (one : CommitFile → res (list A)) (found : CommitFile → list A) pages :
  ∀ page fuel, pages_from page pages → (length pages ≤ fuel)%nat →
  (∀ f, f ∈ concat pages.*1 → one f = Ok (found f)) →
  each_file cli fuel pr one page x = (x, Ok (concat (found <$> concat pages.*1))).
Proof.
  induction pages as [|[files next] pages IH]; intros page fuel Hp Hfuel Hone; [done|].
  destruct fuel as [|fuel]; [cbn in Hfuel; lia|]. destruct Hp as [Hl Hp]. cbn [each_file].
  unfold mbind at 1, prog_bind at 1, wrapf. rewrite Hl. cbn [wrapf_res fmap list_fmap concat fst].
  assert (Hm : mapM (λ file, wrapf_res ("error ingesting file " +:+ cf_Filename file +:+ ": ") (one file)) files
    = Ok (found <$> files)).
  { assert (Hf : ∀ f, f ∈ files → one f = Ok (found f)).
    { intros f Hf. apply Hone. cbn. apply elem_of_app. by left. }
    clear -Hf. induction files as [|f files IH]; [done|]. cbn. rewrite Hf by by left. cbn.
    rewrite IH; [done|]. intros g Hg. apply Hf. by right. }
  unfold mbind at 1, prog_bind at 1, lift. rewrite Hm.
  destruct (next =? 0)%Z.
  - subst pages. cbn. by rewrite app_nil_r.
  - unfold mbind, prog_bind. rewrite IH; [|done|cbn in Hfuel; lia|].
    + by rewrite fmap_app, concat_app.
    + intros f Hf. apply Hone. cbn. apply elem_of_app. by right.
Qed.
End pages.

(** ** Examples *)

Definition ex_hunks : list hunk := [
  {| h_OldStart := 1; h_OldCount := 2; h_NewStart := 1; h_NewCount := 3; h_Section := "";
     h_Lines := [Kept "a"; Added "b"; Removed "x"; Added "c"] |};
  {| h_OldStart := 9; h_OldCount := 1; h_NewStart := 5; h_NewCount := 1; h_Section := " func f()";
     h_Lines := [Removed "y"; Added "e"; NoNewline] |}]%Z.

Lemma added_lines_numbered_witness :
  ∃ f, ingestFileForFullDiff "f.txt" (patch_text ex_hunks) "" = Ok f ∧
    pf_PatchLines f = [{| pl_Content := "b"; pl_LineNumber := 2 |};
                       {| pl_Content := "c"; pl_LineNumber := 3 |};
                       {| pl_Content := "e"; pl_LineNumber := 5 |}]%Z.
Proof.
  destruct (added_lines_numbered "f.txt" "" ex_hunks ["a"; "b"; "c"; "d"; "e"]) as (f & Hf & Hl & _).
  - repeat constructor; try (vm_compute; done); try (intros; discriminate); intros _; reflexivity.
  - apply Forall_cons; split; [|apply Forall_cons; split; [|constructor]]; right; (split; [done|]);
      intros [|[|[|i]]] s Hs;
      cbn in Hs; try discriminate Hs; injection Hs as <-; reflexivity.
  - vm_compute. reflexivity.
  - exists f. split; [exact Hf|exact Hl].
Defined.

Definition ex_package (name version : string) : Package :=
  {| pkg_Name := name; pkg_Version := version; pkg_Locations := ["go.mod"]; pkg_PURLType := "golang" |}.

#[export] Instance sorter_le_dec (a b : Package) : Decision (inventorySorter a b ≠ Gt).
Proof. destruct (inventorySorter a b); [left|left|right]; congruence. Defined.

Definition ex_sort : list Package → list Package := merge_sort (λ a b, inventorySorter a b ≠ Gt).

Lemma ex_sort_sorted l : ascending inventorySorter (ex_sort l).
Proof.
  apply StronglySorted_merge_sort.
  - intros a b c Hab Hbc Hac.
    destruct (inventorySorter b c) eqn:H1; [| |done].
    + assert (Hcb : inventorySorter c a = inventorySorter b a) by (symmetry; by apply ord_eq).
      rewrite ord_opp, Hcb, <-ord_opp in Hac. done.
    + destruct (inventorySorter a b) eqn:H2; [| |done].
      * rewrite (ord_eq a b c H2), H1 in Hac. done.
      * rewrite (ord_lt a b c H2 H1) in Hac. done.
  - intros a b. destruct (inventorySorter a b) eqn:Hab; [left; congruence..|right].
    rewrite ord_opp, Hab. done.
Qed.

Lemma setDifference_count_witness :
  count inventorySorter (ex_package "a" "v2")
    (setDifference inventorySorter ex_sort [ex_package "b" "v1"; ex_package "a" "v1"]
       [ex_package "a" "v2"; ex_package "a" "v1"]) = 1%nat.
Proof.
  exact (proj1 (setDifference_count inventorySorter ex_sort (merge_sort_Permutation _) ex_sort_sorted
    [ex_package "b" "v1"; ex_package "a" "v1"] [ex_package "a" "v2"; ex_package "a" "v1"]
    (ex_package "a" "v2"))).
Defined.

Definition ex_lines (ls : list string) : string := String.concat (String Text.newline "") ls.
Definition ex_added (patch : string) : res (list (string * Z)) :=
  f ← ingestFileForFullDiff "f" patch ""; mret ((λ l, (pl_Content l, pl_LineNumber l)) <$> pf_PatchLines f).

(** The mark of an old version without a newline at its end counts as a line: the
    added line is the fourth of the new version. *)
Example mark_shifts_numbers :
  ex_added (ex_lines ["@@ -3,2 +3,2 @@"; " a"; "-b"; "\ No newline at end of file"; "+c"]) =
    Ok [("c", 5%Z)].
Proof. vm_compute. reflexivity. Qed.

(** An added line that quotes a header is lost, and what follows is renumbered. *)
Example quoted_header_lost :
  ex_added (ex_lines ["@@ -3,1 +3,3 @@"; " a"; "+see @@ -1,2 +70,9 @@"; "+b"]) = Ok [("b", 70%Z)].
Proof. vm_compute. reflexivity. Qed.

(** The number of a line beyond the last 32-bit one wraps around. *)
Example number_wraps :
  ex_added (ex_lines ["@@ -0,0 +2147483647,2 @@"; "+a"; "+b"]) =
    Ok [("a", 2147483647%Z); ("b", (-2147483648)%Z)].
Proof. vm_compute. reflexivity. Qed.

Definition names (r : res (list Dependency)) : res (list (string * string)) :=
  deps ← r; mret ((λ d, (dep_Name d, dep_Version d)) <$> (deps : list Dependency)).

Definition tab (s : string) : string := String "009"%char s.

(** A replacement with versions on both sides is read as a module named by the
    arrow; in a block it is the replaced module that is read. *)
Example go_replacements_misread :
  names (goParse (ex_lines ["+replace a.b/c v1 => d.e/f v2"; "+" +:+ tab "g.h/i v1 => j.k/l v2";
                            "+" +:+ tab "m.n/o => ../o"])) =
    Ok [("=>", "d.e/f"); ("g.h/i", "v1"); ("m.n/o", "=>")].
Proof. vm_compute. reflexivity. Qed.

(** A compatible release is no operator, and an option is a package. *)
Example requirements_misread :
  names (requirementsParse (ex_lines ["+requests>=2.8,<3 # pinned"; "+flask~=1.4.2"; "+-r base.txt"])) =
    Ok [("requests", "2.8"); ("flask~=1.4.2", ""); ("-r base.txt", "")].
Proof. vm_compute. reflexivity. Qed.

Definition quoted (s : string) : string := String dquote (s +:+ String dquote "").

Example npm_scoped_package :
  names (npmParse (ex_lines ["   " +:+ quoted "node_modules/@types/node" +:+ ": {";
    "+     " +:+ quoted "version" +:+ ": " +:+ quoted "1.2.3" +:+ ","; "   },";
    "+  " +:+ quoted "version" +:+ ": " +:+ quoted "9.9.9"])) = Ok [("@types/node", "1.2.3")].
Proof. vm_compute. reflexivity. Qed.
