(* ===== verification/PullRequestComment.v ===== *)
(** * The pull request comment alert

    internal/engine/actions/alert/pull_request_comment/pull_request_comment.go:
    a review on the pull request of a failing rule, found again by a comment in
    its text.  The review calls of the provider, the clock, the html templates
    and the JSON of the metadata are parameters.  The second part follows the
    review over a series of evaluations. *)

From S2P Require Import Prelude GoErrors GoMonad GoStrings GoText EngineErrors DbTypes.
From S2P Require Import StatusAdapter Uuid ProfileModels Actions Reevaluation.
From S2P Require Import SafeTemplate.
From Stdlib Require Import Ascii.
Local Open Scope string_scope.

Definition AlertType_pull_request_comment : string := "pull_request_comment".
Definition PrCommentMaxLength : Z := 65536.

(** What of a review is read, and whether it was dismissed. *)
Record PullRequestReview := {
  rv_ID : Z; rv_Body : string; rv_HTMLURL : option string; rv_Dismissed : bool;
}.

(** [ReviewPublisher]: the repository, the number of the pull request, then what
    is asked.  Reviews are listed without options. *)
Record ReviewPublisher (W : Type) := {
  ListReviews : string → string → Z → prog W (list PullRequestReview);
  CreateReview : string → string → Z → string → string → prog W PullRequestReview;
  UpdateReview : string → string → Z → Z → string → prog W unit;
  DismissReview : string → string → Z → Z → string → prog W unit;
}.
Arguments ListReviews {W} _ _ _ _.
Arguments CreateReview {W} _ _ _ _ _ _.
Arguments UpdateReview {W} _ _ _ _ _ _.
Arguments DismissReview {W} _ _ _ _ _ _.

Module pr_comment.

Record PrCommentTemplateParams := {
  tp_EvalErrorDetails : string; tp_EvalResultOutput : option any;
}.

(** Times are seconds. *)
Record alertMetadata := {
  am_ReviewID : string; am_SubmittedAt : option Z; am_PullRequestUrl : option string;
}.

Record paramsPR := {
  pp_Owner : string; pp_Repo : string; pp_CommitSha : string; pp_Number : Z;
  pp_Comment : string; pp_RuleName : string; pp_Event : string;
  pp_Metadata : option alertMetadata;
  pp_prevStatus : option ListRuleEvaluationsByProfileIdRow;
}.

Record ReviewCfg := { cfg_ReviewMessage : string; cfg_Action : string }.

(** [json.Marshal] and [json.Unmarshal] of [alertMetadata]. *)
Class MetadataJSON := {
  marshal_review : alertMetadata → string;
  unmarshal_review : string → option alertMetadata;
  unmarshal_marshal_review : ∀ m, unmarshal_review (marshal_review m) = Some m;
}.

Definition magicComment (ruleName : string) : string :=
  "<!-- minder-rule: " +:+ ruleName +:+ " -->".

(** The review that holds the comment of the rule. *)
Definition marked (ruleName : string) (r : PullRequestReview) : bool :=
  negb (String.eqb (rv_Body r) "") && Text.Contains (rv_Body r) (magicComment ruleName).

Section alert.
Context {W : Type} (now : W → Z).
Context `{TemplateEngine} `{TT : TextTemplates PrCommentTemplateParams} `{MetadataJSON}.

Record Alert := {
  actionType : ActionType; gh : ReviewPublisher W; reviewCfg : ReviewCfg; setting : ActionOpt;
}.

Definition NewPullRequestCommentAlert (actionType : ActionType) (reviewCfg : ReviewCfg)
    (gh : ReviewPublisher W) (setting : ActionOpt) : res Alert :=
  if String.eqb actionType "" then Err (EText "action type cannot be empty")
  else Ok {| actionType := actionType; gh := gh; reviewCfg := reviewCfg; setting := setting |}.

Definition findExistingReview (alert : Alert) (params : paramsPR)
    : prog W (option PullRequestReview) :=
  reviews ← ListReviews (gh alert) (pp_Owner params) (pp_Repo params) (pp_Number params);
  mret (find (marked (pp_RuleName params)) reviews).

(** The previous status as an error, with the previous metadata. *)
Definition runDoNothing (params : paramsPR) : option string * error :=
  let err := AlertStatusAsError (pp_prevStatus params) in
  match pp_prevStatus params with
  | Some row => (row_AlertMetadata row, err)
  | None => (None, err)
  end.

(** The metadata of the review that is there now. *)
Definition review_metadata (reviewID : Z) (review : PullRequestReview)
    : prog W (option string * error) := λ w,
  (w, Ok (Some (marshal_review
    {| am_ReviewID := Strconv.FormatInt reviewID; am_SubmittedAt := Some (now w);
       am_PullRequestUrl := rv_HTMLURL review |}), None)).

Definition searching (err : gerr) : option string * error :=
  (None, Some (EWrap "error searching for existing PR review: " err "")).

Definition run_on (alert : Alert) (params : paramsPR) : prog W (option string * error) :=
  existing ← try (findExistingReview alert params);
  match existing with
  | inr err => mret (searching err)
  | inl (Some review) =>
      r ← try (UpdateReview (gh alert) (pp_Owner params) (pp_Repo params) (pp_Number params)
                 (rv_ID review) (pp_Comment params));
      match r with
      | inr err => mret (None, Some (EWrap2 "error updating PR review: " err ", "
                                       ErrActionFailed ""))
      | inl _ => review_metadata (rv_ID review) review
      end
  | inl None =>
      r ← try (CreateReview (gh alert) (pp_Owner params) (pp_Repo params) (pp_Number params)
                 (pp_Comment params) (pp_Event params));
      match r with
      | inr err => mret (None, Some (EWrap2 "error creating PR review: " err ", "
                                       ErrActionFailed ""))
      | inl review => review_metadata (rv_ID review) review
      end
  end.

Definition run_off (alert : Alert) (params : paramsPR) : prog W (option string * error) :=
  existing ← try (findExistingReview alert params);
  match existing with
  | inr err => mret (searching err)
  | inl None => mret (None, Some ErrActionTurnedOff)
  | inl (Some review) =>
      r ← try (DismissReview (gh alert) (pp_Owner params) (pp_Repo params) (pp_Number params)
                 (rv_ID review) "Dismissed due to alert being turned off");
      match r with
      | inr err =>
          if is_in err ErrNotFound then
            mret (None, Some (EWrap2 "PR review already dismissed: " err ", "
                                ErrActionTurnedOff ""))
          else mret (None, Some (EWrap2 "error dismissing PR review: " err ", "
                                   ErrActionFailed ""))
      | inl _ => mret (None, Some ErrActionTurnedOff)
      end
  end.

Definition run (alert : Alert) (params : paramsPR) (cmd : ActionCmd)
    : prog W (option string * error) :=
  if String.eqb cmd ActionCmdOn then run_on alert params
  else if String.eqb cmd ActionCmdOff then run_off alert params
  else if String.eqb cmd ActionCmdDoNothing then mret (runDoNothing params)
  else mret (None, Some ErrActionSkipped).

(** The dry run logs and calls nothing. *)
Definition runDry (params : paramsPR) (cmd : ActionCmd) : option string * error :=
  if String.eqb cmd ActionCmdOn then (None, None)
  else if String.eqb cmd ActionCmdOff then
    if match pp_Metadata params with None => true | Some m => String.eqb (am_ReviewID m) "" end
    then (None, Some (EWrap "no PR comment ID provided: " ErrActionTurnedOff ""))
    else (None, Some ErrActionSkipped)
  else if String.eqb cmd ActionCmdDoNothing then runDoNothing params
  else (None, Some ErrActionSkipped).

(** The review's text: what the template gives, and the comment of the rule. *)
Definition comment_text (comment ruleName : string) : string :=
  comment +:+ String Text.newline (String Text.newline (magicComment ruleName)).

Definition review_event (cfg : ReviewCfg) : string :=
  let action := if String.eqb (cfg_Action cfg) "" then "comment" else cfg_Action cfg in
  if String.eqb (Strings.ToLower action) "request_changes" then "REQUEST_CHANGES" else "COMMENT".

Definition tmpl_params (params : EvalStatusParams) : PrCommentTemplateParams :=
  {| tp_EvalErrorDetails := ErrorAsEvalDetails (esp_evalErr params);
     tp_EvalResultOutput := esp_evalResult params ≫= er_Output |}.

Definition getParamsForPRComment (alert : Alert) (owner repo sha : string) (number : Z)
    (params : EvalStatusParams) (metadata : option (option string)) : res paramsPR :=
  if (Strconv.int64_max <? number)%Z then Err (EText "pr number is too large")
  else
    commentTmpl ← wrapf_res "cannot parse review message template: "
                    (NewSafeHTMLTemplate (Some (cfg_ReviewMessage (reviewCfg alert))));
    comment ← wrapf_res "cannot execute title template: "
                (Render commentTmpl (tmpl_params params) PrCommentMaxLength);
    let ruleName := ri_Name (esp_Rule params) in
    Ok {| pp_Owner := owner; pp_Repo := repo; pp_CommitSha := sha; pp_Number := number;
          pp_Comment := comment_text comment ruleName; pp_RuleName := ruleName;
          pp_Event := review_event (reviewCfg alert);
          pp_Metadata := match metadata with
                         | Some (Some m) => unmarshal_review m
                         | _ => None
                         end;
          pp_prevStatus := esp_EvalStatusFromDb params |}.

Definition Do (alert : Alert) (cmd : ActionCmd) (entity : ProtoEntity)
    (params : EvalStatusParams) (metadata : option (option string))
    : prog W (option string * error) :=
  match entity with
  | PbPullRequest owner repo sha number =>
      match getParamsForPRComment alert owner repo sha number params metadata with
      | Err e => mret (None, Some (EWrap "error extracting parameters for PR comment: " e ""))
      | Panic m => lift (Panic m)
      | Ok p =>
          let s := setting alert in
          if bool_decide (s = ActionOptOn) then run alert p cmd
          else if bool_decide (s = ActionOptDryRun) then mret (runDry p cmd)
          else if bool_decide (s = ActionOptOff) || bool_decide (s = ActionOptUnknown)
          then mret (None, Some (EWrap "unexpected action setting: " ErrActionFailed ""))
          else mret (None, Some ErrActionSkipped)
      end
  | _ => mret (None, Some (EText "expected pull request"))
  end.

Definition action (alert : Alert) : Action W ProtoEntity :=
  {| act_Class := actionType alert;
     act_Type := AlertType_pull_request_comment;
     act_GetOnOffState := ActionOptOrDefault (setting alert) ActionOptOff;
     act_Do := Do alert |}.
End alert.
End pr_comment.

(** * The life of a review

    What a series of evaluations makes of the review of a rule on a pull
    request, against a machine with one review at most; and what the alert
    misses. *)

Import pr_comment.

(** ** The reviews of a pull request *)

Definition with_body (body : string) (r : PullRequestReview) : PullRequestReview :=
  {| rv_ID := rv_ID r; rv_Body := body; rv_HTMLURL := rv_HTMLURL r;
     rv_Dismissed := rv_Dismissed r |}.

Definition dismissed (r : PullRequestReview) : PullRequestReview :=
  {| rv_ID := rv_ID r; rv_Body := rv_Body r; rv_HTMLURL := rv_HTMLURL r; rv_Dismissed := true |}.

Definition at_id (id : Z) (f : PullRequestReview → PullRequestReview) (r : PullRequestReview)
    : PullRequestReview := if (rv_ID r =? id)%Z then f r else r.

(** What the provider documents: a listing without options is the first page of
    thirty, the oldest first; a new review comes last, under a new id; a new text
    changes nothing else of a review; a review that stands can be dismissed. *)
Record KeepsReviews {W} (gh : ReviewPublisher W) (owner repo : string) (number : Z)
    (reviews : W → list PullRequestReview) : Prop := {
  list_first_page : ∀ w, ListReviews gh owner repo number w = (w, Ok (take 30 (reviews w)));
  create_appends : ∀ w body event, ∃ w' r,
    CreateReview gh owner repo number body event w = (w', Ok r) ∧
    rv_Body r = body ∧ rv_Dismissed r = false ∧ (rv_ID r ∉ (rv_ID <$> reviews w)) ∧
    reviews w' = (reviews w ++ [r])%list;
  update_sets_body : ∀ w id body, id ∈ (rv_ID <$> reviews w) → ∃ w',
    UpdateReview gh owner repo number id body w = (w', Ok tt) ∧
    reviews w' = at_id id (with_body body) <$> reviews w;
  dismiss_dismisses : ∀ w id msg,
    (∃ r, r ∈ reviews w ∧ rv_ID r = id ∧ rv_Dismissed r = false) → ∃ w',
    DismissReview gh owner repo number id msg w = (w', Ok tt) ∧
    reviews w' = at_id id dismissed <$> reviews w;
  dismissed_stays : ∀ w r msg, NoDup (rv_ID <$> reviews w) → r ∈ reviews w →
    rv_Dismissed r = true →
    ∃ a, DismissReview gh owner repo number (rv_ID r) msg w = (w, a) ∧ ∀ m, a ≠ Panic m;
}.

(** ** The machine *)

(** Whether the alert is on, and the review: its text, and whether it is
    dismissed. *)
Record review_state := { rs_on : bool; rs_review : option (string * bool) }.

Definition no_review : review_state := {| rs_on := false; rs_review := None |}.

(** A failure raises the alert: it writes the review or writes it anew, which
    leaves a dismissed one dismissed.  Success dismisses it. *)
Definition review_step (text : gerr → string) (s : review_state) (err : error) : review_state :=
  match err with
  | Some e =>
      if rs_on s then s
      else {| rs_on := true;
              rs_review := Some (text e, from_option snd false (rs_review s)) |}
  | None => {| rs_on := false; rs_review := (λ r, (r.1, true)) <$> rs_review s |}
  end.

(** An evaluation that was not skipped. *)
Definition evaluated (err : error) : Prop :=
  errors_Is err ErrEvaluationSkipped = false ∧ errors_Is err ErrEvaluationSkipSilently = false.

(** ** The comment that marks a review *)

Lemma append_nonempty a b : b ≠ "" → a +:+ b ≠ "".
Proof. by destruct a. Qed.

Lemma marked_text name c r : rv_Body r = comment_text c name → marked name r = true.
Proof.
  unfold marked. intros ->. apply andb_true_iff. split.
  - apply negb_true_iff, String.eqb_neq, append_nonempty. done.
  - unfold comment_text.
    change (String Text.newline (String Text.newline (magicComment name)))
      with (String Text.newline (String Text.newline "") +:+ magicComment name).
    rewrite <-append_assoc. by apply Text.Contains_app.
Qed.

Lemma find_last {A} (P : A → bool) l x :
  Forall (λ y, P y = false) l → P x = true → find P (l ++ [x]) = Some x.
Proof. intros Hl Hx. induction Hl as [|y l Hy _ IH]; cbn; [by rewrite Hx|by rewrite Hy]. Qed.

Lemma find_none {A} (P : A → bool) l : Forall (λ y, P y = false) l → find P l = None.
Proof. intros Hl. induction Hl as [|y l Hy _ IH]; cbn; [done|by rewrite Hy]. Qed.

Lemma at_id_others id f (l : list PullRequestReview) : id ∉ (rv_ID <$> l) → at_id id f <$> l = l.
Proof.
  intros Hid. rewrite <-(list_fmap_id l) at 2. apply list_fmap_ext. intros i r Hr. unfold at_id.
  destruct (Z.eqb_spec (rv_ID r) id) as [<-|]; [|done]. exfalso. apply Hid.
  apply list_elem_of_fmap. exists r. split; [done|]. by eapply list_elem_of_lookup_2.
Qed.

Lemma at_id_self f r : at_id (rv_ID r) f r = f r.
Proof. unfold at_id. by rewrite Z.eqb_refl. Qed.

(** ** The alert follows the machine *)

Lemma evaluated_status e : evaluated (Some e) →
  mapEvalStatus (Some e) = EvalStatusFailure ∨ mapEvalStatus (Some e) = EvalStatusError.
Proof.
  intros [H1 H2]. unfold mapEvalStatus. rewrite H1, H2. cbn. case_goal; [by left|by right].
Qed.

Definition alert_status (row : option ListRuleEvaluationsByProfileIdRow) : string :=
  from_option row_AlertStatus AlertStatusSkipped row.

(** The command of a failure, and that of a success. *)
Lemma failure_command row e e' ty : evaluated (Some e) →
  shouldAlert (prev_of_row row) (mapEvalStatus (Some e)) (Some e') ty =
    if bool_decide (alert_status row = AlertStatusOn) then ActionCmdDoNothing else ActionCmdOn.
Proof.
  intros He%evaluated_status. unfold shouldAlert.
  rewrite (bool_decide_eq_false_2 (Some e' = None)), andb_false_r by done.
  replace (match prev_of_row row with Some p => pe_AlertStatus p | None => AlertStatusSkipped end)
    with (alert_status row) by (by destruct row).
  assert (Hs : String.eqb (mapEvalStatus (Some e)) EvalStatusError ||
               String.eqb (mapEvalStatus (Some e)) EvalStatusFailure = true)
    by (destruct He as [Hs|Hs]; rewrite Hs; reflexivity).
  rewrite Hs. destruct (String.eqb_spec AlertStatusOn (alert_status row)) as [<-|Hn].
  - by rewrite bool_decide_eq_true_2.
  - by rewrite bool_decide_eq_false_2.
Qed.

Lemma success_command row e' ty :
  shouldAlert (prev_of_row row) (mapEvalStatus None) (Some e') ty =
    if bool_decide (alert_status row = AlertStatusOff) then ActionCmdDoNothing else ActionCmdOff.
Proof.
  unfold shouldAlert. rewrite (bool_decide_eq_false_2 (Some e' = None)), andb_false_r by done.
  replace (match prev_of_row row with Some p => pe_AlertStatus p | None => AlertStatusSkipped end)
    with (alert_status row) by (by destruct row).
  change (mapEvalStatus None) with EvalStatusSuccess. cbv beta iota zeta delta [orb].
  change (String.eqb EvalStatusSuccess EvalStatusError) with false.
  change (String.eqb EvalStatusSuccess EvalStatusFailure) with false.
  change (String.eqb EvalStatusSuccess EvalStatusSuccess) with true. cbv beta iota.
  destruct (String.eqb_spec AlertStatusOff (alert_status row)) as [<-|Hn].
  - by rewrite bool_decide_eq_true_2.
  - by rewrite bool_decide_eq_false_2.
Qed.

Lemma error_not_on e : ErrorAsAlertStatus (Some e) ≠ AlertStatusOn.
Proof. unfold ErrorAsAlertStatus. by repeat case_goal. Qed.

(** The situation: the remediation of the rule is off, its alert is a pull
    request comment, the template gives [rendered]. *)
Record commented_rule {W} (now : W → Z) `{TemplateEngine} `{TT : TextTemplates PrCommentTemplateParams}
    `{MetadataJSON}
    (rae : RuleActionsEngine W ProtoEntity) (alert : Alert (W := W)) (tmpl : SafeTemplate _)
    (rendered : PrCommentTemplateParams → string) : Prop := {
  cr_rem : ∃ rem, rae_actions rae !! remediate_ActionType = Some rem ∧
                  act_GetOnOffState rem = ActionOptOff;
  cr_alert : rae_actions rae !! alert_ActionType = Some (action now alert);
  cr_on : setting alert = ActionOptOn;
  cr_tmpl : NewSafeHTMLTemplate (Some (cfg_ReviewMessage (reviewCfg alert))) = Ok tmpl;
  cr_rendered : ∀ d, Render tmpl d PrCommentMaxLength = Ok (rendered d);
}.

Section lifecycle.
Context {W : Type} (now : W → Z) `{TemplateEngine} `{TT : TextTemplates PrCommentTemplateParams}
    `{MetadataJSON}.
Context (rae : RuleActionsEngine W ProtoEntity) (alert : Alert (W := W)) (tmpl : SafeTemplate _)
  (rendered : PrCommentTemplateParams → string).
Context (Hrule : commented_rule now rae alert tmpl rendered).
Context (owner repo sha : string) (number : Z) (reviews : W → list PullRequestReview).
Context (Hgh : KeepsReviews (gh alert) owner repo number reviews).
Context (params : EvalStatusParams) (Hnumber : (number ≤ Strconv.int64_max)%Z).
Let name := ri_Name (esp_Rule params).
Let ent := PbPullRequest owner repo sha number.

(** The text of the review for an outcome. *)
Definition review_text (err : error) : string :=
  comment_text (rendered (tmpl_params (with_row None err params))) name.

Lemma getParams_run row err meta : ∃ p,
  getParamsForPRComment alert owner repo sha number (with_row row err params) meta = Ok p ∧
  pp_Owner p = owner ∧ pp_Repo p = repo ∧ pp_Number p = number ∧ pp_RuleName p = name ∧
  pp_Comment p = review_text err ∧ pp_prevStatus p = row.
Proof using Hrule Hnumber.
  destruct Hrule as [_ _ _ Ht Hr]. unfold getParamsForPRComment.
  destruct (Z.ltb_spec Strconv.int64_max number); [lia|]. rewrite Ht. cbn.
  rewrite Hr. cbn. eexists. split_and!; reflexivity.
Qed.

(** An evaluation runs the alert with the command decided. *)
Lemma evaluate_run row err w : evaluated err → ∃ p ty,
  pp_Owner p = owner ∧ pp_Repo p = repo ∧ pp_Number p = number ∧ pp_RuleName p = name ∧
  pp_Comment p = review_text err ∧ pp_prevStatus p = row ∧
  evaluate rae ent params row err w =
    match run now alert p
            (shouldAlert (prev_of_row row) (mapEvalStatus err) (Some ErrActionSkipped) ty) w with
    | (w', Ok r) => (w', Ok (Some (stored_row (set_alert getDefaultResult r))))
    | (w', Err e) => (w', Ok (Some (stored_row (set_alert getDefaultResult (None, Some e)))))
    | (w', Panic _) => (w', Ok (Some (stored_row (set_alert getDefaultResult (None, Some ErrInternal)))))
    end.
Proof using Hrule Hnumber.
  intros [H1 H2]. pose proof Hrule as [(rem & Hr & Hoff) Hal Hon _ _].
  destruct (getParams_run row err (getAlertMeta (prev_of_row row))) as (p & Hp & Hrest).
  destruct Hrest as (?&?&?&?&?&?). exists p, (act_Type rem). do 6 (split; [done|]).
  rewrite (evaluate_alert rae rem (action now alert) Hr Hoff Hal); [|cbn; rewrite Hon; left|done..].
  unfold processAction. rewrite Hal. cbn [act_Do action]. unfold Do. cbn [ent].
  rewrite Hp, Hon. rewrite bool_decide_eq_true_2 by done.
  by destruct (run now alert p _ w) as [w' [r|e|m]].
Qed.

(** The reviews of the others, and that of the rule. *)
Definition own_review (base : list PullRequestReview) (s : review_state) (w : W) : Prop :=
  ∃ own, reviews w = (base ++ own)%list ∧ NoDup (rv_ID <$> reviews w) ∧
    (λ r, (rv_Body r, rv_Dismissed r)) <$> own = option_list (rs_review s) ∧
    Forall (λ r, marked name r = true) own.

Definition follows (base : list PullRequestReview) (s : review_state)
    (row : option ListRuleEvaluationsByProfileIdRow) (w : W) : Prop :=
  own_review base s w ∧
  (alert_status row = AlertStatusOn ↔ rs_on s = true) ∧
  (rs_on s = false → from_option snd true (rs_review s) = true).

Context (base : list PullRequestReview) (Hbase : (length base < 30)%nat)
  (Hothers : Forall (λ r, marked name r = false) base).

Lemma find_own s w p : own_review base s w →
  pp_Owner p = owner → pp_Repo p = repo → pp_Number p = number → pp_RuleName p = name →
  match rs_review s with
  | None => findExistingReview alert p w = (w, Ok None) ∧ reviews w = base
  | Some (body, d) => ∃ r, findExistingReview alert p w = (w, Ok (Some r)) ∧
      reviews w = (base ++ [r])%list ∧ (rv_ID r ∉ (rv_ID <$> base)) ∧
      rv_Body r = body ∧ rv_Dismissed r = d
  end.
Proof using Hgh Hbase Hothers.
  intros (own & Hw & Hnd & Hown & Hm) Ho Hr Hn Hname. unfold findExistingReview.
  unfold mbind, prog_bind. rewrite Ho, Hr, Hn, Hname, (list_first_page _ _ _ _ _ Hgh).
  cbn [mret prog_ret]. destruct (rs_review s) as [[body d]|].
  - destruct own as [|r [|r' own]]; [done| |done]. cbn in Hown.
    injection Hown as H1 H2. apply Forall_cons in Hm as [Hmr _].
    rewrite Hw in *. rewrite take_ge by (rewrite length_app; cbn; lia).
    rewrite find_last by done. exists r. split_and!; [done..| |done|done].
    rewrite fmap_app in Hnd. apply NoDup_app in Hnd as (_ & Hd & _).
    intros Hin. apply (Hd _ Hin). by left.
  - destruct own; [|done]. rewrite Hw, app_nil_r, take_ge by lia.
    by rewrite find_none by done.
Qed.

(** A failure while the alert is not on writes the review. *)
Lemma run_on_writes s w p : own_review base s w →
  pp_Owner p = owner → pp_Repo p = repo → pp_Number p = number → pp_RuleName p = name →
  (∃ c, pp_Comment p = comment_text c name) →
  ∃ w' meta, run_on now alert p w = (w', Ok (meta, None)) ∧
    own_review base {| rs_on := true;
                       rs_review := Some (pp_Comment p, from_option snd false (rs_review s)) |} w'.
Proof using Hgh Hbase Hothers.
  intros Hown Ho Hr Hn Hname [c Hc]. pose proof (find_own s w p Hown Ho Hr Hn Hname) as Hfind.
  destruct Hown as (own & Hw & Hnd & Hrs & Hm).
  unfold run_on. unfold mbind at 1, prog_bind, try at 1. destruct (rs_review s) as [[body d]|].
  - destruct Hfind as (r & -> & Hrev & Hid & _ & Hd). rewrite Ho, Hr, Hn.
    destruct (update_sets_body _ _ _ _ _ Hgh w (rv_ID r) (pp_Comment p)) as (w' & Hup & Hw').
    { rewrite Hrev, fmap_app. apply elem_of_app. right. by left. }
    unfold mbind, prog_bind, try. rewrite Hup. do 2 eexists. split; [reflexivity|].
    rewrite Hrev, fmap_app in Hw'. rewrite at_id_others in Hw' by done.
    change (at_id (rv_ID r) (with_body (pp_Comment p)) <$> [r])
      with [at_id (rv_ID r) (with_body (pp_Comment p)) r] in Hw'. rewrite at_id_self in Hw'.
    exists [with_body (pp_Comment p) r]. split_and!; [done| |cbn; by rewrite Hd|].
    + rewrite Hw'. rewrite Hrev in Hnd. rewrite fmap_app in *. exact Hnd.
    + repeat constructor. by apply (marked_text name c).
  - destruct Hfind as [-> Hrev]. rewrite Ho, Hr, Hn.
    destruct (create_appends _ _ _ _ _ Hgh w (pp_Comment p) (pp_Event p))
      as (w' & r & Hcr & Hb & Hd & Hfresh & Hw').
    unfold mbind, prog_bind, try. rewrite Hcr. do 2 eexists. split; [reflexivity|].
    rewrite Hrev in *. exists [r]. split_and!; [done| |cbn; by rewrite Hb, Hd|].
    + rewrite Hw', fmap_app. apply NoDup_app. split_and!; [done| |apply NoDup_singleton].
      intros i Hi ->%list_elem_of_singleton. done.
    + repeat constructor. apply (marked_text name c). by rewrite Hb.
Qed.

(** Switched off, the alert dismisses a review that stands. *)
Lemma run_off_dismisses s w p : own_review base s w →
  pp_Owner p = owner → pp_Repo p = repo → pp_Number p = number → pp_RuleName p = name →
  ∃ w' r, run_off alert p w = (w', Ok (None, Some r)) ∧
    own_review base (review_step (λ _, "") s None) w'.
Proof using Hgh Hbase Hothers.
  intros Hown Ho Hr Hn Hname. pose proof (find_own s w p Hown Ho Hr Hn Hname) as Hfind.
  pose proof Hown as (own & Hw & Hnd & Hrs & Hm).
  unfold run_off. unfold mbind at 1, prog_bind, try at 1.
  destruct (rs_review s) as [[body [|]]|] eqn:Hs.
  - destruct Hfind as (r & -> & Hrev & Hid & Hb & Hd). rewrite Ho, Hr, Hn.
    destruct (dismissed_stays _ _ _ _ _ Hgh w r "Dismissed due to alert being turned off")
      as (a & Ha & Hnp); [done|rewrite Hrev; apply elem_of_app; right; by left|done|].
    unfold mbind, prog_bind, try. rewrite Ha.
    assert (Hsame : own_review base (review_step (λ _, "") s None) w)
      by (exists own; cbn; by rewrite Hs).
    destruct a as [[]|e|m]; [by do 2 eexists| |by destruct (Hnp m)].
    case_goal; by do 2 eexists.
  - destruct Hfind as (r & -> & Hrev & Hid & Hb & Hd). rewrite Ho, Hr, Hn.
    destruct (dismiss_dismisses _ _ _ _ _ Hgh w (rv_ID r) "Dismissed due to alert being turned off")
      as (w' & Hdis & Hw').
    { exists r. split_and!; [rewrite Hrev; apply elem_of_app; right; by left|done..]. }
    unfold mbind, prog_bind, try. rewrite Hdis. do 2 eexists. split; [reflexivity|].
    rewrite Hrev, fmap_app in Hw'. rewrite at_id_others in Hw' by done.
    change (at_id (rv_ID r) dismissed <$> [r]) with [at_id (rv_ID r) dismissed r] in Hw'.
    rewrite at_id_self in Hw'. exists [dismissed r]. cbn. rewrite Hs. split_and!; [done| |cbn; by rewrite Hb|].
    + rewrite Hw'. rewrite Hrev in Hnd. rewrite fmap_app in *. exact Hnd.
    + destruct own as [|r' [|]]; [done| |done]. apply Forall_cons in Hm as [Hm _].
      rewrite Hw in Hrev. apply app_inj_1 in Hrev as [_ [= ->]]; [|done]. by repeat constructor.
  - destruct Hfind as [-> Hrev]. do 2 eexists. split; [reflexivity|]. exists own. cbn. by rewrite Hs.
Qed.

(** One evaluation is one step of the machine. *)
Lemma evaluate_follows s row w err : evaluated err → follows base s row w → ∃ row' w',
  evaluate rae ent params row err w = (w', Ok (Some row')) ∧
  follows base (review_step (λ e, review_text (Some e)) s err) (Some row') w'.
Proof using Hrule Hnumber Hgh Hbase Hothers.
  intros He (Hown & Hon & Hoff).
  destruct (evaluate_run row err w He) as (p & ty & Ho & Hr & Hn & Hname & Hc & Hprev & ->).
  destruct err as [e|].
  - rewrite failure_command by done. destruct (rs_on s) eqn:Hs.
    + rewrite bool_decide_eq_true_2 by tauto. cbn [review_step]. rewrite Hs.
      unfold run. cbn [String.eqb ActionCmdDoNothing ActionCmdOn]. unfold runDoNothing.
      do 2 eexists. split; [reflexivity|]. rewrite Hprev. destruct row as [row|]; [|naive_solver].
      unfold AlertStatusAsError. rewrite bool_decide_eq_true_2 by (by apply Hon).
      split_and!; [done|done|by rewrite Hs].
    + rewrite bool_decide_eq_false_2 by naive_solver. cbn [review_step]. rewrite Hs.
      destruct (run_on_writes s w p Hown Ho Hr Hn Hname) as (w' & meta & Hrun & Hown').
      { rewrite Hc. by eexists. }
      unfold run. rewrite String.eqb_refl, Hrun. do 2 eexists. split; [reflexivity|].
      rewrite Hc in Hown'. by split_and!.
  - rewrite success_command. destruct (decide (alert_status row = AlertStatusOff)) as [Hst|Hst].
    + rewrite bool_decide_eq_true_2 by done. unfold run. do 2 eexists. split; [reflexivity|].
      destruct row as [row|]; [|done]. cbn in Hst, Hon.
      assert (Hs : rs_on s = false) by (destruct (rs_on s); [|done]; rewrite Hst in Hon; naive_solver).
      unfold runDoNothing, AlertStatusAsError. rewrite Hprev, Hst.
      specialize (Hoff Hs). destruct s as [on [[body d]|]]; cbn in Hs, Hoff; subst on;
        [subst d|]; (split_and!; [exact Hown|split; [vm_compute; discriminate|done]|done]).
    + rewrite bool_decide_eq_false_2 by done.
      destruct (run_off_dismisses s w p Hown Ho Hr Hn Hname) as (w' & e & Hrun & Hown').
      unfold run. change (String.eqb ActionCmdOff ActionCmdOn) with false.
      rewrite String.eqb_refl, Hrun. do 2 eexists. split; [reflexivity|].
      split_and!; [done| |intros _; cbn; by destruct (rs_review s)].
      split; [by intros ?%error_not_on|done].
Qed.
End lifecycle.


(** ** Examples *)

(** A pull request is the list of its reviews; a new one is numbered after the
    highest number. *)
Definition next_id (w : list PullRequestReview) : Z :=
  (1 + foldr Z.max 0 (rv_ID <$> w))%Z.

Definition fake_reviews : ReviewPublisher (list PullRequestReview) :=
  {| ListReviews := λ _ _ _ w, (w, Ok (take 30 w));
     CreateReview := λ _ _ _ body _ w,
       let r := {| rv_ID := next_id w; rv_Body := body; rv_HTMLURL := Some "url";
                   rv_Dismissed := false |} in
       ((w ++ [r])%list, Ok r);
     UpdateReview := λ _ _ _ id body w,
       if bool_decide (id ∈ (rv_ID <$> w)) then (at_id id (with_body body) <$> w, Ok tt)
       else (w, Err ErrNotFound);
     DismissReview := λ _ _ _ id _ w,
       if existsb (λ r, (rv_ID r =? id)%Z && negb (rv_Dismissed r)) w
       then (at_id id dismissed <$> w, Ok tt) else (w, Err (EText "already dismissed")) |}.

Lemma next_id_fresh w : next_id w ∉ (rv_ID <$> w).
Proof.
  assert (Hle : ∀ i, i ∈ (rv_ID <$> w) → (i ≤ foldr Z.max 0 (rv_ID <$> w))%Z).
  { induction (rv_ID <$> w) as [|j l IH]; [by intros i ?%elem_of_nil|].
    intros i [->|Hi%IH]%elem_of_cons; cbn; lia. }
  unfold next_id. intros Hi%Hle. lia.
Qed.

Lemma same_review l r r' :
  NoDup (rv_ID <$> l) → r ∈ l → r' ∈ l → rv_ID r' = rv_ID r → r' = r.
Proof.
  induction l as [|x l IH]; [by intros _ ?%elem_of_nil|].
  intros [Hx Hl]%NoDup_cons Hr Hr' Hid.
  apply elem_of_cons in Hr as [->|Hr], Hr' as [->|Hr']; [done|exfalso..|by apply IH];
    apply Hx, list_elem_of_fmap; [by exists r'|by exists r].
Qed.

Lemma fake_keeps_reviews owner repo number :
  KeepsReviews fake_reviews owner repo number (λ w, w).
Proof.
  split; cbn.
  - done.
  - intros w body event. do 2 eexists. split; [reflexivity|]. cbn.
    split_and!; [done..| |done]. apply next_id_fresh.
  - intros w id body Hid. rewrite bool_decide_eq_true_2 by done. by eexists.
  - intros w id _ (r & Hr & <- & Hd).
    assert (He : existsb (λ r', (rv_ID r' =? rv_ID r)%Z && negb (rv_Dismissed r')) w = true).
    { apply existsb_exists. exists r. split; [by apply list_elem_of_In|].
      by rewrite Z.eqb_refl, Hd. }
    rewrite He. by eexists.
  - intros w r _ Hnd Hr Hd.
    destruct (existsb (λ r', (rv_ID r' =? rv_ID r)%Z && negb (rv_Dismissed r')) w) eqn:He;
      [|by eexists].
    exfalso. apply existsb_exists in He as (r' & Hr'%list_elem_of_In & Hb).
    apply andb_true_iff in Hb as [Hid%Z.eqb_eq Hd'].
    assert (r' = r) as -> by (by eapply same_review).
    by rewrite Hd in Hd'.
Qed.

Definition ex_pr_alert (cfg : ReviewCfg) (gh : ReviewPublisher (list PullRequestReview)) : Alert :=
  {| actionType := alert_ActionType; gh := gh; reviewCfg := cfg; setting := ActionOptOn |}.

Definition no_now (w : list PullRequestReview) : Z := 0.

(** A positive number as a text of bits, for a JSON of the metadata. *)
Fixpoint bits_of (p : positive) : string :=
  match p with
  | xH => ""
  | xO p => String "0"%char (bits_of p)
  | xI p => String "1"%char (bits_of p)
  end.

Fixpoint of_bits (s : string) : positive :=
  match s with
  | EmptyString => xH
  | String c s => if Ascii.eqb c "0"%char then xO (of_bits s) else xI (of_bits s)
  end.

Lemma of_bits_of p : of_bits (bits_of p) = p.
Proof. induction p as [p IH|p IH|]; [|..|done]; cbn; f_equal; exact IH. Qed.

Definition review_json : MetadataJSON.
Proof.
  refine {|
    marshal_review := λ m, bits_of (encode (am_ReviewID m, am_SubmittedAt m, am_PullRequestUrl m));
    unmarshal_review := λ s,
      '(id, at_, url) ← decode (of_bits s);
      Some {| am_ReviewID := id; am_SubmittedAt := at_; am_PullRequestUrl := url |} |}.
  intros [id at_ url]. cbn [am_ReviewID am_SubmittedAt am_PullRequestUrl].
  rewrite of_bits_of, decode_encode. reflexivity.
Defined.

Definition ex_templates : TextTemplates PrCommentTemplateParams :=
  {| tmpl := string; tmpl_Parse := Ok; html_tmpl_Parse := Ok;
     tmpl_Execute := λ t d, ([t], None) |}.

Definition ex_off : Action (list PullRequestReview) ProtoEntity :=
  {| act_Class := remediate_ActionType; act_Type := "noop"; act_GetOnOffState := ActionOptOff;
     act_Do := λ _ _ _ _, mret (None, Some (not_available remediate_ActionType)) |}.

Definition ex_commented (gh : ReviewPublisher (list PullRequestReview))
    : RuleActionsEngine (list PullRequestReview) ProtoEntity :=
  {| rae_actions :=
       <[alert_ActionType := @action _ no_now echo_engine ex_templates review_json
           (ex_pr_alert {| cfg_ReviewMessage := "fix"; cfg_Action := "request_changes" |} gh)]>
         {[remediate_ActionType := ex_off]} |}.

Definition ex_run (gh : ReviewPublisher (list PullRequestReview)) errs w :=
  evaluations (ex_commented gh) (PbPullRequest "acme" "app" "sha" 7) (ex_params ex_cfg None None)
    None errs w.

Definition ex_fails (s : string) : error := Some (NewErrEvaluationFailed s).

Definition ex_other (id : Z) (body : string) : PullRequestReview :=
  {| rv_ID := id; rv_Body := body; rv_HTMLURL := None; rv_Dismissed := false |}.

Lemma ex_commented_rule :
  @commented_rule _ no_now echo_engine ex_templates review_json (ex_commented fake_reviews)
    (ex_pr_alert {| cfg_ReviewMessage := "fix"; cfg_Action := "request_changes" |} fake_reviews)
    {| st_t := "fix" : @tmpl _ ex_templates |} (λ _, "fix").
Proof.
  split.
  - exists ex_off. split; [|reflexivity]. unfold ex_commented. cbn [rae_actions].
    rewrite lookup_insert_ne by done. apply lookup_singleton_eq.
  - apply lookup_insert_eq.
  - reflexivity.
  - reflexivity.
  - intros d. reflexivity.
Qed.


(** Of more than thirty reviews the alert sees only the first page: success
    finds no review to dismiss, and each failure writes another one. *)
Example second_page_unseen :
  let w := (λ id, ex_other (Z.of_nat id) "lgtm") <$> seq 1 30 in
  (λ r, (rv_ID r, rv_Dismissed r)) <$>
    drop 30 (ex_run fake_reviews [ex_fails "a"; None; ex_fails "b"] w).1 =
    [(31%Z, false); (32%Z, false)].
Proof. vm_compute. reflexivity. Qed.

(** A provider that refuses to change what others wrote. *)
Definition guarded_reviews (mine : Z → bool) : ReviewPublisher (list PullRequestReview) :=
  {| ListReviews := ListReviews fake_reviews; CreateReview := CreateReview fake_reviews;
     UpdateReview := λ owner repo n id body,
       if mine id then UpdateReview fake_reviews owner repo n id body
       else throw (EText "403 forbidden");
     DismissReview := DismissReview fake_reviews |}.

(** Whoever writes the comment of the rule into a review of their own keeps the
    alert from being raised: it is their review that it tries to write anew. *)
Example forged_comment_blocks_alert :
  let w := [ex_other 1 (magicComment "r")] in
  (ex_run (guarded_reviews (λ id, negb (id =? 1)%Z)) [ex_fails "a"] w).1 = w ∧
  match (ex_run (guarded_reviews (λ id, negb (id =? 1)%Z)) [ex_fails "a"] w).2 with
  | Ok row => alert_status row = AlertStatusTypesError
  | _ => False
  end.
Proof. vm_compute. split; reflexivity. Qed.

(** The limit is that of the provider and is checked before the comment of the
    rule is added. *)
Lemma comment_over_limit c name :
  (len (comment_text c name) = len c + 24 + len name)%Z.
Proof.
  unfold comment_text.
  change (String Text.newline (String Text.newline (magicComment name)))
    with (String Text.newline (String Text.newline "<!-- minder-rule: ") +:+ (name +:+ " -->")).
  rewrite !len_app. change (len (String Text.newline _)) with 20%Z. change (len " -->") with 4%Z. lia.
Qed.
