(* ===== verification/GhBranchProtect.v ===== *)
(** * The branch protection remediation

    internal/engine/actions/remediate/gh_branch_protect/gh_branch_protect.go: the
    protection a branch has is read, turned into a request, patched as the rule
    says and sent back.  The two calls of the provider, jq, the patch of JSON
    documents and the JSON of a request are parameters. *)

From S2P Require Import Prelude GoErrors GoMonad GoStrings EngineErrors DbTypes.
From S2P Require Import StatusAdapter Uuid ProfileModels Actions Reevaluation SafeTemplate.
Local Open Scope string_scope.

Definition RemediateType_gh_branch_protection : string := "gh_branch_protection".
Definition PatchTemplateLimit : Z := 2048.

Definition ErrNoValueFound : gerr := ENew "util.ErrNoValueFound" "evaluation error".
Definition ErrBranchNotProtected : gerr :=
  ENew "github.ErrBranchNotProtected" "branch is not protected".
Definition ErrBranchNotFound : gerr := ENew "github.ErrBranchNotFound" "branch not found".

(** ** What the provider says of a branch *)

(** Of users only the login is read, of teams and apps the slug. *)
Record User := { u_Login : option string }.
Record Slugged := { s_Slug : option string }.

Definition GetLogin (u : option User) : string := default "" (u ≫= u_Login).
Definition GetSlug (s : option Slugged) : string := default "" (s ≫= s_Slug).

(** Users, teams and apps. *)
Record Actors := {
  a_Users : list (option User); a_Teams : list (option Slugged); a_Apps : list (option Slugged);
}.

Record PullRequestReviewsEnforcement := {
  re_BypassPullRequestAllowances : option Actors;
  re_DismissalRestrictions : option Actors;
  re_DismissStaleReviews : bool;
  re_RequireCodeOwnerReviews : bool;
  re_RequiredApprovingReviewCount : Z;
  re_RequireLastPushApproval : bool;
}.

(** [sc_Rest] is what is passed on unread. *)
Record RequiredStatusChecks := {
  sc_Contexts : option (list string); sc_Checks : option (list any); sc_Rest : any;
}.

(** A switch is a nil pointer or whether it is enabled; whether force pushes,
    deletions, linear history and resolved conversations are asked for, too. *)
Record Protection := {
  p_RequiredStatusChecks : option RequiredStatusChecks;
  p_RequiredPullRequestReviews : option PullRequestReviewsEnforcement;
  p_Restrictions : option Actors;
  p_EnforceAdmins : option bool;
  p_AllowForkSyncing : option (option bool);
  p_LockBranch : option (option bool);
  p_BlockCreations : option (option bool);
  p_RequiredConversationResolution : option bool;
  p_AllowDeletions : option bool;
  p_AllowForcePushes : option bool;
  p_RequireLinearHistory : option bool;
}.

(** ** What is asked for *)

Record ActorsRequest := { ar_Users : list string; ar_Teams : list string; ar_Apps : list string }.

Record PullRequestReviewsEnforcementRequest := {
  rr_BypassPullRequestAllowances : option ActorsRequest;
  rr_DismissalRestrictions : option ActorsRequest;
  rr_DismissStaleReviews : bool;
  rr_RequireCodeOwnerReviews : bool;
  rr_RequiredApprovingReviewCount : Z;
  rr_RequireLastPushApproval : option bool;
}.

Record ProtectionRequest := {
  q_RequiredStatusChecks : option RequiredStatusChecks;
  q_RequiredPullRequestReviews : option PullRequestReviewsEnforcementRequest;
  q_Restrictions : option ActorsRequest;
  q_EnforceAdmins : bool;
  q_AllowForkSyncing : option bool;
  q_LockBranch : option bool;
  q_BlockCreations : option bool;
  q_RequiredConversationResolution : option bool;
  q_AllowDeletions : option bool;
  q_AllowForcePushes : option bool;
  q_RequireLinearHistory : option bool;
}.

Definition userSliceToStringSlice (users : list (option User)) : list string := GetLogin <$> users.
Definition sluggerSliceToStringSlice (items : list (option Slugged)) : list string :=
  GetSlug <$> items.

(** The apps are those of the teams. *)
Definition branchRestrictionResponseToRequest (res : option Actors) : option ActorsRequest :=
  match res with
  | None => None
  | Some res =>
      Some {| ar_Users := userSliceToStringSlice (a_Users res);
              ar_Teams := sluggerSliceToStringSlice (a_Teams res);
              ar_Apps := sluggerSliceToStringSlice (a_Teams res) |}
  end.

Definition actors_request (res : Actors) : ActorsRequest :=
  {| ar_Users := userSliceToStringSlice (a_Users res);
     ar_Teams := sluggerSliceToStringSlice (a_Teams res);
     ar_Apps := sluggerSliceToStringSlice (a_Apps res) |}.

Definition pullRequestReviewsResponseToRequest (res : option PullRequestReviewsEnforcement)
    : option PullRequestReviewsEnforcementRequest :=
  match res with
  | None => None
  | Some res =>
      Some {| rr_BypassPullRequestAllowances :=
                actors_request <$> re_BypassPullRequestAllowances res;
              rr_DismissalRestrictions := actors_request <$> re_DismissalRestrictions res;
              rr_DismissStaleReviews := re_DismissStaleReviews res;
              rr_RequireCodeOwnerReviews := re_RequireCodeOwnerReviews res;
              rr_RequiredApprovingReviewCount := re_RequiredApprovingReviewCount res;
              rr_RequireLastPushApproval := Some (re_RequireLastPushApproval res) |}
  end.

(** The deprecated contexts are left out when there are checks. *)
Definition without_contexts (checks : RequiredStatusChecks) : RequiredStatusChecks :=
  match sc_Checks checks, sc_Contexts checks with
  | Some _, Some (_ :: _) =>
      {| sc_Contexts := None; sc_Checks := sc_Checks checks; sc_Rest := sc_Rest checks |}
  | _, _ => checks
  end.

Definition protectionResultToRequest (res : Protection) : ProtectionRequest :=
  {| q_RequiredStatusChecks := without_contexts <$> p_RequiredStatusChecks res;
     q_RequiredPullRequestReviews :=
       pullRequestReviewsResponseToRequest (p_RequiredPullRequestReviews res);
     q_Restrictions := branchRestrictionResponseToRequest (p_Restrictions res);
     q_EnforceAdmins := default false (p_EnforceAdmins res);
     q_AllowForkSyncing := default None (p_AllowForkSyncing res);
     q_LockBranch := default None (p_LockBranch res);
     q_BlockCreations := default None (p_BlockCreations res);
     q_RequiredConversationResolution := p_RequiredConversationResolution res;
     q_AllowDeletions := p_AllowDeletions res;
     q_AllowForcePushes := p_AllowForcePushes res;
     q_RequireLinearHistory := p_RequireLinearHistory res |}.

(** ** The remediation *)

Record BranchProtections (W : Type) := {
  GetBranchProtection : string → string → string → prog W Protection;
  UpdateBranchProtection : string → string → string → ProtectionRequest → prog W unit;
  bp_GetBaseURL : string;
}.
Arguments GetBranchProtection {W} _ _ _ _ _.
Arguments UpdateBranchProtection {W} _ _ _ _ _ _.
Arguments bp_GetBaseURL {W} _.

(** [json.Marshal] and [json.Unmarshal] of a request, and the merge patch of RFC
    7386: an empty object changes nothing. *)
Class ProtectionJSON := {
  marshal_request : ProtectionRequest → res string;
  unmarshal_request : string → res ProtectionRequest;
  MergePatch : string → string → res string;
  unmarshal_marshal_request : ∀ q s, marshal_request q = Ok s → unmarshal_request s = Ok q;
  MergePatch_empty : ∀ q s, marshal_request q = Ok s → MergePatch s "{}" = Ok s;
}.

Record PatchTemplateParams := {
  ptp_Entity : ProtoEntity; ptp_Profile : option any; ptp_Params : option any;
}.

Module branch_protection.
Section remediator.
Context {W : Type} (url_join : string → string → res string).
Context `{TT : TextTemplates PatchTemplateParams} `{ProtectionJSON}.
(** [util.JQReadFrom[string]] of the path [.branch]. *)
Context (JQReadFrom_branch : option any → res string).

Record GhBranchProtectRemediator := {
  actionType : ActionType;
  cli : BranchProtections W;
  patchTemplate : SafeTemplate PatchTemplateParams;
  setting : ActionOpt;
}.

Definition NewGhBranchProtectRemediator (actionType : ActionType) (patch : string)
    (cli : BranchProtections W) (setting : ActionOpt) : res GhBranchProtectRemediator :=
  if String.eqb actionType "" then Err (EText "action type cannot be empty")
  else
    patchTemplate ← wrapf_res "cannot parse patch template: " (NewSafeTextTemplate (Some patch));
    Ok {| actionType := actionType; cli := cli; patchTemplate := patchTemplate;
          setting := setting |}.

Definition patchRequest (req : ProtectionRequest) (patch : string) : res ProtectionRequest :=
  jReq ← wrapf_res "error marshalling request: " (marshal_request req);
  mergedBytes ← wrapf_res "error merging patch: " (MergePatch jReq patch);
  wrapf_res "error unmarshalling merged request: " (unmarshal_request mergedBytes).

Definition dryRun (baseUrl owner repo branch : string) (req : ProtectionRequest) : res unit :=
  jsonReq ← wrapf_res "error marshalling data: " (marshal_request req);
  let endpoint := "repos/" +:+ owner +:+ "/" +:+ repo +:+ "/branches/" +:+ branch +:+
                  "/protection" in
  _ ← wrapf_res "cannot generate curl command: "
        (GenerateCurlCommand url_join "PUT" baseUrl endpoint jsonReq);
  Ok tt.

(** The branch of the parameters, or else the default branch. *)
Definition the_branch (defaultBranch : string) (params : option any) : res string :=
  branch ← match JQReadFrom_branch params with
           | Err e => if is_in e ErrNoValueFound then Ok ""
                      else Err (EWrap "error reading branch from params: " e "")
           | r => r
           end;
  let branch := if String.eqb branch "" then defaultBranch else branch in
  if String.eqb branch "" then
    Err (EWrap "both rule param branch name and repo default branch are empty: "
           ErrActionSkipped "")
  else Ok branch.

Definition no_protection : Protection :=
  {| p_RequiredStatusChecks := None; p_RequiredPullRequestReviews := None;
     p_Restrictions := None; p_EnforceAdmins := None; p_AllowForkSyncing := None;
     p_LockBranch := None; p_BlockCreations := None; p_RequiredConversationResolution := None;
     p_AllowDeletions := None; p_AllowForcePushes := None; p_RequireLinearHistory := None |}.

Definition current_protection (r : GhBranchProtectRemediator) (owner repo branch : string)
    : prog W Protection :=
  res ← try (GetBranchProtection (cli r) owner repo branch);
  match res with
  | inl res => mret res
  | inr err =>
      if is_in err ErrBranchNotProtected then mret no_protection
      else if is_in err ErrBranchNotFound then
        throw (EWrap ("branch " +:+ branch +:+ " not found: ") ErrActionSkipped "")
      else throw (EWrap "error getting branch protection: " err "")
  end.

Definition Do_body (r : GhBranchProtectRemediator) (ent : ProtoEntity) (params : EvalStatusParams)
    : prog W unit :=
  match ent with
  | PbRepository owner name defaultBranch =>
      branch ← lift (the_branch defaultBranch (ri_Params (esp_Rule params)));
      res ← current_protection r owner name branch;
      let req := protectionResultToRequest res in
      patch ← wrapf "cannot execute endpoint template: "
        (lift (Render (patchTemplate r)
           {| ptp_Entity := ent; ptp_Profile := ri_Def (esp_Rule params);
              ptp_Params := ri_Params (esp_Rule params) |} PatchTemplateLimit));
      updatedRequest ← wrapf "error patching request: " (lift (patchRequest req patch));
      let s := setting r in
      if bool_decide (s = ActionOptOn) then
        UpdateBranchProtection (cli r) owner name branch updatedRequest
      else if bool_decide (s = ActionOptDryRun) then
        lift (dryRun (bp_GetBaseURL (cli r)) owner name branch updatedRequest)
      else if bool_decide (s = ActionOptOff) || bool_decide (s = ActionOptUnknown)
      then throw (EText "unexpected action")
      else mret tt
  | _ => throw (EText "expected repository")
  end.

(** Every path returns a nil metadata. *)
Definition Do (r : GhBranchProtectRemediator) (cmd : ActionCmd) (ent : ProtoEntity)
    (params : EvalStatusParams) (_ : option (option string)) : prog W (option string * error) :=
  if negb (String.eqb cmd ActionCmdOn) then mret (None, Some ErrActionSkipped)
  else
    x ← try (Do_body r ent params);
    mret (None, match x with inl _ => None | inr e => Some e end).

Definition action (r : GhBranchProtectRemediator) : Action W ProtoEntity :=
  {| act_Class := actionType r;
     act_Type := RemediateType_gh_branch_protection;
     act_GetOnOffState := ActionOptOrDefault (setting r) ActionOptOff;
     act_Do := Do r |}.
End remediator.
End branch_protection.

(** ** What an empty patch asks for *)

Import branch_protection.

(** The settings of a protection, but for who may push when pushes are
    restricted. *)
Definition same_settings (p : Protection) (q : ProtectionRequest) : Prop :=
  (∀ c, p_RequiredStatusChecks p = Some c → ∃ c', q_RequiredStatusChecks q = Some c' ∧
     sc_Checks c' = sc_Checks c ∧ sc_Rest c' = sc_Rest c ∧
     (sc_Checks c = None → sc_Contexts c' = sc_Contexts c)) ∧
  (∀ r, p_RequiredPullRequestReviews p = Some r → ∃ r', q_RequiredPullRequestReviews q = Some r' ∧
     rr_DismissStaleReviews r' = re_DismissStaleReviews r ∧
     rr_RequireCodeOwnerReviews r' = re_RequireCodeOwnerReviews r ∧
     rr_RequiredApprovingReviewCount r' = re_RequiredApprovingReviewCount r ∧
     rr_RequireLastPushApproval r' = Some (re_RequireLastPushApproval r) ∧
     rr_BypassPullRequestAllowances r' = actors_request <$> re_BypassPullRequestAllowances r ∧
     rr_DismissalRestrictions r' = actors_request <$> re_DismissalRestrictions r) ∧
  (is_Some (q_RequiredStatusChecks q) ↔ is_Some (p_RequiredStatusChecks p)) ∧
  (is_Some (q_RequiredPullRequestReviews q) ↔ is_Some (p_RequiredPullRequestReviews p)) ∧
  (is_Some (q_Restrictions q) ↔ is_Some (p_Restrictions p)) ∧
  q_EnforceAdmins q = default false (p_EnforceAdmins p) ∧
  q_AllowForkSyncing q = mjoin (p_AllowForkSyncing p) ∧
  q_LockBranch q = mjoin (p_LockBranch p) ∧
  q_BlockCreations q = mjoin (p_BlockCreations p) ∧
  q_RequiredConversationResolution q = p_RequiredConversationResolution p ∧
  q_AllowDeletions q = p_AllowDeletions p ∧
  q_AllowForcePushes q = p_AllowForcePushes p ∧
  q_RequireLinearHistory q = p_RequireLinearHistory p.

Lemma request_keeps_settings p : same_settings p (protectionResultToRequest p).
Proof.
  unfold same_settings, protectionResultToRequest. cbn. split_and!.
  - intros c ->. eexists. split; [reflexivity|]. unfold without_contexts.
    destruct (sc_Checks c) eqn:Hc; [|by rewrite Hc].
    destruct (sc_Contexts c) as [[|]|]; cbn; by rewrite ?Hc.
  - intros r ->. eexists. by split_and!.
  - apply fmap_is_Some.
  - destruct (p_RequiredPullRequestReviews p); cbn; split; intros [? [=]]; eauto.
  - destruct (p_Restrictions p); cbn; split; intros [? [=]]; eauto.
  - done.
  - by destruct (p_AllowForkSyncing p).
  - by destruct (p_LockBranch p).
  - by destruct (p_BlockCreations p).
  - done.
  - done.
  - done.
  - done.
Qed.

(** A patch that asks for nothing changes nothing but who may push.  Switched
    on, the remediation of a rule whose patch is empty sends one request: the
    settings the branch has, the users and teams that may push, and as the apps
    that may push the slugs of the teams. *)
Theorem empty_patch_keeps_settings {W} url_join `{TextTemplates PatchTemplateParams}
    `{ProtectionJSON} (branch_of : option any → res string)
    (r : GhBranchProtectRemediator (W := W)) owner name def branch params meta p j w w1 w2
    (Hset : setting r = ActionOptOn)
    (Hbranch : the_branch branch_of def (ri_Params (esp_Rule params)) = Ok branch)
    (Hpatch : ∀ d, Render (patchTemplate r) d PatchTemplateLimit = Ok "{}")
    (Hget : GetBranchProtection (cli r) owner name branch w = (w1, Ok p))
    (Hjson : marshal_request (protectionResultToRequest p) = Ok j)
    (Hput : UpdateBranchProtection (cli r) owner name branch (protectionResultToRequest p) w1
              = (w2, Ok tt)) :
  Do url_join branch_of r ActionCmdOn (PbRepository owner name def) params meta w
    = (w2, Ok (None, None)) ∧
  same_settings p (protectionResultToRequest p) ∧
  ∀ a, p_Restrictions p = Some a → q_Restrictions (protectionResultToRequest p) =
    Some {| ar_Users := GetLogin <$> a_Users a; ar_Teams := GetSlug <$> a_Teams a;
            ar_Apps := GetSlug <$> a_Teams a |}.
Proof.
  split_and!; [|apply request_keeps_settings|by intros a Ha; cbn; rewrite Ha].
  unfold Do. rewrite String.eqb_refl. cbn [negb]. unfold mbind at 1, prog_bind, try at 1.
  assert (Hbody : Do_body url_join branch_of r (PbRepository owner name def) params w = (w2, Ok tt)).
  { unfold Do_body, mbind, prog_bind, lift. rewrite Hbranch.
    unfold current_protection, mbind, prog_bind, try. rewrite Hget. cbn [mret prog_ret].
    unfold wrapf. rewrite Hpatch. cbn [wrapf_res].
    unfold patchRequest. rewrite Hjson. unfold mbind, res_bind. cbn [wrapf_res].
    rewrite (MergePatch_empty _ _ Hjson). cbn [wrapf_res].
    rewrite (unmarshal_marshal_request _ _ Hjson). cbn [wrapf_res].
    by rewrite Hset, bool_decide_eq_true_2. }
  by rewrite Hbody.
Qed.

(** An app that may push is taken off when a rule changes anything of a branch. *)
Example apps_of_restrictions_lost :
  let p := {| p_RequiredStatusChecks := None; p_RequiredPullRequestReviews := None;
     p_Restrictions := Some {| a_Users := []; a_Teams := [Some {| s_Slug := Some "maintainers" |}];
       a_Apps := [Some {| s_Slug := Some "release-bot" |}] |};
     p_EnforceAdmins := None; p_AllowForkSyncing := None;
     p_LockBranch := None; p_BlockCreations := None; p_RequiredConversationResolution := None;
     p_AllowDeletions := None; p_AllowForcePushes := None; p_RequireLinearHistory := None |} in
  q_Restrictions (protectionResultToRequest p) =
    Some {| ar_Users := []; ar_Teams := ["maintainers"]; ar_Apps := ["maintainers"] |}.
Proof. reflexivity. Qed.
