(* ===== verification/ProjectDb.v ===== *)
(** * Projects in the database: statements

    The queries of internal/db/projects.sql.go, entitlements.sql.go and those on
    providers and users that managing projects makes.  Deleting a project takes
    with it, as the migrations declare, its subprojects and the rows of every
    table that refer to one of them, however indirectly; three references have no
    cascade and are checked at the end.  The tables of sessions, bundles and
    subscriptions are not modelled.  Then come the references between the tables,
    which a deletion keeps, and the invariant of the projects. *)

From S2P Require Import Prelude GoErrors GoMonad GoStrings Uuid DbTypes ProfileModels.
From S2P Require Import Database EntityModels HistoryDb HistoryStore EntityDb ProfileDb.
From S2P Require Import DataSourceDb EntityEvent Eea Authz Accounts.
Local Open Scope string_scope.

(** ** What a deletion takes with it *)

(** A reference that may be null. *)
Definition refers_to (reference : option UUID) (ids : gset UUID) : bool :=
  match reference with Some i => bool_decide (i ∈ ids) | None => false end.

Section cascade.
(** The projects and the providers that go. *)
Context (ids pids : gset UUID) (d : Db).

Definition keys_where {V} (P : V → Prop) `{∀ v, Decision (P v)} (t : gmap UUID V) : gset UUID :=
  dom (filter (λ p : UUID * V, P p.2) t).

Definition lost_entities : gset UUID :=
  descendants (size (entity_instances d)) (entity_instances d)
    (keys_where (λ e, ei_ProjectID e ∈ ids ∨ ei_ProviderID e ∈ pids) (entity_instances d)).

Definition lost_profiles : gset UUID := keys_where (λ p, dpr_ProjectID p ∈ ids) (profiles d).

Definition lost_rules : gset UUID :=
  keys_where (λ r, rin_ProjectID r ∈ ids ∨ rin_ProfileID r ∈ lost_profiles) (rule_instances d).

Definition lost_rule_entities : gset UUID :=
  keys_where (λ r, ere_EntityInstanceID r ∈ lost_entities ∨ ere_RuleID r ∈ lost_rules)
    (evaluation_rule_entities d).

Definition lost_rule_types : gset UUID := keys_where (λ t, rty_ProjectID t ∈ ids) (rule_types d).

Definition lost_sources : gset UUID :=
  keys_where (λ s, dso_ProjectID s ∈ ids) (s_sources (sources d)).

(** The reference of an access token is the project and the name of a provider. *)
Definition token_of (t : ProviderAccessToken) (p : Provider) : Prop :=
  prv_ProjectID p = pat_ProjectID t ∧ prv_Name p = pat_Provider t.

#[export] Instance token_of_dec t p : Decision (token_of t p).
Proof. unfold token_of. apply _. Defined.

Definition cascade : Db :=
  let h := drop_rule_entities lost_rule_entities (history d) in
  {| entity_instances := filter (λ p, p.1 ∉ lost_entities) (entity_instances d);
     entity_execution_lock :=
       filter (λ p, (p.1 ∉ lost_entities) ∧ (lk_ProjectID p.2 ∉ ids)) (entity_execution_lock d);
     flush_cache := filter (λ p, (p.1 ∉ lost_entities) ∧ (fc_ProjectID p.2 ∉ ids)) (flush_cache d);
     evaluation_rule_entities := h_entities h;
     evaluation_statuses := h_statuses h;
     latest_evaluation_statuses := filter (λ p, la_ProfileID p.2 ∉ lost_profiles) (h_latest h);
     evaluation_outputs := h_outputs h;
     remediation_events := h_remediations h;
     alert_events := h_alerts h;
     rule_instances := filter (λ p, p.1 ∉ lost_rules) (rule_instances d);
     rule_types := filter (λ p, p.1 ∉ lost_rule_types) (rule_types d);
     profiles := filter (λ p, p.1 ∉ lost_profiles) (profiles d);
     projects := projects d ∖ ids;
     providers := filter (λ p, p.1 ∉ pids) (providers d);
     provider_access_tokens :=
       filter (λ t, map_Forall (λ id p, token_of t.2 p → id ∉ pids) (providers d))
         (provider_access_tokens d);
     properties := filter (λ p, p.1.1 ∉ lost_entities) (properties d);
     entitlements := filter (λ e, e.1 ∉ ids) (entitlements d);
     parent_projects := filter (λ p, (p.1 ∉ ids) ∧ (p.2 ∉ ids)) (parent_projects d);
     entity_profiles := filter (λ p, p.1.1 ∉ lost_profiles) (entity_profiles d);
     profile_selectors := filter (λ s, dps_ProfileID s ∉ lost_profiles) (profile_selectors d);
     organizations := organizations d ∖ ids;
     sources := {|
       s_sources := filter (λ p, p.1 ∉ lost_sources) (s_sources (sources d));
       s_functions := filter (λ p, (dsf_DataSourceID p.2 ∉ lost_sources) ∧
                                     (dsf_ProjectID p.2 ∉ ids)) (s_functions (sources d));
       s_references := filter (λ p, (p.1.1 ∉ lost_rule_types) ∧ (p.2 ∉ ids))
                         (s_references (sources d)) |} |}.

Definition cascade_accounts (a : Accounts) : Accounts :=
  {| ac_users := ac_users a;
     ac_invites := filter (λ p, ui_Project p.2 ∉ ids) (ac_invites a);
     ac_projects := filter (λ p, p.1 ∉ ids) (ac_projects a);
     ac_installs := filter (λ p, refers_to (gi_ProjectID p.2) ids = false ∧
                                 refers_to (gi_ProviderID p.2) pids = false) (ac_installs a) |}.
End cascade.

(** The references without a cascade: of a latest status to a status, of a rule
    instance to its type, and of a rule type to a data source. *)
Definition no_dangling (d : Db) : Prop :=
  latest_refer (history d) ∧
  map_Forall (λ _ r, is_Some (rule_types d !! rin_RuleTypeID r)) (rule_instances d) ∧
  map_Forall (λ k _, is_Some (s_sources (sources d) !! k.2)) (s_references (sources d)).

#[export] Instance no_dangling_dec d : Decision (no_dangling d).
Proof. unfold no_dangling. apply _. Defined.

(** ** The hierarchy *)

Definition children (d : Db) (ids : gset UUID) : gset UUID :=
  ids ∪ keys_where (λ p, p ∈ ids) (parent_projects d).

(** The project and what is below it. *)
Definition tree (d : Db) (id : UUID) : gset UUID :=
  grow (children d) (size (parent_projects d)) {[id]}.

Definition providers_of (d : Db) (ids : gset UUID) : gset UUID :=
  keys_where (λ p, prv_ProjectID p ∈ ids) (providers d).

(** ** Statements *)

(** The names in the table [features], which the migrations fill. *)
Definition features : list string :=
  ["private_repositories_enabled"; "project_hierarchy_operations_enabled"].

Section statements.
Context `{PgText} {X : Type}.
Implicit Types s : AuthState X.

Definition tables (s : AuthState X) : Db := w_db (as_world s).

Definition with_tables (d : Db) (a : Accounts) (s : AuthState X) : AuthState X :=
  with_accounts a (with_world (set_db d (as_world s)) s).

Definition project_at (s : AuthState X) (id : UUID) : option dbProject :=
  row ← ac_projects (as_accounts s) !! id;
  Some {| dp_ID := id; dp_ParentID := parent_projects (tables s) !! id; dp_Row := row |}.

(** *** projects.sql.go *)

Definition GetProject (id : UUID) : prog (AuthState X) dbProject :=
  account_select (λ s,
    match project_at s id with
    | Some row => if bool_decide (id ∈ projects (tables s) ∧ (id ∉ organizations (tables s)))
                  then Ok row else Err ErrNoRows
    | None => Err ErrNoRows
    end).

(** The roots have names of their own, and so have the children of a project. *)
Definition name_taken (s : AuthState X) (parent : option UUID) (name : string) : Prop :=
  map_Exists (λ id row, parent_projects (tables s) !! id = parent ∧
                        same_name (prj_Name row) name) (ac_projects (as_accounts s)).

#[export] Instance name_taken_dec s parent name : Decision (name_taken s parent name).
Proof. unfold name_taken. apply _. Defined.

Definition insert_project (id : UUID) (parent : option UUID) (row : ProjectRow) (s : AuthState X)
    : AuthState X :=
  let d := tables s in
  let t := {| t_projects := {[id]} ∪ projects d;
              t_parents := match parent with
                           | Some p => <[id := p]> (parent_projects d)
                           | None => parent_projects d
                           end;
              t_organizations := organizations d; t_entitlements := entitlements d;
              t_providers := providers d |} in
  with_tables (set_tenants t d)
    (set_project_rows (<[id := row]> (ac_projects (as_accounts s))) (as_accounts s)) s.

Definition create_project (id : UUID) (parent : option UUID) (name metadata : string)
    (s : AuthState X) : AuthState X * res dbProject :=
  let now := w_now (as_world s) in
  let row := {| prj_Name := name; prj_Metadata := metadata; prj_CreatedAt := now;
                prj_UpdatedAt := now |} in
  if bool_decide (id ∈ projects (tables s) ∨ name_taken s parent name)
  then (s, Err UniqueViolation)
  else if match parent with Some p => bool_decide (p ∈ projects (tables s)) | None => true end
  then (insert_project id parent row s, Ok {| dp_ID := id; dp_ParentID := parent; dp_Row := row |})
  else (s, Err ForeignKeyViolation).

Definition CreateProjectWithID (id : UUID) (name metadata : string)
    : prog (AuthState X) dbProject :=
  statement (create_project id None name metadata).

(** The id is drawn by the database. *)
Definition CreateProject_query `{RandomUuid} (name : string) (parent : option UUID)
    (metadata : string) : prog (AuthState X) dbProject :=
  statement (λ s,
    let w := as_world s in
    create_project (gen_random_uuid (w_fresh w)) parent name metadata
      (with_world (set_fresh (S (w_fresh w)) w) s)).

(** A project is not the parent of itself through others, so that as many
    generations as there are parents are all. *)
Definition DeleteProject_query (id : UUID) : prog (AuthState X) (list dbProject) :=
  statement (λ s,
    let d := tables s in
    let ids := tree d id in
    let pids := providers_of d ids in
    let d' := cascade ids pids d in
    if bool_decide (id ∈ projects d) then
      if bool_decide (no_dangling d')
      then (with_tables d' (cascade_accounts ids pids (as_accounts s)) s,
            Ok (omap (project_at s) (elements ids)))
      else (s, Err ForeignKeyViolation)
    else (s, Ok [])).

(** The project itself is among them. *)
Definition GetChildrenProjects (id : UUID) : prog (AuthState X) (list dbProject) :=
  account_select (λ s,
    Ok (if bool_decide (id ∈ projects (tables s))
        then omap (project_at s) (elements (tree (tables s) id)) else [])).

Definition GetImmediateChildrenProjects (id : UUID) : prog (AuthState X) (list dbProject) :=
  account_select (λ s,
    Ok (omap (project_at s)
          (elements (keys_where (λ p, p = id) (parent_projects (tables s)))))).

(** The time of the last change stays. *)
Definition UpdateProjectMeta (id : UUID) (metadata : string) : prog (AuthState X) dbProject :=
  statement (λ s,
    match project_at s id with
    | Some p =>
        let row := {| prj_Name := prj_Name (dp_Row p); prj_Metadata := metadata;
                      prj_CreatedAt := prj_CreatedAt (dp_Row p);
                      prj_UpdatedAt := prj_UpdatedAt (dp_Row p) |} in
        (with_accounts (set_project_rows (<[id := row]> (ac_projects (as_accounts s)))
                          (as_accounts s)) s,
         Ok {| dp_ID := id; dp_ParentID := dp_ParentID p; dp_Row := row |})
    | None => (s, Err ErrNoRows)
    end).

(** *** entitlements.sql.go *)

Definition CreateEntitlements (new : list string) (projectID : UUID) : prog (AuthState X) unit :=
  statement (λ s,
    let d := tables s in
    let t := {| t_projects := projects d; t_parents := parent_projects d;
                t_organizations := organizations d;
                t_entitlements := list_to_set (pair projectID <$> new) ∪ entitlements d;
                t_providers := providers d |} in
    if bool_decide (Forall (λ f, f ∈ features) new ∧ (new = [] ∨ projectID ∈ projects d))
    then (with_tables (set_tenants t d) (as_accounts s) s, Ok tt)
    else (s, Err ForeignKeyViolation)).

Definition GetEntitlementFeaturesByProjectID (projectID : UUID) : prog (AuthState X) (list string) :=
  account_select (λ s,
    Ok (omap (λ e : UUID * string, if bool_decide (e.1 = projectID) then Some e.2 else None)
          (elements (entitlements (tables s))))).

(** *** profiles.sql.go, entities.sql.go and users.sql.go *)

Definition CountProfilesByProjectID (projectID : UUID) : prog (AuthState X) Z :=
  account_select (λ s,
    Ok (Z.of_nat (size (filter (λ p : UUID * dbProfile, dpr_ProjectID p.2 = projectID)
                          (profiles (tables s)))))).

Definition CountEntitiesByTypeAndProject (entityType : Entities) (projectID : UUID)
    : prog (AuthState X) Z :=
  account_select (λ s,
    Ok (Z.of_nat (size (filter (λ p : UUID * EntityInstance,
                          ei_EntityType p.2 = entityType ∧ ei_ProjectID p.2 = projectID)
                          (entity_instances (tables s)))))).

(** The invitations a user sponsors go with them. *)
Definition DeleteUser_query (id : Z) : prog (AuthState X) unit :=
  statement (λ s,
    let a := as_accounts s in
    (with_accounts (set_invites (filter (λ p, ui_Sponsor p.2 ≠ id) (ac_invites a))
                      (set_users (delete id (ac_users a)) a)) s, Ok tt)).

(** *** providers.sql.go *)

Definition ListProvidersByProjectID (ids : list UUID) : prog (AuthState X) (list (UUID * Provider)) :=
  account_select (λ s, Ok (filter (λ p, prv_ProjectID p.2 ∈ ids) (map_to_list (providers (tables s))))).

Definition GetProviderByIDAndProject (id projectID : UUID) : prog (AuthState X) Provider :=
  account_select (λ s,
    match providers (tables s) !! id with
    | Some p => if bool_decide (prv_ProjectID p = projectID) then Ok p else Err ErrNoRows
    | None => Err ErrNoRows
    end).

(** What deleting a provider of a project leaves. *)
Definition drop_provider (id projectID : UUID) (t : Db * Accounts) : Db * Accounts :=
  match providers t.1 !! id with
  | Some p => if bool_decide (prv_ProjectID p = projectID)
              then (cascade ∅ {[id]} t.1, cascade_accounts ∅ {[id]} t.2) else t
  | None => t
  end.
End statements.

(** * What deleting a project leaves

    The references between the tables as the migrations declare them, and that
    deleting projects or providers with what depends on them keeps them. *)

(** ** The references *)

(** A latest status is, besides, one of its rule entity. *)
Record references (d : Db) (a : Accounts) : Prop := {
  rf_entities : entities_wf d;
  rf_providers : ∀ i p, providers d !! i = Some p → prv_ProjectID p ∈ projects d;
  rf_tokens : ∀ n t, provider_access_tokens d !! n = Some t →
    ∃ i p, providers d !! i = Some p ∧ token_of t p;
  rf_locks : ∀ i l, entity_execution_lock d !! i = Some l → lk_ProjectID l ∈ projects d;
  rf_flush : ∀ i f, flush_cache d !! i = Some f → fc_ProjectID f ∈ projects d;
  rf_profiles : ∀ i p, profiles d !! i = Some p → dpr_ProjectID p ∈ projects d;
  rf_rulesets : ∀ k r, entity_profiles d !! k = Some r → is_Some (profiles d !! k.1);
  rf_selectors : ∀ s, s ∈ profile_selectors d → is_Some (profiles d !! dps_ProfileID s);
  rf_rule_types : ∀ i t, rule_types d !! i = Some t → rty_ProjectID t ∈ projects d;
  rf_rules : ∀ i r, rule_instances d !! i = Some r →
    is_Some (profiles d !! rin_ProfileID r) ∧ is_Some (rule_types d !! rin_RuleTypeID r) ∧
    rin_ProjectID r ∈ projects d;
  rf_rule_entities : ∀ i r, evaluation_rule_entities d !! i = Some r →
    is_Some (rule_instances d !! ere_RuleID r);
  rf_statuses : ∀ i s, evaluation_statuses d !! i = Some s →
    is_Some (evaluation_rule_entities d !! es_RuleEntityID s);
  rf_latest : ∀ re l, latest_evaluation_statuses d !! re = Some l →
    is_Some (evaluation_rule_entities d !! re) ∧
    (∃ s, evaluation_statuses d !! la_EvaluationHistoryID l = Some s ∧ es_RuleEntityID s = re) ∧
    is_Some (profiles d !! la_ProfileID l);
  rf_outputs : ∀ i o, evaluation_outputs d !! i = Some o → is_Some (evaluation_statuses d !! i);
  rf_remediations : ∀ e, e ∈ remediation_events d →
    is_Some (evaluation_statuses d !! ev_EvaluationID e);
  rf_alerts : ∀ e, e ∈ alert_events d → is_Some (evaluation_statuses d !! ev_EvaluationID e);
  rf_sources : ∀ i x, s_sources (sources d) !! i = Some x → dso_ProjectID x ∈ projects d;
  rf_functions : ∀ i f, s_functions (sources d) !! i = Some f →
    is_Some (s_sources (sources d) !! dsf_DataSourceID f) ∧ dsf_ProjectID f ∈ projects d;
  rf_references : ∀ k p, s_references (sources d) !! k = Some p →
    is_Some (rule_types d !! k.1) ∧ is_Some (s_sources (sources d) !! k.2) ∧ p ∈ projects d;
  rf_entitlements : ∀ e, e ∈ entitlements d → e.1 ∈ projects d;
  rf_parents : ∀ c p, parent_projects d !! c = Some p → c ∈ projects d ∧ p ∈ projects d;
  rf_organizations : organizations d ⊆ projects d;
  rf_rows : dom (ac_projects a) = projects d;
  rf_invites : ∀ c i, ac_invites a !! c = Some i →
    ui_Project i ∈ projects d ∧ is_Some (ac_users a !! ui_Sponsor i);
  rf_installs : ∀ n i, ac_installs a !! n = Some i →
    (∀ p, gi_ProjectID i = Some p → p ∈ projects d) ∧
    (∀ p, gi_ProviderID i = Some p → is_Some (providers d !! p));
}.

(** ** Lemmas *)

Lemma elem_of_keys_where {V} (P : V → Prop) `{∀ v, Decision (P v)} (t : gmap UUID V) i v :
  t !! i = Some v → i ∈ keys_where P t ↔ P v.
Proof.
  intros Hi. unfold keys_where. rewrite elem_of_dom. split.
  - intros [w [Hw HP]%map_lookup_filter_Some]. simpl in HP. congruence.
  - intros HP. exists v. by apply map_lookup_filter_Some.
Qed.

Lemma keys_where_Some {V} (P : V → Prop) `{∀ v, Decision (P v)} (t : gmap UUID V) i :
  i ∈ keys_where P t → ∃ v, t !! i = Some v ∧ P v.
Proof. unfold keys_where. rewrite elem_of_dom. intros [v Hv%map_lookup_filter_Some]. eauto. Qed.

Lemma is_Some_filter {K V} `{Countable K} (P : K * V → Prop) `{∀ p, Decision (P p)}
    (t : gmap K V) k :
  is_Some (t !! k) → (∀ v, t !! k = Some v → P (k, v)) → is_Some (filter P t !! k).
Proof. intros [v Hv] HP. exists v. apply map_lookup_filter_Some. auto. Qed.

Section cascade.
Context (ids pids : gset UUID) (d : Db) (a : Accounts).

(** The entities that go are those of a lost project or provider and what
    originates from them. *)
Lemma lost_entity_root i e :
  entity_instances d !! i = Some e → ei_ProjectID e ∈ ids ∨ ei_ProviderID e ∈ pids →
  i ∈ lost_entities ids pids d.
Proof.
  intros He Hin. apply descendants_incl. by apply (elem_of_keys_where _ _ _ _ He).
Qed.

Lemma lost_entities_closed j e o :
  entity_instances d !! j = Some e → ei_OriginatedFrom e = Some o →
  o ∈ lost_entities ids pids d → j ∈ lost_entities ids pids d.
Proof.
  intros He Ho Hin. eapply descendants_step; [|done..].
  rewrite <-size_dom. apply subseteq_size. set_solver.
Qed.

Lemma lost_entities_sound j :
  j ∈ lost_entities ids pids d →
  ∃ root e, entity_instances d !! root = Some e ∧ (ei_ProjectID e ∈ ids ∨ ei_ProviderID e ∈ pids) ∧
            descends (entity_instances d) root j.
Proof.
  apply (grow_ind (originated (entity_instances d))
    (λ j, ∃ root e, entity_instances d !! root = Some e ∧
       (ei_ProjectID e ∈ ids ∨ ei_ProviderID e ∈ pids) ∧ descends (entity_instances d) root j)).
  - intros S HS i [Hi|(e & o & He & Ho & Hin)]%elem_of_originated; [by apply HS|].
    destruct (HS _ Hin) as (root & r & Hr & HP & Hd). exists root, r. split_and!; [done..|].
    by eapply descends_step.
  - intros i (e & He & HP)%keys_where_Some. exists i, e. split_and!; [done..|constructor].
Qed.

Context (Href : references d a).
Context (Hpids : ∀ i p, providers d !! i = Some p → prv_ProjectID p ∈ ids → i ∈ pids).
Context (Hdang : no_dangling (cascade ids pids d)).

Abbreviation d' := (cascade ids pids d).

(** A row with a kept key is kept, since it was there by [H]. *)
Ltac kept H := apply is_Some_filter; [exact H|by intros].

Lemma cascade_entities : entities_wf d'.
Proof using Href Hpids.
  pose proof (rf_entities _ _ Href) as Hwf. split.
  - intros i j x y [Hx _]%map_lookup_filter_Some [Hy _]%map_lookup_filter_Some.
    by apply (ew_unique _ Hwf).
  - intros i e o [He Hn]%map_lookup_filter_Some Ho. apply is_Some_filter.
    + exact (ew_origin _ Hwf _ _ _ He Ho).
    + intros v _ Hin. apply Hn. by eapply lost_entities_closed.
  - intros i e [He Hn]%map_lookup_filter_Some. apply elem_of_difference.
    split; [exact (ew_project _ Hwf _ _ He)|]. intros Hin. apply Hn.
    eapply lost_entity_root; eauto.
  - intros i e [He Hn]%map_lookup_filter_Some. apply is_Some_filter.
    + exact (ew_provider _ Hwf _ _ He).
    + intros v _ Hin. apply Hn. eapply lost_entity_root; eauto.
  - intros k p [Hp Hn]%map_lookup_filter_Some. kept (ew_properties _ Hwf _ _ Hp).
  - intros i l [Hl [Hn _]]%map_lookup_filter_Some. kept (ew_locks _ Hwf _ _ Hl).
  - intros i f [Hf [Hn _]]%map_lookup_filter_Some. kept (ew_flush _ Hwf _ _ Hf).
  - intros i r [Hr Hn]%map_lookup_filter_Some. apply is_Some_filter.
    + exact (ew_rules _ Hwf _ _ Hr).
    + intros v _ Hin. apply Hn. apply (elem_of_keys_where _ _ _ _ Hr). by left.
Qed.

(** A status that stays belongs to a rule entity that stays. *)
Lemma cascade_status i s :
  evaluation_statuses d' !! i = Some s →
  evaluation_statuses d !! i = Some s ∧ (es_RuleEntityID s ∉ lost_rule_entities ids pids d).
Proof.
  intros [Hs Hn]%map_lookup_filter_Some. split; [done|]. simpl in Hn.
  by rewrite (elem_of_gone _ (history d) i s Hs) in Hn.
Qed.

Lemma cascade_kept_status i :
  is_Some (evaluation_statuses d !! i) →
  (i ∉ gone_statuses (lost_rule_entities ids pids d) (history d)) →
  is_Some (evaluation_statuses d' !! i).
Proof. apply (kept_of_gone _ (history d)). Qed.

(** What refers to projects alone. *)
Lemma kept_project {V} (f : V → UUID) (t : gmap UUID V) i v :
  t !! i = Some v → f v ∈ projects d → (i ∉ keys_where (λ v, f v ∈ ids) t) →
  f v ∈ projects d ∖ ids.
Proof.
  intros Hv Hp Hn. apply elem_of_difference. split; [done|].
  by rewrite (elem_of_keys_where _ _ _ _ Hv) in Hn.
Qed.

Lemma cascade_rules i r :
  rule_instances d' !! i = Some r →
  is_Some (profiles d' !! rin_ProfileID r) ∧ is_Some (rule_types d' !! rin_RuleTypeID r) ∧
  rin_ProjectID r ∈ projects d ∖ ids.
Proof using Href Hdang.
  intros Hr. destruct Hdang as (_ & Htypes & _). split_and!; [|by apply (Htypes i)|].
  all: apply map_lookup_filter_Some in Hr as [Hr Hn]; simpl in Hn;
    destruct (rf_rules _ _ Href _ _ Hr) as (Hp & _ & Hproj);
    unfold lost_rules in Hn; rewrite (elem_of_keys_where _ _ _ _ Hr) in Hn.
  - apply is_Some_filter; [done|]. intros v _ Hin. apply Hn. by right.
  - apply elem_of_difference. tauto.
Qed.

Lemma cascade_rule_entities i r :
  evaluation_rule_entities d' !! i = Some r → is_Some (rule_instances d' !! ere_RuleID r).
Proof using Href.
  intros [Hr Hn]%map_lookup_filter_Some. apply is_Some_filter.
  - exact (rf_rule_entities _ _ Href _ _ Hr).
  - intros v _ Hin. apply Hn. apply (elem_of_keys_where _ _ _ _ Hr). by right.
Qed.

Lemma cascade_latest re l :
  latest_evaluation_statuses d' !! re = Some l →
  is_Some (evaluation_rule_entities d' !! re) ∧
  (∃ s, evaluation_statuses d' !! la_EvaluationHistoryID l = Some s ∧ es_RuleEntityID s = re) ∧
  is_Some (profiles d' !! la_ProfileID l).
Proof using Href.
  intros [[Hl Hn]%map_lookup_filter_Some Hp]%map_lookup_filter_Some.
  destruct (rf_latest _ _ Href _ _ Hl) as (He & (x & Hx & Hre) & Hprof). split_and!.
  - kept He.
  - exists x. split; [|done]. apply (kept_status _ (history d)); [done|]. by rewrite Hre.
  - kept Hprof.
Qed.

Lemma cascade_sources :
  (∀ i x, s_sources (sources d') !! i = Some x → dso_ProjectID x ∈ projects d') ∧
  (∀ i f, s_functions (sources d') !! i = Some f →
     is_Some (s_sources (sources d') !! dsf_DataSourceID f) ∧ dsf_ProjectID f ∈ projects d') ∧
  (∀ k p, s_references (sources d') !! k = Some p →
     is_Some (rule_types d' !! k.1) ∧ is_Some (s_sources (sources d') !! k.2) ∧ p ∈ projects d').
Proof using Href Hdang.
  destruct Hdang as (_ & _ & Hsrc). split_and!.
  - intros i x [Hx Hn]%map_lookup_filter_Some. eapply kept_project; [done| |done].
    exact (rf_sources _ _ Href _ _ Hx).
  - intros i f [Hf [Hn Hp]]%map_lookup_filter_Some.
    destruct (rf_functions _ _ Href _ _ Hf) as [Hs Hproj].
    split; [by apply is_Some_filter|by apply elem_of_difference].
  - intros k p Hk. split_and!; [|by apply (Hsrc k p)|].
    all: apply map_lookup_filter_Some in Hk as [Hk [Hn Hp]];
      destruct (rf_references _ _ Href _ _ Hk) as (Ht & _ & Hproj).
    + by apply is_Some_filter.
    + by apply elem_of_difference.
Qed.

Lemma cascade_tokens n t :
  provider_access_tokens d' !! n = Some t →
  ∃ i p, providers d' !! i = Some p ∧ token_of t p.
Proof using Href.
  intros [Ht Hall]%map_lookup_filter_Some. destruct (rf_tokens _ _ Href _ _ Ht) as (i & p & Hp & Htok).
  exists i, p. split; [|done]. apply map_lookup_filter_Some. split; [done|]. by apply (Hall i p).
Qed.

Lemma cascade_events (l : list ActionEvent) :
  (∀ e, e ∈ l → is_Some (evaluation_statuses d !! ev_EvaluationID e)) →
  ∀ e, e ∈ filter (λ e, ev_EvaluationID e ∉
                          gone_statuses (lost_rule_entities ids pids d) (history d)) l →
  is_Some (evaluation_statuses d' !! ev_EvaluationID e).
Proof. intros Hl e [Hn He]%list_elem_of_filter. apply cascade_kept_status; [by apply Hl|done]. Qed.

Lemma cascade_references : references d' (cascade_accounts ids pids a).
Proof using Href Hpids Hdang.
  split; try exact cascade_rules; try exact cascade_rule_entities; try exact cascade_latest;
    try exact cascade_tokens; try apply cascade_sources.
  - exact cascade_entities.
  - intros i p [Hp Hn]%map_lookup_filter_Some. apply elem_of_difference.
    split; [exact (rf_providers _ _ Href _ _ Hp)|]. intros Hin. apply Hn. by eapply Hpids.
  - intros i l [Hl [_ Hn]]%map_lookup_filter_Some. apply elem_of_difference.
    split; [exact (rf_locks _ _ Href _ _ Hl)|done].
  - intros i f [Hf [_ Hn]]%map_lookup_filter_Some. apply elem_of_difference.
    split; [exact (rf_flush _ _ Href _ _ Hf)|done].
  - intros i p [Hp Hn]%map_lookup_filter_Some. eapply kept_project; [done| |done].
    exact (rf_profiles _ _ Href _ _ Hp).
  - intros k r [Hr Hn]%map_lookup_filter_Some. kept (rf_rulesets _ _ Href _ _ Hr).
  - intros x [Hn Hx]%list_elem_of_filter. kept (rf_selectors _ _ Href _ Hx).
  - intros i t [Ht Hn]%map_lookup_filter_Some. eapply kept_project; [done| |done].
    exact (rf_rule_types _ _ Href _ _ Ht).
  - intros i x [Hx Hn]%cascade_status. kept (rf_statuses _ _ Href _ _ Hx).
  - intros i o [Ho Hn]%map_lookup_filter_Some. apply cascade_kept_status; [|done].
    exact (rf_outputs _ _ Href _ _ Ho).
  - apply cascade_events. exact (rf_remediations _ _ Href).
  - apply cascade_events. exact (rf_alerts _ _ Href).
  - intros e [Hn He]%elem_of_filter. apply elem_of_difference.
    split; [exact (rf_entitlements _ _ Href _ He)|done].
  - intros c p [Hc [Hn Hn']]%map_lookup_filter_Some. destruct (rf_parents _ _ Href _ _ Hc).
    split; by apply elem_of_difference.
  - pose proof (rf_organizations _ _ Href). cbn. set_solver.
  - cbn. rewrite <-(rf_rows _ _ Href). apply set_eq. intros i.
    rewrite elem_of_difference, !elem_of_dom. split.
    + intros [r [Hr Hn]%map_lookup_filter_Some]. by split.
    + intros [Hr Hn]. by apply is_Some_filter.
  - intros c i [Hi Hn]%map_lookup_filter_Some. destruct (rf_invites _ _ Href _ _ Hi).
    split; [by apply elem_of_difference|done].
  - intros n i [Hi [Hn1 Hn2]]%map_lookup_filter_Some. destruct (rf_installs _ _ Href _ _ Hi) as [H1 H2].
    simpl in *. split; intros p Hp.
    + rewrite Hp in Hn1. apply elem_of_difference. split; [by apply H1|].
      by apply bool_decide_eq_false in Hn1.
    + rewrite Hp in Hn2. apply bool_decide_eq_false in Hn2. apply is_Some_filter; [by apply H2|].
      by intros.
Qed.
End cascade.

(** ** The tree of a project *)

(** A project is below itself and its children are below what it is below. *)
Inductive below (d : Db) (root : UUID) : UUID → Prop :=
| below_refl : below d root root
| below_step c p : parent_projects d !! c = Some p → below d root p → below d root c.

Lemma elem_of_children d ids i :
  i ∈ children d ids ↔ i ∈ ids ∨ ∃ p, parent_projects d !! i = Some p ∧ p ∈ ids.
Proof.
  unfold children. rewrite elem_of_union. split; intros [Hi|Hi]; try by left.
  - apply keys_where_Some in Hi as (p & ? & ?). right. eauto.
  - destruct Hi as (p & Hp & Hin). right. by apply (elem_of_keys_where _ _ _ _ Hp).
Qed.

Lemma children_incl d ids : ids ⊆ children d ids.
Proof. unfold children. set_solver. Qed.

Lemma tree_closed d root c p : parent_projects d !! c = Some p → p ∈ tree d root → c ∈ tree d root.
Proof.
  intros Hc Hp. unfold tree in *.
  rewrite <-(grow_closed (children d) (children_incl d) (dom (parent_projects d)))
    with (fuel := size (parent_projects d)).
  - apply elem_of_children. right. eauto.
  - intros ids i [Hi|(q & Hq & _)]%elem_of_children; [set_solver|].
    apply elem_of_dom_2 in Hq. set_solver.
  - rewrite <-size_dom. apply subseteq_size. set_solver.
Qed.

Lemma elem_of_tree d root i : i ∈ tree d root ↔ below d root i.
Proof.
  split.
  - apply (grow_ind (children d) (below d root)).
    + intros ids Hids j [Hj|(p & Hp & Hin)]%elem_of_children; [by apply Hids|].
      eapply below_step; [done|]. by apply Hids.
    + intros j ->%elem_of_singleton. constructor.
  - induction 1 as [|c p Hc _ IH]; [|by eapply tree_closed].
    apply (grow_incl _ (children_incl d)). by apply elem_of_singleton.
Qed.

(** What sees a project of the tree is in the tree. *)
Lemma ancestors_tree d root p q : q ∈ ancestors d p → q ∈ tree d root → p ∈ tree d root.
Proof.
  unfold ancestors. generalize (S (size (projects d))) as n. generalize (@nil UUID) as seen.
  intros seen n. revert p seen. induction n as [|n IH]; intros p seen; cbn; intros Hq Hin;
    [by list_cases Hq|].
  destruct (bool_decide _); [|by list_cases Hq]. apply elem_of_cons in Hq as [->|Hq]; [done|].
  destruct (parent_projects d !! p) as [pp|] eqn:Hp; [|by list_cases Hq].
  eapply tree_closed; [done|]. by eapply IH.
Qed.

(** ** The deletion of a project *)

(** A rule is of a type, and a rule type refers to data sources, of the hierarchy
    of its project. *)
Record self_contained (d : Db) : Prop := {
  sc_rules : ∀ i r t, rule_instances d !! i = Some r → rule_types d !! rin_RuleTypeID r = Some t →
    rty_ProjectID t ∈ ancestors d (rin_ProjectID r);
  sc_sources : ∀ k p x, s_references (sources d) !! k = Some p →
    s_sources (sources d) !! k.2 = Some x → dso_ProjectID x ∈ ancestors d p;
}.

(** A table without the rows of some projects. *)
Definition rows_outside {V} (project : V → UUID) (ids : gset UUID) (t t' : gmap UUID V) : Prop :=
  ∀ i v, t' !! i = Some v ↔ t !! i = Some v ∧ (project v ∉ ids).

(** Nothing of the projects [ids] is left, and nothing else is gone. *)
Record without (ids : gset UUID) (d d' : Db) : Prop := {
  wo_projects : projects d' = projects d ∖ ids;
  wo_parents : ∀ c p, parent_projects d' !! c = Some p ↔
    parent_projects d !! c = Some p ∧ (c ∉ ids) ∧ (p ∉ ids);
  wo_providers : rows_outside prv_ProjectID ids (providers d) (providers d');
  wo_profiles : rows_outside dpr_ProjectID ids (profiles d) (profiles d');
  wo_rule_types : rows_outside rty_ProjectID ids (rule_types d) (rule_types d');
  wo_sources : rows_outside dso_ProjectID ids (s_sources (sources d)) (s_sources (sources d'));
  wo_rules : ∀ i r, rule_instances d' !! i = Some r ↔
    rule_instances d !! i = Some r ∧ (rin_ProjectID r ∉ ids) ∧
    (∀ p, profiles d !! rin_ProfileID r = Some p → dpr_ProjectID p ∉ ids);
  wo_entities : ∀ i e, entity_instances d' !! i = Some e ↔
    entity_instances d !! i = Some e ∧
    (∀ root r, entity_instances d !! root = Some r → descends (entity_instances d) root i →
       (ei_ProjectID r ∉ ids) ∧
       (∀ p, providers d !! ei_ProviderID r = Some p → prv_ProjectID p ∉ ids));
  wo_entitlements : ∀ e, e ∈ entitlements d' ↔ e ∈ entitlements d ∧ (e.1 ∉ ids);
}.

Section deletion.
Context (d : Db) (root : UUID).

Abbreviation ids := (tree d root).
Abbreviation pids := (providers_of d ids).
Abbreviation d' := (cascade ids pids d).

Lemma filter_keys_outside {V} (project : V → UUID) (ids : gset UUID) (t : gmap UUID V) :
  rows_outside project ids t (filter (λ p, p.1 ∉ keys_where (λ v, project v ∈ ids) t) t).
Proof.
  intros i v. rewrite map_lookup_filter_Some. split; intros [Hi Hn]; split; try done; cbn in *;
    by rewrite (elem_of_keys_where _ _ _ _ Hi) in *.
Qed.

Lemma descends_lost i o :
  descends (entity_instances d) o i → o ∈ lost_entities ids pids d → i ∈ lost_entities ids pids d.
Proof. induction 1 as [|j e o' He Ho _ IH]; [done|]. intros Hin. eapply lost_entities_closed; eauto. Qed.

Lemma cascade_without : without ids d d'.
Proof.
  split; [reflexivity| |exact (filter_keys_outside _ _ _)..| | |].
  - intros c p. cbn. rewrite map_lookup_filter_Some. done.
  - intros i r. cbn. rewrite map_lookup_filter_Some. split; intros [Hr Hn]; (split; [done|]);
      cbn in *; unfold lost_rules in *; rewrite (elem_of_keys_where _ _ _ _ Hr) in *.
    + split; [tauto|]. intros p Hp Hin. apply Hn. right.
      by apply (elem_of_keys_where _ _ _ _ Hp).
    + intros [Hin|(p & Hp & Hin)%keys_where_Some]; [tauto|]. by apply (proj2 Hn p).
  - intros i e. cbn. rewrite map_lookup_filter_Some. split; intros [He Hn]; (split; [done|]).
    + intros o r Hr Hd. cbn in Hn. split.
      * intros Hin. apply Hn. eapply descends_lost, lost_entity_root; eauto.
      * intros p Hp Hin. apply Hn. eapply descends_lost, lost_entity_root; eauto. right.
        by apply (elem_of_keys_where _ _ _ _ Hp).
    + cbn. intros (o & r & Hr & [Hin|Hin] & Hd)%lost_entities_sound;
        destruct (Hn o r Hr Hd) as [H1 H2]; [done|].
      apply keys_where_Some in Hin as (p & Hp & Hin). by apply (H2 p).
  - intros e. cbn. rewrite elem_of_filter. tauto.
Qed.

(** The tree is closed, so that what refers without a cascade is in it as well. *)
Lemma cascade_no_dangling a :
  references d a → self_contained d → no_dangling d'.
Proof.
  intros Href Hsc. split_and!.
  - intros re l Hl. destruct (cascade_latest _ _ _ _ Href _ _ Hl) as (_ & (x & Hx & _) & _).
    by exists x.
  - intros i r Hr. pose proof (proj1 (wo_rules _ _ _ cascade_without i r) Hr) as (Hr' & Hn & _).
    destruct (rf_rules _ _ Href _ _ Hr') as (_ & [t Ht] & _). exists t.
    apply (wo_rule_types _ _ _ cascade_without). split; [done|]. intros Hin. apply Hn.
    eapply ancestors_tree; [|done]. by eapply sc_rules.
  - intros k p [Hk [_ Hn]]%map_lookup_filter_Some. simpl in Hn.
    destruct (rf_references _ _ Href _ _ Hk) as (_ & [x Hx] & _). exists x.
    apply (wo_sources _ _ _ cascade_without). split; [done|]. intros Hin. apply Hn.
    eapply ancestors_tree; [|done]. by eapply sc_sources.
Qed.
End deletion.

(** * The invariant of the projects

    The references between the tables hold, the hierarchy has one level, the
    children of a project and the top-level projects have names of their own, and
    what a project uses is of its hierarchy. *)

Section invariant.
Context `{PgText}.

Record projects_wf (d : Db) (a : Accounts) : Prop := {
  pw_references : references d a;
  pw_level : ∀ c p, parent_projects d !! c = Some p → parent_projects d !! p = None;
  pw_names : ∀ i j x y, ac_projects a !! i = Some x → ac_projects a !! j = Some y →
    parent_projects d !! i = parent_projects d !! j → same_name (prj_Name x) (prj_Name y) → i = j;
  pw_contained : self_contained d;
}.

(** Of a project the ancestors are itself and its parent. *)
Lemma ancestors_spec d p q :
  (∀ c p, parent_projects d !! c = Some p → parent_projects d !! p = None) →
  (∀ c p, parent_projects d !! c = Some p → c ∈ projects d ∧ p ∈ projects d) →
  q ∈ ancestors d p ↔ p ∈ projects d ∧ (q = p ∨ parent_projects d !! p = Some q).
Proof.
  intros Hlevel Hparents. unfold ancestors. destruct (decide (p ∈ projects d)) as [Hp|Hp].
  2: { cbn. rewrite bool_decide_false by tauto. split; [intros Hin; by list_cases Hin|tauto]. }
  destruct (size (projects d)) as [|n] eqn:Hn.
  { apply size_empty_inv in Hn. set_solver. }
  cbn. rewrite bool_decide_true by (split; [done|apply not_elem_of_nil]).
  destruct (parent_projects d !! p) as [pp|] eqn:Hpp.
  - pose proof (Hlevel _ _ Hpp) as Hroot. destruct (Hparents _ _ Hpp) as [_ Hin].
    assert (pp ≠ p) as Hne by congruence.
    rewrite bool_decide_true by (split; [done|]; intros Hx; by list_cases Hx). rewrite Hroot.
    split; [intros Hx; list_cases Hx; auto|]. intros [_ [->|[= ->]]]; [left|right; left].
  - split; [intros Hx; list_cases Hx; auto|]. intros [_ [->|[=]]]. left.
Qed.

Lemma ancestors_wf d a p q :
  projects_wf d a →
  q ∈ ancestors d p ↔ p ∈ projects d ∧ (q = p ∨ parent_projects d !! p = Some q).
Proof. intros Hwf. apply ancestors_spec; [exact (pw_level _ _ Hwf)|apply Hwf]. Qed.

(** Two hierarchies of which the second keeps what the first says of [p]. *)
Lemma self_contained_with d d' a :
  projects_wf d a →
  (∀ c p, parent_projects d' !! c = Some p → parent_projects d' !! p = None) →
  (∀ c p, parent_projects d' !! c = Some p → c ∈ projects d' ∧ p ∈ projects d') →
  (∀ i r, rule_instances d' !! i = Some r → rule_instances d !! i = Some r ∧
     rin_ProjectID r ∈ projects d' ∧
     parent_projects d' !! rin_ProjectID r = parent_projects d !! rin_ProjectID r) →
  (∀ k p, s_references (sources d') !! k = Some p → s_references (sources d) !! k = Some p ∧
     p ∈ projects d' ∧ parent_projects d' !! p = parent_projects d !! p) →
  rule_types d' ⊆ rule_types d → s_sources (sources d') ⊆ s_sources (sources d) →
  self_contained d'.
Proof.
  intros Hwf Hlevel Hparents Hrules Hrefs Ht Hs. split.
  - intros i r t (Hr & Hp & Hpar)%Hrules Hrt. apply (ancestors_spec d'); [done..|]. split; [done|].
    rewrite Hpar. eapply (ancestors_wf d a); [done|].
    eapply (sc_rules _ (pw_contained _ _ Hwf)); [exact Hr|]. by eapply lookup_weaken.
  - intros k p x (Hk & Hp & Hpar)%Hrefs Hx. apply (ancestors_spec d'); [done..|]. split; [done|].
    rewrite Hpar. eapply (ancestors_wf d a); [done|].
    eapply (sc_sources _ (pw_contained _ _ Hwf)); [exact Hk|]. by eapply lookup_weaken.
Qed.

(** An invariant of the tables alone. *)
Class OnTables {X} (I : AuthState X → Prop) :=
  on_tables s s' : tables s' = tables s → as_accounts s' = as_accounts s → I s → I s'.

#[export] Instance on_tables_framed {X} (I : AuthState X → Prop) `{!OnTables I} : Framed I.
Proof. intros s s' Hs. apply (on_tables s); [exact (same_db _ _ Hs)|apply Hs]. Qed.

Definition wf {X} (s : AuthState X) : Prop := projects_wf (tables s) (as_accounts s).

#[export] Instance wf_on_tables X : OnTables (@wf X).
Proof. intros s s' Hd Ha. unfold wf. by rewrite Hd, Ha. Qed.

(** ** Other projects and other accounts *)

Lemma references_with (t : Tenants) (d : Db) (a a' : Accounts) :
  references d a →
  projects d ⊆ t_projects t → t_providers t = providers d → t_organizations t = organizations d →
  (∀ e, e ∈ t_entitlements t → e.1 ∈ t_projects t) →
  (∀ c p, t_parents t !! c = Some p → c ∈ t_projects t ∧ p ∈ t_projects t) →
  dom (ac_projects a') = t_projects t →
  (∀ c i, ac_invites a' !! c = Some i →
     ac_invites a !! c = Some i ∧ is_Some (ac_users a' !! ui_Sponsor i)) →
  ac_installs a' = ac_installs a →
  references (set_tenants t d) a'.
Proof.
  intros Href Hp Hv Ho He Hc Hrows Hi Hinst.
  split; cbn; rewrite ?Hv, ?Ho, ?Hinst; try assumption; try (by apply Href).
  - destruct (rf_entities _ _ Href). split; cbn; rewrite ?Hv; try assumption.
    intros i e Hie. eapply Hp; eauto.
  - intros i x Hx. apply Hp. exact (rf_providers _ _ Href _ _ Hx).
  - intros i x Hx. apply Hp. exact (rf_locks _ _ Href _ _ Hx).
  - intros i x Hx. apply Hp. exact (rf_flush _ _ Href _ _ Hx).
  - intros i x Hx. apply Hp. exact (rf_profiles _ _ Href _ _ Hx).
  - intros i x Hx. apply Hp. exact (rf_rule_types _ _ Href _ _ Hx).
  - intros i x Hx. destruct (rf_rules _ _ Href _ _ Hx) as (? & ? & ?). auto.
  - intros i x Hx. apply Hp. exact (rf_sources _ _ Href _ _ Hx).
  - intros i x Hx. destruct (rf_functions _ _ Href _ _ Hx) as (? & ?). auto.
  - intros i x Hx. destruct (rf_references _ _ Href _ _ Hx) as (? & ? & ?). auto.
  - pose proof (rf_organizations _ _ Href). set_solver.
  - intros c i [Hci Hu]%Hi. destruct (rf_invites _ _ Href _ _ Hci). auto.
  - intros n i Hni. destruct (rf_installs _ _ Href _ _ Hni) as [H1 H2]. split; [|done].
    intros p Hgp. by apply Hp, H1.
Qed.

Lemma set_tenants_same d : set_tenants (tenants d) d = d.
Proof. by destruct d. Qed.

(** ** A new project *)

Section insert.
Context {X : Type} (s : AuthState X) (id : UUID) (parent : option UUID) (row : ProjectRow).

Abbreviation d := (tables s).
Abbreviation a := (as_accounts s).
Abbreviation s' := (insert_project id parent row s).

Context (Hwf : wf s) (Hnew : id ∉ projects d).

Lemma no_parent_yet : parent_projects d !! id = None.
Proof using Hwf Hnew.
  destruct (parent_projects d !! id) as [p|] eqn:Hp; [|done].
  by destruct (rf_parents _ _ (pw_references _ _ Hwf) _ _ Hp).
Qed.

Lemma not_a_parent c : parent_projects d !! c ≠ Some id.
Proof using Hwf Hnew. intros Hc. by destruct (rf_parents _ _ (pw_references _ _ Hwf) _ _ Hc). Qed.

Lemma parent_after c p :
  parent_projects (tables s') !! c = Some p ↔
  (c = id ∧ parent = Some p) ∨ parent_projects d !! c = Some p.
Proof using Hwf Hnew.
  pose proof no_parent_yet as Hnone. unfold insert_project. destruct parent as [q|]; cbn.
  - destruct (decide (c = id)) as [->|Hne].
    + rewrite lookup_insert_eq, Hnone. naive_solver.
    + rewrite lookup_insert_ne by done. naive_solver.
  - naive_solver.
Qed.

Lemma parent_before c : c ≠ id → parent_projects (tables s') !! c = parent_projects d !! c.
Proof. intros Hne. unfold insert_project. destruct parent; cbn; [by rewrite lookup_insert_ne|done]. Qed.

Lemma parent_new : parent_projects (tables s') !! id = parent.
Proof using Hwf Hnew.
  pose proof no_parent_yet. unfold insert_project. destruct parent; cbn; [by rewrite lookup_insert_eq|done].
Qed.

Context (Hparent : ∀ p, parent = Some p → p ∈ projects d ∧ parent_projects d !! p = None).

Lemma insert_references : references (tables s') (as_accounts s').
Proof using Hwf Hnew Hparent.
  pose proof (pw_references _ _ Hwf) as Href. apply (references_with _ d a); cbn; try done.
  - set_solver.
  - intros e He. apply elem_of_union_r. by apply (rf_entitlements _ _ Href).
  - intros c p Hc. apply (parent_after) in Hc as [[-> Hc]|Hc].
    + destruct (Hparent _ Hc). set_solver.
    + destruct (rf_parents _ _ Href _ _ Hc). set_solver.
  - rewrite dom_insert_L. by rewrite (rf_rows _ _ Href).
  - intros c i Hi. split; [done|]. apply (rf_invites _ _ Href _ _ Hi).
Qed.

Context (Hname : ¬ name_taken s parent (prj_Name row)).

Lemma insert_wf : wf s'.
Proof using Hwf Hnew Hname Hparent.
  assert (Hlevel : ∀ c p, parent_projects (tables s') !! c = Some p →
                          parent_projects (tables s') !! p = None).
  { intros c p [[-> Hc]|Hc]%(parent_after).
    - destruct (Hparent _ Hc) as [Hin Hroot]. rewrite parent_before; [done|]. by intros ->.
    - rewrite parent_before; [by eapply (pw_level _ _ Hwf)|]. intros ->.
      by destruct (not_a_parent c). }
  assert (Hrow : ∀ i x, ac_projects a !! i = Some x → i ≠ id).
  { intros i x Hi ->. apply Hnew. rewrite <-(rf_rows _ _ (pw_references _ _ Hwf)).
    by apply elem_of_dom_2 in Hi. }
  assert (Hnone : ∀ i x, ac_projects a !! i = Some x →
    parent_projects (tables s') !! i = parent_projects (tables s') !! id →
    ¬ same_name (prj_Name x) (prj_Name row)).
  { intros i x Hi Hsame Hn. apply Hname. exists i, x. split; [done|]. split; [|done].
    rewrite <-(parent_before), Hsame by eauto. by apply parent_new. }
  split.
  - exact insert_references.
  - exact Hlevel.
  - cbn [insert_project with_tables with_accounts as_accounts set_project_rows ac_projects].
    intros i j x y [[<- <-]|[Hi Hx]]%lookup_insert_Some [[<- <-]|[Hj Hy]]%lookup_insert_Some Hp Hn;
      [done|exfalso..|].
    + eapply Hnone; [exact Hy|by symmetry|]. by symmetry.
    + by eapply Hnone.
    + eapply (pw_names _ _ Hwf); [exact Hx|exact Hy| |done].
      by rewrite !parent_before in Hp by eauto.
  - pose proof (pw_references _ _ Hwf) as Href.
    apply (self_contained_with d _ a);
      [done|done|exact (rf_parents _ _ insert_references)| | |done|done].
    + intros i r Hr. split; [done|]. destruct (rf_rules _ _ Href _ _ Hr) as (_ & _ & Hin).
      split; [by apply elem_of_union_r|]. apply parent_before. intros E. by rewrite E in Hin.
    + intros k p Hk. split; [done|]. destruct (rf_references _ _ Href _ _ Hk) as (_ & _ & Hin).
      split; [by apply elem_of_union_r|]. apply parent_before. intros E. by rewrite E in Hin.
Qed.
End insert.

(** ** A deletion *)

Section cascade.
Context (ids pids : gset UUID) (d : Db) (a : Accounts).
Context (Hwf : projects_wf d a).
Context (Hpids : ∀ i p, providers d !! i = Some p → prv_ProjectID p ∈ ids → i ∈ pids).
Context (Hclosed : ∀ c p, parent_projects d !! c = Some p → p ∈ ids → c ∈ ids).
Context (Hdang : no_dangling (cascade ids pids d)).

Abbreviation d' := (cascade ids pids d).

Lemma cascade_parent i :
  (i ∉ ids) → parent_projects d' !! i = parent_projects d !! i.
Proof using Hclosed.
  intros Hi. cbn. destruct (parent_projects d !! i) as [p|] eqn:Hp.
  - apply map_lookup_filter_Some. split; [done|]. split; [done|]. cbn. eauto.
  - apply map_lookup_filter_None. by left.
Qed.

Lemma cascade_parent_Some c p : parent_projects d' !! c = Some p → parent_projects d !! c = Some p.
Proof. by intros [? _]%map_lookup_filter_Some. Qed.

Lemma cascade_wf : projects_wf d' (cascade_accounts ids pids a).
Proof using Hwf Hpids Hclosed Hdang.
  pose proof (cascade_references ids pids d a (pw_references _ _ Hwf) Hpids Hdang) as Href.
  assert (Hlevel : ∀ c p, parent_projects d' !! c = Some p → parent_projects d' !! p = None).
  { intros c p Hc%cascade_parent_Some. apply (pw_level _ _ Hwf) in Hc.
    destruct (parent_projects d' !! p) eqn:Hp; [|done]. apply cascade_parent_Some in Hp. congruence. }
  split; [exact Href|exact Hlevel| |].
  - intros i j x y [Hx Hi]%map_lookup_filter_Some [Hy Hj]%map_lookup_filter_Some Hp Hn.
    rewrite !cascade_parent in Hp by done. by eapply (pw_names _ _ Hwf).
  - apply (self_contained_with d _ a);
      [exact Hwf|exact Hlevel|exact (rf_parents _ _ Href)| | |apply map_filter_subseteq..].
    + intros i r Hr. pose proof (rf_rules _ _ Href _ _ Hr) as (_ & _ & Hin).
      split_and!; [by apply map_lookup_filter_Some in Hr as [? _]|done|].
      apply cascade_parent. by apply elem_of_difference in Hin as [_ ?].
    + intros k p Hk. pose proof (rf_references _ _ Href _ _ Hk) as (_ & _ & Hin).
      split_and!; [by apply map_lookup_filter_Some in Hk as [? _]|done|].
      apply cascade_parent. by apply elem_of_difference in Hin as [_ ?].
Qed.
End cascade.

Lemma cascade_tree_wf d a root :
  projects_wf d a →
  let ids := tree d root in
  projects_wf (cascade ids (providers_of d ids) d) (cascade_accounts ids (providers_of d ids) a).
Proof.
  intros Hwf ids. apply cascade_wf; [done|intros; by eapply elem_of_keys_where|apply tree_closed|].
  apply (cascade_no_dangling d root a); apply Hwf.
Qed.

(** Deleting providers leaves nothing dangling: rules keep their types. *)
Lemma cascade_provider_no_dangling d a pids :
  references d a → no_dangling (cascade ∅ pids d).
Proof.
  intros Href. split_and!.
  - intros re l Hl. destruct (cascade_latest _ _ _ _ Href _ _ Hl) as (_ & (x & Hx & _) & _).
    by exists x.
  - intros i r [Hr _]%map_lookup_filter_Some. destruct (rf_rules _ _ Href _ _ Hr) as (_ & Ht & _).
    apply is_Some_filter; [done|]. intros t _ (t' & _ & Hin)%keys_where_Some. set_solver.
  - intros k p [Hk _]%map_lookup_filter_Some.
    destruct (rf_references _ _ Href _ _ Hk) as (_ & Hs & _).
    apply is_Some_filter; [done|]. intros t _ (t' & _ & Hin)%keys_where_Some. set_solver.
Qed.

Lemma drop_provider_wf id projectID t :
  projects_wf t.1 t.2 →
  projects_wf (drop_provider id projectID t).1 (drop_provider id projectID t).2.
Proof.
  intros Hwf. unfold drop_provider. destruct (providers t.1 !! id) as [p|]; [|done].
  case_bool_decide; [|done]. cbn. apply cascade_wf; [done|set_solver|set_solver|].
  by eapply cascade_provider_no_dangling, pw_references.
Qed.

Lemma drop_provider_no_dangling id projectID t :
  projects_wf t.1 t.2 → no_dangling (drop_provider id projectID t).1.
Proof.
  intros Hwf. apply drop_provider_wf with (id := id) (projectID := projectID) in Hwf.
  pose proof (pw_references _ _ Hwf) as Href. split_and!.
  - intros re l Hl. destruct (rf_latest _ _ Href _ _ Hl) as (_ & (x & Hx & _) & _). by exists x.
  - intros i r Hr. apply (rf_rules _ _ Href _ _ Hr).
  - intros k p Hk. apply (rf_references _ _ Href _ _ Hk).
Qed.

(** ** The other statements *)

Section statements.
Context {X : Type}.
Implicit Types s : AuthState X.

(** The hierarchy and what uses it stay. *)
Lemma projects_wf_with (t : Tenants) d a a' :
  projects_wf d a → references (set_tenants t d) a' →
  t_projects t = projects d → t_parents t = parent_projects d →
  prj_Name <$> ac_projects a' = prj_Name <$> ac_projects a →
  projects_wf (set_tenants t d) a'.
Proof.
  intros Hwf Href Hp Hq Hn. split; [done|cbn; rewrite Hq; exact (pw_level _ _ Hwf)| |].
  - intros i j x y Hx Hy. cbn. rewrite Hq.
    assert (Hrow : ∀ i x, ac_projects a' !! i = Some x →
      ∃ x0, ac_projects a !! i = Some x0 ∧ prj_Name x0 = prj_Name x).
    { intros k z Hz. apply (f_equal (lookup k)) in Hn. rewrite !lookup_fmap, Hz in Hn.
      destruct (ac_projects a !! k) as [z0|]; [|done]. injection Hn as Hn. eauto. }
    destruct (Hrow _ _ Hx) as (x0 & Hx0 & <-), (Hrow _ _ Hy) as (y0 & Hy0 & <-).
    by apply (pw_names _ _ Hwf).
  - pose proof (pw_references _ _ Hwf) as Hr. apply (self_contained_with d _ a); cbn.
    + done.
    + rewrite Hq. exact (pw_level _ _ Hwf).
    + rewrite Hp, Hq. exact (rf_parents _ _ Hr).
    + rewrite Hp, Hq. intros i r Hi. split_and!; [done| |done]. apply (rf_rules _ _ Hr _ _ Hi).
    + rewrite Hp, Hq. intros k p Hk. split_and!; [done| |done]. apply (rf_references _ _ Hr _ _ Hk).
    + done.
    + done.
Qed.

Lemma entitlements_wf new id : preserves (@wf X) (CreateEntitlements new id).
Proof.
  apply (framed_statement wf). intros s Hwf. cbn zeta. case_bool_decide as Hf; [|done].
  pose proof (pw_references _ _ Hwf) as Hr.
  apply (projects_wf_with _ (tables s) (as_accounts s)); [done| |done..].
  apply (references_with _ _ (as_accounts s)); cbn; try done.
  - intros e [Hin|Hin]%elem_of_union; [|by apply (rf_entitlements _ _ Hr)].
    apply elem_of_list_to_set, list_elem_of_fmap in Hin as (f & -> & Hin).
    destruct Hf as [_ [->|Hp]]; [by list_cases Hin|done].
  - exact (rf_parents _ _ Hr).
  - exact (rf_rows _ _ Hr).
  - intros c i Hi. split; [done|]. apply (rf_invites _ _ Hr _ _ Hi).
Qed.

(** Other accounts on the same tables. *)
Lemma accounts_wf s a' :
  wf s → prj_Name <$> ac_projects a' = prj_Name <$> ac_projects (as_accounts s) →
  (∀ c i, ac_invites a' !! c = Some i →
     ac_invites (as_accounts s) !! c = Some i ∧ is_Some (ac_users a' !! ui_Sponsor i)) →
  ac_installs a' = ac_installs (as_accounts s) →
  wf (with_accounts a' s).
Proof.
  intros Hwf Hn Hi Hinst. pose proof (pw_references _ _ Hwf) as Hr. unfold wf.
  change (tables (with_accounts a' s)) with (tables s).
  rewrite <-(set_tenants_same (tables s)). apply (projects_wf_with _ _ (as_accounts s)); try done.
  apply (references_with _ _ (as_accounts s)); cbn; try done.
  - exact (rf_entitlements _ _ Hr).
  - exact (rf_parents _ _ Hr).
  - rewrite <-(rf_rows _ _ Hr), <-(dom_fmap_L prj_Name (ac_projects a')), Hn. apply dom_fmap_L.
Qed.

Lemma UpdateProjectMeta_wf id metadata : preserves (@wf X) (UpdateProjectMeta id metadata).
Proof.
  apply (framed_statement wf). intros s Hwf.
  unfold project_at. destruct (ac_projects (as_accounts s) !! id) as [row|] eqn:Hrow; [|done].
  apply accounts_wf; [done| | |done].
  - cbn. rewrite fmap_insert, insert_id; [done|]. by rewrite lookup_fmap, Hrow.
  - intros c i Hi. split; [done|]. apply (rf_invites _ _ (pw_references _ _ Hwf) _ _ Hi).
Qed.

Lemma DeleteUser_query_wf id : preserves (@wf X) (DeleteUser_query id).
Proof.
  apply (framed_statement wf). intros s Hwf. apply accounts_wf; [done..| |done].
  intros c i [Hi Hne]%map_lookup_filter_Some. split; [done|].
  destruct (rf_invites _ _ (pw_references _ _ Hwf) _ _ Hi) as [_ Hu]. cbn in *.
  by rewrite lookup_delete_ne.
Qed.

Lemma DeleteProject_query_wf id : preserves (@wf X) (DeleteProject_query id).
Proof.
  apply (framed_statement wf). intros s Hwf. cbn zeta. repeat case_bool_decide; try done.
  by apply cascade_tree_wf.
Qed.

(** A top-level project, or one below a top-level project. *)
Lemma create_project_wf id parent name metadata s :
  wf s → (∀ p, parent = Some p → parent_projects (tables s) !! p = None) →
  wf (create_project id parent name metadata s).1.
Proof.
  intros Hwf Hroot. unfold create_project. cbn zeta. case_bool_decide as Hnew; [done|].
  destruct (match parent with Some p => _ | None => _ end) eqn:Hp; [|done].
  apply Decidable.not_or in Hnew as [Hnew Hname]. apply insert_wf; [done|exact Hnew| |exact Hname].
  intros p ->. split; [by apply bool_decide_eq_true in Hp|by apply Hroot].
Qed.
End statements.
End invariant.
