(* ===== verification/Projects.v ===== *)
(** * Projects: internal/projects

    The names and the metadata of projects (meta.go), their creation
    (creator.go) and deletion (deleter.go), and the features of a project
    (features/features.go, pkg/config/server/features.go); then the deletion of
    projects and users. *)

From S2P Require Import Prelude GoErrors GoMonad GoStrings GoText Uuid DbTypes.
From S2P Require Import Properties Database HistoryDb EntityModels EntityDb.
From S2P Require Import EntityService EntityEvent Eea Crypto Authz Accounts Email.
From S2P Require Import Invites ProjectDb.
From Stdlib Require Import Ascii.
Local Open Scope string_scope.

(** ** meta.go *)

Definition MinderMetadataVersion : string := "v1alpha1".

Definition ErrValidationFailed : gerr := ENew "projects.ErrValidationFailed" "validation failed".

Definition in_range (a b : ascii) (c : ascii) : bool :=
  (nat_of_ascii a <=? nat_of_ascii c)%nat && (nat_of_ascii c <=? nat_of_ascii b)%nat.

Definition is_alnum (c : ascii) : bool :=
  in_range "a" "z" c || in_range "A" "Z" c || in_range "0" "9" c.
Definition is_hyphen (c : ascii) : bool := Ascii.eqb "-" c.
Definition is_underscore (c : ascii) : bool := Ascii.eqb "_" c.

Definition ralnum : regexp := RChar is_alnum.

Definition projectAlnum : regexp :=
  rcat [RBegin; ralnum;
        ropt (RCat (rupto 61 (RChar (λ c, is_hyphen c || is_underscore c || is_alnum c))) ralnum);
        REnd].

Definition projectUuidAlike : regexp :=
  rcat [RBegin; rtimes 8 ralnum; rtext "-"; rtimes 3 (RCat (rtimes 4 ralnum) (rtext "-"));
        rtimes 12 ralnum; REnd].

(** Letters, digits and hyphens *)
Definition rlabel : regexp := RChar (λ c, is_alnum c || is_hyphen c).

Definition projectDnsName : regexp :=
  rcat [RBegin;
        rplus (rcat [ralnum; ropt (RCat (rupto 61 rlabel) ralnum); rtext "."]);
        ralnum; rupto 61 rlabel; ralnum; REnd].

Definition invalid_name (why : string) : error := Some (EWrap "" ErrValidationFailed (": " +:+ why)).

Definition ValidateName (name : string) : error :=
  if String.eqb name "" then invalid_name "name cannot be empty"
  else if Strings.Contains name "/" then invalid_name "name cannot contain '/'"
  else if MatchString projectUuidAlike name then invalid_name "name cannot be UUID-like"
  else if (63 <? String.length name)%nat then invalid_name "name is too long"
  else if negb (MatchString projectAlnum name) && negb (MatchString projectDnsName name)
  then invalid_name "name must be a valid DNS name or an alphanumeric sequence"
  else None.

Definition NewSelfEnrolledMetadata (projectName : string) : Metadata :=
  {| meta_Version := MinderMetadataVersion; meta_SelfEnrolled := true; meta_Description := "";
     meta_Public := {| pm_Description := "A self-enrolled project.";
                       pm_DisplayName := projectName |} |}.

(** The texts of the metadata are ASCII. *)
Definition plain_metadata (m : Metadata) : Prop :=
  Forall (λ s, ascii_string s = true)
    [meta_Version m; meta_Description m; pm_Description (meta_Public m);
     pm_DisplayName (meta_Public m)].

(** encoding/json, the cast to [JSONB] and back: what was written is read. *)
Class MetadataJSON `{InviteLib} := {
  SerializeMetadata : Metadata → string + gerr;
  SerializeMetadata_read : ∀ m, plain_metadata m →
    ∃ s, SerializeMetadata m = inl s ∧ meta_Unmarshal s = inl m;
}.

(** ** features.go *)

Definition projectHierarchyOperationsEnabledFlag : string := "project_hierarchy_operations_enabled".

Definition ProjectAllowsProjectHierarchyOperations (projectID : UUID) : prog World bool :=
  featureEnabled projectID projectHierarchyOperationsEnabledFlag.

(** *** pkg/config/server/features.go *)

(** The claim [realm_access] of the token, if there is one. *)
Definition extractMembershipsFromContext (realm_access : option goval) : list string :=
  match realm_access with
  | Some (GMap m) =>
      match m !! "roles" with
      | Some (GSlice rawMemberships) =>
          omap (λ v, match v with GString s => Some s | _ => None end) rawMemberships
      | _ => []
      end
  | _ => []
  end.

Definition GetFeaturesForMemberships (mapping : gmap string string) (realm_access : option goval)
    : list string :=
  omap (λ m, match mapping !! m with
             | Some feature => if String.eqb feature "" then None else Some feature
             | None => None
             end) (extractMembershipsFromContext realm_access).

(** ** The interfaces the projects use *)

(** The marketplace of internal/marketplaces, in the transaction of its caller. *)
Class Marketplace (X : Type) := {
  Subscribe : UUID → string * string → prog (AuthState X) unit;
  AddProfile : UUID → string * string → string → prog (AuthState X) unit;
}.

#[export] Instance noopMarketplace X : Marketplace X :=
  {| Subscribe _ _ := mret tt; AddProfile _ _ _ := mret tt |}.

(** Of the context of a request: the caller, the claim of its realm, and the
    project and the provider of the entity. *)
Record Request := {
  rq_Caller : Caller; rq_realm_access : option goval; rq_Project : UUID; rq_Provider : string;
}.

(** The flags of pkg/flags: the client, if there is one, is asked with the
    project, the provider and the user. *)
Abbreviation Flags := (option (string → string * string * string → bool)).

Definition ProjectCreateDelete : string := "project_create_delete".

Definition flags_Bool `{UuidLib} (client : Flags) (feature : string) (ctx : Request) : bool :=
  match client with
  | Some f => f feature (uuid_String (rq_Project ctx), rq_Provider ctx,
                         Identity_String (cl_Identity (rq_Caller ctx)))
  | None => false
  end.

(** The configuration of the creator: the default bundle and profiles, and the
    features of the memberships. *)
Record CreatorConfig := {
  cc_Bundle : string * string; cc_Profiles : list string; cc_Features : gmap string string;
  cc_Flags : Flags;
}.

(** ** creator.go *)

Definition ErrProjectAlreadyExists : gerr :=
  ENew "projects.ErrProjectAlreadyExists" "project already exists".

(** [defer], for what is to be done when the rest fails; its own outcome is only
    logged. *)
Definition on_error {W A} (undo : prog W unit) (m : prog W A) : prog W A := λ w,
  let '(w1, r) := m w in
  match r with
  | Err e => match undo w1 with
             | (w2, Panic msg) => (w2, Panic msg)
             | (w2, _) => (w2, Err e)
             end
  | _ => (w1, r)
  end.

Section creator.
Context `{UuidLib} `{RandomUuid} `{PgText} `{InviteLib} `{!MetadataJSON}.
Context {X : Type} `{!OpenFGA X} `{!Marketplace X}.
Context (config : CreatorConfig).

Definition lift_sum {W A} (r : A + gerr) : prog W A :=
  match r with inl a => mret a | inr err => throw err end.

(** What is created for a new top-level project. *)
Definition default_records (ctx : Request) (projectID : UUID) (projectName jsonmeta : string)
    : prog (AuthState X) dbProject :=
  project ← or_throw (λ err, if is_in err UniqueViolation then ErrProjectAlreadyExists
                             else EText ("failed to create default project: " +:+ Error err))
              (CreateProjectWithID projectID projectName jsonmeta);
  wrapf "error creating entitlements: "
    (CreateEntitlements (GetFeaturesForMemberships (cc_Features config) (rq_realm_access ctx))
       (dp_ID project));;
  wrapf "unable to subscribe to bundle: " (Subscribe (dp_ID project) (cc_Bundle config));;
  foreach (λ profileName, wrapf "unable to enable bundle profile: "
                            (AddProfile (dp_ID project) (cc_Bundle config) profileName))
    (cc_Profiles config);;
  mret project.

Definition ProvisionSelfEnrolledProject (ctx : Request) (projectName userSub : string)
    : prog (AuthState X) dbProject :=
  match ValidateName projectName with
  | Some err => throw (failing "InvalidArgument" "invalid project name: " err)
  | None =>
      jsonmeta ← wrapf "failed to marshal meta: "
        (lift_sum (SerializeMetadata (NewSelfEnrolledMetadata projectName)));
      projectID ← on_world uuid_New;
      wrapf "failed to create authorization tuple: "
        (on_fga (Write userSub RoleAdmin projectID));;
      on_error (on_fga (Delete userSub RoleAdmin projectID))
        (default_records ctx projectID projectName jsonmeta)
  end.

Definition provisionChildProject (ctx : Request) (parentProjectID : UUID) (projectName : string)
    : prog (AuthState X) dbProject :=
  parent ← or_throw (λ err, if is_in err ErrNoRows then status_error "NotFound" "project not found"
                            else failing "Internal" "error getting project: " err)
             (GetProject parentProjectID);
  if bool_decide (is_Some (dp_ParentID parent))
  then throw (status_error "InvalidArgument" "cannot create subproject of a subproject")
  else
    match ValidateName projectName with
    | Some err => throw (failing "InvalidArgument" "invalid project name: " err)
    | None =>
        subProject ← or_throw (λ err, if is_in err UniqueViolation
            then status_error "AlreadyExists" ("project named " +:+ projectName +:+ " already exists")
            else failing "Internal" "error creating subproject: " err)
          (CreateProject_query projectName (Some parentProjectID) "{}");
        or_throw (failing "Internal" "error creating entitlements: ")
          (CreateEntitlements (GetFeaturesForMemberships (cc_Features config) (rq_realm_access ctx))
             (dp_ID subProject));;
        or_throw (failing "Internal" "error creating subproject: ")
          (on_fga (Adopt (dp_ID parent) (dp_ID subProject)));;
        mret subProject
    end.

(** The [minder.Project] of an answer. *)
Record pbProject := {
  pp_ProjectId : string; pp_Name : string; pp_Description : string; pp_DisplayName : string;
  pp_CreatedAt : Z; pp_UpdatedAt : Z;
}.

Definition project_answer (p : dbProject) (description displayName : string) : pbProject :=
  {| pp_ProjectId := uuid_String (dp_ID p); pp_Name := prj_Name (dp_Row p);
     pp_Description := description; pp_DisplayName := displayName;
     pp_CreatedAt := prj_CreatedAt (dp_Row p); pp_UpdatedAt := prj_UpdatedAt (dp_Row p) |}.

Definition quoted (s : string) : string := String dquote (s +:+ String dquote "").

Definition in_request {A} (m : prog (AuthState X) A) : prog (AuthState X) A :=
  transaction (failing "Internal" "error starting transaction: ")
    (failing "Internal" "error committing transaction: ") m.

Definition ProvisionProject (ctx : Request) (projectName : string) (parentProjectID : UUID)
    : prog (AuthState X) pbProject :=
  let id := cl_Identity (rq_Caller ctx) in
  project ←
    (if negb (bool_decide (parentProjectID = uuid_Nil)) then
       or_throw (λ _, status_error "PermissionDenied"
           ("user " +:+ quoted (Identity_Human id) +:+
            " is not authorized to perform this operation on project " +:+
            quoted (uuid_String parentProjectID)))
         (on_fga (Check_action id "create" parentProjectID));;
       allowed ← on_world (ProjectAllowsProjectHierarchyOperations parentProjectID);
       if negb allowed
       then throw (status_error "PermissionDenied" "project does not allow project hierarchy operations")
       else in_request (provisionChildProject ctx parentProjectID projectName)
     else if negb (flags_Bool (cc_Flags config) ProjectCreateDelete ctx)
     then throw (status_error "Unimplemented" "cannot create a new top-level project")
     else if String.eqb (Identity_String id) ""
     then throw (status_error "Unauthenticated" "cannot determine user ID")
     else in_request (ProvisionSelfEnrolledProject ctx projectName (Identity_String id)));
  mret (project_answer project "" "").
End creator.

(** * Deleting projects and users

    internal/projects/deleter.go, the DeleteProject handler of
    internal/controlplane/handlers_projects.go and DeleteUser of
    internal/controlplane/identity_events.go.  They run in a transaction, while
    the providers are deleted on a connection of their own: a session has both
    the tables the transaction sees and those it would go back to. *)

(** ** Sessions *)

Record Session (X : Type) := { se_committed : Db * Accounts; se_state : AuthState X }.
Arguments se_committed {X} _.
Arguments se_state {X} _.

Section session.
Context {X : Type}.

Definition in_tx {A} (m : prog (AuthState X) A) : prog (Session X) A := λ s,
  let '(t, r) := m (se_state s) in ({| se_committed := se_committed s; se_state := t |}, r).

(** A query of the connection outside of the transaction. *)
Definition outside {A} (m : prog (AuthState X) A) : prog (Session X) A := λ s,
  let st := se_state s in
  let '(st', r) := m (with_tables (se_committed s).1 (se_committed s).2 st) in
  ({| se_committed := (tables st', as_accounts st');
      se_state := with_tables (tables st) (as_accounts st) st' |}, r).

(** The deletion of a provider there, which the transaction sees. *)
Definition DeleteProvider (id projectID : UUID) : prog (Session X) unit := λ s,
  let '(st, r) := statement (λ st, (st, Ok tt)) (se_state s) in
  match r with
  | Ok _ =>
      let dropped := drop_provider id projectID (se_committed s) in
      if bool_decide (no_dangling dropped.1) then
        let '(d, a) := drop_provider id projectID (tables st, as_accounts st) in
        ({| se_committed := dropped; se_state := with_tables d a st |}, Ok tt)
      else ({| se_committed := se_committed s; se_state := st |}, Err ForeignKeyViolation)
  | _ => ({| se_committed := se_committed s; se_state := st |}, r)
  end.

(** The transaction of a request that runs [fn]. *)
Definition session {A} (fb fc : gerr → gerr) (fn : prog (Session X) A) : prog (AuthState X) A := λ s,
  let undo (s' : Session X) :=
    with_tables (se_committed s').1 (se_committed s').2 (se_state s') in
  let '(s1, b) := statement (λ s, (s, Ok tt)) s in
  match b with
  | Ok _ =>
      match fn {| se_committed := (tables s1, as_accounts s1); se_state := s1 |} with
      | (s2, Ok a) =>
          let '(s3, c) := in_tx (statement (λ s, (s, Ok tt))) s2 in
          match c with
          | Ok _ => (se_state s3, Ok a)
          | Err e => (undo s3, Err (fc e))
          | Panic m => (undo s3, Panic m)
          end
      | (s2, Err e) => (undo s2, Err e)
      | (s2, Panic m) => (undo s2, Panic m)
      end
  | Err e => (s1, Err (fb e))
  | Panic m => (s1, Panic m)
  end.
End session.

(** The [ProviderManager] of internal/providers/manager, as far as projects use
    it: the deletion of a provider with what its class has set up elsewhere. *)
Class ProviderDeletion (X : Type) := { DeleteByID : UUID → UUID → prog (Session X) unit }.

Section deleter.
Context `{UuidLib} {X : Type} `{!OpenFGA X} `{!ProviderDeletion X}.

(** ** deleter.go *)

Definition hasOtherRoleAssignments (assigned : list RoleAssignment) (subject : string) : bool :=
  existsb (λ a, String.eqb (ra_Role a) RoleAdmin && negb (String.eqb (ra_Subject a) subject)) assigned.

(** The [ProjectTombstone] of the telemetry. *)
Definition exportProjectMetadata (projectID : UUID) : prog (AuthState X) (Z * Z * list string) :=
  profilesCount ← wrapf "error getting profiles count: " (CountProfilesByProjectID projectID);
  reposCount ← wrapf "error getting repositories count: "
                 (CountEntitiesByTypeAndProject EntitiesRepository projectID);
  entitlementFeatures ← wrapf "error getting entitlement features: "
                          (GetEntitlementFeaturesByProjectID projectID);
  mret (profilesCount, reposCount, entitlementFeatures).

Definition delete_providers (proj : UUID) (dbProviders : list (UUID * Provider))
    : prog (Session X) unit :=
  foreach (λ provider, try (DeleteByID provider.1 proj);; mret tt) dbProviders.

(** An assignment whose role is no role is only logged. *)
Definition delete_assignments (proj : UUID) (assigned : list RoleAssignment) : prog X unit :=
  foreach (λ a, match ParseRole (ra_Role a) with
                | Ok role =>
                    wrapf ("error deleting role assignment " +:+ ra_Role a +:+ " for project "
                           +:+ uuid_String proj +:+ ": ") (Delete (ra_Subject a) role proj)
                | _ => mret tt
                end) assigned.

Definition orphan_projects (deletions : list dbProject) : prog X unit :=
  foreach (λ d, match dp_ParentID d with
                | Some parent =>
                    or_throw (λ err, EText ("error orphaning project " +:+ Error err))
                      (Orphan parent (dp_ID d))
                | None => mret tt
                end) deletions.

Definition projectDeleter_DeleteProject (proj : UUID) : prog (Session X) unit :=
  found ← try (in_tx (GetProject proj));
  match found with
  | inr err => if is_in err ErrNoRows then mret tt
               else throw (EText ("error getting project " +:+ Error err))
  | inl _ =>
      dbProviders ← try (in_tx (ListProvidersByProjectID [proj]));
      delete_providers proj (match dbProviders with inl l => l | inr _ => [] end);;
      in_tx (exportProjectMetadata proj);;
      assigned ← wrapf ("error getting role assignments for project " +:+ uuid_String proj +:+ ": ")
                   (in_tx (on_fga (AssignmentsToProject proj)));
      in_tx (on_fga (delete_assignments proj assigned));;
      deletions ← or_throw (λ err, EText ("error deleting project " +:+ Error err))
                    (in_tx (DeleteProject_query proj));
      in_tx (on_fga (orphan_projects deletions))
  end.

Definition CleanUpUnmanagedProjects (subject : string) (proj : UUID) : prog (Session X) unit :=
  dbProj ← try (in_tx (GetProject proj));
  match dbProj with
  | inr err => if is_in err ErrNoRows then mret tt else throw err
  | inl dbProj =>
      if bool_decide (is_Some (dp_ParentID dbProj)) then mret tt
      else
        assigned ← or_throw (λ err, EText ("error getting role assignments for project: " +:+ Error err))
                     (in_tx (on_fga (AssignmentsToProject proj)));
        if hasOtherRoleAssignments assigned subject then mret tt
        else or_throw (λ err, EText ("error deleting project " +:+ Error err))
               (projectDeleter_DeleteProject proj)
  end.

(** ** handlers_projects.go *)

Definition DeleteProject (featureFlags : Flags) (ctx : Request) : prog (AuthState X) string :=
  let projectID := rq_Project ctx in
  session (failing "Internal" "error starting transaction: ")
    (failing "Internal" "error committing transaction: ")
    (subProject ← or_throw (λ err, if is_in err ErrNoRows
                                   then status_error "NotFound" "project not found"
                                   else failing "Internal" "error getting project: " err)
                    (in_tx (GetProject projectID));
     match dp_ParentID subProject with
     | Some parent =>
         allowed ← outside (on_world (ProjectAllowsProjectHierarchyOperations parent));
         if negb allowed
         then throw (status_error "PermissionDenied"
                       "project does not allow project hierarchy operations")
         else mret tt
     | None =>
         if negb (flags_Bool featureFlags ProjectCreateDelete ctx)
         then throw (status_error "InvalidArgument" "cannot delete a top-level project")
         else mret tt
     end;;
     or_throw (failing "Internal" "error deleting project: ")
       (projectDeleter_DeleteProject projectID));;
  mret (uuid_String projectID).

(** ** identity_events.go *)

(** The transaction: the projects of the user without another administrator, and
    the user, if there is one. *)
Definition delete_user_data (projs : list UUID) (userId : string) : prog (Session X) unit :=
  usr ← try (in_tx (GetUserBySubject userId));
  usr ← match usr with
        | inl id => mret (Some id)
        | inr err => if is_in err ErrNoRows then mret None
                     else throw (EText ("error retrieving user " +:+ Error err))
        end;
  foreach (λ proj, or_throw (λ err, EText ("error deleting project " +:+ uuid_String proj +:+ ": "
                                           +:+ Error err))
                     (CleanUpUnmanagedProjects userId proj)) projs;;
  match usr with
  | Some id => if String.eqb userId "" then mret tt
               else or_throw (λ err, EText ("error deleting user " +:+ Error err))
                      (in_tx (DeleteUser_query id))
  | None => mret tt
  end.

(** [depth] bounds the depth of the tree of projects. *)
Definition DeleteUser (depth : nat) (userId : string) : prog (AuthState X) unit :=
  projs ← or_throw (λ err, EText ("error getting projects for user " +:+ Error err))
            (on_fga (ProjectsForUser depth userId));
  session id id (delete_user_data projs userId);;
  or_throw (λ err, EText ("error deleting authorization tuple " +:+ Error err))
    (on_fga (DeleteUser_tuples userId)).
End deleter.
