(* ===== verification/ProjectLifecycle.v ===== *)
(** * Creating projects

    A project is created with its parent and its administrator, or nothing is but
    at most one tuple about a project that does not exist. *)

From S2P Require Import Prelude GoErrors GoMonad GoStrings Uuid DbTypes Properties.
From S2P Require Import ProfileModels Database HistoryDb EntityModels EntityDb.
From S2P Require Import EntityService ProfileDb EntityEvent Eea Crypto Authz Accounts.
From S2P Require Import Email Invites ProjectDb Projects.
Local Open Scope string_scope.

(** ** Programs that leave the tables alone *)

Section tables.
Context {X : Type}.
Implicit Types s : AuthState X.

Lemma preserves_on_tables_fga {A} (I : AuthState X → Prop) `{!OnTables I} (m : prog X A) :
  preserves I (on_fga m).
Proof.
  intros s Hs. unfold on_fga. destruct (m (as_fga s)) as [x r]. by apply (on_tables s).
Qed.

Lemma preserves_on_tables_world {A} (I : AuthState X → Prop) `{!OnTables I} (m : prog World A) :
  (∀ w, w_db (m w).1 = w_db w) → preserves I (on_world m).
Proof.
  intros Hm s Hs. unfold on_world. specialize (Hm (as_world s)). destruct (m (as_world s)) as [w r].
  by apply (on_tables s).
Qed.

(** What fails is undone. *)
Lemma preserves_on_tables_transaction {A} (I : AuthState X → Prop) `{!OnTables I} fb fc
    (fn : prog (AuthState X) A) : preserves I fn → preserves I (transaction fb fc fn).
Proof.
  intros Hfn s Hs. destruct (transaction fb fc fn s) as [s' r] eqn:Hr.
  apply transaction_cases in Hr as [(a & s1 & s2 & _ & H1 & Hrun & H2)|(_ & Ha & Hd & _)].
  - apply (framed s2); [done|]. apply (framed _ _ H1), Hfn in Hs. by rewrite Hrun in Hs.
  - by apply (on_tables s).
Qed.

Lemma preserves_on_error {W A} (I : W → Prop) undo (m : prog W A) :
  preserves I undo → preserves I m → preserves I (on_error undo m).
Proof.
  intros Hu Hm w Hw. unfold on_error. specialize (Hm w Hw). destruct (m w) as [w1 [a|e|msg]]; try done.
  specialize (Hu w1 Hm). by destruct (undo w1) as [w2 []].
Qed.

Lemma on_error_Ok {W A} undo (m : prog W A) w w' a :
  on_error undo m w = (w', Ok a) → m w = (w', Ok a).
Proof. unfold on_error. destruct (m w) as [w1 [|e|msg]]; [done| |done]. by destruct (undo w1) as [w2 []]. Qed.

Lemma on_fga_run {A} (m : prog X A) s s' r :
  on_fga m s = (s', r) → as_fga s' = (m (as_fga s)).1 ∧ r = (m (as_fga s)).2 ∧
    as_world s' = as_world s ∧ as_accounts s' = as_accounts s.
Proof. unfold on_fga. destruct (m (as_fga s)). by intros [= <- <-]. Qed.
End tables.

(** ** What the marketplace may do *)

(** It adds rule types and profiles, and leaves projects, accounts and roles
    alone. *)
Definition leaves_projects `{PgText} {X} `{!OpenFGA X} (m : prog (AuthState X) unit) : Prop :=
  preserves wf m ∧ ∀ s, tenants (tables (m s).1) = tenants (tables s) ∧
    as_accounts (m s).1 = as_accounts s ∧ fga_tuples (as_fga (m s).1) = fga_tuples (as_fga s).

Record market_laws `{PgText} {X} `{!OpenFGA X} `{!Marketplace X} : Prop := {
  ml_subscribe : ∀ id bundle, leaves_projects (Subscribe id bundle);
  ml_profile : ∀ id bundle name, leaves_projects (AddProfile id bundle name);
}.

Lemma noop_market_laws `{PgText} {X} `{!OpenFGA X} : @market_laws _ X _ (noopMarketplace X).
Proof. split; intros; (split; [apply preserves_ret|done]). Qed.

(** ** Tuples about one project *)

(** The tuples are the same but for [t]. *)
Definition differ_at `{OpenFGA X} (t : Tuple) (T : gset Tuple) (x : X) : Prop :=
  fga_tuples x ∖ {[t]} = T ∖ {[t]}.

Section differ.
Context `{UuidLib} `{PgText} {X : Type} `{!OpenFGA X} (L : fga_laws).
Implicit Types s : AuthState X.

Abbreviation at_tuple t T := (kept (λ _, True) (differ_at t T)).

Lemma write_differ t T : preserves (differ_at t T) (write t).
Proof using L.
  intros x Hx. destruct (write t x) as [x' r] eqn:Hr. pose proof (write_effect L _ _ _ _ Hr) as He.
  cbn. unfold differ_at in *. destruct r; [rewrite He; set_solver|by rewrite He|done].
Qed.

Lemma Delete_differ user role project T :
  preserves (differ_at (getUserForTuple user, role, getProjectForTuple project) T)
    (Delete user role project).
Proof using L.
  intros x Hx. destruct (Delete user role project x) as [x' r] eqn:Hr.
  pose proof (Delete_effect L _ _ _ _ _ _ Hr) as He. cbn. unfold differ_at in *.
  destruct r; [rewrite He; set_solver|by rewrite He|done].
Qed.

Lemma leaves_projects_differ t T m : leaves_projects m → preserves (at_tuple t T) m.
Proof.
  intros [_ Hm] s [_ Hs]. destruct (Hm s) as (_ & _ & Hf). split; [done|].
  unfold differ_at in *. by rewrite Hf.
Qed.

Lemma create_project_fga id parent name metadata s :
  as_fga (create_project id parent name metadata s).1 = as_fga s.
Proof. unfold create_project. by repeat case_match. Qed.

Lemma preserves_create t T id parent name metadata :
  preserves (at_tuple t T) (statement (create_project id parent name metadata)).
Proof.
  apply preserves_statement. intros s [_ Hs]. split; [done|]. by rewrite create_project_fga.
Qed.

Lemma preserves_entitlements t T new id : preserves (at_tuple t T) (CreateEntitlements new id).
Proof. apply preserves_statement. intros s [_ Hs]. cbn zeta. by case_match. Qed.
End differ.

(** ** Creation *)

Section creation.
Context `{UuidLib} `{RandomUuid} `{PgText} `{InviteLib} `{!MetadataJSON}.
Context {X : Type} `{!OpenFGA X} `{!Marketplace X}.
Context (config : CreatorConfig) (L : fga_laws) (M : market_laws).
Implicit Types s : AuthState X.

Abbreviation at_tuple t T := (kept (λ _, True) (differ_at t T)).

(** The id the next project gets. *)
Definition next_id s : UUID := gen_random_uuid (w_fresh (as_world s)).

Lemma same_next_id s s' : same s s' → next_id s' = next_id s.
Proof. intros (_ & _ & fs & E & _). unfold next_id. by rewrite E. Qed.

(** The tuple a request on [parent] for [sub] is about. *)
Definition creation_tuple (sub : string) (parent id : UUID) : Tuple :=
  if bool_decide (parent = uuid_Nil) then (getUserForTuple sub, RoleAdmin, getProjectForTuple id)
  else (getProjectForTuple parent, "parent", getProjectForTuple id).

Lemma default_records_differ t T ctx id name meta :
  preserves (at_tuple t T) (default_records config ctx id name meta).
Proof using M.
  unfold default_records. apply preserves_bind.
  { apply preserves_or_throw, preserves_create. }
  intros project. apply preserves_bind; [apply preserves_wrapf, preserves_entitlements|]. intros [].
  apply preserves_bind; [apply preserves_wrapf, leaves_projects_differ, (ml_subscribe M)|]. intros [].
  apply preserves_bind; [|intros []; apply preserves_ret].
  apply preserves_foreach. intros profileName.
  apply preserves_wrapf, leaves_projects_differ, (ml_profile M).
Qed.

(** The creation proper, once the name and the metadata are there. *)
Definition create_self_enrolled ctx name sub id meta : prog (AuthState X) dbProject :=
  wrapf "failed to create authorization tuple: " (on_fga (Write sub RoleAdmin id));;
  on_error (on_fga (Delete sub RoleAdmin id)) (default_records config ctx id name meta).

Definition after_id s : AuthState X :=
  with_world (set_fresh (S (w_fresh (as_world s))) (as_world s)) s.

Lemma ProvisionSelf_run ctx name sub s s' r :
  ProvisionSelfEnrolledProject config ctx name sub s = (s', r) →
  (s' = s ∧ is_ok r = false) ∨
  ∃ meta, ValidateName name = None ∧
    create_self_enrolled ctx name sub (next_id s) meta (after_id s) = (s', r).
Proof.
  unfold ProvisionSelfEnrolledProject. destruct (ValidateName name); [intros [= <- <-]; by left|].
  destruct (SerializeMetadata _) as [meta|e]; [|intros [= <- <-]; by left].
  intros Hrun. right. exists meta. done.
Qed.

Lemma ProvisionSelf_differ ctx name sub s s' r :
  ProvisionSelfEnrolledProject config ctx name sub s = (s', r) →
  differ_at (getUserForTuple sub, RoleAdmin, getProjectForTuple (next_id s))
    (fga_tuples (as_fga s)) (as_fga s').
Proof using L M.
  intros [[-> _]|(meta & _ & Hrun)]%ProvisionSelf_run; [done|].
  set (t := (_, _, _)).
  assert (Hm : preserves (at_tuple t (fga_tuples (as_fga s)))
                 (create_self_enrolled ctx name sub (next_id s) meta)).
  { apply preserves_bind; [apply preserves_wrapf, preserves_on_fga, write_differ, L|]. intros [].
    apply preserves_on_error; [apply preserves_on_fga, Delete_differ, L|].
    apply default_records_differ. }
  specialize (Hm (after_id s)). rewrite Hrun in Hm. apply Hm. by split.
Qed.

(** The creation of a child, once its parent is there and its name is good. *)
Definition create_child ctx (parent : UUID) name : prog (AuthState X) dbProject :=
  subProject ← or_throw (λ err, if is_in err UniqueViolation
      then status_error "AlreadyExists" ("project named " +:+ name +:+ " already exists")
      else failing "Internal" "error creating subproject: " err)
    (CreateProject_query name (Some parent) "{}");
  or_throw (failing "Internal" "error creating entitlements: ")
    (CreateEntitlements (GetFeaturesForMemberships (cc_Features config) (rq_realm_access ctx))
       (dp_ID subProject));;
  or_throw (failing "Internal" "error creating subproject: ")
    (on_fga (Adopt parent (dp_ID subProject)));;
  mret subProject.

Lemma GetProject_run id s s' r :
  GetProject id s = (s', r) → same s s' ∧ (∀ p, r = Ok p →
    project_at s' id = Some p ∧ id ∈ projects (tables s') ∧ (id ∉ organizations (tables s'))).
Proof.
  intros [Hs Hr]%account_select_cases. split; [done|]. intros p ->. specialize (Hr eq_refl).
  destruct (project_at s' id) as [q|]; [|done]. case_bool_decide as Hin; [|done].
  injection Hr as ->. tauto.
Qed.

Lemma project_at_Some s id p :
  project_at s id = Some p →
  dp_ID p = id ∧ dp_ParentID p = parent_projects (tables s) !! id ∧
  ac_projects (as_accounts s) !! id = Some (dp_Row p).
Proof.
  unfold project_at. destruct (ac_projects (as_accounts s) !! id) as [row|]; [|done].
  by intros [= <-].
Qed.

Lemma provisionChild_run ctx parent name s s' r :
  provisionChildProject config ctx parent name s = (s', r) →
  (same s s' ∧ is_ok r = false) ∨
  ∃ s1, same s s1 ∧ parent ∈ projects (tables s1) ∧ parent_projects (tables s1) !! parent = None ∧
    ValidateName name = None ∧ create_child ctx parent name s1 = (s', r).
Proof.
  intros Hrun. unfold provisionChildProject in Hrun.
  apply prog_bind_inv in Hrun as [(s1 & p & Hp%or_throw_Ok & Hrun)|(Hr & r1 & Hp & _)].
  2: { left. split; [|done]. destruct (GetProject parent s) as [s1 r2] eqn:Hg.
       pose proof (or_throw_state (λ err, if is_in err ErrNoRows
         then status_error "NotFound" "project not found"
         else failing "Internal" "error getting project: " err) (GetProject parent) s) as E.
       rewrite Hp, Hg in E. cbn in E. subst s1. by apply GetProject_run in Hg as [? _]. }
  apply GetProject_run in Hp as [Hs Hp]. destruct (Hp p eq_refl) as (Hat & Hin & _).
  apply project_at_Some in Hat as (Hid & Hpar & _).
  case_bool_decide as Hroot; [injection Hrun as <- <-; by left|].
  destruct (ValidateName name) eqn:Hn; [injection Hrun as <- <-; by left|].
  right. exists s1. split_and!; try done.
  - rewrite <-Hpar. by apply eq_None_not_Some.
  - unfold create_child. by rewrite <-Hrun, Hid.
Qed.

Lemma create_project_run id parent name metadata s s' r :
  create_project id parent name metadata s = (s', r) →
  (s' = s ∧ is_ok r = false) ∨
  ∃ row, prj_Name row = name ∧ (id ∉ projects (tables s)) ∧ ¬ name_taken s parent name ∧
    (∀ p, parent = Some p → p ∈ projects (tables s)) ∧ s' = insert_project id parent row s ∧
    r = Ok {| dp_ID := id; dp_ParentID := parent; dp_Row := row |}.
Proof.
  unfold create_project. cbn zeta. case_bool_decide as Hnew; [intros [= <- <-]; by left|].
  destruct (match parent with Some p => _ | None => _ end) eqn:Hp; intros [= <- <-]; [|by left].
  right. eexists. split_and!; [|tauto|tauto| |reflexivity|reflexivity]; [done|].
  intros p ->. by apply bool_decide_eq_true in Hp.
Qed.

Lemma CreateProject_query_run name parent metadata s s' r :
  CreateProject_query name parent metadata s = (s', r) →
  (tables s' = tables s ∧ as_accounts s' = as_accounts s ∧ as_fga s' = as_fga s ∧ is_ok r = false) ∨
  ∃ s1 row, same s s1 ∧ prj_Name row = name ∧ (next_id s1 ∉ projects (tables s1)) ∧
    ¬ name_taken s1 parent name ∧ (∀ p, parent = Some p → p ∈ projects (tables s1)) ∧
    s' = insert_project (next_id s1) parent row (after_id s1) ∧
    r = Ok {| dp_ID := next_id s1; dp_ParentID := parent; dp_Row := row |}.
Proof.
  intros [[Hs Hr]|(s1 & Hs & Hc)]%statement_cases.
  { left. split_and!; [exact (same_db _ _ Hs)|apply Hs..|done]. }
  apply create_project_run in Hc as [[-> Hr]|(row & Hn & Hrest)]; [left|right; by exists s1, row].
  split_and!; [exact (same_db _ _ Hs)|apply Hs..|done].
Qed.

Lemma provisionChild_differ ctx parent name s s' r :
  provisionChildProject config ctx parent name s = (s', r) →
  differ_at (getProjectForTuple parent, "parent", getProjectForTuple (next_id s))
    (fga_tuples (as_fga s)) (as_fga s').
Proof using L.
  intros [[Hs _]|(s1 & Hs & _ & _ & _ & Hrun)]%provisionChild_run.
  { unfold differ_at. by rewrite (proj1 (proj2 Hs)). }
  rewrite <-(same_next_id _ _ Hs). destruct Hs as (_ & <- & _).
  set (t := (_, _, _)). set (T := fga_tuples _). unfold create_child in Hrun.
  apply prog_bind_inv in Hrun as [(s2 & p & Hp%or_throw_Ok & Hrun)|(_ & r1 & Hp & _)].
  - apply CreateProject_query_run in Hp as [(_ & _ & _ & [=])|(s3 & row & Hs & _ & _ & _ & _ & -> & [= ->])].
    assert (Hid : next_id s3 = next_id s1) by (by apply same_next_id).
    match type of Hrun with ?m ?s2 = _ => assert (Hm : preserves (at_tuple t T) m) end.
    { apply preserves_bind; [apply preserves_or_throw, preserves_entitlements|]. intros [].
      apply preserves_bind; [|intros; apply preserves_ret]. cbn [dp_ID]. rewrite Hid.
      apply preserves_or_throw, preserves_on_fga, write_differ, L. }
    match type of Hrun with ?m ?s2 = _ => specialize (Hm s2) end. rewrite Hrun in Hm. apply Hm.
    split; [done|]. unfold differ_at, T. destruct Hs as (_ & <- & _). done.
  - match type of Hp with or_throw ?f ?m ?s = _ =>
      pose proof (or_throw_state f m s) as E; rewrite Hp in E;
      destruct (m s) as [s2 r2] eqn:Hc; cbn in E; subst s2 end.
    unfold differ_at, T. apply CreateProject_query_run in Hc as
      [(_ & _ & -> & _)|(s3 & row & (_ & <- & _) & _ & _ & _ & _ & -> & _)]; done.
Qed.

(** *** What a creation that succeeds has done *)

Record created (id : UUID) (parent : option UUID) (name : string) (row : ProjectRow) s s' : Prop := {
  cr_new : id ∉ projects (tables s);
  cr_name : prj_Name row = name;
  cr_free : ¬ name_taken s parent name;
  cr_parent : ∀ p, parent = Some p → p ∈ projects (tables s) ∧ parent_projects (tables s) !! p = None;
  cr_projects : projects (tables s') = {[id]} ∪ projects (tables s);
  cr_parents : parent_projects (tables s') =
    match parent with
    | Some p => <[id := p]> (parent_projects (tables s))
    | None => parent_projects (tables s)
    end;
  cr_rows : ac_projects (as_accounts s') = <[id := row]> (ac_projects (as_accounts s));
}.

(** Nothing about projects has changed. *)
Record quiet s s' : Prop := {
  qu_projects : projects (tables s') = projects (tables s);
  qu_parents : parent_projects (tables s') = parent_projects (tables s);
  qu_rows : as_accounts s' = as_accounts s;
}.

Lemma quiet_trans s1 s2 s3 : quiet s1 s2 → quiet s2 s3 → quiet s1 s3.
Proof. intros [] []. split; congruence. Qed.

Lemma same_quiet s s' : same s s' → quiet s s'.
Proof. intros Hs. pose proof (same_db _ _ Hs) as E. split; unfold tables; [(by rewrite E)..|apply Hs]. Qed.

Lemma after_id_quiet s : quiet s (after_id s).
Proof. by split. Qed.

Lemma created_quiet id parent name row s1 s2 s3 s4 :
  quiet s1 s2 → created id parent name row s2 s3 → quiet s3 s4 → created id parent name row s1 s4.
Proof.
  intros [Hp1 Hq1 Hr1] [] [Hp2 Hq2 Hr2]. unfold name_taken in *. rewrite Hr1, Hq1, Hp1 in *.
  split; unfold name_taken; rewrite ?Hp2, ?Hq2, ?Hr2; assumption.
Qed.

Lemma insert_created id parent row s :
  (id ∉ projects (tables s)) → ¬ name_taken s parent (prj_Name row) →
  (∀ p, parent = Some p → p ∈ projects (tables s) ∧ parent_projects (tables s) !! p = None) →
  created id parent (prj_Name row) row s (insert_project id parent row s).
Proof. intros Hnew Hname Hparent. by split. Qed.

Lemma entitlements_quiet new id s s' :
  CreateEntitlements new id s = (s', Ok tt) → quiet s s' ∧ as_fga s' = as_fga s.
Proof.
  intros [[_ [=]]|(s1 & Hs & Hr)]%statement_cases. cbn zeta in Hr. case_bool_decide; [|done].
  injection Hr as <-. split; [|by apply Hs].
  apply same_quiet in Hs as [Hp Hq Ha]. by split.
Qed.

Lemma market_quiet m s s' r : leaves_projects m → m s = (s', r) →
  quiet s s' ∧ fga_tuples (as_fga s') = fga_tuples (as_fga s).
Proof.
  intros [_ Hm] Hr. destruct (Hm s) as (Ht & Ha & Hf). rewrite Hr in *. cbn in *.
  unfold tenants in Ht. injection Ht as Hp Hq _ _ _. by split.
Qed.

Lemma profiles_quiet id bundle names s s' :
  foreach (λ name, wrapf "unable to enable bundle profile: " (AddProfile id bundle name)) names s
    = (s', Ok tt) → quiet s s' ∧ fga_tuples (as_fga s') = fga_tuples (as_fga s).
Proof using M.
  apply (foreach_Ok (λ s', quiet s s' ∧ fga_tuples (as_fga s') = fga_tuples (as_fga s))).
  - intros name s1 s2 _ [Hq Hf] Hr%wrapf_Ok.
    apply market_quiet in Hr as [Hq' Hf']; [|apply (ml_profile M)].
    split; [by eapply quiet_trans|congruence].
  - by split.
Qed.

Lemma default_records_Ok ctx id name meta s s' p :
  default_records config ctx id name meta s = (s', Ok p) →
  ∃ row, p = {| dp_ID := id; dp_ParentID := None; dp_Row := row |} ∧ created id None name row s s' ∧
         fga_tuples (as_fga s') = fga_tuples (as_fga s).
Proof using M.
  unfold default_records. intros (s1 & q & Hq%or_throw_Ok & Hr)%prog_bind_Ok.
  apply prog_bind_Ok in Hr as (s2 & [] & He%wrapf_Ok & Hr).
  apply prog_bind_Ok in Hr as (s3 & [] & Hb%wrapf_Ok & Hr).
  apply prog_bind_Ok in Hr as (s4 & [] & Hps & [= <- <-]).
  apply statement_cases in Hq as [[_ [=]]|(s0 & Hs & Hc)].
  apply create_project_run in Hc as [[_ [=]]|(row & Hn & Hnew & Hfree & _ & -> & [= ->])].
  exists row. apply entitlements_quiet in He as [Q1 F1].
  apply market_quiet in Hb as [Q2 F2]; [|apply (ml_subscribe M)]. apply profiles_quiet in Hps as [Q3 F3].
  split_and!; [done| |].
  - eapply created_quiet; [by apply same_quiet| |exact (quiet_trans _ _ _ Q1 (quiet_trans _ _ _ Q2 Q3))].
    rewrite <-Hn. apply insert_created; [done|by rewrite Hn|done].
  - rewrite F3, F2, F1. destruct Hs as (_ & <- & _). done.
Qed.

Lemma ProvisionSelf_Ok ctx name sub s s' p :
  ProvisionSelfEnrolledProject config ctx name sub s = (s', Ok p) →
  ∃ row, p = {| dp_ID := next_id s; dp_ParentID := None; dp_Row := row |} ∧
    ValidateName name = None ∧ created (next_id s) None name row s s' ∧
    fga_tuples (as_fga s') =
      {[(getUserForTuple sub, RoleAdmin, getProjectForTuple (next_id s))]} ∪ fga_tuples (as_fga s).
Proof using L M.
  intros [[_ [=]]|(meta & Hn & Hrun)]%ProvisionSelf_run.
  apply prog_bind_Ok in Hrun as (s1 & [] & Hw%wrapf_Ok & Hd%on_error_Ok).
  apply on_fga_run in Hw as (Hf & Hok & Hw & Ha).
  destruct (Write sub RoleAdmin (next_id s) (as_fga (after_id s))) as [x r] eqn:Hx. cbn in Hf, Hok. subst r.
  apply (Write_effect L) in Hx. apply default_records_Ok in Hd as (row & -> & Hc & Ht).
  exists row. split_and!; [done..| |by rewrite Ht, Hf, Hx].
  eapply created_quiet; [|exact Hc|by split]. unfold tables. by split; unfold tables; rewrite ?Hw, ?Ha.
Qed.

Lemma provisionChild_Ok ctx parent name s s' p :
  provisionChildProject config ctx parent name s = (s', Ok p) →
  ∃ row, p = {| dp_ID := next_id s; dp_ParentID := Some parent; dp_Row := row |} ∧
    ValidateName name = None ∧ created (next_id s) (Some parent) name row s s' ∧
    fga_tuples (as_fga s') =
      {[(getProjectForTuple parent, "parent", getProjectForTuple (next_id s))]} ∪ fga_tuples (as_fga s).
Proof using L.
  intros [[_ [=]]|(s1 & Hs & Hin & Hroot & Hn & Hrun)]%provisionChild_run. unfold create_child in Hrun.
  apply prog_bind_Ok in Hrun as (s2 & q & Hq%or_throw_Ok & Hr).
  apply prog_bind_Ok in Hr as (s3 & [] & He%or_throw_Ok & Hr).
  apply prog_bind_Ok in Hr as (s4 & [] & Ha%or_throw_Ok & [= <- <-]).
  apply CreateProject_query_run in Hq as
    [(_ & _ & _ & [=])|(s0 & row & Hs0 & Hname & Hnew & Hfree & _ & -> & [= ->])].
  apply entitlements_quiet in He as [Q1 F1]. apply on_fga_run in Ha as (Hf & Hok & Hw & Hac).
  destruct (Adopt _ _ (as_fga s3)) as [x r] eqn:Hx. cbn in Hf, Hok. subst r.
  apply (write_effect L) in Hx.
  pose proof (same_trans _ _ _ Hs Hs0) as H01. rewrite (same_next_id _ _ H01) in *.
  pose proof (same_quiet _ _ Hs0) as [Hp0 Hq0 _].
  exists row. split_and!; [done..| |].
  - eapply created_quiet;
      [exact (quiet_trans _ _ _ (same_quiet _ _ H01) (after_id_quiet s0))| |
       eapply quiet_trans; [exact Q1|]].
    + rewrite <-Hname. apply insert_created; [done|by rewrite Hname|]. intros p [= <-].
      change (tables (after_id s0)) with (tables s0). by rewrite Hp0, Hq0.
    + split; unfold tables; by rewrite ?Hw, ?Hac.
  - rewrite Hf, Hx, F1. destruct H01 as (_ & <- & _). done.
Qed.

(** *** The whole request *)

(** What was checked has left tables, ids and tuples as they were. *)
Definition checked_only s s' : Prop :=
  tables s' = tables s ∧ as_accounts s' = as_accounts s ∧ next_id s' = next_id s ∧
  fga_tuples (as_fga s') = fga_tuples (as_fga s).

Lemma checked_only_trans s1 s2 s3 : checked_only s1 s2 → checked_only s2 s3 → checked_only s1 s3.
Proof. unfold checked_only. intuition congruence. Qed.

Lemma same_checked_only s s' : same s s' → checked_only s s'.
Proof.
  intros Hs. split_and!; [exact (same_db _ _ Hs)|apply Hs|exact (same_next_id _ _ Hs)|].
  by rewrite (proj1 (proj2 Hs)).
Qed.

Lemma Check_action_tuples id action project x x' r :
  Check_action id action project x = (x', r) → fga_tuples x' = fga_tuples x.
Proof using L.
  unfold Check_action. destruct (String.eqb _ _); [by intros [= <- <-]|]. intros Hr.
  unfold mbind, prog_bind, wrapf in Hr.
  destruct (fga_Check _ x) as [x1 r1] eqn:Hc. apply (fl_check L) in Hc. rewrite <-Hc.
  destruct r1 as [[[]|]|e|m]; by injection Hr as <- <-.
Qed.

Lemma featureEnabled_state project feature s :
  same s (on_world (featureEnabled project feature) s).1.
Proof.
  unfold on_world, featureEnabled, mbind, prog_bind, try, GetFeatureInProject.
  match goal with |- context [select ?f ?w] =>
    destruct (select_run f w) as (fs & r & -> & Hsub) end.
  destruct r; cbn; (split_and!; [done..|]); exists fs; by split.
Qed.

(** Nothing is created, but for a tuple about the id that was drawn. *)
Definition not_created (t : Tuple) s s' : Prop :=
  tables s' = tables s ∧ as_accounts s' = as_accounts s ∧
  differ_at t (fga_tuples (as_fga s)) (as_fga s').

Lemma checked_not_created t s s' : checked_only s s' → not_created t s s'.
Proof. intros (? & ? & _ & Hf). split_and!; [done..|]. unfold differ_at. by rewrite Hf. Qed.

(** A creation in its transaction. *)
Lemma in_request_creation t s s' r (m : prog (AuthState X) dbProject)
    (Q : dbProject → AuthState X → AuthState X → Prop) :
  in_request m s = (s', r) →
  (∀ s1 s2 r, same s s1 → m s1 = (s2, r) → differ_at t (fga_tuples (as_fga s)) (as_fga s2)) →
  (∀ s1 s2 p, same s s1 → m s1 = (s2, Ok p) → ∀ s3, same s2 s3 → Q p s s3) →
  match r with Ok p => Q p s s' | _ => not_created t s s' end.
Proof.
  intros Hr Hdiff Hok.
  apply transaction_cases in Hr as [(p & s1 & s2 & -> & K1 & Hm & K2)|(Hr & Ha & Hd & Hf)].
  - by eapply Hok.
  - assert (not_created t s s'); [|by destruct r]. split_and!; [done..|].
    destruct Hf as [Hf|(s1 & r1 & K1 & Hf & Hm)]; rewrite Hf; [done|].
    destruct (m s1) as [s2 r2] eqn:E. by eapply Hdiff.
Qed.

(** The parent of a new project, which is none for the nil id. *)
Definition parent_of (parent : UUID) : option UUID :=
  if bool_decide (parent = uuid_Nil) then None else Some parent.

(** A project with a good name, which its parent has no child of, has been created
    with the tuple that says who administrates it. *)
Definition project_created (sub name : string) (parent : UUID) (p : dbProject) s s' : Prop :=
  ∃ row, p = {| dp_ID := next_id s; dp_ParentID := parent_of parent; dp_Row := row |} ∧
    ValidateName name = None ∧ created (next_id s) (parent_of parent) name row s s' ∧
    fga_tuples (as_fga s') = {[creation_tuple sub parent (next_id s)]} ∪ fga_tuples (as_fga s).

Lemma project_created_same sub name parent p s s1 s2 s3 :
  checked_only s s1 → project_created sub name parent p s1 s2 → same s2 s3 →
  project_created sub name parent p s s3.
Proof.
  intros (Hd & Ha & Hid & Hf) (row & -> & Hn & Hc & Ht) Hs. rewrite Hid in *. exists row.
  split_and!; [done..| |by rewrite <-Hf, <-Ht, (proj1 (proj2 Hs))].
  eapply created_quiet; [|exact Hc|by apply same_quiet]. by split; rewrite ?Hd, ?Ha.
Qed.

Lemma not_created_checked t s s1 s2 :
  checked_only s s1 → not_created t s1 s2 → not_created t s s2.
Proof.
  intros (Hd & Ha & _ & Hf) (Hd' & Ha' & Hf'). split_and!; [congruence..|].
  unfold differ_at in *. by rewrite <-Hf.
Qed.

Lemma provision_in_request sub name parent ctx s s' r m :
  (m = ProvisionSelfEnrolledProject config ctx name sub ∧ parent = uuid_Nil ∨
   m = provisionChildProject config ctx parent name ∧ parent ≠ uuid_Nil) →
  in_request m s = (s', r) →
  match r with
  | Ok p => project_created sub name parent p s s'
  | _ => not_created (creation_tuple sub parent (next_id s)) s s'
  end.
Proof using L M.
  intros Hm Hr.
  eapply (in_request_creation _ _ _ _ _ (λ p s s', project_created sub name parent p s s'));
    [exact Hr|..]; clear Hr.
  - intros s1 s2 r1 Hs Hr. rewrite <-(same_next_id _ _ Hs), <-(proj1 (proj2 Hs)).
    unfold creation_tuple. destruct Hm as [[-> ->]|[-> Hne]].
    + rewrite bool_decide_true by done. by eapply ProvisionSelf_differ.
    + rewrite bool_decide_false by done. by eapply provisionChild_differ.
  - intros s1 s2 p Hs Hr s3 Hs3. eapply project_created_same; [by apply same_checked_only| |exact Hs3].
    unfold project_created, creation_tuple, parent_of. destruct Hm as [[-> ->]|[-> Hne]].
    + rewrite !bool_decide_true by done. by apply ProvisionSelf_Ok in Hr.
    + rewrite !bool_decide_false by done. by apply provisionChild_Ok in Hr.
Qed.

(** A child is created after what the caller and the parent allow is checked. *)
Lemma allowed_child (id : option Identity) parent (deny : gerr → gerr) deny' s s' r
    (m : prog (AuthState X) dbProject) :
  (or_throw deny (on_fga (Check_action id "create" parent));;
   allowed ← on_world (ProjectAllowsProjectHierarchyOperations parent);
   if negb allowed then throw deny' else m) s = (s', r) →
  (checked_only s s' ∧ is_ok r = false) ∨ ∃ s1, checked_only s s1 ∧ m s1 = (s', r).
Proof using L.
  assert (Hcheck : ∀ s1 r1, or_throw deny (on_fga (Check_action id "create" parent)) s = (s1, r1) →
                            checked_only s s1).
  { intros s1 r1 E. pose proof (or_throw_state deny (on_fga (Check_action id "create" parent)) s) as E1.
    rewrite E in E1. cbn in E1. subst s1. unfold on_fga.
    destruct (Check_action id "create" parent (as_fga s)) as [x r2] eqn:Hc. split_and!; [done..|].
    by apply Check_action_tuples in Hc. }
  intros [(s1 & [] & Hc%Hcheck & Hr)|(Hr & r1 & Hc%Hcheck & _)]%prog_bind_inv; [|by left].
  pose proof (featureEnabled_state parent projectHierarchyOperationsEnabledFlag s1) as Hs%same_checked_only.
  pose proof (checked_only_trans _ _ _ Hc Hs) as Hcs.
  apply prog_bind_inv in Hr as [(s2 & allowed & Ha & Hr)|(Hr & r1 & Ha & _)];
    unfold ProjectAllowsProjectHierarchyOperations in Ha; rewrite Ha in Hcs; cbn in Hcs; [|by left].
  destruct allowed; [right; eauto|]. injection Hr as <- <-. by left.
Qed.

(** Creating a project is all or nothing: on success the tables have one more
    project, under the id that was drawn, with a name that is valid and new among
    its siblings, below a top-level parent or at the top, and the authorization
    store has one more tuple, that makes the caller its administrator or ties it
    to its parent; otherwise the tables are as before, and the tuples differ at
    most in the one about the id that was drawn. *)
Theorem ProvisionProject_all_or_nothing ctx name parent s s' r :
  ProvisionProject config ctx name parent s = (s', r) →
  let sub := Identity_String (cl_Identity (rq_Caller ctx)) in
  match r with
  | Ok answer => ∃ p, answer = project_answer p "" "" ∧ project_created sub name parent p s s'
  | _ => not_created (creation_tuple sub parent (next_id s)) s s'
  end.
Proof using L M.
  intros Hrun sub. unfold ProvisionProject in Hrun.
  assert (Hlast : ∀ s1, checked_only s s1 → ∀ m,
    (m = ProvisionSelfEnrolledProject config ctx name sub ∧ parent = uuid_Nil ∨
     m = provisionChildProject config ctx parent name ∧ parent ≠ uuid_Nil) →
    (in_request m ≫= λ project, mret (project_answer project "" "")) s1 = (s', r) →
    match r with
    | Ok answer => ∃ p, answer = project_answer p "" "" ∧ project_created sub name parent p s s'
    | _ => not_created (creation_tuple sub parent (next_id s)) s s'
    end).
  { intros s1 Hc m Hm Hr. unfold mbind, prog_bind in Hr. destruct (in_request m s1) as [s2 r2] eqn:E.
    apply (provision_in_request sub name parent ctx) in E; [|done].
    rewrite (proj1 (proj2 (proj2 Hc))) in E.
    destruct r2 as [p|e|msg]; injection Hr as <- <-; [|by eapply not_created_checked..].
    exists p. split; [done|]. eapply project_created_same; [exact Hc|exact E|apply same_refl]. }
  pose proof (same_checked_only _ _ (same_refl s)) as Hself.
  destruct (decide (parent = uuid_Nil)) as [Hnil|Hne].
  - rewrite bool_decide_true in Hrun by done. cbn [negb] in Hrun.
    destruct (negb (flags_Bool _ _ _)); [injection Hrun as <- <-; by apply checked_not_created|].
    fold sub in Hrun. destruct (String.eqb sub ""); [injection Hrun as <- <-; by apply checked_not_created|].
    apply (Hlast s Hself (ProvisionSelfEnrolledProject config ctx name sub)); [by left|exact Hrun].
  - rewrite bool_decide_false in Hrun by done. cbn [negb] in Hrun.
    unfold mbind at 1, prog_bind at 1 in Hrun.
    match type of Hrun with match ?m s with _ => _ end = _ => destruct (m s) as [s2 r2] eqn:E end.
    apply allowed_child in E as [[Hc Hr2]|(s1 & Hc & E)].
    + destruct r2; [done|..]; injection Hrun as <- <-; by apply checked_not_created.
    + eapply (Hlast s1 Hc); [by right|]. unfold mbind, prog_bind. by rewrite E.
Qed.

(** ** The invariant *)

Lemma default_records_wf ctx id name meta : preserves (@wf _ X) (default_records config ctx id name meta).
Proof using M.
  apply preserves_bind.
  { apply preserves_or_throw, (framed_statement wf). intros s Hs. by apply create_project_wf. }
  intros project. apply preserves_bind; [apply preserves_wrapf, entitlements_wf|]. intros [].
  apply preserves_bind; [apply preserves_wrapf, (ml_subscribe M)|]. intros [].
  apply preserves_bind; [|intros []; apply preserves_ret].
  apply preserves_foreach. intros profileName. apply preserves_wrapf, (ml_profile M).
Qed.

Lemma ProvisionSelf_wf ctx name sub : preserves (@wf _ X) (ProvisionSelfEnrolledProject config ctx name sub).
Proof using M.
  unfold ProvisionSelfEnrolledProject. destruct (ValidateName name); [apply preserves_throw|].
  apply preserves_bind; [apply preserves_wrapf; destruct (SerializeMetadata _); by intros ?|]. intros meta.
  apply preserves_bind; [by apply (preserves_on_tables_world wf)|]. intros id.
  apply preserves_bind; [apply preserves_wrapf, (preserves_on_tables_fga wf)|]. intros [].
  apply preserves_on_error; [apply (preserves_on_tables_fga wf)|apply default_records_wf].
Qed.

Lemma provisionChild_wf ctx parent name : preserves (@wf _ X) (provisionChildProject config ctx parent name).
Proof.
  intros s Hs. destruct (provisionChildProject config ctx parent name s) as [s' r] eqn:E.
  apply provisionChild_run in E as [[Hsame _]|(s1 & Hsame & _ & Hroot & _ & E)]; [by apply (framed s)|].
  apply (framed _ _ Hsame) in Hs. unfold create_child in E.
  assert (Hc : wf (CreateProject_query name (Some parent) "{}" s1).1).
  { destruct (CreateProject_query name (Some parent) "{}" s1) as [s2 r2] eqn:Hq.
    apply statement_cases in Hq as [[Hs2 _]|(s3 & Hs3 & Hq)]; [by apply (framed s1)|].
    replace s2 with (s2, r2).1 by done. rewrite <-Hq. apply create_project_wf.
    - by apply (on_tables s1); [exact (same_db _ _ Hs3)|apply Hs3|].
    - intros p [= <-]. change (parent_projects (tables s3) !! parent = None).
      unfold tables. rewrite (same_db _ _ Hs3). exact Hroot. }
  match type of E with (?m ≫= ?k) s1 = _ =>
    pose proof (preserves_after wf m k s1) as Hk end.
  rewrite E in Hk. apply Hk; [by rewrite or_throw_state|]. intros p.
  apply preserves_bind; [apply preserves_or_throw, entitlements_wf|]. intros [].
  apply preserves_bind; [apply preserves_or_throw, (preserves_on_tables_fga wf)|].
  intros; apply preserves_ret.
Qed.

Lemma ProvisionProject_wf ctx name parent : preserves (@wf _ X) (ProvisionProject config ctx name parent).
Proof using M.
  assert (Hf : ∀ p f, preserves (@wf _ X) (on_world (featureEnabled p f))).
  { intros p f s Hs. apply (framed s); [apply featureEnabled_state|done]. }
  unfold ProvisionProject. apply preserves_bind; [|intros; apply preserves_ret].
  case_match; [|case_match; [|case_match]]; try apply preserves_throw.
  - apply preserves_bind; [apply preserves_or_throw, (preserves_on_tables_fga wf)|]. intros [].
    apply preserves_bind; [apply Hf|]. intros allowed. case_match; [apply preserves_throw|].
    apply (preserves_on_tables_transaction wf), provisionChild_wf.
  - apply (preserves_on_tables_transaction wf), ProvisionSelf_wf.
Qed.
End creation.
