(* ===== verification/ProjectDeletion.v ===== *)
(** * Deleting projects: the theorems

    What a deletion of a project takes with it, in the tables and among the
    tuples, and which projects the deletion of a user may take. *)

From S2P Require Import Prelude GoErrors GoMonad GoStrings Uuid DbTypes Properties.
From S2P Require Import ProfileModels Database HistoryDb EntityModels EntityDb.
From S2P Require Import EntityService ProfileDb EntityEvent Eea Crypto Authz Accounts.
From S2P Require Import Email Invites ProjectDb Projects ProjectLifecycle.
Local Open Scope string_scope.

(** ** What is promised of the deletion of providers *)

Definition view {X} (s : Session X) : Db * Accounts := (tables (se_state s), as_accounts (se_state s)).

(** At most the provider goes, for the transaction and outside of it; the tuples
    stay, and the connection fails no more than before. *)
Record deletion_step {X} `{!OpenFGA X} (id proj : UUID) (s s' : Session X) : Prop := {
  ds_tuples : fga_tuples (as_fga (se_state s')) = fga_tuples (as_fga (se_state s));
  ds_faults : ∀ x, x ∈ w_faults (as_world (se_state s')) → x ∈ w_faults (as_world (se_state s));
  ds_tables :
    se_committed s' = se_committed s ∧ view s' = view s ∨
    se_committed s' = drop_provider id proj (se_committed s) ∧ view s' = drop_provider id proj (view s);
}.

Definition deletion_laws {X} `{!OpenFGA X} `{!ProviderDeletion X} : Prop :=
  ∀ id proj s s' r, DeleteByID id proj s = (s', r) → deletion_step id proj s s'.

(** The statement itself is such a step. *)
Lemma DeleteProvider_step {X} `{!OpenFGA X} id proj s s' (r : res unit) :
  DeleteProvider (X := X) id proj s = (s', r) → deletion_step id proj s s'.
Proof.
  unfold DeleteProvider. destruct (statement _ (se_state s)) as [st r1] eqn:Hs.
  assert (Hsame : same (se_state s) st).
  { apply statement_cases in Hs as [[Hs _]|(s1 & Hs & [= <- _])]; done. }
  pose proof (same_db _ _ Hsame) as Hd. destruct Hsame as (Ha & Hf & fs & Hw & Hsub).
  assert (Hfaults : ∀ x, x ∈ w_faults (as_world st) → x ∈ w_faults (as_world (se_state s))).
  { rewrite Hw. exact Hsub. }
  assert (Hview : (tables st, as_accounts st) = view s) by (unfold view, tables; by rewrite Hd, Ha).
  assert (Hnone : deletion_step id proj s {| se_committed := se_committed s; se_state := st |}).
  { split; [by cbn; rewrite Hf|done|left; done]. }
  destruct r1 as [[]|e|m]; [|intros [= <- <-]; exact Hnone..]. cbn zeta.
  case_bool_decide; [|intros [= <- <-]; exact Hnone]. rewrite Hview.
  destruct (drop_provider id proj (view s)) as [d a] eqn:Hdrop. intros [= <- <-].
  split; [by cbn; rewrite Hf|done|right]. by rewrite Hdrop.
Qed.

(** ** Tables without some providers *)

(** Of projects of [ids] some providers are gone, with the entities that come
    from them. *)
Record trimmed (ids : gset UUID) (d d1 : Db) : Prop := {
  tr_projects : projects d1 = projects d;
  tr_parents : parent_projects d1 = parent_projects d;
  tr_profiles : profiles d1 = profiles d;
  tr_rule_types : rule_types d1 = rule_types d;
  tr_sources : s_sources (sources d1) = s_sources (sources d);
  tr_rules : rule_instances d1 = rule_instances d;
  tr_entitlements : entitlements d1 = entitlements d;
  tr_providers : providers d1 ⊆ providers d;
  tr_providers_kept : ∀ i p, providers d !! i = Some p → (prv_ProjectID p ∉ ids) →
    providers d1 !! i = Some p;
  tr_entities : entity_instances d1 ⊆ entity_instances d;
  tr_entities_kept : ∀ i e, entity_instances d !! i = Some e →
    (∀ root r p, entity_instances d !! root = Some r → descends (entity_instances d) root i →
       providers d !! ei_ProviderID r = Some p → prv_ProjectID p ∉ ids) →
    entity_instances d1 !! i = Some e;
}.

Lemma trimmed_refl ids d : trimmed ids d d.
Proof. by split. Qed.

Lemma descends_subseteq t1 t2 root i : t1 ⊆ t2 → descends t1 root i → descends t2 root i.
Proof.
  intros Ht. induction 1 as [|j e o He Ho _ IH]; [constructor|].
  eapply descends_step; [by eapply lookup_weaken|done..].
Qed.

Lemma trimmed_trans ids d1 d2 d3 : trimmed ids d1 d2 → trimmed ids d2 d3 → trimmed ids d1 d3.
Proof.
  intros [] []. split; try congruence; try (by etrans).
  - eauto.
  - intros i e He Hn. apply tr_entities_kept1; [by apply tr_entities_kept0|].
    intros root r p Hr Hd Hp. apply (Hn root r p).
    + by eapply lookup_weaken.
    + by eapply descends_subseteq.
    + by eapply lookup_weaken.
Qed.

Lemma cascade_none_filter {K V} `{Countable K} (P : K * V → Prop) `{∀ p, Decision (P p)} (t : gmap K V) :
  (∀ k v, t !! k = Some v → P (k, v)) → filter P t = t.
Proof. intros HP. by apply map_filter_id. Qed.

Lemma drop_provider_trimmed ids id proj t :
  proj ∈ ids → trimmed ids t.1 (drop_provider id proj t).1.
Proof.
  intros Hproj. unfold drop_provider. destruct (providers t.1 !! id) as [p|] eqn:Hp;
    [|apply trimmed_refl].
  case_bool_decide as Hpp; [|apply trimmed_refl]. set (d := t.1) in *. cbn [fst].
  assert (Hnone : ∀ V (P : V → Prop) `{∀ v, Decision (P v)} (m : gmap UUID V) i,
    (∀ v, ¬ P v) → i ∉ keys_where P m).
  { intros V P ? m i HP (v & _ & Hv)%keys_where_Some. by apply (HP v). }
  split; cbn.
  - apply difference_empty_L.
  - apply cascade_none_filter. set_solver.
  - apply cascade_none_filter. intros i v _. apply Hnone. set_solver.
  - apply cascade_none_filter. intros i v _. apply Hnone. set_solver.
  - apply cascade_none_filter. intros i v _. apply Hnone. set_solver.
  - apply cascade_none_filter. intros i v _. apply Hnone. intros r [Hr|Hr]; [set_solver|].
    apply keys_where_Some in Hr as (? & _ & Hr). set_solver.
  - apply set_eq. intros e. rewrite elem_of_filter. set_solver.
  - apply map_filter_subseteq.
  - intros i q Hq Hn. apply map_lookup_filter_Some. split; [done|]. intros Hin. cbn in Hin.
    apply elem_of_singleton in Hin as ->. rewrite Hp in Hq. injection Hq as <-. by rewrite Hpp in Hn.
  - apply map_filter_subseteq.
  - intros i e He Hn. apply map_lookup_filter_Some. split; [done|]. cbn.
    intros (root & r & Hr & [Hin|Hin] & Hd)%lost_entities_sound; [set_solver|].
    apply elem_of_singleton in Hin. apply (Hn root r p Hr Hd); [by rewrite Hin|by rewrite Hpp].
Qed.

(** What survives a trimming descends there from what it descended from. *)
Lemma descends_trimmed ids d d1 root i e :
  trimmed ids d d1 → entities_wf d1 → descends (entity_instances d) root i →
  entity_instances d1 !! i = Some e →
  descends (entity_instances d1) root i ∧ is_Some (entity_instances d1 !! root).
Proof.
  intros Ht Hwf Hd. revert e. induction Hd as [|j e' o He Ho _ IH]; intros e Hi; [by split; [constructor|]|].
  assert (e' = e) as -> by (pose proof (lookup_weaken _ _ _ _ Hi (tr_entities _ _ _ Ht)); congruence).
  destruct (ew_origin _ Hwf _ _ _ Hi Ho) as [eo Heo]. destruct (IH _ Heo) as [Hdo Hr].
  split; [|done]. by eapply descends_step.
Qed.

Lemma trimmed_without ids d d1 d2 :
  trimmed ids d d1 → entities_wf d1 → without ids d1 d2 → without ids d d2.
Proof.
  intros Ht Hwf Hw. split.
  - rewrite (wo_projects _ _ _ Hw). by rewrite (tr_projects _ _ _ Ht).
  - intros c p. rewrite (wo_parents _ _ _ Hw). by rewrite (tr_parents _ _ _ Ht).
  - intros i p. rewrite (wo_providers _ _ _ Hw i p). split; intros [Hp Hn]; (split; [|done]).
    + by eapply lookup_weaken, tr_providers.
    + by eapply tr_providers_kept.
  - intros i p. rewrite (wo_profiles _ _ _ Hw i p). by rewrite (tr_profiles _ _ _ Ht).
  - intros i p. rewrite (wo_rule_types _ _ _ Hw i p). by rewrite (tr_rule_types _ _ _ Ht).
  - intros i p. rewrite (wo_sources _ _ _ Hw i p). by rewrite (tr_sources _ _ _ Ht).
  - intros i r. rewrite (wo_rules _ _ _ Hw i r). by rewrite (tr_rules _ _ _ Ht), (tr_profiles _ _ _ Ht).
  - intros i e. rewrite (wo_entities _ _ _ Hw i e). split; intros [He Hn].
    + split; [by eapply lookup_weaken, tr_entities|]. intros root r Hr Hd.
      destruct (descends_trimmed _ _ _ _ _ _ Ht Hwf Hd He) as [Hd1 [r1 Hr1]].
      assert (r1 = r) as -> by (pose proof (lookup_weaken _ _ _ _ Hr1 (tr_entities _ _ _ Ht)); congruence).
      destruct (Hn _ _ Hr1 Hd1) as [Hp Hv]. split; [done|]. intros p Hpr.
      destruct (ew_provider _ Hwf _ _ Hr1) as [q Hq]. apply Hv.
      pose proof (lookup_weaken _ _ _ _ Hq (tr_providers _ _ _ Ht)). congruence.
    + assert (He1 : entity_instances d1 !! i = Some e).
      { eapply tr_entities_kept; [done..|]. intros root r p Hr Hd. by apply (Hn root r Hr Hd). }
      split; [done|]. intros root r Hr Hd. destruct (Hn root r) as [Hp Hv].
      * by eapply lookup_weaken, tr_entities.
      * by eapply descends_subseteq, Hd; apply Ht.
      * split; [done|]. intros p Hpr. apply Hv. by eapply lookup_weaken, tr_providers.
  - intros e. rewrite (wo_entitlements _ _ _ Hw e). by rewrite (tr_entitlements _ _ _ Ht).
Qed.

(** ** The invariant *)

Section invariant.
Context `{PgText} {X : Type} `{!OpenFGA X}.

Definition session_wf (s : Session X) : Prop :=
  wf (se_state s) ∧ projects_wf (se_committed s).1 (se_committed s).2.

Lemma preserves_session_tx {A} (m : prog (AuthState X) A) : preserves wf m → preserves session_wf (in_tx m).
Proof.
  intros Hm s [Hs Hc]. specialize (Hm _ Hs). unfold in_tx. by destruct (m (se_state s)).
Qed.

Lemma preserves_outside {A} (m : prog (AuthState X) A) :
  preserves wf m → preserves session_wf (outside m).
Proof.
  intros Hm s [Hs Hc]. unfold outside.
  specialize (Hm (with_tables (se_committed s).1 (se_committed s).2 (se_state s)) Hc).
  destruct (m _) as [st r]. split; [exact Hs|exact Hm].
Qed.

Lemma deletion_step_wf id proj s s' : deletion_step id proj s s' → session_wf s → session_wf s'.
Proof.
  intros [_ _ [[Hc Hv]|[Hc Hv]]] [Hs Hcw]; unfold session_wf; rewrite Hc; split.
  - injection Hv as Hd Ha. unfold wf. by rewrite Hd, Ha.
  - done.
  - change (projects_wf (view s').1 (view s').2). rewrite Hv. by apply drop_provider_wf.
  - by apply drop_provider_wf.
Qed.

Lemma preserves_session {A} fb fc (fn : prog (Session X) A) :
  preserves session_wf fn → preserves wf (session fb fc fn).
Proof.
  intros Hfn s Hs. unfold session.
  destruct (statement _ s) as [s1 b] eqn:Hb.
  assert (Hsame : same s s1).
  { apply statement_cases in Hb as [[Hb _]|(s0 & Hb & [= <- _])]; done. }
  apply (framed _ _ Hsame) in Hs. destruct b as [[]|e|m]; [|done..].
  specialize (Hfn {| se_committed := (tables s1, as_accounts s1); se_state := s1 |} (conj Hs Hs)).
  destruct (fn _) as [s2 [a|e|m]]; [|apply Hfn..].
  unfold in_tx. destruct (statement _ (se_state s2)) as [s3 c] eqn:Hc.
  assert (Hsame2 : same (se_state s2) s3).
  { apply statement_cases in Hc as [[Hc _]|(s0 & Hc & [= <- _])]; done. }
  destruct c as [[]|e|m]; [|apply Hfn..]. cbn. apply (framed _ _ Hsame2), Hfn.
Qed.
End invariant.

Section deletion.
Context `{UuidLib} `{PgText} {X : Type} `{!OpenFGA X} `{!ProviderDeletion X}.

Section wf.
Context (D : deletion_laws).

Lemma DeleteByID_wf id proj : preserves (@session_wf _ X) (DeleteByID id proj).
Proof using D.
  intros s Hs. destruct (DeleteByID id proj s) as [s' r] eqn:E. apply D in E.
  by apply (deletion_step_wf id proj s).
Qed.

Lemma GetProject_wf id : preserves (@session_wf _ X) (in_tx (GetProject id)).
Proof. apply preserves_session_tx, (framed_account_select wf). Qed.

Lemma in_tx_fga_wf {A} (m : prog X A) : preserves session_wf (in_tx (on_fga m)).
Proof. apply preserves_session_tx, (preserves_on_tables_fga wf). Qed.

Lemma exportProjectMetadata_wf proj : preserves (@session_wf _ X) (in_tx (exportProjectMetadata proj)).
Proof.
  apply preserves_session_tx. unfold exportProjectMetadata.
  repeat (apply preserves_bind; [apply preserves_wrapf, (framed_account_select wf)|intros ?]).
  apply preserves_ret.
Qed.

Lemma deleter_wf proj : preserves session_wf (projectDeleter_DeleteProject proj).
Proof using D.
  unfold projectDeleter_DeleteProject. apply preserves_bind; [apply preserves_try, GetProject_wf|].
  intros [p|e]; [|case_match; [apply preserves_ret|apply preserves_throw]].
  apply preserves_bind; [apply preserves_try, preserves_session_tx, (framed_account_select wf)|]. intros l.
  apply preserves_bind.
  { apply preserves_foreach. intros prov. apply preserves_bind; [apply preserves_try, DeleteByID_wf|].
    intros ?; apply preserves_ret. }
  intros []. apply preserves_bind; [apply exportProjectMetadata_wf|]. intros ?.
  apply preserves_bind; [apply preserves_wrapf, in_tx_fga_wf|]. intros assigned.
  apply preserves_bind; [apply in_tx_fga_wf|]. intros [].
  apply preserves_bind; [apply preserves_or_throw, preserves_session_tx, DeleteProject_query_wf|].
  intros deletions. apply in_tx_fga_wf.
Qed.

Lemma DeleteProject_wf flags ctx : preserves wf (DeleteProject flags ctx).
Proof using D.
  unfold DeleteProject. apply preserves_bind; [|intros; apply preserves_ret].
  apply preserves_session. apply preserves_bind; [apply preserves_or_throw, GetProject_wf|]. intros p.
  apply preserves_bind.
  - case_match; [|case_match; [apply preserves_throw|apply preserves_ret]].
    apply preserves_bind; [|intros a; case_match; [apply preserves_throw|apply preserves_ret]].
    apply preserves_outside. intros s Hs. apply (framed s); [apply featureEnabled_state|done].
  - intros []. apply preserves_or_throw, deleter_wf.
Qed.

Lemma CleanUp_wf subject proj : preserves session_wf (CleanUpUnmanagedProjects subject proj).
Proof using D.
  unfold CleanUpUnmanagedProjects. apply preserves_bind; [apply preserves_try, GetProject_wf|].
  intros [p|e]; [|case_match; [apply preserves_ret|apply preserves_throw]].
  case_match; [apply preserves_ret|].
  apply preserves_bind; [apply preserves_or_throw, in_tx_fga_wf|]. intros assigned.
  case_match; [apply preserves_ret|]. apply preserves_or_throw, deleter_wf.
Qed.

Lemma DeleteUser_wf depth userId : preserves wf (DeleteUser depth userId).
Proof using D.
  unfold DeleteUser. apply preserves_bind; [apply preserves_or_throw, (preserves_on_tables_fga wf)|].
  intros projs. apply preserves_bind;
    [|intros []; apply preserves_or_throw, (preserves_on_tables_fga wf)].
  apply preserves_session. unfold delete_user_data.
  apply preserves_bind; [apply preserves_try, preserves_session_tx, (framed_account_select wf)|]. intros usr.
  apply preserves_bind.
  { destruct usr; [apply preserves_ret|case_match; [apply preserves_ret|apply preserves_throw]]. }
  intros id. apply preserves_bind.
  { apply preserves_foreach. intros proj. apply preserves_or_throw, CleanUp_wf. }
  intros []. destruct id; [|apply preserves_ret]. case_match; [apply preserves_ret|].
  apply preserves_or_throw, preserves_session_tx, DeleteUser_query_wf.
Qed.
End wf.

(** ** What a deletion does *)

(** A project that can be found. *)
Definition is_project (st : AuthState X) (id : UUID) : Prop :=
  id ∈ projects (tables st) ∧ (id ∉ organizations (tables st)) ∧
  is_Some (ac_projects (as_accounts st) !! id).

(** The tables, the tuples and the failures to come are as they were. *)
Record steady (s s' : Session X) : Prop := {
  sd_view : view s' = view s;
  sd_tuples : fga_tuples (as_fga (se_state s')) = fga_tuples (as_fga (se_state s));
  sd_faults : ∀ x, x ∈ w_faults (as_world (se_state s')) → x ∈ w_faults (as_world (se_state s));
}.

Lemma steady_refl s : steady s s.
Proof. by split. Qed.

Lemma steady_trans s1 s2 s3 : steady s1 s2 → steady s2 s3 → steady s1 s3.
Proof. intros [] []. split; [congruence..|auto]. Qed.

Lemma same_steady s s' : same (se_state s) (se_state s') → steady s s'.
Proof.
  intros Hs. pose proof (same_db _ _ Hs) as Hd. destruct Hs as (Ha & Hf & fs & Hw & Hsub). split.
  - unfold view, tables. by rewrite Hd, Ha.
  - by rewrite Hf.
  - rewrite Hw. exact Hsub.
Qed.

Lemma in_tx_run {A} (m : prog (AuthState X) A) s s' r :
  in_tx m s = (s', r) → m (se_state s) = (se_state s', r) ∧ se_committed s' = se_committed s.
Proof. unfold in_tx. destruct (m (se_state s)). by intros [= <- <-]. Qed.

Lemma in_tx_select_steady {A} (f : AuthState X → res A) s s' r :
  in_tx (account_select f) s = (s', r) → steady s s'.
Proof. intros [[Hs _]%account_select_cases _]%in_tx_run. by apply same_steady. Qed.

(** Looking for a project finds it, or says that there is none, or fails. *)
Lemma find_project id s s' r :
  honest_faults (as_world (se_state s)) → in_tx (GetProject id) s = (s', r) →
  steady s s' ∧
  (∀ p, r = Ok p → project_at (se_state s) id = Some p ∧ is_project (se_state s) id) ∧
  (∀ e, r = Err e → is_in e ErrNoRows = true → ¬ is_project (se_state s) id).
Proof.
  intros Hh [Hr _]%in_tx_run. pose proof Hr as [Hs Hc]%GetProject_run.
  assert (Hat : project_at (se_state s') id = project_at (se_state s) id).
  { unfold project_at, tables. rewrite (same_db _ _ Hs). by rewrite (proj1 Hs). }
  assert (Ht : tables (se_state s') = tables (se_state s)) by exact (same_db _ _ Hs).
  split_and!; [by apply same_steady|..].
  - intros p Hp. destruct (Hc p Hp) as (Hpa & Hin & Hno). rewrite Hat in Hpa. split; [done|].
    rewrite Ht in *. split_and!; [done..|]. apply project_at_Some in Hpa as (_ & _ & ->). eauto.
  - intros e -> He (Hin & Hno & [row Hrow]). unfold GetProject in Hr.
    pose proof (account_select_no_rows _ _ _ _ Hh Hr He) as Hf. cbn beta in Hf.
    rewrite Hat, Ht in Hf. unfold project_at in Hf. rewrite Hrow in Hf. cbn in Hf.
    by rewrite bool_decide_true in Hf.
Qed.

Lemma in_tx_fga_run {A} (m : prog X A) s s' r :
  in_tx (on_fga m) s = (s', r) →
  view s' = view s ∧ as_world (se_state s') = as_world (se_state s) ∧
  m (as_fga (se_state s)) = (as_fga (se_state s'), r).
Proof.
  intros [Hr _]%in_tx_run. apply on_fga_run in Hr as (Hf & -> & Hw & Ha).
  unfold view, tables. rewrite Hw, Ha, Hf. split_and!; [done..|by destruct (m _)].
Qed.

(** Calls that delete tuples, one after the other. *)
Lemma foreach_deletes {A} (f : A → prog X unit) (g : A → gset Tuple) l : ∀ x x',
  (∀ a x x', f a x = (x', Ok tt) → fga_tuples x' = fga_tuples x ∖ g a) →
  foreach f l x = (x', Ok tt) →
  ∀ t, t ∈ fga_tuples x' ↔ t ∈ fga_tuples x ∧ ∀ a, a ∈ l → t ∉ g a.
Proof.
  induction l as [|a l IH]; intros x x' Hf; cbn [foreach].
  - intros [= <-] t. split; [|tauto]. intros Ht. split; [done|]. intros a Ha. by list_cases Ha.
  - rewrite prog_bind_Ok. intros (x1 & [] & Ha & Hl) t.
    rewrite (IH _ _ Hf Hl t), (Hf _ _ _ Ha), elem_of_difference. split.
    + intros [[Hx Hg] Hrest]. split; [done|]. intros b [->|Hb]%elem_of_cons; [done|by apply Hrest].
    + intros [Hx Hall]. split_and!; [done|by apply Hall; left|]. intros b Hb. apply Hall. by right.
Qed.

(** The tuples of the roles of some assignments, and of the parents of some
    projects. *)
Definition role_tuples (proj : UUID) (a : RoleAssignment) : gset Tuple :=
  match ParseRole (ra_Role a) with
  | Ok role => {[(getUserForTuple (ra_Subject a), role, getProjectForTuple proj)]}
  | _ => ∅
  end.

Definition parent_tuples (p : dbProject) : gset Tuple :=
  match dp_ParentID p with
  | Some parent => {[(getProjectForTuple parent, "parent", getProjectForTuple (dp_ID p))]}
  | None => ∅
  end.

Lemma delete_assignments_Ok (L : fga_laws) proj l x x' :
  delete_assignments proj l x = (x', Ok tt) →
  ∀ t, t ∈ fga_tuples x' ↔ t ∈ fga_tuples x ∧ ∀ a, a ∈ l → t ∉ role_tuples proj a.
Proof.
  apply foreach_deletes. intros a y y'. unfold role_tuples. destruct (ParseRole (ra_Role a)).
  - intros Hd%wrapf_Ok. exact (Delete_effect L _ _ _ _ _ _ Hd).
  - intros [= <-]. set_solver.
  - intros [= <-]. set_solver.
Qed.

Lemma orphan_projects_Ok (L : fga_laws) l x x' :
  orphan_projects l x = (x', Ok tt) →
  ∀ t, t ∈ fga_tuples x' ↔ t ∈ fga_tuples x ∧ ∀ p, p ∈ l → t ∉ parent_tuples p.
Proof.
  apply foreach_deletes. intros a y y'. unfold parent_tuples. destruct (dp_ParentID a).
  - intros Hd%or_throw_Ok. exact (doDelete_effect L _ _ _ _ _ _ Hd).
  - intros [= <-]. set_solver.
Qed.

(** *** The providers *)

Lemma tree_ext d d' id : parent_projects d' = parent_projects d → tree d' id = tree d id.
Proof. intros E. unfold tree, children. by rewrite E. Qed.

(** Some providers of the projects [ids] are gone, and nothing else. *)
Record providers_gone (ids : gset UUID) (s s' : Session X) : Prop := {
  pg_wf : session_wf s';
  pg_trimmed : trimmed ids (view s).1 (view s').1;
  pg_users : ac_users (view s').2 = ac_users (view s).2;
  pg_rows : ac_projects (view s').2 = ac_projects (view s).2;
  pg_organizations : organizations (view s').1 = organizations (view s).1;
  pg_tuples : fga_tuples (as_fga (se_state s')) = fga_tuples (as_fga (se_state s));
  pg_faults : ∀ x, x ∈ w_faults (as_world (se_state s')) → x ∈ w_faults (as_world (se_state s));
}.

Lemma steady_wf s s' : steady s s' → se_committed s' = se_committed s → session_wf s → session_wf s'.
Proof.
  intros [Hv _ _] Hc [Hs Hcw]. unfold session_wf. rewrite Hc. split; [|done].
  injection Hv as Hd Ha. by apply (on_tables (se_state s)).
Qed.

Lemma providers_gone_steady ids s s1 s2 :
  providers_gone ids s s1 → steady s1 s2 → se_committed s2 = se_committed s1 → providers_gone ids s s2.
Proof.
  intros [] Hs Hc. pose proof Hs as [Hv Ht Hf]. split; rewrite ?Hv, ?Ht; try done; [|auto].
  by eapply steady_wf.
Qed.

Lemma drop_provider_accounts id proj t :
  ac_users (drop_provider id proj t).2 = ac_users t.2 ∧
  ac_projects (drop_provider id proj t).2 = ac_projects t.2 ∧
  organizations (drop_provider id proj t).1 = organizations t.1.
Proof.
  unfold drop_provider. destruct (providers t.1 !! id); [|done]. case_bool_decide; [|done]. cbn.
  split_and!; [done|apply cascade_none_filter; set_solver|apply difference_empty_L].
Qed.

Lemma deletion_step_gone ids id proj s s1 s2 :
  proj ∈ ids → deletion_step id proj s1 s2 → providers_gone ids s s1 → providers_gone ids s s2.
Proof.
  intros Hin Hstep []. pose proof (deletion_step_wf _ _ _ _ Hstep pg_wf0) as Hwf.
  destruct Hstep as [Ht Hf Htables].
  destruct Htables as [[_ Hv]|[_ Hv]]; split; rewrite ?Ht; auto; try (by rewrite Hv).
  - rewrite Hv. eapply trimmed_trans; [done|]. by apply drop_provider_trimmed.
  - rewrite Hv. by rewrite (proj1 (drop_provider_accounts id proj _)).
  - rewrite Hv. by rewrite (proj1 (proj2 (drop_provider_accounts id proj _))).
  - rewrite Hv. by rewrite (proj2 (proj2 (drop_provider_accounts id proj _))).
Qed.

Lemma delete_providers_gone (D : deletion_laws) ids proj l s :
  proj ∈ ids → preserves (providers_gone ids s) (delete_providers proj l).
Proof.
  intros Hin. apply preserves_foreach. intros prov. apply preserves_bind; [|intros ?; apply preserves_ret].
  apply preserves_try. intros s1 H1. destruct (DeleteByID prov.1 proj s1) as [s2 r] eqn:E.
  by eapply deletion_step_gone; [|by eapply D|].
Qed.

Lemma exportProjectMetadata_steady proj s s' r :
  in_tx (exportProjectMetadata proj) s = (s', r) → steady s s' ∧ se_committed s' = se_committed s.
Proof.
  intros [Hr Hc]%in_tx_run. split; [|done]. apply same_steady.
  assert (Hp : preserves (same (se_state s)) (exportProjectMetadata proj)).
  { assert (Hsel : ∀ A (f : AuthState X → res A), preserves (same (se_state s)) (account_select f)).
    { intros A f st Hst. destruct (account_select f st) as [st' r'] eqn:E.
      apply account_select_cases in E as [E _]. by eapply same_trans. }
    unfold exportProjectMetadata.
    repeat (apply preserves_bind; [apply preserves_wrapf, Hsel|intros ?]). apply preserves_ret. }
  specialize (Hp (se_state s) (same_refl _)). by rewrite Hr in Hp.
Qed.

(** *** The tree *)

(** The projects [ids] are gone with all that is theirs, and so are the roles on
    [proj] and the ties of [ids] to their parents; other tuples stay. *)
Record tree_deleted (ids : gset UUID) (proj : UUID) (s s' : Session X) : Prop := {
  td_tables : without ids (view s).1 (view s').1;
  td_users : ac_users (view s').2 = ac_users (view s).2;
  td_rows : ac_projects (view s').2 = filter (λ p, p.1 ∉ ids) (ac_projects (view s).2);
  td_organizations : organizations (view s').1 = organizations (view s).1 ∖ ids;
  td_roles : ∀ user role, role ∈ AllRolesSorted →
    (getUserForTuple user, role, getProjectForTuple proj) ∉ fga_tuples (as_fga (se_state s'));
  td_parents : ∀ c p, c ∈ ids → parent_projects (view s).1 !! c = Some p →
    (getProjectForTuple p, "parent", getProjectForTuple c) ∉ fga_tuples (as_fga (se_state s'));
  td_less : fga_tuples (as_fga (se_state s')) ⊆ fga_tuples (as_fga (se_state s));
  td_kept : ∀ t, t ∈ fga_tuples (as_fga (se_state s)) →
    (∀ i, i ∈ ids → t.2 ≠ getProjectForTuple i) → t ∈ fga_tuples (as_fga (se_state s'));
  td_faults : ∀ x, x ∈ w_faults (as_world (se_state s')) → x ∈ w_faults (as_world (se_state s));
}.

Lemma tree_deleted_steady ids proj s1 s2 s3 s4 :
  steady s1 s2 → tree_deleted ids proj s2 s3 → steady s3 s4 → tree_deleted ids proj s1 s4.
Proof.
  intros [Hv Ht Hf] [] [Hv' Ht' Hf']. rewrite Hv, Ht in *. split; rewrite ?Hv', ?Ht'; auto.
Qed.

(** The statement deletes the tree and returns its rows. *)
Lemma DeleteProject_query_Ok proj st st' rows :
  DeleteProject_query (X := X) proj st = (st', Ok rows) → proj ∈ projects (tables st) →
  let ids : gset UUID := tree (tables st) proj in
  without ids (tables st) (tables st') ∧
  as_accounts st' = cascade_accounts ids (providers_of (tables st) ids) (as_accounts st) ∧
  organizations (tables st') = organizations (tables st) ∖ ids ∧
  as_fga st' = as_fga (X := X) st ∧
  (∀ x, x ∈ w_faults (as_world st') → x ∈ w_faults (as_world st)) ∧
  rows = omap (project_at st) (elements ids).
Proof.
  intros [[_ [=]]|(st1 & Hs & Hr)]%statement_cases Hin. cbn zeta in Hr.
  pose proof (same_db _ _ Hs) as Hd. fold (tables st1) in Hd. fold (tables st) in Hd.
  destruct Hs as (Ha & Hf & fs & Hw & Hsub).
  assert (Hat : ∀ i, project_at st1 i = project_at st i) by (intros i; unfold project_at; by rewrite Hd, Ha).
  rewrite Hd in Hr. rewrite bool_decide_true in Hr by done. case_bool_decide; [|done].
  injection Hr as <- <-. cbn. rewrite Ha. split_and!; try done.
  - apply cascade_without.
  - rewrite Hw. exact Hsub.
  - clear -Hat. induction (elements _) as [|i l IH]; [done|]. cbn. rewrite Hat, IH. done.
Qed.

(** The deletion proper, once the project and its providers are found. *)
Definition delete_tree (proj : UUID) : prog (Session X) unit :=
  in_tx (exportProjectMetadata proj);;
  assigned ← wrapf ("error getting role assignments for project " +:+ uuid_String proj +:+ ": ")
               (in_tx (on_fga (AssignmentsToProject proj)));
  in_tx (on_fga (delete_assignments proj assigned));;
  deletions ← or_throw (λ err, EText ("error deleting project " +:+ Error err))
                (in_tx (DeleteProject_query proj));
  in_tx (on_fga (orphan_projects deletions)).

(** The tuples, through the three passes over them. *)
Lemma delete_tree_tuples (L : fga_laws) proj s s' :
  session_wf s → proj ∈ projects (view s).1 → delete_tree proj s = (s', Ok tt) →
  let ids := tree (view s).1 proj in
  without ids (view s).1 (view s').1 ∧
  (view s').2 = cascade_accounts ids (providers_of (view s).1 ids) (view s).2 ∧
  organizations (view s').1 = organizations (view s).1 ∖ ids ∧
  (∀ x, x ∈ w_faults (as_world (se_state s')) → x ∈ w_faults (as_world (se_state s))) ∧
  ∃ l : list RoleAssignment, (∀ user role, role ∈ AllRolesSorted →
          (getUserForTuple user, role, getProjectForTuple proj) ∈ fga_tuples (as_fga (se_state s)) →
          ∃ a, a ∈ l ∧ ra_Subject a = user ∧ ra_Role a = role) ∧
    ∀ t, t ∈ fga_tuples (as_fga (se_state s')) ↔
         t ∈ fga_tuples (as_fga (se_state s)) ∧ (∀ a, a ∈ l → t ∉ role_tuples proj a) ∧
         ∀ i p, i ∈ ids → project_at (se_state s) i = Some p → t ∉ parent_tuples p.
Proof.
  intros Hwf Hin. unfold delete_tree.
  intros (s1 & x & [[Hv1 Ht1 Hf1] _]%exportProjectMetadata_steady & Hr)%prog_bind_Ok.
  apply prog_bind_Ok in Hr as (s2 & l & Ha%wrapf_Ok & Hr).
  apply in_tx_fga_run in Ha as (Hv2 & Hw2 & Ha).
  apply prog_bind_Ok in Hr as (s3 & [] & (Hv3 & Hw3 & Hd)%in_tx_fga_run & Hr).
  apply prog_bind_Ok in Hr as (s4 & rows & [Hq _]%or_throw_Ok%in_tx_run & Ho).
  apply in_tx_fga_run in Ho as (Hv5 & Hw5 & Ho).
  assert (Hview : view s3 = view s) by congruence. injection Hview as Htab Hacc.
  apply DeleteProject_query_Ok in Hq as (Hwo & Hac & Horg & Hfga & Hf4 & Hrows); [|by rewrite Htab].
  rewrite Htab, Hacc in *. injection Hv5 as Htab5 Hacc5. cbn zeta. cbn [view fst snd].
  rewrite Htab5, Hacc5. split_and!; [done..| |].
  - intros y Hy. rewrite Hw5 in Hy. apply Hf4 in Hy. rewrite Hw3, Hw2 in Hy. by apply Hf1.
  - exists l. pose proof (AssignmentsToProject_spec L _ _ _ _ Ha) as [Ht2 _].
    split.
    + intros user role Hrole Ht. eapply (AssignmentsToProject_complete L); [exact Ha|done|].
      by rewrite Ht1.
    + intros t. rewrite (orphan_projects_Ok L _ _ _ Ho t), Hfga, (delete_assignments_Ok L _ _ _ _ Hd t), Ht2, Ht1.
      assert (Hat : ∀ i, project_at (se_state s3) i = project_at (se_state s) i).
      { intros i. unfold project_at. by rewrite Htab, Hacc. }
      rewrite Hrows. split.
      * intros [[Hx Hroles] Hpar]. split_and!; [done..|]. intros i p Hi Hp. apply Hpar.
        apply list_elem_of_omap. exists i. rewrite elem_of_elements, Hat. done.
      * intros (Hx & Hroles & Hpar). split; [done|]. intros p (i & Hi & Hp)%list_elem_of_omap.
        rewrite elem_of_elements in Hi. rewrite Hat in Hp. by eapply Hpar.
Qed.

(** From the tables without the providers, [delete_tree] gets to those without
    the tree. *)
Lemma delete_tree_deleted (L : fga_laws) proj s s1 s2 :
  proj ∈ projects (view s).1 → providers_gone (tree (view s).1 proj) s s1 →
  delete_tree proj s1 = (s2, Ok tt) → tree_deleted (tree (view s).1 proj) proj s s2.
Proof.
  intros Hin [Hwf Htr Husers Hrows Horg Htuples Hfaults] Hr.
  apply (delete_tree_tuples L) in Hr as (Hwo & Hac & Horg2 & Hf2 & l & Hl & Ht);
    [|done|by rewrite (tr_projects _ _ _ Htr)].
  rewrite (tree_ext _ _ _ (tr_parents _ _ _ Htr)) in *. rewrite Htuples in *.
  set (ids := tree (view s).1 proj) in *.
  pose proof (pw_references _ _ (proj1 Hwf)) as Href.
  split.
  - eapply trimmed_without; [exact Htr|exact (rf_entities _ _ Href)|exact Hwo].
  - by rewrite Hac.
  - rewrite Hac. unfold cascade_accounts. cbn [ac_projects]. by rewrite Hrows.
  - by rewrite Horg2, Horg.
  - intros user role Hrole (Hx & Hroles & _)%Ht. destruct (Hl _ _ Hrole Hx) as (a & Ha & Hs & Hro).
    apply (Hroles a Ha). unfold role_tuples. rewrite Hro, Hs.
    rewrite (proj2 (ParseRole_Ok role role)) by done. by apply elem_of_singleton.
  - intros c p Hc Hp (_ & _ & Hpar)%Ht. rewrite <-(tr_parents _ _ _ Htr) in Hp.
    destruct (rf_parents _ _ Href _ _ Hp) as [Hcin _].
    rewrite <-(rf_rows _ _ Href) in Hcin. apply elem_of_dom in Hcin as [row Hrow].
    eapply (Hpar c); [done|unfold project_at; rewrite Hrow; reflexivity|].
    unfold parent_tuples. cbn [dp_ParentID dp_ID]. change (tables (se_state s1)) with (view s1).1.
    rewrite Hp. by apply elem_of_singleton.
  - intros t Hx. by apply Ht in Hx as [? _].
  - intros t Hx Hobj. apply Ht. split_and!; [done|..].
    + intros a _. unfold role_tuples. destruct (ParseRole _); [|set_solver..].
      intros ->%elem_of_singleton. apply (Hobj proj); [|done]. apply elem_of_tree. constructor.
    + intros i p Hi (Hid & _ & _)%project_at_Some. unfold parent_tuples.
      destruct (dp_ParentID p); [|set_solver]. intros ->%elem_of_singleton.
      apply (Hobj i Hi). cbn. by rewrite Hid.
  - intros x Hx. by apply Hfaults, Hf2.
Qed.

Lemma deleter_Ok (L : fga_laws) (D : deletion_laws) proj s s' :
  session_wf s → honest_faults (as_world (se_state s)) →
  projectDeleter_DeleteProject proj s = (s', Ok tt) →
  (¬ is_project (se_state s) proj ∧ steady s s') ∨
  (is_project (se_state s) proj ∧ tree_deleted (tree (view s).1 proj) proj s s').
Proof.
  intros Hwf Hh. unfold projectDeleter_DeleteProject.
  intros (s1 & found & Hf & Hr)%prog_bind_Ok. unfold try in Hf.
  destruct (in_tx (GetProject proj) s) as [s1' r1] eqn:Hg.
  pose proof (proj2 (in_tx_run _ _ _ _ Hg)) as Hc1.
  apply (find_project _ _ _ _ Hh) in Hg as (Hs1 & Hok & Hno).
  destruct r1 as [p|e|m]; [injection Hf as <- <-..|discriminate].
  2: { left. destruct (is_in e ErrNoRows) eqn:He; [|done]. injection Hr as <-.
       split; [by eapply Hno|done]. }
  right. destruct (Hok p eq_refl) as [_ Hproj]. split; [done|].
  assert (Hin : proj ∈ tree (view s).1 proj) by (apply elem_of_tree; constructor).
  assert (H1 : providers_gone (tree (view s).1 proj) s s1').
  { eapply providers_gone_steady; [|exact Hs1|done].
    by split. }
  apply prog_bind_Ok in Hr as (s2 & dbProviders & Hp & Hr).
  assert (H2 : providers_gone (tree (view s).1 proj) s s2).
  { unfold try in Hp. destruct (in_tx (ListProvidersByProjectID [proj]) s1') as [s2' r2] eqn:Hl.
    pose proof (proj2 (in_tx_run _ _ _ _ Hl)) as Hc2. apply in_tx_select_steady in Hl.
    assert (s2' = s2) as -> by (destruct r2; [by injection Hp..|discriminate]).
    by eapply providers_gone_steady. }
  apply prog_bind_Ok in Hr as (s3 & [] & Hd & Hr).
  pose proof (delete_providers_gone D _ proj
    (match dbProviders with inl l => l | inr _ => [] end) s Hin s2 H2) as H3.
  rewrite Hd in H3. cbn in H3. apply (delete_tree_deleted L proj s s3); [apply Hproj|done|exact Hr].
Qed.

(** *** The request *)

Definition started (s : AuthState X) : Session X :=
  {| se_committed := (tables s, as_accounts s); se_state := s |}.

Lemma session_Ok {A} fb fc (fn : prog (Session X) A) s s' a :
  session fb fc fn s = (s', Ok a) →
  ∃ s1 s2, same s s1 ∧ fn (started s1) = (s2, Ok a) ∧ same (se_state s2) s'.
Proof.
  unfold session. destruct (statement _ s) as [s1 b] eqn:Hb.
  apply statement_cases in Hb as [[_ Hb]|(s0 & Hb & [= -> <-])]; [by destruct b|].
  fold (started s1). destruct (fn (started s1)) as [s2 [x|e|m]] eqn:Hfn; [|done..].
  unfold in_tx. destruct (statement _ (se_state s2)) as [s3 c] eqn:Hc.
  destruct c as [[]|e|m]; [|done..]. intros [= <- ->]. exists s1, s2.
  split_and!; [done..|]. apply statement_cases in Hc as [[_ [=]]|(s0 & Hc & [= ->])]. done.
Qed.

Lemma featureEnabled_true project feature (s s' : AuthState X) :
  on_world (featureEnabled project feature) s = (s', Ok true) →
  (project, feature) ∈ entitlements (tables s).
Proof.
  unfold on_world, featureEnabled, mbind, prog_bind, try, GetFeatureInProject, select, query, tables.
  destruct (w_faults (as_world s)) as [|[e|] fs]; cbn; try case_bool_decide; by intros [=].
Qed.

(** The features of the parent allow it, or the flag for top-level projects. *)
Definition deletable (featureFlags : Flags) (ctx : Request) (d : Db) : Prop :=
  match parent_projects d !! rq_Project ctx with
  | Some parent => (parent, projectHierarchyOperationsEnabledFlag) ∈ entitlements d
  | None => flags_Bool featureFlags ProjectCreateDelete ctx = true
  end.

Lemma outside_feature parent s s' allowed :
  outside (on_world (ProjectAllowsProjectHierarchyOperations parent)) s = (s', Ok allowed) →
  se_committed s = view s →
  steady s s' ∧ se_committed s' = se_committed s ∧
  (allowed = true → (parent, projectHierarchyOperationsEnabledFlag) ∈ entitlements (view s).1).
Proof.
  unfold outside, ProjectAllowsProjectHierarchyOperations. intros Hr Hc.
  set (st := with_tables (se_committed s).1 (se_committed s).2 (se_state s)) in Hr.
  pose proof (featureEnabled_state parent projectHierarchyOperationsEnabledFlag st) as Hs.
  destruct (on_world _ st) as [st' r] eqn:E. cbn [fst] in Hs. injection Hr as <- ->.
  pose proof (same_db _ _ Hs) as Hd. destruct Hs as (Ha & Hf & fs & Hw & Hsub).
  split_and!.
  - split; cbn; [done|by rewrite Hf|]. rewrite Hw. exact Hsub.
  - cbn. unfold tables. rewrite Hd, Ha. by destruct (se_committed s).
  - intros ->. apply featureEnabled_true in E. subst st. cbn in E. by rewrite Hc in E.
Qed.

End deletion.
