(* ===== verification/UserDeletion.v ===== *)
(** * Deleting users: which projects go with them

    [DeleteUser] of internal/controlplane/identity_events.go, through
    [CleanUpUnmanagedProjects] of internal/projects/deleter.go: a project goes
    exactly when it is at the top, or below such a project, and nobody else
    administrates it. *)

From S2P Require Import Prelude GoErrors GoMonad GoStrings Uuid DbTypes Properties.
From S2P Require Import ProfileModels Database HistoryDb EntityModels EntityDb.
From S2P Require Import EntityService ProfileDb EntityEvent Eea Crypto Authz Accounts.
From S2P Require Import Email Invites Roles InviteResolution ProjectDb Projects.
From S2P Require Import ProjectLifecycle ProjectDeletion.
Local Open Scope string_scope.

Section users.
Context `{UuidLib} `{PgText} {X : Type} `{!OpenFGA X} `{!ProviderDeletion X}.
Context (L : fga_laws) (D : deletion_laws).

(** ** Administrators *)

(** Somebody other than the user is an administrator of the project. *)
Definition managed_by_another (userId : string) (p : UUID) (tuples : gset Tuple) : Prop :=
  ∃ t, t ∈ tuples ∧ t.2 = getProjectForTuple p ∧ t.1.2 = RoleAdmin ∧ getUserFromTuple t.1.1 ≠ userId.

Lemma hasOtherRoleAssignments_spec userId p (x x' : X) l :
  AssignmentsToProject p x = (x', Ok l) →
  hasOtherRoleAssignments l userId = true ↔ managed_by_another userId p (fga_tuples x).
Proof using L.
  intros [_ (tuples & -> & _ & Hin)]%(AssignmentsToProject_spec L). unfold hasOtherRoleAssignments.
  rewrite existsb_exists. split.
  - intros (a & Ha & [Hrole Hsub]%andb_prop).
    apply list_elem_of_In, list_elem_of_omap in Ha as (t & [Ht Hm]%Hin & Ha).
    unfold assignment_of in Ha. destruct (ParseRole t.1.2) as [role|e|m] eqn:Hp; [|done..].
    apply ParseRole_Ok in Hp as [Hp _]. injection Ha as <-. cbn in Hrole, Hsub. exists t.
    split_and!; [done|by apply project_object_matches|by apply String.eqb_eq in Hrole; subst|].
    by apply negb_true_iff, String.eqb_neq in Hsub.
  - intros (t & Ht & Hobj & Hrole & Hsub).
    exists {| ra_Subject := getUserFromTuple t.1.1; ra_Role := RoleAdmin;
              ra_Project := Some (uuid_String p); ra_DisplayName := "";
              ra_FirstName := ""; ra_LastName := "" |}.
    split.
    + apply list_elem_of_In, list_elem_of_omap. exists t. split.
      * apply Hin. split; [done|]. split; [done|]. intros o [= <-]. by left.
      * unfold assignment_of. by rewrite Hrole.
    + cbn. by apply negb_true_iff, String.eqb_neq.
Qed.

(** A top-level project that nobody else administrates. *)
Record unmanaged (userId : string) (p : UUID) (s : AuthState X) : Prop := {
  un_project : is_project s p;
  un_top : parent_projects (tables s) !! p = None;
  un_alone : ¬ managed_by_another userId p (fga_tuples (as_fga s));
}.

Lemma unmanaged_steady userId p s s' :
  steady s s' → unmanaged userId p (se_state s') ↔ unmanaged userId p (se_state s).
Proof.
  intros [Hv Ht _]. injection Hv as Hd Ha.
  split; intros []; split; unfold is_project in *; rewrite ?Hd, ?Ha, ?Ht in *; done.
Qed.

(** ** One project *)

Lemma CleanUp_Ok userId proj s s' :
  session_wf s → honest_faults (as_world (se_state s)) →
  CleanUpUnmanagedProjects userId proj s = (s', Ok tt) →
  (¬ unmanaged userId proj (se_state s) ∧ steady s s') ∨
  (unmanaged userId proj (se_state s) ∧ tree_deleted (tree (view s).1 proj) proj s s').
Proof using L D.
  intros Hwf Hh. unfold CleanUpUnmanagedProjects.
  intros (s1 & found & Hf & Hr)%prog_bind_Ok. unfold try in Hf.
  destruct (in_tx (GetProject proj) s) as [s1' r1] eqn:Hg.
  pose proof (proj2 (in_tx_run _ _ _ _ Hg)) as Hc1.
  apply (find_project _ _ _ _ Hh) in Hg as (Hs1 & Hok & Hno).
  destruct r1 as [p|e|m]; [injection Hf as <- <-..|discriminate].
  2: { left. destruct (is_in e ErrNoRows) eqn:He; [|done]. injection Hr as <-.
       split; [|done]. intros []. by eapply Hno. }
  destruct (Hok p eq_refl) as [(_ & Hpar & _)%project_at_Some Hproj].
  case_bool_decide as Htop.
  { left. injection Hr as <-. split; [|done]. intros []. rewrite Hpar, un_top0 in Htop.
    by destruct Htop. }
  apply prog_bind_Ok in Hr as (s2 & l & Ha%or_throw_Ok & Hr).
  apply in_tx_run in Ha as Hc2. destruct Hc2 as [_ Hc2].
  apply in_tx_fga_run in Ha as (Hv2 & Hw2 & Ha).
  assert (Hs2 : steady s1' s2).
  { split; [done|exact (proj1 (AssignmentsToProject_spec L _ _ _ _ Ha))|by rewrite Hw2]. }
  pose proof (steady_trans _ _ _ Hs1 Hs2) as Hs.
  apply hasOtherRoleAssignments_spec with (userId := userId) in Ha. rewrite (sd_tuples _ _ Hs1) in Ha.
  destruct (hasOtherRoleAssignments l userId).
  { left. injection Hr as <-. split; [|done]. intros []. by apply un_alone0, Ha. }
  right.
  assert (Hun : unmanaged userId proj (se_state s)).
  { split; [done| |by intros ?%Ha].
    rewrite Hpar in Htop. by destruct (parent_projects _ !! proj); [destruct Htop|]. }
  split; [done|]. apply or_throw_Ok in Hr. apply (deleter_Ok L D) in Hr; [| |].
  - pose proof (sd_view _ _ Hs) as Hv. injection Hv as Hd Hac.
    destruct Hr as [[Hn _]|[_ Hr]].
    { destruct Hn. destruct Hun as [Hp _ _]. unfold is_project. by rewrite Hd, Hac. }
    rewrite (sd_view _ _ Hs) in Hr. eapply tree_deleted_steady; [exact Hs|exact Hr|apply steady_refl].
  - eapply steady_wf; [exact Hs|congruence|done].
  - intros e He. apply Hh. by apply (sd_faults _ _ Hs).
Qed.

(** ** The projects of a user *)

Lemma ListObjects_tuples T type rel user :
  preserves (λ x, fga_tuples x = T) (fga_ListObjects type rel user).
Proof using L.
  intros x Hx. destruct (fga_ListObjects type rel user x) as [x' r] eqn:E.
  apply (fl_list L) in E. cbn. congruence.
Qed.

Lemma traverse_tuples T depth : ∀ parent,
  preserves (λ x, fga_tuples x = T) (traverseProjectsForParent depth parent).
Proof using L.
  induction depth as [|depth IH]; intros parent; cbn [traverseProjectsForParent]; [by intros x Hx|].
  apply preserves_bind.
  { unfold children_of. apply preserves_bind; [apply preserves_wrapf, ListObjects_tuples|].
    intros; apply preserves_ret. }
  intros l. generalize l at 2 as out. induction l as [|q l IHl]; intros out; [apply preserves_ret|].
  apply preserves_bind; [apply IH|]. intros children. apply IHl.
Qed.

Lemma getProjectFromTuple_ForTuple p : getProjectFromTuple (getProjectForTuple p) = uuid_String p.
Proof. unfold getProjectFromTuple, getProjectForTuple, Strings.TrimPrefix. cbn. by destruct (uuid_String p). Qed.

Lemma each_project_Ok depth T todo : ∀ out (x x' : X) l, fga_tuples x = T →
  (fix each (l : list UUID) (out : list UUID) : prog X (list UUID) :=
     match l with
     | [] => mret out
     | u :: l =>
         children ← traverseProjectsForParent depth u;
         each l (out ++ u :: children)%list
     end) todo out x = (x', Ok l) →
  fga_tuples x' = T ∧ ∀ p, p ∈ out ∨ p ∈ todo → p ∈ l.
Proof using L.
  induction todo as [|u todo IH]; intros out x x' l Hx.
  - intros [= <- <-]. split; [done|]. intros p [Hp|Hp]; [done|by list_cases Hp].
  - intros (x1 & children & Ht & Hr)%prog_bind_Ok.
    pose proof (traverse_tuples T depth u x Hx) as H1. rewrite Ht in H1.
    apply IH in Hr as [Hx' Hin]; [|exact H1]. split; [done|]. intros p Hp. apply Hin.
    rewrite elem_of_app, elem_of_cons. rewrite elem_of_cons in Hp. tauto.
Qed.

(** A deletion looks at every project on which the user has a role. *)
Lemma ProjectsForUser_Ok depth sub (x x' : X) l :
  ProjectsForUser depth sub x = (x', Ok l) →
  fga_tuples x' = fga_tuples x ∧
  ∀ role p, (getUserForTuple sub, role, getProjectForTuple p) ∈ fga_tuples x → p ∈ l.
Proof using L.
  unfold ProjectsForUser. intros (x1 & tuples & Hr & Heach)%prog_bind_Ok.
  unfold read_all in Hr. apply (read_pages_spec L) in Hr as [Ht Hl]; [|lia]. cbn in Hl.
  set (req := {| rr_User := _; rr_Object := _ |}) in Hl. destruct (fl_rest L x req) as [_ Hin].
  rewrite <-Hl in Hin. apply (each_project_Ok _ (fga_tuples x)) in Heach as [Hx Hall]; [|done].
  split; [done|]. intros role p Hp. apply Hall. right.
  apply list_elem_of_omap. exists (getProjectForTuple p). split.
  - apply elem_of_elements, elem_of_list_to_set, list_elem_of_fmap.
    exists (getUserForTuple sub, role, getProjectForTuple p). split; [done|]. apply Hin.
    split; [done|]. split; [by intros u [= <-]|]. intros o [= <-].
    right. split; [done|]. unfold Strings.HasPrefix, getProjectForTuple. cbn. by destruct (uuid_String p).
  - by rewrite getProjectFromTuple_ForTuple, uuid_Parse_String.
Qed.

(** ** Several projects *)

(** What the deletions for a user have done to the tables of a session, after
    looking at the projects [looked]. *)
Record cleaned (userId : string) (looked : list UUID) (s0 s : Session X) : Prop := {
  cl_wf : session_wf s;
  cl_faults : ∀ x, x ∈ w_faults (as_world (se_state s)) → x ∈ w_faults (as_world (se_state s0));
  cl_users : ac_users (view s).2 = ac_users (view s0).2;
  cl_projects : projects (view s).1 ⊆ projects (view s0).1;
  cl_parents : ∀ c p, parent_projects (view s).1 !! c = Some p → parent_projects (view s0).1 !! c = Some p;
  cl_kept : ∀ i, i ∈ projects (view s).1 →
    parent_projects (view s).1 !! i = parent_projects (view s0).1 !! i ∧
    (i ∈ organizations (view s).1 ↔ i ∈ organizations (view s0).1) ∧
    ac_projects (view s).2 !! i = ac_projects (view s0).2 !! i ∧
    ∀ t, t.2 = getProjectForTuple i →
      t ∈ fga_tuples (as_fga (se_state s)) ↔ t ∈ fga_tuples (as_fga (se_state s0));
  cl_gone : ∀ i, i ∈ projects (view s0).1 → i ∉ projects (view s).1 →
    ∃ p, unmanaged userId p (se_state s0) ∧ i ∈ tree (view s0).1 p;
  cl_looked : ∀ p, p ∈ looked → unmanaged userId p (se_state s0) → p ∉ projects (view s).1;
}.

Lemma cleaned_refl userId s : session_wf s → cleaned userId [] s s.
Proof. intros Hwf. split; try done. intros p Hp. by list_cases Hp. Qed.

(** The projects that are left are managed as they were. *)
Lemma cleaned_unmanaged userId looked s0 s p :
  cleaned userId looked s0 s → p ∈ projects (view s).1 →
  unmanaged userId p (se_state s) ↔ unmanaged userId p (se_state s0).
Proof.
  intros Hc Hp. destruct (cl_kept _ _ _ _ Hc p Hp) as (Hpar & Horg & Hrow & Ht).
  pose proof (cl_projects _ _ _ _ Hc _ Hp) as Hp0. unfold view in *. cbn [fst snd] in *.
  assert (Hm : managed_by_another userId p (fga_tuples (as_fga (se_state s))) ↔
               managed_by_another userId p (fga_tuples (as_fga (se_state s0)))).
  { split; intros (t & Hin & Ho & Hr & Hu); exists t; (split; [by apply (Ht t Ho)|done]). }
  split; intros [(_ & Ho & Hx) Htop Ha]; (split; [split_and!|..]);
    rewrite ?Hpar, ?Hrow in *; tauto.
Qed.

Lemma tree_deleted_kept ids proj s s' i :
  session_wf s → tree_deleted ids proj s s' → ids = tree (view s).1 proj →
  i ∈ projects (view s').1 → (i ∉ ids) ∧ i ∈ projects (view s).1 ∧
  parent_projects (view s').1 !! i = parent_projects (view s).1 !! i ∧
  (i ∈ organizations (view s').1 ↔ i ∈ organizations (view s).1) ∧
  ac_projects (view s').2 !! i = ac_projects (view s).2 !! i ∧
  ∀ t, t.2 = getProjectForTuple i →
    t ∈ fga_tuples (as_fga (se_state s')) ↔ t ∈ fga_tuples (as_fga (se_state s)).
Proof.
  intros Hwf [Htab _ Hrows Horg _ _ Hless Hkept _] Hids. rewrite (wo_projects _ _ _ Htab). intros [Hi Hn]%elem_of_difference.
  split_and!; [done..| | | |].
  - apply option_eq. intros p. rewrite (wo_parents _ _ _ Htab). split; [tauto|]. intros Hp.
    split_and!; [done..|]. intros Hin. apply Hn. rewrite Hids in *. by eapply tree_closed.
  - rewrite Horg. set_solver.
  - rewrite Hrows. apply option_eq. intros row. rewrite map_lookup_filter_Some. cbn. tauto.
  - intros t Ht. split; [apply Hless|]. intros Hin. apply Hkept; [done|].
    intros j Hj. rewrite Ht. intros ->%getProjectForTuple_inj. done.
Qed.

Lemma cleaned_steady userId looked s0 s s' :
  cleaned userId looked s0 s → steady s s' → session_wf s' → cleaned userId looked s0 s'.
Proof. intros [] [Hv Ht Hf] Hwf. split; rewrite ?Hv, ?Ht; auto. Qed.

Lemma tree_incl d1 d2 root i :
  (∀ c p, parent_projects d1 !! c = Some p → parent_projects d2 !! c = Some p) →
  i ∈ tree d1 root → i ∈ tree d2 root.
Proof.
  intros Hsub. rewrite !elem_of_tree. induction 1 as [|c p Hp _ IH]; [constructor|].
  eapply below_step; [by apply Hsub|done].
Qed.

(** A project found unmanaged goes with what is below it. *)
Lemma cleaned_deleted userId looked proj s0 s s' :
  cleaned userId looked s0 s → unmanaged userId proj (se_state s) →
  tree_deleted (tree (view s).1 proj) proj s s' → session_wf s' →
  cleaned userId (proj :: looked) s0 s'.
Proof.
  intros Hc Hun Hdel Hwf.
  assert (Hproj : proj ∈ projects (view s).1) by apply Hun.
  pose proof (proj1 (cleaned_unmanaged _ _ _ _ _ Hc Hproj) Hun) as Hun0.
  split; [done|..].
  - intros x Hx. apply (cl_faults _ _ _ _ Hc). by apply (td_faults _ _ _ _ Hdel).
  - by rewrite (td_users _ _ _ _ Hdel), (cl_users _ _ _ _ Hc).
  - rewrite (wo_projects _ _ _ (td_tables _ _ _ _ Hdel)). pose proof (cl_projects _ _ _ _ Hc). set_solver.
  - intros c p [Hp _]%(wo_parents _ _ _ (td_tables _ _ _ _ Hdel)). by apply (cl_parents _ _ _ _ Hc).
  - intros i Hi. destruct (tree_deleted_kept _ _ _ _ _ (cl_wf _ _ _ _ Hc) Hdel eq_refl Hi)
      as (_ & Hin & -> & -> & -> & Ht).
    destruct (cl_kept _ _ _ _ Hc i Hin) as (-> & -> & -> & Ht0). split_and!; [done..|].
    intros t Hobj. by rewrite (Ht t Hobj), (Ht0 t Hobj).
  - intros i Hi Hn. rewrite (wo_projects _ _ _ (td_tables _ _ _ _ Hdel)) in Hn.
    destruct (decide (i ∈ projects (view s).1)) as [His|]; [|by apply (cl_gone _ _ _ _ Hc)].
    exists proj. split; [done|]. assert (Hb : i ∈ tree (view s).1 proj) by (clear -Hn His; set_solver).
    eapply tree_incl, Hb. exact (cl_parents _ _ _ _ Hc).
  - intros p Hp Hunp Hin. destruct (tree_deleted_kept _ _ _ _ _ (cl_wf _ _ _ _ Hc) Hdel eq_refl Hin)
      as (Hnot & His & _).
    apply elem_of_cons in Hp as [->|Hp]; [|by eapply (cl_looked _ _ _ _ Hc)].
    apply Hnot, elem_of_tree. constructor.
Qed.

Lemma CleanUp_cleaned userId looked proj s0 s s' :
  honest_faults (as_world (se_state s0)) → cleaned userId looked s0 s →
  CleanUpUnmanagedProjects userId proj s = (s', Ok tt) → cleaned userId (proj :: looked) s0 s'.
Proof using L D.
  intros Hh Hc Hr. pose proof (CleanUp_wf D userId proj s (cl_wf _ _ _ _ Hc)) as Hwf.
  rewrite Hr in Hwf. cbn in Hwf. apply CleanUp_Ok in Hr as [[Hno Hs]|[Hun Hdel]].
  - pose proof (cleaned_steady _ _ _ _ _ Hc Hs Hwf) as Hc'. destruct Hc'. split; try done.
    intros p [->|Hp]%elem_of_cons Hun; [|by apply cl_looked0].
    intros Hin. rewrite (sd_view _ _ Hs) in Hin. by apply Hno, (cleaned_unmanaged _ _ _ _ _ Hc).
  - by eapply cleaned_deleted.
  - apply Hc.
  - intros e He. apply Hh. by apply (cl_faults _ _ _ _ Hc).
Qed.

(** ** The transaction *)

(** What a rollback goes back to has the projects [P]. *)
Definition goes_back_to (P : gset UUID) (s : Session X) : Prop := projects (se_committed s).1 = P.

Lemma in_tx_goes_back {A} P (m : prog (AuthState X) A) : preserves (goes_back_to P) (in_tx m).
Proof. intros s Hs. unfold in_tx. by destruct (m (se_state s)). Qed.

Lemma drop_provider_projects id proj t : projects (drop_provider id proj t).1 = projects t.1.
Proof.
  unfold drop_provider. destruct (providers t.1 !! id); [|done]. case_bool_decide; [|done]. cbn.
  apply difference_empty_L.
Qed.

Lemma deleter_goes_back P proj : preserves (goes_back_to P) (projectDeleter_DeleteProject proj).
Proof using D.
  unfold projectDeleter_DeleteProject. apply preserves_bind; [apply preserves_try, in_tx_goes_back|].
  intros [p|e]; [|case_match; [apply preserves_ret|apply preserves_throw]].
  apply preserves_bind; [apply preserves_try, in_tx_goes_back|]. intros l. apply preserves_bind.
  { apply preserves_foreach. intros prov. apply preserves_bind; [|intros ?; apply preserves_ret].
    apply preserves_try. intros s Hs. destruct (DeleteByID prov.1 proj s) as [s' r] eqn:E.
    change (projects (se_committed s').1 = P).
    apply D in E as [_ _ [[Hc _]|[Hc _]]]; rewrite Hc; [done|].
    by rewrite drop_provider_projects. }
  intros []. apply preserves_bind; [apply in_tx_goes_back|]. intros ?.
  apply preserves_bind; [apply preserves_wrapf, in_tx_goes_back|]. intros ?.
  apply preserves_bind; [apply in_tx_goes_back|]. intros [].
  apply preserves_bind; [apply preserves_or_throw, in_tx_goes_back|]. intros ?. apply in_tx_goes_back.
Qed.

Lemma delete_user_goes_back P projs userId : preserves (goes_back_to P) (delete_user_data projs userId).
Proof using D.
  unfold delete_user_data. apply preserves_bind; [apply preserves_try, in_tx_goes_back|]. intros usr.
  apply preserves_bind.
  { destruct usr; [apply preserves_ret|case_match; [apply preserves_ret|apply preserves_throw]]. }
  intros id. apply preserves_bind.
  - apply preserves_foreach. intros proj. apply preserves_or_throw. unfold CleanUpUnmanagedProjects.
    apply preserves_bind; [apply preserves_try, in_tx_goes_back|].
    intros [p|e]; [|case_match; [apply preserves_ret|apply preserves_throw]].
    case_match; [apply preserves_ret|].
    apply preserves_bind; [apply preserves_or_throw, in_tx_goes_back|]. intros assigned.
    case_match; [apply preserves_ret|]. apply preserves_or_throw, deleter_goes_back.
  - intros []. destruct id; [|apply preserves_ret]. case_match; [apply preserves_ret|].
    apply preserves_or_throw, in_tx_goes_back.
Qed.

(** What holds of what a failing session goes back to holds of the tables. *)
Lemma session_rolled_back {A} (P : Db * Accounts → Prop) fb fc (fn : prog (Session X) A) s s' r :
  preserves (λ σ, P (se_committed σ)) fn → session fb fc fn s = (s', r) → (∀ a, r ≠ Ok a) →
  P (tables s, as_accounts s) → P (tables s', as_accounts s').
Proof.
  intros Hfn. unfold session. destruct (statement _ s) as [s1 b] eqn:Hb.
  assert (Hsame : same s s1).
  { apply statement_cases in Hb as [[Hb _]|(s0 & Hb & [= <- _])]; done. }
  assert (Ht : tables s1 = tables s) by exact (same_db _ _ Hsame).
  destruct b as [[]|e|m]; [|intros [= <- <-] _; by rewrite Ht, (proj1 Hsame)..].
  pose proof (Hfn (started s1)) as Hg. unfold started in Hg. cbn in Hg. rewrite Ht, (proj1 Hsame) in Hg.
  intros Hr Hno HP. specialize (Hg HP). revert Hr. rewrite Ht, (proj1 Hsame).
  assert (Hundo : ∀ σ : Session X, P (se_committed σ) →
    let u := with_tables (se_committed σ).1 (se_committed σ).2 (se_state σ) in P (tables u, as_accounts u))
    by (intros [[d a] st]; done).
  destruct (fn _) as [s2 r2]. cbn [fst] in Hg. destruct r2 as [a|e|m];
    [|intros [= <- <-]; exact (Hundo _ Hg)..].
  unfold in_tx. destruct (statement _ (se_state s2)) as [s3 [[]|e|m]];
    [intros [= <- <-]; by destruct (Hno a)|intros [= <- <-]; exact (Hundo {| se_committed := _ |} Hg)..].
Qed.

Lemma session_fga {A} fb fc (fn : prog (Session X) A) s s' r :
  session fb fc fn s = (s', r) →
  as_fga s' = as_fga s ∨
  ∃ s1 σ q, same s s1 ∧ fn (started s1) = (σ, q) ∧ as_fga s' = as_fga (se_state σ).
Proof.
  unfold session. destruct (statement _ s) as [s1 b] eqn:Hb.
  assert (Hsame : same s s1).
  { apply statement_cases in Hb as [[Hb _]|(s0 & Hb & [= <- _])]; done. }
  destruct b as [[]|e|m]; [|intros [= <- <-]; left; apply Hsame..]. fold (started s1).
  intros Hr. right. destruct (fn (started s1)) as [σ q] eqn:E. exists s1, σ, q. do 2 (split; [done|]).
  destruct q as [a|e|m]; [|by injection Hr as <- <-..].
  unfold in_tx in Hr. destruct (statement _ (se_state σ)) as [s3 c] eqn:Hc.
  assert (Hs : same (se_state σ) s3).
  { apply statement_cases in Hc as [[Hc _]|(s0 & Hc & [= <- _])]; done. }
  destruct c as [[]|e|m]; injection Hr as <- <-; apply Hs.
Qed.

(** Without the row of the subject, if it has one. *)
Lemma GetUser_then_delete userId s s1 (usr : Z + gerr) :
  honest_faults (as_world (se_state s)) → subjects_unique (view s).2 →
  try (in_tx (GetUserBySubject userId)) s = (s1, Ok usr) →
  steady s s1 ∧ (∀ e, usr = inr e → is_in e ErrNoRows = true →
                   filter (λ p, p.2 ≠ userId) (ac_users (view s).2) = ac_users (view s).2) ∧
  (∀ id, usr = inl id → filter (λ p, p.2 ≠ userId) (ac_users (view s).2) = delete id (ac_users (view s).2)).
Proof.
  intros Hh Hu Hr. unfold try in Hr. destruct (in_tx (GetUserBySubject userId) s) as [s1' r] eqn:E.
  pose proof (in_tx_select_steady _ _ _ _ E) as Hs. apply in_tx_run in E as [E _].
  assert (Hv : as_accounts (se_state s1') = (view s).2) by exact (f_equal snd (sd_view _ _ Hs)).
  destruct r as [id|e|m]; [injection Hr as <- <-..|discriminate]; (split; [done|]); split; try done.
  - intros id' [= <-]. apply account_select_cases in E as [_ E]. specialize (E eq_refl). cbn beta in E.
    rewrite Hv in E. destruct (filter _ (map_to_list (ac_users (view s).2))) as [|[id' sub] l] eqn:Hf; [done|].
    injection E as <-. assert (Hin : (id, sub) ∈ (id, sub) :: l) by left. rewrite <-Hf in Hin.
    apply list_elem_of_filter in Hin as [Hsub Hin%elem_of_map_to_list]. cbn in Hsub. subst sub.
    apply map_eq. intros i. apply option_eq. intros x. rewrite map_lookup_filter_Some, lookup_delete_Some.
    cbn. split.
    + intros [Hi Hx]. split; [|done]. intros <-. pose proof (eq_trans (eq_sym Hi) Hin) as [= E]. exact (Hx E).
    + intros [Hne Hi]. split; [done|]. intros ->. apply Hne. by eapply Hu.
  - intros e' [= <-] He. pose proof (account_select_no_rows _ _ _ _ Hh E He) as Hn. cbn beta in Hn.
    rewrite Hv in Hn. destruct (filter _ (map_to_list (ac_users (view s).2))) as [|[id' sub] l] eqn:Hf; [|done].
    apply map_filter_id. intros i x Hi Hx. cbn in Hx. subst x. apply elem_of_map_to_list in Hi.
    assert (Hin : (i, userId) ∈ filter (λ p, p.2 = userId) (map_to_list (ac_users (view s).2))).
    { by apply list_elem_of_filter. }
    rewrite Hf in Hin. by list_cases Hin.
Qed.

Lemma CleanUps_cleaned f userId s0 projs : ∀ looked s s',
  honest_faults (as_world (se_state s0)) → cleaned userId looked s0 s →
  foreach (λ proj, or_throw (f proj) (CleanUpUnmanagedProjects userId proj)) projs s = (s', Ok tt) →
  ∃ looked', cleaned userId looked' s0 s' ∧ (projs ++ looked)%list ⊆ looked'.
Proof using L D.
  induction projs as [|proj projs IH]; intros looked s s' Hh Hc; cbn [foreach].
  - intros [= <-]. by exists looked.
  - intros (s1 & [] & H1%or_throw_Ok & Hr)%prog_bind_Ok. apply (CleanUp_cleaned _ looked _ s0) in H1; [|done..].
    destruct (IH _ _ _ Hh H1 Hr) as (looked' & Hc' & Hsub). exists looked'. split; [done|]. set_solver.
Qed.

Lemma delete_user_data_Ok projs userId s s' :
  session_wf s → honest_faults (as_world (se_state s)) →
  delete_user_data projs userId s = (s', Ok tt) →
  ∃ looked s1, cleaned userId looked s s1 ∧ projs ⊆ looked ∧ (view s').1 = (view s1).1 ∧
    (userId ≠ "" → subjects_unique (view s).2 →
     ac_users (view s').2 = filter (λ p, p.2 ≠ userId) (ac_users (view s).2)).
Proof using L D.
  intros Hwf Hh. unfold delete_user_data.
  intros (s1 & found & Hf & Hr)%prog_bind_Ok. apply prog_bind_Ok in Hr as (s2 & usr & Husr & Hr).
  apply prog_bind_Ok in Hr as (s3 & [] & Hloop & Hr).
  assert (Hs1 : steady s s1 ∧ session_wf s1).
  { unfold try in Hf. destruct (in_tx (GetUserBySubject userId) s) as [s1' r] eqn:E.
    assert (Hw : preserves (@session_wf _ X) (in_tx (GetUserBySubject userId)))
      by apply preserves_session_tx, (framed_account_select wf).
    specialize (Hw s Hwf). rewrite E in Hw.
    apply in_tx_select_steady in E. destruct r; [by injection Hf as <- _..|discriminate]. }
  destruct Hs1 as [Hs1 Hwf1].
  assert (s2 = s1) as ->.
  { destruct found as [id|e]; [by injection Husr|]. by destruct (is_in e ErrNoRows); [injection Husr|]. }
  apply (CleanUps_cleaned _ userId s projs []) in Hloop as (looked & Hc & Hsub);
    [|done|by eapply cleaned_steady; [apply cleaned_refl|..]].
  exists looked, s3. split; [done|]. split; [set_solver|].
  assert (Hend : usr = None ∨ userId = "" → s' = s3).
  { intros [->| ->]; [by injection Hr|]. by destruct usr; injection Hr. }
  destruct usr as [id|].
  2: { rewrite Hend by auto. split; [done|]. intros _ Hu. rewrite (cl_users _ _ _ _ Hc).
       destruct (GetUser_then_delete _ _ _ _ Hh Hu Hf) as (_ & Hno & _).
       destruct found as [id|e]; [done|]. destruct (is_in e ErrNoRows) eqn:He; [|done].
       symmetry. by eapply Hno. }
  destruct (String.eqb_spec userId "") as [->|Hne]; [rewrite Hend by auto; done|].
  apply or_throw_Ok, in_tx_run in Hr as [Hr _].
  apply statement_cases in Hr as [[_ [=]]|(s4 & Hsame & [= Hr])].
  unfold view at 1 4. rewrite <-Hr. cbn [fst snd]. split; [exact (same_db _ _ Hsame)|]. intros _ Hu.
  destruct (GetUser_then_delete _ _ _ _ Hh Hu Hf) as (_ & _ & Hdel).
  assert (found = inl id) as ->.
  { destruct found as [i|e]; [by injection Husr as ->|]. by destruct (is_in e ErrNoRows). }
  rewrite (Hdel id eq_refl). cbn. f_equal.
  etrans; [exact (f_equal ac_users (proj1 Hsame))|exact (cl_users _ _ _ _ Hc)].
Qed.

(** ** The user *)

(** Deleting a user takes away, whatever fails, only projects at or below a
    top-level project that nobody else administrated; when it succeeds, every such
    project on which the user had a role is gone, and of the users exactly this
    one. *)
Theorem DeleteUser_unmanaged depth userId s s' r :
  wf s → honest_faults (as_world s) → DeleteUser depth userId s = (s', r) →
  wf s' ∧
  (∀ i, i ∈ projects (tables s) → i ∉ projects (tables s') →
     ∃ p, unmanaged userId p s ∧ i ∈ tree (tables s) p) ∧
  (r = Ok tt →
     (∀ role p, (getUserForTuple userId, role, getProjectForTuple p) ∈ fga_tuples (as_fga s) →
        unmanaged userId p s → p ∉ projects (tables s')) ∧
     (userId ≠ "" → subjects_unique (as_accounts s) →
        ac_users (as_accounts s') = filter (λ p, p.2 ≠ userId) (ac_users (as_accounts s)))).
Proof using L D.
  intros Hwf Hh Hrun. pose proof (DeleteUser_wf D depth userId s Hwf) as Hwf'. rewrite Hrun in Hwf'.
  split; [exact Hwf'|]. clear Hwf'. unfold DeleteUser in Hrun.
  assert (Hsame : ∀ A f (m : prog X A) s s' r, or_throw f (on_fga m) s = (s', r) →
    tables s' = tables s ∧ as_accounts s' = as_accounts s ∧ as_world s' = as_world s).
  { intros A f m t t' q Hq. pose proof (or_throw_state f (on_fga m) t) as Hst. rewrite Hq in Hst.
    cbn in Hst. subst t'. destruct (on_fga m t) as [t1 q1] eqn:E. cbn.
    apply on_fga_run in E as (_ & _ & Hw & Ha). unfold tables. by rewrite Hw, Ha. }
  apply prog_bind_inv in Hrun as [(s1 & projs & Hp & Hrun)|(Hno & r1 & Hp & _)].
  2: { apply Hsame in Hp as (Ht & _ & _). rewrite Ht. split; [done|]. by intros ->. }
  pose proof (Hsame _ _ _ _ _ _ Hp) as (Ht1 & Ha1 & Hw1).
  apply or_throw_Ok, on_fga_run in Hp as (Hf1 & Hproj & _ & _).
  destruct (ProjectsForUser depth userId (as_fga s)) as [x1 r1] eqn:Hpu. cbn in Hf1, Hproj. subst r1.
  apply ProjectsForUser_Ok in Hpu as [Hx1 Hlisted].
  apply prog_bind_inv in Hrun as [(s2 & [] & Hs & Hrun)|(Hno & r2 & Hs & Hr2)].
  2: { assert (Hback : projects (tables s') = projects (tables s1)).
       { eapply (session_rolled_back (λ t, projects t.1 = projects (tables s1)));
           [exact (delete_user_goes_back _ projs userId)|exact Hs|by intros a ->|done]. }
       rewrite Hback, Ht1. split; [done|]. by intros ->. }
  apply Hsame in Hrun as (Ht3 & Ha3 & _). rewrite Ht3, Ha3.
  apply session_Ok in Hs as (s1' & σ & Hs1 & Hd & Hσ).
  assert (Hs : steady (started s) (started s1')).
  { eapply (steady_trans _ (started s1)); [|by apply same_steady]. split; cbn.
    - unfold view. cbn. by rewrite Ht1, Ha1.
    - by rewrite Hf1.
    - by rewrite Hw1. }
  pose proof (sd_view _ _ Hs) as Hv. injection Hv as Hdb Hac. cbn in Hdb, Hac.
  apply delete_user_data_Ok in Hd as (looked & s3 & Hc & Hsub & Hend & Husers).
  2: { assert (Hw : wf s1') by (by apply (on_tables s)). by split. }
  2: { intros e He. by apply Hh, (sd_faults _ _ Hs). }
  assert (Htables : tables s2 = (view s3).1).
  { etrans; [exact (same_db _ _ Hσ)|exact Hend]. }
  assert (Hun : ∀ p, unmanaged userId p s1' ↔ unmanaged userId p s)
    by (intros p; exact (unmanaged_steady userId p _ _ Hs)).
  rewrite Htables. split.
  - intros i Hi Hn. destruct (cl_gone _ _ _ _ Hc i) as (p & Hp & Hin); [cbn; by rewrite Hdb|done|].
    exists p. cbn in Hp, Hin. rewrite Hdb in Hin. by split; [apply Hun|].
  - intros _. split.
    + intros role p Hp%Hlisted Hunp. apply (cl_looked _ _ _ _ Hc); [by apply Hsub|by apply Hun].
    + intros Hne Hu. rewrite (proj1 Hσ). rewrite <-Hac in *. by apply Husers.
Qed.
End users.
