(* ===== verification/ProjectService.v ===== *)
(** * The handlers of projects

    internal/controlplane/handlers_projects.go but for the deletion, which is in
    Projects.v: listing projects and their children, creating one, and
    changing the description and the displayed name, with what a change leaves to
    be read. *)

From S2P Require Import Prelude GoErrors GoMonad GoStrings Uuid DbTypes Properties.
From S2P Require Import ProfileModels Database HistoryDb EntityModels EntityDb.
From S2P Require Import EntityService EntityEvent Eea Crypto Authz Accounts Email.
From S2P Require Import Invites Identities Access ProjectDb Projects ProjectLifecycle.
From Stdlib Require Import Ascii.
Local Open Scope string_scope.

(** The canonical form of a [FieldMask], which drops the paths that others cover;
    without a mask it is a nil dereference. *)
Definition covered (path prefix : string) : Prop :=
  ∃ rest, path = prefix +:+ "." +:+ rest.

Class FieldMasks := {
  Normalize : list string → list string;
  Normalize_elem : ∀ paths p, (∀ q, ¬ covered p q) → p ∈ Normalize paths ↔ p ∈ paths;
}.

Definition nil_dereference : string := "invalid memory address or nil pointer dereference".

Section service.
Context `{UuidLib} `{RandomUuid} `{PgText} `{InviteLib} `{!MetadataJSON} `{FieldMasks}.
Context {X : Type} `{!OpenFGA X} `{!Marketplace X}.
(** The configuration of the creator, and a bound of the depth of the projects. *)
Context (config : CreatorConfig) (depth : nat).

(** ** Listing *)

(** Metadata that cannot be parsed are ignored. *)
Definition listed_project (project : dbProject) : pbProject :=
  match ParseMetadata (dp_Row project) with
  | Ok meta => project_answer project (pm_Description (meta_Public meta))
                 (pm_DisplayName (meta_Public meta))
  | _ => project_answer project "" (prj_Name (dp_Row project))
  end.

Fixpoint list_projects (projs : list UUID) : prog (AuthState X) (list pbProject) :=
  match projs with
  | [] => mret []
  | projectID :: projs =>
      project ← try (GetProject projectID);
      match project with
      | inr err => if is_in err ErrNoRows then list_projects projs
                   else throw (failing "Internal" "error getting project: " err)
      | inl project => rest ← list_projects projs; mret (listed_project project :: rest)
      end
  end.

Definition ListProjects (ctx : Request) : prog (AuthState X) (list pbProject) :=
  let id := cl_Identity (rq_Caller ctx) in
  (match id with
   | Some i =>
       if String.eqb (Identity_String id) (id_UserID i)
       then or_throw (failing "Internal" "error getting user: ")
              (GetUserBySubject (Identity_String id));; mret tt
       else mret tt
   | None => mret tt
   end);;
  projs ← or_throw (failing "Internal" "error getting projects for user: ")
            (on_fga (ProjectsForUser depth (Identity_String id)));
  list_projects projs.

Definition child_answer (project : dbProject) : pbProject :=
  project_answer project "" (prj_Name (dp_Row project)).

Definition getChildProjects (projectID : UUID) : prog (AuthState X) (list pbProject) :=
  projs ← or_throw (failing "Internal" "error getting subprojects: ") (GetChildrenProjects projectID);
  mret (child_answer <$> projs).

Definition getImmediateChildrenProjects (projectID : UUID) : prog (AuthState X) (list pbProject) :=
  projs ← or_throw (failing "Internal" "error getting subprojects: ")
            (GetImmediateChildrenProjects projectID);
  mret (child_answer <$> projs).

Definition ListChildProjects (ctx : Request) (recursive : bool) : prog (AuthState X) (list pbProject) :=
  or_throw (failing "Internal" "error getting subprojects: ")
    (if recursive then getChildProjects (rq_Project ctx)
     else getImmediateChildrenProjects (rq_Project ctx)).

(** ** Creating and changing *)

Definition CreateProject (call : Call) (ctx : Request) (name : string) : prog (AuthState X) pbProject :=
  parent ← try (getProjectIDFromRequest call);
  parentProjectID ← match parent with
                    | inl id => mret id
                    | inr err => if is_in err ErrNoProjectInContext then mret uuid_Nil else throw err
                    end;
  ProvisionProject config ctx name parentProjectID.

(** The project of the request with its metadata. *)
Definition project_with_metadata (projectID : UUID) : prog (AuthState X) (dbProject * Metadata) :=
  project ← or_throw (λ err, if is_in err ErrNoRows then status_error "NotFound" "project not found"
                             else failing "Internal" "error getting project: " err)
              (GetProject projectID);
  meta ← or_throw (failing "Internal" "error parsing metadata: ") (lift (ParseMetadata (dp_Row project)));
  mret (project, meta).

(** The new metadata are stored and answered. *)
Definition store_metadata (project : dbProject) (meta : Metadata) : prog (AuthState X) pbProject :=
  serialized ← or_throw (failing "Internal" "error serializing metadata: ")
                 (lift_sum (SerializeMetadata meta));
  outproj ← or_throw (failing "Internal" "error updating project: ")
              (UpdateProjectMeta (dp_ID project) serialized);
  mret (project_answer outproj (pm_Description (meta_Public meta)) (pm_DisplayName (meta_Public meta))).

Definition set_public (description displayName : string) (meta : Metadata) : Metadata :=
  {| meta_Version := meta_Version meta; meta_SelfEnrolled := meta_SelfEnrolled meta;
     meta_Description := meta_Description meta;
     meta_Public := {| pm_Description := description; pm_DisplayName := displayName |} |}.

Definition UpdateProject (ctx : Request) (displayName description : string)
    : prog (AuthState X) pbProject :=
  in_request
    (found ← project_with_metadata (rq_Project ctx);
     let '(project, meta) := found in
     store_metadata project
       (set_public description
          (if negb (String.eqb displayName "") then displayName else prj_Name (dp_Row project)) meta)).

(** One path of the mask. *)
Definition patch_path (displayName description : string) (meta : Metadata) (path : string) : Metadata :=
  if String.eqb path "display_name"
  then set_public (pm_Description (meta_Public meta)) displayName meta
  else if String.eqb path "description"
  then set_public description (pm_DisplayName (meta_Public meta)) meta
  else meta.

Definition PatchProject (ctx : Request) (updateMask : option (list string))
    (displayName description : string) : prog (AuthState X) pbProject :=
  in_request
    (found ← project_with_metadata (rq_Project ctx);
     let '(project, meta) := found in
     paths ← lift (match updateMask with
                   | Some paths => Ok (Normalize paths)
                   | None => Panic nil_dereference
                   end);
     store_metadata project (foldl (patch_path displayName description) meta paths)).

(** ** What a change leaves to be read *)

Inductive Change :=
| Update (displayName description : string)
| Patch (updateMask : option (list string)) (displayName description : string).

Definition change_project (ctx : Request) (q : Change) : prog (AuthState X) pbProject :=
  match q with
  | Update displayName description => UpdateProject ctx displayName description
  | Patch updateMask displayName description => PatchProject ctx updateMask displayName description
  end.

(** The metadata asked for. *)
Definition asked_for (q : Change) (row : ProjectRow) (meta : Metadata) : Metadata :=
  match q with
  | Update displayName description =>
      set_public description (if bool_decide (displayName = "") then prj_Name row else displayName) meta
  | Patch updateMask displayName description =>
      let named p := bool_decide (p ∈ default [] updateMask) in
      set_public (if named "description" then description else pm_Description (meta_Public meta))
        (if named "display_name" then displayName else pm_DisplayName (meta_Public meta)) meta
  end.

Lemma bool_decide_elem_of_cons (x y : string) l :
  bool_decide (x ∈ y :: l) = bool_decide (x = y) || bool_decide (x ∈ l).
Proof. rewrite <-bool_decide_or. apply bool_decide_ext, elem_of_cons. Qed.

Lemma foldl_patch displayName description paths : ∀ meta,
  foldl (patch_path displayName description) meta paths =
  set_public
    (if bool_decide ("description" ∈ paths) then description else pm_Description (meta_Public meta))
    (if bool_decide ("display_name" ∈ paths) then displayName else pm_DisplayName (meta_Public meta))
    meta.
Proof.
  induction paths as [|path paths IH]; intros [? ? ? []].
  - by rewrite !bool_decide_false by apply not_elem_of_nil.
  - cbn [foldl]. rewrite IH, !bool_decide_elem_of_cons. unfold patch_path.
    destruct (String.eqb_spec path "display_name") as [->|Hd];
      [|destruct (String.eqb_spec path "description") as [->|Hs]]; cbn.
    + by destruct (bool_decide ("display_name" ∈ paths)).
    + by destruct (bool_decide ("description" ∈ paths)).
    + by rewrite !(bool_decide_false (_ = path)) by congruence.
Qed.

(** The canonical form keeps the paths without a dot. *)
Lemma Normalize_plain p paths :
  ("."%char ∉ String.list_ascii_of_string p) →
  bool_decide (p ∈ Normalize paths) = bool_decide (p ∈ paths).
Proof.
  intros Hp. apply bool_decide_ext, Normalize_elem. intros q (rest & ->). apply Hp. clear.
  induction q as [|c q IH]; cbn; [by left|by right].
Qed.

Lemma foldl_Normalize displayName description paths row meta :
  foldl (patch_path displayName description) meta (Normalize paths) =
  asked_for (Patch (Some paths) displayName description) row meta.
Proof.
  rewrite foldl_patch. cbn.
  by rewrite !Normalize_plain by (intros Hin%(bool_decide_pack _); by vm_compute in Hin).
Qed.

(** The row with other metadata; the time of the change is not kept. *)
Definition with_metadata (metadata : string) (row : ProjectRow) : ProjectRow :=
  {| prj_Name := prj_Name row; prj_Metadata := metadata; prj_CreatedAt := prj_CreatedAt row;
     prj_UpdatedAt := prj_UpdatedAt row |}.

(** What a change that is answered has done: the metadata of the project are
    those asked for, and are read back. *)
Record project_changed (id : UUID) (q : Change) (answer : pbProject) (s s' : AuthState X) : Prop := {
  pc_row : ∃ row meta metadata,
    ac_projects (as_accounts s) !! id = Some row ∧ ParseMetadata row = Ok meta ∧
    let meta' := asked_for q row meta in
    as_accounts s' = set_project_rows
      (<[id := with_metadata metadata row]> (ac_projects (as_accounts s))) (as_accounts s) ∧
    answer = project_answer {| dp_ID := id; dp_ParentID := parent_projects (tables s) !! id; dp_Row := row |}
               (pm_Description (meta_Public meta')) (pm_DisplayName (meta_Public meta')) ∧
    (plain_metadata meta' → ∃ read, ParseMetadata (with_metadata metadata row) = Ok read ∧
       pm_Description (meta_Public read) = pm_Description (meta_Public meta') ∧
       (pm_DisplayName (meta_Public meta') ≠ "" → read = meta'));
  pc_tables : tables s' = tables s;
  pc_fga : as_fga s' = as_fga s;
}.

Lemma project_with_metadata_Ok id s s' project meta :
  project_with_metadata id s = (s', Ok (project, meta)) →
  same s s' ∧ project_at s' id = Some project ∧ ParseMetadata (dp_Row project) = Ok meta.
Proof.
  unfold project_with_metadata. intros (s1 & p & Hp%or_throw_Ok & Hr)%prog_bind_Ok.
  apply GetProject_run in Hp as [Hs Hp]. destruct (Hp p eq_refl) as [Hat _].
  apply prog_bind_Ok in Hr as (s2 & m & Hm%or_throw_Ok & [= -> -> ->]). unfold lift in Hm.
  injection Hm as -> Hm. done.
Qed.

Lemma ParseMetadata_with meta metadata row :
  meta_Unmarshal metadata = inl meta →
  ∃ read, ParseMetadata (with_metadata metadata row) = Ok read ∧
    pm_Description (meta_Public read) = pm_Description (meta_Public meta) ∧
    (pm_DisplayName (meta_Public meta) ≠ "" → read = meta).
Proof.
  intros Hm. unfold ParseMetadata. cbn. rewrite Hm. eexists. split; [reflexivity|]. split; [done|].
  intros Hd. destruct meta as [? ? ? [? display]]. cbn in *.
  by destruct (String.eqb_spec display "").
Qed.

Lemma store_metadata_Ok id q project meta s s' answer :
  project_at s id = Some project → ParseMetadata (dp_Row project) = Ok meta →
  store_metadata project (asked_for q (dp_Row project) meta) s = (s', Ok answer) →
  project_changed id q answer s s'.
Proof.
  intros (Hid & Hpar & Hrow)%project_at_Some Hmeta. unfold store_metadata.
  set (meta' := asked_for q (dp_Row project) meta).
  intros (s1 & text & Ht%or_throw_Ok & Hr)%prog_bind_Ok.
  apply prog_bind_Ok in Hr as (s2 & out & Hu%or_throw_Ok & [= -> <-]).
  destruct (SerializeMetadata meta') as [text'|e] eqn:Hser; [|done]. injection Ht as -> ->.
  apply statement_cases in Hu as [[_ [=]]|(s2 & Hs & Hu)]. cbn in Hu.
  assert (Hat : project_at s2 (dp_ID project) = Some project).
  { unfold project_at. rewrite Hid, (proj1 Hs), Hrow. cbn. unfold tables. rewrite (same_db _ _ Hs).
    destruct project; cbn in *. by subst. }
  rewrite Hat in Hu. injection Hu as <- <-.
  split; [|exact (same_db _ _ Hs)|exact (proj1 (proj2 Hs))].
  exists (dp_Row project), meta, text. split; [exact Hrow|]. split; [exact Hmeta|]. cbv zeta. split_and!.
  - cbn. by rewrite (proj1 Hs), Hid.
  - unfold project_answer. cbn. by rewrite Hid.
  - intros Hplain. destruct (SerializeMetadata_read _ Hplain) as (text' & Hser' & Hread).
    pose proof (eq_trans (eq_sym Hser) Hser') as [= ->]. by apply ParseMetadata_with.
Qed.

Lemma project_changed_same id q answer s s1 s2 s3 :
  same s s1 → project_changed id q answer s1 s2 → same s2 s3 → project_changed id q answer s s3.
Proof.
  intros K1 [Hrow Ht Hf] K2.
  pose proof (same_db _ _ K1) as Hd1. pose proof (same_db _ _ K2) as Hd2. unfold tables in *.
  destruct K1 as (Ha1 & Hf1 & _), K2 as (Ha2 & Hf2 & _). split; unfold tables.
  - rewrite Ha2, <-Ha1. unfold tables in Hrow. rewrite Hd1 in Hrow. exact Hrow.
  - congruence.
  - congruence.
Qed.

(** A change of a project, an update or a patch through a mask, that succeeds
    has the answer asked for, and changes nothing but the metadata of this project,
    which are read back as they were asked for; one that fails changes no table. *)
Theorem project_change_roundtrip ctx q s s' r :
  change_project ctx q s = (s', r) →
  match r with
  | Ok answer => project_changed (rq_Project ctx) q answer s s'
  | _ => tables s' = tables s ∧ as_accounts s' = as_accounts s
  end.
Proof.
  assert (Hall : ∀ f, in_request (found ← project_with_metadata (rq_Project ctx);
      let '(project, meta) := found in f project meta) s = (s', r) →
    (∀ project meta s1 s2 a, f project meta s1 = (s2, Ok a) → 
      store_metadata project (asked_for q (dp_Row project) meta) s1 = (s2, Ok a)) →
    match r with
    | Ok answer => project_changed (rq_Project ctx) q answer s s'
    | _ => tables s' = tables s ∧ as_accounts s' = as_accounts s
    end).
  { intros f [(a & s1 & s2 & -> & Hs1 & Hrun & Hs2)|(Hr & Ha & Hd & _)]%transaction_cases Hf.
    2: { destruct r; [done|..]; by split. }
    apply prog_bind_Ok in Hrun as (s3 & [project meta] & (Hs3 & Hat & Hmeta)%project_with_metadata_Ok & Hrun).
    apply Hf, (store_metadata_Ok (rq_Project ctx)) in Hrun; [|done..].
    eapply project_changed_same; [exact (same_trans _ _ _ Hs1 Hs3)|exact Hrun|exact Hs2]. }
  destruct q as [displayName description|updateMask displayName description]; cbn [change_project].
  - intros Hr. eapply Hall; [exact Hr|]. intros project meta s1 s2 a. cbn beta.
    unfold asked_for. destruct (String.eqb_spec displayName "") as [->|Hne]; cbn [negb].
    + by rewrite bool_decide_true.
    + by rewrite bool_decide_false.
  - intros Hr. eapply Hall; [exact Hr|]. intros project meta s1 s2 a. cbn beta.
    intros (s3 & paths & Hp & Hr')%prog_bind_Ok. destruct updateMask as [mask|]; [|done].
    injection Hp as -> <-. by rewrite (foldl_Normalize _ _ _ (dp_Row project)) in Hr'.
Qed.
End service.
