(* ===== verification/UserService.v ===== *)
(** * Users: handlers_user.go and identity_events.go

    Creating, reading and deleting the own account, and the events of the
    identity provider that delete accounts. *)

From S2P Require Import Prelude GoErrors GoMonad GoStrings GoBase64 Uuid SafeTemplate.
From S2P Require Import EntityEvent Database HistoryDb EntityModels EntityDb.
From S2P Require Import EntityService ProfileDb Eea Crypto Authz Accounts Email Invites.
From S2P Require Import Identities Access Roles Membership InviteResolution ProjectDb.
From S2P Require Import Projects ProjectLifecycle ProjectDeletion UserDeletion.
From S2P Require Import ProjectService.
From Stdlib Require Import Ascii.
Local Open Scope string_scope.

(** ** generateRandomString *)

Definition hex_char (n : N) : ascii :=
  if bool_decide (n < 10)%N then ascii_of_N (48 + n) else ascii_of_N (87 + n).

Fixpoint hex_EncodeToString (b : bytes) : string :=
  match b with
  | [] => ""
  | c :: b => String (hex_char (N_of_ascii c / 16))
                (String (hex_char (N_of_ascii c mod 16)) (hex_EncodeToString b))
  end.

Definition generateRandomString `{RandomRead} (length : nat) : prog World string :=
  b ← random_bytes length; mret (String.substring 0 length (hex_EncodeToString b)).

Definition maxRetries : nat := 10.

(** The realm's own record of a user, which is deleted with the account. *)
Class IdentityManager (X : Type) := { idManager_DeleteUser : string → prog (AuthState X) unit }.

(** An event of the identity provider, and one of its administrators. *)
Record AccountEvent := { ev_Type : string; ev_UserId : string }.
Record AdminEvent := { ae_OperationType : string; ae_ResourceType : string; ae_ResourcePath : string }.

Definition DeleteAccountEvent : string := "DELETE_ACCOUNT".

Section users.
Context `{UuidLib} `{RandomUuid} `{RandomRead} `{PgText} `{InviteLib} `{!MetadataJSON}.
Context {X V : Type} `{!OpenFGA X} `{!Marketplace X} `{!GitHubProviders X} `{!ProviderDeletion X}.
Context `{!JwtLib V} `{!IdentityManager X}.
(** The configuration of the creator, the validators of tokens, and a bound of the
    depth of the projects. *)
Context (config : CreatorConfig) (validators : list V) (depth : nat).

(** ** Creation *)

Fixpoint unique_base_name (retries : nat) (baseName uniqueBaseName : string)
    : prog (AuthState X) string :=
  match retries with
  | O => throw (status_error "ResourceExhausted"
                  "failed to generate a unique project base name after 10 attempts")
  | S retries =>
      found ← try (GetProjectByName uniqueBaseName);
      match found with
      | inr err => if is_in err ErrNoRows then mret uniqueBaseName
                   else throw (failing "Internal" "failed to get project by name: " err)
      | inl _ =>
          r ← or_throw (failing "Internal" "failed to generate random string: ")
                (on_world (generateRandomString 4));
          unique_base_name retries baseName (baseName +:+ "-" +:+ r)
      end
  end.

Definition getUniqueProjectBaseName (baseName : string) : prog (AuthState X) string :=
  unique_base_name maxRetries baseName baseName.

(** The name is looked for outside of the transaction. *)
Definition default_project (ctx : Request) (token : Token) : prog (Session X) dbProject :=
  let subject := tok_Subject token in
  let username := default "" (tok_preferred_username token) in
  baseName ← (if negb (String.eqb username "")
              then or_throw (failing "Internal" "failed to get unique project name: ")
                     (outside (getUniqueProjectBaseName username))
              else mret subject);
  or_throw (λ err, if is_in err ErrProjectAlreadyExists
                   then status_error "AlreadyExists" ("project named " +:+ baseName +:+ " already exists")
                   else failing "Internal" "failed to create default organization records: " err)
    (in_tx (ProvisionSelfEnrolledProject config ctx baseName subject)).

Definition create_account (ctx : Request) (token : Token) : prog (Session X) (Z * dbProject) :=
  user ← or_throw (failing "Internal" "failed to create user: ")
           (in_tx (Accounts.CreateUser (tok_Subject token)));
  userProjects ← in_tx (claimGitHubInstalls (rq_Caller ctx));
  match userProjects with
  | project :: _ => mret (user, project)
  | [] => project ← default_project ctx token; mret (user, project)
  end.

Record CreateUserResponse := {
  cu_Id : Z; cu_ProjectId : string; cu_ProjectName : string; cu_IdentitySubject : string;
}.

(** The bearer token of a call, validated. *)
Definition bearer (tokenString : res string) : res Token :=
  match tokenString with
  | Err err => Err (failing "InvalidArgument" "no auth token: " err)
  | Panic m => Panic m
  | Ok t => match merged_ParseAndValidate validators t with
            | Err err => Err (failing "Unauthenticated" "failed to parse bearer token: " err)
            | r => r
            end
  end.

Definition CreateUser (tokenString : res string) (ctx : Request) : prog (AuthState X) CreateUserResponse :=
  token ← lift (bearer tokenString);
  created ← session (λ _, status_error "Internal" "failed to begin transaction")
              (failing "Internal" "failed to commit transaction: ") (create_account ctx token);
  let '(user, project) := created in
  mret {| cu_Id := user; cu_ProjectId := uuid_String (dp_ID project);
          cu_ProjectName := prj_Name (dp_Row project); cu_IdentitySubject := tok_Subject token |}.

(** ** Reading *)

(** The role of the last assignment of the user. *)
Definition role_string (subject : string) (assigned : list RoleAssignment) : string :=
  foldl (λ roleString a, if String.eqb (ra_Subject a) subject then ra_Role a else roleString) "" assigned.

Fixpoint user_dependencies (subject : string) (projs : list UUID)
    : prog (AuthState X) (list (option Role * pbProject)) :=
  match projs with
  | [] => mret []
  | proj :: projs =>
      pinfo ← try (GetProject proj);
      match pinfo with
      | inr err => if is_in err ErrNoRows then user_dependencies subject projs else throw err
      | inl pinfo =>
          assigned ← or_throw (failing "Internal" "error getting role assignments: ")
                       (on_fga (AssignmentsToProject proj));
          projectRole ← (match assigned with
                         | [] => mret None
                         | _ => role ← or_throw (failing "Internal" "failed to parse role: ")
                                         (lift (ParseRole (role_string subject assigned)));
                                mret (Some role)
                         end);
          rest ← user_dependencies subject projs;
          mret ((projectRole, listed_project pinfo) :: rest)
      end
  end.

Definition getUserDependencies (subject : string)
    : prog (AuthState X) (list (option Role * pbProject)) :=
  projs ← on_fga (ProjectsForUser depth subject);
  user_dependencies subject projs.

Definition GetUser (tokenString : res string)
    : prog (AuthState X) (Z * string * list (option Role * pbProject)) :=
  openIdToken ← lift (bearer tokenString);
  user ← or_throw (λ err, if is_in err ErrNoRows then status_error "NotFound" "user not found"
                          else failing "Internal" "failed to get user: " err)
           (GetUserBySubject (tok_Subject openIdToken));
  projectRoles ← or_throw (failing "Unknown" "failed to get user dependencies: ")
                   (getUserDependencies (tok_Subject openIdToken));
  mret (user, tok_Subject openIdToken, projectRoles).

(** ** Deletion *)

Definition DeleteUser_handler (tokenString : res string) : prog (AuthState X) unit :=
  token ← lift (bearer tokenString);
  or_throw (failing "Internal" "failed to delete user from database: ")
    (DeleteUser depth (tok_Subject token));;
  or_throw (failing "Internal" "failed to delete account on IdP: ")
    (idManager_DeleteUser (tok_Subject token)).

(** Errors are only logged. *)
Definition HandleEvents (events : res (list AccountEvent)) : prog (AuthState X) unit :=
  match events with
  | Ok events =>
      foreach (λ event, if String.eqb (ev_Type event) DeleteAccountEvent
                        then try (DeleteUser depth (ev_UserId event));; mret tt else mret tt) events
  | Err _ => mret tt
  | Panic m => lift (Panic m)
  end.

Definition HandleAdminEvents (events : res (list AdminEvent)) : prog (AuthState X) unit :=
  match events with
  | Ok events =>
      foreach (λ event,
        if String.eqb (ae_OperationType event) "DELETE" && String.eqb (ae_ResourceType event) "USER"
        then try (DeleteUser depth (Strings.TrimPrefix (ae_ResourcePath event) "users/"));; mret tt
        else mret tt) events
  | Err _ => mret tt
  | Panic m => lift (Panic m)
  end.

(** ** What creating a user does *)

Section laws.
Context (L : fga_laws) (M : market_laws) (G : github_laws).

(** Programs that only look, or draw random bytes. *)
Definition idle (s s' : AuthState X) : Prop :=
  tables s' = tables s ∧ as_accounts s' = as_accounts s ∧ as_fga s' = as_fga s.

Lemma same_idle s s' : same s s' → idle s s'.
Proof. intros Hs. split_and!; [exact (same_db _ _ Hs)|apply Hs..]. Qed.

Lemma unique_base_name_idle s0 retries baseName : ∀ name,
  preserves (idle s0) (unique_base_name retries baseName name).
Proof.
  induction retries as [|retries IH]; intros name; cbn [unique_base_name]; [apply preserves_throw|].
  apply preserves_bind.
  { apply preserves_try. intros s (Ht & Ha & Hf). unfold GetProjectByName.
    destruct (account_select _ s) as [s1 r1] eqn:E. apply account_select_cases in E as [Hs _].
    destruct (same_idle _ _ Hs) as (? & ? & ?). split_and!; cbn; congruence. }
  intros [id|e].
  - apply preserves_bind; [|intros r; apply IH]. apply preserves_or_throw. intros s Hs.
    unfold on_world, generateRandomString, random_bytes, mbind, prog_bind.
    destruct (rand_Read _ _); cbn; exact Hs.
  - case_match; [apply preserves_ret|apply preserves_throw].
Qed.

Lemma outside_idle {A} (m : prog (AuthState X) A) (σ σ' : Session X) r :
  (∀ s0, preserves (idle s0) m) → outside m σ = (σ', r) →
  view σ' = view σ ∧ se_committed σ' = se_committed σ ∧ as_fga (se_state σ') = as_fga (se_state σ).
Proof.
  intros Hm. unfold outside. set (st := with_tables (se_committed σ).1 (se_committed σ).2 (se_state σ)).
  assert (Hi : idle st st) by done. specialize (Hm st st Hi). destruct (m st) as [st' r'].
  destruct Hm as (Ht & Ha & Hf). intros [= <- <-]. cbn in *. unfold view. cbn.
  split_and!; [done| |by rewrite Hf]. rewrite Ht, Ha. by destruct (se_committed σ).
Qed.

(** The caller has no account on GitHub that could own installations. *)
Definition no_github (ctx : Caller) : Prop := cl_ghId ctx = None ∨ cl_ghId ctx = Some "".

Lemma no_claims ctx s : no_github ctx → claimGitHubInstalls ctx s = (s, Ok []).
Proof. unfold claimGitHubInstalls. by intros [-> | ->]. Qed.

(** A new project leaves the users alone. *)
Lemma default_records_users U ctx id name meta :
  preserves (kept (X := X) (λ a, ac_users a = U) (λ _, True)) (default_records config ctx id name meta).
Proof using M.
  assert (Hmarket : ∀ m, leaves_projects (X := X) m → preserves (kept (λ a, ac_users a = U) (λ _, True)) m).
  { intros m [_ Hm] s [Hs _]. destruct (Hm s) as (_ & Ha & _). split; [|done]. by rewrite Ha. }
  unfold default_records. apply preserves_bind.
  { apply preserves_or_throw, preserves_statement. intros s [Hs _]. split; [|done].
    unfold create_project. by repeat case_match. }
  intros project. apply preserves_bind.
  { apply preserves_wrapf, preserves_statement. intros s [Hs _]. cbn zeta. by case_match. }
  intros []. apply preserves_bind; [apply preserves_wrapf, Hmarket, (ml_subscribe M)|]. intros [].
  apply preserves_bind; [|intros []; apply preserves_ret].
  apply preserves_foreach. intros profileName. apply preserves_wrapf, Hmarket, (ml_profile M).
Qed.

Lemma ProvisionSelf_users ctx name sub s s' r :
  ProvisionSelfEnrolledProject config ctx name sub s = (s', r) →
  ac_users (as_accounts s') = ac_users (as_accounts s).
Proof using M.
  intros [[-> _]|(meta & _ & Hrun)]%ProvisionSelf_run; [done|].
  assert (Hm : preserves (kept (λ a, ac_users a = ac_users (as_accounts s)) (λ _, True))
                 (create_self_enrolled config ctx name sub (next_id s) meta)).
  { apply preserves_bind; [by apply preserves_wrapf, preserves_on_fga|]. intros [].
    apply preserves_on_error; [by apply preserves_on_fga|apply default_records_users]. }
  specialize (Hm (after_id s)). rewrite Hrun in Hm. by apply Hm.
Qed.

(** The default project of a user. *)
Lemma default_project_run ctx token σ σ' r :
  default_project ctx token σ = (σ', r) →
  se_committed σ' = se_committed σ ∧
  (∃ id, differ_at (getUserForTuple (tok_Subject token), RoleAdmin, getProjectForTuple id)
           (fga_tuples (as_fga (se_state σ))) (as_fga (se_state σ'))) ∧
  (view σ').2.(ac_users) = (view σ).2.(ac_users) ∧
  (∀ p, r = Ok p → ∃ name id row, p = {| dp_ID := id; dp_ParentID := None; dp_Row := row |} ∧
     ValidateName name = None ∧ created id None name row (se_state σ) (se_state σ') ∧
     fga_tuples (as_fga (se_state σ')) =
       {[(getUserForTuple (tok_Subject token), RoleAdmin, getProjectForTuple id)]}
       ∪ fga_tuples (as_fga (se_state σ))).
Proof using L M.
  assert (Hout : ∀ σ1 (q : res string), 
    (if negb (String.eqb (default "" (tok_preferred_username token)) "")
     then or_throw (failing "Internal" "failed to get unique project name: ")
            (outside (getUniqueProjectBaseName (default "" (tok_preferred_username token))))
     else mret (tok_Subject token)) σ = (σ1, q) →
    view σ1 = view σ ∧ se_committed σ1 = se_committed σ ∧ as_fga (se_state σ1) = as_fga (se_state σ)).
  { intros σ1 q. destruct (negb _); [|by intros [= <- <-]]. intros Hq.
    match type of Hq with or_throw ?f ?m ?s = _ => pose proof (or_throw_state f m s) as E end.
    rewrite Hq in E. cbn in E. subst σ1. destruct (outside _ σ) as [σ1 q1] eqn:Ho. cbn.
    eapply outside_idle; [|exact Ho]. intros s0. exact (unique_base_name_idle s0 maxRetries _ _). }
  intros [(σ1 & name & (Hv & Hc & Hf)%Hout & Hr)|(Hr & q & (Hv & Hc & Hf)%Hout & _)]%prog_bind_inv.
  2: { rewrite Hc, Hv, Hf. split_and!; [done|by exists uuid_Nil|done|by intros p ->]. }
  rewrite <-Hc, <-Hv, <-Hf. clear Hout.
  match type of Hr with or_throw ?f ?m ?s = _ => pose proof (or_throw_state f m s) as E end.
  destruct (in_tx _ σ1) as [σ2 r2] eqn:Hp in E. rewrite Hr in E. cbn in E. subst σ2.
  apply in_tx_run in Hp as [Hp Hc2]. split; [done|]. split; [exists (next_id (se_state σ1));
    by eapply (ProvisionSelf_differ config L M)|]. split; [by eapply ProvisionSelf_users|].
  intros p ->. apply or_throw_Ok, in_tx_run in Hr as [Hr _].
  apply (ProvisionSelf_Ok config L M) in Hr as (row & -> & Hn & Hcr & Ht).
  exists name, (next_id (se_state σ1)), row. split_and!; try done.
  injection Hv as Htab Hacc. eapply created_quiet; [|exact Hcr|by split].
  by split; rewrite ?Htab, ?Hacc.
Qed.

(** The row of a new user. *)
Lemma CreateUser_row sub s s' r :
  Accounts.CreateUser (X := X) sub s = (s', r) →
  tables s' = tables s ∧ as_fga s' = as_fga s ∧
  ac_projects (as_accounts s') = ac_projects (as_accounts s) ∧
  (∀ user, r = Ok user → (∀ id, ac_users (as_accounts s) !! id ≠ Some sub) ∧
     ac_users (as_accounts s') = <[user := sub]> (ac_users (as_accounts s))).
Proof.
  intros [[Hs Hr]|(s1 & Hs & Hr)]%statement_cases.
  { pose proof (same_idle _ _ Hs) as (-> & -> & ->). split_and!; [done..|]. by intros user ->. }
  pose proof (same_idle _ _ Hs) as (Ht & Ha & Hf). cbn zeta in Hr.
  destruct (filter _ (map_to_list (ac_users (as_accounts s1)))) as [|p l] eqn:Hfil;
    injection Hr as <- <-; cbn; rewrite ?Ha, ?Hf; (split_and!; [exact Ht|done..|]); [|done].
  intros user [= <-]. split; [|done]. intros id Hid.
  assert (Hin : (id, sub) ∈ filter (λ p : Z * string, p.2 = sub) (map_to_list (ac_users (as_accounts s1)))).
  { apply list_elem_of_filter. split; [done|]. apply elem_of_map_to_list. by rewrite Ha. }
  rewrite Hfil in Hin. by list_cases Hin.
Qed.

Lemma create_account_committed P ctx token :
  preserves (λ σ, P (se_committed σ)) (create_account ctx token).
Proof using L M.
  unfold create_account. assert (Hin : ∀ A (m : prog (AuthState X) A), preserves (λ σ, P (se_committed σ)) (in_tx m)).
  { intros A m σ Hσ. unfold in_tx. by destruct (m (se_state σ)). }
  apply preserves_bind; [apply preserves_or_throw, Hin|]. intros user.
  apply preserves_bind; [apply Hin|]. intros [|p l]; [|apply preserves_ret].
  apply preserves_bind; [|intros; apply preserves_ret]. intros σ Hσ.
  destruct (default_project ctx token σ) as [σ' r] eqn:E. apply default_project_run in E as [Hc _].
  cbn. by rewrite Hc.
Qed.

Lemma create_account_differ ctx token σ σ' r :
  no_github (rq_Caller ctx) → create_account ctx token σ = (σ', r) →
  ∃ id, differ_at (getUserForTuple (tok_Subject token), RoleAdmin, getProjectForTuple id)
          (fga_tuples (as_fga (se_state σ))) (as_fga (se_state σ')).
Proof using L M.
  intros Hno. unfold create_account.
  assert (Hcreate : ∀ σ1 q f, or_throw f (in_tx (Accounts.CreateUser (tok_Subject token))) σ = (σ1, q) →
                              as_fga (se_state σ1) = as_fga (se_state σ)).
  { intros σ1 q f Hq. match type of Hq with or_throw ?f ?m ?s = _ => pose proof (or_throw_state f m s) as E end.
    rewrite Hq in E. cbn in E. subst σ1. destruct (in_tx _ σ) as [σ1 q1] eqn:E.
    apply in_tx_run in E as [E _]. by apply CreateUser_row in E as (_ & Hf & _). }
  intros [(σ1 & user & Hf%Hcreate & Hr)|(_ & q & Hf%Hcreate & _)]%prog_bind_inv;
    [|exists uuid_Nil; unfold differ_at; by rewrite Hf].
  rewrite <-Hf. unfold mbind at 1, prog_bind at 1, in_tx in Hr. rewrite no_claims in Hr by done.
  apply prog_bind_inv in Hr as [(σ3 & p & Hd & [= <- <-])|(_ & q & Hd & _)];
    apply default_project_run in Hd as (_ & Hdiff & _); exact Hdiff.
Qed.

Lemma create_account_Ok ctx token σ σ' user p :
  create_account ctx token σ = (σ', Ok (user, p)) →
  let sub := tok_Subject token in
  (∀ id, ac_users (view σ).2 !! id ≠ Some sub) ∧
  ac_users (view σ').2 = <[user := sub]> (ac_users (view σ).2) ∧
  (no_github (rq_Caller ctx) → ∃ name id row,
     p = {| dp_ID := id; dp_ParentID := None; dp_Row := row |} ∧ ValidateName name = None ∧
     created id None name row (se_state σ) (se_state σ') ∧
     fga_tuples (as_fga (se_state σ')) =
       {[(getUserForTuple sub, RoleAdmin, getProjectForTuple id)]} ∪ fga_tuples (as_fga (se_state σ))).
Proof using L M G.
  unfold create_account. intros (σ1 & u & Hu%or_throw_Ok & Hr)%prog_bind_Ok.
  apply prog_bind_Ok in Hr as (σ2 & ps & Hclaim & Hr).
  apply in_tx_run in Hu as [(Ht & Hf & Hrows & Hok)%CreateUser_row _].
  destruct (Hok u eq_refl) as [Hnew Husers].
  apply in_tx_run in Hclaim as [Hclaim _].
  assert (Hu2 : ac_users (view σ2).2 = <[u := tok_Subject token]> (ac_users (view σ).2)).
  { etrans; [|exact Husers]. by apply (claimGitHubInstalls_effect G) in Hclaim as [_ Hclaim]. }
  destruct ps as [|q ps].
  - apply prog_bind_Ok in Hr as (σ3 & q & Hd & [= <- <- ->]).
    apply default_project_run in Hd as (_ & _ & Hu3 & Hp).
    split_and!; [done|by rewrite Hu3|]. intros Hno. rewrite no_claims in Hclaim by done.
    injection Hclaim as Hst. destruct (Hp p eq_refl) as (name & id & row & -> & Hn & Hc & Htup).
    rewrite <-Hst in Hc, Htup. exists name, id, row. split_and!; try done; [|by rewrite Htup, Hf].
    assert (Hq : created id None name row (se_state σ1) (se_state σ3)) by exact Hc. clear Hc.
    destruct Hq. split; unfold name_taken in *; rewrite ?Ht, ?Hrows in *; done.
  - injection Hr as <- <- _. split_and!; [done..|]. intros Hno. by rewrite no_claims in Hclaim.
Qed.

(** C17: creating a user is all or nothing: on success the subject had no row and
    has the one that is answered, and a user without a GitHub account has a new
    top-level project with a valid name of its own and is its administrator;
    otherwise the tables are as before, and for such a user the tuples differ at
    most in one that would have made the subject an administrator. *)
Theorem CreateUser_all_or_nothing tokenString ctx s s' r :
  CreateUser tokenString ctx s = (s', r) →
  match r with
  | Ok answer =>
      let sub := cu_IdentitySubject answer in
      (∀ id, ac_users (as_accounts s) !! id ≠ Some sub) ∧
      ac_users (as_accounts s') = <[cu_Id answer := sub]> (ac_users (as_accounts s)) ∧
      (no_github (rq_Caller ctx) → ∃ id row,
         cu_ProjectId answer = uuid_String id ∧ ValidateName (cu_ProjectName answer) = None ∧
         created id None (cu_ProjectName answer) row s s' ∧
         fga_tuples (as_fga s') =
           {[(getUserForTuple sub, RoleAdmin, getProjectForTuple id)]} ∪ fga_tuples (as_fga s))
  | _ => tables s' = tables s ∧ as_accounts s' = as_accounts s ∧
         (no_github (rq_Caller ctx) → ∃ sub id,
            differ_at (getUserForTuple sub, RoleAdmin, getProjectForTuple id)
              (fga_tuples (as_fga s)) (as_fga s'))
  end.
Proof using L M G.
  unfold CreateUser. destruct (bearer tokenString) as [token|e|m] eqn:Hb.
  2-3: intros [= <- <-]; split_and!; [done..|]; intros _; by exists "", uuid_Nil.
  intros [(s0 & tok & [= <- <-] & Hr)|(_ & q & [= <- <-] & Hq)]%prog_bind_inv; [|done].
  apply prog_bind_inv in Hr as [(s1 & [user p] & Hs & [= <- <-])|(Hok & q & Hs & Hq)].
  - apply session_Ok in Hs as (s2 & σ & Hs2 & Hr & Hσ).
    apply create_account_Ok in Hr as (Hnew & Husers & Hp).
    pose proof (same_idle _ _ Hs2) as (Ht2 & Ha2 & Hf2). pose proof (same_idle _ _ Hσ) as (Htσ & Haσ & Hfσ).
    unfold view in Hnew, Husers. cbn [started se_state snd] in *. rewrite Ha2 in Hnew, Husers.
    split_and!; [exact Hnew|by rewrite Haσ|]. intros Hno.
    destruct (Hp Hno) as (name & id & row & -> & Hn & Hc & Htup). exists id, row. cbn.
    destruct Hc. unfold name_taken in *. rewrite Ht2, Ha2 in *.
    split_and!; [done|by subst|split; unfold name_taken; rewrite ?Htσ, ?Haσ; subst; done|by rewrite Hfσ, Htup, Hf2].
  - assert (Hback : (tables s', as_accounts s') = (tables s, as_accounts s)).
    { eapply (session_rolled_back (λ t, t = (tables s, as_accounts s)));
        [exact (create_account_committed (λ t, t = (tables s, as_accounts s)) ctx token)|exact Hs|by intros a ->|done]. }
    injection Hback as Ht Ha.
    assert (Hf : no_github (rq_Caller ctx) → ∃ sub id,
      differ_at (getUserForTuple sub, RoleAdmin, getProjectForTuple id) (fga_tuples (as_fga s)) (as_fga s')).
    { intros Hno. exists (tok_Subject token).
      apply session_fga in Hs as [Hf|(s2 & σ & q' & Hs2 & Hr & Hf)]; rewrite Hf; [by exists uuid_Nil|].
      apply create_account_differ in Hr; [|done]. cbn in Hr. by rewrite (proj1 (proj2 Hs2)) in Hr. }
    by destruct r.
Qed.
End laws.
End users.
