(* ===== verification/ProjectRequests.v ===== *)
(** * Requests about projects and users, one after the other

    Whatever is asked of the handlers of projects and users, in whatever order and
    with whatever failures, the hierarchy of the projects and the references
    between the tables stay well formed. *)

From S2P Require Import Prelude GoErrors GoMonad GoStrings Uuid SafeTemplate.
From S2P Require Import EntityEvent Database HistoryDb EntityModels EntityDb.
From S2P Require Import EntityService ProfileDb Eea Crypto Authz Accounts Email Invites.
From S2P Require Import Identities Access Roles Membership InviteResolution ProjectDb.
From S2P Require Import Projects ProjectLifecycle ProjectDeletion UserDeletion.
From S2P Require Import ProjectService UserService.
Local Open Scope string_scope.

Inductive ProjectRequest :=
| CreateProjectRequest (call : Call) (ctx : Request) (name : string)
| ChangeProjectRequest (ctx : Request) (q : Change)
| DeleteProjectRequest (ctx : Request)
| CreateUserRequest (tokenString : res string) (ctx : Request)
| DeleteUserRequest (userId : string).

Section requests.
Context `{UuidLib} `{RandomUuid} `{RandomRead} `{PgText} `{InviteLib} `{!MetadataJSON} `{FieldMasks}.
Context {X V : Type} `{!OpenFGA X} `{!Marketplace X} `{!GitHubProviders X} `{!ProviderDeletion X}.
Context `{!JwtLib V}.
Context (config : CreatorConfig) (validators : list V) (depth : nat).

Definition after {A} (m : prog (AuthState X) A) (s : AuthState X) : AuthState X := (m s).1.

Definition handle_request (q : ProjectRequest) : AuthState X → AuthState X :=
  match q with
  | CreateProjectRequest call ctx name => after (CreateProject config call ctx name)
  | ChangeProjectRequest ctx q => after (change_project ctx q)
  | DeleteProjectRequest ctx => after (DeleteProject (cc_Flags config) ctx)
  | CreateUserRequest tokenString ctx => after (CreateUser config validators tokenString ctx)
  | DeleteUserRequest userId => after (DeleteUser depth userId)
  end.

(** A request has been answered, well or not; or the clock has moved on, or other
    failures of the connection are to come. *)
Inductive project_step (s : AuthState X) : AuthState X → Prop :=
| step_answered q : project_step s (handle_request q s)
| step_world w : w_db w = w_db (as_world s) → project_step s (with_world w s).

Context (M : market_laws) (D : deletion_laws).
(** A project for an installation is created as others are. *)
Context (G : ∀ user install, preserves (@wf _ X) (CreateGitHubAppWithoutInvitation user install)).

Lemma change_project_wf ctx q : preserves (@wf _ X) (change_project ctx q).
Proof.
  assert (Hfound : ∀ id, preserves (@wf _ X) (project_with_metadata id)).
  { intros id. apply preserves_bind; [apply preserves_or_throw, (framed_account_select wf)|]. intros p.
    apply preserves_bind; [apply preserves_or_throw, preserves_lift|]. intros ?; apply preserves_ret. }
  assert (Hstore : ∀ p meta, preserves (@wf _ X) (store_metadata p meta)).
  { intros p meta. apply preserves_bind.
    { apply preserves_or_throw. destruct (SerializeMetadata meta); [apply preserves_ret|apply preserves_throw]. }
    intros text. apply preserves_bind; [apply preserves_or_throw, UpdateProjectMeta_wf|].
    intros ?; apply preserves_ret. }
  destruct q; apply (preserves_on_tables_transaction wf), preserves_bind; try apply Hfound;
    intros [p meta]; [apply Hstore|].
  apply preserves_bind; [apply preserves_lift|]. intros paths. apply Hstore.
Qed.

Lemma CreateProject_wf call ctx name : preserves (@wf _ X) (CreateProject config call ctx name).
Proof using M.
  apply preserves_bind.
  { apply preserves_try. unfold getProjectIDFromRequest. destruct (call_Context call) as [[p v]|]; [|apply preserves_throw].
    case_match; [apply preserves_throw|]. case_match; [apply preserves_ret|..];
      apply preserves_or_throw, (framed_account_select wf). }
  intros parent. apply preserves_bind; [|intros id; by apply ProvisionProject_wf].
  destruct parent; [apply preserves_ret|case_match; [apply preserves_ret|apply preserves_throw]].
Qed.

Lemma CreateUser_row_wf sub : preserves (@wf _ X) (Accounts.CreateUser sub).
Proof.
  apply (framed_statement wf). intros s Hwf. cbn zeta.
  destruct (filter _ _); [|by apply (on_tables s)].
  apply accounts_wf; [by apply (on_tables s)|done| |done].
  intros c i Hi. split; [done|]. cbn.
  destruct (rf_invites _ _ (pw_references _ _ Hwf) _ _ Hi) as [_ Hsp].
  destruct (decide (as_seq s = ui_Sponsor i)) as [<-|Hne]; [rewrite lookup_insert_eq; eauto|].
  by rewrite lookup_insert_ne.
Qed.

Lemma unique_base_name_wf retries baseName : ∀ name,
  preserves (@wf _ X) (unique_base_name retries baseName name).
Proof.
  intros name s Hwf. destruct (unique_base_name_idle s retries baseName name s) as (Ht & Ha & _); [done|].
  by apply (on_tables s).
Qed.

Lemma claims_wf ctx : preserves (@wf _ X) (claimGitHubInstalls ctx).
Proof using G.
  unfold claimGitHubInstalls. destruct (cl_ghId ctx); [|apply preserves_ret].
  case_match; [apply preserves_ret|].
  apply preserves_bind; [apply preserves_try, (framed_account_select wf)|].
  intros [l|e]; [|apply preserves_ret]. case_match; [|apply preserves_ret].
  induction l as [|install l IH]; cbn [claim_installs]; [apply preserves_ret|].
  apply preserves_bind; [apply preserves_try, G|]. intros proj.
  apply preserves_bind; [exact IH|]. intros ?; apply preserves_ret.
Qed.

Lemma UserService_CreateUser_wf tokenString ctx : preserves (@wf _ X) (CreateUser config validators tokenString ctx).
Proof using M G.
  apply preserves_bind; [apply preserves_lift|]. intros token.
  apply preserves_bind; [|intros [user project]; apply preserves_ret].
  apply preserves_session. apply preserves_bind.
  { apply preserves_or_throw, preserves_session_tx, CreateUser_row_wf. }
  intros user. apply preserves_bind; [apply preserves_session_tx, claims_wf|].
  intros [|p ps]; [|apply preserves_ret]. apply preserves_bind; [|intros ?; apply preserves_ret].
  apply preserves_bind; [|intros baseName; by apply preserves_or_throw, preserves_session_tx, ProvisionSelf_wf].
  case_match; [|apply preserves_ret].
  apply preserves_or_throw, preserves_outside, unique_base_name_wf.
Qed.

End requests.
