(* ===== verification/ProjectExamples.v ===== *)
(** * Projects and users of a small server

    Alice signs up, creates a project below hers, renames it, and goes: the
    witnesses of the theorems on projects and users, and what the handlers do not
    prevent. *)

From S2P Require Import Prelude GoErrors GoMonad GoStrings GoBase64 Uuid SafeTemplate.
From S2P Require Import EntityEvent DbTypes Properties ProfileModels Database HistoryDb.
From S2P Require Import EntityModels EntityDb EntityService ProfileDb Eea Crypto Authz.
From S2P Require Import Accounts Email Invites Identities Access Roles Membership.
From S2P Require Import InviteResolution MembershipExamples ProjectDb Projects.
From S2P Require Import ProjectLifecycle ProjectDeletion UserDeletion ProjectService.
From S2P Require Import UserService ProjectRequests.
From Stdlib Require Import Ascii.
Local Open Scope string_scope.

#[local] Existing Instances decimal_uuid counter_uuid ex_random.
#[local] Instance ex_lower_ascii : PgText := {| pg_lower := Strings.ToLower |}.

(** ** Libraries *)

(** A text with every character marked, and its end. *)
Fixpoint marked (s rest : string) : string :=
  match s with
  | "" => String ";" rest
  | String c s => String "." (String c (marked s rest))
  end.

Fixpoint unmarked (s : string) : option (string * string) :=
  match s with
  | String m (String c s' as t) =>
      if Ascii.eqb m "." then
        match unmarked s' with Some (x, rest) => Some (String c x, rest) | None => None end
      else Some ("", t)
  | String m "" => Some ("", "")
  | "" => None
  end.

Lemma unmarked_marked s rest : unmarked (marked s rest) = Some (s, rest).
Proof. induction s as [|c s IH]; cbn; [by destruct rest|]. by rewrite IH. Qed.

Definition write_metadata (m : Metadata) : string :=
  String (if meta_SelfEnrolled m then "t" else "f")
    (marked (meta_Version m) (marked (meta_Description m)
      (marked (pm_Description (meta_Public m)) (marked (pm_DisplayName (meta_Public m)) "")))).

Definition read_metadata (s : string) : Metadata + gerr :=
  match s with
  | "{}" => inl {| meta_Version := ""; meta_SelfEnrolled := false; meta_Description := "";
                   meta_Public := {| pm_Description := ""; pm_DisplayName := "" |} |}
  | String b s =>
      match unmarked s with
      | Some (version, s) =>
          match unmarked s with
          | Some (description, s) =>
              match unmarked s with
              | Some (public, s) =>
                  match unmarked s with
                  | Some (display, _) =>
                      inl {| meta_Version := version; meta_SelfEnrolled := Ascii.eqb b "t";
                             meta_Description := description;
                             meta_Public := {| pm_Description := public; pm_DisplayName := display |} |}
                  | None => inr (EText "unexpected end of JSON input")
                  end
              | None => inr (EText "unexpected end of JSON input")
              end
          | None => inr (EText "unexpected end of JSON input")
          end
      | None => inr (EText "unexpected end of JSON input")
      end
  | "" => inr (EText "unexpected end of JSON input")
  end.

Lemma write_metadata_read m : read_metadata (write_metadata m) = inl m.
Proof.
  destruct m as [version enrolled description [public display]]. unfold write_metadata. cbn [meta_Public
    meta_Version meta_SelfEnrolled meta_Description pm_Description pm_DisplayName].
  destruct enrolled; cbn [read_metadata]; by rewrite !unmarked_marked.
Qed.

#[local] Instance ex_json : InviteLib :=
  {| meta_Unmarshal := read_metadata; url_Parse u := inl u;
     url_JoinPath base path code := inl (base +:+ "/" +:+ path +:+ "/" +:+ code) |}.

#[local] Instance ex_metadata : MetadataJSON.
Proof.
  refine {| SerializeMetadata m := inl (write_metadata m) |}.
  intros m _. exists (write_metadata m). split; [done|apply write_metadata_read].
Defined.

(** No path covers another. *)
#[local] Instance ex_masks : FieldMasks.
Proof. refine {| Normalize l := l |}. done. Defined.

#[local] Instance ex_installations : GitHubProviders ex_store :=
  {| CreateGitHubAppWithoutInvitation _ _ := mret None |}.

#[local] Instance ex_deletion : ProviderDeletion ex_store := {| DeleteByID := DeleteProvider |}.

Lemma ex_deletion_laws : deletion_laws (X := ex_store).
Proof. intros id proj s s' r. apply DeleteProvider_step. Qed.

(** The token is the name. *)
#[local] Instance ex_tokens : JwtLib unit :=
  {| jwt_ParseString _ s := Ok {| tok_Subject := s; tok_Issuer := ""; tok_Email := "";
                                  tok_preferred_username := Some s; tok_gh_id := None |} |}.

(** ** The server *)

Definition ex_hierarchy : CreatorConfig :=
  {| cc_Bundle := ("healthcheck", "default"); cc_Profiles := ["base"];
     cc_Features := {["teams" := projectHierarchyOperationsEnabledFlag]};
     cc_Flags := Some (λ _ _, true) |}.

(** A request of a member of the teams, on a project. *)
Definition ex_on (sub : string) (project : UUID) : Request :=
  {| rq_Caller := ex_caller sub; rq_realm_access := Some (GMap {["roles" := GSlice [GString "teams"]]});
     rq_Project := project; rq_Provider := "" |}.

Definition ex_no_rows : Db :=
  {| entity_instances := ∅; entity_execution_lock := ∅; flush_cache := ∅;
     evaluation_rule_entities := ∅; evaluation_statuses := ∅; latest_evaluation_statuses := ∅;
     evaluation_outputs := ∅; remediation_events := []; alert_events := []; rule_instances := ∅;
     rule_types := ∅; profiles := ∅; projects := ∅; providers := ∅; provider_access_tokens := ∅;
     properties := ∅; entitlements := ∅; parent_projects := ∅; entity_profiles := ∅;
     profile_selectors := []; organizations := ∅;
     sources := {| s_sources := ∅; s_functions := ∅; s_references := ∅ |} |}.

(** A new server; the model of the authorization store lets Alice create projects
    below her first one, whose id will be 101. *)
Definition ex_new_server (faults : list (option gerr)) (down : list bool) : AuthState ex_store :=
  {| as_world := ex_world ex_no_rows faults;
     as_accounts := {| ac_users := ∅; ac_invites := ∅; ac_projects := ∅; ac_installs := ∅ |};
     as_seq := 1;
     as_fga := {| xs_tuples := {[("user:alice", "create", "project:101")]}; xs_down := down |} |}.

Lemma ex_new_wf faults down : wf (ex_new_server faults down).
Proof.
  assert (Hmap : ∀ K V `{Countable K} (k : K) (v : V), ¬ (∅ : gmap K V) !! k = Some v)
    by (intros K V ? ? k v; rewrite lookup_empty; discriminate).
  split.
  - split; cbn; try (intros ? ? []%Hmap); try (intros ? []%not_elem_of_nil);
      try (intros ? []%not_elem_of_empty); done.
  - by intros c p []%Hmap.
  - by intros i j x y []%Hmap.
  - split; cbn; by intros ? ? ? []%Hmap.
Qed.

Definition ex_signup sub : prog (AuthState ex_store) CreateUserResponse :=
  CreateUser ex_hierarchy [tt] (Ok sub) (ex_on sub uuid_Nil).

Definition ex_below (name : string) : prog (AuthState ex_store) pbProject :=
  ProvisionProject ex_hierarchy (ex_on "alice" uuid_Nil) name 101%N.

(** With the project of Alice, and with one below it. *)
Definition ex_one (faults : list (option gerr)) (down : list bool) : AuthState ex_store :=
  (ex_signup "alice" (ex_new_server faults down)).1.

Definition ex_two : AuthState ex_store := (ex_below "web" (ex_one [] [])).1.

Example ex_two_projects :
  (ex_signup "alice" (ex_new_server [] [])).2
    = Ok {| cu_Id := 1; cu_ProjectId := "101"; cu_ProjectName := "alice";
            cu_IdentitySubject := "alice" |} ∧
  elements (projects (tables ex_two)) = [102%N; 101%N] ∧
  parent_projects (tables ex_two) !! 102%N = Some 101%N.
Proof. vm_compute. done. Qed.

Lemma ex_one_wf faults down : wf (ex_one faults down).
Proof.
  refine (UserService_CreateUser_wf ex_hierarchy [tt] noop_market_laws _ (Ok "alice") (ex_on "alice" uuid_Nil)
            (ex_new_server faults down) (ex_new_wf faults down)).
  intros user install. apply preserves_ret.
Qed.

Lemma ex_two_wf : wf ex_two.
Proof.
  exact (ProvisionProject_wf ex_hierarchy noop_market_laws (ex_on "alice" uuid_Nil) "web" 101%N
           (ex_one [] []) (ex_one_wf [] [])).
Qed.

Lemma ex_two_honest : honest_faults (as_world ex_two).
Proof.
  assert (Hf : w_faults (as_world ex_two) = []) by (by vm_compute).
  intros e He. rewrite Hf in He. clear Hf. by apply not_elem_of_nil in He.
Qed.

(** ** Witnesses *)

Lemma CreateUser_all_or_nothing_witness :
  ∃ s' answer, ex_signup "alice" (ex_new_server [] []) = (s', Ok answer) ∧
    ac_users (as_accounts s') = {[1%Z := "alice"]} ∧
    ∃ id row, created id None "alice" row (ex_new_server [] []) s'.
Proof.
  destruct (ex_signup "alice" (ex_new_server [] [])) as [s' r] eqn:Hrun.
  pose proof (f_equal snd Hrun) as Hr. cbn [snd] in Hr. vm_compute in Hr. subst r.
  destruct (@CreateUser_all_or_nothing _ _ _ _ _ _ _ _ _ _ _ _ ex_hierarchy [tt] ex_fga_laws
    noop_market_laws ex_github_laws _ _ _ _ _ Hrun) as (_ & Husers & Hp).
  eexists s', _. split; [reflexivity|]. split; [exact Husers|].
  destruct (Hp (or_introl eq_refl)) as (id & row & _ & _ & Hc & _). exists id, row. exact Hc.
Defined.

Lemma ProvisionProject_all_or_nothing_witness :
  ∃ s' p, ex_below "web" (ex_one [] []) = (s', Ok (project_answer p "" "")) ∧
    project_created "alice" "web" 101%N p (ex_one [] []) s'.
Proof.
  destruct (ex_below "web" (ex_one [] [])) as [s' r] eqn:Hrun.
  pose proof (f_equal snd Hrun) as Hr. cbn [snd] in Hr. vm_compute in Hr. subst r.
  destruct (@ProvisionProject_all_or_nothing _ _ _ _ _ _ _ _ ex_hierarchy ex_fga_laws
    noop_market_laws (ex_on "alice" uuid_Nil) "web" 101%N (ex_one [] []) _ _ Hrun) as (p & Hp & Hc).
  exists s', p. rewrite <-Hp. split; [reflexivity|exact Hc].
Defined.

Definition ex_deletion_of (project : UUID) : prog (AuthState ex_store) string :=
  DeleteProject (cc_Flags ex_hierarchy) (ex_on "alice" project).


(** A part of the tree below it goes too when only that is asked for. *)
Example ex_child_deleted :
  let '(s', r) := ex_deletion_of 102%N ex_two in
  r = Ok "102" ∧ elements (projects (tables s')) = [101%N] ∧
  elements (xs_tuples (as_fga s')) =
    [("user:alice", "create", "project:101"); ("user:alice", "admin", "project:101")].
Proof. vm_compute. done. Qed.

Definition ex_leaves (sub : string) : prog (AuthState ex_store) unit := DeleteUser 5 sub.

(** She is the only one on her project. *)
Lemma ex_alone : unmanaged "alice" 101%N ex_two.
Proof.
  split.
  - split; [|split].
    + refine (@bool_decide_unpack _ _ _). by vm_compute.
    + refine (@bool_decide_unpack _ _ _). by vm_compute.
    + refine (@bool_decide_unpack _ _ _). by vm_compute.
  - by vm_compute.
  - intros (t & Ht & _ & Hrole & Hother).
    assert (Hall : Forall (λ t : Tuple, t.1.2 = RoleAdmin → getUserFromTuple t.1.1 = "alice")
                     (elements (fga_tuples (as_fga ex_two)))).
    { refine (@bool_decide_unpack _ _ _). by vm_compute. }
    rewrite Forall_forall in Hall. apply Hother, Hall; [by apply elem_of_elements|done].
Qed.

Lemma DeleteUser_unmanaged_witness :
  ∃ s', ex_leaves "alice" ex_two = (s', Ok tt) ∧ (101%N ∉ projects (tables s')) ∧
    ac_users (as_accounts s') = filter (λ p, p.2 ≠ "alice") (ac_users (as_accounts ex_two)).
Proof.
  destruct (ex_leaves "alice" ex_two) as [s' r] eqn:Hrun.
  pose proof (f_equal snd Hrun) as Hr. cbn [snd] in Hr. vm_compute in Hr. subst r.
  destruct (@DeleteUser_unmanaged _ _ _ _ _ ex_fga_laws ex_deletion_laws 5 "alice" ex_two s' _
    ex_two_wf ex_two_honest Hrun) as (_ & _ & Hok).
  destruct (Hok eq_refl) as [Hgone Husers]. exists s'. split; [reflexivity|]. split.
  - apply (Hgone "admin" 101%N); [|exact ex_alone]. refine (@bool_decide_unpack _ _ _). vm_compute. exact I.
  - apply Husers; [discriminate|].
    assert (Hu : ac_users (as_accounts ex_two) = {[1%Z := "alice"]}) by (vm_compute; reflexivity).
    unfold subjects_unique. rewrite Hu. clear.
    intros id1 id2 sub [<- _]%lookup_singleton_Some [<- _]%lookup_singleton_Some. reflexivity.
Defined.

(** The rename is read back. *)
Definition ex_rename : Change := Patch (Some ["display_name"]) "The web" "".

Lemma project_change_roundtrip_witness :
  ∃ s' answer, change_project (ex_on "alice" 101%N) ex_rename ex_two = (s', Ok answer) ∧
    pp_DisplayName answer = "The web" ∧ project_changed 101%N ex_rename answer ex_two s'.
Proof.
  destruct (change_project (ex_on "alice" 101%N) ex_rename ex_two) as [s' r] eqn:Hrun.
  pose proof (f_equal snd Hrun) as Hr. cbn [snd] in Hr. vm_compute in Hr. subst r.
  eexists s', _. split; [reflexivity|]. split; [reflexivity|].
  exact (project_change_roundtrip (ex_on "alice" 101%N) ex_rename ex_two s' _ Hrun).
Defined.


(** ** What the handlers do not prevent *)

Definition ex_faulty (faults : list (option gerr)) (s : AuthState ex_store) : AuthState ex_store :=
  with_world (set_faults faults (as_world s)) s.

Definition ex_also (t : Tuple) (s : AuthState ex_store) : AuthState ex_store :=
  with_fga {| xs_tuples := {[t]} ∪ xs_tuples (as_fga s); xs_down := xs_down (as_fga s) |} s.

Definition ex_tuples (s : AuthState ex_store) : list Tuple := elements (xs_tuples (as_fga s)).

(** When the commit fails the project is there and its roles are gone. *)
Example failed_commit_leaves_nobody :
  let '(s', r) := ex_deletion_of 101%N
                    (ex_faulty (replicate 8 None ++ [Some (EText "commit")])%list ex_two) in
  is_ok r = false ∧ elements (projects (tables s')) = [102%N; 101%N] ∧
  ex_tuples s' = [("user:alice", "create", "project:101")].
Proof. vm_compute. done. Qed.

(** The roles on a project below the one that is deleted stay. *)
Example roles_below_stay :
  let '(s', r) := ex_deletion_of 101%N (ex_also ("user:bob", "editor", "project:102") ex_two) in
  r = Ok "101" ∧ elements (projects (tables s')) = [] ∧
  ex_tuples s' = [("user:alice", "create", "project:101"); ("user:bob", "editor", "project:102")].
Proof. vm_compute. done. Qed.

(** Who administrates a project below which others have roles cannot be read. *)
Example role_below_hides_user :
  (GetUser [tt] 5 (Ok "alice") (ex_also ("user:bob", "editor", "project:102") ex_two)).2 =
  Err (EWrap "Unknown: " (EText
    "failed to get user dependencies: Internal: failed to parse role: role cannot be empty") "").
Proof. vm_compute. done. Qed.

(** The children of a project, listed recursively, have it among them. *)
Example children_with_parent :
  let listed recursive :=
    match (ListChildProjects (ex_on "alice" 101%N) recursive ex_two).2 with
    | Ok l => pp_Name <$> l
    | _ => []
    end in
  listed true = ["web"; "alice"] ∧ listed false = ["web"].
Proof. vm_compute. done. Qed.

(** A name that is taken at the top is no error of the API, unlike one below. *)
Example taken_at_the_top :
  (ProvisionProject ex_hierarchy (ex_on "alice" uuid_Nil) "alice" uuid_Nil ex_two).2
    = Err ErrProjectAlreadyExists ∧
  (ex_below "web" ex_two).2 = Err (status_error "AlreadyExists" "project named web already exists").
Proof. vm_compute. done. Qed.

(** A patch with an empty name to display is answered with it, and then the name
    of the project is displayed. *)
Example patched_to_no_name :
  let '(s', r) := change_project (ex_on "alice" 101%N) (Patch (Some ["display_name"]) "" "") ex_two in
  match r with Ok p => pp_DisplayName p | _ => "?" end = "" ∧
  match (ListProjects 5 (ex_on "alice" 101%N) s').2 with Ok l => pp_DisplayName <$> l | _ => [] end
    = ["alice"; "web"].
Proof. vm_compute. done. Qed.

(** Without a mask a patch panics. *)
Example patch_without_mask :
  (change_project (ex_on "alice" 101%N) (Patch None "x" "y") ex_two).2 = Panic nil_dereference.
Proof. vm_compute. done. Qed.

(** The time of a change is not kept. *)
Example change_not_dated :
  let later := with_world {| w_db := tables ex_two; w_now := 2000; w_fresh := 200; w_faults := [];
                             w_published := [] |} ex_two in
  match (change_project (ex_on "alice" 101%N) ex_rename later).2 with
  | Ok p => pp_UpdatedAt p
  | _ => 0%Z
  end = 1000%Z.
Proof. vm_compute. done. Qed.
